(* ===== verification/_CoqProject ===== *)
-Q . S2P
Prelude.v
Efi.v
Nand.v
Yaffs2Obj.v
Yaffs2Format.v
Yaffs2Latest.v
Yaffs2Tree.v
Yaffs2Scan.v
Yaffs2File.v
Yaffs2Volume.v
Npk.v
KernelExtract.v
Fdt.v
RouterOS.v
Boot.v
AlNand.v
Spi.v
SpiNor.v
SpiLoader.v
I2c.v
DwI2c.v
Pca954x.v
Fan.v
BoardInfo.v
DtPatch.v
Udma.v
Eth.v
EthUp.v
EthSnp.v
EthBinding.v
Format.v
FormatDisk.v
FlashApp.v
FlashBoot.v
Jitter.v
Platform.v
Smbios.v
Dump.v
BootMan.v
RouterBoot.v
