(* ===== verification/Prelude.v ===== *)
(** * Verification library for the CCR2004 UEFI firmware

    The firmware's own code, in C, translated definition by definition, with
    the theorems that say what it does. The vendored code (zlib, XZ Embedded,
    edk2's libraries, the Alpine HAL but for its DMA queues) is a parameter: a
    class of operations with the behaviour its documentation promises as laws,
    and an instance that shows the laws can hold.

    ** How the program is put together

    The boot ROM starts the SPI loader (src/SpiLoader) from the flash; it copies
    the firmware's ELF image into memory and jumps to it. The firmware's drivers
    (src/Drivers) then come up: the I2C controller, the switch behind it, the fan
    driver on one of its channels; the SPI NOR driver and the board information
    it holds; the device tree driver, which writes the board's MAC address into
    the tree; the NAND driver and the YAFFS2 file system on it. The RouterOS
    loader (src/Application/RouterOSLoader) reads the system package from that
    file system, takes the kernel out of it, tells it through the device tree
    where its initrd is, and starts it. The Ethernet driver offers the network to
    the shell, on the queues of the Alpine HAL's DMA engine. Before all of them the
    platform library sets up the pins and the GPIO expander and describes the
    memory; after them the boot manager library registers the consoles and the boot
    options, of which the RouterOS loader is the first. Applications for the shell
    prepare the machine: one writes the firmware image to the boot flash that the
    SPI loader reads, one partitions and formats a block device, one dumps a block
    device to a file; one goes back to MikroTik's own boot loader.

    ** The files

    Shared:
    - [Prelude]: words, buffers, strings.
    - [Efi]: status codes, the pool, MMIO, the timer, identifiers.
    - [Fdt]: libfdt, as a class with laws.

    The file system (Drivers/MtYaffs2Dxe, Include/Protocol/MikroTikNandFlash.h):
    - [Nand]: the flash protocol and what it promises.
    - [Yaffs2Obj]: the object table, the tags and the two page processors (Scan.c).
    - [Yaffs2Format]: a writer of the format, to state round trips against.
    - [Yaffs2Latest]: which version of a header or chunk wins.
    - [Yaffs2Tree]: BuildTree.
    - [Yaffs2Scan]: summaries, block scans, the whole scan, detection.
    - [Yaffs2File]: Open.c, ReadDir.c, Info.c.
    - [Yaffs2Volume]: Volume.c and the driver binding of MtYaffs2Dxe.c.
    - [AlNand]: Drivers/AlNandDxe, the implementation of [Nand]'s protocol.

    The RouterOS loader:
    - [Npk]: npk_parser.c and uefi_libc.h.
    - [KernelExtract]: KernelExtract.c.
    - [RouterOS]: RouterOSLoader.c and KernelBoot.c, on top of both, over any file
      system that keeps the promises of the class [EfiFileLaws].
    - [Boot]: a mounted YAFFS2 volume as such a file system.

    The boot flash and what depends on it:
    - [Spi]: the SPI HAL and the flash chip's command set.
    - [SpiNor]: Drivers/SpiNorFlashDxe.
    - [SpiLoader]: ElfLoader.c, SpiFlash.c, Support.c and Main.c.
    - [BoardInfo]: Drivers/BoardInfoDxe, a client of [SpiNor].
    - [DtPatch]: Drivers/DtPatchDxe, a client of [BoardInfo].

    The I2C buses:
    - [I2c]: the master interface and its laws.
    - [DwI2c]: Drivers/DwI2cDxe, which implements it on the controller.
    - [Pca954x]: Drivers/Pca954xDxe, which implements it on a channel of a switch
      over any other master.
    - [Fan]: Drivers/FanDxe, a client.

    The network:
    - [Udma]: the queues of the DMA engine and the Ethernet data path on them
      (Library/AlpineHalLib: al_hal_udma.h, al_hal_udma_main.c,
      al_hal_eth_main.c).
    - [Eth]: Drivers/AlEthNextDxe, the PHY, the controller's bring-up and the
      methods of the Simple Network Protocol, with the lemma of each step on the
      rings.
    - [EthUp]: bring-up and shutdown as a whole, over the class [EthHwLaws] of
      what is left of the HAL.
    - [EthSnp]: the protocol's runs, its specification [LINK] and the simulation.
    - [EthBinding]: the driver binding and the entry point.

    The tools and the rest:
    - [Format]: Application/FormatBlockApp, over any block device.
    - [FormatDisk]: what it leaves on the disk, read back.
    - [FlashApp]: Application/FlashApp, a client of [SpiNor].
    - [FlashBoot]: from [FlashApp] to [SpiLoader].
    - [Jitter]: Library/JitterArmTrngLib.
    - [Platform]: Library/PlatformLib, and the descriptions of
      Library/PciHostBridgeLib and Drivers/PlatformGpioDxe.
    - [Smbios]: Drivers/SmbiosPlatformDxe, a client of [BoardInfo].
    - [Dump]: Application/DumpBlockApp, with [AlNand] as a source.
    - [BootMan]: Library/PlatformBootManagerLib.
    - [RouterBoot]: Application/RouterBootApp.

    ** How state and operations correspond

    A C function is a Definition of the same name; a loop or a block of a long
    function is a helper whose comment names it. State the code keeps in a
    structure is a Record with the structure's fields. Pointers out of a function
    are components of its result; a pointer argument that may be NULL is an
    [option] or a flag. An integer is a [Z] in its range, and the arithmetic that
    can wrap is written [+u32], [+u64] and so on. A buffer is the list of its
    bytes. A result of [None] is a fault: a read or a write outside a buffer, the
    use of what was never set, undefined behaviour in general. "No fault" is
    therefore a theorem, never an assumption. Allocations are counted by the pool
    of [Efi], whose script makes any of them fail; what a zlib stream or an XZ
    decoder holds counts as one allocation while it is open. The debug log is left out,
    except where it is the console of the SPI loader.

    ** What the theorems show

    - The file system keeps the newest version of everything, in whatever order
      the pages are met ([Yaffs2Latest]), never leaves its tables ([Yaffs2Obj],
      [Yaffs2Scan]) and builds the same table through a summary that describes its
      pages as page by page; on a flash without errors the volume it mounts is the one the format
      describes. Paths resolve and files and directories read as the object table
      says ([Yaffs2File]). What is mounted is freed and its interface uninstalled,
      if the boot services let it ([Yaffs2Volume]). The NAND driver is an instance of
      the protocol's class ([AlNand]), so this holds above it.
    - The package parser reads back what is written, and no package makes it
      leave its buffer ([Npk]). Kernel extraction is safe up to one wrap in an
      unchecked sum, which a theorem exhibits ([KernelExtract]). [RouterOS] puts
      them together: from the filesystem handles to StartImage, with the exact
      list of what the machine is made to do, and the status of every run that
      ends before the kernel. [Boot] starts from the pages of the NAND flash.
    - The SPI NOR driver's erase and write compose to an update of exactly the
      bytes asked for ([SpiNor]). The SPI loader jumps to an image that validates,
      with each segment in place, its zeroes cleared and the caches written back, but
      for a segment in the last cache line of the address space ([SpiLoader]).
    - An I2C request whose operations all move bytes, decoded as the controller
      puts it on the bus, is the caller's packet; any request ends, whatever the
      registers answer ([DwI2c]). The switch's channels never reach another
      channel's bus, in every interleaving of requests, resets and frequency
      changes, as long as nobody addresses the switch itself ([Pca954x]). The fan controller's
      frames are checked ([Fan]).
    - The board's block in the flash parses safely and round trips ([BoardInfo]),
      and the address in it arrives in the tree the kernel is given ([DtPatch]).

    - The completion ring is read the same in pieces as at once, and a prepared
      packet is exactly the words of its descriptors ([Udma]). The Simple Network Protocol is
      the abstract link [LINK]: a queue of received frames, one buffer in flight,
      33 pages while it is up, in every interleaving of calls, arrivals and
      hardware changes ([EthSnp], by a simulation whose invariant [link_inv] ties
      the rings, the buffers and the pages together); a frame that does not fit the
      caller's buffer is consumed. The driver's life leaves nothing behind but the
      pages of an interface that was stopped without a shutdown or failed to come
      up ([EthBinding]).
    - A formatted device holds what it held overlaid with exactly the partition
      table and the volume, and both read back, with the type that a reader gives
      the volume; where it does not, the exact sizes are stated ([FormatDisk]).
    - The flash application reports success only for a file that is in the flash,
      byte for byte ([FlashApp]); the SPI loader then starts it ([FlashBoot]).
    - A request for entropy returns a function of the counter's readings, and
      never more than was asked for ([Jitter]).
    - The platform's initialisation ends with exactly the register writes listed,
      and every window that a driver of this library accesses is device memory in
      the map ([Platform]). The board's name and serial number arrive in the SMBIOS
      records, whose strings and references are sound ([Smbios]). A dump holds the
      blocks asked for ([Dump]). Boot options are registered once and in order
      ([BootMan]). The chain loader jumps with exact copies, and with the boot
      services left when the firmware keeps its rules ([RouterBoot]).

    Some theorems say where the code does not do what it means to: the names end
    in [_wraps], [_faults], [_bounds], [_leaks] or [_partial], and
    [type_right_512] and [small_device_loses_backup] are of the kind.

    ** Loops and fuel

    A loop over a list or a count is structural. The others take a fuel that the
    calling definition computes from its arguments, and running out of it is a
    fault: a theorem that shows a result shows that the fuel is enough. Examples:
    a record of the board block takes at least its 4-byte header, an entry of a
    package 30 bytes and a container 6, a page write at least one byte, and the descriptors of a
    packet are on a ring of known size, the partition entries are written a block
    at a time and the flash a sector at a time. Where the
    code really waits, the number of turns is the code's own bound
    ([DwI2c], [SpiNor], the expander in [Platform]). Where it has none, the wait for
    the UART in [SpiLoader], zlib's progress in [Npk], the end-of-DXE callback of
    [DwI2c] and the wait for the disabled controller in [Platform], the fuel is a
    parameter and the theorems say what the environment must do for it to suffice
    ([pending s < zfuel] for zlib).

    ** Not modelled

    - The vendored trees: Library/AlpineHalLib (but for what [Udma] and [Eth]
      name), SpiLoader/hal, Library/ZlibLib, Application/RouterOSLoader/XzDec.
    - Assembly: SpiLoader/Entry.S, Library/PlatformLib/AArch64 and the trampoline of
      Application/RouterBootApp.
    - TftpPutApp and the probes (NandProbeApp, BoardI2cEepromProbeApp), shell
      applications that pass on to UEFI libraries and print what they answer.

    ** Conventions of this file

    Words, byte buffers, C strings and the lemmas on them, shared by all. *)

From Stdlib Require Export ZArith Lia.
From stdpp Require Export base tactics option list gmap numbers.

#[global] Open Scope Z_scope.
#[global] Arguments Z.shiftl : simpl never.
#[global] Arguments Z.shiftr : simpl never.
#[global] Arguments Z.lor : simpl never.
#[global] Arguments Z.land : simpl never.
#[global] Arguments Z.lxor : simpl never.
#[global] Arguments Z.modulo : simpl never.
#[global] Arguments Z.div : simpl never.
#[global] Arguments Z.of_nat : simpl never.

(** ** Machine integers

    A w-bit unsigned integer of the C code is a [Z] in [0, 2^w); every
    arithmetic operation that can leave the range is wrapped explicitly. *)

Definition u8 (x : Z) : Z := x mod 2 ^ 8.
Definition u16 (x : Z) : Z := x mod 2 ^ 16.
Definition u32 (x : Z) : Z := x mod 2 ^ 32.
Definition u64 (x : Z) : Z := x mod 2 ^ 64.

Declare Scope word_scope.
Delimit Scope word_scope with word.
Notation "a +u32 b" := (u32 (a + b)) (at level 50, left associativity) : word_scope.
Notation "a -u32 b" := (u32 (a - b)) (at level 50, left associativity) : word_scope.
Notation "a *u32 b" := (u32 (a * b)) (at level 40, left associativity) : word_scope.
Notation "a +u64 b" := (u64 (a + b)) (at level 50, left associativity) : word_scope.
Notation "a -u64 b" := (u64 (a - b)) (at level 50, left associativity) : word_scope.
Notation "a *u64 b" := (u64 (a * b)) (at level 40, left associativity) : word_scope.
#[global] Open Scope word_scope.

Abbreviation len l := (Z.of_nat (length l)) (only parsing).

Definition byte_ok (b : Z) : Prop := 0 <= b < 2 ^ 8.

(** A test of the C code on unsigned integers. *)
Definition zbetween (lo x hi : Z) : bool := (lo <=? x) && (x <=? hi).

(** ** Buffers

    A C buffer is the list of its bytes. Reading or writing outside it is
    undefined behaviour of the C code and is the [None] of the model: the
    development calls it a fault. *)

Section Buffers.
Context {A : Type}.
Implicit Types l : list A.

(** [l[i]] *)
Fixpoint rd (l : list A) (i : Z) : option A :=
  match l with
  | [] => None
  | x :: l' => if i =? 0 then Some x else rd l' (i - 1)
  end.

Definition in_bounds (l : list A) (off n : Z) : bool :=
  (0 <=? off) && (0 <=? n) && (off + n <=? len l).

(** The [n] elements from offset [off]: the source of a [CopyMem]. *)
Definition rdn (l : list A) (off n : Z) : option (list A) :=
  if in_bounds l off n then Some (take (Z.to_nat n) (drop (Z.to_nat off) l))
  else None.

(** [data] written at offset [off]: the destination of a [CopyMem]. *)
Definition wrn (l : list A) (off : Z) (data : list A) : option (list A) :=
  if in_bounds l off (len data)
  then Some (take (Z.to_nat off) l ++ data ++ drop (Z.to_nat off + length data) l)
  else None.
End Buffers.

(** Little-endian loads: [*(UINT32 * )(buf + off)] and the byte-wise
    [read_le16]/[read_le32] of the code compute the same value. *)
Definition le16 (buf : list Z) (off : Z) : option Z :=
  b0 ← rd buf off; b1 ← rd buf (off + 1);
  Some (Z.lor b0 (Z.shiftl b1 8)).

Definition le32 (buf : list Z) (off : Z) : option Z :=
  b0 ← rd buf off; b1 ← rd buf (off + 1);
  b2 ← rd buf (off + 2); b3 ← rd buf (off + 3);
  Some (Z.lor (Z.lor (Z.lor b0 (Z.shiftl b1 8)) (Z.shiftl b2 16)) (Z.shiftl b3 24)).

Definition le64 (buf : list Z) (off : Z) : option Z :=
  lo ← le32 buf off; hi ← le32 buf (off + 4);
  Some (Z.lor lo (Z.shiftl hi 32)).

(** The inverse: the [n] little-endian bytes of [v]. *)
Fixpoint le_bytes (n : nat) (v : Z) : list Z :=
  match n with
  | O => []
  | S n' => v mod 2 ^ 8 :: le_bytes n' (v / 2 ^ 8)
  end.

(** ** Loops *)

(** [for (i = from; n times; i++) body]: the body may fault. *)
Fixpoint for_loop {S} (n : nat) (i : Z) (body : Z → S → option S) (s : S) : option S :=
  match n with
  | O => Some s
  | Datatypes.S n' => s' ← body i s; for_loop n' (i + 1) body s'
  end.

(** The same for a body that may [break]: it returns the new state and whether
    the loop goes on. *)
Fixpoint for_break {S} (n : nat) (i : Z) (body : Z → S → option (S * bool)) (s : S)
    : option S :=
  match n with
  | O => Some s
  | Datatypes.S n' =>
      '(s', go) ← body i s;
      if go : bool then for_break n' (i + 1) body s' else Some s'
  end.

(** ** C strings *)

(** The characters before the first NUL of a buffer. *)
Fixpoint cstr (s : list Z) : list Z :=
  match s with
  | [] => []
  | c :: s' => if c =? 0 then [] else c :: cstr s'
  end.

(** [AsciiStrLen]: a fault when the buffer holds no NUL. *)
Fixpoint AsciiStrLen (s : list Z) : option Z :=
  match s with
  | [] => None
  | c :: s' => if c =? 0 then Some 0 else n ← AsciiStrLen s'; Some (n + 1)
  end.

(** [AsciiStrnCmp (a, b, n)] of BaseLib: stops at the first NUL, at the first
    difference, or after [n] characters. *)
Fixpoint AsciiStrnCmp (a b : list Z) (n : nat) : option Z :=
  match n with
  | O => Some 0
  | S n' =>
      x ← head a; y ← head b;
      if negb (x =? 0) && negb (y =? 0) && (x =? y) && (1 <? Z.of_nat n)
      then AsciiStrnCmp (tail a) (tail b) n'
      else Some (x - y)
  end.

(** [AsciiStrCmp] of BaseLib and the [strcmp] of uefi_libc.h: reads both
    strings up to the first difference or NUL. *)
Fixpoint AsciiStrCmp (a b : list Z) : option Z :=
  match a, b with
  | x :: a', y :: b' =>
      if negb (x =? 0) && (x =? y) then AsciiStrCmp a' b' else Some (x - y)
  | _, _ => None
  end.

(** * Lemmas *)

(** ** Words *)

Create HintDb fw.

Lemma u8_range x : 0 <= u8 x < 2 ^ 8.
Proof. apply Z.mod_pos_bound. lia. Qed.
Lemma u16_range x : 0 <= u16 x < 2 ^ 16.
Proof. apply Z.mod_pos_bound. lia. Qed.
Lemma u32_range x : 0 <= u32 x < 2 ^ 32.
Proof. apply Z.mod_pos_bound. lia. Qed.
Lemma u64_range x : 0 <= u64 x < 2 ^ 64.
Proof. apply Z.mod_pos_bound. lia. Qed.

Lemma u8_small x : 0 <= x < 2 ^ 8 → u8 x = x.
Proof. apply Z.mod_small. Qed.
Lemma u16_small x : 0 <= x < 2 ^ 16 → u16 x = x.
Proof. apply Z.mod_small. Qed.
Lemma u32_small x : 0 <= x < 2 ^ 32 → u32 x = x.
Proof. apply Z.mod_small. Qed.
Lemma u64_small x : 0 <= x < 2 ^ 64 → u64 x = x.
Proof. apply Z.mod_small. Qed.

#[export] Hint Resolve u8_range u16_range u32_range u64_range : fw.

(** Drop the wraps of in-range operations, side conditions by [lia]. *)
Ltac no_wrap :=
  repeat first
    [ rewrite u8_small in * by lia | rewrite u16_small in * by lia
    | rewrite u32_small in * by lia | rewrite u64_small in * by lia ].

(** Boolean tests of the code as propositions for [lia]. *)
Ltac b2p :=
  repeat match goal with
  | H : (_ && _)%bool = true |- _ => apply andb_true_iff in H; destruct H
  | H : (_ || _)%bool = false |- _ => apply orb_false_iff in H; destruct H
  | H : negb _ = true |- _ => apply negb_true_iff in H
  | H : negb _ = false |- _ => apply negb_false_iff in H
  | H : (_ =? _) = true |- _ => apply Z.eqb_eq in H
  | H : (_ =? _) = false |- _ => apply Z.eqb_neq in H
  | H : (_ <? _) = true |- _ => apply Z.ltb_lt in H
  | H : (_ <? _) = false |- _ => apply Z.ltb_ge in H
  | H : (_ <=? _) = true |- _ => apply Z.leb_le in H
  | H : (_ <=? _) = false |- _ => apply Z.leb_gt in H
  end.

(** Case analysis on the innermost boolean test of the goal. *)
Ltac case_b :=
  match goal with
  | |- context [if ?b then _ else _] =>
      lazymatch b with context [if _ then _ else _] => fail | _ => idtac end;
      let E := fresh "E" in destruct b eqn:E
  end.

(** Inversion of a computation of the option monad that returned. *)
Ltac inv_ret :=
  repeat match goal with
  | H : mbind _ _ = Some _ |- _ => apply bind_Some in H as (? & ? & ?)
  | H : Some _ = Some _ |- _ => injection H as H; try subst
  | H : None = Some _ |- _ => discriminate H
  | H : Some _ = None |- _ => discriminate H
  | H : (_, _) = (_, _) |- _ => injection H as ?; subst
  | x : (_ * _)%type |- _ => destruct x; simpl in *
  end.

Lemma zbetween_spec lo x hi : zbetween lo x hi = true ↔ lo <= x <= hi.
Proof. unfold zbetween. rewrite andb_true_iff, !Z.leb_le. done. Qed.

(** ** Buffers *)

Section BufferLemmas.
Context {A : Type}.
Implicit Types l : list A.

Lemma rd_lookup l i : 0 <= i → rd l i = l !! Z.to_nat i.
Proof.
  revert i. induction l as [|x l IH]; intros i Hi; simpl.
  - by rewrite lookup_nil.
  - destruct (Z.eqb_spec i 0) as [->|Hne]; [done|].
    rewrite IH by lia.
    replace (Z.to_nat i) with (S (Z.to_nat (i - 1))) by lia. done.
Qed.

Lemma rd_neg l i : i < 0 → rd l i = None.
Proof.
  revert i. induction l as [|x l IH]; intros i Hi; simpl; [done|].
  destruct (Z.eqb_spec i 0); [lia|]. apply IH. lia.
Qed.

Lemma rd_is_Some l i : is_Some (rd l i) ↔ 0 <= i < len l.
Proof.
  destruct (decide (0 <= i)) as [Hi|Hi].
  - rewrite rd_lookup, lookup_lt_is_Some by done. lia.
  - rewrite rd_neg by lia. split; [intros [? ?]; done | lia].
Qed.

Lemma rd_Some l i x : rd l i = Some x → 0 <= i < len l.
Proof. intros H. apply rd_is_Some. by exists x. Qed.

Lemma rd_None l i : ~ (0 <= i < len l) → rd l i = None.
Proof.
  intros H. destruct (rd l i) eqn:E; [|done]. apply rd_Some in E. lia.
Qed.

Lemma rd_in l i x : rd l i = Some x → x ∈ l.
Proof.
  intros H. pose proof (rd_Some _ _ _ H). rewrite rd_lookup in H by lia.
  by eapply list_elem_of_lookup_2.
Qed.

Lemma rd_app_l l1 l2 i : i < len l1 → rd (l1 ++ l2) i = rd l1 i.
Proof.
  intros H. destruct (decide (0 <= i)) as [Hi|Hi].
  - rewrite !rd_lookup by done. apply lookup_app_l. lia.
  - by rewrite !rd_neg by lia.
Qed.

Lemma rd_app_r l1 l2 i : len l1 <= i → rd (l1 ++ l2) i = rd l2 (i - len l1).
Proof.
  intros H. rewrite !rd_lookup by lia. rewrite lookup_app_r by lia.
  f_equal. lia.
Qed.

Lemma rd_drop l n i : 0 <= n → 0 <= i → rd (drop (Z.to_nat n) l) i = rd l (n + i).
Proof.
  intros. rewrite !rd_lookup by lia. rewrite lookup_drop. f_equal. lia.
Qed.

Lemma rd_take l n i : i < n → rd (take (Z.to_nat n) l) i = rd l i.
Proof.
  intros. destruct (decide (0 <= i)) as [Hi|Hi].
  - rewrite !rd_lookup by done. apply lookup_take_lt. lia.
  - by rewrite !rd_neg by lia.
Qed.

Lemma in_bounds_spec l off n :
  in_bounds l off n = true ↔ 0 <= off ∧ 0 <= n ∧ off + n <= len l.
Proof. unfold in_bounds. rewrite !andb_true_iff, !Z.leb_le. tauto. Qed.

Lemma rdn_eq l off n :
  0 <= off → 0 <= n → off + n <= len l →
  rdn l off n = Some (take (Z.to_nat n) (drop (Z.to_nat off) l)).
Proof.
  intros. unfold rdn. by rewrite (proj2 (in_bounds_spec l off n)).
Qed.

Lemma rdn_Some l off n s :
  rdn l off n = Some s →
  0 <= off ∧ 0 <= n ∧ off + n <= len l ∧ len s = n
  ∧ s = take (Z.to_nat n) (drop (Z.to_nat off) l).
Proof.
  unfold rdn. destruct (in_bounds l off n) eqn:E; [|done].
  apply in_bounds_spec in E. intros [= <-].
  rewrite length_take, length_drop. repeat split; try tauto; lia.
Qed.

Lemma rdn_app_mid l1 s l2 :
  rdn (l1 ++ s ++ l2) (len l1) (len s) = Some s.
Proof.
  rewrite rdn_eq by (rewrite ?length_app; lia).
  rewrite !Nat2Z.id, drop_app_length, take_app_length. done.
Qed.

Lemma wrn_eq l off data :
  0 <= off → off + len data <= len l →
  wrn l off data =
    Some (take (Z.to_nat off) l ++ data ++ drop (Z.to_nat off + length data) l).
Proof.
  intros. unfold wrn. rewrite (proj2 (in_bounds_spec l off (len data))); [done|lia].
Qed.

Lemma rdn_app_r l1 l2 off n :
  len l1 <= off → rdn (l1 ++ l2) off n = rdn l2 (off - len l1) n.
Proof.
  intros Hoff. unfold rdn, in_bounds. rewrite length_app.
  replace (Z.to_nat off) with (length l1 + Z.to_nat (off - len l1))%nat by lia.
  rewrite drop_app_add. 
  destruct (decide (0 <= n ∧ off + n <= len l1 + len l2)).
  - rewrite !(proj2 (andb_true_iff _ _)); [done|..];
      rewrite ?andb_true_iff, !Z.leb_le; lia.
  - rewrite !(proj2 (andb_false_iff _ _)); [done|..];
      rewrite ?andb_false_iff, !Z.leb_gt; lia.
Qed.

Lemma rdn_app_0 s l n : 0 <= n <= len s → rdn (s ++ l) 0 n = Some (take (Z.to_nat n) s).
Proof.
  intros. rewrite rdn_eq by (rewrite ?length_app; lia).
  change (Z.to_nat 0) with O. rewrite drop_0. by rewrite take_app_le by lia.
Qed.

Lemma wrn_length l off data l' : wrn l off data = Some l' → length l' = length l.
Proof.
  unfold wrn. destruct (in_bounds _ _ _) eqn:E; [|done].
  apply in_bounds_spec in E. intros [= <-].
  rewrite !length_app, length_take, length_drop. lia.
Qed.

Lemma wrn_0 l data :
  len data <= len l → wrn l 0 data = Some (data ++ drop (length data) l).
Proof. intros. rewrite wrn_eq by lia. by rewrite take_0. Qed.

(** An array element assigned. *)
Lemma wrn_1 l i v :
  0 <= i < len l →
  ∃ l', wrn l i [v] = Some l' ∧ length l' = length l ∧
        ∀ j, rd l' j = if j =? i then Some v else rd l j.
Proof.
  intros Hi. destruct (wrn l i [v]) as [l'|] eqn:E.
  2:{ rewrite wrn_eq in E by (simpl; lia). done. }
  exists l'. split; [done|]. split; [by eapply wrn_length|].
  rewrite wrn_eq in E by (simpl; lia). injection E as <-. intros j.
  assert (Hlt : length (take (Z.to_nat i) l) = Z.to_nat i) by (rewrite length_take; lia).
  destruct (Z.eqb_spec j i) as [->|Hne].
  { rewrite rd_app_r by lia. replace (i - _) with 0 by lia. done. }
  destruct (decide (j < i)).
  - rewrite rd_app_l by lia. apply rd_take. lia.
  - rewrite rd_app_r by lia. cbn [rd]. rewrite Hlt. rewrite (proj2 (Z.eqb_neq _ _)) by lia.
    replace (Z.to_nat i + 1)%nat with (Z.to_nat (i + 1)) by lia.
    destruct (decide (j < len l)).
    + rewrite rd_drop by lia. f_equal. lia.
    + rewrite !rd_None; [done|lia|rewrite length_drop; lia].
Qed.
End BufferLemmas.

(** ** Little-endian values *)

Lemma land_shiftl_0 a b n : 0 <= n → 0 <= a < 2 ^ n → Z.land a (Z.shiftl b n) = 0.
Proof.
  intros Hn Ha. apply Z.bits_inj'. intros i Hi.
  rewrite Z.land_spec, Z.bits_0.
  destruct (decide (i < n)) as [Hlt|Hge].
  - rewrite Z.shiftl_spec_low by lia. apply andb_false_r.
  - destruct (decide (a = 0)) as [->|]; [by rewrite Z.bits_0|].
    rewrite andb_comm, (Z.bits_above_log2 a i), andb_false_r; [done|lia|].
    apply Z.log2_lt_pow2; [lia|].
    apply Z.lt_le_trans with (2 ^ n); [lia|]. apply Z.pow_le_mono_r; lia.
Qed.

Lemma lor_shiftl_add a b n :
  0 <= n → 0 <= a < 2 ^ n → Z.lor a (Z.shiftl b n) = a + b * 2 ^ n.
Proof.
  intros Hn Ha. pose proof (Z.add_lor_land a (Z.shiftl b n)) as E.
  rewrite land_shiftl_0, Z.shiftl_mul_pow2 in E by done.
  rewrite Z.shiftl_mul_pow2 by done. lia.
Qed.

Lemma lor16 b0 b1 : byte_ok b0 → Z.lor b0 (Z.shiftl b1 8) = b0 + b1 * 2 ^ 8.
Proof. intros. apply lor_shiftl_add; [lia|done]. Qed.

Lemma lor32 b0 b1 b2 b3 :
  byte_ok b0 → byte_ok b1 → byte_ok b2 →
  Z.lor (Z.lor (Z.lor b0 (Z.shiftl b1 8)) (Z.shiftl b2 16)) (Z.shiftl b3 24)
  = b0 + b1 * 2 ^ 8 + b2 * 2 ^ 16 + b3 * 2 ^ 24.
Proof.
  unfold byte_ok. intros.
  rewrite (lor_shiftl_add b0 b1 8) by lia.
  rewrite (lor_shiftl_add (b0 + b1 * 2 ^ 8) b2 16) by lia.
  rewrite (lor_shiftl_add (b0 + b1 * 2 ^ 8 + b2 * 2 ^ 16) b3 24) by lia. done.
Qed.

Lemma rd_byte_ok buf i b : Forall byte_ok buf → rd buf i = Some b → byte_ok b.
Proof. intros Hf H. apply rd_in in H. by eapply (proj1 (list.Forall_forall _ _)) in Hf. Qed.

(** A concrete buffer is checked by evaluation. *)
Definition bytes_okb (l : list Z) : bool := forallb (λ b, (0 <=? b) && (b <? 2 ^ 8)) l.

Lemma bytes_okb_spec l : bytes_okb l = true → Forall byte_ok l.
Proof.
  unfold bytes_okb. rewrite forallb_forall, list.Forall_forall. intros H x Hx.
  apply list_elem_of_In, H in Hx. unfold byte_ok. b2p. lia.
Qed.

Lemma le16_range buf off v : Forall byte_ok buf → le16 buf off = Some v → 0 <= v < 2 ^ 16.
Proof.
  intros Hf H. unfold le16 in H. inv_ret.
  repeat match goal with H : rd _ _ = Some _ |- _ => apply (rd_byte_ok _ _ _ Hf) in H end.
  rewrite lor16 by done. unfold byte_ok in *. lia.
Qed.

Lemma le32_range buf off v : Forall byte_ok buf → le32 buf off = Some v → 0 <= v < 2 ^ 32.
Proof.
  intros Hf H. unfold le32 in H. inv_ret.
  repeat match goal with H : rd _ _ = Some _ |- _ => apply (rd_byte_ok _ _ _ Hf) in H end.
  rewrite lor32 by done. unfold byte_ok in *. lia.
Qed.

Lemma le64_range buf off v : Forall byte_ok buf → le64 buf off = Some v → 0 <= v < 2 ^ 64.
Proof.
  intros Hf H. unfold le64 in H. inv_ret.
  repeat match goal with H : le32 _ _ = Some _ |- _ => apply (le32_range _ _ _ Hf) in H end.
  rewrite lor_shiftl_add by lia. lia.
Qed.

Lemma rd_in_range (buf : list Z) i : 0 <= i < len buf → ∃ b, rd buf i = Some b.
Proof. apply rd_is_Some. Qed.

(** A load inside the buffer returns. *)
Ltac reads_in_bounds :=
  repeat match goal with
  | |- context [rd ?buf ?i] =>
      let b := fresh "b" in let E := fresh "E" in
      destruct (rd_in_range buf i) as [b E]; [lia | rewrite E; simpl]
  end.

Lemma le16_is_Some buf off : 0 <= off → off + 2 <= len buf → is_Some (le16 buf off).
Proof. intros. unfold le16. reads_in_bounds. eauto. Qed.

Lemma le32_is_Some buf off : 0 <= off → off + 4 <= len buf → is_Some (le32 buf off).
Proof. intros. unfold le32. reads_in_bounds. eauto. Qed.

Lemma le64_is_Some buf off : 0 <= off → off + 8 <= len buf → is_Some (le64 buf off).
Proof.
  intros. unfold le64.
  destruct (le32_is_Some buf off) as [? ->]; [lia..|].
  destruct (le32_is_Some buf (off + 4)) as [? ->]; [lia..|]. simpl. eauto.
Qed.

Lemma le16_bounds buf off v : le16 buf off = Some v → 0 <= off ∧ off + 2 <= len buf.
Proof.
  unfold le16. intros. inv_ret.
  repeat match goal with H : rd _ _ = Some _ |- _ => apply rd_Some in H end. lia.
Qed.

Lemma le32_bounds buf off v : le32 buf off = Some v → 0 <= off ∧ off + 4 <= len buf.
Proof.
  unfold le32. intros. inv_ret.
  repeat match goal with H : rd _ _ = Some _ |- _ => apply rd_Some in H end. lia.
Qed.

Lemma length_le_bytes n v : length (le_bytes n v) = n.
Proof. revert v. induction n; simpl; auto. Qed.

Lemma le_bytes_ok n v : Forall byte_ok (le_bytes n v).
Proof.
  revert v. induction n; intros; simpl; constructor; [|done].
  apply Z.mod_pos_bound. lia.
Qed.

#[export] Hint Resolve le_bytes_ok : fw.

(** Loads only look at their own bytes. *)
Lemma le16_app_r pre buf off : len pre <= off → le16 (pre ++ buf) off = le16 buf (off - len pre).
Proof.
  intros. unfold le16. rewrite !rd_app_r by lia.
  by replace (off + 1 - len pre) with (off - len pre + 1) by lia.
Qed.

(** Encoding then loading gives the value back. *)
Lemma div_div_pow x a b : 0 <= a → 0 <= b → x / 2 ^ a / 2 ^ b = x / 2 ^ (a + b).
Proof. intros. rewrite Z.div_div, Z.pow_add_r by lia. done. Qed.

Lemma le16_encode pre post v :
  0 <= v < 2 ^ 16 → le16 (pre ++ le_bytes 2 v ++ post) (len pre) = Some v.
Proof.
  intros Hv. unfold le16.
  rewrite !(rd_app_r pre) by lia.
  replace (len pre - len pre) with 0 by lia.
  replace (len pre + 1 - len pre) with 1 by lia. simpl.
  rewrite lor16 by (apply Z.mod_pos_bound; lia). f_equal.
  rewrite (Z.mod_small (v / 2 ^ 8)) by (split; [apply Z.div_pos|apply Z.div_lt_upper_bound]; lia).
  pose proof (Z.div_mod v (2 ^ 8)). lia.
Qed.

Lemma le32_encode pre post v :
  0 <= v < 2 ^ 32 → le32 (pre ++ le_bytes 4 v ++ post) (len pre) = Some v.
Proof.
  intros Hv. unfold le32.
  rewrite !(rd_app_r pre) by lia.
  replace (len pre - len pre) with 0 by lia.
  replace (len pre + 1 - len pre) with 1 by lia.
  replace (len pre + 2 - len pre) with 2 by lia.
  replace (len pre + 3 - len pre) with 3 by lia. simpl.
  rewrite lor32 by (apply Z.mod_pos_bound; lia). f_equal.
  rewrite !Z.div_div by lia.
  change (2 ^ 8 * 2 ^ 8) with (2 ^ 16). change (2 ^ 8 * (2 ^ 16)) with (2 ^ 24).
  change (2 ^ 16 * 2 ^ 8) with (2 ^ 24).
  rewrite (Z.mod_small (v / 2 ^ 24))
    by (split; [apply Z.div_pos|apply Z.div_lt_upper_bound]; lia).
  pose proof (Z.div_mod v (2 ^ 8)). pose proof (Z.div_mod (v / 2 ^ 8) (2 ^ 8)).
  pose proof (Z.div_mod (v / 2 ^ 16) (2 ^ 8)).
  rewrite !Z.div_div in * by lia.
  change (2 ^ 8 * 2 ^ 8) with (2 ^ 16) in *. change (2 ^ 16 * 2 ^ 8) with (2 ^ 24) in *. lia.
Qed.

Lemma le64_encode pre post v :
  0 <= v < 2 ^ 64 → le64 (pre ++ le_bytes 8 v ++ post) (len pre) = Some v.
Proof.
  intros Hv. assert (E : le_bytes 8 v = le_bytes 4 (v mod 2 ^ 32) ++ le_bytes 4 (v / 2 ^ 32)).
  { cbn [le_bytes app]. change (2 ^ 8) with 256. change (2 ^ 32) with 4294967296.
    repeat (f_equal; [Z.to_euclidean_division_equations; lia|]).
    f_equal. Z.to_euclidean_division_equations. lia. }
  pose proof (Z.mod_pos_bound v (2 ^ 32)). pose proof (Z.div_mod v (2 ^ 32)).
  assert (0 <= v / 2 ^ 32 < 2 ^ 32) by (split; [apply Z.div_pos|apply Z.div_lt_upper_bound]; lia).
  unfold le64. rewrite E, <- !app_assoc. rewrite le32_encode by lia.
  assert (El : len pre + 4 = len (pre ++ le_bytes 4 (v mod 2 ^ 32))) by (rewrite length_app, length_le_bytes; lia).
  rewrite El, (app_assoc pre), le32_encode by done. cbn [mbind option_bind].
  rewrite lor_shiftl_add by lia. f_equal. lia.
Qed.

Lemma le16_app_mid pre mid buf off :
  len pre = off → le16 (pre ++ mid ++ buf) (off + len mid) = le16 (mid ++ buf) (len mid).
Proof.
  intros <-. rewrite le16_app_r by lia. f_equal. lia.
Qed.

Lemma le32_app_r pre buf off : len pre <= off → le32 (pre ++ buf) off = le32 buf (off - len pre).
Proof.
  intros. unfold le32. rewrite !(rd_app_r pre) by lia.
  replace (off + 1 - len pre) with (off - len pre + 1) by lia.
  replace (off + 2 - len pre) with (off - len pre + 2) by lia.
  by replace (off + 3 - len pre) with (off - len pre + 3) by lia.
Qed.

Lemma le16_app_l l1 l2 off : off + 2 <= len l1 → le16 (l1 ++ l2) off = le16 l1 off.
Proof. intros. unfold le16. by rewrite !(rd_app_l l1) by lia. Qed.

Lemma le32_app_l l1 l2 off : off + 4 <= len l1 → le32 (l1 ++ l2) off = le32 l1 off.
Proof. intros. unfold le32. by rewrite !(rd_app_l l1) by lia. Qed.

(** ** C strings *)

Lemma cstr_nonzero s c : c ∈ cstr s → c ≠ 0.
Proof.
  induction s as [|d s IH]; simpl; [by rewrite elem_of_nil|].
  destruct (Z.eqb_spec d 0); [by rewrite elem_of_nil|].
  rewrite elem_of_cons. intros [->|?]; auto.
Qed.

(** A terminated string is its characters, a NUL, and the rest. *)
Lemma cstr_prefix_nul s : 0 ∈ s → ∃ tl, s = cstr s ++ 0 :: tl.
Proof.
  induction s as [|c s IH]; simpl; [by rewrite elem_of_nil|].
  rewrite elem_of_cons. intros Hin. destruct (Z.eqb_spec c 0) as [->|Hc]; [by exists s|].
  destruct Hin as [?|Hin]; [lia|]. destruct (IH Hin) as [tl Htl]. exists tl.
  simpl. by rewrite Htl at 1.
Qed.

Lemma AsciiStrLen_cstr s : 0 ∈ s → AsciiStrLen s = Some (len (cstr s)).
Proof.
  induction s as [|c s IH]; simpl; [by rewrite elem_of_nil|].
  rewrite elem_of_cons. intros [<-|Hin]; [done|].
  destruct (Z.eqb_spec c 0) as [|Hc]; [done|].
  rewrite IH by done. simpl. f_equal. lia.
Qed.

Lemma AsciiStrLen_None s : AsciiStrLen s = None ↔ 0 ∉ s.
Proof.
  split.
  - intros H Hin. by rewrite AsciiStrLen_cstr in H.
  - induction s as [|c s IH]; simpl; [done|].
    rewrite not_elem_of_cons. intros [Hc Hin].
    destruct (Z.eqb_spec c 0); [lia|]. by rewrite IH.
Qed.

(** The name test of the path walk: a component [p] (NUL-free, CompLen
    characters) against a NUL-terminated name. *)
Lemma AsciiStrnCmp_prefix name p rest :
  0 ∈ name → Forall (λ c, c ≠ 0) p → p ≠ [] →
  ∃ r, AsciiStrnCmp name (p ++ rest) (length p) = Some r
       ∧ (r = 0 ↔ take (length p) (cstr name) = p).
Proof.
  intros H0 Hp Hne. revert name H0 Hne.
  induction Hp as [|c p Hc Hp IH]; intros name H0 Hne; [done|].
  destruct name as [|x name]; [by apply elem_of_nil in H0|]. simpl.
  destruct (Z.eqb_spec c 0) as [|_]; [done|].
  destruct (Z.eqb_spec x 0) as [->|Hx]; simpl.
  - exists (0 - c). split; [done|]. split; [lia|done].
  - destruct (Z.eqb_spec x c) as [->|Hxc]; simpl.
    + destruct p as [|c' p'].
      * simpl. exists (c - c). split; [done|]. rewrite take_0. split; [done|lia].
      * rewrite (proj2 (Z.ltb_lt _ _)) by (simpl; lia).
        destruct (IH name) as (r & Hr & Hiff); [set_solver|done|].
        exists r. split; [exact Hr|]. rewrite Hiff. simpl in *.
        split; [congruence|intros [=]; done].
    + exists (x - c). split; [done|]. split; [lia|intros [=]; congruence].
Qed.

(** [strcmp] of NUL-free strings is zero exactly for equal strings. *)
Lemma AsciiStrCmp_eq a b :
  Forall (λ c, c ≠ 0) a → Forall (λ c, c ≠ 0) b →
  ∃ r, AsciiStrCmp (a ++ [0]) (b ++ [0]) = Some r ∧ (r = 0 ↔ a = b).
Proof.
  intros Ha. revert b. induction Ha as [|x a Hx Ha IH]; intros b Hb.
  - destruct Hb as [|y b Hy Hb]; simpl; [by exists (0 - 0)|].
    exists (0 - y). split; [done|]. split; [lia|done].
  - simpl. rewrite (proj2 (Z.eqb_neq x 0)) by done. simpl.
    destruct Hb as [|y b Hy Hb]; simpl.
    + rewrite (proj2 (Z.eqb_neq x 0)) by done. exists (x - 0). split; [done|].
      split; [lia|done].
    + destruct (Z.eqb_spec x y) as [->|Hne].
      * destruct (IH b Hb) as (r & -> & Hr). exists r. split; [done|]. rewrite Hr.
        split; [congruence|intros [=]; done].
      * exists (x - y). split; [done|]. split; [lia|congruence].
Qed.

(** The same for a name inside a larger table, against a literal. *)
Lemma AsciiStrCmp_cstr a b :
  0 ∈ a → Forall (λ c, c ≠ 0) b →
  ∃ r, AsciiStrCmp a (b ++ [0]) = Some r ∧ (r = 0 ↔ cstr a = b).
Proof.
  intros Ha. revert b. induction a as [|x a IH]; intros b Hb; [by apply elem_of_nil in Ha|].
  simpl. destruct (Z.eqb_spec x 0) as [->|Hx].
  - destruct Hb as [|y b Hy Hb]; simpl; [by exists (0 - 0)|].
    exists (0 - y). split; [done|]. split; [lia|done].
  - assert (Ha' : 0 ∈ a) by (apply elem_of_cons in Ha as [?|?]; [lia|done]).
    destruct Hb as [|y b Hy Hb]; simpl.
    + rewrite (proj2 (Z.eqb_neq x 0)) by done. exists (x - 0). split; [done|].
      split; [lia|done].
    + destruct (Z.eqb_spec x y) as [->|Hne]; simpl.
      * destruct (IH Ha' b Hb) as (r & -> & Hr). exists r. split; [done|]. rewrite Hr.
        split; [congruence|intros [=]; done].
      * exists (x - y). split; [done|]. split; [lia|congruence].
Qed.

(** ** Loops *)

Section ForLoop.
Context {S : Type} (body : Z → S → option S).

(** The loop rule: an invariant indexed by the loop variable. *)
Lemma for_loop_inv (P : Z → S → Prop) n i s :
  P i s →
  (∀ j s, i <= j < i + Z.of_nat n → P j s → ∃ s', body j s = Some s' ∧ P (j + 1) s') →
  ∃ s', for_loop n i body s = Some s' ∧ P (i + Z.of_nat n) s'.
Proof.
  revert i s. induction n as [|n IH]; intros i s Hs Hstep; simpl.
  - exists s. split; [done|]. by replace (i + Z.of_nat 0) with i by lia.
  - destruct (Hstep i s) as (s1 & -> & Hs1); [lia|done|]. simpl.
    destruct (IH (i + 1) s1 Hs1) as (s' & Hl & HP).
    + intros j s2 Hj. apply Hstep. lia.
    + exists s'. split; [done|].
      by replace (i + Z.of_nat (Datatypes.S n)) with (i + 1 + Z.of_nat n) by lia.
Qed.

Lemma for_loop_app n m i s :
  for_loop (n + m) i body s =
    s' ← for_loop n i body s; for_loop m (i + Z.of_nat n) body s'.
Proof.
  revert i s. induction n as [|n IH]; intros i s; simpl.
  - by replace (i + Z.of_nat 0) with i by lia.
  - destruct (body i s); simpl; [|done]. rewrite IH.
    by replace (i + 1 + Z.of_nat n) with (i + Z.of_nat (Datatypes.S n)) by lia.
Qed.
End ForLoop.

(** ** Computations with a state *)

Section Wp.
Context {St A : Type}.
Implicit Types (m : St → option (A * St)) (P Q : A → St → Prop).

(** [m] runs from [s] without a fault and ends as [Q] says. *)
Definition wp m Q (s : St) : Prop := match m s with Some (a, s') => Q a s' | None => False end.

Lemma wp_mono m P Q s : wp m P s → (∀ a s', P a s' → Q a s') → wp m Q s.
Proof. unfold wp. destruct (m s) as [[a s']|]; auto. Qed.

Lemma wp_run m Q s : wp m Q s → ∃ a s', m s = Some (a, s') ∧ Q a s'.
Proof. unfold wp. destruct (m s) as [[a s']|]; [eauto|done]. Qed.

(** The same of the runs that end. *)
Definition wlp m Q (s : St) : Prop := ∀ a s', m s = Some (a, s') → Q a s'.

Lemma wp_wlp m Q s : wp m Q s → wlp m Q s.
Proof. unfold wp, wlp. intros Hw a s' E. by rewrite E in Hw. Qed.
End Wp.
