(* ===== verification/Efi.v ===== *)
(** * UEFI environment

    What the components share of the UEFI environment: status codes, the file
    protocol's constants, and the boot-services pool. The pool is a script of
    allocation results, so every allocation-failure path of the code is a run
    of the model, and it counts the live allocations, so that leaks are
    visible. *)

From S2P Require Import Prelude.

Inductive EFI_STATUS :=
  | EFI_SUCCESS
  | EFI_INVALID_PARAMETER
  | EFI_UNSUPPORTED
  | EFI_BAD_BUFFER_SIZE
  | EFI_BUFFER_TOO_SMALL
  | EFI_DEVICE_ERROR
  | EFI_WRITE_PROTECTED
  | EFI_OUT_OF_RESOURCES
  | EFI_VOLUME_CORRUPTED
  | EFI_VOLUME_FULL
  | EFI_MEDIA_CHANGED
  | EFI_NOT_FOUND
  | EFI_NO_RESPONSE
  | EFI_NO_MAPPING
  | EFI_TIMEOUT
  | EFI_ABORTED
  | EFI_COMPROMISED_DATA
  | EFI_LOAD_ERROR
  | EFI_NOT_READY
  | EFI_NOT_STARTED
  | EFI_ALREADY_STARTED
  | EFI_WARN_DELETE_FAILURE.

#[export] Instance EFI_STATUS_eq_dec : EqDecision EFI_STATUS.
Proof. solve_decision. Defined.

(** [EFI_ERROR (Status)]: the top bit of the code; warnings are not errors. *)
Definition EFI_ERROR (s : EFI_STATUS) : bool :=
  match s with
  | EFI_SUCCESS | EFI_WARN_DELETE_FAILURE => false
  | _ => true
  end.

Definition EFI_FILE_MODE_READ : Z := 0x1.
Definition EFI_FILE_MODE_WRITE : Z := 0x2.
Definition EFI_FILE_MODE_CREATE : Z := 0x8000000000000000.
Definition EFI_FILE_READ_ONLY : Z := 0x1.
Definition EFI_FILE_DIRECTORY : Z := 0x10.
Definition MAX_UINT64 : Z := 0xFFFFFFFFFFFFFFFF.

(** [OFFSET_OF (EFI_FILE_INFO, FileName)] and its companions, from the layout
    the UEFI specification gives these structures. *)
Definition SIZE_OF_EFI_FILE_INFO : Z := 80.
Definition SIZE_OF_EFI_FILE_SYSTEM_INFO : Z := 36.
Definition SIZEOF_EFI_FILE_SYSTEM_VOLUME_LABEL : Z := 2.

(** ** Pool allocations *)

Record Pool := mkPool {
  pool_script : list bool;   (* results of the next allocations; then success *)
  pool_live : Z              (* allocations not yet freed *)
}.

Definition AllocatePool (p : Pool) : bool * Pool :=
  match pool_script p with
  | [] => (true, mkPool [] (pool_live p + 1))
  | b :: s => (b, mkPool s (if b then pool_live p + 1 else pool_live p))
  end.

Definition FreePool (p : Pool) : Pool := mkPool (pool_script p) (pool_live p - 1).

(** A pool in which no allocation fails. *)
Definition pool_plenty (p : Pool) : Prop := pool_script p = [].

Lemma AllocatePool_plenty p :
  pool_plenty p → AllocatePool p = (true, mkPool [] (pool_live p + 1)).
Proof. unfold pool_plenty, AllocatePool. by intros ->. Qed.

Lemma AllocatePool_live p b p' :
  AllocatePool p = (b, p') → pool_live p' = pool_live p + (if b then 1 else 0).
Proof.
  unfold AllocatePool. destruct (pool_script p) as [|c s]; intros [= <- <-]; simpl.
  - done.
  - destruct c; lia.
Qed.

(** ** Device access *)

(** [MmioRead32] and [MmioWrite32] on the state of the hardware. *)
Class Mmio (H : Type) := {
  MmioRead32 : Z → H → Z * H;
  MmioWrite32 : Z → Z → H → H
}.

(** [MicroSecondDelay] of TimerLib. *)
Class Timer (H : Type) := { us_delay : Z → H → H }.

(** ** Identifiers *)

Record EFI_GUID := mkGuid { Data1 : Z; Data2 : Z; Data3 : Z; Data4 : list Z }.
#[export] Instance EFI_GUID_eq_dec : EqDecision EFI_GUID.
Proof. solve_decision. Defined.
