(* ===== verification/Nand.v ===== *)
(** * The NAND flash protocol

    [MIKROTIK_NAND_FLASH_PROTOCOL] (Include/Protocol/MikroTikNandFlash.h): the
    interface between the NAND driver and the file system. [NandFlash] is the
    protocol instance (geometry and the three operations over a device state),
    [NandLaws] is what the header promises of the operations, and [SimNand] is
    an implementation that satisfies it. *)

From S2P Require Import Prelude Efi.

(** A protocol instance over device states [D]. Each operation returns its
    status, the contents it leaves in the caller's buffer, and the new device
    state. *)
Class NandFlash (D : Type) := {
  PageSize : Z;
  PagesPerBlock : Z;
  NumBlocks : Z;
  ReadPage : Z → D → EFI_STATUS * list Z * D;
  ReadTags : Z → D → EFI_STATUS * list Z * D;
  ReadPageBody : D → EFI_STATUS * list Z * D
}.

(** The four [UINT32] words of a 16-byte tag buffer. *)
Definition tag_words (buf : list Z) : option (list Z) :=
  w0 ← le32 buf 0; w1 ← le32 buf 4; w2 ← le32 buf 8; w3 ← le32 buf 12;
  Some [w0; w1; w2; w3].

Definition all_ff (n : Z) : list Z := replicate (Z.to_nat n) 0xFF.

(** The contract of the header: a successful read returns the page; the page
    body follows a tag read of the same page ([latched]), and may be asked for
    only after a tag read that did not come back erased. *)
Class NandLaws (D : Type) `{NandFlash D} := {
  image : D → Z → list Z;
  latched : D → option Z;
  image_length d p : length (image d p) = Z.to_nat PageSize;
  image_bytes d p : Forall byte_ok (image d p);
  ReadPage_spec p d st buf d' :
    ReadPage p d = (st, buf, d') →
    (∀ q, image d' q = image d q) ∧ length buf = Z.to_nat PageSize ∧
    (EFI_ERROR st = false → buf = image d p);
  ReadTags_spec p d st buf d' :
    ReadTags p d = (st, buf, d') →
    (∀ q, image d' q = image d q) ∧ length buf = 16%nat ∧
    (EFI_ERROR st = false →
       buf = drop (Z.to_nat (PageSize - 16)) (image d p) ∧
       (buf ≠ all_ff 16 → latched d' = Some p));
  ReadPageBody_spec d st buf d' :
    ReadPageBody d = (st, buf, d') →
    (∀ q, image d' q = image d q) ∧ length buf = Z.to_nat PageSize ∧
    (EFI_ERROR st = false → ∀ p, latched d = Some p → buf = image d p)
}.

(** The geometries the file system's code is written for: every page holds an
    object header and a block summary, a summary has at most 64 entries, and
    page indices are 32-bit values other than 0xFFFFFFFF. *)
Record geometry_ok (D : Type) `{NandFlash D} : Prop := {
  geo_page : 2048 <= PageSize;
  geo_block : 1 <= PagesPerBlock <= 65;
  geo_blocks : 0 <= NumBlocks;
  geo_total : NumBlocks * PagesPerBlock < 2 ^ 32 - 1
}.

(** A device on which no read of an existing page fails. *)
Record nand_reliable (D : Type) `{NandLaws D} : Prop := {
  rel_page p d : 0 <= p < NumBlocks * PagesPerBlock → EFI_ERROR (ReadPage p d).1.1 = false;
  rel_tags p d : 0 <= p < NumBlocks * PagesPerBlock → EFI_ERROR (ReadTags p d).1.1 = false;
  rel_body p d : latched d = Some p → EFI_ERROR (ReadPageBody d).1.1 = false
}.

Lemma all_ff_tags : tag_words (all_ff 16) = Some [0xFFFFFFFF; 0xFFFFFFFF; 0xFFFFFFFF; 0xFFFFFFFF].
Proof. reflexivity. Qed.

Lemma tag_words_is_Some buf : length buf = 16%nat →
  ∃ w0 w1 w2 w3, tag_words buf = Some [w0; w1; w2; w3].
Proof.
  intros Hl. unfold tag_words.
  destruct (le32_is_Some buf 0) as [? ->]; [lia..|].
  destruct (le32_is_Some buf 4) as [? ->]; [lia..|].
  destruct (le32_is_Some buf 8) as [? ->]; [lia..|].
  destruct (le32_is_Some buf 12) as [? ->]; [lia..|]. simpl. eauto.
Qed.

Lemma tag_words_range buf ws :
  Forall byte_ok buf → tag_words buf = Some ws → Forall (λ w, 0 <= w < 2 ^ 32) ws.
Proof.
  intros Hb H. unfold tag_words in H. inv_ret.
  repeat match goal with H : le32 _ _ = Some _ |- _ => apply (le32_range _ _ _ Hb) in H end.
  repeat apply List.Forall_cons; auto.
Qed.

(** ** A device in memory

    Two blocks of four 2048-byte pages; pages not in the map are erased. *)
Record SimDev := mkSim { sim_pages : gmap Z (list Z); sim_latch : option Z }.

Definition fit (n : nat) (l : list Z) : list Z :=
  take n (map u8 l ++ replicate n 0xFF).

Definition sim_image (d : SimDev) (p : Z) : list Z :=
  fit 2048 (default [] (sim_pages d !! p)).

Definition sim_read_tags (p : Z) (d : SimDev) : EFI_STATUS * list Z * SimDev :=
  let buf := drop 2032 (sim_image d p) in
  (EFI_SUCCESS, buf,
   if decide (buf = all_ff 16) then d else mkSim (sim_pages d) (Some p)).

Definition sim_read_body (d : SimDev) : EFI_STATUS * list Z * SimDev :=
  match sim_latch d with
  | Some p => (EFI_SUCCESS, sim_image d p, d)
  | None => (EFI_DEVICE_ERROR, all_ff 2048, d)
  end.

#[export] Instance SimNand : NandFlash SimDev := {
  PageSize := 2048;
  PagesPerBlock := 4;
  NumBlocks := 2;
  ReadPage p d := (EFI_SUCCESS, sim_image d p, mkSim (sim_pages d) None);
  ReadTags := sim_read_tags;
  ReadPageBody := sim_read_body
}.

Lemma length_fit n l : length (fit n l) = n.
Proof. unfold fit. rewrite length_take, length_app, length_replicate. lia. Qed.

Lemma fit_bytes n l : Forall byte_ok (fit n l).
Proof.
  unfold fit. apply Forall_take, Forall_app. split.
  - apply Forall_map, list.Forall_forall. intros x _. apply u8_range.
  - apply Forall_replicate. unfold byte_ok. lia.
Qed.

#[export, program] Instance SimLaws : NandLaws SimDev := {
  image := sim_image;
  latched := sim_latch
}.
Next Obligation. intros. apply length_fit. Qed.
Next Obligation. intros. apply fit_bytes. Qed.
Next Obligation. simpl. intros p d st buf d' [= <- <- <-]. split; [done|]. by split; [apply length_fit|]. Qed.
Next Obligation.
  simpl. intros p d st buf d' [= <- <- <-]. split; [by intros q; case_decide|].
  split; [by rewrite length_drop; unfold sim_image; rewrite length_fit|].
  intros _. split; [done|]. intros Hne. by rewrite decide_False.
Qed.
Next Obligation.
  simpl. unfold sim_read_body. intros d st buf d'. destruct (sim_latch d) eqn:E;
    intros [= <- <- <-]; (split; [done|]); (split; [first [apply length_fit|done]|]); [|done].
  intros _ p [= ->]. done.
Qed.

Lemma sim_geometry : geometry_ok SimDev.
Proof. by split. Qed.

Lemma sim_reliable : nand_reliable SimDev.
Proof.
  split; try done. intros p d Hl. simpl in *. unfold sim_read_body. by rewrite Hl.
Qed.
