(* ===== verification/Yaffs2Obj.v ===== *)
(** * YAFFS2 objects

    Drivers/MtYaffs2Dxe: the data of MtYaffs2Dxe.h and, from Scan.c, the tag
    parser, the object table and the two page processors. An object is a heap
    block reached only through its slot of [Volume->Objects], so a pointer to
    it is modelled by its object id; the sparse array itself is a finite map
    with the number of slots really allocated, and using a slot outside it is
    a fault. *)

From S2P Require Import Prelude Efi Nand.

(** ** MtYaffs2Dxe.h *)

Definition YAFFS2_TAG_SIZE : Z := 16.
Definition YAFFS2_DATA_PER_PAGE : Z := 2032.
Definition YAFFS2_SEQ_MIN : Z := 0x00001000.
Definition YAFFS2_SEQ_MAX : Z := 0xEFFFFF00.
Definition YAFFS2_TYPE_FILE : Z := 1.
Definition YAFFS2_TYPE_SYMLINK : Z := 2.
Definition YAFFS2_TYPE_DIR : Z := 3.
Definition YAFFS2_TYPE_HARDLINK : Z := 4.
Definition YAFFS2_TYPE_SPECIAL : Z := 5.
Definition YAFFS2_OBJECTID_ROOT : Z := 1.
Definition YAFFS2_OBJECTID_UNLINKED : Z := 3.
Definition YAFFS2_OBJECTID_DELETED : Z := 4.
Definition YAFFS2_CHUNK_UNSET : Z := 0xFFFFFFFF.

Record YAFFS2_TAGS := mkTags {
  t_SeqNumber : Z;
  t_ObjId : Z;
  t_ChunkId : Z;     (* 0 for header pages, 1+ for data pages *)
  t_NBytes : Z;
  t_IsHeader : bool
}.

Record YAFFS2_CHUNK_LOC := mkLoc {
  c_PageIndex : Z;
  c_NBytes : Z;
  c_SeqNumber : Z
}.

(** An entry of a fresh [Chunks] array: [SetMem (.., 0xFF)]. *)
Definition chunk_unset : YAFFS2_CHUNK_LOC :=
  mkLoc YAFFS2_CHUNK_UNSET 0xFFFFFFFF 0xFFFFFFFF.

(** [Parent] is the id of the parent object, [ChildHead] the children in list
    order, [o_Chunks] the entries of the chunk array that were set, with
    [o_ChunkAlloc] its allocated length (0 when [Chunks] is NULL). *)
Record YAFFS2_OBJECT := mkObj {
  o_ObjId : Z;
  o_ParentId : Z;
  o_Type : Z;
  o_Name : list Z;
  o_Mode : Z;
  o_MTime : Z;
  o_FileSize : Z;
  o_Alias : list Z;
  o_EquivId : Z;
  o_HeaderSeq : Z;
  o_HeaderPage : Z;
  o_Parent : option Z;
  o_ChildHead : list Z;
  o_ChunkCount : Z;
  o_ChunkAlloc : Z;
  o_Chunks : gmap Z YAFFS2_CHUNK_LOC
}.

(** A zeroed object with empty lists: what [FindOrCreateObject] allocates. *)
Definition new_object (id : Z) : YAFFS2_OBJECT :=
  mkObj id 0 0 (replicate 256 0) 0 0 0 (replicate 160 0) 0 0 0 None [] 0 0 ∅.

(** The object table of a volume: [Objects], [MaxObjId] and the pool it
    allocates from. [v_Slots] is [None] for a NULL array. *)
Record TABLE := mkTable {
  v_Objects : gmap Z YAFFS2_OBJECT;
  v_Slots : option Z;
  v_MaxObjId : Z;
  v_Pool : Pool
}.

(** ** Tags *)

Definition AreTagsErased (Raw : list Z) : bool :=
  match Raw with
  | [w0; w1; w2; w3] =>
      (w0 =? 0xFFFFFFFF) && (w1 =? 0xFFFFFFFF) &&
      (w2 =? 0xFFFFFFFF) && (w3 =? 0xFFFFFFFF)
  | _ => false
  end.

(** Words 1 to 3 of the tags, shared by the page tags and the summary entries. *)
Definition UnpackTags (Seq ObjWord ChunkWord NBytes : Z) : YAFFS2_TAGS :=
  if negb (Z.land ChunkWord 0x80000000 =? 0)
  then mkTags Seq (Z.land ObjWord 0x0FFFFFFF) 0 NBytes true
  else mkTags Seq ObjWord ChunkWord NBytes false.

Definition ParseTagWords (Raw : list Z) : option YAFFS2_TAGS :=
  match Raw with
  | [w0; w1; w2; w3] => Some (UnpackTags w0 w1 w2 w3)
  | _ => None
  end.

(** ** The object table *)

Definition EnsureObjectsCapacity (t : TABLE) (ObjId : Z) : option (EFI_STATUS * TABLE) :=
  if ObjId <=? v_MaxObjId t then Some (EFI_SUCCESS, t)
  else
    let NewMax := (v_MaxObjId t +u32 1) *u32 2 in
    let NewMax := if NewMax <? 256 then 256 else NewMax in
    let NewMax := if NewMax <=? ObjId then ObjId +u32 64 else NewMax in
    let NewSlots := NewMax +u32 1 in
    let '(ok, pool) := AllocatePool (v_Pool t) in
    if negb ok
    then Some (EFI_OUT_OF_RESOURCES,
               mkTable (v_Objects t) (v_Slots t) (v_MaxObjId t) pool)
    else
      match v_Slots t with
      | None => Some (EFI_SUCCESS, mkTable ∅ (Some NewSlots) NewMax pool)
      | Some Slots =>
          (* CopyMem of MaxObjId + 1 slots, then FreePool of the old array *)
          let Copied := v_MaxObjId t +u32 1 in
          if (Copied <=? NewSlots) && (Copied <=? Slots)
          then Some (EFI_SUCCESS,
                     mkTable (filter (λ kv, kv.1 < Copied) (v_Objects t))
                             (Some NewSlots) NewMax (FreePool pool))
          else None
      end.

(** [Volume->Objects[i]]: the slot's pointer, a fault outside the array. *)
Definition slot_get (t : TABLE) (i : Z) : option (option Z) :=
  Slots ← v_Slots t;
  if (0 <=? i) && (i <? Slots)
  then Some (match v_Objects t !! i with Some _ => Some i | None => None end)
  else None.

(** [None] is the NULL pointer the C function returns. *)
Definition FindOrCreateObject (t : TABLE) (ObjId : Z) : option (option Z * TABLE) :=
  '(Status, t) ← EnsureObjectsCapacity t ObjId;
  if EFI_ERROR Status then Some (None, t)
  else
    slot ← slot_get t ObjId;
    match slot with
    | Some p => Some (Some p, t)
    | None =>
        let '(ok, pool) := AllocatePool (v_Pool t) in
        if negb ok
        then Some (None, mkTable (v_Objects t) (v_Slots t) (v_MaxObjId t) pool)
        else Some (Some ObjId,
                   mkTable (<[ObjId := new_object ObjId]> (v_Objects t))
                           (v_Slots t) (v_MaxObjId t) pool)
    end.

(** A store through an object pointer. *)
Definition obj_set (t : TABLE) (p : Z) (o : YAFFS2_OBJECT) : TABLE :=
  mkTable (<[p := o]> (v_Objects t)) (v_Slots t) (v_MaxObjId t) (v_Pool t).

(** 0xFFFFFFFF stands for "absent" in several header words. *)
Definition ff_to_0 (w : Z) : Z := if w =? 0xFFFFFFFF then 0 else w.

(** The assignments of [ProcessHeader] from the object header at the start of
    the page. [Alias] is written for symlinks only. *)
Definition ParseObjectHeader (Data : list Z) (Obj : YAFFS2_OBJECT) (Seq PageIdx : Z)
    : option YAFFS2_OBJECT :=
  Type_ ← le32 Data 0x00;
  ParentId ← le32 Data 0x04;
  Name ← rdn Data 0x0A 255;
  Mode ← le32 Data 0x10C;
  MTime ← le32 Data 0x11C;
  SizeLow ← le32 Data 0x124;
  SizeHigh ← le32 Data 0x128;
  EquivId ← le32 Data 0x12C;
  Alias ← (if Type_ =? YAFFS2_TYPE_SYMLINK
           then a ← rdn Data 0x130 159; Some (a ++ [0])
           else Some (o_Alias Obj));
  Some (mkObj (o_ObjId Obj) ParentId Type_ (Name ++ [0]) Mode (ff_to_0 MTime)
          (Z.lor (ff_to_0 SizeLow) (Z.shiftl (ff_to_0 SizeHigh) 32))
          Alias (ff_to_0 EquivId) Seq PageIdx
          (o_Parent Obj) (o_ChildHead Obj)
          (o_ChunkCount Obj) (o_ChunkAlloc Obj) (o_Chunks Obj)).

Definition ProcessHeader (t : TABLE) (PageBuf : list Z) (Tags : YAFFS2_TAGS) (PageIdx : Z)
    : option TABLE :=
  '(ptr, t) ← FindOrCreateObject t (t_ObjId Tags);
  match ptr with
  | None => Some t
  | Some p =>
      Obj ← v_Objects t !! p;
      if negb (o_HeaderSeq Obj =? 0) &&
         ((t_SeqNumber Tags <? o_HeaderSeq Obj) ||
          ((t_SeqNumber Tags =? o_HeaderSeq Obj) && (PageIdx <=? o_HeaderPage Obj)))
      then Some t
      else
        Obj' ← ParseObjectHeader PageBuf Obj (t_SeqNumber Tags) PageIdx;
        Some (obj_set t p Obj')
  end.

(** [Obj->Chunks[i]]: a fault outside the allocated array. *)
Definition chunk_get (Obj : YAFFS2_OBJECT) (i : Z) : option YAFFS2_CHUNK_LOC :=
  if (0 <=? i) && (i <? o_ChunkAlloc Obj)
  then Some (default chunk_unset (o_Chunks Obj !! i)) else None.

Definition set_chunks (Obj : YAFFS2_OBJECT) (Count Alloc : Z) (m : gmap Z YAFFS2_CHUNK_LOC)
    : YAFFS2_OBJECT :=
  mkObj (o_ObjId Obj) (o_ParentId Obj) (o_Type Obj) (o_Name Obj) (o_Mode Obj)
        (o_MTime Obj) (o_FileSize Obj) (o_Alias Obj) (o_EquivId Obj)
        (o_HeaderSeq Obj) (o_HeaderPage Obj) (o_Parent Obj) (o_ChildHead Obj)
        Count Alloc m.

(** The growth step. The object is [None] when the allocation failed; a
    non-NULL old array is copied (a fault if it does not fit) and freed. *)
Definition GrowChunks (pool : Pool) (Obj : YAFFS2_OBJECT) (ChunkId : Z)
    : option (option YAFFS2_OBJECT * Pool) :=
  if o_ChunkAlloc Obj <? ChunkId then
    let NewAlloc := o_ChunkAlloc Obj *u32 2 in
    let NewAlloc := if NewAlloc <? 8 then 8 else NewAlloc in
    let NewAlloc := if NewAlloc <? ChunkId then ChunkId +u32 8 else NewAlloc in
    let '(ok, pool) := AllocatePool pool in
    if negb ok then Some (None, pool)
    else if NewAlloc <? o_ChunkAlloc Obj then None
    else
      let pool := if o_ChunkAlloc Obj =? 0 then pool else FreePool pool in
      Some (Some (set_chunks Obj (o_ChunkCount Obj) NewAlloc (o_Chunks Obj)), pool)
  else Some (Some Obj, pool).

Definition ProcessDataChunk (t : TABLE) (Tags : YAFFS2_TAGS) (PageIdx : Z) : option TABLE :=
  if t_ChunkId Tags =? 0 then Some t
  else
    '(ptr, t) ← FindOrCreateObject t (t_ObjId Tags);
    match ptr with
    | None => Some t
    | Some p =>
        Obj ← v_Objects t !! p;
        let ChunkIdx := t_ChunkId Tags -u32 1 in
        '(grown, pool) ← GrowChunks (v_Pool t) Obj (t_ChunkId Tags);
        let t := mkTable (v_Objects t) (v_Slots t) (v_MaxObjId t) pool in
        match grown with
        | None => Some t
        | Some Obj =>
            Existing ← chunk_get Obj ChunkIdx;
            let m :=
              if (c_PageIndex Existing =? YAFFS2_CHUNK_UNSET) ||
                 (c_SeqNumber Existing <? t_SeqNumber Tags) ||
                 ((t_SeqNumber Tags =? c_SeqNumber Existing) &&
                  (c_PageIndex Existing <? PageIdx))
              then <[ChunkIdx := mkLoc PageIdx (t_NBytes Tags) (t_SeqNumber Tags)]>
                     (o_Chunks Obj)
              else o_Chunks Obj in
            let Count := if o_ChunkCount Obj <? t_ChunkId Tags
                         then t_ChunkId Tags else o_ChunkCount Obj in
            Some (obj_set t p (set_chunks Obj Count (o_ChunkAlloc Obj) m))
        end
    end.

(** * Well-formedness *)

Record object_wf (id : Z) (o : YAFFS2_OBJECT) : Prop := {
  owf_id : o_ObjId o = id;
  owf_name : ∃ n, o_Name o = n ++ [0] ∧ length n = 255%nat;
  owf_parent : 0 <= o_ParentId o;
  owf_equiv : 0 <= o_EquivId o;
  owf_size : 0 <= o_FileSize o < 2 ^ 64;
  owf_alloc : 0 <= o_ChunkCount o <= o_ChunkAlloc o;
  owf_alloc_max : o_ChunkAlloc o < 2 ^ 32;
  owf_chunks : ∀ i c, o_Chunks o !! i = Some c →
    0 <= i < o_ChunkCount o ∧ c_PageIndex c ≠ YAFFS2_CHUNK_UNSET
}.

(** The array has [MaxObjId + 1] slots, holds every object, and the byte size
    of the next growth does not overflow. *)
Record table_wf (t : TABLE) : Prop := {
  twf_slots : v_Slots t = None ∧ v_MaxObjId t = 0 ∧ v_Objects t = ∅
              ∨ v_Slots t = Some (v_MaxObjId t + 1);
  twf_max : 0 <= v_MaxObjId t < 2 ^ 32 - 1;
  twf_obj : ∀ id o, v_Objects t !! id = Some o →
    1 <= id <= v_MaxObjId t ∧ object_wf id o
}.

Definition table_empty (p : Pool) : TABLE := mkTable ∅ None 0 p.

(** Object ids that [EnsureObjectsCapacity] handles without overflow, and the
    chunk ids a non-header tag can carry. *)
Definition id_ok (id : Z) : Prop := 1 <= id < 2 ^ 32 - 65.
Definition tags_ok (g : YAFFS2_TAGS) : Prop :=
  id_ok (t_ObjId g) ∧ 0 <= t_ChunkId g < 2 ^ 31 ∧ 0 < t_SeqNumber g.

Lemma table_empty_wf p : table_wf (table_empty p).
Proof. split; simpl; [auto|lia|]. intros id o. by rewrite lookup_empty. Qed.

Lemma new_object_wf id : object_wf id (new_object id).
Proof.
  split; simpl; try lia; [by exists (replicate 255 0)|].
  intros i c. by rewrite lookup_empty.
Qed.

Lemma table_wf_insert t id o :
  table_wf t → 1 <= id <= v_MaxObjId t → object_wf id o →
  table_wf (obj_set t id o) .
Proof.
  intros [Hs Hm Ho] Hid Hwf. split; simpl.
  - destruct Hs as [(?&?&?)|?]; [lia|auto].
  - done.
  - intros id' o'. rewrite lookup_insert. case_decide; [|apply Ho].
    intros [= <-]. by subst.
Qed.

Lemma EnsureObjectsCapacity_spec t id :
  table_wf t → id_ok id →
  ∃ st t', EnsureObjectsCapacity t id = Some (st, t')
    ∧ table_wf t' ∧ v_Objects t' = v_Objects t
    ∧ (EFI_ERROR st = false → id <= v_MaxObjId t')
    ∧ (pool_plenty (v_Pool t) → EFI_ERROR st = false ∧ pool_plenty (v_Pool t')).
Proof.
  intros Hwf [Hlo Hhi]. pose proof Hwf as [Hs Hm Ho].
  unfold EnsureObjectsCapacity.
  destruct (Z.leb_spec id (v_MaxObjId t)) as [Hle|Hgt].
  { exists EFI_SUCCESS, t. by split_and!. }
  set (m1 := (v_MaxObjId t +u32 1) *u32 2).
  set (m2 := if m1 <? 256 then 256 else m1).
  set (m3 := if m2 <=? id then id +u32 64 else m2).
  assert (Hm1 : 0 <= m1 < 2 ^ 32 ∧ m1 mod 2 = 0).
  { subst m1. unfold u32. split; [apply Z.mod_pos_bound; lia|].
    rewrite Z.mul_comm. change (2 ^ 32) with (2 * 2 ^ 31) at 2.
    rewrite Zmult_mod_distr_l. rewrite Z.mul_comm, Z.mod_mul; lia. }
  assert (Hm2 : 256 <= m2 < 2 ^ 32 - 1).
  { subst m2. case_b; b2p; [lia|]. pose proof (Z.div_mod m1 2). lia. }
  assert (Hm3 : id < m3 < 2 ^ 32 - 1).
  { subst m3. case_b; b2p; [rewrite u32_small by lia; lia|lia]. }
  rewrite (u32_small (m3 + 1)), (u32_small (v_MaxObjId t + 1)) by lia.
  destruct (AllocatePool (v_Pool t)) as [[] p] eqn:Ep; simpl.
  2:{ eexists _, _. split; [done|]. split; [by split|].
      split; [done|]. split; [done|]. intros Hp. rewrite AllocatePool_plenty in Ep by done. done. }
  assert (Hp : pool_plenty (v_Pool t) → pool_plenty p).
  { intros Hp. rewrite AllocatePool_plenty in Ep by done. by injection Ep as <-. }
  destruct Hs as [(Hs & H0 & He)| Hs]; rewrite Hs.
  - eexists _, _. split; [done|]. rewrite He.
    split; [split; simpl; [auto|lia|by intros ??; rewrite lookup_empty]|].
    simpl. split; [done|]. split; [intros _; lia|auto].
  - rewrite (proj2 (Z.leb_le (v_MaxObjId t + 1) (m3 + 1))), Z.leb_refl by lia. simpl.
    assert (Hf : filter (λ kv : Z * YAFFS2_OBJECT, kv.1 < v_MaxObjId t + 1)
                   (v_Objects t) = v_Objects t).
    { apply map_filter_id. intros i x Hx. apply Ho in Hx. simpl. lia. }
    eexists _, _. split; [done|]. rewrite Hf.
    split; [split; simpl; [auto|lia|]|].
    + intros id' o' Hx. apply Ho in Hx. destruct Hx. split; [lia|done].
    + simpl. split; [done|]. split; [intros _; lia|]. intros Hpl.
      split; [done|]. specialize (Hp Hpl). destruct p. unfold pool_plenty in *. done.
Qed.

(** The object table after [FindOrCreateObject]: the object is there. *)
Definition with_object (m : gmap Z YAFFS2_OBJECT) (id : Z) : gmap Z YAFFS2_OBJECT :=
  match m !! id with Some _ => m | None => <[id := new_object id]> m end.

Definition object_at (m : gmap Z YAFFS2_OBJECT) (id : Z) : YAFFS2_OBJECT :=
  default (new_object id) (m !! id).

Lemma with_object_self m id : with_object m id !! id = Some (object_at m id).
Proof.
  unfold with_object, object_at. destruct (m !! id) eqn:E; [done|].
  by rewrite lookup_insert_eq.
Qed.

Lemma with_object_ne m id j : id ≠ j → with_object m id !! j = m !! j.
Proof.
  intros. unfold with_object. destruct (m !! id) eqn:E; [done|].
  by rewrite lookup_insert_ne.
Qed.

Lemma object_at_insert m id j o :
  object_at (<[id := o]> m) j = if decide (id = j) then o else object_at m j.
Proof. unfold object_at. rewrite lookup_insert. by case_decide. Qed.

Lemma insert_with_object m id o :
  <[id := o]> (with_object m id) = <[id := o]> m.
Proof.
  unfold with_object. destruct (m !! id); [done|]. by rewrite insert_insert_eq.
Qed.

Lemma FindOrCreateObject_spec t id :
  table_wf t → id_ok id →
  ∃ r t', FindOrCreateObject t id = Some (r, t')
    ∧ table_wf t'
    ∧ (r = None ∧ v_Objects t' = v_Objects t ∨
       r = Some id ∧ v_Objects t' = with_object (v_Objects t) id)
    ∧ (pool_plenty (v_Pool t) → r = Some id ∧ pool_plenty (v_Pool t')).
Proof.
  intros Hwf Hid.
  destruct (EnsureObjectsCapacity_spec t id Hwf Hid)
    as (st & t1 & HE & Hwf1 & Hobj & Hle & Hpl).
  unfold FindOrCreateObject. rewrite HE. simpl.
  destruct (EFI_ERROR st) eqn:Est.
  { exists None, t1. split_and!; auto. intros H. apply Hpl in H as [? _]. done. }
  specialize (Hle eq_refl). pose proof Hwf1 as [Hs Hm Ho].
  unfold id_ok in Hid. destruct Hs as [(?&?&?)|Hs]; [lia|].
  unfold slot_get. rewrite Hs. simpl.
  rewrite (proj2 (Z.leb_le 0 id)), (proj2 (Z.ltb_lt id _)) by lia. simpl.
  unfold with_object. rewrite <- Hobj.
  destruct (v_Objects t1 !! id) as [o|] eqn:Eo; simpl.
  { exists (Some id), t1. split_and!; auto. intros H. by apply Hpl in H as [_ ?]. }
  destruct (AllocatePool (v_Pool t1)) as [[] p] eqn:Ep; simpl.
  - eexists _, _. split; [done|]. split.
    { apply (table_wf_insert (mkTable (v_Objects t1) (Some (v_MaxObjId t1 + 1)) (v_MaxObjId t1) p));
        [split; simpl; auto|simpl; lia|apply new_object_wf]. }
    split; [auto|]. intros H. apply Hpl in H as [_ H].
    rewrite AllocatePool_plenty in Ep by done. by injection Ep as <-.
  - eexists _, _. split; [done|]. split; [split; simpl; auto|]. split; [auto|].
    intros H. apply Hpl in H as [_ H].
    by rewrite AllocatePool_plenty in Ep by done.
Qed.

(** ** The page processors never fault on well-formed tables *)

Lemma ParseObjectHeader_is_Some buf o seq page :
  464 <= len buf → ∃ o', ParseObjectHeader buf o seq page = Some o'.
Proof.
  intros Hl. unfold ParseObjectHeader.
  repeat match goal with
  | |- context [le32 buf ?off] =>
      destruct (le32_is_Some buf off) as [? ->]; [lia..|]; simpl
  end.
  rewrite !rdn_eq by lia. simpl. case_b; simpl; eauto.
Qed.

Lemma ff_to_0_range w : 0 <= w < 2 ^ 32 → 0 <= ff_to_0 w < 2 ^ 32.
Proof. unfold ff_to_0. case_b; lia. Qed.

Lemma ParseObjectHeader_wf buf o id seq page o' :
  Forall byte_ok buf → object_wf id o → ParseObjectHeader buf o seq page = Some o' → object_wf id o'.
Proof.
  intros Hb [Hid Hn Hpa Heq Hsz Ha Hm Hc] H. unfold ParseObjectHeader in H. inv_ret.
  repeat match goal with H : le32 _ _ = Some _ |- _ => apply (le32_range _ _ _ Hb) in H end.
  split; simpl; auto; try lia.
  - eexists. split; [done|].
    match goal with H : rdn _ 10 255 = Some _ |- _ => apply rdn_Some in H end. lia.
  - by apply ff_to_0_range.
  - rewrite lor_shiftl_add by (try apply ff_to_0_range; lia).
    pose proof (ff_to_0_range x4). pose proof (ff_to_0_range x5). lia.
Qed.

Lemma chunk_alloc_range id o : object_wf id o → 0 <= o_ChunkAlloc o < 2 ^ 32.
Proof. intros []. lia. Qed.

Lemma GrowChunks_spec pool o id cid :
  object_wf id o → 1 <= cid < 2 ^ 31 →
  ∃ r pool', GrowChunks pool o cid = Some (r, pool')
    ∧ (∀ o', r = Some o' → ∃ a, o' = set_chunks o (o_ChunkCount o) a (o_Chunks o)
         ∧ cid <= a < 2 ^ 32 ∧ o_ChunkAlloc o <= a)
    ∧ (pool_plenty pool → r ≠ None ∧ pool_plenty pool').
Proof.
  intros Hwf Hc. pose proof (chunk_alloc_range _ _ Hwf) as Ha.
  unfold GrowChunks. destruct (Z.ltb_spec (o_ChunkAlloc o) cid) as [Hlt|Hge].
  2:{ eexists _, _. split; [done|]. split; [|done]. intros o' [= <-].
      exists (o_ChunkAlloc o). split; [by destruct o|lia]. }
  set (a1 := o_ChunkAlloc o *u32 2).
  set (a2 := if a1 <? 8 then 8 else a1).
  set (a3 := if a2 <? cid then cid +u32 8 else a2).
  assert (0 <= a1 < 2 ^ 32) by apply u32_range.
  assert (Ha3 : cid <= a3 < 2 ^ 32).
  { subst a3 a2. repeat case_b; b2p; try rewrite u32_small by lia; lia. }
  destruct (AllocatePool pool) as [[] p] eqn:Ep; simpl.
  - rewrite (proj2 (Z.ltb_ge a3 _)) by lia.
    eexists _, _. split; [done|]. split.
    + intros o' [= <-]. exists a3. split; [done|lia].
    + intros Hp. split; [done|]. rewrite AllocatePool_plenty in Ep by done.
      injection Ep as <-. by case_b.
  - eexists _, _. split; [done|]. split; [done|].
    intros Hp. by rewrite AllocatePool_plenty in Ep by done.
Qed.

(** The write of a chunk location, when it is newer than what is there. *)
Definition put_chunk (o : YAFFS2_OBJECT) (idx : Z) (new : YAFFS2_CHUNK_LOC)
    : gmap Z YAFFS2_CHUNK_LOC :=
  match o_Chunks o !! idx with
  | None => <[idx := new]> (o_Chunks o)
  | Some old =>
      if (c_SeqNumber old <? c_SeqNumber new) ||
         ((c_SeqNumber new =? c_SeqNumber old) && (c_PageIndex old <? c_PageIndex new))
      then <[idx := new]> (o_Chunks o) else o_Chunks o
  end.

(** What [ProcessHeader] does to a table, as a relation on the object maps:
    nothing, or the object with the newer of the two headers. *)
Lemma ProcessHeader_spec t buf g page :
  table_wf t → tags_ok g → 464 <= len buf → Forall byte_ok buf →
  ∃ t', ProcessHeader t buf g page = Some t' ∧ table_wf t'
    ∧ (pool_plenty (v_Pool t) → pool_plenty (v_Pool t') ∧
       ∃ o', let o := object_at (v_Objects t) (t_ObjId g) in
         v_Objects t' = <[t_ObjId g := o']> (v_Objects t)
         ∧ (if negb (o_HeaderSeq o =? 0) &&
               ((t_SeqNumber g <? o_HeaderSeq o) ||
                ((t_SeqNumber g =? o_HeaderSeq o) && (page <=? o_HeaderPage o)))
            then o' = o
            else ParseObjectHeader buf o (t_SeqNumber g) page = Some o')).
Proof.
  intros Hwf (Hid & Hc & Hs) Hl Hb.
  destruct (FindOrCreateObject_spec t (t_ObjId g) Hwf Hid)
    as (r & t1 & HF & Hwf1 & Hcase & Hpl).
  unfold ProcessHeader. rewrite HF. simpl.
  destruct Hcase as [[-> Ho]|[-> Ho]].
  { exists t1. split_and!; [done|done|]. intros H. by apply Hpl in H as [? ?]. }
  rewrite Ho, with_object_self. simpl.
  set (o := object_at (v_Objects t) (t_ObjId g)).
  assert (Hx : v_Objects t1 !! t_ObjId g = Some o) by by rewrite Ho, with_object_self.
  apply (twf_obj _ Hwf1) in Hx as [Hr How].
  case_b.
  - exists t1. split_and!; [done|done|]. intros H. apply Hpl in H as [_ H].
    split; [done|]. exists o. split; [|done].
    rewrite Ho, <- insert_with_object, insert_id; [done|]. apply with_object_self.
  - destruct (ParseObjectHeader_is_Some buf o (t_SeqNumber g) page Hl) as [o' Hp].
    rewrite Hp. simpl. eexists. split; [done|]. split.
    { apply table_wf_insert; [done|done|by eapply (ParseObjectHeader_wf buf)]. }
    intros H. apply Hpl in H as [_ H]. split; [done|]. exists o'. simpl.
    by rewrite Ho, insert_with_object.
Qed.

Definition with_chunk (o : YAFFS2_OBJECT) (a : Z) (g : YAFFS2_TAGS) (page : Z) : YAFFS2_OBJECT :=
  set_chunks o (Z.max (o_ChunkCount o) (t_ChunkId g)) a
    (put_chunk o (t_ChunkId g - 1) (mkLoc page (t_NBytes g) (t_SeqNumber g))).

Definition chunks_in (n : Z) (m : gmap Z YAFFS2_CHUNK_LOC) : Prop :=
  ∀ i c, m !! i = Some c → 0 <= i < n ∧ c_PageIndex c ≠ YAFFS2_CHUNK_UNSET.

Lemma chunks_in_insert n m i c :
  chunks_in n m → 0 <= i < n → c_PageIndex c ≠ YAFFS2_CHUNK_UNSET →
  chunks_in n (<[i := c]> m).
Proof.
  intros Hm Hi Hc j d. rewrite lookup_insert. case_decide; [|apply Hm].
  intros [= <-]. subst. done.
Qed.

Lemma with_chunk_wf o id a g page :
  object_wf id o → 1 <= t_ChunkId g <= a → a < 2 ^ 32 → o_ChunkAlloc o <= a →
  0 <= page < YAFFS2_CHUNK_UNSET → object_wf id (with_chunk o a g page).
Proof.
  intros [Hi Hn Hpa Heq Hsz Hal Hm Hch] Hc Ha Hoa Hp. split; simpl; auto; [lia|].
  assert (Hold : chunks_in (Z.max (o_ChunkCount o) (t_ChunkId g)) (o_Chunks o)).
  { intros i' c' Hx. apply Hch in Hx. destruct Hx. split; [lia|done]. }
  unfold put_chunk.
  destruct (o_Chunks o !! (t_ChunkId g - 1)); [case_b|];
    first [exact Hold | apply chunks_in_insert; [done|simpl; lia|simpl; lia]].
Qed.

(** What [ProcessDataChunk] does: the newer of the two locations is kept. *)
Lemma ProcessDataChunk_spec t g page :
  table_wf t → tags_ok g → 1 <= t_ChunkId g → 0 <= page < YAFFS2_CHUNK_UNSET →
  ∃ t', ProcessDataChunk t g page = Some t' ∧ table_wf t'
    ∧ (pool_plenty (v_Pool t) → pool_plenty (v_Pool t') ∧
       ∃ a, v_Objects t' =
         <[t_ObjId g := with_chunk (object_at (v_Objects t) (t_ObjId g)) a g page]>
           (v_Objects t)).
Proof.
  intros Hwf (Hid & Hc & Hs) Hc1 Hpage.
  destruct (FindOrCreateObject_spec t (t_ObjId g) Hwf Hid)
    as (r & t1 & HF & Hwf1 & Hcase & Hpl).
  unfold ProcessDataChunk.
  rewrite (proj2 (Z.eqb_neq (t_ChunkId g) 0)) by lia. rewrite HF. simpl.
  destruct Hcase as [[-> Ho]|[-> Ho]].
  { exists t1. split_and!; [done|done|]. intros H. by apply Hpl in H as [? ?]. }
  rewrite Ho, with_object_self. simpl.
  set (o := object_at (v_Objects t) (t_ObjId g)).
  assert (Hx : v_Objects t1 !! t_ObjId g = Some o) by by rewrite Ho, with_object_self.
  pose proof (twf_obj _ Hwf1 _ _ Hx) as [Hr How].
  destruct (GrowChunks_spec (v_Pool t1) o _ (t_ChunkId g) How) as (r & p & HG & Hg & Hpg);
    [lia|]. rewrite HG. simpl.
  assert (Hwfp : table_wf (mkTable (v_Objects t1) (v_Slots t1) (v_MaxObjId t1) p))
    by (destruct Hwf1; by split).
  rewrite <- Ho.
  destruct r as [o2|].
  2:{ eexists. split; [done|]. split; [done|]. intros H. apply Hpl in H as [_ H].
      by apply Hpg in H as [? ?]. }
  destruct (Hg o2 eq_refl) as (a & -> & Hca & Hoa).
  rewrite u32_small by lia. unfold chunk_get. simpl.
  rewrite (proj2 (Z.leb_le 0 _)), (proj2 (Z.ltb_lt (t_ChunkId g - 1) a)) by lia. simpl.
  match goal with |- ∃ t', Some (obj_set _ _ ?x) = _ ∧ _ =>
    assert (Heq : x = with_chunk o a g page) end.
  { unfold with_chunk, set_chunks; simpl. f_equal.
    - case_b; b2p; lia.
    - unfold put_chunk. destruct (o_Chunks o !! (t_ChunkId g - 1)) as [c|] eqn:Ec; simpl.
      + apply (owf_chunks _ _ How) in Ec as [_ Ec].
        rewrite (proj2 (Z.eqb_neq _ _) Ec). done.
      + done. }
  rewrite Heq. eexists. split; [done|]. split.
  { apply table_wf_insert; [done|simpl; lia|]. apply with_chunk_wf; try done; lia. }
  intros H. apply Hpl in H as [_ H]. apply Hpg in H as [_ H]. split; [done|].
  exists a. simpl. by rewrite Ho, insert_with_object.
Qed.

(** Where the object table breaks: for a first object id above 0, creating
    the object stays inside the array it allocates exactly for ids below
    2^32 - 65. For larger ids the 32-bit size computation wraps and the slot
    written lies outside the array. *)
Theorem FindOrCreateObject_bounds id p :
  1 <= id < 2 ^ 32 → pool_plenty p →
  (FindOrCreateObject (table_empty p) id = None ↔ 2 ^ 32 - 65 <= id).
Proof.
  intros Hid Hp. split.
  - intros HN. destruct (decide (2 ^ 32 - 65 <= id)) as [|Hlt]; [done|exfalso].
    destruct (FindOrCreateObject_spec (table_empty p) id (table_empty_wf p))
      as (r & t' & E & _); [unfold id_ok; lia|]. congruence.
  - intros Hge. unfold FindOrCreateObject, EnsureObjectsCapacity. simpl v_MaxObjId.
    rewrite (proj2 (Z.leb_gt id 0)) by lia.
    change ((0 +u32 1) *u32 2) with 2. change (2 <? 256) with true. cbn match.
    rewrite (proj2 (Z.leb_le 256 id)), AllocatePool_plenty by (done || lia). simpl.
    unfold slot_get. simpl.
    assert (Hs : id +u32 64 +u32 1 = id + 65 - 2 ^ 32).
    { unfold u32. rewrite Zplus_mod_idemp_l.
      replace (id + 64 + 1) with (id + 65 - 2 ^ 32 + 1 * 2 ^ 32) by lia.
      rewrite Z_mod_plus_full. apply Z.mod_small. lia. }
    rewrite Hs, (proj2 (Z.ltb_ge id _)), andb_false_r by lia. done.
Qed.

Lemma FindOrCreateObject_bounds_witness :
  FindOrCreateObject (table_empty (mkPool [] 0)) 0xFFFFFFFF = None.
Proof.
  assert (Hp : pool_plenty (mkPool [] 0)) by reflexivity.
  apply FindOrCreateObject_bounds; [lia|exact Hp|lia].
Defined.
