(* ===== verification/Yaffs2Format.v ===== *)
(** * The on-flash format, from the writer's side

    Reference encoders of the YAFFS2 page format, against which the parsers of
    Yaffs2Obj are proved (round trips), and a small flash image built with
    them that the other files evaluate their definitions on. *)

From S2P Require Import Prelude Efi Nand Yaffs2Obj.

(** [l] padded with [c] to [n] elements. *)
Definition pad (c : Z) (n : nat) (l : list Z) : list Z := take n (l ++ replicate n c).

Lemma length_pad c n l : length (pad c n l) = n.
Proof. unfold pad. rewrite length_take, length_app, length_replicate. lia. Qed.

Lemma pad_short c n l : (length l <= n)%nat → pad c n l = l ++ replicate (n - length l) c.
Proof.
  intros. unfold pad. rewrite take_app. f_equal; [by apply take_ge|].
  rewrite take_replicate. f_equal. lia.
Qed.

Lemma pad_bytes c n l : byte_ok c → Forall byte_ok l → Forall byte_ok (pad c n l).
Proof. intros. by apply Forall_take, Forall_app; split; [|apply Forall_replicate]. Qed.

(** An object header as YAFFS2 writes it. *)
Record HEADER := mkHeader {
  h_type : Z; h_parent : Z; h_name : list Z; h_mode : Z; h_mtime : Z;
  h_size : Z; h_equiv : Z; h_alias : list Z
}.

(** [yaffs_obj_hdr]: type, parent, the unused sum, name[256], two bytes of
    padding, mode, uid, gid, atime, mtime, ctime, size (low word), size (high
    word), equiv_id, alias[160]. *)
Definition encode_header (h : HEADER) : list Z :=
  le_bytes 4 (h_type h) ++ le_bytes 4 (h_parent h) ++ [0xFF; 0xFF]
  ++ pad 0 256 (h_name h) ++ [0xFF; 0xFF]
  ++ le_bytes 4 (h_mode h) ++ le_bytes 4 0 ++ le_bytes 4 0 ++ le_bytes 4 0
  ++ le_bytes 4 (h_mtime h) ++ le_bytes 4 0
  ++ le_bytes 4 (h_size h mod 2 ^ 32) ++ le_bytes 4 (h_size h / 2 ^ 32)
  ++ le_bytes 4 (h_equiv h) ++ pad 0 160 (h_alias h).

(** The packed tags of a page: sequence number, object id, chunk id, bytes. *)
Definition encode_tags (w0 w1 w2 w3 : Z) : list Z :=
  le_bytes 4 w0 ++ le_bytes 4 w1 ++ le_bytes 4 w2 ++ le_bytes 4 w3.

Definition header_tags (seq ty id parent size : Z) : list Z :=
  encode_tags seq (Z.lor (Z.shiftl ty 28) id) (Z.lor 0x80000000 parent) size.

Definition mk_page (body tags : list Z) : list Z := pad 0xFF 2032 body ++ tags.

Lemma length_encode_header h : length (encode_header h) = 464%nat.
Proof.
  unfold encode_header. rewrite !length_app, !length_le_bytes, !length_pad. done.
Qed.

Lemma encode_header_bytes h :
  Forall byte_ok (h_name h) → Forall byte_ok (h_alias h) → Forall byte_ok (encode_header h).
Proof.
  intros Hn Ha. unfold encode_header.
  assert (H0 : byte_ok 0) by (unfold byte_ok; lia).
  assert (Hff : Forall byte_ok [0xFF; 0xFF]) by by apply bytes_okb_spec.
  repeat (apply Forall_app; split); auto using le_bytes_ok, pad_bytes.
Qed.

#[global] Arguments encode_header : simpl never.

(** ** Round trips *)

Lemma le32_here v post : 0 <= v < 2 ^ 32 → le32 (le_bytes 4 v ++ post) 0 = Some v.
Proof. intros. apply (le32_encode [] post v). done. Qed.

(** Walk over the fields before the one at the offset. *)
Ltac skip_fields :=
  repeat (rewrite le32_app_r by (rewrite ?length_le_bytes, ?length_pad; simpl; lia));
  repeat (rewrite rdn_app_r by (rewrite ?length_le_bytes, ?length_pad; simpl; lia));
  rewrite ?length_le_bytes, ?length_pad; simpl length.

Ltac load_field :=
  skip_fields;
  match goal with |- context [le32 _ ?o] => replace o with 0 by lia end;
  rewrite le32_here.

Lemma encode_tags_words w0 w1 w2 w3 :
  0 <= w0 < 2 ^ 32 → 0 <= w1 < 2 ^ 32 → 0 <= w2 < 2 ^ 32 → 0 <= w3 < 2 ^ 32 →
  tag_words (encode_tags w0 w1 w2 w3) = Some [w0; w1; w2; w3].
Proof.
  intros. unfold tag_words, encode_tags. rewrite <- (app_nil_r (le_bytes 4 w3)).
  rewrite le32_here by done. cbn [mbind option_bind].
  do 2 (load_field; [|done]; cbn [mbind option_bind]). by load_field.
Qed.

(** Headers whose two size words and time are not the "absent" marker. *)
Record header_ok (h : HEADER) : Prop := {
  hok_type : 0 <= h_type h < 2 ^ 32;
  hok_parent : 0 <= h_parent h < 2 ^ 32;
  hok_name : Forall (λ c, 1 <= c < 256) (h_name h) ∧ len (h_name h) <= 255;
  hok_mode : 0 <= h_mode h < 2 ^ 32;
  hok_mtime : 0 <= h_mtime h < 2 ^ 32 - 1;
  hok_size : 0 <= h_size h < (2 ^ 32 - 1) * 2 ^ 32 ∧ h_size h mod 2 ^ 32 ≠ 2 ^ 32 - 1;
  hok_equiv : 0 <= h_equiv h < 2 ^ 32 - 1;
  hok_alias : Forall (λ c, 1 <= c < 256) (h_alias h) ∧ len (h_alias h) <= 159
}.

Lemma cstr_app_0 s rest : Forall (λ c, 1 <= c < 256) s → cstr (s ++ 0 :: rest) = s.
Proof.
  induction 1 as [|c s Hc Hs IH]; simpl; [done|].
  destruct (Z.eqb_spec c 0); [lia|]. by rewrite IH.
Qed.

Lemma cstr_pad n s :
  Forall (λ c, 1 <= c < 256) s → (length s < n)%nat →
  cstr (take (n - 1) (pad 0 n s) ++ [0]) = s.
Proof.
  intros Hs Hl. rewrite pad_short by lia.
  rewrite take_app, (take_ge s), take_replicate, <- app_assoc by lia.
  destruct (Nat.min _ _); simpl; by apply cstr_app_0.
Qed.

Lemma ff_to_0_id w : w ≠ 0xFFFFFFFF → ff_to_0 w = w.
Proof. intros. unfold ff_to_0. by rewrite (proj2 (Z.eqb_neq _ _)). Qed.

(** The loads of [ParseObjectHeader] from an encoded header. *)
Lemma encode_header_loads h rest :
  let buf := encode_header h ++ rest in
  (0 <= h_type h < 2 ^ 32 → le32 buf 0x00 = Some (h_type h))
  ∧ (0 <= h_parent h < 2 ^ 32 → le32 buf 0x04 = Some (h_parent h))
  ∧ rdn buf 0x0A 255 = Some (take 255 (pad 0 256 (h_name h)))
  ∧ (0 <= h_mode h < 2 ^ 32 → le32 buf 0x10C = Some (h_mode h))
  ∧ (0 <= h_mtime h < 2 ^ 32 → le32 buf 0x11C = Some (h_mtime h))
  ∧ (0 <= h_size h mod 2 ^ 32 < 2 ^ 32 → le32 buf 0x124 = Some (h_size h mod 2 ^ 32))
  ∧ (0 <= h_size h / 2 ^ 32 < 2 ^ 32 → le32 buf 0x128 = Some (h_size h / 2 ^ 32))
  ∧ (0 <= h_equiv h < 2 ^ 32 → le32 buf 0x12C = Some (h_equiv h))
  ∧ rdn buf 0x130 159 = Some (take 159 (pad 0 160 (h_alias h))).
Proof.
  unfold encode_header. rewrite <- !app_assoc. split_and!; intros;
    first [ by apply le32_here | by load_field
          | skip_fields; match goal with |- rdn _ ?o _ = _ => replace o with 0 by lia end;
            rewrite rdn_app_0 by (rewrite length_pad; lia); done ].
Qed.

(** C18: Round trip of object headers: [ParseObjectHeader] reads back from a page
    the type, parent, name, mode, time, 64-bit size, hard-link target and (for
    symbolic links) target path of the header written to it, whatever follows
    the header on the page. *)
Theorem header_roundtrip h rest o seq page :
  header_ok h →
  ∃ o', ParseObjectHeader (encode_header h ++ rest) o seq page = Some o'
    ∧ o_Type o' = h_type h ∧ o_ParentId o' = h_parent h ∧ cstr (o_Name o') = h_name h
    ∧ o_Mode o' = h_mode h ∧ o_MTime o' = h_mtime h ∧ o_FileSize o' = h_size h
    ∧ o_EquivId o' = h_equiv h
    ∧ (h_type h = YAFFS2_TYPE_SYMLINK → cstr (o_Alias o') = h_alias h)
    ∧ o_HeaderSeq o' = seq ∧ o_HeaderPage o' = page.
Proof.
  intros [Hty Hpa [Hn Hnl] Hmo Hmt [Hsz Hsz'] Heq [Ha Hal]].
  assert (Hlow : 0 <= h_size h mod 2 ^ 32 < 2 ^ 32) by (apply Z.mod_pos_bound; lia).
  assert (Hhigh : 0 <= h_size h / 2 ^ 32 < 2 ^ 32 - 1)
    by (split; [apply Z.div_pos|apply Z.div_lt_upper_bound]; lia).
  destruct (encode_header_loads h rest) as (E0 & E4 & EA & E10C & E11C & E124 & E128 & E12C & E130).
  unfold ParseObjectHeader. rewrite E0, E4, EA, E10C, E11C, E124, E128, E12C, E130 by lia.
  cbn [mbind option_bind].
  rewrite !ff_to_0_id by lia. rewrite lor_shiftl_add by lia.
  case_b; cbn [mbind option_bind]; b2p; eexists; (split; [done|]); simpl; split_and!; try done;
    try (apply (cstr_pad 256); [done|lia]); try (pose proof (Z.div_mod (h_size h) (2 ^ 32)); lia).
  intros _. apply (cstr_pad 160); [done|lia].
Qed.

(** C8 at a symbolic link. *)
Definition demo_link : HEADER := mkHeader YAFFS2_TYPE_SYMLINK 1 [108; 107] 0x1FF 1700000000 5 0 [47; 97].

Lemma header_roundtrip_witness :
  header_ok demo_link ∧
  ∃ o', ParseObjectHeader (encode_header demo_link ++ []) (new_object 300) 0x1001 7 = Some o'
    ∧ cstr (o_Alias o') = [47; 97].
Proof.
  assert (Hok : header_ok demo_link).
  { split; simpl; unfold YAFFS2_TYPE_SYMLINK; try lia.
    - split; [repeat (apply List.Forall_cons; [lia|])|lia]. apply List.Forall_nil.
    - split; [lia|]. by vm_compute.
    - split; [repeat (apply List.Forall_cons; [lia|])|lia]. apply List.Forall_nil. }
  split; [exact Hok|].
  destruct (header_roundtrip demo_link [] (new_object 300) 0x1001 7 Hok)
    as (o' & ? & _ & _ & _ & _ & _ & _ & _ & Ha & _).
  exists o'. split; [assumption|]. by apply Ha.
Defined.

(** ** A small flash *)

Definition demo_header (ty parent size : Z) (name : list Z) : HEADER :=
  mkHeader ty parent name 0x1FF 1700000000 size 0 [].

(** Two blocks of four pages. Block 0: the root directory (object 1), a file
    "a" of 5 bytes (object 257), its data chunk, then an erased page. Block 1,
    newer: the same file renamed "b", a new version of its chunk, a deleted
    file (object 258 under object 4), and an erased page. *)
Definition demo_data : list Z := [104; 101; 108; 108; 111].
Definition demo_data' : list Z := [72; 69; 76; 76; 79].

Definition demo_pages : gmap Z (list Z) := list_to_map [
  (0, mk_page (encode_header (demo_header YAFFS2_TYPE_DIR 1 0 [])) (header_tags 0x1001 3 1 1 0));
  (1, mk_page (encode_header (demo_header YAFFS2_TYPE_FILE 1 5 [97])) (header_tags 0x1001 1 257 1 5));
  (2, mk_page demo_data (encode_tags 0x1001 257 1 5));
  (4, mk_page (encode_header (demo_header YAFFS2_TYPE_FILE 1 5 [98])) (header_tags 0x1002 1 257 1 5));
  (5, mk_page demo_data' (encode_tags 0x1002 257 1 5));
  (6, mk_page (encode_header (demo_header YAFFS2_TYPE_FILE 4 0 [99])) (header_tags 0x1002 1 258 4 0))
].

Definition demo_dev : SimDev := mkSim demo_pages None.
