(* ===== verification/Yaffs2Latest.v ===== *)
(** * Multi-version resolution

    A YAFFS2 flash holds several versions of an object's header and of each
    data chunk; the scan must keep the newest. Abstractly the scan is a list of
    page events, one per live page, in the order the pages are met. This file
    states what the object table holds after any list of events and proves
    that the page processors of Scan.c achieve it, in whatever order the pages
    come. *)

From S2P Require Import Prelude Efi Nand Yaffs2Obj Yaffs2Format.

(** A header page (with the page contents) or a data page, with its tags and
    its page index. *)
Inductive event :=
  | EvHeader (g : YAFFS2_TAGS) (page : Z) (buf : list Z)
  | EvData (g : YAFFS2_TAGS) (page : Z).

Definition event_tags (e : event) : YAFFS2_TAGS :=
  match e with EvHeader g _ _ | EvData g _ => g end.
Definition event_page (e : event) : Z :=
  match e with EvHeader _ p _ | EvData _ p => p end.

Definition process_event (t : TABLE) (e : event) : option TABLE :=
  match e with
  | EvHeader g page buf => ProcessHeader t buf g page
  | EvData g page => ProcessDataChunk t g page
  end.

Fixpoint process_events (t : TABLE) (evs : list event) : option TABLE :=
  match evs with
  | [] => Some t
  | e :: evs' => t' ← process_event t e; process_events t' evs'
  end.

Definition event_ok (e : event) : Prop :=
  tags_ok (event_tags e) ∧ 0 <= event_page e < YAFFS2_CHUNK_UNSET ∧
  match e with
  | EvHeader _ _ buf => 464 <= len buf ∧ Forall byte_ok buf
  | EvData g _ => 1 <= t_ChunkId g
  end.

(** Versions are ordered by sequence number, then by page. *)
Definition version := (Z * Z)%type.
Definition older_eq (a b : version) : Prop := a.1 < b.1 ∨ a.1 = b.1 ∧ a.2 <= b.2.

#[export] Instance older_eq_preorder : PreOrder older_eq.
Proof.
  split.
  - intros [a b]. unfold older_eq. simpl. lia.
  - intros [a b] [c d] [e f]. unfold older_eq. simpl. lia.
Qed.

Lemma older_eq_antisymm a b : older_eq a b → older_eq b a → a = b.
Proof. destruct a, b. unfold older_eq. simpl. intros. f_equal; lia. Qed.

(** The fields the newest header decides. [Alias] is not one of them: the code
    writes it for symlinks only and nothing reads it. *)
Definition header_of (o : YAFFS2_OBJECT) :=
  (o_ParentId o, o_Type o, o_Name o, o_Mode o, o_MTime o, o_FileSize o,
   o_EquivId o, o_HeaderSeq o, o_HeaderPage o).

Definition header_version (o : YAFFS2_OBJECT) : version := (o_HeaderSeq o, o_HeaderPage o).
Definition chunk_version (c : YAFFS2_CHUNK_LOC) : version := (c_SeqNumber c, c_PageIndex c).

(** What an object must be after the events [evs]: its header is the newest
    header among them, its chunk entries are the newest locations, nothing else
    is there. *)
Record object_resolved (evs : list event) (id : Z) (o : YAFFS2_OBJECT) : Prop := {
  res_no_header : o_HeaderSeq o = 0 → header_of o = header_of (new_object id);
  res_header : o_HeaderSeq o ≠ 0 →
    ∃ g page buf o0, EvHeader g page buf ∈ evs ∧ t_ObjId g = id
      ∧ ParseObjectHeader buf (new_object id) (t_SeqNumber g) page = Some o0
      ∧ header_of o = header_of o0;
  res_header_newest : ∀ g page buf, EvHeader g page buf ∈ evs → t_ObjId g = id →
    o_HeaderSeq o ≠ 0 ∧ older_eq (t_SeqNumber g, page) (header_version o);
  res_chunk : ∀ idx c, o_Chunks o !! idx = Some c →
    ∃ g page, EvData g page ∈ evs ∧ t_ObjId g = id ∧ t_ChunkId g = idx + 1
              ∧ c = mkLoc page (t_NBytes g) (t_SeqNumber g);
  res_chunk_newest : ∀ g page, EvData g page ∈ evs → t_ObjId g = id →
    t_ChunkId g <= o_ChunkCount o ∧
    ∃ c, o_Chunks o !! (t_ChunkId g - 1) = Some c
         ∧ older_eq (t_SeqNumber g, page) (chunk_version c);
  res_count : o_ChunkCount o = 0 ∨
    ∃ g page, EvData g page ∈ evs ∧ t_ObjId g = id ∧ t_ChunkId g = o_ChunkCount o;
  res_tree : o_Parent o = None ∧ o_ChildHead o = []
}.

(** The object table after the events [evs]. *)
Definition resolved (evs : list event) (t : TABLE) : Prop :=
  (∀ id, is_Some (v_Objects t !! id) ↔ ∃ e, e ∈ evs ∧ t_ObjId (event_tags e) = id) ∧
  (∀ id, object_resolved evs id (object_at (v_Objects t) id)).

(** ** One event *)

Lemma ParseObjectHeader_fields buf o seq page o' :
  ParseObjectHeader buf o seq page = Some o' →
  o_HeaderSeq o' = seq ∧ o_HeaderPage o' = page ∧ o_Chunks o' = o_Chunks o
  ∧ o_ChunkCount o' = o_ChunkCount o ∧ o_Parent o' = o_Parent o
  ∧ o_ChildHead o' = o_ChildHead o.
Proof. intros H. unfold ParseObjectHeader in H. by inv_ret. Qed.

Lemma ParseObjectHeader_header buf o1 o2 seq page o1' :
  ParseObjectHeader buf o1 seq page = Some o1' →
  ∃ o2', ParseObjectHeader buf o2 seq page = Some o2' ∧ header_of o1' = header_of o2'.
Proof.
  unfold ParseObjectHeader. intros H. inv_ret.
  repeat match goal with H : _ = Some ?v |- context [mbind _ _] => rewrite H; simpl end.
  case_b; inv_ret; simplify_option_eq; eauto.
Qed.

Lemma new_object_resolved id : object_resolved [] id (new_object id).
Proof.
  split; simpl; intros; try done; auto;
    try (by match goal with H : _ ∈ [] |- _ => apply elem_of_nil in H end).
Qed.

Lemma resolved_empty p : resolved [] (table_empty p).
Proof.
  split.
  - intros id. simpl. rewrite lookup_empty. split; [by intros [? ?]|].
    intros (e & He & _). by apply elem_of_nil in He.
  - intros id. unfold object_at. simpl. rewrite lookup_empty. apply new_object_resolved.
Qed.

(** Events of other objects do not matter. *)
Lemma object_resolved_other evs e id o :
  t_ObjId (event_tags e) ≠ id →
  object_resolved evs id o → object_resolved (evs ++ [e]) id o.
Proof.
  intros Hne [H1 H2 H3 H4 H5 H6 H7]. split; auto.
  - intros H. destruct (H2 H) as (g & page & buf & o0 & ? & ? & ? & ?).
    exists g, page, buf, o0. rewrite elem_of_app. auto.
  - intros g page buf. rewrite elem_of_app, list_elem_of_singleton.
    intros [?|<-] Hid; [by eapply H3|done].
  - intros idx c Hc. destruct (H4 _ _ Hc) as (g & page & ? & ? & ? & ?).
    exists g, page. rewrite elem_of_app. auto.
  - intros g page. rewrite elem_of_app, list_elem_of_singleton.
    intros [?|<-] Hid; [by eapply H5|done].
  - destruct H6 as [?|(g & page & ? & ? & ?)]; [auto|right].
    exists g, page. rewrite elem_of_app. auto.
Qed.

(** The test of [ProcessHeader], in terms of versions. *)
Lemma header_test o g page :
  (if negb (o_HeaderSeq o =? 0) &&
      ((t_SeqNumber g <? o_HeaderSeq o) ||
       ((t_SeqNumber g =? o_HeaderSeq o) && (page <=? o_HeaderPage o)))
   then o_HeaderSeq o ≠ 0 ∧ older_eq (t_SeqNumber g, page) (header_version o)
   else o_HeaderSeq o = 0 ∨ older_eq (header_version o) (t_SeqNumber g, page)).
Proof.
  unfold older_eq, header_version. simpl.
  repeat match goal with |- context [?a =? ?b] => destruct (Z.eqb_spec a b) end;
  repeat match goal with |- context [?a <? ?b] => destruct (Z.ltb_spec a b) end;
  repeat match goal with |- context [?a <=? ?b] => destruct (Z.leb_spec a b) end;
  simpl; lia.
Qed.

(** A header event leaves the newer of the two headers. *)
Lemma object_resolved_header evs g page buf o o' :
  0 < t_SeqNumber g →
  object_resolved evs (t_ObjId g) o →
  (if negb (o_HeaderSeq o =? 0) &&
      ((t_SeqNumber g <? o_HeaderSeq o) ||
       ((t_SeqNumber g =? o_HeaderSeq o) && (page <=? o_HeaderPage o)))
   then o' = o
   else ParseObjectHeader buf o (t_SeqNumber g) page = Some o') →
  object_resolved (evs ++ [EvHeader g page buf]) (t_ObjId g) o'.
Proof.
  intros Hseq [H1 H2 H3 H4 H5 H6 H7] Ho'. pose proof (header_test o g page) as Ht.
  match type of Ho' with if ?b then _ else _ => destruct b end.
  - subst o'. destruct Ht as [Hn Hold]. split; auto.
    + intros H. destruct (H2 H) as (g' & page' & buf' & o0 & ? & ? & ? & ?).
      exists g', page', buf', o0. rewrite elem_of_app. auto.
    + intros g' page' buf'. rewrite elem_of_app, list_elem_of_singleton.
      intros [Hin|[= -> -> ->]] Hid; [by eapply H3|done].
    + intros idx c Hx. destruct (H4 _ _ Hx) as (g' & page' & ? & ? & ? & ?).
      exists g', page'. rewrite elem_of_app. auto.
    + intros g' page'. rewrite elem_of_app, list_elem_of_singleton.
      intros [?|?] Hid; [by eapply H5|done].
    + destruct H6 as [?|(g' & page' & ? & ? & ?)]; [auto|right].
      exists g', page'. rewrite elem_of_app. auto.
  - pose proof (ParseObjectHeader_fields _ _ _ _ _ Ho') as (Hs & Hp & Hch & Hcc & Hpa & Hcl).
    split; rewrite ?Hch, ?Hcc, ?Hpa, ?Hcl; auto.
    + intros. lia.
    + intros _. destruct (ParseObjectHeader_header _ _ (new_object (t_ObjId g)) _ _ _ Ho')
        as (o0 & ? & ?).
      exists g, page, buf, o0. rewrite elem_of_app, list_elem_of_singleton. auto.
    + intros g' page' buf'. rewrite elem_of_app, list_elem_of_singleton.
      intros Hin Hid. rewrite Hs. split; [lia|].
      unfold header_version at 1. rewrite Hs, Hp.
      destruct Hin as [Hin|[= -> -> ->]]; [|done].
      destruct (H3 _ _ _ Hin Hid) as [Hn Hold]. destruct Ht as [?|Ht]; [done|].
      by etrans.
    + intros idx c Hx. destruct (H4 _ _ Hx) as (g' & page' & ? & ? & ? & ?).
      exists g', page'. rewrite elem_of_app. auto.
    + intros g' page'. rewrite elem_of_app, list_elem_of_singleton.
      intros [?|?] Hid; [by eapply H5|done].
    + destruct H6 as [?|(g' & page' & ? & ? & ?)]; [auto|right].
      exists g', page'. rewrite elem_of_app. auto.
Qed.

(** A data event leaves the newer of the two locations. *)
Lemma put_chunk_lookup o idx new i :
  (i ≠ idx → put_chunk o idx new !! i = o_Chunks o !! i) ∧
  ∃ c, put_chunk o idx new !! idx = Some c ∧ older_eq (chunk_version new) (chunk_version c)
    ∧ (c = new ∨ o_Chunks o !! idx = Some c)
    ∧ ∀ old, o_Chunks o !! idx = Some old → older_eq (chunk_version old) (chunk_version c).
Proof.
  unfold put_chunk, older_eq, chunk_version. simpl.
  destruct (o_Chunks o !! idx) as [old|] eqn:Eo.
  - case_b.
    + split; [intros; by rewrite lookup_insert_ne|]. exists new.
      rewrite lookup_insert_eq. split_and!; [done|lia|auto|]. intros ? [= <-].
      apply orb_true_iff in E as [?|?]; b2p; lia.
    + split; [done|]. exists old. b2p. split_and!; auto.
      * apply andb_false_iff in H0 as [?|?]; b2p; lia.
      * intros ? [= <-]. lia.
  - split; [intros; by rewrite lookup_insert_ne|]. exists new.
    rewrite lookup_insert_eq. split_and!; [done|lia|auto|done].
Qed.

Lemma object_resolved_data evs g page a o :
  1 <= t_ChunkId g → 0 <= o_ChunkCount o →
  object_resolved evs (t_ObjId g) o →
  object_resolved (evs ++ [EvData g page]) (t_ObjId g) (with_chunk o a g page).
Proof.
  intros Hc1 Hcnt [H1 H2 H3 H4 H5 H6 H7].
  set (new := mkLoc page (t_NBytes g) (t_SeqNumber g)).
  assert (Hput := put_chunk_lookup o (t_ChunkId g - 1) new).
  split; auto; simpl; fold new.
  - intros H. destruct (H2 H) as (g' & page' & buf' & o0 & ? & ? & ? & ?).
    exists g', page', buf', o0. rewrite elem_of_app. auto.
  - intros g' page' buf'. rewrite elem_of_app, list_elem_of_singleton.
    intros [Hin|?] Hid; [by eapply H3|done].
  - intros idx c Hx.
    assert (Hcase : c = new ∧ idx = t_ChunkId g - 1 ∨ o_Chunks o !! idx = Some c).
    { destruct (Hput idx) as [Hne (c' & Hc' & _ & Hor & _)].
      destruct (decide (idx = t_ChunkId g - 1)) as [->|Hd].
      - rewrite Hc' in Hx. injection Hx as ->. destruct Hor; auto.
      - rewrite Hne in Hx by done. auto. }
    destruct Hcase as [[-> ->]|Hold].
    + exists g, page. rewrite elem_of_app, list_elem_of_singleton. split_and!; auto; lia.
    + destruct (H4 _ _ Hold) as (g' & page' & ? & ? & ? & ?).
      exists g', page'. rewrite elem_of_app. auto.
  - intros g' page'. rewrite elem_of_app, list_elem_of_singleton.
    destruct (Hput (t_ChunkId g' - 1)) as [Hne (c' & Hc' & Hnew & _ & Hold)].
    intros [Hin|[= -> ->]] Hid.
    + destruct (H5 _ _ Hin Hid) as (Hcid & c & Hc & Hle). split; [lia|].
      destruct (decide (t_ChunkId g' - 1 = t_ChunkId g - 1)) as [Heq|Hd].
      * exists c'. rewrite Heq in *. split; [done|]. etrans; [exact Hle|]. by apply Hold.
      * exists c. rewrite Hne by done. done.
    + split; [lia|]. exists c'. auto.
  - right. destruct (decide (o_ChunkCount o < t_ChunkId g)) as [Hlt|Hge].
    + exists g, page. rewrite elem_of_app, list_elem_of_singleton. split_and!; auto; lia.
    + destruct H6 as [H0|(g' & page' & ? & ? & ?)]; [lia|].
      exists g', page'. rewrite elem_of_app. split_and!; auto; lia.
Qed.

(** ** Sequences of events *)

Lemma object_at_chunkcount t id : table_wf t → 0 <= o_ChunkCount (object_at (v_Objects t) id).
Proof.
  intros Hwf. unfold object_at. destruct (v_Objects t !! id) eqn:E; simpl; [|done].
  apply (twf_obj _ Hwf) in E as [_ []]. lia.
Qed.

Lemma resolved_insert evs t t' e o' :
  resolved evs t →
  v_Objects t' = <[t_ObjId (event_tags e) := o']> (v_Objects t) →
  object_resolved (evs ++ [e]) (t_ObjId (event_tags e)) o' →
  resolved (evs ++ [e]) t'.
Proof.
  intros [Hdom Hres] Ht' Ho'. split.
  - intros id. rewrite Ht', lookup_insert_is_Some'. rewrite Hdom.
    split.
    + intros [<-|(e' & He' & <-)].
      * exists e. rewrite elem_of_app, list_elem_of_singleton. auto.
      * exists e'. rewrite elem_of_app. auto.
    + intros (e' & [He'|He'%list_elem_of_singleton]%elem_of_app & <-); subst; eauto.
  - intros id. rewrite Ht', object_at_insert. case_decide as Heq; [by subst|].
    by apply object_resolved_other.
Qed.

Lemma process_event_resolved evs t e :
  table_wf t → pool_plenty (v_Pool t) → event_ok e → resolved evs t →
  ∃ t', process_event t e = Some t' ∧ table_wf t' ∧ pool_plenty (v_Pool t')
        ∧ resolved (evs ++ [e]) t'.
Proof.
  intros Hwf Hpl (Hg & Hpage & Hkind) Hres.
  destruct e as [g page buf|g page]; simpl in *.
  - destruct Hkind as [Hlen Hbytes].
    destruct (ProcessHeader_spec t buf g page Hwf Hg Hlen Hbytes) as (t' & HP & Hwf' & Hs).
    destruct (Hs Hpl) as (Hpl' & o' & Hobj & Hcase).
    exists t'. split_and!; try done. eapply resolved_insert; [done|exact Hobj|]. simpl.
    eapply object_resolved_header; [apply Hg|apply Hres|exact Hcase].
  - destruct (ProcessDataChunk_spec t g page Hwf Hg Hkind Hpage) as (t' & HP & Hwf' & Hs).
    destruct (Hs Hpl) as (Hpl' & a & Hobj).
    exists t'. split_and!; try done. eapply resolved_insert; [done|exact Hobj|]. simpl.
    apply object_resolved_data; [done|by apply object_at_chunkcount|apply Hres].
Qed.

Lemma process_events_resolved evs done t :
  table_wf t → pool_plenty (v_Pool t) → Forall event_ok evs → resolved done t →
  ∃ t', process_events t evs = Some t' ∧ table_wf t' ∧ pool_plenty (v_Pool t')
        ∧ resolved (done ++ evs) t'.
Proof.
  intros Hwf Hpl Hok. revert done t Hwf Hpl.
  induction Hok as [|e evs He Hok IH]; intros done t Hwf Hpl Hres; simpl.
  - exists t. by rewrite app_nil_r.
  - destruct (process_event_resolved done t e Hwf Hpl He Hres)
      as (t1 & H1 & Hwf1 & Hpl1 & Hres1).
    rewrite H1. simpl.
    destruct (IH _ _ Hwf1 Hpl1 Hres1) as (t2 & H2 & ? & ? & Hres2).
    exists t2. rewrite <- app_assoc in Hres2. auto.
Qed.

(** Without any hypothesis on the pool: no event makes the code fault, and the
    table stays well formed. *)
Lemma process_event_safe t e :
  table_wf t → event_ok e → ∃ t', process_event t e = Some t' ∧ table_wf t'.
Proof.
  intros Hwf (Hg & Hpage & Hkind). destruct e as [g page buf|g page]; simpl in *.
  - destruct Hkind as [Hlen Hbytes].
    destruct (ProcessHeader_spec t buf g page Hwf Hg Hlen Hbytes) as (t' & ? & ? & _). eauto.
  - destruct (ProcessDataChunk_spec t g page Hwf Hg Hkind Hpage) as (t' & ? & ? & _). eauto.
Qed.

Lemma process_events_safe evs t :
  table_wf t → Forall event_ok evs → ∃ t', process_events t evs = Some t' ∧ table_wf t'.
Proof.
  intros Hwf Hok. revert t Hwf.
  induction Hok as [|e evs He Hok IH]; intros t Hwf; simpl; [eauto|].
  destruct (process_event_safe t e Hwf He) as (t1 & -> & Hwf1). simpl. by apply IH.
Qed.

Lemma process_events_app t evs1 evs2 :
  process_events t (evs1 ++ evs2) = t' ← process_events t evs1; process_events t' evs2.
Proof.
  revert t. induction evs1 as [|e evs1 IH]; intros t; simpl; [done|].
  destruct (process_event t e); simpl; auto.
Qed.

(** ** Order independence *)

(** Two pages of one flash are different pages. *)
Definition distinct_pages (evs : list event) : Prop :=
  ∀ e1 e2, e1 ∈ evs → e2 ∈ evs → event_page e1 = event_page e2 → e1 = e2.

(** What the file system reads of an object. *)
Definition same_object (o1 o2 : YAFFS2_OBJECT) : Prop :=
  header_of o1 = header_of o2 ∧ o_Chunks o1 = o_Chunks o2
  ∧ o_ChunkCount o1 = o_ChunkCount o2.

Definition same_table (t1 t2 : TABLE) : Prop :=
  ∀ id, option_Forall2 same_object (v_Objects t1 !! id) (v_Objects t2 !! id).

#[export] Instance same_object_equiv : Equivalence same_object.
Proof.
  unfold same_object. split.
  - by intros o.
  - intros o1 o2 (? & ? & ?). auto.
  - intros o1 o2 o3 (? & ? & ?) (? & ? & ?). split_and!; congruence.
Qed.

#[export] Instance same_table_equiv : Equivalence same_table.
Proof.
  unfold same_table. split.
  - intros t id. reflexivity.
  - intros t1 t2 H id. symmetry. apply H.
  - intros t1 t2 t3 H1 H2 id. etrans; [apply H1|apply H2].
Qed.

(** The header an object carries, with its version. *)
Lemma header_witness evs id o :
  object_resolved evs id o → o_HeaderSeq o ≠ 0 →
  ∃ g page buf o0, EvHeader g page buf ∈ evs ∧ t_ObjId g = id
    ∧ ParseObjectHeader buf (new_object id) (t_SeqNumber g) page = Some o0
    ∧ header_of o = header_of o0 ∧ header_version o = (t_SeqNumber g, page).
Proof.
  intros Hr Hn. destruct (res_header _ _ _ Hr Hn) as (g & page & buf & o0 & ? & ? & Hp & Hh).
  exists g, page, buf, o0. split_and!; try done.
  apply ParseObjectHeader_fields in Hp as (Hs & Hpg & _).
  unfold header_of in Hh. injection Hh as _ _ _ _ _ _ _ Hs' Hpg'.
  unfold header_version. congruence.
Qed.

Section Unique.
Context (evs1 evs2 : list event) (id : Z) (o1 o2 : YAFFS2_OBJECT).
Hypothesis Hsub : ∀ e, e ∈ evs1 → e ∈ evs2.
Hypothesis Hr1 : object_resolved evs1 id o1.
Hypothesis Hr2 : object_resolved evs2 id o2.

Lemma header_dominated :
  o_HeaderSeq o1 ≠ 0 → o_HeaderSeq o2 ≠ 0 ∧ older_eq (header_version o1) (header_version o2).
Proof.
  intros Hn. destruct (header_witness _ _ _ Hr1 Hn) as (g & page & buf & o0 & Hin & Hid & _ & _ & ->).
  apply Hsub in Hin. exact (res_header_newest _ _ _ Hr2 _ _ _ Hin Hid).
Qed.

Lemma chunk_dominated idx c1 :
  o_Chunks o1 !! idx = Some c1 →
  ∃ c2, o_Chunks o2 !! idx = Some c2 ∧ older_eq (chunk_version c1) (chunk_version c2).
Proof.
  intros Hc. destruct (res_chunk _ _ _ Hr1 _ _ Hc) as (g & page & Hin & Hid & Hcid & ->).
  apply Hsub in Hin. destruct (res_chunk_newest _ _ _ Hr2 _ _ Hin Hid) as (_ & c2 & Hc2 & ?).
  exists c2. by replace idx with (t_ChunkId g - 1) by lia.
Qed.

Lemma count_dominated : 0 <= o_ChunkCount o2 → o_ChunkCount o1 <= o_ChunkCount o2.
Proof.
  intros. destruct (res_count _ _ _ Hr1) as [?|(g & page & Hin & Hid & <-)]; [lia|].
  apply Hsub in Hin. by destruct (res_chunk_newest _ _ _ Hr2 _ _ Hin Hid).
Qed.

Hypothesis Hdist : distinct_pages evs2.

Lemma header_same_version :
  o_HeaderSeq o1 ≠ 0 → header_version o1 = header_version o2 → header_of o1 = header_of o2.
Proof.
  intros Hn Hv. assert (Hn2 : o_HeaderSeq o2 ≠ 0) by by apply header_dominated in Hn as [? _].
  destruct (header_witness _ _ _ Hr1 Hn) as (g & page & buf & o0 & Hin & Hid & Hp & -> & Hv1).
  destruct (header_witness _ _ _ Hr2 Hn2) as (g' & page' & buf' & o0' & Hin' & Hid' & Hp' & -> & Hv2).
  assert (Hx : EvHeader g page buf = EvHeader g' page' buf').
  { apply Hdist; [by apply Hsub|done|]. simpl. congruence. }
  injection Hx as <- <- <-. congruence.
Qed.

Lemma chunk_same_version idx c1 c2 :
  o_Chunks o1 !! idx = Some c1 → o_Chunks o2 !! idx = Some c2 →
  chunk_version c1 = chunk_version c2 → c1 = c2.
Proof.
  intros H1 H2.
  destruct (res_chunk _ _ _ Hr1 _ _ H1) as (g & page & Hin & Hid & Hcid & ->).
  destruct (res_chunk _ _ _ Hr2 _ _ H2) as (g' & page' & Hin' & Hid' & Hcid' & ->).
  intros [= _ Hpg]. assert (Hx : EvData g page = EvData g' page').
  { apply Hdist; [by apply Hsub|done|done]. }
  by injection Hx as <- <-.
Qed.
End Unique.

Lemma object_resolved_unique evs1 evs2 id o1 o2 :
  (∀ e, e ∈ evs1 ↔ e ∈ evs2) → distinct_pages evs1 → distinct_pages evs2 →
  0 <= o_ChunkCount o1 → 0 <= o_ChunkCount o2 →
  object_resolved evs1 id o1 → object_resolved evs2 id o2 → same_object o1 o2.
Proof.
  intros Heq Hd1 Hd2 Hc1 Hc2 Hr1 Hr2.
  assert (H12 : ∀ e, e ∈ evs1 → e ∈ evs2) by (intros; by apply Heq).
  assert (H21 : ∀ e, e ∈ evs2 → e ∈ evs1) by (intros; by apply Heq).
  split_and!.
  - destruct (decide (o_HeaderSeq o1 = 0)) as [Hz1|Hn1].
    + destruct (decide (o_HeaderSeq o2 = 0)) as [Hz2|Hn2].
      * by rewrite (res_no_header _ _ _ Hr1 Hz1), (res_no_header _ _ _ Hr2 Hz2).
      * by destruct (header_dominated _ _ _ _ _ H21 Hr2 Hr1 Hn2).
    + destruct (header_dominated _ _ _ _ _ H12 Hr1 Hr2 Hn1) as [Hn2 Hle].
      destruct (header_dominated _ _ _ _ _ H21 Hr2 Hr1 Hn2) as [_ Hge].
      apply (header_same_version evs1 evs2 id o1 o2 H12 Hr1 Hr2 Hd2 Hn1).
      by apply older_eq_antisymm.
  - apply map_eq. intros idx.
    destruct (o_Chunks o1 !! idx) as [c1|] eqn:E1.
    + destruct (chunk_dominated _ _ _ _ _ H12 Hr1 Hr2 _ _ E1) as (c2 & E2 & Hle).
      destruct (chunk_dominated _ _ _ _ _ H21 Hr2 Hr1 _ _ E2) as (c1' & E1' & Hge).
      rewrite E1 in E1'. injection E1' as <-. rewrite E2. f_equal.
      apply (chunk_same_version evs1 evs2 id o1 o2 H12 Hr1 Hr2 Hd2 idx); [done..|].
      by apply older_eq_antisymm.
    + destruct (o_Chunks o2 !! idx) as [c2|] eqn:E2; [|done].
      destruct (chunk_dominated _ _ _ _ _ H21 Hr2 Hr1 _ _ E2) as (c1 & ? & _). congruence.
  - apply Z.le_antisymm;
      [by apply (count_dominated evs1 evs2 id)|by apply (count_dominated evs2 evs1 id)].
Qed.

Lemma resolved_unique evs1 evs2 t1 t2 :
  (∀ e, e ∈ evs1 ↔ e ∈ evs2) → distinct_pages evs1 → distinct_pages evs2 →
  table_wf t1 → table_wf t2 → resolved evs1 t1 → resolved evs2 t2 → same_table t1 t2.
Proof.
  intros Heq Hd1 Hd2 Hwf1 Hwf2 [Hdom1 Hr1] [Hdom2 Hr2] id.
  assert (Hiff : is_Some (v_Objects t1 !! id) ↔ is_Some (v_Objects t2 !! id)).
  { rewrite Hdom1, Hdom2. split; intros (e & He & ?); exists e; split; try done; by apply Heq. }
  pose proof (object_resolved_unique _ _ _ _ _ Heq Hd1 Hd2
    (object_at_chunkcount _ id Hwf1) (object_at_chunkcount _ id Hwf2) (Hr1 id) (Hr2 id)) as Hs.
  unfold object_at in Hs.
  destruct (v_Objects t1 !! id), (v_Objects t2 !! id); simpl in *.
  - by constructor.
  - destruct Hiff as [Hi _]. destruct Hi; eauto. done.
  - destruct Hiff as [_ Hi]. destruct Hi; eauto. done.
  - constructor.
Qed.

(** ** The properties *)

(** C1: Newest version wins: for any list of live pages (tags in range), the
    page processors of the scan run without a fault and leave, for every object
    id met, the newest header by (sequence number, page) and, for every chunk,
    the newest location, with [ChunkCount] the largest chunk id. *)
Theorem scan_keeps_newest evs p :
  Forall event_ok evs → pool_plenty p →
  ∃ t, process_events (table_empty p) evs = Some t ∧ table_wf t ∧ resolved evs t.
Proof.
  intros Hok Hp.
  destruct (process_events_resolved evs [] (table_empty p) (table_empty_wf p) Hp Hok
              (resolved_empty p)) as (t & ? & ? & _ & ?). eauto.
Qed.

(** The result does not depend on the order in which the pages are met:
    two orders of the same pages give tables with the same objects, headers
    and chunk locations. *)
Theorem scan_order_irrelevant evs1 evs2 p1 p2 t1 t2 :
  evs1 ≡ₚ evs2 → distinct_pages evs1 → Forall event_ok evs1 →
  pool_plenty p1 → pool_plenty p2 →
  process_events (table_empty p1) evs1 = Some t1 →
  process_events (table_empty p2) evs2 = Some t2 →
  same_table t1 t2.
Proof.
  intros Hperm Hd Hok Hp1 Hp2 E1 E2.
  assert (Hok2 : Forall event_ok evs2) by by rewrite <- Hperm.
  assert (Hd2 : distinct_pages evs2).
  { intros a b Ha Hb. apply Hd; by rewrite Hperm. }
  destruct (process_events_resolved evs1 [] (table_empty p1) (table_empty_wf p1) Hp1 Hok
              (resolved_empty p1)) as (t1' & E1' & Hwf1 & _ & Hr1).
  destruct (process_events_resolved evs2 [] (table_empty p2) (table_empty_wf p2) Hp2 Hok2
              (resolved_empty p2)) as (t2' & E2' & Hwf2 & _ & Hr2).
  rewrite E1 in E1'. rewrite E2 in E2'. injection E1' as <-. injection E2' as <-.
  eapply resolved_unique; [|exact Hd|exact Hd2|done..]. intros e. by rewrite Hperm.
Qed.

(** The properties at the pages of an object that was written twice. *)
Definition demo_events : list event := [
  EvHeader (mkTags 0x1001 257 0 5 true) 1 (encode_header (demo_header YAFFS2_TYPE_FILE 1 5 [97]));
  EvData (mkTags 0x1001 257 1 5 false) 2;
  EvHeader (mkTags 0x1002 257 0 5 true) 4 (encode_header (demo_header YAFFS2_TYPE_FILE 1 5 [98]));
  EvData (mkTags 0x1002 257 1 5 false) 5 ].

Lemma demo_header_event_ok seq size p name :
  1 <= seq → 0 <= p < YAFFS2_CHUNK_UNSET → Forall byte_ok name →
  event_ok (EvHeader (mkTags seq 257 0 size true) p
              (encode_header (demo_header YAFFS2_TYPE_FILE 1 size name))).
Proof.
  intros Hs Hp Hn. split; [unfold tags_ok, id_ok; simpl; lia|]. split; [exact Hp|].
  split; [by rewrite length_encode_header|].
  apply encode_header_bytes; [exact Hn|apply List.Forall_nil].
Qed.

Lemma demo_data_event_ok seq size p :
  1 <= seq → 0 <= p < YAFFS2_CHUNK_UNSET → event_ok (EvData (mkTags seq 257 1 size false) p).
Proof.
  intros Hs Hp. split; [unfold tags_ok, id_ok; simpl; lia|]. split; [exact Hp|]. simpl. lia.
Qed.

Lemma demo_events_ok : Forall event_ok demo_events.
Proof.
  unfold demo_events, YAFFS2_CHUNK_UNSET in *.
  repeat (apply List.Forall_cons; [|]); [..|apply List.Forall_nil];
    first [ apply demo_data_event_ok; unfold YAFFS2_CHUNK_UNSET; lia
          | apply demo_header_event_ok; unfold YAFFS2_CHUNK_UNSET; [lia|lia|by apply bytes_okb_spec] ].
Qed.

Lemma demo_events_distinct : distinct_pages demo_events.
Proof.
  intros e1 e2. unfold demo_events. rewrite !elem_of_cons, !elem_of_nil.
  intros [->|[->|[->|[->|[]]]]] [->|[->|[->|[->|[]]]]]; by simpl.
Qed.

Lemma scan_keeps_newest_witness :
  Forall event_ok demo_events ∧ pool_plenty (mkPool [] 0)
  ∧ ∃ t, process_events (table_empty (mkPool [] 0)) demo_events = Some t
         ∧ resolved demo_events t.
Proof.
  assert (Hp : pool_plenty (mkPool [] 0)) by reflexivity.
  split; [exact demo_events_ok|]. split; [exact Hp|].
  destruct (scan_keeps_newest demo_events (mkPool [] 0) demo_events_ok Hp) as (t & E & _ & Hr).
  exists t. split; assumption.
Defined.

Lemma scan_order_irrelevant_witness :
  ∃ t1 t2, process_events (table_empty (mkPool [] 0)) demo_events = Some t1
    ∧ process_events (table_empty (mkPool [] 0)) (rev demo_events) = Some t2
    ∧ same_table t1 t2.
Proof.
  assert (Hp : pool_plenty (mkPool [] 0)) by reflexivity.
  assert (Hperm : demo_events ≡ₚ rev demo_events) by apply Permutation_rev.
  destruct (process_events (table_empty (mkPool [] 0)) demo_events) as [t1|] eqn:E1;
    [|vm_compute in E1; discriminate].
  destruct (process_events (table_empty (mkPool [] 0)) (rev demo_events)) as [t2|] eqn:E2;
    [|vm_compute in E2; discriminate].
  exists t1, t2. split; [reflexivity|]. split; [reflexivity|].
  exact (scan_order_irrelevant demo_events (rev demo_events) _ _ t1 t2 Hperm
           demo_events_distinct demo_events_ok Hp Hp E1 E2).
Defined.
