(* ===== verification/Yaffs2Tree.v ===== *)
(** * The directory tree

    [BuildTree] of Drivers/MtYaffs2Dxe/Scan.c: after the scan, drop what is not
    live and link every object into its parent's child list. *)

From S2P Require Import Prelude Efi Nand Yaffs2Obj.

(** ** The code *)

(** Free an object, and its chunk array when there is one. *)
Definition free_object (pool : Pool) (o : YAFFS2_OBJECT) : Pool :=
  FreePool (if o_ChunkAlloc o =? 0 then pool else FreePool pool).

Definition drop_object (t : TABLE) (i : Z) (o : YAFFS2_OBJECT) : TABLE :=
  mkTable (delete i (v_Objects t)) (v_Slots t) (v_MaxObjId t)
          (free_object (v_Pool t) o).

Definition BuildTree_prune (i : Z) (t : TABLE) : option TABLE :=
  slot ← slot_get t i;
  match slot with
  | None => Some t
  | Some p =>
      Obj ← v_Objects t !! p;
      if o_Type Obj =? 0 then Some (drop_object t i Obj)
      else if (i =? YAFFS2_OBJECTID_UNLINKED) || (i =? YAFFS2_OBJECTID_DELETED)
      then Some (drop_object t i Obj)
      else if (o_ParentId Obj =? YAFFS2_OBJECTID_UNLINKED) ||
              (o_ParentId Obj =? YAFFS2_OBJECTID_DELETED)
      then Some (drop_object t i Obj)
      else Some t
  end.

Definition set_tree (o : YAFFS2_OBJECT) (parent : option Z) (children : list Z)
    : YAFFS2_OBJECT :=
  mkObj (o_ObjId o) (o_ParentId o) (o_Type o) (o_Name o) (o_Mode o) (o_MTime o)
        (o_FileSize o) (o_Alias o) (o_EquivId o) (o_HeaderSeq o) (o_HeaderPage o)
        parent children (o_ChunkCount o) (o_ChunkAlloc o) (o_Chunks o).

(** [Obj->Parent = Parent; InsertTailList (&Parent->ChildHead, &Obj->SiblingLink)] *)
Definition link_child (t : TABLE) (i parent : Z) : option TABLE :=
  Obj ← v_Objects t !! i;
  let t := obj_set t i (set_tree Obj (Some parent) (o_ChildHead Obj)) in
  Par ← v_Objects t !! parent;
  Some (obj_set t parent (set_tree Par (o_Parent Par) (o_ChildHead Par ++ [i]))).

Definition BuildTree_link (i : Z) (t : TABLE) : option TABLE :=
  slot ← slot_get t i;
  match slot with
  | None => Some t
  | Some p =>
      Obj ← v_Objects t !! p;
      if i =? 1 then Some (obj_set t p (set_tree Obj None (o_ChildHead Obj)))
      else
        orphan ← (if (o_ParentId Obj =? 0) || (v_MaxObjId t <? o_ParentId Obj)
                  then Some true
                  else s ← slot_get t (o_ParentId Obj);
                       Some (match s with None => true | Some _ => false end));
        if orphan : bool then
          root ← slot_get t 1;
          match root with
          | Some r => link_child t i r
          | None => Some t
          end
        else link_child t i (o_ParentId Obj)
  end.

(** The two passes over [1 .. MaxObjId], then the root pointer. *)
Definition BuildTree (t : TABLE) : option (TABLE * option Z) :=
  let n := Z.to_nat (v_MaxObjId t) in
  t ← for_loop n 1 BuildTree_prune t;
  t ← for_loop n 1 BuildTree_link t;
  Root ← (if 1 <=? v_MaxObjId t then slot_get t 1 else Some None);
  Some (t, Root).

(** ** What it computes *)

(** An object that survives the first pass. *)
Definition live (id : Z) (o : YAFFS2_OBJECT) : Prop :=
  o_Type o ≠ 0 ∧ id ≠ YAFFS2_OBJECTID_UNLINKED ∧ id ≠ YAFFS2_OBJECTID_DELETED
  ∧ o_ParentId o ≠ YAFFS2_OBJECTID_UNLINKED ∧ o_ParentId o ≠ YAFFS2_OBJECTID_DELETED.

#[export] Instance live_dec id o : Decision (live id o).
Proof. unfold live. apply _. Defined.

Definition live_objects (m : gmap Z YAFFS2_OBJECT) : gmap Z YAFFS2_OBJECT :=
  filter (λ kv, live kv.1 kv.2) m.

(** The parent the tree gives an object: its [ParentId] if that object is
    live, the root otherwise, nothing for the root. *)
Definition tree_parent (m : gmap Z YAFFS2_OBJECT) (id : Z) : option Z :=
  o ← m !! id;
  if decide (id = 1) then None
  else match m !! o_ParentId o with
       | Some _ => Some (o_ParentId o)
       | None => match m !! 1 with Some _ => Some 1 | None => None end
       end.

(** The children of [p] among the ids [1 .. n], in increasing order. *)
Definition tree_children (m : gmap Z YAFFS2_OBJECT) (n : Z) (p : Z) : list Z :=
  filter (λ j, tree_parent m j = Some p) (seqZ 1 n).

Definition linked (m : gmap Z YAFFS2_OBJECT) (n : Z) (id : Z) (o : YAFFS2_OBJECT)
    : YAFFS2_OBJECT :=
  set_tree o (if decide (id <= n) then tree_parent m id else None) (tree_children m n id).

(** ** Correctness *)

Lemma slot_get_wf t i :
  table_wf t → 1 <= i <= v_MaxObjId t →
  slot_get t i = Some (match v_Objects t !! i with Some _ => Some i | None => None end).
Proof.
  intros [Hs Hm _] Hi. unfold slot_get.
  destruct Hs as [(?&?&?)|Hs]; [lia|]. rewrite Hs. simpl.
  by rewrite (proj2 (Z.leb_le 0 i)), (proj2 (Z.ltb_lt i _)) by lia.
Qed.

(** The first pass, for the ids below [i]. *)
Definition pruned (m : gmap Z YAFFS2_OBJECT) (i : Z) (id : Z) : option YAFFS2_OBJECT :=
  o ← m !! id; if decide (id < i → live id o) then Some o else None.

#[local] Instance impl_lt_dec id i o : Decision (id < i → live id o).
Proof. apply _. Defined.

Record pruning (t : TABLE) (i : Z) (t' : TABLE) : Prop := {
  pr_slots : v_Slots t' = v_Slots t;
  pr_max : v_MaxObjId t' = v_MaxObjId t;
  pr_wf : table_wf t';
  pr_obj : ∀ id, v_Objects t' !! id = pruned (v_Objects t) i id
}.

Lemma pruned_step m i id :
  id ≠ i → pruned m (i + 1) id = pruned m i id.
Proof.
  intros Hne. unfold pruned. destruct (m !! id) as [o|]; simpl; [|done].
  repeat case_decide; try done; exfalso.
  - apply H0. intros. apply H. lia.
  - apply H. intros. apply H0. lia.
Qed.

Lemma drop_object_pruning t i t' o :
  pruning t i t' → v_Objects t' !! i = Some o → ~ live i o →
  pruning t (i + 1) (drop_object t' i o).
Proof.
  intros [Hs Hm Hwf Ho] Hi Hl. split; simpl; auto.
  - destruct Hwf as [H1 H2 H3]. split; simpl; auto.
    + destruct H1 as [(?&?&He)|?]; [|auto]. rewrite He in Hi. by rewrite lookup_empty in Hi.
    + intros id' o'. rewrite lookup_delete_Some. intros [_ ?]. by apply H3.
  - intros id. rewrite lookup_delete. case_decide as Heq.
    + subst id. rewrite Ho in Hi. unfold pruned in *.
      destruct (v_Objects t !! i) as [o2|]; simpl in *; [|done].
      case_decide; [|done]. injection Hi as ->. rewrite decide_False; [done|].
      intros Hx. apply Hl, Hx. lia.
    + rewrite Ho. symmetry. by apply pruned_step.
Qed.

Lemma keep_pruning t i t' :
  pruning t i t' → (∀ o, v_Objects t' !! i = Some o → live i o) →
  pruning t (i + 1) t'.
Proof.
  intros [Hs Hm Hwf Ho] Hl. split; auto. intros id.
  destruct (decide (id = i)) as [->|Hne]; [|rewrite Ho; symmetry; by apply pruned_step].
  specialize (Ho i). rewrite Ho. unfold pruned in *.
  destruct (v_Objects t !! i) as [o|]; simpl in *; [|done].
  rewrite (decide_True (P := i < i → live i o)) in * by lia.
  rewrite decide_True; [done|]. intros _. by apply Hl.
Qed.

Lemma BuildTree_prune_step t i t' :
  1 <= i <= v_MaxObjId t → pruning t i t' →
  ∃ t2, BuildTree_prune i t' = Some t2 ∧ pruning t (i + 1) t2.
Proof.
  intros Hi Hp. pose proof Hp as [Hs Hm Hwf Ho].
  unfold BuildTree_prune. rewrite slot_get_wf by (done || lia). simpl.
  destruct (v_Objects t' !! i) as [o|] eqn:Ei; simpl.
  2:{ eexists. split; [done|]. apply keep_pruning; [done|]. intros o Hx. congruence. }
  rewrite Ei. simpl.
  assert (Hdrop : ~ live i o → ∃ t2, Some (drop_object t' i o) = Some t2 ∧ pruning t (i + 1) t2).
  { intros Hn. eexists. split; [done|]. by apply drop_object_pruning. }
  repeat case_b; b2p; try (apply Hdrop; unfold live; tauto).
  - apply orb_true_iff in E0 as [?|?]; b2p; apply Hdrop; unfold live; tauto.
  - apply orb_true_iff in E1 as [?|?]; b2p; apply Hdrop; unfold live; tauto.
  - eexists. split; [done|]. apply keep_pruning; [done|].
    intros o' Hx. rewrite Ei in Hx. injection Hx as <-. unfold live. tauto.
Qed.

Lemma prune_pass t :
  table_wf t →
  ∃ t', for_loop (Z.to_nat (v_MaxObjId t)) 1 BuildTree_prune t = Some t'
    ∧ table_wf t' ∧ v_Slots t' = v_Slots t ∧ v_MaxObjId t' = v_MaxObjId t
    ∧ v_Objects t' = live_objects (v_Objects t).
Proof.
  intros Hwf. pose proof (twf_max _ Hwf).
  destruct (for_loop_inv BuildTree_prune (pruning t) (Z.to_nat (v_MaxObjId t)) 1 t)
    as (t' & Hl & [Hs Hm Hwf' Ho]).
  - split; auto. intros id. unfold pruned.
    destruct (v_Objects t !! id) as [o|] eqn:E; simpl; [|done].
    apply (twf_obj _ Hwf) in E as [? _]. rewrite decide_True; [done|lia].
  - intros j s Hj. apply BuildTree_prune_step. lia.
  - exists t'. split_and!; try done. apply map_eq. intros id. rewrite Ho.
    unfold pruned, live_objects. rewrite map_lookup_filter.
    destruct (v_Objects t !! id) as [o|] eqn:E; simpl; [|done].
    apply (twf_obj _ Hwf) in E as [? _]. unfold guard.
    repeat case_decide; simpl in *; try done; exfalso.
    + apply H2, H1. lia.
    + apply H1. auto.
Qed.

Record linking (t : TABLE) (n : Z) (t' : TABLE) : Prop := {
  lk_slots : v_Slots t' = v_Slots t;
  lk_max : v_MaxObjId t' = v_MaxObjId t;
  lk_wf : table_wf t';
  lk_obj : ∀ id, v_Objects t' !! id = linked (v_Objects t) n id <$> v_Objects t !! id
}.

Lemma tree_children_S m n p :
  0 <= n → tree_children m (n + 1) p =
    tree_children m n p ++ (if decide (tree_parent m (n + 1) = Some p) then [n + 1] else []).
Proof.
  intros Hn. unfold tree_children.
  rewrite (seqZ_app 1 n 1) by lia. rewrite list.filter_app. f_equal.
  change (seqZ (1 + n) 1) with [Z.of_nat 0 + (1 + n)].
  rewrite list.filter_cons, list.filter_nil.
  replace (Z.of_nat 0 + (1 + n)) with (n + 1) by lia. done.
Qed.

Lemma linked_S_none m n id o :
  0 <= n → tree_parent m (n + 1) = None → linked m (n + 1) id o = linked m n id o.
Proof.
  intros Hn Hp. unfold linked. rewrite tree_children_S, Hp by done.
  rewrite (decide_False (P := None = Some id)), app_nil_r by done. f_equal.
  repeat case_decide; try done; try lia. replace id with (n + 1) by lia. done.
Qed.

Lemma linked_S_some m n p id o :
  0 <= n → tree_parent m (n + 1) = Some p →
  linked m (n + 1) id o =
    set_tree o (if decide (id = n + 1) then Some p else o_Parent (linked m n id o))
      (tree_children m n id ++ (if decide (id = p) then [n + 1] else [])).
Proof.
  intros Hn Hp. unfold linked. rewrite tree_children_S, Hp by done. simpl. f_equal.
  - repeat case_decide; subst; try done; lia.
  - repeat case_decide; congruence.
Qed.

Lemma set_tree_wf id o p c : object_wf id o → object_wf id (set_tree o p c).
Proof. intros []. by split. Qed.

Lemma link_child_linking t n t' p :
  0 <= n → n + 1 <= v_MaxObjId t → is_Some (v_Objects t !! (n + 1)) →
  is_Some (v_Objects t !! p) →
  tree_parent (v_Objects t) (n + 1) = Some p → linking t n t' →
  ∃ t2, link_child t' (n + 1) p = Some t2 ∧ linking t (n + 1) t2.
Proof.
  intros Hn Hmax [o Ho] [par Hpar] Hp [Hs Hm Hwf Hobj].
  unfold link_child. rewrite Hobj, Ho. simpl.
  assert (Hio := twf_obj _ Hwf (n + 1) (linked (v_Objects t) n (n + 1) o)).
  rewrite Hobj, Ho in Hio. destruct (Hio eq_refl) as [Hri How].
  assert (Hip := twf_obj _ Hwf p (linked (v_Objects t) n p par)).
  rewrite Hobj, Hpar in Hip. destruct (Hip eq_refl) as [Hrp Hpw]. clear Hio Hip.
  set (o1 := set_tree (linked (v_Objects t) n (n + 1) o) (Some p)
               (o_ChildHead (linked (v_Objects t) n (n + 1) o))).
  assert (Hwf1 : table_wf (obj_set t' (n + 1) o1))
    by (apply table_wf_insert; [done|done|by apply set_tree_wf]).
  rewrite lookup_insert, Hobj, Hpar.
  destruct (decide (n + 1 = p)) as [Heq|Hne]; simpl.
  - eexists. split; [done|]. split; simpl; auto.
    { apply table_wf_insert; simpl; [done|done|].
      rewrite <- Heq. by apply set_tree_wf, set_tree_wf. }
    intros id. rewrite !lookup_insert, Hobj.
    destruct (v_Objects t !! id) as [x|] eqn:Ex; simpl.
    + rewrite (linked_S_some _ _ p) by done.
      repeat case_decide; subst; try done; rewrite ?app_nil_r; try done.
      rewrite Ho in Ex. by injection Ex as <-.
    + repeat case_decide; subst; congruence.
  - eexists. split; [done|]. split; simpl; auto.
    { apply table_wf_insert; simpl; [done|done|]. by apply set_tree_wf. }
    intros id. rewrite !lookup_insert, Hobj.
    destruct (v_Objects t !! id) as [x|] eqn:Ex; simpl.
    + rewrite (linked_S_some _ _ p) by done.
      repeat case_decide; subst; try done; rewrite ?app_nil_r; simplify_eq; try done;
        unfold linked; simpl; repeat case_decide; done || lia.
    + repeat case_decide; subst; congruence.
Qed.

(** The tree hangs below the root only if the fresh objects had no links. *)
Definition unlinked (m : gmap Z YAFFS2_OBJECT) : Prop :=
  ∀ id o, m !! id = Some o → o_Parent o = None ∧ o_ChildHead o = [].

Lemma linked_set_tree m n id o :
  linked m n id o = set_tree (linked m n id o) (o_Parent (linked m n id o))
                             (o_ChildHead (linked m n id o)).
Proof. done. Qed.

Lemma keep_linking t n t' :
  0 <= n → tree_parent (v_Objects t) (n + 1) = None → linking t n t' → linking t (n + 1) t'.
Proof.
  intros Hn Hp [Hs Hm Hwf Hobj]. split; auto.
  intros id. rewrite Hobj. destruct (v_Objects t !! id); simpl; [|done].
  by rewrite linked_S_none.
Qed.

Lemma BuildTree_link_step t n t' :
  table_wf t → 0 <= n → n + 1 <= v_MaxObjId t → linking t n t' →
  ∃ t2, BuildTree_link (n + 1) t' = Some t2 ∧ linking t (n + 1) t2.
Proof.
  intros Hwf0 Hn Hmax Hlk. pose proof Hlk as [Hs Hm Hwf Hobj].
  unfold BuildTree_link. rewrite (slot_get_wf t' (n + 1)) by (done || lia). simpl. rewrite Hobj.
  destruct (v_Objects t !! (n + 1)) as [o|] eqn:Eo; simpl.
  2:{ eexists. split; [done|]. apply keep_linking; [done| |done].
      unfold tree_parent. by rewrite Eo. }
  rewrite Hobj, Eo. simpl.
  destruct (twf_obj _ Hwf0 _ _ Eo) as [_ How]. pose proof (owf_parent _ _ How) as Hpar.
  destruct (Z.eqb_spec (n + 1) 1) as [H1|H1].
  { assert (n = 0) as -> by lia. change (0 + 1) with 1 in *. eexists. split; [done|].
    apply (keep_linking t 0); [done|change (0 + 1) with 1; unfold tree_parent; by rewrite Eo|].
    split; simpl; auto.
    - apply table_wf_insert; [done|lia|].
      specialize (Hobj 1). rewrite Eo in Hobj.
      apply (twf_obj _ Hwf) in Hobj as [_ ?]. by apply set_tree_wf.
    - intros id. rewrite lookup_insert, Hobj. case_decide as Heq; [|done].
      subst id. by rewrite Eo. }
  assert (Hslot1 : slot_get t' 1 =
    Some (match v_Objects t !! 1 with Some _ => Some 1 | None => None end)).
  { rewrite slot_get_wf by (done || lia). rewrite Hobj. by destruct (v_Objects t !! 1). }
  assert (Htp : tree_parent (v_Objects t) (n + 1) =
    match v_Objects t !! o_ParentId o with
    | Some _ => Some (o_ParentId o)
    | None => match v_Objects t !! 1 with Some _ => Some 1 | None => None end
    end).
  { unfold tree_parent. rewrite Eo. simpl. by rewrite decide_False. }
  assert (Horphan : v_Objects t !! o_ParentId o = None →
    ∃ t2, (root ← slot_get t' 1;
           match root with Some r => link_child t' (n + 1) r | None => Some t' end) = Some t2
          ∧ linking t (n + 1) t2).
  { intros Hnone. rewrite Hnone in Htp. rewrite Hslot1. simpl.
    destruct (v_Objects t !! 1) eqn:E1; simpl.
    - apply link_child_linking; eauto.
    - eexists. split; [done|]. by apply keep_linking. }
  case_b.
  - simpl. apply Horphan. destruct (v_Objects t !! o_ParentId o) eqn:Ep; [|done].
    apply (twf_obj _ Hwf0) in Ep as [? _]. apply orb_true_iff in E as [?|?]; b2p; lia.
  - b2p. rewrite (slot_get_wf t' (o_ParentId o)) by (done || lia). rewrite Hobj. simpl.
    destruct (v_Objects t !! o_ParentId o) eqn:Ep; simpl.
    + apply link_child_linking; eauto.
    + by apply Horphan.
Qed.

Lemma link_pass t :
  table_wf t → unlinked (v_Objects t) →
  ∃ t', for_loop (Z.to_nat (v_MaxObjId t)) 1 BuildTree_link t = Some t'
        ∧ linking t (v_MaxObjId t) t'.
Proof.
  intros Hwf Hun. pose proof (twf_max _ Hwf).
  destruct (for_loop_inv BuildTree_link (λ i, linking t (i - 1))
              (Z.to_nat (v_MaxObjId t)) 1 t) as (t' & Hl & Hlk).
  - split; auto. intros id. destruct (v_Objects t !! id) as [o|] eqn:E; simpl; [|done].
    f_equal. destruct (Hun _ _ E) as [Hp Hc].
    apply (twf_obj _ Hwf) in E as [Hid _].
    unfold linked. rewrite decide_False by lia. unfold tree_children. simpl.
    destruct o; simpl in *; by subst.
  - intros j s Hj Hlk. replace (j + 1 - 1) with (j - 1 + 1) by lia.
    destruct (BuildTree_link_step t (j - 1) s) as (t2 & Hb & Hlk2); try (done || lia).
    exists t2. split; [|exact Hlk2]. by replace (j - 1 + 1) with j in Hb by lia.
  - exists t'. split; [done|]. by replace (1 + Z.of_nat (Z.to_nat (v_MaxObjId t)) - 1)
      with (v_MaxObjId t) in Hlk by lia.
Qed.

(** What [BuildTree] computes: the live objects, linked. *)
Lemma BuildTree_spec t :
  table_wf t → unlinked (v_Objects t) →
  ∃ t', BuildTree t = Some (t', match live_objects (v_Objects t) !! 1 with
                                | Some _ => Some 1 | None => None end)
    ∧ table_wf t' ∧ v_MaxObjId t' = v_MaxObjId t ∧ v_Slots t' = v_Slots t
    ∧ ∀ id, v_Objects t' !! id =
        linked (live_objects (v_Objects t)) (v_MaxObjId t) id
          <$> live_objects (v_Objects t) !! id.
Proof.
  intros Hwf Hun. destruct (prune_pass t Hwf) as (t1 & Hl1 & Hwf1 & Hs1 & Hm1 & Ho1).
  destruct (link_pass t1 Hwf1) as (t2 & Hl2 & [Hs2 Hm2 Hwf2 Ho2]).
  { rewrite Ho1. intros id o. unfold live_objects. rewrite map_lookup_filter_Some.
    intros [? _]. by eapply Hun. }
  rewrite Hm1, Ho1 in *. exists t2. unfold BuildTree. rewrite Hl1. simpl. rewrite Hl2. simpl.
  split_and!; try done; [|congruence].
  rewrite Hm2. case_b; b2p.
  - rewrite slot_get_wf by (done || lia). simpl. rewrite Ho2.
    by destruct (live_objects _ !! 1).
  - simpl. destruct (live_objects _ !! 1) eqn:E1; [|done].
    unfold live_objects in E1. apply map_lookup_filter_Some in E1 as [E1 _].
    apply (twf_obj _ Hwf) in E1 as [? _]. lia.
Qed.

(** ** Accounting for the pool *)

(** The allocations an object holds: itself and its chunk array. *)
Definition obj_cost (o : YAFFS2_OBJECT) : Z := if o_ChunkAlloc o =? 0 then 1 else 2.

Definition objs_cost (m : gmap Z YAFFS2_OBJECT) : Z :=
  map_fold (λ _ o n, obj_cost o + n) 0 m.

(** The allocations of an object table. *)
Definition table_cost (t : TABLE) : Z :=
  (match v_Slots t with Some _ => 1 | None => 0 end) + objs_cost (v_Objects t).

(** Everything allocated beyond [base] is in the table. *)
Definition accounted (base : Z) (t : TABLE) : Prop :=
  pool_live (v_Pool t) = base + table_cost t.

Lemma obj_cost_set_chunks o n m : obj_cost (set_chunks o n (o_ChunkAlloc o) m) = obj_cost o.
Proof. done. Qed.

Lemma objs_cost_empty : objs_cost ∅ = 0.
Proof. done. Qed.

Lemma objs_cost_insert m id o :
  m !! id = None → objs_cost (<[id := o]> m) = obj_cost o + objs_cost m.
Proof.
  intros Hm. unfold objs_cost. rewrite map_fold_insert_L; [done|intros; lia|done].
Qed.

Lemma objs_cost_delete m id o :
  m !! id = Some o → objs_cost m = obj_cost o + objs_cost (delete id m).
Proof.
  intros Hm. rewrite <- objs_cost_insert with (id := id) by apply lookup_delete_eq.
  by rewrite insert_delete_id.
Qed.

Lemma objs_cost_replace m id o o' :
  m !! id = Some o → objs_cost (<[id := o']> m) = objs_cost m + obj_cost o' - obj_cost o.
Proof.
  intros Hm. rewrite (objs_cost_delete m id o Hm).
  rewrite <- insert_delete_eq, objs_cost_insert by apply lookup_delete_eq. lia.
Qed.

Lemma obj_set_accounted base t id o o' :
  v_Objects t !! id = Some o → o_ChunkAlloc o' = o_ChunkAlloc o →
  accounted base t → accounted base (obj_set t id o').
Proof.
  unfold accounted, table_cost. simpl. intros Ho Ha ->.
  rewrite (objs_cost_replace _ _ o) by done. unfold obj_cost. rewrite Ha. lia.
Qed.

Lemma free_object_live p o : pool_live (free_object p o) = pool_live p - obj_cost o.
Proof. unfold free_object, obj_cost. case_b; simpl; lia. Qed.

(** [BuildTree] keeps the account: what it drops it frees. *)
Lemma BuildTree_prune_accounted base i t t' :
  BuildTree_prune i t = Some t' → accounted base t → accounted base t'.
Proof.
  unfold BuildTree_prune. intros HB Hb. apply bind_Some in HB as (slot & Hs & HB).
  destruct slot as [p|]; [|by simplify_eq]. apply bind_Some in HB as (o & Ho & HB).
  assert (p = i) as ->.
  { unfold slot_get in Hs. apply bind_Some in Hs as (n & _ & Hs).
    repeat case_match; congruence. }
  assert (Hd : accounted base (drop_object t i o)).
  { unfold accounted, table_cost, drop_object in *. cbn [v_Pool v_Slots v_Objects].
    rewrite free_object_live.
    rewrite (objs_cost_delete _ _ _ Ho) in Hb. lia. }
  repeat (case_match; simplify_eq; [exact Hd|]). by simplify_eq.
Qed.

Lemma link_child_accounted base t i p t' :
  link_child t i p = Some t' → accounted base t → accounted base t'.
Proof.
  unfold link_child. intros HL Hb. apply bind_Some in HL as (o & Ho & HL).
  apply bind_Some in HL as (par & Hp & HL). simplify_eq.
  eapply obj_set_accounted; [exact Hp|done|]. by eapply obj_set_accounted.
Qed.

Lemma BuildTree_link_accounted base i t t' :
  BuildTree_link i t = Some t' → accounted base t → accounted base t'.
Proof.
  unfold BuildTree_link. intros HB Hb. apply bind_Some in HB as (slot & Hs & HB).
  destruct slot as [p|]; [|by simplify_eq]. apply bind_Some in HB as (o & Ho & HB).
  case_match; [simplify_eq; by eapply obj_set_accounted|].
  apply bind_Some in HB as (orphan & _ & HB). destruct orphan.
  - apply bind_Some in HB as (root & _ & HB). destruct root; [|by simplify_eq].
    by eapply link_child_accounted.
  - by eapply link_child_accounted.
Qed.

Lemma for_loop_preserves {S} (P : S → Prop) body n i (s s' : S) :
  (∀ j x y, body j x = Some y → P x → P y) → for_loop n i body s = Some s' → P s → P s'.
Proof.
  intros Hstep. revert i s. induction n as [|n IH]; simpl; intros i s HL Hs; [by simplify_eq|].
  apply bind_Some in HL as (s1 & H1 & HL). eauto.
Qed.

Lemma BuildTree_accounted base t t' r :
  BuildTree t = Some (t', r) → accounted base t → accounted base t'.
Proof.
  unfold BuildTree. intros HB Hb. apply bind_Some in HB as (t1 & H1 & HB).
  apply bind_Some in HB as (t2 & H2 & HB). apply bind_Some in HB as (root & _ & HB).
  simplify_eq. eapply (for_loop_preserves (accounted base)); [|exact H2|].
  { intros. by eapply BuildTree_link_accounted. }
  eapply (for_loop_preserves (accounted base)); [|exact H1|done].
  intros. by eapply BuildTree_prune_accounted.
Qed.

(** The objects that [BuildTree] drops. *)
Definition dead_objects (m : gmap Z YAFFS2_OBJECT) : gmap Z YAFFS2_OBJECT :=
  filter (λ kv, ~ live kv.1 kv.2) m.

Lemma objs_cost_dead m : objs_cost m = objs_cost (live_objects m) + objs_cost (dead_objects m).
Proof.
  induction m as [|id o m Hm IH] using map_ind; [done|]. unfold live_objects, dead_objects in *.
  rewrite objs_cost_insert by done. destruct (decide (live id o)) as [L|L].
  - rewrite map_filter_insert_True, map_filter_insert_not' by
      (done || (intros ? X; by rewrite Hm in X) || (simpl; tauto)).
    rewrite objs_cost_insert; [lia|]. by rewrite map_lookup_filter, Hm.
  - rewrite map_filter_insert_not', map_filter_insert_True by
      (done || (intros ? X; by rewrite Hm in X) || (simpl; tauto)).
    rewrite objs_cost_insert; [lia|]. by rewrite map_lookup_filter, Hm.
Qed.

Lemma objs_cost_linked m n m' : (∀ id, m' !! id = linked m n id <$> m !! id) → objs_cost m' = objs_cost m.
Proof.
  generalize (linked m n) (λ id o, eq_refl : obj_cost (linked m n id o) = obj_cost o). intros f Hf.
  revert m'. induction m as [|id o m Hm IH] using map_ind; intros m' E.
  - replace m' with (∅ : gmap Z YAFFS2_OBJECT); [done|]. apply map_eq. intros id. by rewrite E, !lookup_empty.
  - assert (m' !! id = Some (f id o)) as Eid by (by rewrite E, lookup_insert_eq).
    rewrite (objs_cost_delete m' id _ Eid), objs_cost_insert, Hf by done. f_equal. apply IH.
    intros j. rewrite lookup_delete, E, lookup_insert. repeat case_decide; subst; try done. by rewrite Hm.
Qed.

(** The pool after [BuildTree]: every dropped object is freed once, and its chunk
    array once when it has one. *)
Lemma BuildTree_pool t t' r :
  BuildTree t = Some (t', r) → v_Slots t' = v_Slots t →
  objs_cost (v_Objects t') = objs_cost (live_objects (v_Objects t)) →
  pool_live (v_Pool t') = pool_live (v_Pool t) - objs_cost (dead_objects (v_Objects t)).
Proof.
  intros HB Hs Hc. pose proof (objs_cost_dead (v_Objects t)).
  assert (accounted (pool_live (v_Pool t) - table_cost t) t') as A
    by (eapply BuildTree_accounted; [exact HB|unfold accounted; lia]).
  unfold accounted, table_cost in A. rewrite Hs, Hc in A. lia.
Qed.

(** Every child is in the list of its parent exactly once. *)
Lemma tree_children_elem m n p j :
  j ∈ tree_children m n p ↔ 1 <= j <= n ∧ tree_parent m j = Some p.
Proof. unfold tree_children. rewrite list_elem_of_filter, elem_of_seqZ. naive_solver lia. Qed.

Lemma tree_children_NoDup m n p : NoDup (tree_children m n p).
Proof. apply list.NoDup_filter, NoDup_seqZ. Qed.

Lemma tree_parent_some m id o p :
  m !! id = Some o → tree_parent m id = Some p → is_Some (m !! p).
Proof.
  unfold tree_parent. intros -> Hp. simpl in Hp. case_decide; [done|].
  destruct (m !! o_ParentId o) eqn:E; [by injection Hp as <-|].
  destruct (m !! 1) eqn:E1; [by injection Hp as <-|done].
Qed.

(** C10: [BuildTree] yields a consistent tree of exactly the live objects (those
    with a header, neither deleted nor unlinked), headers and chunks unchanged:
    an object hangs below the object its header names, or below the root when
    that object is not live; it occurs exactly once in the child list of its
    parent, and every member of a child list has that object as its parent. The
    pool holds less by exactly one allocation for every dropped object and one
    more for each of them that has a chunk array. *)
Theorem BuildTree_correct t :
  table_wf t → unlinked (v_Objects t) →
  let m := live_objects (v_Objects t) in
  ∃ t', BuildTree t = Some (t', match m !! 1 with Some _ => Some 1 | None => None end)
    ∧ table_wf t'
    ∧ pool_live (v_Pool t') = pool_live (v_Pool t) - objs_cost (dead_objects (v_Objects t))
    ∧ (∀ id, is_Some (v_Objects t' !! id) ↔ is_Some (m !! id))
    ∧ ∀ id o, v_Objects t' !! id = Some o →
        (∃ o0, m !! id = Some o0 ∧ o = set_tree o0 (o_Parent o) (o_ChildHead o)
               ∧ o_Parent o = (if decide (id = 1) then None
                               else if decide (is_Some (m !! o_ParentId o0))
                               then Some (o_ParentId o0)
                               else if decide (is_Some (m !! 1)) then Some 1 else None))
        ∧ NoDup (o_ChildHead o)
        ∧ ∀ c, c ∈ o_ChildHead o ↔
               ∃ oc, v_Objects t' !! c = Some oc ∧ o_Parent oc = Some id.
Proof.
  intros Hwf Hun m. destruct (BuildTree_spec t Hwf Hun) as (t' & HB & Hwf' & Hmax & Hsl & Ho).
  assert (Hin : ∀ id o, m !! id = Some o → 1 <= id <= v_MaxObjId t).
  { intros id o Hm. unfold m, live_objects in Hm. apply map_lookup_filter_Some in Hm as [Hm _].
    by apply (twf_obj _ Hwf) in Hm as [? _]. }
  exists t'. split; [exact HB|]. split; [done|]. fold m in Ho.
  split; [apply (BuildTree_pool _ _ _ HB Hsl); by eapply objs_cost_linked|].
  split; [intros id; rewrite Ho; by apply fmap_is_Some|].
  intros id o Hid. rewrite Ho in Hid. destruct (m !! id) as [o0|] eqn:Em; [|done].
  simpl in Hid. injection Hid as <-. pose proof (Hin _ _ Em) as Hr. split_and!.
  - exists o0. split; [done|]. split; [done|]. simpl. rewrite decide_True by lia.
    unfold tree_parent. rewrite Em. simpl. case_decide; [done|].
    destruct (m !! o_ParentId o0); destruct (m !! 1); repeat case_decide;
      try done; exfalso; eauto using is_Some_None.
  - apply tree_children_NoDup.
  - intros c. simpl. rewrite tree_children_elem. split.
    + intros [Hc Hp]. assert (is_Some (m !! c)) as [oc Hoc].
      { unfold tree_parent in Hp. destruct (m !! c); [eauto|done]. }
      eexists. rewrite Ho, Hoc. split; [done|]. simpl. by rewrite decide_True by lia.
    + intros (oc & Hoc & Hp). rewrite Ho in Hoc.
      destruct (m !! c) as [oc0|] eqn:Ec; [|done]. simpl in Hoc. injection Hoc as <-.
      simpl in Hp. pose proof (Hin _ _ Ec). by rewrite decide_True in Hp by lia.
Qed.

(** A table with a root directory, a file in it, an orphan, and a file under the
    deleted-files directory. *)
Definition demo_object (id ty parent : Z) : YAFFS2_OBJECT :=
  mkObj id parent ty (replicate 256 0) 0 0 0 (replicate 160 0) 0 1 1 None [] 0 0 ∅.

Definition demo_table : TABLE :=
  obj_set (obj_set (obj_set (obj_set (mkTable ∅ (Some 301) 300 (mkPool [] 5))
    1 (demo_object 1 YAFFS2_TYPE_DIR 1)) 257 (demo_object 257 YAFFS2_TYPE_FILE 1))
    258 (demo_object 258 YAFFS2_TYPE_FILE 77)) 259 (demo_object 259 YAFFS2_TYPE_FILE 4).

Lemma demo_object_wf id ty parent : 0 <= parent → object_wf id (demo_object id ty parent).
Proof.
  intros Hp. split; simpl; try lia; [by exists (replicate 255 0)|].
  intros i c. by rewrite lookup_empty.
Qed.

Lemma demo_table_wf : table_wf demo_table.
Proof.
  repeat (apply table_wf_insert; [|simpl; lia|apply demo_object_wf; lia]).
  split; simpl; [by right|lia|]. intros id o. by rewrite lookup_empty.
Qed.

Lemma demo_table_unlinked : unlinked (v_Objects demo_table).
Proof.
  intros id o. unfold demo_table. simpl. rewrite !lookup_insert.
  repeat case_decide; try (by intros [= <-]).
Qed.

Lemma BuildTree_correct_witness :
  table_wf demo_table ∧ unlinked (v_Objects demo_table)
  ∧ ∃ t', BuildTree demo_table = Some (t', Some 1) ∧ table_wf t'
      ∧ pool_live (v_Pool t') = 4
      ∧ is_Some (v_Objects t' !! 258) ∧ ~ is_Some (v_Objects t' !! 259).
Proof.
  split; [exact demo_table_wf|]. split; [exact demo_table_unlinked|].
  destruct (BuildTree_correct demo_table demo_table_wf demo_table_unlinked)
    as (t' & E & Hwf & Hp & Hin & _).
  exists t'. split; [exact E|]. split; [exact Hwf|]. split; [exact Hp|].
  split; [apply Hin; vm_compute; eauto|].
  intros Hx. apply Hin in Hx. vm_compute in Hx. destruct Hx as [? Hx]. discriminate Hx.
Defined.
