(* ===== verification/Yaffs2Scan.v ===== *)
(** * The NAND scan

    Drivers/MtYaffs2Dxe/Scan.c: detection, the two ways a block is scanned
    (through its summary page, or page by page) and [Yaffs2ScanNand], over any
    NAND driver that satisfies the protocol's laws. The theorems say which
    pages of the flash image take part, that the two ways agree, and what the
    volume holds afterwards. *)

From S2P Require Import Prelude Efi Nand Yaffs2Obj Yaffs2Format Yaffs2Latest Yaffs2Tree.

Definition YAFFS2_SUMMARY_OBJ_ID : Z := 0x10.
Definition YAFFS2_SUMMARY_HEADER_SZ : Z := 16.
Definition YAFFS2_SUMMARY_ENTRY_SZ : Z := 12.
Definition YAFFS2_SUMMARY_VERSION : Z := 1.
Definition YAFFS2_MAX_PAGES_PER_BLK : Z := 64.

(** [struct _YAFFS2_VOLUME] over a NAND device state: [Nand], the object table,
    [Root] (an object id, [None] for NULL) and [PageBuffer]. *)
Record VOLUME (D : Type) := mkVol {
  vol_Nand : D;
  vol_Tab : TABLE;
  vol_Root : option Z;
  vol_PageBuffer : list Z
}.
Arguments mkVol {D}.
Arguments vol_Nand {D}.
Arguments vol_Tab {D}.
Arguments vol_Root {D}.
Arguments vol_PageBuffer {D}.

(** A scan in progress: the volume and the two statistics counters. *)
Record SCAN (D : Type) := mkScan {
  sc_Vol : VOLUME D;
  sc_PageCount : Z;
  sc_HeaderCount : Z
}.
Arguments mkScan {D}.
Arguments sc_Vol {D}.
Arguments sc_PageCount {D}.
Arguments sc_HeaderCount {D}.

Section Code.
Context {D : Type} `{NandFlash D}.

Definition vol_set_nand (v : VOLUME D) (d : D) : VOLUME D :=
  mkVol d (vol_Tab v) (vol_Root v) (vol_PageBuffer v).
Definition vol_set_page (v : VOLUME D) (d : D) (buf : list Z) : VOLUME D :=
  mkVol d (vol_Tab v) (vol_Root v) buf.
Definition vol_set_tab (v : VOLUME D) (t : TABLE) : VOLUME D :=
  mkVol (vol_Nand v) t (vol_Root v) (vol_PageBuffer v).

Definition sc_map (f : VOLUME D → VOLUME D) (s : SCAN D) : SCAN D :=
  mkScan (f (sc_Vol s)) (sc_PageCount s) (sc_HeaderCount s).
Definition count_page (s : SCAN D) : SCAN D :=
  mkScan (sc_Vol s) (sc_PageCount s +u32 1) (sc_HeaderCount s).
Definition count_header (s : SCAN D) : SCAN D :=
  mkScan (sc_Vol s) (sc_PageCount s) (sc_HeaderCount s +u32 1).

(** [ReadTags], then [EFI_ERROR (Status) || AreTagsErased (RawTags)]: the
    words, or nothing when that test holds. *)
Definition read_tags (Page : Z) (d : D) : option (option (list Z) * D) :=
  let '(Status, buf, d) := ReadTags Page d in
  if EFI_ERROR Status then Some (None, d)
  else
    RawTags ← tag_words buf;
    if AreTagsErased RawTags then Some (None, d) else Some (Some RawTags, d).

Definition seq_out_of_range (Seq : Z) : bool :=
  (Seq <? YAFFS2_SEQ_MIN) || (YAFFS2_SEQ_MAX <? Seq).

(** Pseudo-objects and summary chunks are skipped. *)
Definition skip_object (ObjId : Z) : bool :=
  (ObjId =? 0) || (ObjId =? YAFFS2_OBJECTID_UNLINKED) ||
  (ObjId =? YAFFS2_OBJECTID_DELETED) || (ObjId =? YAFFS2_SUMMARY_OBJ_ID).

(** A page buffer has been filled for a header page: process it. *)
Definition header_read (r : EFI_STATUS * list Z * D) (Tags : YAFFS2_TAGS) (Page : Z)
    (s : SCAN D) : option (SCAN D) :=
  let '(Status, buf, d) := r in
  let s := sc_map (λ v, vol_set_page v d buf) s in
  if EFI_ERROR Status then Some s
  else
    let s := count_header s in
    let v := sc_Vol s in
    t ← ProcessHeader (vol_Tab v) (vol_PageBuffer v) Tags Page;
    Some (sc_map (λ v, vol_set_tab v t) s).

Definition data_page (Tags : YAFFS2_TAGS) (Page : Z) (s : SCAN D) : option (SCAN D) :=
  t ← ProcessDataChunk (vol_Tab (sc_Vol s)) Tags Page;
  Some (sc_map (λ v, vol_set_tab v t) s).

(** ** Page by page *)

Definition scan_page (BasePage PageInBlock : Z) (s : SCAN D) : option (SCAN D * bool) :=
  let Page := BasePage +u32 PageInBlock in
  '(RawTags, d) ← read_tags Page (vol_Nand (sc_Vol s));
  let s := sc_map (λ v, vol_set_nand v d) s in
  match RawTags with
  | None => Some (s, false)
  | Some RawTags =>
      Tags ← ParseTagWords RawTags;
      if seq_out_of_range (t_SeqNumber Tags) then Some (s, true)
      else if skip_object (t_ObjId Tags) then Some (s, true)
      else
        let s := count_page s in
        s ← (if t_IsHeader Tags
             then header_read (ReadPageBody (vol_Nand (sc_Vol s))) Tags Page s
             else data_page Tags Page s);
        Some (s, true)
  end.

Definition ScanBlockPageByPage (Block : Z) (s : SCAN D) : option (SCAN D) :=
  let BasePage := Block *u32 PagesPerBlock in
  for_break (Z.to_nat PagesPerBlock) 0 (scan_page BasePage) s.

(** ** Through the summary *)

Definition SummaryChecksum (EntryData : list Z) (EntryBytes : Z) : option Z :=
  for_loop (Z.to_nat EntryBytes) 0
    (λ i Sum, b ← rd EntryData i; Some (Sum +u32 b)) 0.

(** The three words of a summary entry. *)
Definition entry_at (PageBuf : list Z) (i : Z) : option (Z * Z * Z) :=
  let Ep := YAFFS2_SUMMARY_HEADER_SZ + i * YAFFS2_SUMMARY_ENTRY_SZ in
  EntryObjId ← le32 PageBuf (Ep + 0);
  EntryChunkId ← le32 PageBuf (Ep + 4);
  EntryNBytes ← le32 PageBuf (Ep + 8);
  Some (EntryObjId, EntryChunkId, EntryNBytes).

Definition entry_is (w : Z) (e : Z * Z * Z) : bool :=
  let '(a, b, c) := e in (a =? w) && (b =? w) && (c =? w).

(** The checks on the page body; the block's sequence number when it is a
    valid summary. *)
Definition CheckSummary (PageBuf : list Z) : option (option Z) :=
  Version ← le32 PageBuf 0;
  BlockSeq ← le32 PageBuf 8;
  StoredSum ← le32 PageBuf 12;
  if negb (Version =? YAFFS2_SUMMARY_VERSION) then Some None
  else if seq_out_of_range BlockSeq then Some None
  else
    let NumEntries := PagesPerBlock -u32 1 in
    let SummaryBytes := NumEntries *u32 YAFFS2_SUMMARY_ENTRY_SZ in
    if YAFFS2_DATA_PER_PAGE <? YAFFS2_SUMMARY_HEADER_SZ +u32 SummaryBytes then Some None
    else
      Sum ← SummaryChecksum (drop (Z.to_nat YAFFS2_SUMMARY_HEADER_SZ) PageBuf) SummaryBytes;
      if negb (Sum =? StoredSum) then Some None
      else
        First ← entry_at PageBuf 0;
        if entry_is 0 First then Some None else Some (Some BlockSeq).

(** [EntryStore] holds [YAFFS2_MAX_PAGES_PER_BLK] entries of three words:
    storing one more is a fault. *)
Definition copy_entry (PageBuf : list Z) (i : Z) (EntryStore : list (Z * Z * Z))
    : option (list (Z * Z * Z) * bool) :=
  e ← entry_at PageBuf i;
  if entry_is 0xFFFFFFFF e then Some (EntryStore, false)
  else if len EntryStore <? YAFFS2_MAX_PAGES_PER_BLK
  then Some (EntryStore ++ [e], true) else None.

Definition CopyEntries (PageBuf : list Z) : option (list (Z * Z * Z)) :=
  for_break (Z.to_nat (PagesPerBlock -u32 1)) 0 (copy_entry PageBuf) [].

Definition scan_entry (BasePage BlockSeq : Z) (EntryStore : list (Z * Z * Z))
    (i : Z) (s : SCAN D) : option (SCAN D) :=
  '(EntryObjId, EntryChunkId, EntryNBytes) ← rd EntryStore i;
  let Tags := UnpackTags BlockSeq EntryObjId EntryChunkId EntryNBytes in
  if skip_object (t_ObjId Tags) then Some s
  else
    let s := count_page s in
    let Page := BasePage +u32 i in
    if t_IsHeader Tags
    then header_read (ReadPage Page (vol_Nand (sc_Vol s))) Tags Page s
    else data_page Tags Page s.

Definition ScanBlockViaSummary (Block : Z) (s : SCAN D) : option (bool * SCAN D) :=
  let BasePage := Block *u32 PagesPerBlock in
  let SummaryPage := BasePage +u32 (PagesPerBlock -u32 1) in
  '(RawTags, d) ← read_tags SummaryPage (vol_Nand (sc_Vol s));
  let s := sc_map (λ v, vol_set_nand v d) s in
  match RawTags with
  | None => Some (false, s)
  | Some RawTags =>
      w1 ← rd RawTags 1;
      w2 ← rd RawTags 2;
      if negb (w1 =? YAFFS2_SUMMARY_OBJ_ID) then Some (false, s)
      else if negb (Z.land w2 0x80000000 =? 0) then Some (false, s)
      else if negb (w2 =? 1) then Some (false, s)
      else
        let '(Status, PageBuf, d) := ReadPageBody (vol_Nand (sc_Vol s)) in
        let s := sc_map (λ v, vol_set_page v d PageBuf) s in
        if EFI_ERROR Status then Some (false, s)
        else
          BlockSeq ← CheckSummary PageBuf;
          match BlockSeq with
          | None => Some (false, s)
          | Some BlockSeq =>
              EntryStore ← CopyEntries PageBuf;
              s ← for_loop (length EntryStore) 0
                    (scan_entry BasePage BlockSeq EntryStore) s;
              Some (true, s)
          end
  end.

(** ** The whole flash *)

Definition scan_block (Block : Z) (s : SCAN D) : option (SCAN D) :=
  let BasePage := Block *u32 PagesPerBlock in
  '(RawTags, d) ← read_tags BasePage (vol_Nand (sc_Vol s));
  let s := sc_map (λ v, vol_set_nand v d) s in
  match RawTags with
  | None => Some s
  | Some _ =>
      '(done, s) ← ScanBlockViaSummary Block s;
      if done : bool then Some s else ScanBlockPageByPage Block s
  end.

Definition Yaffs2ScanNand (v : VOLUME D) : option (EFI_STATUS * VOLUME D) :=
  s ← for_loop (Z.to_nat NumBlocks) 0 scan_block (mkScan v 0 0);
  let v := sc_Vol s in
  '(t, Root) ← BuildTree (vol_Tab v);
  let v := mkVol (vol_Nand v) t Root (vol_PageBuffer v) in
  match Root with
  | None => Some (EFI_VOLUME_CORRUPTED, v)
  | Some r =>
      o ← v_Objects t !! r;
      if negb (o_Type o =? YAFFS2_TYPE_DIR)
      then Some (EFI_VOLUME_CORRUPTED, v) else Some (EFI_SUCCESS, v)
  end.

(** ** Detection *)

(** The object type of a header page is one YAFFS2 knows. *)
Definition probe_header (Page : Z) (FoundHeader : bool) (d : D) (PageBuffer : list Z)
    : option (bool * D * list Z) :=
  let '(Status, buf, d) := ReadPage Page d in
  if EFI_ERROR Status then Some (FoundHeader, d, buf)
  else
    ObjType ← le32 buf 0;
    Some (FoundHeader || zbetween YAFFS2_TYPE_FILE ObjType YAFFS2_TYPE_SPECIAL, d, buf).

(** The loop over the rest of a block: (SeqOk, FoundHeader), the device and
    the page buffer. *)
Definition detect_page (BasePage FirstSeq PageInBlock : Z)
    (s : bool * bool * D * list Z) : option ((bool * bool * D * list Z) * bool) :=
  let '(SeqOk, FoundHeader, d, PageBuffer) := s in
  '(RawTags, d) ← read_tags (BasePage +u32 PageInBlock) d;
  match RawTags with
  | None => Some ((SeqOk, FoundHeader, d, PageBuffer), false)
  | Some RawTags =>
      Tags ← ParseTagWords RawTags;
      if negb (t_SeqNumber Tags =? FirstSeq)
      then Some ((false, FoundHeader, d, PageBuffer), false)
      else if negb FoundHeader && t_IsHeader Tags
      then
        '(FoundHeader, d, PageBuffer) ←
          probe_header (BasePage +u32 PageInBlock) FoundHeader d PageBuffer;
        Some ((SeqOk, FoundHeader, d, PageBuffer), true)
      else Some ((SeqOk, FoundHeader, d, PageBuffer), true)
  end.

(** One block: the boolean is whether the function returns EFI_SUCCESS. *)
Definition detect_block (Block : Z) (s : bool * D * list Z)
    : option ((bool * D * list Z) * bool) :=
  let '(_, d, PageBuffer) := s in
  let BasePage := Block *u32 PagesPerBlock in
  '(RawTags, d) ← read_tags BasePage d;
  match RawTags with
  | None => Some ((false, d, PageBuffer), true)
  | Some RawTags =>
      Tags ← ParseTagWords RawTags;
      if seq_out_of_range (t_SeqNumber Tags) then Some ((false, d, PageBuffer), true)
      else
        '(FoundHeader, d, PageBuffer) ←
          (if t_IsHeader Tags then probe_header BasePage false d PageBuffer
           else Some (false, d, PageBuffer));
        '(SeqOk, FoundHeader, d, PageBuffer) ←
          for_break (Z.to_nat (PagesPerBlock - 1)) 1
            (detect_page BasePage (t_SeqNumber Tags)) (true, FoundHeader, d, PageBuffer);
        if (SeqOk : bool) && FoundHeader
        then Some ((true, d, PageBuffer), false)
        else Some ((false, d, PageBuffer), true)
  end.

Definition Yaffs2DetectFilesystem (d : D) (PageBuffer : list Z)
    : option (EFI_STATUS * D * list Z) :=
  '(found, d, PageBuffer) ←
    for_break (Z.to_nat (Z.min 10 NumBlocks)) 0 detect_block (false, d, PageBuffer);
  Some (if found : bool then EFI_SUCCESS else EFI_UNSUPPORTED, d, PageBuffer).
End Code.

#[global] Arguments header_read : simpl never.
#[global] Arguments data_page : simpl never.

(** ** What a flash image contains

    The pages that take part in a scan, as the events of Yaffs2Latest. *)

Section Image.
Context {D : Type} `{NandFlash D} (img : Z → list Z).

(** The tag words of a page that is not erased. *)
Definition raw_tags (page : Z) : option (list Z) :=
  Raw ← tag_words (drop (Z.to_nat (PageSize - 16)) (img page));
  if AreTagsErased Raw then None else Some Raw.

Definition tags_of (page : Z) : option YAFFS2_TAGS :=
  Raw ← raw_tags page; ParseTagWords Raw.

Definition tag_event (g : YAFFS2_TAGS) (page : Z) : list event :=
  if skip_object (t_ObjId g) then []
  else if t_IsHeader g then [EvHeader g page (img page)]
  else if t_ChunkId g =? 0 then [] else [EvData g page].

Definition page_events (page : Z) : list event :=
  match tags_of page with
  | Some g => if seq_out_of_range (t_SeqNumber g) then [] else tag_event g page
  | None => []
  end.

(** The pages of a block are written in order: the first erased page ends it. *)
Fixpoint block_events_from (n : nat) (page : Z) : list event :=
  match n with
  | O => []
  | S n' => match tags_of page with
            | Some _ => page_events page ++ block_events_from n' (page + 1)
            | None => []
            end
  end.

Definition block_base (Block : Z) : Z := Block * PagesPerBlock.
Definition block_events (Block : Z) : list event :=
  block_events_from (Z.to_nat PagesPerBlock) (block_base Block).

(** The entries of a summary, up to the first unused one. *)
Fixpoint entries_from (PageBuf : list Z) (n : nat) (i : Z) : list (Z * Z * Z) :=
  match n with
  | O => []
  | S n' => match entry_at PageBuf i with
            | Some e => if entry_is 0xFFFFFFFF e then []
                        else e :: entries_from PageBuf n' (i + 1)
            | None => []
            end
  end.

Definition summary_page (Block : Z) : Z := block_base Block + PagesPerBlock - 1.
Definition summary_entries (Block : Z) : list (Z * Z * Z) :=
  entries_from (img (summary_page Block)) (Z.to_nat (PagesPerBlock - 1)) 0.

(** The sequence number of a block with a valid summary. *)
Definition summary_seq (Block : Z) : option Z :=
  Raw ← raw_tags (summary_page Block);
  w1 ← rd Raw 1; w2 ← rd Raw 2;
  if (w1 =? YAFFS2_SUMMARY_OBJ_ID) && (w2 =? 1)
  then seq ← CheckSummary (img (summary_page Block)); seq else None.

Definition entry_tags (seq : Z) (e : Z * Z * Z) : YAFFS2_TAGS :=
  let '(a, b, c) := e in UnpackTags seq a b c.

Fixpoint entry_events (seq : Z) (es : list (Z * Z * Z)) (page : Z) : list event :=
  match es with
  | [] => []
  | e :: es' => tag_event (entry_tags seq e) page ++ entry_events seq es' (page + 1)
  end.

Definition summary_events (Block : Z) (seq : Z) : list event :=
  entry_events seq (summary_entries Block) (block_base Block).

(** What the scan of one block is to process. *)
Definition scan_block_events (Block : Z) : list event :=
  match tags_of (block_base Block) with
  | None => []
  | Some _ => match summary_seq Block with
              | Some seq => summary_events Block seq
              | None => block_events Block
              end
  end.

Definition volume_events : list event :=
  concat (map scan_block_events (seqZ 0 NumBlocks)).

(** The object ids of the flash are ids the object table can grow to. *)
Record ids_fit : Prop := {
  fit_tags Block i g : 0 <= Block < NumBlocks → 0 <= i < PagesPerBlock →
    tags_of (block_base Block + i) = Some g → t_ObjId g < 2 ^ 32 - 65;
  fit_summary Block seq e : 0 <= Block < NumBlocks → summary_seq Block = Some seq →
    e ∈ summary_entries Block → t_ObjId (entry_tags seq e) < 2 ^ 32 - 65
}.
End Image.

Lemma Forall_sublist_of {A} (P : A → Prop) (l1 l2 : list A) :
  l1 `sublist_of` l2 → Forall P l2 → Forall P l1.
Proof.
  intros Hs. rewrite !list.Forall_forall. eauto using elem_of_sublist.
Qed.

(** ** Loops that break *)

Lemma for_break_step {S} n i (body : Z → S → option (S * bool)) s s' go :
  body i s = Some (s', go) →
  for_break (Datatypes.S n) i body s = if go then for_break n (i + 1) body s' else Some s'.
Proof. intros E. simpl. by rewrite E. Qed.

Lemma CheckSummary_range {D} `{NandFlash D} buf seq :
  CheckSummary buf = Some (Some seq) → seq_out_of_range seq = false.
Proof.
  unfold CheckSummary. intros Hc.
  apply bind_Some in Hc as (v & _ & Hc). apply bind_Some in Hc as (q & _ & Hc).
  apply bind_Some in Hc as (c & _ & Hc).
  destruct (negb _); [done|]. destruct (seq_out_of_range q) eqn:Eq; [done|].
  destruct (_ <? _); [done|]. apply bind_Some in Hc as (sm & _ & Hc).
  destruct (negb _); [done|]. apply bind_Some in Hc as (e & _ & Hc).
  destruct (entry_is 0 e); [done|]. by injection Hc as ->.
Qed.

Lemma summary_seq_range {D} `{NandFlash D} img Block seq :
  summary_seq img Block = Some seq → seq_out_of_range seq = false.
Proof.
  unfold summary_seq. intros Hs. inv_ret. case_match; [|done]. inv_ret. subst.
  by eapply CheckSummary_range.
Qed.

Section ImageLemmas.
Context {D : Type} `{NandFlash D} (img : Z → list Z).
Hypothesis Hgeo : geometry_ok D.
Hypothesis img_length : ∀ p, length (img p) = Z.to_nat PageSize.
Hypothesis img_bytes : ∀ p, Forall byte_ok (img p).

Lemma raw_tags_words p Raw :
  raw_tags img p = Some Raw →
  ∃ w0 w1 w2 w3, Raw = [w0; w1; w2; w3] ∧ Forall (λ w, 0 <= w < 2 ^ 32) Raw.
Proof.
  unfold raw_tags. intros Hr. inv_ret. case_match; [done|]. inv_ret.
  pose proof (geo_page D Hgeo).
  destruct (tag_words_is_Some (drop (Z.to_nat (PageSize - 16)) (img p)))
    as (w0 & w1 & w2 & w3 & E).
  { rewrite length_drop, img_length. lia. }
  rewrite E in *. simplify_eq. exists w0, w1, w2, w3. split; [done|].
  eapply tag_words_range; [|exact E]. by apply Forall_drop.
Qed.

Lemma tags_of_raw p : is_Some (tags_of img p) ↔ is_Some (raw_tags img p).
Proof.
  unfold tags_of. destruct (raw_tags img p) as [Raw|] eqn:E; simpl; [|done].
  destruct (raw_tags_words _ _ E) as (? & ? & ? & ? & -> & _). simpl.
  split; eauto.
Qed.
End ImageLemmas.

(** Tags read from 32-bit words are in range. *)
Lemma land_mask_range w : 0 <= w → 0 <= Z.land w 0x0FFFFFFF < 2 ^ 28.
Proof.
  intros. change 0x0FFFFFFF with (Z.ones 28). rewrite Z.land_ones by lia.
  apply Z.mod_pos_bound. lia.
Qed.

Lemma header_bit_clear w : 0 <= w < 2 ^ 32 → Z.land w 0x80000000 = 0 → w < 2 ^ 31.
Proof.
  intros Hw Hl. destruct (decide (w < 2 ^ 31)) as [|Hge]; [done|exfalso].
  assert (Hb : Z.testbit (Z.land w 0x80000000) 31 = true).
  { rewrite Z.land_spec. change (Z.testbit 0x80000000 31) with true.
    rewrite andb_true_r, Z.testbit_true by lia.
    replace (w / 2 ^ 31) with 1; [done|].
    apply Z.div_unique with (w - 2 ^ 31); lia. }
  by rewrite Hl in Hb.
Qed.

Lemma UnpackTags_range seq a b c :
  0 <= a < 2 ^ 32 → 0 <= b < 2 ^ 32 →
  let g := UnpackTags seq a b c in
  0 <= t_ObjId g ∧ 0 <= t_ChunkId g < 2 ^ 31 ∧ t_SeqNumber g = seq ∧ t_NBytes g = c.
Proof.
  intros Ha Hb. unfold UnpackTags. case_b; simpl; b2p.
  - pose proof (land_mask_range a). lia.
  - pose proof (header_bit_clear b Hb E). lia.
Qed.

Lemma skip_object_false id : 0 <= id → skip_object id = false → 1 <= id.
Proof. unfold skip_object. intros ? H. b2p. lia. Qed.

(** ** The code processes the events of the image *)

Section Run.
Context {D : Type} `{NandLaws D} (img : Z → list Z).
Hypothesis Hgeo : geometry_ok D.
Hypothesis img_length : ∀ p, length (img p) = Z.to_nat PageSize.
Hypothesis img_bytes : ∀ p, Forall byte_ok (img p).
Hypothesis Hids : ids_fit img.

Definition shows (d : D) : Prop := ∀ q, image d q = img q.
Definition page_ok (p : Z) : Prop := 0 <= p < NumBlocks * PagesPerBlock.

Record ready (s : SCAN D) : Prop := {
  rdy_shows : shows (vol_Nand (sc_Vol s));
  rdy_table : table_wf (vol_Tab (sc_Vol s))
}.

(** From [s] to [s'] the table has processed a part of the events [full], all
    of them if no read fails. *)
Definition outcome (s s' : SCAN D) (full : list event) : Prop :=
  ready s' ∧ ∃ evs,
    process_events (vol_Tab (sc_Vol s)) evs = Some (vol_Tab (sc_Vol s'))
    ∧ evs `sublist_of` full ∧ (nand_reliable D → evs = full).

Lemma outcome_trans s1 s2 s3 f1 f2 :
  outcome s1 s2 f1 → outcome s2 s3 f2 → outcome s1 s3 (f1 ++ f2).
Proof.
  intros (_ & e1 & P1 & S1 & R1) (Hr & e2 & P2 & S2 & R2).
  split; [done|]. exists (e1 ++ e2). split_and!.
  - rewrite process_events_app, P1. simpl. done.
  - by apply sublist_app.
  - intros Hrel. by rewrite R1, R2.
Qed.

Lemma outcome_stay s s' full :
  ready s' → vol_Tab (sc_Vol s') = vol_Tab (sc_Vol s) →
  (nand_reliable D → full = []) → outcome s s' full.
Proof.
  intros Hr Ht Hf. split; [done|]. exists []. rewrite <- Ht.
  split_and!; [done|apply sublist_nil_l|]. intros Hrel. by rewrite Hf.
Qed.

Lemma outcome_move s s1 s' full :
  vol_Tab (sc_Vol s1) = vol_Tab (sc_Vol s) → outcome s1 s' full → outcome s s' full.
Proof. intros Ht. unfold outcome. by rewrite Ht. Qed.

(** Reading tags. *)
Lemma read_tags_spec p d :
  shows d →
  ∃ r d', read_tags p d = Some (r, d') ∧ shows d'
    ∧ (∀ Raw, r = Some Raw → raw_tags img p = Some Raw ∧ latched d' = Some p)
    ∧ (nand_reliable D → page_ok p → r = raw_tags img p).
Proof.
  intros Hs. unfold read_tags. destruct (ReadTags p d) as [[st buf] d'] eqn:E.
  destruct (ReadTags_spec p d st buf d' E) as (Himg & Hlen & Hok).
  assert (Hs' : shows d') by (intros q; rewrite Himg; apply Hs).
  destruct (EFI_ERROR st) eqn:Est.
  { exists None, d'. split_and!; try done. intros Hrel Hp.
    pose proof (rel_tags D Hrel p d Hp) as Hx. rewrite E in Hx. simpl in Hx. congruence. }
  destruct (Hok eq_refl) as [Hbuf Hlatch]. rewrite Hs in Hbuf.
  unfold raw_tags. rewrite <- Hbuf.
  destruct (tag_words_is_Some buf Hlen) as (w0 & w1 & w2 & w3 & Ew). rewrite Ew. simpl.
  destruct (_ && _) eqn:Ee.
  - exists None, d'. by split_and!.
  - eexists _, d'. split_and!; try done. intros Raw [= <-]. split; [done|].
    apply Hlatch. intros ->. rewrite all_ff_tags in Ew. injection Ew as <- <- <- <-. done.
Qed.

(** An event of a page of the flash. *)
Definition event_sound (e : event) : Prop :=
  event_ok e ∧ page_ok (event_page e) ∧ 0 <= t_NBytes (event_tags e).

Lemma sound_ok evs : Forall event_sound evs → Forall event_ok evs.
Proof. apply Forall_impl. by intros e [? _]. Qed.

Lemma event_sound_tag g p :
  0 < t_SeqNumber g → 0 <= t_ObjId g < 2 ^ 32 - 65 → 0 <= t_ChunkId g < 2 ^ 31 → 0 <= t_NBytes g →
  page_ok p → Forall event_sound (tag_event img g p).
Proof.
  intros Hq Hid Hc Hn Hp. unfold tag_event.
  pose proof (geo_total D Hgeo). pose proof (geo_page D Hgeo).
  destruct (skip_object (t_ObjId g)) eqn:Es; [done|].
  apply skip_object_false in Es; [|lia].
  assert (Hg : tags_ok g) by (unfold tags_ok, id_ok; lia).
  assert (Hpage : 0 <= p < YAFFS2_CHUNK_UNSET)
    by (unfold page_ok, YAFFS2_CHUNK_UNSET in *; lia).
  repeat case_b; b2p; [|done|];
    (apply Forall_singleton; split; [|by split]; split; [exact Hg|]; split; [exact Hpage|]).
  - split; [rewrite img_length; lia|apply img_bytes].
  - simpl. lia.
Qed.

(** A header page read into the page buffer, and a data page. *)
Lemma header_read_spec st buf d' g p s :
  ready s → shows d' → (EFI_ERROR st = false → buf = img p) →
  (nand_reliable D → EFI_ERROR st = false) →
  event_ok (EvHeader g p (img p)) →
  ∃ s', header_read (st, buf, d') g p s = Some s' ∧ outcome s s' [EvHeader g p (img p)].
Proof.
  intros [Hs Ht] Hs' Hbuf Hrel He. unfold header_read. destruct (EFI_ERROR st) eqn:Est.
  - eexists. split; [done|]. apply outcome_stay; [by split|done|].
    intros Hr. discriminate (Hrel Hr).
  - simpl. rewrite (Hbuf eq_refl).
    destruct (process_event_safe _ _ Ht He) as (t' & HP & Hwf'). simpl in HP. rewrite HP.
    simpl. eexists. split; [done|]. split; [by split|].
    exists [EvHeader g p (img p)]. simpl. rewrite HP. by split_and!.
Qed.

Lemma data_page_spec g p s :
  ready s → (t_ChunkId g ≠ 0 → event_ok (EvData g p)) →
  ∃ s', data_page g p s = Some s' ∧
        outcome s s' (if t_ChunkId g =? 0 then [] else [EvData g p]).
Proof.
  intros [Hs Ht] He. unfold data_page. destruct (Z.eqb_spec (t_ChunkId g) 0) as [E0|Hne].
  - unfold ProcessDataChunk. rewrite E0. simpl. eexists. split; [done|].
    by apply outcome_stay.
  - destruct (process_event_safe _ _ Ht (He Hne)) as (t' & HP & Hwf'). simpl in HP.
    rewrite HP. simpl. eexists. split; [done|]. split; [by split|].
    exists [EvData g p]. simpl. rewrite HP. by split_and!.
Qed.

(** Whatever the read that fills the page buffer, the page is processed. *)
Lemma live_page_spec g p s (rd_page : EFI_STATUS * list Z * D) :
  ready s → Forall event_ok (tag_event img g p) → skip_object (t_ObjId g) = false →
  shows rd_page.2 → (EFI_ERROR rd_page.1.1 = false → rd_page.1.2 = img p) →
  (nand_reliable D → EFI_ERROR rd_page.1.1 = false) →
  ∃ s', (if t_IsHeader g then header_read rd_page g p s else data_page g p s) = Some s'
        ∧ outcome s s' (tag_event img g p).
Proof.
  intros Hr Hok Hsk Hs Hbuf Hrel. destruct rd_page as [[st buf] d']. simpl in *.
  unfold tag_event in *. rewrite Hsk in *. destruct (t_IsHeader g).
  - apply header_read_spec; auto. by apply Forall_singleton.
  - apply data_page_spec; [done|]. intros Hne.
    rewrite (proj2 (Z.eqb_neq _ _) Hne) in Hok. by apply Forall_singleton.
Qed.

(** Pages of one block. *)
Definition in_block (Block i : Z) : Prop :=
  0 <= Block < NumBlocks ∧ 0 <= i < PagesPerBlock.

Lemma in_block_page Block i : in_block Block i → page_ok (block_base Block + i).
Proof.
  unfold in_block, page_ok, block_base. pose proof (geo_block D Hgeo). nia.
Qed.

Lemma block_base_u32 Block i :
  in_block Block i → Block *u32 PagesPerBlock = block_base Block
                     ∧ block_base Block +u32 i = block_base Block + i.
Proof.
  intros Hb. pose proof (in_block_page _ _ Hb) as Hp. pose proof (geo_total D Hgeo).
  destruct Hb as [? ?]. unfold block_base, page_ok in *. pose proof (geo_block D Hgeo).
  rewrite !u32_small; [done|nia..].
Qed.

Lemma page_events_sound Block i :
  in_block Block i → Forall event_sound (page_events img (block_base Block + i)).
Proof.
  intros Hb. unfold page_events.
  destruct (tags_of img (block_base Block + i)) as [g|] eqn:Eg; [|done].
  destruct (seq_out_of_range (t_SeqNumber g)) eqn:Eq; [done|].
  assert (Hlt := fit_tags img Hids Block i g (proj1 Hb) (proj2 Hb) Eg).
  unfold tags_of in Eg. apply bind_Some in Eg as (Raw & Er & Eg).
  destruct (raw_tags_words img Hgeo img_length img_bytes _ _ Er)
    as (w0 & w1 & w2 & w3 & -> & Hw).
  simpl in Eg. injection Eg as <-.
  rewrite !List.Forall_cons_iff in Hw. destruct Hw as (? & H1 & H2 & H3 & _).
  destruct (UnpackTags_range w0 w1 w2 w3 H1 H2) as (? & ? & ? & Hn).
  unfold seq_out_of_range, YAFFS2_SEQ_MIN in Eq. b2p.
  apply event_sound_tag; [lia|lia|lia|lia|by apply in_block_page].
Qed.

Lemma scan_page_spec Block i s :
  in_block Block i → ready s →
  ∃ s' go, scan_page (block_base Block) i s = Some (s', go) ∧
    if go then outcome s s' (page_events img (block_base Block + i))
               ∧ is_Some (tags_of img (block_base Block + i))
    else outcome s s' [] ∧ (nand_reliable D → tags_of img (block_base Block + i) = None).
Proof.
  intros Hb Hr. pose proof Hr as [Hs Ht]. unfold scan_page.
  destruct (block_base_u32 Block i Hb) as [_ ->]. set (p := block_base Block + i).
  destruct (read_tags_spec p _ Hs) as (r & d' & -> & Hs' & Hsome & Hrel). simpl.
  destruct r as [Raw|].
  2:{ eexists _, false. split; [done|]. split; [by apply outcome_stay|].
      intros Hx. unfold tags_of. rewrite <- Hrel; [done..|by apply in_block_page]. }
  destruct (Hsome Raw eq_refl) as [Er Hl]. clear Hsome Hrel.
  assert (Et : tags_of img p = ParseTagWords Raw) by (unfold tags_of; by rewrite Er).
  destruct (raw_tags_words img Hgeo img_length img_bytes _ _ Er)
    as (w0 & w1 & w2 & w3 & -> & _).
  simpl in Et |- *. set (g := UnpackTags w0 w1 w2 w3) in *.
  pose proof (sound_ok _ (page_events_sound Block i Hb)) as Hok. fold p in Hok.
  unfold page_events in *. rewrite Et in *.
  destruct (seq_out_of_range (t_SeqNumber g)).
  { eexists _, true. split; [done|]. split; [by apply outcome_stay|eauto]. }
  destruct (skip_object (t_ObjId g)) eqn:Ek.
  { eexists _, true. split; [done|]. split; [|eauto]. apply outcome_stay; [done..|].
    unfold tag_event. by rewrite Ek. }
  set (s1 := count_page _).
  assert (Hr1 : ready s1) by by split.
  destruct (ReadPageBody d') as [[st buf] d2] eqn:Eb.
  destruct (ReadPageBody_spec _ _ _ _ Eb) as (Himg & _ & Hbuf).
  destruct (live_page_spec g p s1 (st, buf, d2)) as (s' & E & Ho); simpl; try done.
  - intros q. rewrite Himg. apply Hs'.
  - intros He. rewrite (Hbuf He p Hl). apply Hs'.
  - intros Hx. pose proof (rel_body D Hx p d' Hl) as Hy. by rewrite Eb in Hy.
  - rewrite E. simpl.
    eexists _, true. split; [done|]. split; [|eauto].
    by apply (outcome_move s s1).
Qed.

Lemma pages_spec Block n i s :
  0 <= Block < NumBlocks → 0 <= i → i + Z.of_nat n <= PagesPerBlock → ready s →
  ∃ s', for_break n i (scan_page (block_base Block)) s = Some s'
        ∧ outcome s s' (block_events_from img n (block_base Block + i)).
Proof.
  intros Hb. revert i s. induction n as [|n IH]; intros i s Hi Hn Hr.
  { exists s. split; [done|]. by apply outcome_stay. }
  destruct (scan_page_spec Block i s) as (s1 & go & E & Hgo); [split; lia|done|].
  rewrite (for_break_step _ _ _ _ _ _ E). cbn [block_events_from]. destruct go.
  - destruct Hgo as [Ho [g ->]]. pose proof Ho as [Hr1 _].
    destruct (IH (i + 1) s1) as (s' & -> & Ho'); [lia..|done|].
    exists s'. split; [done|]. rewrite Z.add_assoc in Ho'. by eapply outcome_trans.
  - destruct Hgo as [(Hr1 & evs & HP & Hsub & _) Hnone].
    apply sublist_nil_r in Hsub as ->. simpl in HP. injection HP as HP.
    exists s1. split; [done|]. apply outcome_stay; [done..|]. intros Hx. by rewrite Hnone.
Qed.

Lemma ScanBlockPageByPage_spec Block s :
  0 <= Block < NumBlocks → ready s →
  ∃ s', ScanBlockPageByPage Block s = Some s' ∧ outcome s s' (block_events img Block).
Proof.
  intros Hb Hr. unfold ScanBlockPageByPage. pose proof (geo_block D Hgeo).
  destruct (block_base_u32 Block 0) as [-> _]; [split; lia|].
  destruct (pages_spec Block (Z.to_nat PagesPerBlock) 0 s) as (s' & -> & Ho); [lia..|done|].
  exists s'. split; [done|]. by rewrite Z.add_0_r in Ho.
Qed.

(** The summary. *)
Lemma entry_at_is_Some buf i :
  length buf = Z.to_nat PageSize → 0 <= i < 168 → ∃ e, entry_at buf i = Some e.
Proof.
  intros Hl Hi. pose proof (geo_page D Hgeo). unfold entry_at.
  unfold YAFFS2_SUMMARY_HEADER_SZ, YAFFS2_SUMMARY_ENTRY_SZ.
  destruct (le32_is_Some buf (16 + i * 12 + 0)) as [? ->]; [lia..|].
  destruct (le32_is_Some buf (16 + i * 12 + 4)) as [? ->]; [lia..|].
  destruct (le32_is_Some buf (16 + i * 12 + 8)) as [? ->]; [lia..|]. simpl. eauto.
Qed.

Lemma CopyEntries_from buf n i acc :
  length buf = Z.to_nat PageSize → 0 <= i → i + Z.of_nat n <= 64 → len acc <= i →
  for_break n i (copy_entry buf) acc = Some (acc ++ entries_from buf n i).
Proof.
  intros Hl. revert i acc. induction n as [|n IH]; intros i acc Hi Hn Ha.
  { simpl. by rewrite app_nil_r. }
  destruct (entry_at_is_Some buf i Hl) as [e He]; [lia|].
  assert (Hce : copy_entry buf i acc =
    if entry_is 0xFFFFFFFF e then Some (acc, false) else Some (acc ++ [e], true)).
  { unfold copy_entry, YAFFS2_MAX_PAGES_PER_BLK. rewrite He. simpl.
    by rewrite (proj2 (Z.ltb_lt (len acc) 64)) by lia. }
  cbn [entries_from]. rewrite He. destruct (entry_is 0xFFFFFFFF e).
  - rewrite (for_break_step _ _ _ _ _ _ Hce). by rewrite app_nil_r.
  - rewrite (for_break_step _ _ _ _ _ _ Hce).
    rewrite IH; [by rewrite <- app_assoc|lia|lia|rewrite length_app; simpl; lia].
Qed.

Lemma CopyEntries_spec buf :
  length buf = Z.to_nat PageSize →
  CopyEntries buf = Some (entries_from buf (Z.to_nat (PagesPerBlock - 1)) 0).
Proof.
  intros Hl. unfold CopyEntries. pose proof (geo_block D Hgeo). rewrite u32_small by lia.
  apply (CopyEntries_from buf _ 0 []); [done|simpl; lia..].
Qed.

Lemma length_entries_from buf n i : (length (entries_from buf n i) <= n)%nat.
Proof.
  revert i. induction n as [|n IH]; intros i; simpl; [lia|].
  destruct (entry_at buf i) as [e|]; simpl; [|lia].
  destruct (entry_is _ e); simpl; [lia|]. pose proof (IH (i + 1)). lia.
Qed.

Lemma entries_in_buf buf n i e :
  e ∈ entries_from buf n i → ∃ j, entry_at buf j = Some e.
Proof.
  revert i. induction n as [|n IH]; intros i; simpl; [by rewrite elem_of_nil|].
  destruct (entry_at buf i) as [x|] eqn:E; [|by rewrite elem_of_nil].
  destruct (entry_is _ x); [by rewrite elem_of_nil|].
  rewrite elem_of_cons. intros [->|?]; eauto.
Qed.

Lemma CheckSummary_is_Some buf :
  length buf = Z.to_nat PageSize → is_Some (CheckSummary buf).
Proof.
  intros Hl. pose proof (geo_page D Hgeo). pose proof (geo_block D Hgeo).
  unfold CheckSummary, YAFFS2_DATA_PER_PAGE, YAFFS2_SUMMARY_HEADER_SZ, YAFFS2_SUMMARY_ENTRY_SZ.
  destruct (le32_is_Some buf 0) as [? ->]; [lia..|].
  destruct (le32_is_Some buf 8) as [? ->]; [lia..|].
  destruct (le32_is_Some buf 12) as [? ->]; [lia..|]. simpl.
  repeat case_b; eauto. b2p.
  assert (Hsum : ∃ x, SummaryChecksum (drop (Z.to_nat 16) buf)
                        ((PagesPerBlock -u32 1) *u32 12) = Some x).
  { unfold SummaryChecksum.
    set (n := (PagesPerBlock -u32 1) *u32 12) in *.
    destruct (for_loop_inv (λ i Sum, b ← rd (drop (Z.to_nat 16) buf) i; Some (Sum +u32 b))
                (λ _ _, True) (Z.to_nat n) 0 0 I) as (sm & Hx & _); [|eauto].
    intros j s Hj _.
    destruct (rd_in_range (drop (Z.to_nat 16) buf) j) as [b ->]; [|simpl; eauto].
    assert (Hn : n = (PagesPerBlock - 1) * 12) 
      by (unfold n; rewrite (u32_small (_ - 1)) by lia; by rewrite u32_small by lia).
    rewrite length_drop. rewrite u32_small in E1 by lia. lia. }
  destruct Hsum as [sum ->]. simpl. case_b; eauto.
  destruct (entry_at_is_Some buf 0 Hl) as [e ->]; [lia|]. simpl. case_b; eauto.
Qed.

Lemma entry_events_sound Block seq e p :
  0 <= Block < NumBlocks → summary_seq img Block = Some seq →
  e ∈ summary_entries img Block → page_ok p →
  Forall event_sound (tag_event img (entry_tags seq e) p).
Proof.
  intros Hb Hseq He Hp. pose proof (fit_summary img Hids _ _ _ Hb Hseq He) as Hlt.
  assert (Hq : 0 < seq).
  { apply summary_seq_range in Hseq. unfold seq_out_of_range, YAFFS2_SEQ_MIN in Hseq.
    b2p. lia. }
  destruct (entries_in_buf _ _ _ _ He) as [j Hj]. destruct e as [[a b] c].
  unfold entry_at in Hj. inv_ret.
  repeat match goal with H : le32 (img _) _ = Some _ |- _ =>
    apply (le32_range _ _ _ (img_bytes _)) in H end.
  simpl in *. destruct (UnpackTags_range seq a b c) as (? & ? & ? & Hn); [done..|].
  apply event_sound_tag; [lia|lia|lia|lia|done].
Qed.

Lemma scan_entry_spec Block seq es i e s :
  in_block Block i → summary_seq img Block = Some seq → e ∈ summary_entries img Block →
  rd es i = Some e → ready s →
  ∃ s', scan_entry (block_base Block) seq es i s = Some s'
        ∧ outcome s s' (tag_event img (entry_tags seq e) (block_base Block + i)).
Proof.
  intros Hb Hseq He Hrd Hr. pose proof Hr as [Hs Ht].
  assert (Hp := in_block_page _ _ Hb).
  pose proof (sound_ok _ (entry_events_sound _ _ _ _ (proj1 Hb) Hseq He Hp)) as Hok.
  unfold scan_entry. rewrite Hrd. destruct e as [[a b] c]. simpl in *.
  destruct (block_base_u32 Block i Hb) as [_ ->]. set (g := UnpackTags seq a b c) in *.
  destruct (skip_object (t_ObjId g)) eqn:Ek.
  { exists s. split; [done|]. apply outcome_stay; [done..|]. intros _.
    unfold tag_event. by rewrite Ek. }
  set (p := block_base Block + i) in *. set (s1 := count_page s).
  assert (Hr1 : ready s1) by by split.
  destruct (ReadPage p (vol_Nand (sc_Vol s))) as [[st buf] d2] eqn:Eb.
  destruct (ReadPage_spec _ _ _ _ _ Eb) as (Himg & _ & Hbuf).
  destruct (live_page_spec g p s1 (st, buf, d2)) as (s' & E & Ho); try done.
  - intros q. simpl. rewrite Himg. apply Hs.
  - simpl. intros Hx. rewrite (Hbuf Hx). apply Hs.
  - intros Hx. pose proof (rel_page D Hx p (vol_Nand (sc_Vol s)) Hp) as Hy.
    by rewrite Eb in Hy.
  - exists s'. split; [exact E|]. by apply (outcome_move s s1).
Qed.

Lemma scan_entries_spec Block seq pre es s :
  0 <= Block < NumBlocks → summary_seq img Block = Some seq →
  (∀ e, e ∈ es → e ∈ summary_entries img Block) → len pre + len es <= PagesPerBlock →
  ready s →
  ∃ s', for_loop (length es) (len pre) (scan_entry (block_base Block) seq (pre ++ es)) s
          = Some s'
        ∧ outcome s s' (entry_events img seq es (block_base Block + len pre)).
Proof.
  intros Hb Hseq. revert pre s. induction es as [|e es IH]; intros pre s Hin Hl Hr.
  { exists s. split; [done|]. by apply outcome_stay. }
  destruct (scan_entry_spec Block seq (pre ++ e :: es) (len pre) e s)
    as (s1 & E & Ho); [split; simpl in Hl; lia|done|apply Hin; by left| |done|].
  { rewrite rd_app_r by lia. by rewrite Z.sub_diag. }
  cbn [length for_loop]. rewrite E. pose proof Ho as [Hr1 _].
  destruct (IH (pre ++ [e]) s1) as (s' & Hl' & Ho'); [|rewrite length_app; simpl in *; lia|done|].
  { intros e' He'. apply Hin. by right. }
  exists s'. rewrite length_app in Hl', Ho'. simpl in Hl', Ho'.
  rewrite <- app_assoc in Hl'. rewrite Nat2Z.inj_add in Hl', Ho'.
  split; [exact Hl'|]. cbn [entry_events]. eapply outcome_trans; [done|].
  by rewrite <- Z.add_assoc.
Qed.

Lemma ScanBlockViaSummary_spec Block s :
  0 <= Block < NumBlocks → ready s →
  ∃ b s', ScanBlockViaSummary Block s = Some (b, s') ∧
    if b : bool
    then ∃ seq, summary_seq img Block = Some seq ∧ outcome s s' (summary_events img Block seq)
    else outcome s s' [] ∧ (nand_reliable D → summary_seq img Block = None).
Proof.
  intros Hb Hr. pose proof Hr as [Hs Ht]. unfold ScanBlockViaSummary.
  pose proof (geo_block D Hgeo).
  assert (Hib : in_block Block (PagesPerBlock - 1)) by (split; lia).
  destruct (block_base_u32 _ _ Hib) as [-> Hpage]. rewrite (u32_small (PagesPerBlock - 1)) by lia.
  rewrite Hpage. replace (block_base Block + (PagesPerBlock - 1)) with (summary_page Block)
    by (unfold summary_page; lia).
  destruct (read_tags_spec (summary_page Block) _ Hs) as (r & d' & -> & Hs' & Hsome & Hrel).
  simpl. destruct r as [Raw|].
  2:{ eexists false, _. split; [done|]. split; [by apply outcome_stay|].
      intros Hx. unfold summary_seq. rewrite <- Hrel; [done..|].
      replace (summary_page Block) with (block_base Block + (PagesPerBlock - 1))
        by (unfold summary_page; lia). by apply in_block_page. }
  destruct (Hsome Raw eq_refl) as [Er Hl]. clear Hsome Hrel.
  assert (Hsum : summary_seq img Block = w1 ← rd Raw 1; w2 ← rd Raw 2;
    if (w1 =? YAFFS2_SUMMARY_OBJ_ID) && (w2 =? 1)
    then seq ← CheckSummary (img (summary_page Block)); seq else None)
    by (unfold summary_seq; by rewrite Er).
  destruct (raw_tags_words img Hgeo img_length img_bytes _ _ Er)
    as (w0 & w1 & w2 & w3 & -> & _).
  simpl in Hsum |- *. set (s1 := sc_map _ s).
  assert (Hr1 : ready s1) by by split.
  destruct (w1 =? YAFFS2_SUMMARY_OBJ_ID); simpl in *.
  2:{ eexists false, _. split; [done|]. split; [by apply outcome_stay|done]. }
  destruct (Z.eqb_spec w2 1) as [->|Hne]; simpl in *.
  2:{ eexists false, s1. split; [by case_b|]. split; [by apply outcome_stay|done]. }
  change (Z.land 1 0x80000000 =? 0) with true. simpl.
  destruct (ReadPageBody d') as [[st buf] d2] eqn:Eb.
  destruct (ReadPageBody_spec _ _ _ _ Eb) as (Himg & _ & Hbuf). set (s2 := sc_map _ s1).
  assert (Hr2 : ready s2) by (split; [intros q; simpl; rewrite Himg; apply Hs'|done]).
  destruct (EFI_ERROR st) eqn:Est.
  { eexists false, s2. split; [done|]. split; [by apply outcome_stay|]. intros Hx.
    pose proof (rel_body D Hx _ d' Hl) as Hy. rewrite Eb in Hy. simpl in Hy. congruence. }
  rewrite (Hbuf eq_refl _ Hl), Hs'. set (sp := summary_page Block) in *.
  destruct (CheckSummary_is_Some (img sp) (img_length _)) as [seq Ec].
  rewrite Ec in *. simpl in *. destruct seq as [seq|]; simpl in *.
  2:{ eexists false, s2. split; [done|]. split; [by apply outcome_stay|done]. }
  rewrite CopyEntries_spec by done. simpl.
  destruct (scan_entries_spec Block seq [] (summary_entries img Block) s2)
    as (s' & E & Ho); [done..| |done|].
  { unfold summary_entries. simpl.
    pose proof (length_entries_from (img (summary_page Block)) (Z.to_nat (PagesPerBlock - 1)) 0).
    lia. }
  unfold summary_entries in E at 1 2. fold sp in E. simpl in E.
  change (Z.of_nat 0) with 0 in E. rewrite E. simpl.
  exists true, s'. split; [done|]. exists seq. split; [done|].
  change (len (@nil (Z * Z * Z))) with 0 in Ho. rewrite Z.add_0_r in Ho.
  by apply (outcome_move s s2).
Qed.

Lemma summary_events_sound Block seq :
  0 <= Block < NumBlocks → summary_seq img Block = Some seq →
  Forall event_sound (summary_events img Block seq).
Proof.
  intros Hb Hseq. unfold summary_events. pose proof (geo_block D Hgeo).
  assert (Hgen : ∀ es i, (∀ e, e ∈ es → e ∈ summary_entries img Block) → 0 <= i →
    i + len es <= PagesPerBlock →
    Forall event_sound (entry_events img seq es (block_base Block + i))).
  { induction es as [|e es IH]; intros i Hin Hi Hl; simpl; [done|].
    apply Forall_app. split.
    - eapply entry_events_sound; [done|done|apply Hin; by left|].
      apply in_block_page. split; [done|simpl in Hl; lia].
    - rewrite <- Z.add_assoc. apply IH; [|lia|simpl in Hl; lia].
      intros e' He'. apply Hin. by right. }
  rewrite <- (Z.add_0_r (block_base Block)). apply Hgen; [done|lia|].
  pose proof (length_entries_from (img (summary_page Block)) (Z.to_nat (PagesPerBlock - 1)) 0).
  unfold summary_entries. lia.
Qed.

Lemma block_events_sound Block :
  0 <= Block < NumBlocks → Forall event_sound (block_events img Block).
Proof.
  intros Hb. unfold block_events.
  assert (Hgen : ∀ n i, 0 <= i → i + Z.of_nat n <= PagesPerBlock →
    Forall event_sound (block_events_from img n (block_base Block + i))).
  { induction n as [|n IH]; intros i Hi Hl; simpl; [done|].
    destruct (tags_of img _); [|done]. apply Forall_app. split.
    - apply page_events_sound. split; [done|lia].
    - rewrite <- Z.add_assoc. apply IH; lia. }
  rewrite <- (Z.add_0_r (block_base Block)). apply Hgen; [lia|].
  pose proof (geo_block D Hgeo). lia.
Qed.

Lemma scan_block_spec Block s :
  0 <= Block < NumBlocks → ready s →
  ∃ s', scan_block Block s = Some s' ∧ ready s' ∧ ∃ evs,
    process_events (vol_Tab (sc_Vol s)) evs = Some (vol_Tab (sc_Vol s'))
    ∧ Forall event_ok evs
    ∧ (nand_reliable D → evs = scan_block_events img Block).
Proof.
  intros Hb Hr. pose proof Hr as [Hs Ht]. unfold scan_block.
  pose proof (geo_block D Hgeo).
  assert (Hib : in_block Block 0) by (split; lia).
  destruct (block_base_u32 Block 0 Hib) as [-> _].
  assert (Hp0 : page_ok (block_base Block)).
  { rewrite <- (Z.add_0_r (block_base Block)). by apply in_block_page. }
  destruct (read_tags_spec (block_base Block) _ Hs) as (r & d' & -> & Hs' & Hsome & Hrel).
  simpl. set (s1 := sc_map _ s). assert (Hr1 : ready s1) by by split.
  assert (Hraw : nand_reliable D →
    match r with Some _ => is_Some (tags_of img (block_base Block))
            | None => tags_of img (block_base Block) = None end).
  { intros Hx. destruct r as [Raw|].
    - apply (tags_of_raw img Hgeo img_length img_bytes). rewrite <- Hrel by done. eauto.
    - unfold tags_of. by rewrite <- Hrel. }
  assert (Hfull : ∀ s' full, outcome s1 s' full → Forall event_ok full →
    (nand_reliable D → full = scan_block_events img Block) →
    ready s' ∧ ∃ evs, process_events (vol_Tab (sc_Vol s)) evs = Some (vol_Tab (sc_Vol s'))
      ∧ Forall event_ok evs ∧ (nand_reliable D → evs = scan_block_events img Block)).
  { intros s' full (Hr' & evs & HP & Hsub & Hall) Hok Hf. split; [done|]. exists evs.
    split_and!; [exact HP|by eapply Forall_sublist_of|intros Hx; by rewrite Hall, Hf]. }
  destruct r as [Raw|].
  2:{ exists s1. split; [done|]. apply (Hfull s1 []); [by apply outcome_stay|done|].
      intros Hx. unfold scan_block_events. by rewrite (Hraw Hx). }
  destruct (ScanBlockViaSummary_spec Block s1 Hb Hr1) as (b & s2 & -> & Hcase). simpl.
  destruct b.
  - destruct Hcase as (seq & Hseq & Ho). exists s2. split; [done|].
    apply (Hfull s2 _ Ho).
    + by apply sound_ok, summary_events_sound.
    + intros Hx. unfold scan_block_events. destruct (Hraw Hx) as [g ->]. by rewrite Hseq.
  - destruct Hcase as [Ho Hnone]. pose proof Ho as [Hr2 _].
    destruct (ScanBlockPageByPage_spec Block s2 Hb Hr2) as (s3 & -> & Ho3).
    exists s3. split; [done|].
    apply (Hfull s3 (block_events img Block)); [by apply (outcome_trans s1 s2 s3 [])| |].
    + by apply sound_ok, block_events_sound.
    + intros Hx. unfold scan_block_events. destruct (Hraw Hx) as [g ->].
      by rewrite (Hnone Hx).
Qed.

Lemma scan_blocks_spec n Block s :
  0 <= Block → Block + Z.of_nat n <= NumBlocks → ready s →
  ∃ s', for_loop n Block scan_block s = Some s' ∧ ready s' ∧ ∃ evs,
    process_events (vol_Tab (sc_Vol s)) evs = Some (vol_Tab (sc_Vol s'))
    ∧ Forall event_ok evs
    ∧ (nand_reliable D →
         evs = concat (map (scan_block_events img) (seqZ Block (Z.of_nat n)))).
Proof.
  revert Block s. induction n as [|n IH]; intros Block s Hb Hn Hr.
  { exists s. split; [done|]. split; [done|]. by exists []. }
  destruct (scan_block_spec Block s) as (s1 & E1 & Hr1 & e1 & P1 & O1 & R1); [lia|done|].
  destruct (IH (Block + 1) s1) as (s2 & E2 & Hr2 & e2 & P2 & O2 & R2); [lia..|done|].
  exists s2. cbn [for_loop]. rewrite E1. split; [done|]. split; [done|]. exists (e1 ++ e2).
  split_and!; [rewrite process_events_app, P1; done|by apply Forall_app|].
  intros Hx. rewrite R1, R2 by done. rewrite (seqZ_cons Block) by lia. simpl.
  by replace (Z.pred (Z.of_nat (S n))) with (Z.of_nat n) by lia.
Qed.

Lemma volume_events_sound : Forall event_sound (volume_events img).
Proof.
  unfold volume_events. apply Forall_concat, Forall_map, list.Forall_forall. intros Block [? ?]%elem_of_seqZ.
  unfold scan_block_events. destruct (tags_of _ _); [|done].
  destruct (summary_seq _ _) eqn:E; [apply summary_events_sound|apply block_events_sound]; done || lia.
Qed.
End Run.

(** ** The volume after the scan *)

(** The scan itself creates no links. *)
Lemma unlinked_insert m id o :
  unlinked m → o_Parent o = None → o_ChildHead o = [] → unlinked (<[id := o]> m).
Proof. intros Hm ?? id' o'. rewrite lookup_insert. case_decide; [by intros [= <-]|apply Hm]. Qed.

Lemma EnsureObjectsCapacity_unlinked t id st t' :
  EnsureObjectsCapacity t id = Some (st, t') → unlinked (v_Objects t) → unlinked (v_Objects t').
Proof.
  unfold EnsureObjectsCapacity. intros HE Hu.
  repeat (case_match; simplify_eq; simpl in *); try done;
    intros i o Hi; apply map_lookup_filter_Some in Hi as [Hi _]; by eapply Hu.
Qed.

Lemma FindOrCreateObject_unlinked t id r t' :
  FindOrCreateObject t id = Some (r, t') → unlinked (v_Objects t) → unlinked (v_Objects t').
Proof.
  unfold FindOrCreateObject. intros HE Hu.
  apply bind_Some in HE as ([st t1] & HE & HF).
  pose proof (EnsureObjectsCapacity_unlinked _ _ _ _ HE Hu) as Hu1.
  destruct (EFI_ERROR st); [by simplify_eq|].
  apply bind_Some in HF as (slot & _ & HF).
  repeat (case_match; simplify_eq; simpl in *); try done. by apply unlinked_insert.
Qed.

Lemma process_event_unlinked t e t' :
  process_event t e = Some t' → unlinked (v_Objects t) → unlinked (v_Objects t').
Proof.
  destruct e as [g p buf|g p]; simpl; intros HP Hu.
  - unfold ProcessHeader in HP. apply bind_Some in HP as ([r t1] & HF & HP).
    pose proof (FindOrCreateObject_unlinked _ _ _ _ HF Hu) as Hu1.
    destruct r; [|by simplify_eq]. apply bind_Some in HP as (o & Ho & HP).
    destruct (Hu1 _ _ Ho). case_match; [by simplify_eq|].
    apply bind_Some in HP as (o' & Hp & HP). simplify_eq.
    apply ParseObjectHeader_fields in Hp as (_ & _ & _ & _ & ? & ?).
    apply unlinked_insert; [done|congruence..].
  - unfold ProcessDataChunk in HP. case_match; [by simplify_eq|].
    apply bind_Some in HP as ([r t1] & HF & HP).
    pose proof (FindOrCreateObject_unlinked _ _ _ _ HF Hu) as Hu1.
    destruct r; [|by simplify_eq]. apply bind_Some in HP as (o & Ho & HP).
    destruct (Hu1 _ _ Ho). apply bind_Some in HP as ([gr pool] & HG & HP).
    assert (Hg : ∀ o', gr = Some o' → o_Parent o' = None ∧ o_ChildHead o' = []).
    { unfold GrowChunks in HG. intros o' ->. repeat (case_match; simplify_eq; simpl in *); done. }
    destruct gr as [o'|]; [|by simplify_eq]. destruct (Hg o' eq_refl).
    apply bind_Some in HP as (ex & _ & HP). simplify_eq. by apply unlinked_insert.
Qed.

Lemma process_events_unlinked evs t t' :
  process_events t evs = Some t' → unlinked (v_Objects t) → unlinked (v_Objects t').
Proof.
  revert t. induction evs as [|e evs IH]; simpl; intros t HP Hu; [by simplify_eq|].
  apply bind_Some in HP as (t1 & H1 & HP). eauto using process_event_unlinked.
Qed.

Section Volume.
Context {D : Type} `{NandLaws D}.
Hypothesis Hgeo : geometry_ok D.

(** A volume as [Yaffs2AllocateVolume] hands it to the scan. *)
Definition fresh_volume (d : D) (p : Pool) (buf : list Z) : VOLUME D :=
  mkVol d (table_empty p) None buf.

Definition root_is_dir (v : VOLUME D) : Prop :=
  ∃ o, vol_Root v = Some 1 ∧ v_Objects (vol_Tab v) !! 1 = Some o ∧ o_Type o = YAFFS2_TYPE_DIR.

Lemma Yaffs2ScanNand_run d p buf :
  ids_fit (image d) →
  ∃ st v evs t,
    Yaffs2ScanNand (fresh_volume d p buf) = Some (st, v)
    ∧ (∀ q, image (vol_Nand v) q = image d q)
    ∧ process_events (table_empty p) evs = Some t ∧ Forall event_ok evs
    ∧ BuildTree t = Some (vol_Tab v, vol_Root v)
    ∧ table_wf (vol_Tab v)
    ∧ (∀ id, v_Objects (vol_Tab v) !! id =
         linked (live_objects (v_Objects t)) (v_MaxObjId t) id
           <$> live_objects (v_Objects t) !! id)
    ∧ (st = EFI_SUCCESS ∨ st = EFI_VOLUME_CORRUPTED)
    ∧ (st = EFI_SUCCESS ↔ root_is_dir v)
    ∧ (nand_reliable D → evs = volume_events (image d)).
Proof.
  intros Hids. pose proof (geo_blocks D Hgeo). set (img := image d).
  destruct (scan_blocks_spec img Hgeo (image_length d) (image_bytes d) Hids
              (Z.to_nat NumBlocks) 0 (mkScan (fresh_volume d p buf) 0 0))
    as (s & E & [Hs Hwf] & evs & HP & Hok & Hrel); [lia..|split; [done|apply table_empty_wf]|].
  simpl in HP.
  assert (Hun : unlinked (v_Objects (vol_Tab (sc_Vol s)))).
  { eapply process_events_unlinked; [exact HP|]. intros ? ?. simpl. by rewrite lookup_empty. }
  destruct (BuildTree_spec _ Hwf Hun) as (t' & HB & Hwf' & Hmax & _ & Ho).
  unfold Yaffs2ScanNand. rewrite E. simpl. rewrite HB. simpl.
  set (v1 := mkVol _ _ _ _).
  assert (Hreln : nand_reliable D → evs = volume_events img).
  { intros Hx. rewrite Hrel by done. unfold volume_events. by rewrite Z2Nat.id by lia. }
  destruct (live_objects _ !! 1) as [r|] eqn:Er.
  - pose proof (Ho 1) as Hr1. rewrite Er in Hr1. simpl in Hr1. rewrite Hr1. simpl.
    assert (Hiff : root_is_dir v1 ↔ o_Type r = YAFFS2_TYPE_DIR).
    { unfold root_is_dir. subst v1. simpl. rewrite Hr1. split.
      - intros (o & _ & [= <-] & Ht). exact Ht.
      - intros Ht. by eexists. }
    destruct (Z.eqb_spec (o_Type r) YAFFS2_TYPE_DIR) as [Ht|Ht]; simpl.
    + eexists EFI_SUCCESS, v1, evs, _. split_and!; eauto. by rewrite Hiff.
    + eexists EFI_VOLUME_CORRUPTED, v1, evs, _. split_and!; eauto. by rewrite Hiff.
  - eexists EFI_VOLUME_CORRUPTED, v1, evs, _. split_and!; eauto.
    split; [done|]. by intros (o & ? & _).
Qed.
End Volume.



(** ** The summary agrees with the pages *)

(** Entry [i] of the summary describes page [i] of the block. *)
Definition summary_faithful {D} `{NandFlash D} (img : Z → list Z) (Block seq : Z) : Prop :=
  ∀ i, 0 <= i < PagesPerBlock - 1 →
    ∃ a b c, entry_at (img (summary_page Block)) i = Some (a, b, c) ∧
      if entry_is 0xFFFFFFFF (a, b, c) then raw_tags img (block_base Block + i) = None
      else raw_tags img (block_base Block + i) = Some [seq; a; b; c].

Lemma summary_events_pages {D} `{NandFlash D} (img : Z → list Z) Block seq :
  1 <= PagesPerBlock → summary_seq img Block = Some seq → summary_faithful img Block seq →
  summary_events img Block seq = block_events img Block.
Proof.
  intros Hp Hseq Hf. unfold summary_events, summary_entries, block_events.
  assert (Hlast : page_events img (summary_page Block) = []).
  { unfold summary_seq in Hseq. apply bind_Some in Hseq as (Raw & Er & Hseq).
    apply bind_Some in Hseq as (w1 & E1 & Hseq). apply bind_Some in Hseq as (w2 & E2 & Hseq).
    destruct (_ && _) eqn:E; [|done]. b2p. subst. unfold page_events, tags_of. rewrite Er. simpl.
    destruct Raw as [|? [|? [|? [|? [|? ?]]]]]; try done. simpl in *. simplify_eq. simpl.
    by case_b. }
  pose proof (summary_seq_range _ _ _ Hseq) as Hrange.
  assert (Hgen : ∀ n i, 0 <= i → i + Z.of_nat n = PagesPerBlock - 1 →
    entry_events img seq (entries_from (img (summary_page Block)) n i) (block_base Block + i)
    = block_events_from img (S n) (block_base Block + i)).
  { induction n as [|n IH]; intros i Hi Hn.
    - simpl. replace (block_base Block + i) with (summary_page Block)
        by (unfold summary_page; lia).
      rewrite Hlast. by destruct (tags_of img _).
    - destruct (Hf i) as (a & b & c & He & Hraw); [lia|].
      cbn [entries_from block_events_from]. rewrite He.
      destruct (entry_is 0xFFFFFFFF (a, b, c)).
      + unfold tags_of. by rewrite Hraw.
      + assert (Ht : tags_of img (block_base Block + i) = Some (entry_tags seq (a, b, c)))
          by (unfold tags_of; by rewrite Hraw).
        rewrite Ht. cbn [entry_events]. f_equal.
        * unfold page_events. rewrite Ht. simpl. unfold UnpackTags.
          case_b; simpl; by rewrite Hrange.
        * rewrite <- Z.add_assoc. apply IH; lia. }
  rewrite <- (Z.add_0_r (block_base Block)) at 1 2. rewrite Hgen by lia.
  f_equal. lia.
Qed.

(** C11: Scanning a block through its summary is equivalent to scanning it page
    by page: on a driver whose reads succeed, from any scan state with a
    well-formed table, when the block has a valid summary that describes its pages
    ([summary_faithful]: each entry holds the tags of its page, an erased entry an
    erased page),
    [ScanBlockViaSummary] accepts it and leaves exactly the object table and pool
    that [ScanBlockPageByPage] leaves from the same state, which are those of
    processing the pages of the block in order. *)
Theorem summary_equiv_pages {D} `{NandLaws D} Block seq (s : SCAN D) :
  geometry_ok D → nand_reliable D → 0 <= Block < NumBlocks →
  let img := image (vol_Nand (sc_Vol s)) in
  ids_fit img → table_wf (vol_Tab (sc_Vol s)) →
  summary_seq img Block = Some seq → summary_faithful img Block seq →
  ∃ s1 s2, ScanBlockViaSummary Block s = Some (true, s1) ∧ ScanBlockPageByPage Block s = Some s2 ∧
    vol_Tab (sc_Vol s1) = vol_Tab (sc_Vol s2) ∧
    process_events (vol_Tab (sc_Vol s)) (block_events img Block) = Some (vol_Tab (sc_Vol s2)) ∧
    (∀ q, image (vol_Nand (sc_Vol s1)) q = img q) ∧ (∀ q, image (vol_Nand (sc_Vol s2)) q = img q).
Proof.
  intros Hgeo Hrel Hb img Hids Hwf Hseq Hf. set (d := vol_Nand (sc_Vol s)) in *.
  assert (ready img s) as Hr by by split.
  destruct (ScanBlockViaSummary_spec img Hgeo (image_length d) (image_bytes d) Hids Block s Hb Hr) as (b & s1 & E1 & C1).
  destruct (ScanBlockPageByPage_spec img Hgeo (image_length d) (image_bytes d) Hids Block s Hb Hr)
    as (s2 & E2 & [S2 _] & ev2 & P2 & _ & X2).
  destruct b; [|destruct C1 as [_ N]; by rewrite (N Hrel) in Hseq].
  destruct C1 as (seq' & Hseq' & [S1 _] & ev1 & P1 & _ & X1). rewrite Hseq in Hseq'. injection Hseq' as <-.
  pose proof (geo_block D Hgeo).
  rewrite (X1 Hrel), (summary_events_pages img Block seq) in P1 by (done || lia). rewrite (X2 Hrel) in P2.
  exists s1, s2. split_and!; try done. congruence.
Qed.

(** ** Detection *)

Section Detect.
Context {D : Type} `{NandLaws D} (img : Z → list Z).
Hypothesis Hgeo : geometry_ok D.
Hypothesis Hrel : nand_reliable D.
Hypothesis img_length : ∀ p, length (img p) = Z.to_nat PageSize.
Hypothesis img_bytes : ∀ p, Forall byte_ok (img p).

(** The written pages of a block with their tags, up to the first erased one. *)
Fixpoint written (n : nat) (page : Z) : list (Z * YAFFS2_TAGS) :=
  match n with
  | O => []
  | S n' => match tags_of img page with
            | Some g => (page, g) :: written n' (page + 1)
            | None => []
            end
  end.

Definition seq_is (seq : Z) (pg : Z * YAFFS2_TAGS) : bool := t_SeqNumber pg.2 =? seq.

(** A header page of an object of a known type. *)
Definition known_header (pg : Z * YAFFS2_TAGS) : bool :=
  t_IsHeader pg.2 &&
  match le32 (img pg.1) 0 with
  | Some ty => zbetween YAFFS2_TYPE_FILE ty YAFFS2_TYPE_SPECIAL
  | None => false
  end.

(** The block looks like YAFFS2: one sequence number, in range, on all its
    written pages, and an object header among them. *)
Definition block_detects (Block : Z) : bool :=
  match written (Z.to_nat PagesPerBlock) (block_base Block) with
  | [] => false
  | (p, g) :: rest =>
      negb (seq_out_of_range (t_SeqNumber g)) &&
      forallb (seq_is (t_SeqNumber g)) rest && existsb known_header ((p, g) :: rest)
  end.

Lemma probe_header_spec p fh d buf :
  page_ok (D := D) p → shows img d →
  ∃ d' buf', shows img d' ∧ probe_header p fh d buf =
    Some (fh || match le32 (img p) 0 with
                | Some ty => zbetween YAFFS2_TYPE_FILE ty YAFFS2_TYPE_SPECIAL
                | None => false end, d', buf').
Proof.
  intros Hp Hs. unfold probe_header. destruct (ReadPage p d) as [[st b] d'] eqn:E.
  destruct (ReadPage_spec _ _ _ _ _ E) as (Himg & Hl & Hb).
  pose proof (rel_page D Hrel p d Hp) as Hx. rewrite E in Hx. simpl in Hx. rewrite Hx.
  rewrite (Hb Hx), Hs. pose proof (geo_page D Hgeo).
  destruct (le32_is_Some (img p) 0) as [ty ->]; [lia|rewrite img_length; lia|]. simpl.
  exists d', (img p). split; [|done]. intros q. rewrite Himg. apply Hs.
Qed.

Lemma read_tags_reliable p d :
  page_ok (D := D) p → shows img d →
  ∃ d', read_tags p d = Some (raw_tags img p, d') ∧ shows img d'.
Proof.
  intros Hp Hs. destruct (read_tags_spec img p d Hs) as (r & d' & E & Hs' & _ & Hr).
  exists d'. by rewrite <- Hr.
Qed.

Lemma detect_pages_spec Block seq n i fh d buf :
  0 <= Block < NumBlocks → 0 <= i → i + Z.of_nat n <= PagesPerBlock → shows img d →
  let w := written n (block_base Block + i) in
  ∃ ok fh' d' buf',
    for_break n i (detect_page (block_base Block) seq) (true, fh, d, buf)
      = Some (ok, fh', d', buf')
    ∧ shows img d' ∧ ok = forallb (seq_is seq) w
    ∧ (ok = true → fh' = fh || existsb known_header w).
Proof.
  intros Hb. revert i fh d buf. induction n as [|n IH]; intros i fh d buf Hi Hn Hs; simpl.
  { eexists _, _, _, _. split; [done|]. rewrite orb_false_r. auto. }
  assert (Hib : in_block (D := D) Block i) by (split; lia).
  destruct (block_base_u32 Hgeo Block i Hib) as [_ ->].
  assert (Hp := in_block_page Hgeo Block i Hib). set (p := block_base Block + i) in *.
  destruct (read_tags_reliable p d Hp Hs) as (d1 & -> & Hs1). simpl.
  unfold tags_of. destruct (raw_tags img p) as [Raw|] eqn:Er; simpl.
  2:{ eexists _, _, _, _. split; [done|]. rewrite orb_false_r. auto. }
  destruct (raw_tags_words img Hgeo img_length img_bytes _ _ Er)
    as (w0 & w1 & w2 & w3 & -> & _). simpl.
  set (g := UnpackTags w0 w1 w2 w3). fold (seq_is seq (p, g)).
  change (t_SeqNumber g =? seq) with (seq_is seq (p, g)).
  destruct (seq_is seq (p, g)) eqn:Eq; simpl.
  2:{ eexists _, _, _, _. split; [done|]. by split_and!. }
  assert (Hstep : ∀ fh1 d2 buf2, shows img d2 → fh1 = fh || known_header (p, g) →
    ∃ ok fh' d' buf',
      for_break n (i + 1) (detect_page (block_base Block) seq) (true, fh1, d2, buf2)
        = Some (ok, fh', d', buf')
      ∧ shows img d' ∧ ok = forallb (seq_is seq) (written n (p + 1))
      ∧ (ok = true → fh' = fh || (known_header (p, g)
                                  || existsb known_header (written n (p + 1))))).
  { intros fh1 d2 buf2 Hs2 ->.
    destruct (IH (i + 1) (fh || known_header (p, g)) d2 buf2)
      as (ok & fh' & d' & buf' & E & Hs' & Hok & Hfh); [lia..|done|].
    exists ok, fh', d', buf'. unfold p. rewrite <- Z.add_assoc. split_and!; try done.
    intros Hx. rewrite (Hfh Hx). by rewrite orb_assoc. }
  destruct (negb fh && t_IsHeader g) eqn:Eh.
  - destruct (probe_header_spec p fh d1 buf Hp Hs1) as (d2 & buf2 & Hs2 & ->). simpl.
    apply Hstep; [done|]. unfold known_header. simpl. b2p. by rewrite H2.
  - simpl. apply Hstep; [done|]. unfold known_header. simpl.
    destruct fh; [done|]. simpl in Eh. by rewrite Eh.
Qed.

Lemma detect_block_spec Block b d buf :
  0 <= Block < NumBlocks → shows img d →
  ∃ d' buf', detect_block Block (b, d, buf)
      = Some ((block_detects Block, d', buf'), negb (block_detects Block))
    ∧ shows img d'.
Proof.
  intros Hb Hs. unfold detect_block, block_detects. pose proof (geo_block D Hgeo).
  assert (Hib : in_block (D := D) Block 0) by (split; lia).
  destruct (block_base_u32 Hgeo Block 0 Hib) as [-> _].
  assert (Hp := in_block_page Hgeo Block 0 Hib). rewrite Z.add_0_r in Hp.
  set (p := block_base Block) in *.
  destruct (read_tags_reliable p d Hp Hs) as (d1 & -> & Hs1). cbn [mbind option_bind].
  replace (Z.to_nat PagesPerBlock) with (S (Z.to_nat (PagesPerBlock - 1))) by lia.
  cbn [written]. rewrite (eq_refl : tags_of img p = raw_tags img p ≫= ParseTagWords).
  destruct (raw_tags img p) as [Raw|] eqn:Er.
  2:{ simpl. by exists d1, buf. }
  destruct (raw_tags_words img Hgeo img_length img_bytes _ _ Er)
    as (w0 & w1 & w2 & w3 & -> & _).
  cbn [mbind option_bind ParseTagWords]. set (g := UnpackTags w0 w1 w2 w3).
  destruct (seq_out_of_range (t_SeqNumber g)); [simpl; by exists d1, buf|].
  assert (Hhead : ∃ d2 buf2, shows img d2 ∧
    (if t_IsHeader g then probe_header p false d1 buf else Some (false, d1, buf))
    = Some (known_header (p, g), d2, buf2)).
  { unfold known_header. simpl. destruct (t_IsHeader g); [|by exists d1, buf].
    destruct (probe_header_spec p false d1 buf Hp Hs1) as (d2 & buf2 & ? & ->).
    by exists d2, buf2. }
  destruct Hhead as (d2 & buf2 & Hs2 & ->). cbn [mbind option_bind].
  destruct (detect_pages_spec Block (t_SeqNumber g) (Z.to_nat (PagesPerBlock - 1)) 1
              (known_header (p, g)) d2 buf2) as (ok & fh & d3 & buf3 & E & Hs3 & Hok & Hfh);
    [done|lia|lia|done|]. fold p in E, Hok, Hfh. rewrite E. cbn [mbind option_bind existsb].
  rewrite <- Hok. exists d3, buf3. split; [|done].
  destruct ok; simpl; [rewrite Hfh by done; by case_b|done].
Qed.

Lemma detect_blocks_spec n Block d buf :
  0 <= Block → Block + Z.of_nat n <= NumBlocks → shows img d →
  ∃ d' buf', for_break n Block detect_block (false, d, buf)
      = Some (existsb block_detects (seqZ Block (Z.of_nat n)), d', buf')
    ∧ shows img d'.
Proof.
  revert Block d buf. induction n as [|n IH]; intros Block d buf Hb Hn Hs.
  { by exists d, buf. }
  destruct (detect_block_spec Block false d buf) as (d1 & buf1 & E & Hs1); [lia|done|].
  rewrite (for_break_step _ _ _ _ _ _ E), (seqZ_cons Block) by lia. cbn [existsb].
  replace (Z.pred (Z.of_nat (S n))) with (Z.of_nat n) by lia.
  destruct (block_detects Block); simpl; [by exists d1, buf1|].
  apply IH; [lia..|done].
Qed.
End Detect.

(** Detection is exact: on a device whose reads do not fail,
    [Yaffs2DetectFilesystem] returns EFI_SUCCESS if and only if one of the
    first ten blocks looks like YAFFS2 (its first page carries a sequence number
    in range, all its written pages carry the same one, and one of them is an
    object header of a known type), and EFI_UNSUPPORTED otherwise; the flash is
    unchanged. *)
Theorem Detect_exact {D} `{NandLaws D} (d : D) buf :
  geometry_ok D → nand_reliable D →
  ∃ st d' buf', Yaffs2DetectFilesystem d buf = Some (st, d', buf')
    ∧ (st = EFI_SUCCESS ↔
         ∃ Block, 0 <= Block < Z.min 10 NumBlocks ∧ block_detects (image d) Block = true)
    ∧ (st ≠ EFI_SUCCESS → st = EFI_UNSUPPORTED)
    ∧ ∀ q, image d' q = image d q.
Proof.
  intros Hgeo Hrel. pose proof (geo_blocks D Hgeo).
  destruct (detect_blocks_spec (image d) Hgeo Hrel (image_length d) (image_bytes d)
              (Z.to_nat (Z.min 10 NumBlocks)) 0 d buf) as (d' & buf' & E & Hs); [lia..|done|].
  unfold Yaffs2DetectFilesystem. rewrite E. cbn [mbind option_bind].
  eexists _, d', buf'. split; [done|]. split; [|split; [by case_b|exact Hs]].
  rewrite Z2Nat.id by lia. case_b; rename E0 into Ex.
  - split; [intros _|done]. apply existsb_exists in Ex as (Block & Hin & Hd).
    apply list_elem_of_In, elem_of_seqZ in Hin. exists Block. split; [lia|done].
  - split; [done|]. intros (Block & Hb & Hd).
    assert (existsb (block_detects (image d)) (seqZ 0 (Z.min 10 NumBlocks)) = true).
    { apply existsb_exists. exists Block. split; [|done].
      apply list_elem_of_In, elem_of_seqZ. lia. }
    congruence.
Qed.

(** ** The properties at the small flash of Yaffs2Format *)

Lemma cases_0_1 i : 0 <= i < 2 → i = 0 ∨ i = 1.
Proof. lia. Qed.
Lemma cases_0_3 i : 0 <= i < 4 → i = 0 ∨ i = 1 ∨ i = 2 ∨ i = 3.
Proof. lia. Qed.

Lemma demo_ids_fit : ids_fit (image demo_dev).
Proof.
  split.
  - intros Block i g Hb Hi Hg.
    destruct (cases_0_1 Block Hb) as [-> | ->];
    destruct (cases_0_3 i Hi) as [-> | [-> | [-> | ->]]];
      vm_compute in Hg; first [discriminate Hg | injection Hg as <-; simpl; lia].
  - intros Block seq e Hb Hs.
    destruct (cases_0_1 Block Hb) as [-> | ->]; vm_compute in Hs; discriminate Hs.
Qed.



Lemma Detect_exact_witness :
  ∃ st d buf, Yaffs2DetectFilesystem demo_dev [] = Some (st, d, buf) ∧ st = EFI_SUCCESS.
Proof.
  destruct (Detect_exact demo_dev [] sim_geometry sim_reliable)
    as (st & d & buf & E & Hiff & _).
  exists st, d, buf. split; [exact E|]. apply Hiff. exists 0.
  split; [split; [lia|reflexivity]|vm_compute; reflexivity].
Defined.

(** A block with a summary: a directory, a file and its data, then the summary
    page that lists them. *)
Definition demo_summary_entries : list Z :=
  le_bytes 4 0x30000001 ++ le_bytes 4 0x80000001 ++ le_bytes 4 0
  ++ le_bytes 4 0x10000101 ++ le_bytes 4 0x80000001 ++ le_bytes 4 5
  ++ le_bytes 4 257 ++ le_bytes 4 1 ++ le_bytes 4 5.

Definition demo_summary : list Z :=
  le_bytes 4 1 ++ le_bytes 4 0 ++ le_bytes 4 0x1001
  ++ le_bytes 4 (foldr Z.add 0 demo_summary_entries) ++ demo_summary_entries.

Definition demo_summary_dev : SimDev := mkSim (list_to_map [
  (0, mk_page (encode_header (demo_header YAFFS2_TYPE_DIR 1 0 [])) (header_tags 0x1001 3 1 1 0));
  (1, mk_page (encode_header (demo_header YAFFS2_TYPE_FILE 1 5 [97])) (header_tags 0x1001 1 257 1 5));
  (2, mk_page demo_data (encode_tags 0x1001 257 1 5));
  (3, mk_page demo_summary (encode_tags 0x1001 0x10 1 52)) ]) None.

Definition demo_scan : SCAN SimDev := mkScan (fresh_volume demo_summary_dev (mkPool [] 2) []) 0 0.

Lemma demo_summary_ids : ids_fit (image demo_summary_dev).
Proof.
  split.
  - intros Block i g Hb Hi Hg.
    destruct (cases_0_1 Block Hb) as [-> | ->];
    destruct (cases_0_3 i Hi) as [-> | [-> | [-> | ->]]];
      vm_compute in Hg; first [discriminate Hg | injection Hg as <-; simpl; lia].
  - intros Block seq e Hb Hs He.
    destruct (cases_0_1 Block Hb) as [-> | ->]; [|by vm_compute in Hs].
    vm_compute in Hs. injection Hs as <-.
    assert (forallb (λ e, t_ObjId (entry_tags 0x1001 e) <? 2 ^ 32 - 65)
              (summary_entries (image demo_summary_dev) 0) = true) as F by (vm_compute; reflexivity).
    apply Z.ltb_lt. exact (proj1 (forallb_forall _ _) F e (proj1 (list_elem_of_In _ _) He)).
Qed.

Lemma summary_equiv_pages_witness :
  ∃ s1 s2, ScanBlockViaSummary 0 demo_scan = Some (true, s1) ∧ ScanBlockPageByPage 0 demo_scan = Some s2 ∧
    vol_Tab (sc_Vol s1) = vol_Tab (sc_Vol s2) ∧ is_Some (v_Objects (vol_Tab (sc_Vol s1)) !! 257).
Proof.
  destruct (summary_equiv_pages 0 0x1001 demo_scan sim_geometry sim_reliable)
    as (s1 & s2 & E1 & E2 & T & P & _).
  - split; [lia|reflexivity].
  - exact demo_summary_ids.
  - apply table_empty_wf.
  - vm_compute. reflexivity.
  - intros i Hi. assert (Hc : i = 0 ∨ i = 1 ∨ i = 2) by (simpl in Hi; lia).
    destruct Hc as [-> | [-> | ->]]; eexists _, _, _;
      (split; [vm_compute; reflexivity|vm_compute; reflexivity]).
  - exists s1, s2. split; [exact E1|]. split; [exact E2|]. split; [exact T|]. rewrite T.
    assert (is_Some (t ← process_events (vol_Tab (sc_Vol demo_scan)) (block_events (image demo_summary_dev) 0);
                     v_Objects t !! 257)) as X by (vm_compute; eauto).
    change (image demo_summary_dev) with (image (vol_Nand (sc_Vol demo_scan))) in X. rewrite P in X. exact X.
Defined.
