(* ===== verification/Yaffs2File.v ===== *)
(** * The file protocol

    Drivers/MtYaffs2Dxe: Open.c, ReadDir.c and Info.c, the operations of
    [EFI_FILE_PROTOCOL] on a mounted volume. A handle is a [YAFFS2_IFILE]; NULL
    pointer arguments are [None]. The caller's buffer is the list of its bytes,
    and a write outside it is a fault. *)

From S2P Require Import Prelude Efi Nand Yaffs2Obj Yaffs2Format Yaffs2Latest Yaffs2Tree Yaffs2Scan.

(** [OFile] is an object id; [DirCursor] is the position in the child list
    ([None] for NULL, the length of the list for its head). *)
Record YAFFS2_IFILE := mkIFile {
  f_Position : Z;
  f_OFile : Z;
  f_DirCursor : option nat
}.

(** The information types of [GetInfo]. *)
Inductive INFORMATION_TYPE :=
  | gEfiFileInfoGuid
  | gEfiFileSystemInfoGuid
  | gEfiFileSystemVolumeLabelInfoIdGuid
  | gOtherGuid (n : Z).

Definition BACKSLASH : Z := 92.
Definition DOT : Z := 46.
Definition PATH8_SIZE : Z := 512.

(** L"MikroTik NAND" *)
Definition YAFFS2_VOLUME_LABEL : list Z :=
  [77; 105; 107; 114; 111; 84; 105; 107; 32; 78; 65; 78; 68].

(** CHAR16 strings in memory, with the final NUL. *)
Definition ucs2_bytes (s : list Z) : list Z :=
  concat (map (le_bytes 2) s) ++ le_bytes 2 0.

Section Code.
Context {D : Type} `{NandFlash D}.
(** [EpochToEfiTime] of EmbeddedPkg: the 16 bytes of an [EFI_TIME]. *)
Variable EpochToEfiTime : Z → list Z.

Definition obj (v : VOLUME D) (id : Z) : option YAFFS2_OBJECT := v_Objects (vol_Tab v) !! id.

Definition vol_set_pool (v : VOLUME D) (p : Pool) : VOLUME D :=
  let t := vol_Tab v in
  vol_set_tab v (mkTable (v_Objects t) (v_Slots t) (v_MaxObjId t) p).

(** ** Open.c *)

Definition Yaffs2AllocateIFile (v : VOLUME D) (OFile : Z)
    : option (option YAFFS2_IFILE * VOLUME D) :=
  let '(ok, pool) := AllocatePool (v_Pool (vol_Tab v)) in
  let v := vol_set_pool v pool in
  if negb ok then Some (None, v)
  else
    o ← obj v OFile;
    Some (Some (mkIFile 0 OFile (if o_Type o =? YAFFS2_TYPE_DIR then Some 0%nat else None)), v).

(** [Depth] iterations are left. [None] inside is the NULL result. *)
Fixpoint ResolveHardlinks (Depth : nat) (v : VOLUME D) (Obj : Z) : option (option Z) :=
  match Depth with
  | O => Some None
  | S Depth' =>
      o ← obj v Obj;
      if negb (o_Type o =? YAFFS2_TYPE_HARDLINK) then Some (Some Obj)
      else if (o_EquivId o =? 0) || (v_MaxObjId (vol_Tab v) <? o_EquivId o)
      then Some None
      else
        slot ← slot_get (vol_Tab v) (o_EquivId o);
        match slot with
        | None => Some None
        | Some target => ResolveHardlinks Depth' v target
        end
  end.

(** The name test of one child against the [CompLen] characters at [p]. *)
Definition name_matches (Name p : list Z) (CompLen : nat) : option bool :=
  r ← AsciiStrnCmp Name p CompLen;
  if negb (r =? 0) then Some false
  else c ← rd Name (Z.of_nat CompLen); Some (c =? 0).

(** The loop over the children: [Found] and the child. *)
Fixpoint find_child (v : VOLUME D) (children : list Z) (p : list Z) (CompLen : nat)
    : option (option Z) :=
  match children with
  | [] => Some None
  | c :: children' =>
      Child ← obj v c;
      m ← name_matches (o_Name Child) p CompLen;
      if m : bool then Some (Some c) else find_child v children' p CompLen
  end.

(** The characters up to the next NUL or separator, and the rest. *)
Fixpoint component (p : list Z) : option (list Z * list Z) :=
  match p with
  | [] => None
  | c :: p' =>
      if (c =? 0) || (c =? BACKSLASH) then Some ([], p)
      else '(a, End) ← component p'; Some (c :: a, End)
  end.

(** One path component: the next object, or [EFI_NOT_FOUND]. *)
Definition enter (v : VOLUME D) (Current : Z) (p : list Z) (CompLen : nat)
    : option (option Z) :=
  cur ← obj v Current;
  c0 ← rd p 0;
  if (Z.of_nat CompLen =? 1) && (c0 =? DOT) then Some (Some Current)
  else
    dotdot ← (if (Z.of_nat CompLen =? 2) && (c0 =? DOT)
              then c1 ← rd p 1; Some (c1 =? DOT) else Some false);
    if dotdot : bool
    then Some (Some (match o_Parent cur with Some q => q | None => Current end))
    else if negb (o_Type cur =? YAFFS2_TYPE_DIR) then Some None
    else
      found ← find_child v (o_ChildHead cur) p CompLen;
      match found with
      | None => Some None
      | Some c => ResolveHardlinks 16 v c
      end.

(** The walk over [Path8]; [p] is the part not yet walked. Every iteration
    moves [p], so the length of the path bounds their number. *)
Fixpoint walk (fuel : nat) (v : VOLUME D) (Current : Z) (p : list Z) : option (option Z) :=
  match fuel with
  | O => None
  | S fuel' =>
      c ← rd p 0;
      if c =? 0 then Some (Some Current)
      else
        '(comp, End) ← component p;
        match comp with
        | [] => walk fuel' v Current (tail End)
        | _ =>
            next ← enter v Current p (length comp);
            match next with
            | None => Some None
            | Some Current =>
                e ← rd End 0;
                walk fuel' v Current (if e =? BACKSLASH then tail End else End)
            end
        end
  end.

(** Where the walk starts: the handle's directory, or that of its file. *)
Definition start_dir (v : VOLUME D) (f : YAFFS2_IFILE) : option (option Z) :=
  o ← obj v (f_OFile f);
  if o_Type o =? YAFFS2_TYPE_DIR then Some (Some (f_OFile f))
  else Some (match o_Parent o with Some q => Some q | None => vol_Root v end).

(** [Path8]: the first [Len + 1] characters, narrowed. *)
Definition narrow_path (FileName : list Z) : option (list Z) :=
  n ← AsciiStrLen FileName;
  let Len := if PATH8_SIZE <=? n then PATH8_SIZE - 1 else n in
  s ← rdn FileName 0 (Len + 1);
  Some (map u8 s).

(** The path walk of [Yaffs2Open]: the object, or nothing for a component that
    is not found. *)
Definition open_object (v : VOLUME D) (f : YAFFS2_IFILE) (FileName : list Z)
    : option (option Z) :=
  Current ← start_dir v f;
  Path8 ← narrow_path FileName;
  c ← rd Path8 0;
  if c =? BACKSLASH
  then Root ← vol_Root v; walk (length Path8) v Root (tail Path8)
  else Start ← Current; walk (length Path8) v Start Path8.

Definition Yaffs2Open (v : VOLUME D) (This : option YAFFS2_IFILE) (NewHandle : bool)
    (FileName : option (list Z)) (OpenMode Attributes : Z)
    : option (EFI_STATUS * option YAFFS2_IFILE * VOLUME D) :=
  match This, NewHandle, FileName with
  | Some f, true, Some FileName =>
      if negb (Z.land OpenMode EFI_FILE_MODE_WRITE =? 0) then Some (EFI_WRITE_PROTECTED, None, v)
      else if negb (Z.land OpenMode EFI_FILE_MODE_CREATE =? 0)
      then Some (EFI_WRITE_PROTECTED, None, v)
      else
        found ← open_object v f FileName;
        match found with
        | None => Some (EFI_NOT_FOUND, None, v)
        | Some id =>
            '(h, v) ← Yaffs2AllocateIFile v id;
            match h with
            | None => Some (EFI_OUT_OF_RESOURCES, None, v)
            | Some h => Some (EFI_SUCCESS, Some h, v)
            end
        end
  | _, _, _ => Some (EFI_INVALID_PARAMETER, None, v)
  end.

Definition Yaffs2Close (v : VOLUME D) (This : option YAFFS2_IFILE) : EFI_STATUS * VOLUME D :=
  match This with
  | None => (EFI_INVALID_PARAMETER, v)
  | Some _ => (EFI_SUCCESS, vol_set_pool v (FreePool (v_Pool (vol_Tab v))))
  end.

Definition Yaffs2Delete (v : VOLUME D) (This : option YAFFS2_IFILE) : EFI_STATUS * VOLUME D :=
  (EFI_WARN_DELETE_FAILURE, (Yaffs2Close v This).2).

(** ** ReadDir.c *)

(** An [EFI_FILE_INFO] as it lies in memory. *)
Definition file_info_bytes (Size FileSize : Z) (Time : list Z) (Attribute : Z)
    (FileName : list Z) : list Z :=
  le_bytes 8 Size ++ le_bytes 8 FileSize ++ le_bytes 8 FileSize
  ++ Time ++ Time ++ Time ++ le_bytes 8 Attribute ++ ucs2_bytes FileName.

(** The record of object [o] under the name [Name]. *)
Definition info_of (o : YAFFS2_OBJECT) (Name : list Z) (InfoSize : Z) : list Z :=
  file_info_bytes InfoSize (o_FileSize o)
    (if negb (o_MTime o =? 0) then EpochToEfiTime (o_MTime o) else replicate 16 0)
    (if o_Type o =? YAFFS2_TYPE_DIR
     then Z.lor EFI_FILE_READ_ONLY EFI_FILE_DIRECTORY else EFI_FILE_READ_ONLY)
    Name.

(** Fill the caller's buffer with [bytes], of which [Needed] must fit. *)
Definition put_info (Needed : Z) (bytes : list Z) (Buffer : option (list Z)) (BufSize : Z)
    : option (EFI_STATUS * option (list Z) * Z) :=
  if BufSize <? Needed then Some (EFI_BUFFER_TOO_SMALL, Buffer, Needed)
  else b ← Buffer; b ← wrn b 0 bytes; Some (EFI_SUCCESS, Some b, Needed).

Definition BuildFileInfo (o : YAFFS2_OBJECT) (Buffer : option (list Z)) (BufSize : Z)
    : option (EFI_STATUS * option (list Z) * Z) :=
  NameLen ← AsciiStrLen (o_Name o);
  let InfoSize := SIZE_OF_EFI_FILE_INFO + (NameLen + 1) * 2 in
  Name ← rdn (o_Name o) 0 NameLen;
  put_info InfoSize (info_of o Name InfoSize) Buffer BufSize.

(** [TempObj]: the link's name with the target's attributes. *)
Definition set_name (o : YAFFS2_OBJECT) (Name : list Z) : YAFFS2_OBJECT :=
  mkObj (o_ObjId o) (o_ParentId o) (o_Type o) Name (o_Mode o) (o_MTime o)
    (o_FileSize o) (o_Alias o) (o_EquivId o) (o_HeaderSeq o) (o_HeaderPage o)
    (o_Parent o) (o_ChildHead o) (o_ChunkCount o) (o_ChunkAlloc o) (o_Chunks o).

(** The object whose record stands for a directory entry. *)
Definition shown_object (v : VOLUME D) (Child : YAFFS2_OBJECT) : option YAFFS2_OBJECT :=
  if o_Type Child =? YAFFS2_TYPE_HARDLINK then
    if (0 <? o_EquivId Child) && (o_EquivId Child <=? v_MaxObjId (vol_Tab v)) then
      slot ← slot_get (vol_Tab v) (o_EquivId Child);
      match slot with
      | None => Some Child
      | Some t => Target ← obj v t; Some (set_name Target (o_Name Child))
      end
    else Some Child
  else Some Child.

(** What a call leaves: status, volume, handle, *BufferSize and the buffer. *)
Definition result : Type :=
  (EFI_STATUS * VOLUME D * YAFFS2_IFILE * Z * option (list Z))%type.

Definition read_dir (v : VOLUME D) (f : YAFFS2_IFILE) (OFile : YAFFS2_OBJECT)
    (BufferSize : Z) (Buffer : option (list Z)) : option result :=
  cursor ← f_DirCursor f;
  match o_ChildHead OFile !! cursor with
  | None => Some (EFI_SUCCESS, v, f, 0, Buffer)
  | Some c =>
      Child ← obj v c;
      o ← shown_object v Child;
      '(Status, Buffer, BufferSize) ← BuildFileInfo o Buffer BufferSize;
      let f := if EFI_ERROR Status then f
               else mkIFile (f_Position f +u64 1) (f_OFile f) (Some (S cursor)) in
      Some (Status, v, f, BufferSize, Buffer)
  end.

(** The part of one chunk that goes to the buffer: (bytes, volume), or
    nothing when the page could not be read. *)
Definition read_chunk (v : VOLUME D) (OFile : YAFFS2_OBJECT) (ChunkIdx Offset CopyLen : Z)
    : option (option (list Z) * VOLUME D) :=
  loc ← (if ChunkIdx <? o_ChunkCount OFile
         then loc ← chunk_get OFile ChunkIdx;
              Some (if negb (c_PageIndex loc =? YAFFS2_CHUNK_UNSET) then Some loc else None)
         else Some None);
  match loc with
  | None => Some (Some (replicate (Z.to_nat CopyLen) 0), v)
  | Some loc =>
      let '(Status, page, d) := ReadPage (c_PageIndex loc) (vol_Nand v) in
      let v := vol_set_page v d page in
      if EFI_ERROR Status then Some (None, v)
      else
        let ValidBytes := if YAFFS2_DATA_PER_PAGE <? c_NBytes loc
                          then YAFFS2_DATA_PER_PAGE else c_NBytes loc in
        if Offset <? ValidBytes then
          let ActualCopy := ValidBytes - Offset in
          let ActualCopy := if CopyLen <? ActualCopy then CopyLen else ActualCopy in
          data ← rdn (vol_PageBuffer v) Offset ActualCopy;
          Some (Some (data ++ replicate (Z.to_nat (CopyLen - ActualCopy)) 0), v)
        else Some (Some (replicate (Z.to_nat CopyLen) 0), v)
  end.

(** The copy loop: whether it ended without a device error on its first
    chunk, the bytes copied, the volume and the buffer. *)
Fixpoint read_loop (fuel : nat) (OFile : YAFFS2_OBJECT) (Position ReadLen BytesCopied : Z)
    (v : VOLUME D) (Buffer : list Z) : option (bool * Z * VOLUME D * list Z) :=
  match fuel with
  | O => None
  | S fuel' =>
      if BytesCopied <? ReadLen then
        let At := Position +u64 BytesCopied in
        let ChunkIdx := u32 (At / YAFFS2_DATA_PER_PAGE) in
        let Offset := u32 (At mod YAFFS2_DATA_PER_PAGE) in
        let CopyLen := YAFFS2_DATA_PER_PAGE - Offset in
        let CopyLen := if ReadLen - BytesCopied <? CopyLen
                       then u32 (ReadLen - BytesCopied) else CopyLen in
        '(data, v) ← read_chunk v OFile ChunkIdx Offset CopyLen;
        match data with
        | None => Some (0 <? BytesCopied, BytesCopied, v, Buffer)
        | Some data =>
            Buffer ← wrn Buffer BytesCopied data;
            read_loop fuel' OFile Position ReadLen (BytesCopied + CopyLen) v Buffer
        end
      else Some (true, BytesCopied, v, Buffer)
  end.

Definition read_file (v : VOLUME D) (f : YAFFS2_IFILE) (OFile : YAFFS2_OBJECT)
    (BufferSize : Z) (Buffer : option (list Z)) : option result :=
  match Buffer with
  | None =>
      if 0 <? BufferSize then Some (EFI_INVALID_PARAMETER, v, f, BufferSize, None)
      else Some (EFI_SUCCESS, v, f, 0, None)
  | Some buf =>
      if o_FileSize OFile <=? f_Position f
      then Some (EFI_SUCCESS, v, f, 0, Some buf)
      else
        let ReadLen := if o_FileSize OFile <? f_Position f +u64 BufferSize
                       then o_FileSize OFile - f_Position f else BufferSize in
        '(ok, BytesCopied, v, buf) ←
          read_loop (S (Z.to_nat ReadLen)) OFile (f_Position f) ReadLen 0 v buf;
        if (ok : bool)
        then Some (EFI_SUCCESS, v,
                   mkIFile (f_Position f +u64 BytesCopied) (f_OFile f) (f_DirCursor f),
                   BytesCopied, Some buf)
        else Some (EFI_DEVICE_ERROR, v, f, BufferSize, Some buf)
  end.

Definition Yaffs2Read (v : VOLUME D) (This : option YAFFS2_IFILE) (BufferSize : option Z)
    (Buffer : option (list Z))
    : option (EFI_STATUS * VOLUME D * option YAFFS2_IFILE * option Z * option (list Z)) :=
  match This, BufferSize with
  | Some f, Some n =>
      OFile ← obj v (f_OFile f);
      '(Status, v, f, n, Buffer) ←
        (if o_Type OFile =? YAFFS2_TYPE_DIR then read_dir v f OFile n Buffer
         else read_file v f OFile n Buffer);
      Some (Status, v, Some f, Some n, Buffer)
  | _, _ => Some (EFI_INVALID_PARAMETER, v, This, BufferSize, Buffer)
  end.

Definition Yaffs2Write (v : VOLUME D) (This : option YAFFS2_IFILE) (BufferSize : option Z)
    (Buffer : option (list Z)) : EFI_STATUS := EFI_WRITE_PROTECTED.

(** The position, when it is stored. *)
Definition Yaffs2GetPosition (v : VOLUME D) (This : option YAFFS2_IFILE) (Position : bool)
    : option (EFI_STATUS * option Z) :=
  match This, Position with
  | Some f, true =>
      o ← obj v (f_OFile f);
      if o_Type o =? YAFFS2_TYPE_DIR then Some (EFI_UNSUPPORTED, None)
      else Some (EFI_SUCCESS, Some (f_Position f))
  | _, _ => Some (EFI_INVALID_PARAMETER, None)
  end.

Definition Yaffs2SetPosition (v : VOLUME D) (This : option YAFFS2_IFILE) (Position : Z)
    : option (EFI_STATUS * option YAFFS2_IFILE) :=
  match This with
  | None => Some (EFI_INVALID_PARAMETER, None)
  | Some f =>
      o ← obj v (f_OFile f);
      if o_Type o =? YAFFS2_TYPE_DIR then
        if negb (Position =? 0) then Some (EFI_UNSUPPORTED, Some f)
        else Some (EFI_SUCCESS, Some (mkIFile 0 (f_OFile f) (Some 0%nat)))
      else if Position =? MAX_UINT64
      then Some (EFI_SUCCESS, Some (mkIFile (o_FileSize o) (f_OFile f) (f_DirCursor f)))
      else Some (EFI_SUCCESS, Some (mkIFile Position (f_OFile f) (f_DirCursor f)))
  end.

Definition Yaffs2Flush (This : option YAFFS2_IFILE) : EFI_STATUS := EFI_SUCCESS.

(** ** Info.c *)

Definition fs_info_bytes (Needed : Z) : list Z :=
  le_bytes 8 Needed ++ [1; 0; 0; 0; 0; 0; 0; 0]
  ++ le_bytes 8 (NumBlocks *u64 PagesPerBlock *u64 YAFFS2_DATA_PER_PAGE)
  ++ le_bytes 8 0 ++ le_bytes 4 YAFFS2_DATA_PER_PAGE ++ ucs2_bytes YAFFS2_VOLUME_LABEL.

Definition Yaffs2GetInfo (v : VOLUME D) (This : option YAFFS2_IFILE)
    (InformationType : option INFORMATION_TYPE) (BufferSize : option Z) (Buffer : option (list Z))
    : option (EFI_STATUS * option (list Z) * option Z) :=
  match This, InformationType, BufferSize with
  | Some f, Some ty, Some n =>
      let LabelLen := len YAFFS2_VOLUME_LABEL in
      OFile ← obj v (f_OFile f);
      r ← match ty with
          | gEfiFileInfoGuid =>
              NameLen ← (if decide (Some (f_OFile f) = vol_Root v) then Some 0
                         else AsciiStrLen (o_Name OFile));
              let Needed := SIZE_OF_EFI_FILE_INFO + (NameLen + 1) * 2 in
              Name ← rdn (o_Name OFile) 0 NameLen;
              put_info Needed (info_of OFile Name Needed) Buffer n
          | gEfiFileSystemInfoGuid =>
              let Needed := SIZE_OF_EFI_FILE_SYSTEM_INFO + (LabelLen + 1) * 2 in
              put_info Needed (fs_info_bytes Needed) Buffer n
          | gEfiFileSystemVolumeLabelInfoIdGuid =>
              let Needed := SIZEOF_EFI_FILE_SYSTEM_VOLUME_LABEL + (LabelLen + 1) * 2 in
              put_info Needed (ucs2_bytes YAFFS2_VOLUME_LABEL) Buffer n
          | gOtherGuid _ => Some (EFI_UNSUPPORTED, Buffer, n)
          end;
      let '(Status, Buffer, n) := r in
      Some (Status, Buffer, Some n)
  | _, _, _ => Some (EFI_INVALID_PARAMETER, Buffer, BufferSize)
  end.

Definition Yaffs2SetInfo (v : VOLUME D) (This : option YAFFS2_IFILE)
    (InformationType : option INFORMATION_TYPE) (BufferSize : Z) (Buffer : option (list Z))
    : EFI_STATUS := EFI_WRITE_PROTECTED.
End Code.

(** ** A mounted volume *)

(** The tree links of the volume lead to objects of the volume. *)
Record volume_ok {D} (v : VOLUME D) : Prop := {
  vok_table : table_wf (vol_Tab v);
  vok_parent id o q : obj v id = Some o → o_Parent o = Some q → is_Some (obj v q);
  vok_child id o c : obj v id = Some o → c ∈ o_ChildHead o → is_Some (obj v c);
  vok_root : ∃ r, vol_Root v = Some r ∧ is_Some (obj v r)
}.

Lemma volume_ok_set_pool {D} (v : VOLUME D) p : volume_ok v → volume_ok (vol_set_pool v p).
Proof.
  intros [Ht Hp Hc Hr]. split; [|exact Hp|exact Hc|exact Hr].
  destruct Ht as [H1 H2 H3]. by split.
Qed.

(** What the scan hands over when it succeeds. *)
Lemma scanned_volume_ok {D} (v : VOLUME D) m n :
  table_wf (vol_Tab v) → (∀ id o, m !! id = Some o → 1 <= id <= n) →
  (∀ id, v_Objects (vol_Tab v) !! id = linked m n id <$> m !! id) →
  root_is_dir v → volume_ok v.
Proof.
  intros Hwf Hm Ho (r & Hr & Hr1 & _).
  assert (Hin : ∀ id, is_Some (obj v id) ↔ is_Some (m !! id))
    by (intros id; unfold obj; rewrite Ho; apply fmap_is_Some).
  split; [done| | |].
  - intros id o q Hid Hq. apply Hin. unfold obj in Hid. rewrite Ho in Hid.
    destruct (m !! id) as [o0|] eqn:Em; [|done]. simpl in Hid. injection Hid as <-.
    simpl in Hq. case_decide; [|done]. by eapply tree_parent_some.
  - intros id o c Hid Hc. apply Hin. unfold obj in Hid. rewrite Ho in Hid.
    destruct (m !! id) as [o0|] eqn:Em; [|done]. simpl in Hid. injection Hid as <-.
    simpl in Hc. apply tree_children_elem in Hc as [_ Hp].
    unfold tree_parent in Hp. destruct (m !! c); [eauto|done].
  - exists 1. split; [done|]. unfold obj. by rewrite Hr1.
Qed.

(** ** Path resolution *)

(** The components of a path: the non-empty parts between separators. *)
Definition emit (w : list Z) : list (list Z) := match w with [] => [] | _ => [w] end.

Fixpoint components_from (w s : list Z) : list (list Z) :=
  match s with
  | [] => emit w
  | c :: s' => if c =? BACKSLASH then emit w ++ components_from [] s'
               else components_from (w ++ [c]) s'
  end.

Definition path_components (s : list Z) : list (list Z) := components_from [] s.

Section Resolve.
Context {D : Type} (v : VOLUME D).

(** The object behind a chain of at most 15 hard links. *)
Fixpoint follow (n : nat) (id : Z) : option Z :=
  match n with
  | O => None
  | S n' => o ← obj v id;
            if o_Type o =? YAFFS2_TYPE_HARDLINK then follow n' (o_EquivId o) else Some id
  end.

Definition has_name (name : list Z) (c : Z) : Prop :=
  match obj v c with Some o => cstr (o_Name o) = name | None => False end.

#[global] Instance has_name_dec name c : Decision (has_name name c).
Proof. unfold has_name. destruct (obj v c); apply _. Defined.

(** The first child of a given name. *)
Definition child_named (o : YAFFS2_OBJECT) (name : list Z) : option Z :=
  head (filter (has_name name) (o_ChildHead o)).

Definition resolve_step (cur : Z) (w : list Z) : option Z :=
  o ← obj v cur;
  if decide (w = [DOT]) then Some cur
  else if decide (w = [DOT; DOT]) then Some (default cur (o_Parent o))
  else if o_Type o =? YAFFS2_TYPE_DIR then c ← child_named o w; follow 16 c
  else None.

Fixpoint resolve (cur : Z) (ws : list (list Z)) : option Z :=
  match ws with
  | [] => Some cur
  | w :: ws' => next ← resolve_step cur w; resolve next ws'
  end.

Definition is_absolute (s : list Z) : bool :=
  match s with c :: _ => c =? BACKSLASH | [] => false end.
End Resolve.

(** *** The walk computes it *)

Lemma components_from_app w u s :
  BACKSLASH ∉ u → components_from w (u ++ s) = components_from (w ++ u) s.
Proof.
  revert w. induction u as [|c u IH]; intros w Hu; simpl; [by rewrite app_nil_r|].
  apply not_elem_of_cons in Hu as [Hc Hu].
  rewrite (proj2 (Z.eqb_neq _ _)) by done. rewrite IH, <- app_assoc by done. done.
Qed.

(** The next component of a NUL-free path and what follows it. *)
Lemma component_split s :
  0 ∉ s → ∃ w s', s = w ++ s' ∧ ~ (BACKSLASH ∈ w) ∧ (s' = [] ∨ (∃ s'', s' = BACKSLASH :: s''))
    ∧ (∀ rest, component (s ++ 0 :: rest) = Some (w, s' ++ 0 :: rest)).
Proof.
  induction s as [|c s IH]; intros H0.
  - exists [], []. split_and!; [done|apply not_elem_of_nil|by left|done].
  - apply not_elem_of_cons in H0 as [Hc H0].
    destruct (decide (c = BACKSLASH)) as [->|Hne].
    + exists [], (BACKSLASH :: s). split_and!; [done|apply not_elem_of_nil|eauto|done].
    + destruct (IH H0) as (w & s' & -> & Hw & Hs' & Hcomp).
      exists (c :: w), s'. split_and!; [done|by apply not_elem_of_cons|done|].
      intros rest. simpl. rewrite (proj2 (Z.eqb_neq c 0)), (proj2 (Z.eqb_neq c BACKSLASH)) by done.
      simpl. rewrite Hcomp. done.
Qed.

Section Walk.
Context {D : Type} (v : VOLUME D).
Hypothesis Hv : volume_ok v.

Lemma obj_id id o : obj v id = Some o → 1 <= id <= v_MaxObjId (vol_Tab v).
Proof. intros Ho. by apply (twf_obj _ (vok_table _ Hv)) in Ho as [? _]. Qed.

Lemma ResolveHardlinks_spec n id :
  is_Some (obj v id) → ResolveHardlinks n v id = Some (follow v n id).
Proof.
  revert id. induction n as [|n IH]; intros id [o Ho]; simpl; [done|]. rewrite Ho. simpl.
  destruct (o_Type o =? YAFFS2_TYPE_HARDLINK); simpl; [|done].
  assert (Hdead : obj v (o_EquivId o) = None → follow v n (o_EquivId o) = None).
  { intros Hn. destruct n; simpl; [done|]. by rewrite Hn. }
  case_b.
  - rewrite Hdead; [done|]. destruct (obj v (o_EquivId o)) eqn:Eo; [|done].
    apply obj_id in Eo. apply orb_true_iff in E as [?|?]; b2p; lia.
  - b2p. pose proof (owf_equiv _ _ (proj2 (twf_obj _ (vok_table _ Hv) _ _ Ho))).
    rewrite slot_get_wf by (apply (vok_table _ Hv) || lia). simpl.
    fold (obj v (o_EquivId o)).
    destruct (obj v (o_EquivId o)) eqn:Eo; [by apply IH; eauto|by rewrite Hdead].
Qed.

Lemma follow_is_Some n id r : follow v n id = Some r → is_Some (obj v r).
Proof.
  revert id. induction n as [|n IH]; intros id; simpl; [done|].
  destruct (obj v id) eqn:Ho; simpl; [|done].
  case_b; [apply IH|]. intros [= <-]. eauto.
Qed.

#[local] Arguments ResolveHardlinks : simpl never.
#[local] Arguments follow : simpl never.

Lemma obj_name id o : obj v id = Some o →
  ∃ n, o_Name o = n ++ [0] ∧ length n = 255%nat.
Proof. intros Ho. apply (owf_name _ _ (proj2 (twf_obj _ (vok_table _ Hv) _ _ Ho))). Qed.

Lemma name_matches_spec name w rest :
  0 ∈ name → 0 ∉ w → w ≠ [] →
  ∃ b, name_matches name (w ++ rest) (length w) = Some b ∧ (b = true ↔ cstr name = w).
Proof.
  intros H0 Hw Hne. unfold name_matches.
  destruct (AsciiStrnCmp_prefix name w rest) as (r & -> & Hr); [done| |done|].
  { apply list.Forall_forall. intros c Hc ->. done. }
  cbn [mbind option_bind]. destruct (Z.eqb_spec r 0) as [E|E]; simpl.
  - apply Hr in E. pose proof (cstr_prefix_nul name H0) as (tl & Htl).
    destruct (decide (cstr name = w)) as [He|He].
    + exists true. split; [|done].
      assert (Hrd : rd (cstr name ++ 0 :: tl) (len w) = Some 0)
        by (rewrite He, rd_app_r, Z.sub_diag by lia; done).
      rewrite <- Htl in Hrd. by rewrite Hrd.
    + assert (Hlt : (length w < length (cstr name))%nat).
      { apply (f_equal length) in E as Hl. rewrite length_take in Hl.
        destruct (decide (length w < length (cstr name))%nat); [done|].
        rewrite take_ge in E by lia. done. }
      destruct (rd_in_range (cstr name) (len w)) as [c Hc]; [lia|].
      assert (Hrd : rd (cstr name ++ 0 :: tl) (len w) = Some c)
        by (by rewrite rd_app_l by lia).
      rewrite <- Htl in Hrd. exists false. rewrite Hrd. simpl.
      pose proof (cstr_nonzero name c (rd_in _ _ _ Hc)).
      rewrite (proj2 (Z.eqb_neq c 0)) by done. done.
  - exists false. split; [done|]. split; [done|]. intros Hx. exfalso. apply E, Hr.
    rewrite Hx. by apply take_ge.
Qed.

Lemma find_child_spec cs w rest :
  (∀ c, c ∈ cs → is_Some (obj v c)) → 0 ∉ w → w ≠ [] →
  find_child v cs (w ++ rest) (length w) = Some (head (filter (has_name v w) cs)).
Proof.
  intros Hcs Hw Hne. induction cs as [|c cs IH]; simpl; [done|].
  destruct (Hcs c) as [o Ho]; [by left|]. rewrite Ho. cbn [mbind option_bind].
  destruct (obj_name _ _ Ho) as (n & Hn & _).
  destruct (name_matches_spec (o_Name o) w rest) as (b & -> & Hb);
    [rewrite Hn; apply elem_of_app; right; by left|done|done|].
  cbn [mbind option_bind]. rewrite list.filter_cons.
  assert (Hhn : has_name v w c ↔ b = true) by (unfold has_name; rewrite Ho; tauto).
  destruct b.
  - by rewrite decide_True by tauto.
  - rewrite decide_False by (rewrite Hhn; done). apply IH. intros c' Hc'. apply Hcs. by right.
Qed.

Lemma resolve_step_is_Some cur w r : resolve_step v cur w = Some r → is_Some (obj v r).
Proof.
  unfold resolve_step. intros Hr. apply bind_Some in Hr as (o & Ho & Hr).
  destruct (decide (w = [DOT])); [simplify_eq; eauto|].
  destruct (decide (w = [DOT; DOT])).
  - destruct (o_Parent o) eqn:Ep; simpl in Hr; simplify_eq; eauto.
    by eapply (vok_parent _ Hv).
  - destruct (o_Type o =? YAFFS2_TYPE_DIR); [|done].
    apply bind_Some in Hr as (c & _ & Hr). by eapply follow_is_Some.
Qed.

Lemma resolve_is_Some cur ws r :
  is_Some (obj v cur) → resolve v cur ws = Some r → is_Some (obj v r).
Proof.
  revert cur. induction ws as [|w ws IH]; intros cur Hc Hr; simpl in Hr; [by simplify_eq|].
  apply bind_Some in Hr as (next & Hn & Hr). eapply IH; [|exact Hr].
  by eapply resolve_step_is_Some.
Qed.

Lemma enter_spec cur w rest :
  is_Some (obj v cur) → 0 ∉ w → w ≠ [] →
  enter v cur (w ++ rest) (length w) = Some (resolve_step v cur w).
Proof.
  intros [o Ho] Hw Hne. unfold enter, resolve_step. rewrite Ho. cbn [mbind option_bind].
  destruct w as [|c0 w]; [done|]. simpl ((c0 :: w) ++ rest).
  change (rd (c0 :: w ++ rest) 0) with (Some c0). cbn [mbind option_bind].
  assert (H1 : ((Z.of_nat (length (c0 :: w)) =? 1) && (c0 =? DOT)) = bool_decide (c0 :: w = [DOT])).
  { destruct w as [|c1 w]; [|rewrite (proj2 (Z.eqb_neq _ 1)) by (simpl; lia);
                             by rewrite bool_decide_eq_false_2 by congruence].
    change (Z.of_nat (length [c0]) =? 1) with true. simpl andb.
    destruct (Z.eqb_spec c0 DOT); symmetry; [by apply bool_decide_eq_true_2; subst|].
    apply bool_decide_eq_false_2. congruence. }
  rewrite H1. destruct (decide (c0 :: w = [DOT])) as [E1|E1];
    [by rewrite bool_decide_eq_true_2|rewrite bool_decide_eq_false_2 by done].
  assert (H2 : (if (Z.of_nat (length (c0 :: w)) =? 2) && (c0 =? DOT)
                then c1 ← rd (c0 :: w ++ rest) 1; Some (c1 =? DOT) else Some false)
               = Some (bool_decide (c0 :: w = [DOT; DOT]))).
  { destruct w as [|c1 [|c2 w]]; [by rewrite bool_decide_eq_false_2 by congruence| |].
    - change (Z.of_nat (length [c0; c1]) =? 2) with true. simpl.
      destruct (Z.eqb_spec c0 DOT); simpl;
        [|by rewrite bool_decide_eq_false_2 by congruence].
      f_equal. destruct (Z.eqb_spec c1 DOT); symmetry;
        [apply bool_decide_eq_true_2|apply bool_decide_eq_false_2]; congruence.
    - rewrite (proj2 (Z.eqb_neq _ 2)) by (simpl; lia). simpl.
      by rewrite bool_decide_eq_false_2 by congruence. }
  rewrite H2. cbn [mbind option_bind]. destruct (decide (c0 :: w = [DOT; DOT])) as [E2|E2].
  { rewrite bool_decide_eq_true_2 by done. by destruct (o_Parent o). }
  rewrite bool_decide_eq_false_2 by done. destruct (o_Type o =? YAFFS2_TYPE_DIR); simpl; [|done].
  pose proof (find_child_spec (o_ChildHead o) (c0 :: w) rest (λ c, vok_child _ Hv cur o c Ho) Hw Hne)
    as Hf. simpl in Hf. rewrite Hf. cbn [mbind option_bind].
  unfold child_named. destruct (head _) as [c|] eqn:Eh; [|done]. cbn [mbind option_bind].
  apply ResolveHardlinks_spec.
  apply head_Some_elem_of, list_elem_of_filter in Eh as [_ Hc]. by eapply (vok_child _ Hv).
Qed.

Lemma walk_spec fuel cur s rest :
  0 ∉ s → (length s < fuel)%nat → is_Some (obj v cur) →
  walk fuel v cur (s ++ 0 :: rest) = Some (resolve v cur (path_components s)).
Proof.
  revert cur s. induction fuel as [|fuel IH]; intros cur s H0 Hl Hc; [lia|]. cbn [walk].
  destruct s as [|c s]; [done|].
  change (rd ((c :: s) ++ 0 :: rest) 0) with (Some c). cbn [mbind option_bind].
  rewrite (proj2 (Z.eqb_neq c 0)) by set_solver.
  destruct (component_split (c :: s) H0) as (w & s' & Es & Hw & Hs' & ->).
  cbn [mbind option_bind]. rewrite Es in *.
  assert (Hw0 : 0 ∉ w) by set_solver. assert (Hs0 : 0 ∉ s') by set_solver.
  rewrite length_app in Hl.
  assert (Hcomp : path_components (w ++ s') =
    emit w ++ match s' with [] => [] | _ :: s'' => path_components s'' end).
  { unfold path_components. rewrite components_from_app by done. simpl.
    destruct Hs' as [->|[s'' ->]]; simpl; [by rewrite app_nil_r|]. done. }
  rewrite Hcomp. destruct w as [|c0 w].
  - destruct Hs' as [->|[s'' ->]]; [done|]. simpl. simpl in Hl. apply IH; [set_solver|lia|done].
  - set (w1 := c0 :: w) in *. rewrite <- (app_assoc w1).
    rewrite enter_spec by done. cbn [mbind option_bind emit app].
    change (emit w1 ++ ?x) with (w1 :: x). cbn [resolve].
    destruct (resolve_step v cur w1) as [next|] eqn:En; [|done]. cbn [mbind option_bind].
    assert (Hn : is_Some (obj v next)) by by eapply resolve_step_is_Some.
    destruct Hs' as [->|[s'' ->]].
    + change (rd ([] ++ 0 :: rest) 0) with (Some 0). cbn [mbind option_bind].
      change (0 =? BACKSLASH) with false. cbn match. rewrite (IH next []); [done|set_solver| |done].
      simpl in *. lia.
    + change (rd ((BACKSLASH :: s'') ++ 0 :: rest) 0) with (Some BACKSLASH).
      cbn [mbind option_bind]. rewrite Z.eqb_refl. simpl tail.
      apply IH; [set_solver|simpl in *; lia|done].
Qed.
End Walk.

(** The object a path is resolved from. *)
Definition start_object {D} (v : VOLUME D) (f : YAFFS2_IFILE) (s : list Z) : option Z :=
  if is_absolute s then vol_Root v
  else
    o ← obj v (f_OFile f);
    if o_Type o =? YAFFS2_TYPE_DIR then Some (f_OFile f)
    else match o_Parent o with Some q => Some q | None => vol_Root v end.

(** A fresh handle on an object. *)
Definition handle_on {D} (v : VOLUME D) (id : Z) : YAFFS2_IFILE :=
  mkIFile 0 id (match obj v id with
                | Some o => if o_Type o =? YAFFS2_TYPE_DIR then Some 0%nat else None
                | None => None end).

Definition path_ok (s : list Z) : Prop := Forall (λ c, 1 <= c < 256) s ∧ len s < PATH8_SIZE.

Lemma narrow_path_ok s : path_ok s → narrow_path (s ++ [0]) = Some (s ++ [0]).
Proof.
  intros [Hs Hl]. unfold narrow_path.
  rewrite AsciiStrLen_cstr by (apply elem_of_app; right; by left).
  rewrite cstr_app_0 by done. cbn [mbind option_bind].
  rewrite (proj2 (Z.leb_gt _ _)) by done.
  rewrite rdn_eq by (rewrite ?length_app; simpl; lia).
  change (Z.to_nat 0) with O. rewrite drop_0. rewrite take_ge by (rewrite length_app; simpl; lia).
  cbn [mbind option_bind]. f_equal. rewrite map_app. f_equal.
  rewrite <- (map_id s) at 2. apply map_ext_in. intros c Hc.
  apply u8_small. apply list_elem_of_In in Hc. rewrite list.Forall_forall in Hs.
  pose proof (Hs c Hc). lia.
Qed.

Lemma AllocateIFile_spec {D} (v : VOLUME D) id :
  is_Some (obj v id) →
  ∃ h v', Yaffs2AllocateIFile v id = Some (h, v')
    ∧ (h = None ∧ v_Pool (vol_Tab v') = mkPool (pool_script (v_Pool (vol_Tab v'))) (pool_live (v_Pool (vol_Tab v)))
       ∨ h = Some (handle_on v id)
         ∧ pool_live (v_Pool (vol_Tab v')) = pool_live (v_Pool (vol_Tab v)) + 1)
    ∧ v' = vol_set_pool v (v_Pool (vol_Tab v'))
    ∧ (pool_plenty (v_Pool (vol_Tab v)) → h = Some (handle_on v id)).
Proof.
  intros [o Ho]. unfold Yaffs2AllocateIFile, handle_on. rewrite Ho.
  destruct (AllocatePool (v_Pool (vol_Tab v))) as [ok p] eqn:Ep.
  pose proof (AllocatePool_live _ _ _ Ep) as Hl.
  destruct ok; simpl.
  - unfold obj in *. simpl. rewrite Ho. simpl. eexists _, _. split; [done|]. simpl. auto.
  - eexists _, _. split; [done|]. simpl. split; [left|split; [done|]].
    + split; [done|]. destruct p as [sc li]; simpl in *. f_equal. lia.
    + intros Hp. rewrite AllocatePool_plenty in Ep by done. done.
Qed.

Lemma open_object_spec {D} (v : VOLUME D) f s start :
  volume_ok v → path_ok s → start_object v f s = Some start → is_Some (obj v start) →
  is_Some (obj v (f_OFile f)) →
  open_object v f (s ++ [0]) = Some (resolve v start (path_components s)).
Proof.
  intros Hv Hs Hstart Hso [fo Hfo]. unfold open_object, start_dir, start_object in *.
  rewrite Hfo in *. rewrite narrow_path_ok by done. destruct Hs as [Hs Hl].
  assert (H0 : 0 ∉ s).
  { intros Hin. rewrite list.Forall_forall in Hs. pose proof (Hs _ Hin). lia. }
  cbn [mbind option_bind] in *.
  assert (Hdir : is_absolute s = false →
    (if o_Type fo =? YAFFS2_TYPE_DIR then Some (Some (f_OFile f))
     else Some match o_Parent fo with Some q => Some q | None => vol_Root v end)
    = Some (Some start)).
  { intros Ha. rewrite Ha in Hstart. destruct (o_Type fo =? _); by rewrite <- Hstart. }
  destruct s as [|c s].
  { by rewrite Hdir by done. }
  change (rd ((c :: s) ++ [0]) 0) with (Some c). rewrite length_app.
  cbn [mbind option_bind is_absolute] in *. destruct (Z.eqb_spec c BACKSLASH) as [->|Hne].
  - rewrite Hstart. destruct (o_Type fo =? _); cbn [mbind option_bind];
      apply (walk_spec v Hv _ start s []); try done; first [set_solver | simpl; lia].
  - rewrite Hdir by done. cbn [mbind option_bind].
    apply (walk_spec v Hv); [done|simpl; lia|done].
Qed.

Lemma Open_run {D} (v : VOLUME D) f s start mode attrs :
  volume_ok v → path_ok s → start_object v f s = Some start → is_Some (obj v start) →
  is_Some (obj v (f_OFile f)) →
  Z.land mode EFI_FILE_MODE_WRITE = 0 → Z.land mode EFI_FILE_MODE_CREATE = 0 →
  match resolve v start (path_components s) with
  | None => Yaffs2Open v (Some f) true (Some (s ++ [0])) mode attrs = Some (EFI_NOT_FOUND, None, v)
  | Some id =>
      ∃ st h v', Yaffs2Open v (Some f) true (Some (s ++ [0])) mode attrs = Some (st, h, v')
        ∧ (st = EFI_SUCCESS ∧ h = Some (handle_on v id) ∨ st = EFI_OUT_OF_RESOURCES ∧ h = None)
        ∧ v' = vol_set_pool v (v_Pool (vol_Tab v'))
        ∧ (pool_plenty (v_Pool (vol_Tab v)) → st = EFI_SUCCESS)
  end.
Proof.
  intros Hv Hs Hstart Hso Hf Hw Hc. unfold Yaffs2Open. rewrite Hw, Hc. cbn [negb Z.eqb].
  rewrite (open_object_spec v f s start) by done. cbn [mbind option_bind].
  destruct (resolve v start _) as [id|] eqn:Er; [|done].
  destruct (AllocateIFile_spec v id) as (h & v' & -> & Hcase & Hv' & Hp).
  { by apply (resolve_is_Some v Hv start _ id Hso Er). }
  cbn [mbind option_bind]. destruct h as [h|].
  - destruct Hcase as [[? _]|[? _]]; [done|]. eexists _, _, _. split; [done|]. auto.
  - eexists _, _, _. split; [done|]. split; [auto|]. split; [done|]. intros Hpl.
    discriminate (Hp Hpl).
Qed.


Lemma component_runs_off l :
  Forall (λ c, u8 c ≠ 0 ∧ u8 c ≠ BACKSLASH) l → component (map u8 l) = None.
Proof.
  induction 1 as [|c l [H0 H1] Hl IH]; simpl; [done|].
  rewrite (proj2 (Z.eqb_neq _ 0)), (proj2 (Z.eqb_neq _ BACKSLASH)) by done. simpl.
  by rewrite IH.
Qed.

(** Paths the 512-byte [Path8] cannot hold: for a path of 512 characters
    or more whose first 512 hold neither a separator nor a character with a zero
    low byte, [Yaffs2Open] runs off the end of [Path8], which the truncated copy
    leaves without a terminator. *)
Theorem Open_long_path_faults {D} (v : VOLUME D) f s mode attrs :
  volume_ok v → is_Some (obj v (f_OFile f)) → PATH8_SIZE <= len s →
  Forall (λ c, c ≠ 0) s → Forall (λ c, u8 c ≠ 0 ∧ u8 c ≠ BACKSLASH) (take 512 s) →
  Z.land mode EFI_FILE_MODE_WRITE = 0 → Z.land mode EFI_FILE_MODE_CREATE = 0 →
  Yaffs2Open v (Some f) true (Some (s ++ [0])) mode attrs = None.
Proof.
  intros Hv [fo Hfo] Hl Hnz Hs Hw Hc. unfold Yaffs2Open. rewrite Hw, Hc. cbn [negb Z.eqb].
  assert (Hn : narrow_path (s ++ [0]) = Some (map u8 (take 512 s))).
  { unfold narrow_path.
    assert (Hlen : ∀ l, Forall (λ c, c ≠ 0) l → AsciiStrLen (l ++ [0]) = Some (len l)).
    { induction 1 as [|c l Hc0 Hl0 IH]; simpl; [done|].
      rewrite (proj2 (Z.eqb_neq c 0)), IH by done. simpl. f_equal. lia. }
    rewrite Hlen by done. cbn [mbind option_bind].
    rewrite (proj2 (Z.leb_le _ _)) by done. unfold PATH8_SIZE in *.
    rewrite rdn_app_0 by lia. done. }
  assert (Hcomp : component (map u8 (take 512 s)) = None) by by apply component_runs_off.
  unfold open_object, start_dir. rewrite Hfo, Hn. cbn [mbind option_bind].
  destruct (take 512 s) as [|c l] eqn:El.
  { apply (f_equal length) in El. rewrite length_take in El. unfold PATH8_SIZE in Hl.
    change (length (@nil Z)) with O in El. lia. }
  apply List.Forall_cons_iff in Hs as [[H0 H1] _].
  assert (Hwalk : ∀ cur n, walk (S n) v cur (map u8 (c :: l)) = None).
  { intros cur n. cbn [walk]. change (rd (map u8 (c :: l)) 0) with (Some (u8 c)).
    cbn [mbind option_bind]. rewrite (proj2 (Z.eqb_neq _ 0)) by done. by rewrite Hcomp. }
  change (rd (map u8 (c :: l)) 0) with (Some (u8 c)). cbn [mbind option_bind].
  rewrite (proj2 (Z.eqb_neq _ BACKSLASH)) by done. simpl length.
  case_b; cbn [mbind option_bind]; [by rewrite Hwalk|].
  destruct (match o_Parent fo with Some q => Some q | None => vol_Root v end);
    cbn [mbind option_bind]; [by rewrite Hwalk|done].
Qed.

(** ** Reading *)

(** The byte of a file at offset [i], from the flash image. *)
Definition file_byte (img : Z → list Z) (o : YAFFS2_OBJECT) (i : Z) : Z :=
  match o_Chunks o !! (i / YAFFS2_DATA_PER_PAGE) with
  | Some loc =>
      let off := i mod YAFFS2_DATA_PER_PAGE in
      if off <? Z.min (c_NBytes loc) YAFFS2_DATA_PER_PAGE
      then default 0 (rd (img (c_PageIndex loc)) off) else 0
  | None => 0
  end.

Definition file_bytes (img : Z → list Z) (o : YAFFS2_OBJECT) (pos n : Z) : list Z :=
  map (file_byte img o) (seqZ pos n).

Lemma length_file_bytes img o pos n : length (file_bytes img o pos n) = Z.to_nat n.
Proof. unfold file_bytes. by rewrite length_map, length_seqZ. Qed.

Lemma file_bytes_app img o pos a b :
  0 <= a → 0 <= b →
  file_bytes img o pos a ++ file_bytes img o (pos + a) b = file_bytes img o pos (a + b).
Proof. intros. unfold file_bytes. rewrite <- map_app. by rewrite seqZ_app by lia. Qed.

Lemma file_bytes_lookup img o pos n i :
  (i < Z.to_nat n)%nat → file_bytes img o pos n !! i = Some (file_byte img o (pos + Z.of_nat i)).
Proof.
  intros Hi. unfold file_bytes. rewrite list_lookup_fmap.
  rewrite (lookup_seqZ_lt pos n i) by lia. done.
Qed.

(** Replacing the middle of a list. *)
Definition splice (l : list Z) (off : Z) (data : list Z) : list Z :=
  take (Z.to_nat off) l ++ data ++ drop (Z.to_nat off + length data) l.

Lemma splice_nil l off : splice l off [] = l.
Proof. unfold splice. simpl. by rewrite Nat.add_0_r, take_drop. Qed.

Lemma splice_splice l off a b :
  0 <= off → off + len a <= len l →
  splice (splice l off a) (off + len a) b = splice l off (a ++ b).
Proof.
  intros Ho Hl. unfold splice. set (l1 := take (Z.to_nat off) l).
  set (l3 := drop (Z.to_nat off + length a) l).
  assert (H1 : length l1 = Z.to_nat off) by (unfold l1; rewrite length_take; lia).
  replace (Z.to_nat (off + len a)) with (length (l1 ++ a)) by (rewrite length_app; lia).
  rewrite (app_assoc l1 a l3), take_app_length, drop_app_add, <- !app_assoc.
  do 3 f_equal. unfold l3. rewrite drop_drop, length_app. f_equal. lia.
Qed.

Section Read.
Context {D : Type} `{NandLaws D} (img : Z → list Z).
Hypothesis Hgeo : geometry_ok D.
Hypothesis img_length : ∀ p, length (img p) = Z.to_nat PageSize.

(** The chunk locations of an object are pages of the flash. *)
Definition chunks_on_flash (o : YAFFS2_OBJECT) : Prop :=
  ∀ i c, o_Chunks o !! i = Some c → page_ok (D := D) (c_PageIndex c) ∧ 0 <= c_NBytes c.

(** Two volumes that differ in the device state and the page buffer only. *)
Definition same_volume (v v' : VOLUME D) : Prop :=
  vol_Tab v' = vol_Tab v ∧ vol_Root v' = vol_Root v.

Context (o : YAFFS2_OBJECT) (id : Z).
Hypothesis Hwf : object_wf id o.
Hypothesis Hchunks : chunks_on_flash o.

Lemma chunk_bytes_absent i off n :
  o_Chunks o !! i = None → 0 <= off → 0 <= n → off + n <= YAFFS2_DATA_PER_PAGE →
  file_bytes img o (i * YAFFS2_DATA_PER_PAGE + off) n = replicate (Z.to_nat n) 0.
Proof.
  unfold YAFFS2_DATA_PER_PAGE. intros Hi Ho Hn Hl. apply list_eq. intros k.
  destruct (decide (k < Z.to_nat n)%nat) as [Hk|Hk].
  - rewrite file_bytes_lookup, lookup_replicate_2 by done. f_equal.
    unfold file_byte, YAFFS2_DATA_PER_PAGE.
    replace ((i * 2032 + off + Z.of_nat k) / 2032) with i
      by (apply Z.div_unique with (off + Z.of_nat k); lia).
    by rewrite Hi.
  - rewrite lookup_ge_None_2 by (rewrite length_file_bytes; lia).
    symmetry. apply lookup_ge_None_2. rewrite length_replicate. lia.
Qed.

Lemma chunk_bytes_present i loc off n valid m :
  o_Chunks o !! i = Some loc → 0 <= off → 0 <= n → off + n <= YAFFS2_DATA_PER_PAGE →
  valid = Z.min (c_NBytes loc) YAFFS2_DATA_PER_PAGE →
  m = Z.max 0 (Z.min n (valid - off)) →
  file_bytes img o (i * YAFFS2_DATA_PER_PAGE + off) n =
    take (Z.to_nat m) (drop (Z.to_nat off) (img (c_PageIndex loc)))
    ++ replicate (Z.to_nat (n - m)) 0.
Proof.
  unfold YAFFS2_DATA_PER_PAGE. intros Hi Ho Hn Hl Hvalid Hm. pose proof (geo_page D Hgeo).
  set (page := img (c_PageIndex loc)).
  assert (Hpl : len page = PageSize) by (unfold page; rewrite img_length; lia).
  assert (Hlt : length (take (Z.to_nat m) (drop (Z.to_nat off) page)) = Z.to_nat m)
    by (rewrite length_take, length_drop; lia).
  apply list_eq. intros k. destruct (decide (k < Z.to_nat n)%nat) as [Hk|Hk].
  - rewrite file_bytes_lookup by done. unfold file_byte, YAFFS2_DATA_PER_PAGE.
    replace ((i * 2032 + off + Z.of_nat k) / 2032) with i
      by (apply Z.div_unique with (off + Z.of_nat k); lia).
    replace ((i * 2032 + off + Z.of_nat k) mod 2032) with (off + Z.of_nat k)
      by (apply Z.mod_unique with i; lia).
    rewrite Hi. rewrite <- Hvalid. fold page. destruct (Z.ltb_spec (off + Z.of_nat k) valid).
    + rewrite lookup_app_l by lia. rewrite lookup_take_lt, lookup_drop by lia.
      destruct (rd_in_range page (off + Z.of_nat k)) as [b Hb]; [lia|].
      rewrite Hb. simpl. rewrite rd_lookup in Hb by lia. rewrite <- Hb. f_equal. lia.
    + rewrite lookup_app_r by lia. rewrite lookup_replicate_2 by lia. done.
  - rewrite lookup_ge_None_2 by (rewrite length_file_bytes; lia).
    symmetry. apply lookup_ge_None_2. rewrite length_app, length_replicate. lia.
Qed.

Lemma read_chunk_spec v i off n :
  shows img (vol_Nand v) → 0 <= i → 0 <= off → 0 <= n → off + n <= YAFFS2_DATA_PER_PAGE →
  ∃ r v', read_chunk v o i off n = Some (r, v') ∧ same_volume v v' ∧ shows img (vol_Nand v')
    ∧ match r with
      | Some data => data = file_bytes img o (i * YAFFS2_DATA_PER_PAGE + off) n
      | None => ~ nand_reliable D
      end.
Proof.
  intros Hs Hi Hoff Hn Hl. unfold read_chunk. pose proof (geo_page D Hgeo).
  assert (Hz : o_Chunks o !! i = None → ∃ r v',
    Some (Some (replicate (Z.to_nat n) 0), v) = Some (r, v') ∧ same_volume v v'
    ∧ shows img (vol_Nand v') ∧ match r with
      | Some data => data = file_bytes img o (i * YAFFS2_DATA_PER_PAGE + off) n
      | None => ~ nand_reliable D end).
  { intros Hnone. eexists _, _. split; [done|]. split; [done|]. split; [done|].
    by rewrite chunk_bytes_absent. }
  destruct (Z.ltb_spec i (o_ChunkCount o)) as [Hlt|Hge].
  2:{ simpl. apply Hz. destruct (o_Chunks o !! i) eqn:E; [|done].
      apply (owf_chunks _ _ Hwf) in E as [? _]. lia. }
  pose proof (owf_alloc _ _ Hwf). unfold chunk_get.
  rewrite (proj2 (Z.leb_le 0 i)), (proj2 (Z.ltb_lt i (o_ChunkAlloc o))) by lia.
  cbn [andb mbind option_bind]. destruct (o_Chunks o !! i) as [loc|] eqn:E; cbn [default from_option].
  2:{ simpl. by apply Hz. }
  destruct (owf_chunks _ _ Hwf _ _ E) as [_ Hu]. destruct (Hchunks _ _ E) as [Hpage Hnb].
  unfold Datatypes.id. rewrite (proj2 (Z.eqb_neq _ _)) by done. cbn [negb].
  destruct (ReadPage (c_PageIndex loc) (vol_Nand v)) as [[st page] d] eqn:Er.
  destruct (ReadPage_spec _ _ _ _ _ Er) as (Himg & _ & Hbuf).
  assert (Hs' : shows img d) by (intros q; rewrite Himg; apply Hs).
  destruct (EFI_ERROR st) eqn:Est.
  { eexists None, _. split; [done|]. split; [done|]. split; [done|]. intros Hrel.
    pose proof (rel_page D Hrel _ (vol_Nand v) Hpage) as Hx. rewrite Er in Hx. simpl in Hx.
    congruence. }
  specialize (Hbuf eq_refl). rewrite Hs in Hbuf. subst page.
  pose proof (chunk_bytes_present i loc off n _ _ E Hoff Hn Hl eq_refl eq_refl) as Hb.
  assert (Hv : (if YAFFS2_DATA_PER_PAGE <? c_NBytes loc then YAFFS2_DATA_PER_PAGE
                else c_NBytes loc) = Z.min (c_NBytes loc) YAFFS2_DATA_PER_PAGE)
    by (case_b; b2p; lia).
  cbv zeta. rewrite Hv. set (valid := Z.min (c_NBytes loc) YAFFS2_DATA_PER_PAGE) in *.
  destruct (Z.ltb_spec off valid) as [Ho|Ho].
  - assert (Ha : (if n <? valid - off then n else valid - off) = Z.max 0 (Z.min n (valid - off)))
      by (case_b; b2p; lia).
    rewrite Ha. set (m := Z.max _ _) in *. simpl vol_PageBuffer.
    rewrite rdn_eq by (rewrite ?img_length; unfold YAFFS2_DATA_PER_PAGE in *; lia).
    cbn [mbind option_bind]. eexists _, _. split; [done|]. split; [done|]. split; [done|].
    by rewrite Hb.
  - eexists _, _. split; [done|]. split; [done|]. split; [done|]. rewrite Hb.
    replace (Z.max 0 (Z.min n (valid - off))) with 0 by lia. simpl. by rewrite Z.sub_0_r.
Qed.

Lemma same_volume_trans v1 v2 v3 :
  same_volume v1 v2 → same_volume v2 v3 → same_volume v1 v3.
Proof. unfold same_volume. intros [? ?] [? ?]. split; congruence. Qed.

(** The chunk index is computed in 32 bits, exact for offsets below this. *)
Definition MAX_FILE : Z := YAFFS2_DATA_PER_PAGE * 2 ^ 32.

(** One round of the loop ends at a chunk boundary or at the end. *)
Lemma read_split at_ rest :
  0 <= at_ < MAX_FILE → 0 < rest →
  let i := u32 (at_ / YAFFS2_DATA_PER_PAGE) in
  let off := u32 (at_ mod YAFFS2_DATA_PER_PAGE) in
  let c := YAFFS2_DATA_PER_PAGE - off in
  let n := if rest <? c then u32 rest else c in
  0 <= i ∧ 0 <= off ∧ 1 <= n <= rest ∧ off + n <= YAFFS2_DATA_PER_PAGE
  ∧ i * YAFFS2_DATA_PER_PAGE + off = at_.
Proof.
  unfold MAX_FILE, YAFFS2_DATA_PER_PAGE. intros Ha Hr. cbv zeta.
  pose proof (Z.mod_pos_bound at_ 2032). pose proof (Z.div_mod at_ 2032).
  assert (0 <= at_ / 2032 < 2 ^ 32)
    by (split; [apply Z.div_pos|apply Z.div_lt_upper_bound]; lia).
  rewrite (u32_small (at_ / 2032)), (u32_small (at_ mod 2032)) by lia.
  case_b; b2p; [rewrite u32_small by lia|]; lia.
Qed.

Lemma read_loop_spec fuel pos want b v B :
  shows img (vol_Nand v) → 0 <= pos → 0 <= b <= want → pos + want <= MAX_FILE →
  want <= len B → want - b < Z.of_nat fuel →
  ∃ ok b' v' , read_loop fuel o pos want b v B
      = Some (ok, b', v', splice B b (file_bytes img o (pos + b) (b' - b)))
    ∧ same_volume v v' ∧ shows img (vol_Nand v') ∧ b <= b' <= want
    ∧ (ok = false → b' = 0) ∧ (nand_reliable D → ok = true ∧ b' = want)
    ∧ (b' = want → 0 < want → ok = true).
Proof.
  revert b v B. induction fuel as [|fuel IH]; intros b v B Hs Hp Hb Hmax HB Hf; [lia|].
  cbn [read_loop]. destruct (Z.ltb_spec b want) as [Hlt|Hge].
  2:{ exists true, b, v. rewrite Z.sub_diag. unfold file_bytes. simpl. rewrite splice_nil.
      split; [done|]. split; [done|]. split; [done|]. split; [lia|].
      split; [done|]. split; [lia|done]. }
  unfold MAX_FILE, YAFFS2_DATA_PER_PAGE in Hmax. rewrite (u64_small (pos + b)) by lia.
  cbv zeta.
  destruct (read_split (pos + b) (want - b)) as (Hi & Hoff & Hn & Hon & Hat);
    [unfold MAX_FILE, YAFFS2_DATA_PER_PAGE; lia|lia|].
  cbv zeta in Hi, Hoff, Hn, Hon, Hat.
  set (i := u32 ((pos + b) / YAFFS2_DATA_PER_PAGE)) in *.
  set (off := u32 ((pos + b) mod YAFFS2_DATA_PER_PAGE)) in *.
  set (n := if want - b <? YAFFS2_DATA_PER_PAGE - off then _ else _) in *.
  destruct (read_chunk_spec v i off n Hs Hi Hoff) as (r & v1 & -> & Hv1 & Hs1 & Hr); [lia..|].
  cbn [mbind option_bind]. destruct r as [data|].
  2:{ exists (0 <? b), b, v1. rewrite Z.sub_diag. unfold file_bytes. simpl. rewrite splice_nil.
      split; [done|]. split; [done|]. split; [done|]. split; [lia|].
      split; [intros ?; b2p; lia|]. split; [done|intros; lia]. }
  rewrite Hat in Hr. subst data.
  assert (Hdl : len (file_bytes img o (pos + b) n) = n) by (rewrite length_file_bytes; lia).
  rewrite wrn_eq by lia. cbn [mbind option_bind].
  fold (splice B b (file_bytes img o (pos + b) n)).
  set (B1 := splice B b _).
  assert (HB1 : len B1 = len B)
    by (unfold B1, splice; rewrite !length_app, length_take, length_drop; lia).
  destruct (IH (b + n) v1 B1) as (ok & b' & v' & E & Hv' & Hs' & Hb' & H1 & H2 & H3);
    [done|done|lia|unfold MAX_FILE, YAFFS2_DATA_PER_PAGE; lia|lia|lia|].
  exists ok, b', v'. rewrite E. split_and!; try done; try lia.
  - do 2 f_equal. unfold B1. rewrite <- Hdl at 2. rewrite splice_splice by lia.
    f_equal. rewrite Z.add_assoc, file_bytes_app by lia. f_equal. lia.
  - by eapply same_volume_trans.
Qed.
End Read.

(** What a read of [n] bytes at [pos] can deliver. *)
Definition readable (o : YAFFS2_OBJECT) (pos n : Z) : Z := Z.max 0 (Z.min n (o_FileSize o - pos)).

Lemma Read_file_run {D} `{NandLaws D} Epoch (v : VOLUME D) f o n buf :
  geometry_ok D → obj v (f_OFile f) = Some o → object_wf (f_OFile f) o →
  chunks_on_flash (D := D) o → o_Type o ≠ YAFFS2_TYPE_DIR → o_FileSize o <= MAX_FILE →
  0 <= f_Position f → 0 <= n <= len buf → f_Position f + n < 2 ^ 64 →
  ∃ st v' f' c buf',
    Yaffs2Read Epoch v (Some f) (Some n) (Some buf) = Some (st, v', Some f', Some c, Some buf')
    ∧ same_volume v v' ∧ (∀ q, image (vol_Nand v') q = image (vol_Nand v) q)
    ∧ (st = EFI_SUCCESS ∧ 0 <= c <= readable o (f_Position f) n
       ∧ buf' = splice buf 0 (file_bytes (image (vol_Nand v)) o (f_Position f) c)
       ∧ f' = mkIFile (f_Position f + c) (f_OFile f) (f_DirCursor f)
       ∨ st = EFI_DEVICE_ERROR ∧ f' = f ∧ c = n ∧ buf' = buf)
    ∧ (nand_reliable D → st = EFI_SUCCESS ∧ c = readable o (f_Position f) n).
Proof.
  intros Hgeo Ho Hwf Hch Hty Hmax Hpos Hn H64. unfold readable.
  unfold Yaffs2Read. rewrite Ho. cbn [mbind option_bind].
  rewrite (proj2 (Z.eqb_neq _ _)) by done. unfold read_file.
  set (pos := f_Position f) in *.
  destruct (Z.leb_spec (o_FileSize o) pos) as [Hend|Hmore].
  { eexists _, _, _, _, _. split; [done|]. split; [done|]. split; [done|].
    unfold file_bytes. simpl. rewrite splice_nil. split; [|intros _; split; [done|lia]].
    left. split_and!; try done; try lia. destruct f; simpl in *. by rewrite Z.add_0_r. }
  unfold MAX_FILE, YAFFS2_DATA_PER_PAGE in Hmax.
  rewrite (u64_small (pos + n)) by lia.
  set (want := if o_FileSize o <? pos + n then o_FileSize o - pos else n).
  assert (Hwant : want = Z.max 0 (Z.min n (o_FileSize o - pos)))
    by (unfold want; case_b; b2p; lia).
  destruct (read_loop_spec (image (vol_Nand v)) Hgeo (image_length _) o (f_OFile f) Hwf Hch
              (S (Z.to_nat want)) pos want 0 v buf)
    as (ok & c & v' & E & Hv' & Hs' & Hc & H1 & H2 & _);
    [done|lia|lia|unfold MAX_FILE, YAFFS2_DATA_PER_PAGE; lia|lia|lia|].
  rewrite E. cbn [mbind option_bind]. rewrite Z.add_0_r, Z.sub_0_r, <- Hwant.
  destruct ok; cbn [mbind option_bind].
  - eexists _, _, _, _, _. split; [done|]. split; [done|]. split; [exact Hs'|].
    rewrite u64_small by lia. split; [left; split_and!; try done; lia|].
    intros Hrel. by destruct (H2 Hrel).
  - specialize (H1 eq_refl) as ->. unfold file_bytes. simpl. rewrite splice_nil.
    eexists _, _, _, _, _. split; [done|]. split; [done|]. split; [exact Hs'|].
    split; [right; done|]. intros Hrel. by destruct (H2 Hrel).
Qed.

(** C12: Correctness of [Yaffs2Read] on files: on any NAND driver, a read of [n]
    bytes into a buffer that holds them either succeeds, puts the next [c] bytes
    of the file (the newest chunks' bytes, zeros where a chunk is missing or
    short) at the start of the buffer, leaves the rest of the buffer, advances
    the position by [c] and reports [c], or returns EFI_DEVICE_ERROR with
    nothing changed; without read errors it succeeds with [c] the smaller of
    [n] and what is left of the file. No read changes the flash or the volume. *)
Theorem Read_file_correct {D} `{NandLaws D} Epoch (v : VOLUME D) f o n buf :
  geometry_ok D → obj v (f_OFile f) = Some o → object_wf (f_OFile f) o →
  chunks_on_flash (D := D) o → o_Type o ≠ YAFFS2_TYPE_DIR → o_FileSize o <= MAX_FILE →
  0 <= f_Position f → 0 <= n <= len buf → f_Position f + n < 2 ^ 64 →
  ∃ st v' f' c buf',
    Yaffs2Read Epoch v (Some f) (Some n) (Some buf) = Some (st, v', Some f', Some c, Some buf')
    ∧ same_volume v v' ∧ (∀ q, image (vol_Nand v') q = image (vol_Nand v) q)
    ∧ (st = EFI_SUCCESS ∧ 0 <= c <= readable o (f_Position f) n
       ∧ buf' = splice buf 0 (file_bytes (image (vol_Nand v)) o (f_Position f) c)
       ∧ f' = mkIFile (f_Position f + c) (f_OFile f) (f_DirCursor f)
       ∨ st = EFI_DEVICE_ERROR ∧ f' = f ∧ c = n ∧ buf' = buf)
    ∧ (nand_reliable D → st = EFI_SUCCESS ∧ c = readable o (f_Position f) n).
Proof. by apply Read_file_run. Qed.

(** ** Directory records *)

Section Records.
Context {D : Type} `{NandFlash D} (Epoch : Z → list Z) (v : VOLUME D).
Hypothesis Hv : volume_ok v.
Hypothesis Epoch_length : ∀ t, length (Epoch t) = 16%nat.

(** A hard link is shown under its own name with its target's attributes. *)
Definition entry_object (child : YAFFS2_OBJECT) : YAFFS2_OBJECT :=
  if o_Type child =? YAFFS2_TYPE_HARDLINK
  then match obj v (o_EquivId child) with
       | Some t => set_name t (o_Name child) | None => child end
  else child.

Definition record_size (name : list Z) : Z := SIZE_OF_EFI_FILE_INFO + (len name + 1) * 2.

Lemma length_ucs2_bytes s : length (ucs2_bytes s) = (2 * (length s + 1))%nat.
Proof.
  unfold ucs2_bytes. rewrite length_app, length_le_bytes.
  induction s as [|c s IH]; [done|]. simpl in *. lia.
Qed.

Lemma length_info_of o name n :
  length (info_of Epoch o name n) = Z.to_nat (record_size name).
Proof.
  unfold info_of, file_info_bytes, record_size, SIZE_OF_EFI_FILE_INFO.
  assert (Ht : length (if negb (o_MTime o =? 0) then Epoch (o_MTime o) else replicate 16 0) = 16%nat)
    by (case_b; [apply Epoch_length|done]).
  rewrite !length_app, Ht, !length_le_bytes, length_ucs2_bytes. lia.
Qed.

Lemma shown_object_spec id child :
  obj v id = Some child → shown_object v child = Some (entry_object child).
Proof.
  intros Hc. unfold shown_object, entry_object. case_b; [|done].
  assert (Hin : ∀ t, obj v (o_EquivId child) = Some t →
    1 <= o_EquivId child <= v_MaxObjId (vol_Tab v)).
  { intros t Ht. by eapply (obj_id v Hv). }
  case_b; b2p.
  - rewrite slot_get_wf by (apply (vok_table _ Hv) || lia). simpl.
    fold (obj v (o_EquivId child)). destruct (obj v (o_EquivId child)) eqn:Et; [|done].
    simpl. by rewrite Et.
  - destruct (obj v (o_EquivId child)) eqn:Et; [|done]. pose proof (Hin _ eq_refl).
    apply andb_false_iff in E0 as [?|?]; b2p; lia.
Qed.

Lemma name_of_entry child : o_Name (entry_object child) = o_Name child.
Proof. unfold entry_object. case_b; [|done]. by destruct (obj v _). Qed.

Lemma name_loads id o :
  obj v id = Some o →
  AsciiStrLen (o_Name o) = Some (len (cstr (o_Name o)))
  ∧ rdn (o_Name o) 0 (len (cstr (o_Name o))) = Some (cstr (o_Name o)).
Proof.
  intros Ho. destruct (obj_name v Hv _ _ Ho) as (n & Hn & _).
  assert (H0 : 0 ∈ o_Name o) by (rewrite Hn; apply elem_of_app; right; by left).
  split; [by apply AsciiStrLen_cstr|].
  destruct (cstr_prefix_nul _ H0) as [tl Htl]. rewrite Htl at 1.
  rewrite rdn_app_0 by lia. by rewrite Nat2Z.id, take_ge by lia.
Qed.

Lemma put_info_spec need bytes buf n :
  len bytes <= need → need <= len buf → need <= n →
  put_info need bytes (Some buf) n = Some (EFI_SUCCESS, Some (splice buf 0 bytes), need).
Proof.
  intros. unfold put_info. rewrite (proj2 (Z.ltb_ge _ _)) by lia. cbn [mbind option_bind].
  rewrite wrn_eq by lia. done.
Qed.
End Records.

Lemma Read_dir_run {D} `{NandFlash D} Epoch (v : VOLUME D) f o k n buf :
  volume_ok v → (∀ t, length (Epoch t) = 16%nat) →
  obj v (f_OFile f) = Some o → o_Type o = YAFFS2_TYPE_DIR → f_DirCursor f = Some k →
  n <= len buf → 0 <= f_Position f < 2 ^ 64 - 1 →
  Yaffs2Read Epoch v (Some f) (Some n) (Some buf) =
  match o_ChildHead o !! k with
  | None => Some (EFI_SUCCESS, v, Some f, Some 0, Some buf)
  | Some c =>
      child ← obj v c;
      let name := cstr (o_Name child) in
      if n <? record_size name
      then Some (EFI_BUFFER_TOO_SMALL, v, Some f, Some (record_size name), Some buf)
      else Some (EFI_SUCCESS, v,
                 Some (mkIFile (f_Position f + 1) (f_OFile f) (Some (S k))),
                 Some (record_size name),
                 Some (splice buf 0 (info_of Epoch (entry_object v child) name
                                       (record_size name))))
  end.
Proof.
  intros Hv Hep Ho Hty Hk Hn Hpos. unfold Yaffs2Read. rewrite Ho. cbn [mbind option_bind].
  rewrite Hty, Z.eqb_refl. unfold read_dir. rewrite Hk. cbn [mbind option_bind].
  destruct (o_ChildHead o !! k) as [c|] eqn:Ec; [|done].
  destruct (vok_child _ Hv _ _ c Ho) as [child Hc].
  { by eapply list_elem_of_lookup_2. }
  rewrite Hc. cbn [mbind option_bind].
  rewrite (shown_object_spec v Hv c child Hc). cbn [mbind option_bind].
  unfold BuildFileInfo. rewrite name_of_entry.
  destruct (name_loads v Hv c child Hc) as [E1 E2]. rewrite E1. cbn [mbind option_bind].
  rewrite E2. cbn [mbind option_bind].
  fold (record_size (cstr (o_Name child))). set (name := cstr _).
  destruct (Z.ltb_spec n (record_size name)) as [Hlt|Hge].
  - unfold put_info. by rewrite (proj2 (Z.ltb_lt _ _)) by done.
  - rewrite put_info_spec; [|rewrite length_info_of by done;
      unfold record_size, SIZE_OF_EFI_FILE_INFO; lia|lia|lia].
    cbn [mbind option_bind EFI_ERROR]. by rewrite u64_small by lia.
Qed.

(** C20: Directory enumeration: [Yaffs2Read] on a directory handle returns one
    entry per call, in the order of the child list: with a buffer that is too
    small it reports the size needed and does not advance; otherwise it writes
    the [EFI_FILE_INFO] of the next child (a hard link under its own name with
    its target's attributes) and advances by one; after the last entry it
    reports size 0. *)
Theorem Read_dir_correct {D} `{NandFlash D} Epoch (v : VOLUME D) f o k n buf :
  volume_ok v → (∀ t, length (Epoch t) = 16%nat) →
  obj v (f_OFile f) = Some o → o_Type o = YAFFS2_TYPE_DIR → f_DirCursor f = Some k →
  n <= len buf → 0 <= f_Position f < 2 ^ 64 - 1 →
  Yaffs2Read Epoch v (Some f) (Some n) (Some buf) =
  match o_ChildHead o !! k with
  | None => Some (EFI_SUCCESS, v, Some f, Some 0, Some buf)
  | Some c =>
      child ← obj v c;
      let name := cstr (o_Name child) in
      if n <? record_size name
      then Some (EFI_BUFFER_TOO_SMALL, v, Some f, Some (record_size name), Some buf)
      else Some (EFI_SUCCESS, v,
                 Some (mkIFile (f_Position f + 1) (f_OFile f) (Some (S k))),
                 Some (record_size name),
                 Some (splice buf 0 (info_of Epoch (entry_object v child) name
                                       (record_size name))))
  end.
Proof. by apply Read_dir_run. Qed.

(** ** The properties on the mounted small flash *)

Definition demo_volume : VOLUME SimDev :=
  match Yaffs2ScanNand (fresh_volume demo_dev (mkPool [] 2) []) with
  | Some (_, v) => v
  | None => fresh_volume demo_dev (mkPool [] 2) []
  end.

Lemma demo_volume_ok : volume_ok demo_volume.
Proof.
  destruct (Yaffs2ScanNand_run sim_geometry demo_dev (mkPool [] 2) [] demo_ids_fit)
    as (st & v & evs & t & E & _ & HP & Hok & _ & Hwf & Ho & _ & Hiff & _).
  unfold demo_volume.
  assert (Hst : fst <$> Yaffs2ScanNand (fresh_volume demo_dev (mkPool [] 2) [])
                = Some EFI_SUCCESS) by (vm_compute; reflexivity).
  rewrite E in *. simpl in Hst. injection Hst as ->.
  eapply scanned_volume_ok; [done| |exact Ho|by apply Hiff].
  intros id o Hid. unfold live_objects in Hid. apply map_lookup_filter_Some in Hid as [Hid _].
  destruct (process_events_safe evs _ (table_empty_wf (mkPool [] 2)) Hok) as (t' & E' & Hwf').
  rewrite HP in E'. injection E' as <-. by apply (twf_obj _ Hwf') in Hid as [? _].
Qed.

Definition demo_root_handle : YAFFS2_IFILE := mkIFile 0 1 (Some 0%nat).
Definition demo_file_handle : YAFFS2_IFILE := mkIFile 1 257 None.
Definition demo_file : YAFFS2_OBJECT := object_at (v_Objects (vol_Tab demo_volume)) 257.
Definition demo_root : YAFFS2_OBJECT := object_at (v_Objects (vol_Tab demo_volume)) 1.

#[local] Opaque demo_volume demo_file demo_root.

Lemma demo_lookup id :
  match v_Objects (vol_Tab demo_volume) !! id with Some _ => true | None => false end = true →
  obj demo_volume id = Some (object_at (v_Objects (vol_Tab demo_volume)) id).
Proof.
  unfold obj, object_at. by destruct (v_Objects (vol_Tab demo_volume) !! id).
Qed.

Lemma demo_file_at : obj demo_volume 257 = Some demo_file.
Proof. apply demo_lookup. vm_compute. reflexivity. Qed.
Lemma demo_root_at : obj demo_volume 1 = Some demo_root.
Proof. apply demo_lookup. vm_compute. reflexivity. Qed.

Lemma demo_file_wf : object_wf 257 demo_file.
Proof.
  pose proof demo_file_at as Hf. unfold obj in Hf.
  exact (proj2 (twf_obj (vol_Tab demo_volume) (vok_table _ demo_volume_ok) 257 demo_file Hf)).
Qed.


Lemma Open_long_path_faults_witness :
  Yaffs2Open demo_volume (Some demo_root_handle) true (Some (replicate 600 97 ++ [0]))
    EFI_FILE_MODE_READ 0 = None.
Proof.
  apply Open_long_path_faults; [exact demo_volume_ok|exact (mk_is_Some _ _ demo_root_at)
    |vm_compute; discriminate| | |reflexivity|reflexivity].
  - apply Forall_replicate. lia.
  - rewrite take_replicate. apply Forall_replicate. split; vm_compute; discriminate.
Defined.

Lemma demo_file_chunks : chunks_on_flash (D := SimDev) demo_file.
Proof.
  assert (Hb : bool_decide (map_Forall (λ _ c,
    0 <= c_PageIndex c < 8 ∧ 0 <= c_NBytes c) (o_Chunks demo_file)) = true)
    by (vm_compute; reflexivity).
  apply bool_decide_eq_true in Hb. intros i c Hc. apply (Hb i c Hc).
Qed.

(** Three bytes of the file from position 1. *)
Lemma Read_file_correct_witness :
  ∃ st v' f' c buf',
    Yaffs2Read (λ _, replicate 16 0) demo_volume (Some demo_file_handle) (Some 3)
      (Some [7; 7; 7; 7]) = Some (st, v', Some f', Some c, Some buf')
    ∧ st = EFI_SUCCESS ∧ c = readable demo_file 1 3.
Proof.
  assert (Ht : o_Type demo_file ≠ YAFFS2_TYPE_DIR) by (vm_compute; discriminate).
  assert (Hm : o_FileSize demo_file <= MAX_FILE) by (vm_compute; discriminate).
  assert (H1 : 0 <= 1) by lia. assert (H2 : 0 <= 3 <= 4) by lia.
  assert (H3 : 1 + 3 < 2 ^ 64) by lia.
  destruct (Read_file_correct (λ _, replicate 16 0) demo_volume demo_file_handle demo_file 3
              [7; 7; 7; 7] sim_geometry demo_file_at
              demo_file_wf demo_file_chunks
              Ht Hm H1 H2 H3)
    as (st & v' & f' & c & buf' & E & _ & _ & _ & Hrel).
  destruct (Hrel sim_reliable) as [Hst Hc].
  exists st, v', f', c, buf'. split; [exact E|]. split; assumption.
Defined.

Lemma Read_dir_correct_witness :
  ∃ r, Yaffs2Read (λ _, replicate 16 0) demo_volume (Some demo_root_handle) (Some 10)
         (Some (replicate 10 0)) = Some r.
Proof.
  assert (Ht : o_Type demo_root = YAFFS2_TYPE_DIR) by (vm_compute; reflexivity).
  assert (H1 : 10 <= 10) by lia. assert (H2 : 0 <= 0 < 2 ^ 64 - 1) by lia.
  rewrite (Read_dir_correct (λ _, replicate 16 0) demo_volume demo_root_handle demo_root 0 10
    (replicate 10 0) demo_volume_ok (λ _, eq_refl) demo_root_at Ht eq_refl H1 H2).
  vm_compute. eexists. reflexivity.
Defined.
