(* ===== verification/Yaffs2Volume.v ===== *)
(** * Volume lifecycle and driver binding

    Drivers/MtYaffs2Dxe: Volume.c and MtYaffs2Dxe.c. What the boot services
    answer (installing and opening protocols, the performance counter) are
    arguments of the operations. The theorems account for every allocation. *)

From S2P Require Import Prelude Efi Nand Yaffs2Obj Yaffs2Format Yaffs2Latest Yaffs2Tree Yaffs2Scan Yaffs2File.

Section Code.
Context {D : Type} `{NandFlash D}.

(** The loop of [Yaffs2FreeVolume] over [Objects]. *)
Definition free_slot (t : TABLE) (i : Z) (pool : Pool) : option Pool :=
  slot ← slot_get t i;
  match slot with
  | None => Some pool
  | Some p => o ← v_Objects t !! p; Some (free_object pool o)
  end.

(** Uninstalling an interface that is not installed fails and changes nothing;
    uninstalling one that is fails with what the boot services say
    ([UninstallStatus], for instance because another driver has it
    open) and leaves it installed. *)
Definition UninstallMultipleProtocolInterfaces (UninstallStatus : EFI_STATUS) (installed : bool)
    : EFI_STATUS * bool :=
  if negb installed then (EFI_INVALID_PARAMETER, false)
  else (UninstallStatus, EFI_ERROR UninstallStatus).

(** [Volume] is not NULL; [installed] says whether its SimpleFileSystem interface
    is on the handle. The status of uninstalling it is ignored. The result is the
    pool, and whether the interface is still installed. *)
Definition Yaffs2FreeVolume (UninstallStatus : EFI_STATUS) (installed : bool) (v : VOLUME D)
    : option (Pool * bool) :=
  let '(_, installed) := UninstallMultipleProtocolInterfaces UninstallStatus installed in
  let t := vol_Tab v in
  pool ← match v_Slots t with
         | None => Some (v_Pool t)
         | Some _ =>
             pool ← for_loop (Z.to_nat (v_MaxObjId t + 1)) 0 (free_slot t) (v_Pool t);
             Some (FreePool pool)
         end;
  Some (FreePool (FreePool pool), installed).

(** The driver over the device [d] and the pool. [Fresh] is what the new page
    buffer happens to hold, [Freq] is the frequency of
    the performance counter, which the elapsed time is divided by, and
    [InstallStatus] what installing the SimpleFileSystem protocol returns. On
    success the volume is returned and holds the pool. *)
Definition Yaffs2AllocateVolume (d : D) (pool : Pool) (Fresh : list Z) (Freq : Z) (InstallStatus : EFI_STATUS)
    : option (EFI_STATUS * option (VOLUME D) * Pool) :=
  let '(ok, pool) := AllocatePool pool in
  if negb ok then Some (EFI_OUT_OF_RESOURCES, None, pool)
  else
    let '(ok, pool) := AllocatePool pool in
    if negb ok then Some (EFI_OUT_OF_RESOURCES, None, FreePool pool)
    else
      '(Status, v) ← Yaffs2ScanNand (mkVol d (table_empty pool) None Fresh);
      if Freq =? 0 then None
      else if EFI_ERROR Status then
        let pool := v_Pool (vol_Tab v) in
        let pool := match v_Slots (vol_Tab v) with
                    | Some _ => FreePool pool | None => pool end in
        Some (Status, None, FreePool (FreePool pool))
      else if EFI_ERROR InstallStatus then
        '(pool, _) ← Yaffs2FreeVolume EFI_INVALID_PARAMETER false v;
        Some (InstallStatus, None, pool)
      else Some (EFI_SUCCESS, Some v, v_Pool (vol_Tab v)).

Definition Yaffs2OpenVolume (v : VOLUME D)
    : option (EFI_STATUS * option YAFFS2_IFILE * VOLUME D) :=
  match vol_Root v with
  | None => Some (EFI_VOLUME_CORRUPTED, None, v)
  | Some r =>
      '(h, v) ← Yaffs2AllocateIFile v r;
      match h with
      | None => Some (EFI_OUT_OF_RESOURCES, None, v)
      | Some h => Some (EFI_SUCCESS, Some h, v)
      end
  end.

(** ** Driver binding *)

(** The SimpleFileSystem interface on the handle: none, that of a mounted volume,
    or one whose volume has been freed. *)
Inductive SFS :=
  | SfsNone
  | SfsVolume (v : VOLUME D)
  | SfsFreed.

(** The controller's state: opens of the NAND protocol by this driver, the
    interface on the handle, and the pool while no volume is mounted. *)
Record CONTROLLER := mkController {
  ct_Opens : Z;
  ct_Sfs : SFS;
  ct_Pool : Pool
}.

Definition open_nand (c : CONTROLLER) : CONTROLLER :=
  mkController (ct_Opens c + 1) (ct_Sfs c) (ct_Pool c).
Definition close_nand (c : CONTROLLER) : CONTROLLER :=
  mkController (ct_Opens c - 1) (ct_Sfs c) (ct_Pool c).

Definition MtYaffs2Supported (OpenStatus : EFI_STATUS) (c : CONTROLLER)
    : EFI_STATUS * CONTROLLER :=
  if EFI_ERROR OpenStatus then (OpenStatus, c)
  else (EFI_SUCCESS, close_nand (open_nand c)).

(** A second interface of a protocol cannot be installed on a handle. *)
Definition install_answer (InstallStatus : EFI_STATUS) (c : CONTROLLER) : EFI_STATUS :=
  match ct_Sfs c with SfsNone => InstallStatus | _ => EFI_INVALID_PARAMETER end.

Definition MtYaffs2Start (d : D) (OpenStatus : EFI_STATUS) (Fresh : list Z) (Freq : Z)
    (InstallStatus : EFI_STATUS) (c : CONTROLLER) : option (EFI_STATUS * CONTROLLER) :=
  if EFI_ERROR OpenStatus then Some (OpenStatus, c)
  else
    let c := open_nand c in
    '(Status, v, pool) ← Yaffs2AllocateVolume d (ct_Pool c) Fresh Freq (install_answer InstallStatus c);
    let c := mkController (ct_Opens c) (match v with Some v => SfsVolume v | None => ct_Sfs c end) pool in
    Some (Status, if EFI_ERROR Status then close_nand c else c).

(** [OpenStatus] is that of opening the SimpleFileSystem protocol where the
    handle has it. The volume is found from its interface: when that has been
    freed, freed memory is read. *)
Definition MtYaffs2Stop (OpenStatus UninstallStatus : EFI_STATUS) (c : CONTROLLER)
    : option (EFI_STATUS * CONTROLLER) :=
  match ct_Sfs c with
  | SfsNone => Some (EFI_DEVICE_ERROR, c)
  | Sfs =>
      if EFI_ERROR OpenStatus then Some (EFI_DEVICE_ERROR, c)
      else
        v ← (match Sfs with SfsVolume v => Some v | _ => None end);
        '(pool, installed) ← Yaffs2FreeVolume UninstallStatus true v;
        Some (EFI_SUCCESS,
              close_nand (mkController (ct_Opens c) (if installed : bool then SfsFreed else SfsNone) pool))
  end.

Definition MtYaffs2EntryPoint (InstallStatus : EFI_STATUS) : EFI_STATUS := InstallStatus.
End Code.

Arguments SFS : clear implicits.
Arguments CONTROLLER : clear implicits.

(** ** Accounting *)

Lemma EnsureObjectsCapacity_accounted base t id st t' :
  table_wf t → EnsureObjectsCapacity t id = Some (st, t') →
  accounted base t → accounted base t'.
Proof.
  intros Hwf HE. unfold EnsureObjectsCapacity in HE. case_match; [by simplify_eq|].
  destruct (AllocatePool (v_Pool t)) as [ok p] eqn:Ep.
  apply AllocatePool_live in Ep. unfold accounted, table_cost.
  destruct ok; simpl in HE; [|simplify_eq; simpl; lia].
  destruct (v_Slots t) as [n|] eqn:Es.
  - repeat (case_match; [|done]). simplify_eq. simpl. intros Hb.
    rewrite map_filter_id; [lia|]. intros i o Ho.
    pose proof (twf_max _ Hwf). apply (twf_obj _ Hwf) in Ho as [? _]. simpl.
    rewrite u32_small by lia. lia.
  - simplify_eq. simpl. destruct (twf_slots _ Hwf) as [(_ & _ & ->)|?]; [|congruence].
    rewrite objs_cost_empty. lia.
Qed.

Lemma FindOrCreateObject_accounted base t id r t' :
  table_wf t → FindOrCreateObject t id = Some (r, t') → accounted base t → accounted base t'.
Proof.
  unfold FindOrCreateObject. intros Hwf HF Hb.
  apply bind_Some in HF as ([st t1] & HE & HF).
  pose proof (EnsureObjectsCapacity_accounted base _ _ _ _ Hwf HE Hb) as Hb1.
  destruct (EFI_ERROR st); [by simplify_eq|].
  apply bind_Some in HF as (slot & Hs & HF). destruct slot; [by simplify_eq|].
  assert (Hnone : v_Objects t1 !! id = None).
  { unfold slot_get in Hs. apply bind_Some in Hs as (n & _ & Hs).
    repeat case_match; congruence. }
  destruct (AllocatePool (v_Pool t1)) as [ok p] eqn:Ep. apply AllocatePool_live in Ep.
  unfold accounted, table_cost in *. destruct ok; simpl in HF; simplify_eq; simpl in *; [|lia].
  rewrite objs_cost_insert by done. simpl. unfold obj_cost. simpl. lia.
Qed.

Lemma ParseObjectHeader_alloc buf o seq page o' :
  ParseObjectHeader buf o seq page = Some o' → o_ChunkAlloc o' = o_ChunkAlloc o.
Proof. intros Hp. unfold ParseObjectHeader in Hp. by inv_ret. Qed.

Lemma GrowChunks_live pool o id cid r pool' :
  object_wf id o → 1 <= cid < 2 ^ 31 → GrowChunks pool o cid = Some (r, pool') →
  match r with
  | Some o' => pool_live pool' = pool_live pool + obj_cost o' - obj_cost o
  | None => pool_live pool' = pool_live pool
  end.
Proof.
  intros Hwf Hc HG. pose proof (GrowChunks_spec pool o id cid Hwf Hc) as (r2 & p2 & E & Ha & _).
  rewrite HG in E. injection E as <- <-. unfold GrowChunks in HG.
  destruct (o_ChunkAlloc o <? cid); [|simplify_eq; lia].
  destruct (AllocatePool pool) as [ok p] eqn:Ep. apply AllocatePool_live in Ep.
  destruct ok; simpl in HG; [|by simplify_eq; simpl; lia].
  case_match; [done|]. simplify_eq.
  destruct (Ha _ eq_refl) as (a & Heq & Hge & _). apply (f_equal o_ChunkAlloc) in Heq.
  simpl in Heq. unfold obj_cost. simpl. rewrite Heq, (proj2 (Z.eqb_neq a 0)) by lia.
  case_b; simpl; lia.
Qed.

Lemma process_event_accounted base t e t' :
  table_wf t → event_ok e → process_event t e = Some t' → accounted base t → accounted base t'.
Proof.
  intros Hwf (Hg & _ & Hk) HP Hb. destruct e as [g p buf|g p]; simpl in *.
  - unfold ProcessHeader in HP. apply bind_Some in HP as ([r t1] & HF & HP).
    pose proof (FindOrCreateObject_accounted base _ _ _ _ Hwf HF Hb) as Hb1.
    destruct r; [|by simplify_eq]. apply bind_Some in HP as (o & Ho & HP).
    case_match; [by simplify_eq|]. apply bind_Some in HP as (o' & Hp & HP). simplify_eq.
    eapply obj_set_accounted; [exact Ho|by eapply ParseObjectHeader_alloc|done].
  - unfold ProcessDataChunk in HP. case_match; [by simplify_eq|].
    apply bind_Some in HP as ([r t1] & HF & HP).
    pose proof (FindOrCreateObject_accounted base _ _ _ _ Hwf HF Hb) as Hb1.
    destruct (FindOrCreateObject_spec t (t_ObjId g) Hwf (proj1 Hg)) as (r2 & t2 & E2 & Hwf1 & _).
    rewrite HF in E2. injection E2 as <- <-.
    destruct r; [|by simplify_eq]. apply bind_Some in HP as (o & Ho & HP).
    apply bind_Some in HP as ([gr pool] & HG & HP).
    destruct (twf_obj _ Hwf1 _ _ Ho) as [_ How]. destruct Hg as (_ & Hc & _).
    pose proof (GrowChunks_live _ _ _ _ _ _ How (conj Hk (proj2 Hc)) HG) as Hl.
    unfold accounted, table_cost in *. destruct gr as [o'|]; simplify_eq; simpl; [|lia].
    apply bind_Some in HP as (ex & _ & HP). simplify_eq. simpl.
    rewrite (objs_cost_replace _ _ o) by done. rewrite obj_cost_set_chunks. lia.
Qed.

Lemma process_events_accounted base evs t t' :
  table_wf t → Forall event_ok evs → process_events t evs = Some t' →
  accounted base t → accounted base t'.
Proof.
  intros Hwf Hok. revert t Hwf. induction Hok as [|e evs He Hok IH]; simpl; intros t Hwf HP Hb.
  - by simplify_eq.
  - destruct (process_event_safe t e Hwf He) as (t1 & E & Hwf1). rewrite E in HP. simpl in HP.
    eapply IH; [exact Hwf1|exact HP|].
    exact (process_event_accounted base t e t1 Hwf He E Hb).
Qed.

(** ** Freeing a volume *)

Definition below (m : gmap Z YAFFS2_OBJECT) (i : Z) : gmap Z YAFFS2_OBJECT :=
  filter (λ kv, kv.1 < i) m.

Lemma below_lookup m i id : below m i !! id = if decide (id < i) then m !! id else None.
Proof.
  unfold below. rewrite map_lookup_filter.
  destruct (m !! id); simpl; unfold guard; repeat case_decide; simpl; done.
Qed.

Lemma below_cost_S m i :
  objs_cost (below m (i + 1)) =
    objs_cost (below m i) + match m !! i with Some o => obj_cost o | None => 0 end.
Proof.
  destruct (m !! i) as [o|] eqn:E.
  - assert (Hb : below m (i + 1) = <[i := o]> (below m i)).
    { apply map_eq. intros id. rewrite lookup_insert, !below_lookup.
      repeat case_decide; subst; try done; lia. }
    rewrite Hb, objs_cost_insert; [lia|]. rewrite below_lookup.
    by rewrite decide_False by lia.
  - assert (Hb : below m (i + 1) = below m i).
    { apply map_eq. intros id. rewrite !below_lookup.
      repeat case_decide; try done; try lia. replace id with i by lia. done. }
    rewrite Hb. lia.
Qed.

Lemma below_all t : table_wf t → below (v_Objects t) (v_MaxObjId t + 1) = v_Objects t.
Proof.
  intros Hwf. apply map_filter_id. intros id o Ho. apply (twf_obj _ Hwf) in Ho as [? _].
  simpl. lia.
Qed.

Lemma below_none t : table_wf t → below (v_Objects t) 0 = ∅.
Proof.
  intros Hwf. apply map_eq. intros id. rewrite below_lookup, lookup_empty. case_decide; [|done].
  destruct (v_Objects t !! id) eqn:E; [|done]. apply (twf_obj _ Hwf) in E as [? _]. lia.
Qed.

Lemma FreeVolume_spec {D} (v : VOLUME D) st (i : bool) base :
  table_wf (vol_Tab v) → accounted base (vol_Tab v) →
  ∃ p, Yaffs2FreeVolume st i v = Some (p, i && EFI_ERROR st) ∧ pool_live p = base - 2.
Proof.
  intros Hwf Hb. unfold Yaffs2FreeVolume, accounted, table_cost in *.
  replace (UninstallMultipleProtocolInterfaces st i)
    with (fst (UninstallMultipleProtocolInterfaces st i), i && EFI_ERROR st) by (by destruct i).
  set (t := vol_Tab v) in *. pose proof (twf_max _ Hwf).
  destruct (v_Slots t) as [n|] eqn:Es; cbn [mbind option_bind].
  2:{ destruct (twf_slots _ Hwf) as [(_ & _ & He)|?]; [|congruence].
      rewrite He, objs_cost_empty in Hb. eexists. split; [done|]. simpl. lia. }
  destruct (for_loop_inv (free_slot t)
    (λ i p, pool_live p = pool_live (v_Pool t) - objs_cost (below (v_Objects t) i))
    (Z.to_nat (v_MaxObjId t + 1)) 0 (v_Pool t)) as (p & HL & Hp).
  - rewrite below_none, objs_cost_empty by done. lia.
  - intros j p Hj Hp. unfold free_slot, slot_get. rewrite Es. cbn [mbind option_bind].
    destruct (twf_slots _ Hwf) as [(? & _)|Hn]; [congruence|]. rewrite Es in Hn.
    injection Hn as ->. rewrite (proj2 (Z.leb_le 0 j)), (proj2 (Z.ltb_lt j _)) by lia.
    cbn [andb mbind option_bind]. rewrite below_cost_S.
    destruct (v_Objects t !! j) as [o|] eqn:Eo; cbn [mbind option_bind].
    + rewrite Eo. eexists. split; [done|]. rewrite free_object_live. lia.
    + eexists. split; [done|]. lia.
  - rewrite HL. cbn [mbind option_bind]. eexists. split; [done|]. simpl.
    replace (0 + Z.of_nat (Z.to_nat (v_MaxObjId t + 1))) with (v_MaxObjId t + 1) in Hp by lia.
    rewrite below_all in Hp by done. lia.
Qed.

(** The account of a freshly scanned volume, [base] allocations aside. *)
Lemma scan_accounted {D} `{NandLaws D} (d : D) p buf :
  geometry_ok D → ids_fit (image d) →
  ∃ st v, Yaffs2ScanNand (mkVol d (table_empty p) None buf) = Some (st, v)
    ∧ table_wf (vol_Tab v) ∧ accounted (pool_live p) (vol_Tab v)
    ∧ (st = EFI_SUCCESS ∨ st = EFI_VOLUME_CORRUPTED)
    ∧ (st = EFI_SUCCESS → volume_ok v).
Proof.
  intros Hgeo Hids. destruct (Yaffs2ScanNand_run Hgeo d p buf Hids)
    as (st & v & evs & t & E & _ & HP & Hok & HB & Hwf & Ho & Hst & Hiff & _).
  exists st, v. split; [exact E|]. split; [done|].
  destruct (process_events_safe evs _ (table_empty_wf p) Hok) as (t' & E' & Hwf').
  rewrite HP in E'. injection E' as <-. split; [|split; [done|]].
  - eapply BuildTree_accounted; [exact HB|].
    eapply process_events_accounted; [apply table_empty_wf|exact Hok|exact HP|].
    unfold accounted, table_cost. simpl. rewrite objs_cost_empty. lia.
  - intros Hs. eapply scanned_volume_ok; [done| |exact Ho|by apply Hiff].
    intros id o Hid. unfold live_objects in Hid. apply map_lookup_filter_Some in Hid as [Hid _].
    by apply (twf_obj _ Hwf') in Hid as [? _].
Qed.

Section Lifecycle.
Context {D : Type} `{NandLaws D} (d : D) (fresh : list Z) (Freq : Z) (InstallStatus : EFI_STATUS).
Hypothesis Hgeo : geometry_ok D.
Hypothesis Hids : ids_fit (image d).
Hypothesis HFreq : Freq ≠ 0.
Hypothesis Hinst : InstallStatus ≠ EFI_WARN_DELETE_FAILURE.

(** All outcomes of mounting, with what stays allocated. *)
Lemma AllocateVolume_cases p :
  ∃ st r p', Yaffs2AllocateVolume d p fresh Freq InstallStatus = Some (st, r, p') ∧
    match r with
    | Some v => st = EFI_SUCCESS ∧ InstallStatus = EFI_SUCCESS ∧ volume_ok v
                ∧ p' = v_Pool (vol_Tab v) ∧ accounted (pool_live p + 2) (vol_Tab v)
    | None => EFI_ERROR st = true ∧
        (st = EFI_OUT_OF_RESOURCES ∧ pool_live p' = pool_live p
         ∨ st = InstallStatus ∧ pool_live p' = pool_live p
         ∨ st = EFI_VOLUME_CORRUPTED ∧
           ∃ v, Yaffs2ScanNand (fresh_volume d (AllocatePool (AllocatePool p).2).2 fresh)
                  = Some (EFI_VOLUME_CORRUPTED, v)
                ∧ pool_live p' = pool_live p + objs_cost (v_Objects (vol_Tab v)))
    end.
Proof.
  unfold Yaffs2AllocateVolume, fresh_volume.
  destruct (AllocatePool p) as [ok1 p1] eqn:E1. apply AllocatePool_live in E1.
  destruct ok1; cbn [negb].
  2:{ eexists _, None, _. split; [done|]. split; [done|]. left. split; [done|lia]. }
  simpl. destruct (AllocatePool p1) as [ok2 p2] eqn:E2. apply AllocatePool_live in E2.
  destruct ok2; cbn [negb].
  2:{ eexists _, None, _. split; [done|]. split; [done|]. left. split; [done|simpl; lia]. }
  destruct (scan_accounted d p2 fresh Hgeo Hids) as (st & v & E & Hwf & Hacc & Hst & Hok).
  rewrite E. cbn [mbind option_bind]. rewrite (proj2 (Z.eqb_neq Freq 0)) by done.
  destruct Hst as [->| ->]; cbn [EFI_ERROR].
  - destruct (EFI_ERROR InstallStatus) eqn:Ei.
    + destruct (FreeVolume_spec v EFI_INVALID_PARAMETER false _ Hwf Hacc) as (p3 & -> & Hp3). cbn [mbind option_bind].
      eexists _, None, _. split; [done|]. split; [done|]. right. left. split; [done|lia].
    + eexists _, (Some v), _. split; [done|]. split_and!; try done; [|by apply Hok|].
      * destruct InstallStatus; try done.
      * unfold accounted in *. lia.
  - eexists _, None, _. split; [done|]. split; [done|]. right. right. split; [done|].
    exists v. split; [exact E|]. unfold accounted, table_cost in Hacc.
    destruct (v_Slots (vol_Tab v)); simpl; lia.
Qed.
End Lifecycle.

(** C21: Mounting and unmounting: for any NAND driver, any flash image whose ids
    fit, any allocation results and any status of installing and uninstalling,
    [MtYaffs2Start] on a handle without the interface returns; when it succeeds
    the SimpleFileSystem interface of a sound volume is on the handle and the NAND
    protocol is open once more. [MtYaffs2Stop] then frees every allocation made
    since and closes the protocol, whatever uninstalling said: the interface is
    off the handle exactly when uninstalling it succeeded, and otherwise the handle
    keeps the interface of a freed volume. When Start fails the protocol is closed
    again, no interface is installed and, unless the scan found no root directory,
    no allocation is left. *)
Theorem Start_Stop_balanced {D} `{NandLaws D} (d : D) fresh Freq InstallStatus UninstallStatus (c : CONTROLLER D) :
  geometry_ok D → ids_fit (image d) → Freq ≠ 0 → InstallStatus ≠ EFI_WARN_DELETE_FAILURE → ct_Sfs c = SfsNone →
  ∃ st c', MtYaffs2Start d EFI_SUCCESS fresh Freq InstallStatus c = Some (st, c') ∧
    if EFI_ERROR st
    then ct_Opens c' = ct_Opens c ∧ ct_Sfs c' = SfsNone
         ∧ (st ≠ EFI_VOLUME_CORRUPTED → pool_live (ct_Pool c') = pool_live (ct_Pool c))
    else ct_Opens c' = ct_Opens c + 1
         ∧ (∃ v, ct_Sfs c' = SfsVolume v ∧ volume_ok v)
         ∧ ∃ c'', MtYaffs2Stop EFI_SUCCESS UninstallStatus c' = Some (EFI_SUCCESS, c'')
                  ∧ ct_Opens c'' = ct_Opens c
                  ∧ ct_Sfs c'' = (if EFI_ERROR UninstallStatus then SfsFreed else SfsNone)
                  ∧ pool_live (ct_Pool c'') = pool_live (ct_Pool c).
Proof.
  intros Hgeo Hids HF Hi Hs. unfold MtYaffs2Start, install_answer. cbn [EFI_ERROR open_nand ct_Pool ct_Sfs]. rewrite Hs.
  destruct (AllocateVolume_cases d fresh Freq InstallStatus Hgeo Hids HF Hi (ct_Pool c))
    as (st & r & p' & -> & Hcase). cbn [mbind option_bind].
  destruct r as [v|].
  - destruct Hcase as (-> & _ & Hok & Hp & Hacc). cbn [EFI_ERROR].
    eexists _, _. split; [done|]. cbn [EFI_ERROR ct_Opens ct_Sfs]. split; [done|].
    split; [eauto|]. unfold MtYaffs2Stop. cbn [EFI_ERROR ct_Sfs mbind option_bind].
    destruct (FreeVolume_spec v UninstallStatus true _ (vok_table _ Hok) Hacc) as (p3 & -> & Hp3).
    cbn [mbind option_bind]. eexists. split; [done|]. simpl. split; [lia|]. split; [|lia].
    by destruct (EFI_ERROR UninstallStatus).
  - destruct Hcase as (He & Hcase). rewrite He. eexists _, _. split; [done|]. rewrite He.
    simpl. split; [lia|]. split; [done|]. intros Hne.
    destruct Hcase as [[_ ?]|[[_ ?]|[? _]]]; done.
Qed.

(** After a Stop whose uninstall failed, the next one reads the freed volume, and
    a new Start cannot install its interface. *)
Theorem failed_uninstall_dangles {D} `{NandLaws D} (c c' : CONTROLLER D) v UninstallStatus :
  ct_Sfs c = SfsVolume v → EFI_ERROR UninstallStatus = true →
  MtYaffs2Stop EFI_SUCCESS UninstallStatus c = Some (EFI_SUCCESS, c') →
  (∀ st, MtYaffs2Stop EFI_SUCCESS st c' = None) ∧
  ∀ d fresh Freq st st2 c2, MtYaffs2Start d EFI_SUCCESS fresh Freq st c' = Some (st2, c2) → EFI_ERROR st2 = true.
Proof.
  intros Hv Hu Hs. unfold MtYaffs2Stop in Hs. rewrite Hv in Hs. cbn [EFI_ERROR mbind option_bind] in Hs.
  apply bind_Some in Hs as ([p i] & HF & Hs). injection Hs as <-.
  assert (i = true) as ->.
  { unfold Yaffs2FreeVolume in HF. cbn [UninstallMultipleProtocolInterfaces negb] in HF.
    apply bind_Some in HF as (q & _ & HF). injection HF as _ <-. done. }
  split; [done|]. intros d fresh Freq st st2 c2 HS. unfold MtYaffs2Start, install_answer in HS.
  cbn [EFI_ERROR open_nand close_nand ct_Sfs] in HS. apply bind_Some in HS as ([[st3 r] p3] & HA & HS).
  injection HS as <- _. unfold Yaffs2AllocateVolume in HA. repeat (case_match; simplify_eq; try done).
  all: apply bind_Some in HA as ([st4 v4] & _ & HA); try done.
  destruct (EFI_ERROR st4) eqn:E4; [by injection HA as <- _ _|].
  apply bind_Some in HA as ([q j] & _ & HA). by injection HA as <- _ _.
Qed.

(** The one leak: when the scan finds no root directory, the error path of
    [Yaffs2AllocateVolume] frees the object array, the page buffer and the
    volume but none of the objects; what stays allocated is exactly the live
    objects and their chunk arrays. *)
Theorem AllocateVolume_leaks {D} `{NandLaws D} (d : D) fresh Freq InstallStatus p r p' :
  geometry_ok D → ids_fit (image d) → Freq ≠ 0 → InstallStatus ≠ EFI_WARN_DELETE_FAILURE →
  InstallStatus ≠ EFI_VOLUME_CORRUPTED →
  Yaffs2AllocateVolume d p fresh Freq InstallStatus = Some (EFI_VOLUME_CORRUPTED, r, p') →
  r = None ∧ ∃ v,
    Yaffs2ScanNand (fresh_volume d (AllocatePool (AllocatePool p).2).2 fresh)
      = Some (EFI_VOLUME_CORRUPTED, v)
    ∧ pool_live p' - pool_live p = objs_cost (v_Objects (vol_Tab v)).
Proof.
  intros Hgeo Hids HF Hi Hi2 E.
  destruct (AllocateVolume_cases d fresh Freq InstallStatus Hgeo Hids HF Hi p)
    as (st & r2 & p2 & E2 & Hcase). rewrite E in E2. injection E2 as <- <- <-.
  destruct r as [v|]; [by destruct Hcase|]. split; [done|].
  destruct Hcase as (_ & [[? _]|[[? _]|[_ (v & Ev & Hl)]]]); [done|congruence|].
  exists v. split; [done|lia].
Qed.

(** ** The properties on small flashes *)

(** Mounted, and stopped while another driver keeps the interface open. *)
Lemma Start_Stop_balanced_witness :
  ∃ c' c'', MtYaffs2Start demo_dev EFI_SUCCESS [] 1000000 EFI_SUCCESS (mkController 0 SfsNone (mkPool [] 0))
             = Some (EFI_SUCCESS, c') ∧ ct_Opens c' = 1 ∧
    MtYaffs2Stop EFI_SUCCESS EFI_INVALID_PARAMETER c' = Some (EFI_SUCCESS, c'') ∧
    ct_Opens c'' = 0 ∧ ct_Sfs c'' = SfsFreed ∧ pool_live (ct_Pool c'') = 0.
Proof.
  assert (HF : 1000000 ≠ 0) by lia.
  assert (Hi : EFI_SUCCESS ≠ EFI_WARN_DELETE_FAILURE) by discriminate.
  destruct (Start_Stop_balanced demo_dev [] 1000000 EFI_SUCCESS EFI_INVALID_PARAMETER
              (mkController 0 SfsNone (mkPool [] 0)) sim_geometry demo_ids_fit HF Hi eq_refl)
    as (st & c' & E & Hc).
  assert (fst <$> MtYaffs2Start demo_dev EFI_SUCCESS [] 1000000 EFI_SUCCESS (mkController 0 SfsNone (mkPool [] 0))
    = Some EFI_SUCCESS) as Es by (vm_compute; reflexivity).
  rewrite E in Es. injection Es as ->. destruct Hc as (Ho & _ & c'' & Es & Ho2 & Hs2 & Hp2).
  exists c', c''. exact (conj E (conj Ho (conj Es (conj Ho2 (conj Hs2 Hp2))))).
Defined.

(** A flash with a file and no root directory. *)
Definition demo_orphan_dev : SimDev := mkSim (list_to_map [
  (0, mk_page (encode_header (demo_header YAFFS2_TYPE_FILE 1 5 [97])) (header_tags 0x1001 1 257 1 5));
  (1, mk_page demo_data (encode_tags 0x1001 257 1 5)) ]) None.

Lemma demo_orphan_ids : ids_fit (image demo_orphan_dev).
Proof.
  split.
  - intros Block i g Hb Hi Hg.
    destruct (cases_0_1 Block Hb) as [-> | ->];
    destruct (cases_0_3 i Hi) as [-> | [-> | [-> | ->]]];
      vm_compute in Hg; first [discriminate Hg | injection Hg as <-; simpl; lia].
  - intros Block seq e Hb Hs.
    destruct (cases_0_1 Block Hb) as [-> | ->]; vm_compute in Hs; discriminate Hs.
Qed.

Lemma AllocateVolume_leaks_witness :
  ∃ p', Yaffs2AllocateVolume demo_orphan_dev (mkPool [] 0) [] 1000000 EFI_SUCCESS
          = Some (EFI_VOLUME_CORRUPTED, None, p')
    ∧ pool_live p' = 2
    ∧ ∃ v, pool_live p' - 0 = objs_cost (v_Objects (vol_Tab (D := SimDev) v)).
Proof.
  assert (HF : 1000000 ≠ 0) by lia.
  assert (Hi : EFI_SUCCESS ≠ EFI_WARN_DELETE_FAILURE) by discriminate.
  assert (Hi2 : EFI_SUCCESS ≠ EFI_VOLUME_CORRUPTED) by discriminate.
  assert (E : Yaffs2AllocateVolume demo_orphan_dev (mkPool [] 0) [] 1000000 EFI_SUCCESS
          = Some (EFI_VOLUME_CORRUPTED, None, mkPool [] 2)) by (vm_compute; reflexivity).
  exists (mkPool [] 2). split; [exact E|]. split; [reflexivity|].
  destruct (AllocateVolume_leaks demo_orphan_dev [] 1000000 EFI_SUCCESS (mkPool [] 0) None _
              sim_geometry demo_orphan_ids HF Hi Hi2 E) as (_ & v & _ & Hl).
  exists v. exact Hl.
Defined.
