(* ===== verification/Npk.v ===== *)
(** * The NPK package parser

    Application/RouterOSLoader: npk_parser.c over the allocator of uefi_libc.h.
    A package is a header, a list of containers, and, in the first container of
    type 4, a zlib stream of file entries. zlib is not part of the program: the
    stream operations are parameters, with their documented behaviour as the
    laws of [InflateLaws]. Pointers into the content buffer are offsets. *)

From S2P Require Import Prelude Efi.

Inductive npk_status :=
  | NPK_STATUS_OK
  | NPK_STATUS_INVALID_ARGUMENT
  | NPK_STATUS_NO_MEMORY
  | NPK_STATUS_TRUNCATED
  | NPK_STATUS_BAD_MAGIC
  | NPK_STATUS_BAD_FORMAT
  | NPK_STATUS_ZLIB_ERROR
  | NPK_STATUS_NO_CONTENT_CONTAINER
  | NPK_STATUS_NOT_FOUND
  | NPK_STATUS_NOT_A_FILE.

#[export] Instance npk_status_eq_dec : EqDecision npk_status.
Proof. solve_decision. Defined.

Inductive npk_entry_type := NPK_ENTRY_TYPE_OTHER | NPK_ENTRY_TYPE_FILE | NPK_ENTRY_TYPE_DIR.

#[export] Instance npk_entry_type_eq_dec : EqDecision npk_entry_type.
Proof. solve_decision. Defined.

Definition S_IFMT : Z := 0xF000.
Definition S_IFDIR : Z := 0x4000.
Definition S_IFREG : Z := 0x8000.
Definition NPK_MAGIC_BYTES : Z := 0xBAD0F11E.
Definition NPK_ZLIB_COMPRESSED_DATA : Z := 4.
Definition NPK_HEADER_SIZE : Z := 8.
Definition NPK_CONTAINER_HEADER_SIZE : Z := 6.
Definition NPK_ZLIB_OBJECT_HEADER_SIZE : Z := 30.

(** [name] is the allocated string with its NUL; [data] is an offset into the
    content buffer. *)
Record npk_entry := mkEntry {
  name : list Z;
  mode : Z;
  size : Z;
  type : npk_entry_type;
  data : Z
}.

(** [content_buffer] is [None] for NULL; [entries_array] says whether the
    entries array has been allocated. *)
Record npk_package := mkPackage {
  source_buffer : list Z;
  content_buffer : option (list Z);
  entries_array : bool;
  entries : list npk_entry
}.

Definition content (p : npk_package) : list Z := default [] (content_buffer p).

(** What [inflate] returns, as far as the code looks at it. *)
Inductive zret := Z_OK | Z_STREAM_END | Z_ERROR.

(** ** uefi_libc.h *)

Definition malloc (p : Pool) : bool * Pool := AllocatePool p.
Definition free (b : bool) (p : Pool) : Pool := if b then FreePool p else p.

(** [realloc] of a buffer that is allocated iff [old]: a new block, the common
    prefix copied, the old block freed; nothing changes when it fails. *)
Definition realloc (old : bool) (p : Pool) : bool * Pool :=
  let '(ok, p) := AllocatePool p in
  if ok then (true, free old p) else (false, p).

(** An open zlib stream holds memory from the same pool, through zcalloc and zcfree:
    what it holds is counted as one allocation, which a successful inflateInit takes
    and only inflateEnd gives back. That inflateInit runs out of memory is among its
    failures, that inflate does among its errors. *)
Definition stream_opened (p : Pool) : Pool := mkPool (pool_script p) (pool_live p + 1).
Definition inflateEnd (p : Pool) : Pool := FreePool p.

(** The bytes [realloc] keeps of a block. *)
Definition realloc_copy (old : list Z) (new_size : Z) : list Z := take (Z.to_nat new_size) old.

Section Code.
Context {ZS : Type} (inflateInit : list Z → option ZS)
        (inflate : ZS → Z → zret * list Z * ZS).

Definition npk_entry_type_from_mode (m : Z) : npk_entry_type :=
  let t := Z.land m S_IFMT in
  if t =? S_IFDIR then NPK_ENTRY_TYPE_DIR
  else if t =? S_IFREG then NPK_ENTRY_TYPE_FILE else NPK_ENTRY_TYPE_OTHER.

(** The decompression loop. [out] is what was written to the buffer of
    [capacity] bytes; [avail_out] is a 32-bit field of the stream. The stream is
    ended and the buffer freed on the error paths. *)
Fixpoint inflate_loop (fuel : nat) (stream : ZS) (capacity : Z) (out : list Z) (p : Pool)
    : option (npk_status * list Z * Pool) :=
  match fuel with
  | O => None
  | S fuel' =>
      let '(ok, capacity, p) :=
        (if len out =? capacity
         then let '(ok, p) := realloc true p in (ok, capacity *u64 2, p)
         else (true, capacity, p)) in
      if negb ok then Some (NPK_STATUS_NO_MEMORY, [], free true (inflateEnd p))
      else
        let avail_out := u32 (capacity - len out) in
        let '(ret, written, stream) := inflate stream avail_out in
        if (avail_out <? len written) || (capacity <? len out + len written) then None
        else
          let out := out ++ written in
          match ret with
          | Z_STREAM_END => Some (NPK_STATUS_OK, out, p)
          | Z_OK => inflate_loop fuel' stream capacity out p
          | Z_ERROR => Some (NPK_STATUS_ZLIB_ERROR, [], free true (inflateEnd p))
          end
  end.

(** The output buffer and its length, when the status is OK. *)
Definition npk_inflate_payload (fuel : nat) (input : list Z) (p : Pool)
    : option (npk_status * option (list Z) * Pool) :=
  let capacity := len input *u64 4 in
  let capacity := if capacity <? 4096 then 4096 else capacity in
  let '(ok, p) := malloc p in
  if negb ok then Some (NPK_STATUS_NO_MEMORY, None, p)
  else
    match inflateInit input with
    | None => Some (NPK_STATUS_ZLIB_ERROR, None, free true p)
    | Some stream =>
        '(st, out, p) ← inflate_loop fuel stream capacity [] (stream_opened p);
        match st with
        | NPK_STATUS_OK =>
            let p := inflateEnd p in
            if len out =? 0 then Some (NPK_STATUS_OK, None, free true p)
            else
              let '(ok, p) := realloc true p in
              Some (NPK_STATUS_OK,
                    Some (if ok : bool then realloc_copy out (len out) else out), p)
        | _ => Some (st, None, p)
        end
    end.

Definition npk_append_entry (package : npk_package) (name_ptr name_len m payload_ptr payload_len : Z)
    (p : Pool) : option (npk_status * npk_package * Pool) :=
  let '(ok, p) := realloc (entries_array package) p in
  if negb ok then Some (NPK_STATUS_NO_MEMORY, package, p)
  else
    let package := mkPackage (source_buffer package) (content_buffer package) true
                             (entries package) in
    let '(ok, p) := malloc p in
    if negb ok then Some (NPK_STATUS_NO_MEMORY, package, p)
    else
      s ← rdn (content package) name_ptr name_len;
      let entry := mkEntry (s ++ [0]) m payload_len (npk_entry_type_from_mode m) payload_ptr in
      Some (NPK_STATUS_OK,
            mkPackage (source_buffer package) (content_buffer package) true
                      (entries package ++ [entry]), p).

(** An entry is at least its header, so the buffer's length bounds the loop. *)
Fixpoint npk_parse_entries (fuel : nat) (package : npk_package) (offset : Z) (p : Pool)
    : option (npk_status * npk_package * Pool) :=
  match fuel with
  | O => None
  | S fuel' =>
      let buffer := content package in
      if offset <? len buffer then
        if len buffer - offset <? NPK_ZLIB_OBJECT_HEADER_SIZE
        then Some (NPK_STATUS_TRUNCATED, package, p)
        else
          m ← le16 buffer offset;
          payload_len ← le32 buffer (offset + 24);
          name_len ← le16 buffer (offset + 28);
          let required := NPK_ZLIB_OBJECT_HEADER_SIZE + name_len + payload_len in
          if len buffer - offset <? required
          then Some (NPK_STATUS_TRUNCATED, package, p)
          else
            let name_ptr := offset + NPK_ZLIB_OBJECT_HEADER_SIZE in
            '(status, package, p) ←
              npk_append_entry package name_ptr name_len m (name_ptr + name_len) payload_len p;
            if decide (status = NPK_STATUS_OK)
            then npk_parse_entries fuel' package (offset + required) p
            else Some (status, package, p)
      else Some (NPK_STATUS_OK, package, p)
  end.

(** The loop over the containers; [zfuel] bounds the decompression. *)
Fixpoint find_content (zfuel fuel : nat) (buffer : list Z) (payload_end offset : Z)
    (package : npk_package) (p : Pool) : option (npk_status * npk_package * Pool) :=
  match fuel with
  | O => None
  | S fuel' =>
      if offset <? payload_end then
        if payload_end - offset <? NPK_CONTAINER_HEADER_SIZE
        then Some (NPK_STATUS_TRUNCATED, package, p)
        else
          container_id ← le16 buffer offset;
          container_payload_len ← le32 buffer (offset + 2);
          let container_size := NPK_CONTAINER_HEADER_SIZE + container_payload_len in
          if payload_end - offset <? container_size
          then Some (NPK_STATUS_TRUNCATED, package, p)
          else if container_id =? NPK_ZLIB_COMPRESSED_DATA then
            input ← rdn buffer (offset + NPK_CONTAINER_HEADER_SIZE) container_payload_len;
            '(status, output, p) ← npk_inflate_payload zfuel input p;
            if decide (status = NPK_STATUS_OK) then
              let package := mkPackage (source_buffer package) output
                                       (entries_array package) (entries package) in
              npk_parse_entries (S (length (content package))) package 0 p
            else Some (status, package, p)
          else find_content zfuel fuel' buffer payload_end (offset + container_size) package p
      else Some (NPK_STATUS_NO_CONTENT_CONTAINER, package, p)
  end.

Definition npk_find_and_inflate_content (zfuel : nat) (buffer : list Z) (package : npk_package)
    (p : Pool) : option (npk_status * npk_package * Pool) :=
  payload_len ← le32 buffer 4;
  if len buffer - NPK_HEADER_SIZE <? payload_len
  then Some (NPK_STATUS_TRUNCATED, package, p)
  else
    find_content zfuel (S (length buffer)) buffer (NPK_HEADER_SIZE + payload_len)
      NPK_HEADER_SIZE package p.

Definition npk_free_entries (array : bool) (es : list npk_entry) (p : Pool) : Pool :=
  if array then FreePool (foldl (λ p _, FreePool p) p es) else p.

(** [package] is not NULL. *)
Definition npk_package_free (package : npk_package) (p : Pool) : Pool :=
  let p := npk_free_entries (entries_array package) (entries package) p in
  let p := free (match content_buffer package with Some _ => true | None => false end) p in
  free true p.

Definition npk_parse_buffer (zfuel : nat) (buffer : option (list Z)) (out_package : bool) (p : Pool)
    : option (npk_status * option npk_package * Pool) :=
  match buffer, out_package with
  | Some bytes, true =>
      if len bytes <? NPK_HEADER_SIZE then Some (NPK_STATUS_INVALID_ARGUMENT, None, p)
      else
        magic ← le32 bytes 0;
        if negb (magic =? NPK_MAGIC_BYTES) then Some (NPK_STATUS_BAD_MAGIC, None, p)
        else
          let '(ok, p) := malloc p in
          if negb ok then Some (NPK_STATUS_NO_MEMORY, None, p)
          else
            '(status, package, p) ←
              npk_find_and_inflate_content zfuel bytes (mkPackage bytes None false []) p;
            if decide (status = NPK_STATUS_OK) then Some (NPK_STATUS_OK, Some package, p)
            else Some (status, None, npk_package_free package p)
  | _, _ => Some (NPK_STATUS_INVALID_ARGUMENT, None, p)
  end.

(** The loop of [npk_extract_file] over the entries: the status and the copy. *)
Fixpoint extract_from (cont : list Z) (es : list npk_entry) (filename : list Z) (p : Pool)
    : option (npk_status * option (list Z) * Pool) :=
  match es with
  | [] => Some (NPK_STATUS_NOT_FOUND, None, p)
  | entry :: es' =>
      r ← AsciiStrCmp (name entry) filename;
      if negb (r =? 0) then extract_from cont es' filename p
      else if negb (bool_decide (type entry = NPK_ENTRY_TYPE_FILE))
      then Some (NPK_STATUS_NOT_A_FILE, None, p)
      else if size entry =? 0 then Some (NPK_STATUS_OK, None, p)
      else
        let '(ok, p) := malloc p in
        if negb ok then Some (NPK_STATUS_NO_MEMORY, None, p)
        else
          copy ← rdn cont (data entry) (size entry);
          Some (NPK_STATUS_OK, Some copy, p)
  end.

(** [None] for the data is the NULL the function leaves with size 0. *)
Definition npk_extract_file (package : option npk_package) (filename : option (list Z))
    (outs : bool) (p : Pool) : option (npk_status * option (list Z) * Pool) :=
  match package, filename, outs with
  | Some package, Some filename, true =>
      extract_from (content package) (entries package) filename p
  | _, _, _ => Some (NPK_STATUS_INVALID_ARGUMENT, None, p)
  end.
End Code.

Definition npk_file_buffer_free (buffer : bool) (p : Pool) : Pool := free buffer p.

(** ** zlib *)

(** The documented behaviour of the stream operations: [inflate] writes at most
    [avail_out] bytes; it returns Z_OK only when it made progress; the
    expansion of a deflate stream is bounded (1032 to 1); and a sound stream
    yields its contents, the end marker coming with the last byte, as long as
    there is room. *)
Class InflateLaws {ZS : Type} (inflateInit : list Z → option ZS)
    (inflate : ZS → Z → zret * list Z * ZS) := {
  pending : ZS → nat;
  potential : ZS → Z;
  decodes : ZS → list Z → Prop;
  inflate_fits s n r w s' : inflate s n = (r, w, s') → 0 <= n →
    len w <= n ∧ Forall byte_ok w ∧ 0 <= potential s' ∧ len w + potential s' <= potential s;
  inflate_progress s n w s' : inflate s n = (Z_OK, w, s') → (pending s' < pending s)%nat;
  inflate_expansion input s : inflateInit input = Some s → 0 <= potential s <= 1032 * len input;
  inflate_decodes s out n r w s' : decodes s out → 0 < n → inflate s n = (r, w, s') →
    ∃ rest, out = w ++ rest ∧
      (r = Z_STREAM_END ∧ rest = [] ∨ r = Z_OK ∧ decodes s' rest)
}.

(** A codec that satisfies them: the "compressed" data are the data. *)
(** States that hold bytes only. *)
Definition stored_state : Type := { l : list Z | bytes_okb l = true }.

Lemma bytes_okb_take n l : bytes_okb l = true → bytes_okb (take n l) = true.
Proof.
  unfold bytes_okb. rewrite !forallb_forall. intros H x Hx. apply H.
  rewrite <- (take_drop n l). apply in_or_app. by left.
Qed.

Lemma bytes_okb_drop n l : bytes_okb l = true → bytes_okb (drop n l) = true.
Proof.
  unfold bytes_okb. rewrite !forallb_forall. intros H x Hx. apply H.
  rewrite <- (take_drop n l). apply in_or_app. by right.
Qed.

Definition stored_init (input : list Z) : option stored_state :=
  match bool_dec (bytes_okb input) true with
  | left H => Some (exist _ input H)
  | right _ => None
  end.

Definition stored_inflate (s : stored_state) (n : Z) : zret * list Z * stored_state :=
  if n <=? 0 then (Z_ERROR, [], s)
  else
    let s' := exist _ (drop (Z.to_nat n) (proj1_sig s)) (bytes_okb_drop (Z.to_nat n) _ (proj2_sig s)) in
    (if decide (proj1_sig s' = []) then Z_STREAM_END else Z_OK,
     take (Z.to_nat n) (proj1_sig s), s').

#[export, program] Instance StoredLaws : InflateLaws stored_init stored_inflate := {
  pending s := length (proj1_sig s);
  potential s := len (proj1_sig s);
  decodes s out := out = proj1_sig s
}.
Next Obligation.
  simpl. intros [s Hs] n r w s'. unfold stored_inflate. case_b; intros [= <- <- <-] Hn; simpl; b2p.
  - split; [lia|]. split; [apply List.Forall_nil|lia].
  - split; [rewrite length_take; lia|].
    split; [apply bytes_okb_spec; by apply bytes_okb_take|].
    rewrite length_take, length_drop. lia.
Qed.
Next Obligation.
  simpl. intros [s Hs] n w s'. unfold stored_inflate. case_b; [done|]. simpl.
  case_decide as Hd; [done|]. intros [= <- <-]. simpl. rewrite length_drop. b2p.
  destruct s; [by rewrite drop_nil in Hd|]. simpl. lia.
Qed.
Next Obligation.
  simpl. intros input s. unfold stored_init. destruct (bool_dec _ _); [|done].
  intros [= <-]. simpl. lia.
Qed.
Next Obligation.
  simpl. intros [s Hs] out n r w s' -> Hn. unfold stored_inflate.
  rewrite (proj2 (Z.leb_gt n 0)) by lia. simpl. intros [= <- <- <-].
  exists (drop (Z.to_nat n) s). rewrite take_drop. split; [done|]. simpl.
  case_decide; auto.
Qed.

(** ** Decompression *)

Section Inflate.
Context {ZS : Type} (inflateInit : list Z → option ZS)
        (inflate : ZS → Z → zret * list Z * ZS) `{!InflateLaws inflateInit inflate}.

Lemma realloc_live p ok p' : realloc true p = (ok, p') → pool_live p' = pool_live p.
Proof.
  unfold realloc. destruct (AllocatePool p) as [b q] eqn:E. apply AllocatePool_live in E.
  destruct b; intros [= <- <-]; simpl; lia.
Qed.

Lemma realloc_plenty b p : pool_plenty p → ∃ p', realloc b p = (true, p') ∧ pool_plenty p'.
Proof.
  intros Hp. unfold realloc. rewrite AllocatePool_plenty by done.
  eexists. split; [done|]. by destruct b.
Qed.

Lemma inflate_loop_spec fuel s capacity out p :
  (pending s < fuel)%nat → len out <= capacity → 0 < capacity < 2 ^ 63 →
  len out + potential s < 2 ^ 61 → 0 <= potential s → Forall byte_ok out →
  ∃ st out' p', inflate_loop inflate fuel s capacity out p = Some (st, out', p')
    ∧ (st = NPK_STATUS_OK ∧ pool_live p' = pool_live p ∧ Forall byte_ok out'
       ∨ st ≠ NPK_STATUS_OK ∧ pool_live p' = pool_live p - 2)
    ∧ ∀ rest, decodes s rest → pool_plenty p → len out + len rest < 2 ^ 31 → capacity < 2 ^ 32 →
        st = NPK_STATUS_OK ∧ out' = out ++ rest ∧ pool_plenty p'.
Proof.
  revert s capacity out p. induction fuel as [|fuel IH]; intros s capacity out p Hf Hc Hcap Hpot Hp0 Hb;
    [lia|]. cbn [inflate_loop].
  assert (Hgrow : ∃ ok cap' p1,
    (if len out =? capacity then let '(ok, p) := realloc true p in (ok, capacity *u64 2, p)
     else (true, capacity, p)) = (ok, cap', p1) ∧ pool_live p1 = pool_live p
    ∧ (ok = true → len out < cap' ∧ 0 < cap' < 2 ^ 63)
    ∧ (pool_plenty p → ok = true ∧ pool_plenty p1)
    ∧ (len out < 2 ^ 31 → capacity < 2 ^ 32 → cap' < 2 ^ 32)).
  { destruct (Z.eqb_spec (len out) capacity) as [He|Hne].
    - destruct (realloc true p) as [ok p1] eqn:Er. exists ok, (capacity *u64 2), p1.
      rewrite u64_small by lia. split; [done|]. split; [by eapply realloc_live|].
      split; [lia|]. split; [|lia]. intros Hp. destruct (realloc_plenty true p Hp) as (q & E & ?).
      rewrite E in Er. by injection Er as <- <-.
    - exists true, capacity, p. split; [done|]. split; [done|]. split; [lia|]. by split. }
  destruct Hgrow as (ok & cap' & p1 & -> & Hl1 & Hok & Hpl & Hsmall). destruct ok; cbn [negb].
  2:{ eexists _, _, _. split; [done|]. split; [right; split; [done|simpl; lia]|].
      intros rest _ Hp. by destruct (Hpl Hp). }
  destruct (Hok eq_refl) as [Hlt Hcap'].
  destruct (inflate s (u32 (cap' - len out))) as [[r w] s'] eqn:Ei.
  pose proof (u32_range (cap' - len out)) as Hu.
  destruct (inflate_fits _ _ _ _ _ Ei) as (Hw & Hwb & Hp' & Hpp); [lia|].
  assert (Hle : u32 (cap' - len out) <= cap' - len out) by (apply Z.mod_le; lia).
  rewrite (proj2 (Z.ltb_ge _ _)), (proj2 (Z.ltb_ge cap' _)) by lia. cbn [orb].
  assert (Hdec : ∀ rest, decodes s rest → pool_plenty p → len out + len rest < 2 ^ 31 →
    capacity < 2 ^ 32 → ∃ rest', rest = w ++ rest' ∧
      (r = Z_STREAM_END ∧ rest' = [] ∨ r = Z_OK ∧ decodes s' rest')).
  { intros rest Hd Hp Hlen Hc32. eapply inflate_decodes; [exact Hd| |exact Ei].
    rewrite u32_small; [lia|]. specialize (Hsmall ltac:(lia) Hc32). lia. }
  destruct r.
  - pose proof (inflate_progress _ _ _ _ Ei) as Hpr.
    destruct (IH s' cap' (out ++ w) p1) as (st & out' & p2 & E & Hcase & Hd);
      [lia|rewrite length_app; lia|lia|rewrite length_app; lia|done|by apply Forall_app|].
    exists st, out', p2. split; [exact E|]. rewrite Hl1 in Hcase. split; [done|].
    intros rest Hd0 Hp Hlen Hc32. destruct (Hdec rest Hd0 Hp Hlen Hc32) as (rest' & -> & Hor).
    destruct Hor as [[? _]|[_ Hd']]; [done|]. rewrite app_assoc.
    apply Hd; [done|by apply Hpl|rewrite !length_app in *; lia|apply Hsmall; lia].
  - eexists _, _, _. split; [done|]. split; [left; split_and!; [done|done|by apply Forall_app]|].
    intros rest Hd0 Hp Hlen Hc32. destruct (Hdec rest Hd0 Hp Hlen Hc32) as (rest' & -> & Hor).
    destruct Hor as [[_ ->]|[? _]]; [|done]. rewrite app_nil_r. split_and!; try done. by apply Hpl.
  - eexists _, _, _. split; [done|]. split; [right; split; [done|simpl; lia]|].
    intros rest Hd0 Hp Hlen Hc32. destruct (Hdec rest Hd0 Hp Hlen Hc32) as (rest' & -> & Hor).
    destruct Hor as [[? _]|[? _]]; done.
Qed.

(** Fuel that outlasts the decompression of any part of [buffer]. *)
Definition fuel_for (zfuel : nat) (buffer : list Z) : Prop :=
  ∀ off n input s, rdn buffer off n = Some input → inflateInit input = Some s →
    (pending s < zfuel)%nat.

Lemma npk_inflate_payload_spec zfuel input p :
  len input < 2 ^ 32 →
  (∀ s, inflateInit input = Some s → (pending s < zfuel)%nat) →
  ∃ st r p', npk_inflate_payload inflateInit inflate zfuel input p = Some (st, r, p')
    ∧ (st = NPK_STATUS_OK ∧ pool_live p' = pool_live p + (match r with Some _ => 1 | None => 0 end)
       ∧ Forall byte_ok (default [] r)
       ∨ st ≠ NPK_STATUS_OK ∧ r = None ∧ pool_live p' = pool_live p)
    ∧ ∀ s out, inflateInit input = Some s → decodes s out → pool_plenty p →
        len input < 2 ^ 30 → len out < 2 ^ 31 →
        st = NPK_STATUS_OK ∧ default [] r = out ∧ pool_plenty p'.
Proof.
  intros Hin Hfuel. unfold npk_inflate_payload. rewrite u64_small by lia.
  set (cap := if len input * 4 <? 4096 then 4096 else len input * 4).
  assert (Hcap : 4096 <= cap < 2 ^ 35 ∧ (len input < 2 ^ 30 → cap < 2 ^ 32))
    by (subst cap; case_b; b2p; lia).
  unfold malloc. destruct (AllocatePool p) as [ok p1] eqn:E1.
  assert (Hpl : pool_plenty p → ok = true ∧ pool_plenty p1).
  { intros Hp. rewrite AllocatePool_plenty in E1 by done. by injection E1 as <- <-. }
  apply AllocatePool_live in E1. destruct ok; cbn [negb].
  2:{ eexists _, _, _. split; [done|]. split; [right; split_and!; try done; lia|].
      intros s out _ _ Hp. by destruct (Hpl Hp). }
  destruct (inflateInit input) as [s|] eqn:Ei.
  2:{ eexists _, _, _. split; [done|]. split; [right; split_and!; try done; simpl; lia|done]. }
  pose proof (inflate_expansion _ _ Ei) as Hpot.
  destruct (inflate_loop_spec zfuel s cap [] (stream_opened p1)) as (st & out & p2 & -> & Hcase & Hd);
    [by apply Hfuel|simpl; lia|lia|simpl; lia|lia|apply List.Forall_nil|].
  cbn [mbind option_bind]. change (pool_live (stream_opened p1)) with (pool_live p1 + 1) in Hcase.
  change (pool_plenty (stream_opened p1)) with (pool_plenty p1) in Hd.
  destruct Hcase as [(-> & Hl & Hb)|[Hne Hl]].
  2:{ destruct st; try done; (eexists _, _, _; split; [done|]; split;
        [right; split_and!; try done; lia|]; intros s0 out0 [= <-] Hd0 Hp Hi Ho;
        destruct (Hd out0 Hd0) as (? & _); [by apply Hpl|simpl; lia|by apply Hcap|done]). }
  destruct (Z.eqb_spec (len out) 0) as [Hz|Hnz].
  - assert (out = []) as -> by (destruct out; [done|simpl in Hz; lia]).
    eexists _, _, _. split; [done|]. split; [left; split_and!; [done|simpl; lia|done]|].
    intros s0 out0 [= <-] Hd0 Hp Hi Ho.
    destruct (Hd out0 Hd0) as (_ & Heq & Hp2); [by apply Hpl|simpl; lia|by apply Hcap|].
    simpl in Heq. subst. split_and!; try done.
  - destruct (realloc true (inflateEnd p2)) as [ok p3] eqn:Er. pose proof (realloc_live _ _ _ Er) as Hl3.
    change (pool_live (inflateEnd p2)) with (pool_live p2 - 1) in Hl3.
    assert (Hcopy : (if ok then realloc_copy out (len out) else out) = out).
    { destruct ok; [|done]. unfold realloc_copy. by rewrite Nat2Z.id, take_ge by lia. }
    rewrite Hcopy. eexists _, _, _. split; [done|].
    split; [left; split_and!; [done|lia|done]|].
    intros s0 out0 [= <-] Hd0 Hp Hi Ho.
    destruct (Hd out0 Hd0) as (_ & Heq & Hp2); [by apply Hpl|simpl; lia|by apply Hcap|].
    split_and!; [done|done|]. destruct (realloc_plenty true (inflateEnd p2) Hp2) as (q & Eq & ?).
    rewrite Eq in Er. by injection Er as _ <-.
Qed.
End Inflate.

(** ** Packages *)

(** An entry's name is terminated and its data lie in the content buffer. *)
Record entry_ok (cont : list Z) (e : npk_entry) : Prop := {
  eok_name : ∃ s, name e = s ++ [0] ∧ Forall byte_ok s;
  eok_data : 0 <= data e ∧ 0 <= size e ∧ data e + size e <= len cont;
  eok_type : type e = npk_entry_type_from_mode (mode e)
}.

Definition is_Some_b {A} (o : option A) : bool := match o with Some _ => true | None => false end.

Record package_ok (k : npk_package) : Prop := {
  pok_array : entries_array k = false → entries k = [];
  pok_entries : Forall (entry_ok (content k)) (entries k);
  pok_bytes : Forall byte_ok (content k)
}.

(** The allocations of a package besides itself. *)
Definition package_cost (k : npk_package) : Z :=
  (if entries_array k then 1 else 0) + len (entries k)
  + (if is_Some_b (content_buffer k) then 1 else 0).

(** The step from (k, p) to (k', p') allocates what the package grew by. *)
Definition balanced (k : npk_package) (p : Pool) (k' : npk_package) (p' : Pool) : Prop :=
  pool_live p' - package_cost k' = pool_live p - package_cost k.

Lemma free_entries_live b es p :
  (b = false → es = []) →
  pool_live (npk_free_entries b es p) = pool_live p - (if b then 1 else 0) - len es.
Proof.
  intros Hb. assert (Hf : ∀ q, pool_live (foldl (λ p (_ : npk_entry), FreePool p) q es)
                             = pool_live q - len es).
  { clear. induction es as [|e es IH]; intros q; simpl; [lia|]. rewrite IH. simpl. lia. }
  unfold npk_free_entries. destruct b; simpl; [rewrite Hf; lia|]. rewrite Hb by done. simpl. lia.
Qed.

(** Freeing a package gives back all it holds. *)
Lemma package_free_live k p :
  package_ok k → pool_live (npk_package_free k p) = pool_live p - package_cost k - 1.
Proof.
  intros Hk. unfold npk_package_free, package_cost. simpl.
  pose proof (free_entries_live (entries_array k) (entries k) p (pok_array _ Hk)).
  destruct (content_buffer k); simpl; lia.
Qed.

Lemma npk_append_entry_spec k np nl m pp pl p :
  package_ok k → 0 <= np → 0 <= nl → np + nl <= len (content k) →
  0 <= pp → 0 <= pl → pp + pl <= len (content k) →
  ∃ st k' p', npk_append_entry k np nl m pp pl p = Some (st, k', p')
    ∧ package_ok k' ∧ content_buffer k' = content_buffer k ∧ balanced k p k' p'
    ∧ (pool_plenty p → st = NPK_STATUS_OK ∧ pool_plenty p' ∧ source_buffer k' = source_buffer k
        ∧ ∃ s, rdn (content k) np nl = Some s ∧
          entries k' = entries k ++ [mkEntry (s ++ [0]) m pl (npk_entry_type_from_mode m) pp]).
Proof.
  intros [Ha He Hb] H1 H2 H3 H4 H5 H6. unfold npk_append_entry, realloc, malloc, balanced.
  destruct (AllocatePool p) as [ok p1] eqn:E1.
  assert (Hpl1 : pool_plenty p → ok = true ∧ pool_plenty p1).
  { intros Hp. rewrite AllocatePool_plenty in E1 by done. by injection E1 as <- <-. }
  apply AllocatePool_live in E1. destruct ok; cbn [negb].
  2:{ eexists _, _, _. split; [done|]. split; [by split|]. split; [done|]. split; [lia|].
      intros Hp. by destruct (Hpl1 Hp). }
  set (p2 := free (entries_array k) p1).
  assert (Hp2 : pool_live p2 = pool_live p + 1 - (if entries_array k then 1 else 0)
                ∧ (pool_plenty p → pool_plenty p2)).
  { subst p2. destruct (entries_array k); simpl; (split; [lia|]); intros Hp; by apply Hpl1. }
  destruct (AllocatePool p2) as [ok p3] eqn:E3.
  assert (Hpl3 : pool_plenty p → ok = true ∧ pool_plenty p3).
  { intros Hp. rewrite AllocatePool_plenty in E3 by (by apply Hp2). by injection E3 as <- <-. }
  apply AllocatePool_live in E3. destruct ok; cbn [negb].
  2:{ eexists _, _, _. split; [done|]. split; [by split|]. split; [done|].
      split; [unfold package_cost; simpl; lia|]. intros Hp. by destruct (Hpl3 Hp). }
  change (content (mkPackage _ _ _ _)) with (content k).
  rewrite rdn_eq by lia. cbn [mbind option_bind]. eexists _, _, _. split; [done|].
  set (s := take _ _). assert (Hs : Forall byte_ok s) by by apply Forall_take, Forall_drop.
  split.
  { split; [done| |done]. change (content (mkPackage _ _ _ _)) with (content k). simpl.
    apply Forall_app. split; [done|]. apply Forall_singleton. split; simpl; [eauto|lia|done]. }
  split; [done|]. split; [unfold package_cost; simpl; rewrite length_app; simpl; lia|].
  intros Hp. destruct (Hpl3 Hp). split_and!; try done. by exists s.
Qed.

Lemma parse_entries_safe fuel k offset p :
  package_ok k → 0 <= offset → Z.max 0 (len (content k) - offset) < Z.of_nat fuel →
  ∃ st k' p', npk_parse_entries fuel k offset p = Some (st, k', p')
    ∧ package_ok k' ∧ content_buffer k' = content_buffer k ∧ balanced k p k' p'.
Proof.
  revert k offset p. induction fuel as [|fuel IH]; intros k offset p Hk Ho Hf; cbn [npk_parse_entries].
  { exfalso. lia. }
  destruct (Z.ltb_spec offset (len (content k))) as [Hlt|]; [|by eexists _, _, _].
  unfold NPK_ZLIB_OBJECT_HEADER_SIZE in *.
  destruct (Z.ltb_spec (len (content k) - offset) 30); [by eexists _, _, _|].
  pose proof (pok_bytes _ Hk) as Hb.
  destruct (le16_is_Some (content k) offset) as [m Em]; [lia..|].
  destruct (le32_is_Some (content k) (offset + 24)) as [pl Epl]; [lia..|].
  destruct (le16_is_Some (content k) (offset + 28)) as [nl Enl]; [lia..|].
  rewrite Em, Epl, Enl. cbn [mbind option_bind].
  apply (le32_range _ _ _ Hb) in Epl. apply (le16_range _ _ _ Hb) in Enl.
  destruct (Z.ltb_spec (len (content k) - offset) (30 + nl + pl)); [by eexists _, _, _|].
  destruct (npk_append_entry_spec k (offset + 30) nl m (offset + 30 + nl) pl p Hk)
    as (st & k1 & p1 & -> & Hk1 & Hc1 & Hb1 & _); [lia..|].
  cbn [mbind option_bind]. case_decide; [|by eexists _, _, _].
  assert (Hcc : content k1 = content k) by (unfold content; by rewrite Hc1).
  destruct (IH k1 (offset + (30 + nl + pl)) p1 Hk1) as (st' & k' & p' & -> & Hk' & Hc' & Hb');
    [lia|rewrite Hcc; lia|].
  eexists _, _, _. split; [done|]. split; [done|]. split; [congruence|].
  unfold balanced in *. lia.
Qed.

Section Parse.
Context {ZS : Type} (inflateInit : list Z → option ZS)
        (inflate : ZS → Z → zret * list Z * ZS) `{!InflateLaws inflateInit inflate}.

Lemma find_content_safe zfuel fuel buffer pend offset k p :
  Forall byte_ok buffer → fuel_for inflateInit inflate zfuel buffer →
  package_ok k → content_buffer k = None → entries_array k = false →
  0 <= offset → pend <= len buffer → Z.max 0 (pend - offset) < Z.of_nat fuel →
  ∃ st k' p', find_content inflateInit inflate zfuel fuel buffer pend offset k p = Some (st, k', p')
    ∧ package_ok k' ∧ balanced k p k' p'.
Proof.
  intros Hb Hz. revert offset k p.
  induction fuel as [|fuel IH]; intros offset k p Hk Hc Ha Ho Hp Hf; [exfalso; lia|].
  cbn [find_content].
  destruct (Z.ltb_spec offset pend) as [Hlt|]; [|by eexists _, _, _].
  unfold NPK_CONTAINER_HEADER_SIZE in *.
  destruct (Z.ltb_spec (pend - offset) 6); [by eexists _, _, _|].
  destruct (le16_is_Some buffer offset) as [id Eid]; [lia..|].
  destruct (le32_is_Some buffer (offset + 2)) as [pl Epl]; [lia..|].
  rewrite Eid, Epl. cbn [mbind option_bind]. apply (le32_range _ _ _ Hb) in Epl.
  destruct (Z.ltb_spec (pend - offset) (6 + pl)); [by eexists _, _, _|].
  destruct (id =? NPK_ZLIB_COMPRESSED_DATA).
  2:{ apply IH; try done; lia. }
  destruct (rdn buffer (offset + 6) pl) as [input|] eqn:Er;
    [|rewrite rdn_eq in Er by lia; done].
  pose proof (rdn_Some _ _ _ _ Er) as (_ & _ & _ & Hl & _). cbn [mbind option_bind].
  destruct (npk_inflate_payload_spec inflateInit inflate zfuel input p)
    as (st & r & p1 & -> & Hcase & _); [lia|intros s Hs; by eapply Hz|].
  cbn [mbind option_bind]. destruct Hcase as [(-> & Hl1 & Hrb)|(Hne & _ & Hl1)].
  2:{ rewrite decide_False by done. eexists _, _, _. split; [done|]. split; [done|].
      unfold balanced. lia. }
  rewrite decide_True by done.
  set (k1 := mkPackage (source_buffer k) r (entries_array k) (entries k)).
  assert (Hk1 : package_ok k1).
  { split; [exact (pok_array _ Hk)| |exact Hrb]. simpl. by rewrite (pok_array _ Hk Ha). }
  destruct (parse_entries_safe (S (length (content k1))) k1 0 p1 Hk1)
    as (st & k' & p' & -> & Hk' & _ & Hbal); [lia|lia|].
  eexists _, _, _. split; [done|]. split; [done|].
  unfold balanced, package_cost in *. rewrite Hc. simpl in *. destruct r; simpl in *; lia.
Qed.

Lemma package_new_ok bytes : package_ok (mkPackage bytes None false []).
Proof. by split. Qed.

(** All outcomes of [npk_parse_buffer]. *)
Lemma npk_parse_buffer_run zfuel bytes p :
  Forall byte_ok bytes → fuel_for inflateInit inflate zfuel bytes →
  ∃ st r p', npk_parse_buffer inflateInit inflate zfuel (Some bytes) true p = Some (st, r, p') ∧
    match r with
    | Some k => st = NPK_STATUS_OK ∧ package_ok k
                ∧ pool_live (npk_package_free k p') = pool_live p
    | None => st ≠ NPK_STATUS_OK ∧ pool_live p' = pool_live p
    end.
Proof.
  intros Hb Hz. unfold npk_parse_buffer, NPK_HEADER_SIZE.
  destruct (Z.ltb_spec (len bytes) 8); [by eexists _, None, _|].
  destruct (le32_is_Some bytes 0) as [mg ->]; [lia..|]. cbn [mbind option_bind].
  destruct (negb (mg =? NPK_MAGIC_BYTES)); [by eexists _, None, _|].
  unfold malloc. destruct (AllocatePool p) as [ok p1] eqn:E1. apply AllocatePool_live in E1.
  destruct ok; cbn [negb]; [|eexists _, None, _; split; [done|]; split; [done|lia]].
  unfold npk_find_and_inflate_content, NPK_HEADER_SIZE.
  destruct (le32_is_Some bytes 4) as [pl Epl]; [lia..|]. rewrite Epl.
  apply (le32_range _ _ _ Hb) in Epl. cbn [mbind option_bind].
  set (k0 := mkPackage bytes None false []).
  assert (Hrun : ∃ st k' p', (if len bytes - 8 <? pl then Some (NPK_STATUS_TRUNCATED, k0, p1)
      else find_content inflateInit inflate zfuel (S (length bytes)) bytes (8 + pl) 8 k0 p1)
      = Some (st, k', p') ∧ package_ok k' ∧ balanced k0 p1 k' p').
  { destruct (Z.ltb_spec (len bytes - 8) pl).
    - eexists _, _, _. split; [done|]. split; [apply package_new_ok|done].
    - apply find_content_safe; try done; try lia. }
  destruct Hrun as (st & k' & p' & -> & Hk' & Hbal). cbn [mbind option_bind].
  pose proof (package_free_live k' p' Hk') as Hfree.
  unfold balanced in Hbal. change (package_cost k0) with 0 in Hbal.
  case_decide.
  - eexists _, (Some k'), _. split; [done|]. split; [done|]. split; [done|lia].
  - eexists _, None, _. split; [done|]. split; [done|lia].
Qed.
End Parse.

(** C22: Safety of the package parser: for any input bytes, any zlib that keeps
    its documented contract (whatever the streams contain) and any allocation
    results, [npk_parse_buffer] terminates without reading outside the input or
    the decompressed content or overrunning the output buffer. On failure
    nothing stays allocated, what zlib holds for an open stream included (counted
    as one allocation, which only inflateEnd gives back); on success every entry's
    name is terminated, its data lie inside the content buffer, and freeing the
    package gives back every allocation, so that the stream was ended there too. *)
Theorem npk_parse_safe {ZS} (inflateInit : list Z → option ZS) inflate
    `{!InflateLaws inflateInit inflate} zfuel bytes p :
  Forall byte_ok bytes → fuel_for inflateInit inflate zfuel bytes →
  ∃ st r p', npk_parse_buffer inflateInit inflate zfuel (Some bytes) true p = Some (st, r, p') ∧
    match r with
    | Some k => st = NPK_STATUS_OK ∧ Forall (entry_ok (content k)) (entries k)
                ∧ pool_live (npk_package_free k p') = pool_live p
    | None => st ≠ NPK_STATUS_OK ∧ pool_live p' = pool_live p
    end.
Proof.
  intros Hb Hz. destruct (npk_parse_buffer_run inflateInit inflate zfuel bytes p Hb Hz)
    as (st & r & p' & E & Hcase).
  exists st, r, p'. split; [exact E|]. destruct r; [|exact Hcase].
  destruct Hcase as (? & [] & ?). auto.
Qed.

(** Extraction from a well-formed package: it never faults, and the caller owns the
    copy of a non-empty file, which is the data of an entry of that name. *)
Lemma extract_from_safe cont es filename p :
  Forall (entry_ok cont) es → Forall (λ c, c ≠ 0) filename →
  ∃ st r p', extract_from cont es (filename ++ [0]) p = Some (st, r, p') ∧
    pool_live p' = pool_live p + (if is_Some_b r then 1 else 0) ∧
    match r with
    | Some d => st = NPK_STATUS_OK ∧ ∃ e, e ∈ es ∧ cstr (name e) = filename ∧
        type e = NPK_ENTRY_TYPE_FILE ∧ rdn cont (data e) (size e) = Some d
    | None => True
    end.
Proof.
  intros Hes Hnm. induction Hes as [|e es He Hes IH]; cbn [extract_from].
  { eexists _, None, p. split; [done|]. split; [simpl; lia|done]. }
  destruct (eok_name _ _ He) as (s & Hs & _).
  destruct (AsciiStrCmp_cstr (name e) filename) as (r & -> & Hr);
    [rewrite Hs; apply elem_of_app; right; by apply elem_of_cons; left|done|].
  cbn [mbind option_bind]. destruct (Z.eqb_spec r 0) as [E|E]; cbn [negb].
  2:{ destruct IH as (st & d & p' & -> & Hp & Hd). exists st, d, p'. split_and!; [done..|].
      destruct d; [|done]. destruct Hd as (-> & e' & Hin & Hrest). split; [done|]. exists e'.
      split; [by apply elem_of_cons; right|done]. }
  destruct (bool_decide (type e = NPK_ENTRY_TYPE_FILE)) eqn:Et; cbn [negb].
  2:{ eexists _, None, p. split; [done|]. split; [simpl; lia|done]. }
  destruct (size e =? 0); [eexists _, None, p; split; [done|]; split; [simpl; lia|done]|].
  unfold malloc. destruct (AllocatePool p) as [ok p1] eqn:EA. apply AllocatePool_live in EA.
  destruct ok; cbn [negb]; [|eexists _, None, _; split; [done|]; split; [simpl; lia|done]].
  destruct (eok_data _ _ He) as (? & ? & ?). rewrite (rdn_eq cont (data e) (size e)) by lia.
  cbn [mbind option_bind]. eexists _, (Some _), _. split; [done|]. split; [simpl; lia|]. split; [done|].
  exists e. apply bool_decide_eq_true_1 in Et. split_and!; [by apply elem_of_cons; left|tauto|done|].
  by rewrite rdn_eq by lia.
Qed.

(** ** Round trip *)

(** A file of the package, with the 22 bytes of its header nobody reads. *)
Record file := mkFile {
  f_mode : Z; f_fill : list Z; f_name : list Z; f_payload : list Z
}.

Definition encode_file (f : file) : list Z :=
  le_bytes 2 (f_mode f) ++ f_fill f ++ le_bytes 4 (len (f_payload f))
  ++ le_bytes 2 (len (f_name f)) ++ f_name f ++ f_payload f.

Definition encode_files (fs : list file) : list Z := concat (map encode_file fs).

Record file_ok (f : file) : Prop := {
  fok_mode : 0 <= f_mode f < 2 ^ 16;
  fok_fill : length (f_fill f) = 22%nat;
  fok_name : len (f_name f) < 2 ^ 16 ∧ Forall (λ c, c ≠ 0) (f_name f);
  fok_payload : len (f_payload f) < 2 ^ 32
}.

(** The entries of the files encoded from offset [off]. *)
Fixpoint entries_at (off : Z) (fs : list file) : list npk_entry :=
  match fs with
  | [] => []
  | f :: fs' =>
      let d := off + NPK_ZLIB_OBJECT_HEADER_SIZE + len (f_name f) in
      mkEntry (f_name f ++ [0]) (f_mode f) (len (f_payload f))
              (npk_entry_type_from_mode (f_mode f)) d
      :: entries_at (d + len (f_payload f)) fs'
  end.

Lemma length_encode_file f :
  file_ok f → len (encode_file f) = NPK_ZLIB_OBJECT_HEADER_SIZE + len (f_name f) + len (f_payload f).
Proof.
  intros []. unfold encode_file, NPK_ZLIB_OBJECT_HEADER_SIZE.
  rewrite !length_app, !length_le_bytes. lia.
Qed.

Lemma encode_files_length fs : Forall file_ok fs → (length fs <= length (encode_files fs))%nat.
Proof.
  unfold encode_files. induction 1 as [|f fs Hf Hfs IH]; simpl; [lia|].
  pose proof (length_encode_file f Hf) as Hl. unfold NPK_ZLIB_OBJECT_HEADER_SIZE in Hl.
  rewrite length_app. lia.
Qed.

(** The loads of one loop iteration. *)
Lemma encode_file_loads pre f post :
  file_ok f →
  let buf := pre ++ encode_file f ++ post in
  le16 buf (len pre) = Some (f_mode f)
  ∧ le32 buf (len pre + 24) = Some (len (f_payload f))
  ∧ le16 buf (len pre + 28) = Some (len (f_name f))
  ∧ rdn buf (len pre + 30) (len (f_name f)) = Some (f_name f)
  ∧ rdn buf (len pre + 30 + len (f_name f)) (len (f_payload f)) = Some (f_payload f).
Proof.
  intros [Hm Hf [Hn _] Hp]. unfold encode_file. rewrite <- !app_assoc. split_and!.
  - apply le16_encode. done.
  - rewrite le32_app_r, le32_app_r, le32_app_r by (rewrite ?length_le_bytes; lia).
    rewrite length_le_bytes, Hf. replace (len pre + 24 - len pre - _ - _) with 0 by lia.
    apply (le32_encode []). lia.
  - rewrite le16_app_r, le16_app_r, le16_app_r, le16_app_r by (rewrite ?length_le_bytes; lia).
    rewrite !length_le_bytes, Hf. replace (len pre + 28 - len pre - _ - _ - _) with 0 by lia.
    apply (le16_encode []). lia.
  - rewrite rdn_app_r, rdn_app_r, rdn_app_r, rdn_app_r, rdn_app_r by (rewrite ?length_le_bytes; lia).
    rewrite !length_le_bytes, Hf. replace (len pre + 30 - len pre - _ - _ - _ - _) with 0 by lia.
    rewrite rdn_app_0 by lia. by rewrite Nat2Z.id, take_ge by lia.
  - rewrite rdn_app_r, rdn_app_r, rdn_app_r, rdn_app_r, rdn_app_r, rdn_app_r
      by (rewrite ?length_le_bytes; lia).
    rewrite !length_le_bytes, Hf.
    replace (len pre + 30 + len (f_name f) - len pre - _ - _ - _ - _ - _) with 0 by lia.
    rewrite rdn_app_0 by lia. by rewrite Nat2Z.id, take_ge by lia.
Qed.

Lemma parse_entries_encoded fuel k pre fs p :
  package_ok k → content k = pre ++ encode_files fs → Forall file_ok fs → pool_plenty p →
  (length fs < fuel)%nat →
  ∃ k' p', npk_parse_entries fuel k (len pre) p = Some (NPK_STATUS_OK, k', p')
    ∧ pool_plenty p' ∧ content_buffer k' = content_buffer k ∧ source_buffer k' = source_buffer k
    ∧ entries k' = entries k ++ entries_at (len pre) fs.
Proof.
  revert k pre fs p. induction fuel as [|fuel IH]; intros k pre fs p Hk Hc Hfs Hp Hf; [lia|].
  cbn [npk_parse_entries]. rewrite Hc. destruct fs as [|f fs].
  { simpl. rewrite app_nil_r, Z.ltb_irrefl. exists k, p. by rewrite app_nil_r. }
  apply List.Forall_cons_iff in Hfs as [Hf0 Hfs].
  unfold encode_files in *. cbn [map concat] in *. set (post := concat (map encode_file fs)) in *.
  destruct (encode_file_loads pre f post Hf0) as (-> & -> & -> & Hname & _).
  pose proof (length_encode_file f Hf0) as Hlen. unfold NPK_ZLIB_OBJECT_HEADER_SIZE in *.
  assert (Htot : len (pre ++ encode_file f ++ post) = len pre + len (encode_file f) + len post)
    by (rewrite !length_app; lia).
  rewrite (proj2 (Z.ltb_lt _ _)) by lia. rewrite (proj2 (Z.ltb_ge _ 30)) by lia.
  cbn [mbind option_bind]. rewrite (proj2 (Z.ltb_ge _ _)) by lia.
  destruct (npk_append_entry_spec k (len pre + 30) (len (f_name f)) (f_mode f)
              (len pre + 30 + len (f_name f)) (len (f_payload f)) p Hk)
    as (st & k1 & p1 & -> & Hk1 & Hc1 & _ & Hpl); [rewrite ?Hc; lia..|].
  destruct (Hpl Hp) as (-> & Hp1 & Hs1 & s & Hrd & He1). rewrite Hc, Hname in Hrd.
  injection Hrd as <-. cbn [mbind option_bind]. rewrite decide_True by done.
  replace (len pre + (30 + len (f_name f) + len (f_payload f))) with (len (pre ++ encode_file f))
    by (rewrite length_app; lia).
  destruct (IH k1 (pre ++ encode_file f) fs p1 Hk1) as (k' & p' & E & Hp' & Hc' & Hs' & He');
    [unfold content; rewrite Hc1; fold (content k); by rewrite Hc, <- app_assoc|done|done|simpl in Hf; lia|].
  rewrite E. exists k', p'. split; [done|]. split; [done|]. split; [congruence|].
  split; [congruence|]. rewrite He', He1, <- app_assoc. cbn [entries_at app].
  unfold NPK_ZLIB_OBJECT_HEADER_SIZE. do 3 f_equal. rewrite length_app. lia.
Qed.

(** A container: its type and its payload. *)
Definition encode_container (c : Z * list Z) : list Z :=
  le_bytes 2 c.1 ++ le_bytes 4 (len c.2) ++ c.2.

Definition encode_package (cs : list (Z * list Z)) : list Z :=
  let body := concat (map encode_container cs) in
  le_bytes 4 NPK_MAGIC_BYTES ++ le_bytes 4 (len body) ++ body.

Definition container_ok (c : Z * list Z) : Prop := 0 <= c.1 < 2 ^ 16 ∧ len c.2 < 2 ^ 32.

Lemma length_encode_container c : len (encode_container c) = NPK_CONTAINER_HEADER_SIZE + len c.2.
Proof.
  unfold encode_container, NPK_CONTAINER_HEADER_SIZE.
  rewrite !length_app, !length_le_bytes. lia.
Qed.

Lemma encode_container_loads pre c post :
  container_ok c →
  let buf := pre ++ encode_container c ++ post in
  le16 buf (len pre) = Some c.1 ∧ le32 buf (len pre + 2) = Some (len c.2)
  ∧ rdn buf (len pre + 6) (len c.2) = Some c.2.
Proof.
  intros [Hid Hl]. unfold encode_container. rewrite <- !app_assoc. split_and!.
  - by apply le16_encode.
  - rewrite le32_app_r, le32_app_r by (rewrite ?length_le_bytes; lia).
    rewrite length_le_bytes. replace (len pre + 2 - len pre - _) with 0 by lia.
    apply (le32_encode []). lia.
  - rewrite rdn_app_r, rdn_app_r, rdn_app_r by (rewrite ?length_le_bytes; lia).
    rewrite !length_le_bytes. replace (len pre + 6 - len pre - _ - _) with 0 by lia.
    rewrite rdn_app_0 by lia. by rewrite Nat2Z.id, take_ge by lia.
Qed.

(** The first file of a name. *)
Fixpoint find_file (nm : list Z) (fs : list file) : option file :=
  match fs with
  | [] => None
  | f :: fs' => if decide (f_name f = nm) then Some f else find_file nm fs'
  end.

Lemma extract_from_encoded cont pre fs nm p :
  cont = pre ++ encode_files fs → Forall file_ok fs → Forall (λ c, c ≠ 0) nm → pool_plenty p →
  ∃ p', pool_plenty p' ∧ extract_from cont (entries_at (len pre) fs) (nm ++ [0]) p =
    Some (match find_file nm fs with
          | None => (NPK_STATUS_NOT_FOUND, None, p')
          | Some f =>
              if decide (npk_entry_type_from_mode (f_mode f) = NPK_ENTRY_TYPE_FILE)
              then (NPK_STATUS_OK, match f_payload f with [] => None | d => Some d end, p')
              else (NPK_STATUS_NOT_A_FILE, None, p')
          end).
Proof.
  intros Hc Hfs Hnm Hp. revert pre Hc. induction Hfs as [|f fs Hf Hfs IH]; intros pre Hc.
  { by exists p. }
  cbn [entries_at extract_from find_file name type size data].
  destruct (AsciiStrCmp_eq (f_name f) nm (proj2 (fok_name _ Hf)) Hnm) as (r & -> & Hr).
  cbn [mbind option_bind]. unfold encode_files in Hc. cbn [map concat] in Hc.
  destruct (encode_file_loads pre f (concat (map encode_file fs)) Hf) as (_ & _ & _ & _ & Hpl).
  rewrite <- Hc in Hpl. pose proof (length_encode_file f Hf) as Hlen.
  destruct (Z.eqb_spec r 0) as [E|E]; cbn [negb].
  - rewrite (decide_True (P := f_name f = nm)) by tauto.
    destruct (decide (npk_entry_type_from_mode (f_mode f) = NPK_ENTRY_TYPE_FILE)) as [Ht|Ht].
    2:{ rewrite bool_decide_eq_false_2 by done. by exists p. }
    rewrite bool_decide_eq_true_2 by done. cbn [negb].
    destruct (f_payload f) as [|b d] eqn:Ed; [by exists p|].
    rewrite (proj2 (Z.eqb_neq (len (b :: d)) 0)) by (simpl; lia).
    unfold malloc. rewrite AllocatePool_plenty by done. cbn [negb].
    unfold NPK_ZLIB_OBJECT_HEADER_SIZE. rewrite Hpl. eexists. by split; [|reflexivity].
  - rewrite (decide_False (P := f_name f = nm)) by tauto.
    unfold NPK_ZLIB_OBJECT_HEADER_SIZE in *.
    replace (len pre + 30 + len (f_name f) + len (f_payload f)) with (len (pre ++ encode_file f))
      by (rewrite length_app; lia).
    apply IH. rewrite Hc. by rewrite <- app_assoc.
Qed.

Section RoundTrip.
Context {ZS : Type} (inflateInit : list Z → option ZS)
        (inflate : ZS → Z → zret * list Z * ZS) `{!InflateLaws inflateInit inflate}.
Context (z : list Z) (s : ZS) (fs : list file).
Hypothesis Hz : len z < 2 ^ 30.
Hypothesis Hinit : inflateInit z = Some s.
Hypothesis Hdec : decodes s (encode_files fs).
Hypothesis Hfs : Forall file_ok fs.
Hypothesis Hsize : len (encode_files fs) < 2 ^ 31.

Lemma find_content_encoded zfuel fuel pre before post pend k p :
  (pending s < zfuel)%nat → pool_plenty p → package_ok k → entries k = [] →
  Forall (λ c, container_ok c ∧ c.1 ≠ NPK_ZLIB_COMPRESSED_DATA) before →
  (length before < fuel)%nat →
  len pre + len (concat (map encode_container before))
    + len (encode_container (NPK_ZLIB_COMPRESSED_DATA, z)) <= pend →
  ∃ k' p', find_content inflateInit inflate zfuel fuel
      (pre ++ concat (map encode_container before)
           ++ encode_container (NPK_ZLIB_COMPRESSED_DATA, z) ++ post) pend (len pre) k p
    = Some (NPK_STATUS_OK, k', p')
    ∧ pool_plenty p' ∧ content k' = encode_files fs ∧ entries k' = entries_at 0 fs.
Proof.
  intros Hzf Hp Hk Hke Hb. revert fuel pre.
  induction Hb as [|[id pl] before [Hc Hid] Hb IH]; intros fuel pre Hf Hpend;
    (destruct fuel as [|fuel]; [simpl in Hf; lia|]); cbn [find_content map concat].
  - cbn [app].
    assert (Hc4 : container_ok (NPK_ZLIB_COMPRESSED_DATA, z)) by (split; simpl; [done|lia]).
    pose proof (length_encode_container (NPK_ZLIB_COMPRESSED_DATA, z)) as Hlen.
    destruct (encode_container_loads pre _ post Hc4) as (-> & -> & Hrd).
    unfold NPK_CONTAINER_HEADER_SIZE in *. cbn [fst snd] in *. simpl length in Hpend.
    rewrite (proj2 (Z.ltb_lt _ _)), (proj2 (Z.ltb_ge _ 6)) by lia. cbn [mbind option_bind].
    rewrite (proj2 (Z.ltb_ge _ _)) by lia. rewrite Z.eqb_refl, Hrd. cbn [mbind option_bind].
    destruct (npk_inflate_payload_spec inflateInit inflate zfuel z p)
      as (st & r & p1 & -> & Hcase & Hd); [lia|intros s' Hs'; congruence|].
    destruct (Hd s (encode_files fs) Hinit Hdec Hp Hz Hsize) as (-> & Hr & Hp1).
    cbn [mbind option_bind]. rewrite decide_True by done.
    set (k1 := mkPackage _ r _ _). assert (Hc1 : content k1 = encode_files fs) by exact Hr.
    assert (Hk1 : package_ok k1).
    { destruct Hcase as [(_ & _ & Hrb)|[? _]]; [|done].
      split; [exact (pok_array _ Hk)|simpl; by rewrite Hke|exact Hrb]. }
    rewrite Hc1.
    destruct (parse_entries_encoded (S (length (encode_files fs))) k1 [] fs p1 Hk1)
      as (k' & p' & E & Hp' & Hcb & _ & He); [done|done|done| |].
    { pose proof (encode_files_length fs Hfs). lia. }
    exists k', p'. split; [exact E|]. split; [done|].
    split; [unfold content in *; congruence|]. rewrite He. simpl. by rewrite Hke.
  - simpl in Hf. rewrite <- app_assoc.
    set (post' := concat (map encode_container before) ++ _).
    destruct (encode_container_loads pre (id, pl) post' Hc) as (-> & -> & _).
    pose proof (length_encode_container (id, pl)) as Hlen.
    cbn [map concat] in Hpend. rewrite length_app in Hpend.
    unfold NPK_CONTAINER_HEADER_SIZE in *. cbn [fst snd] in *.
    rewrite (proj2 (Z.ltb_lt _ _)), (proj2 (Z.ltb_ge _ 6)) by lia. cbn [mbind option_bind].
    rewrite (proj2 (Z.ltb_ge _ _)) by lia. rewrite (proj2 (Z.eqb_neq _ _)) by done.
    replace (len pre + (6 + len pl)) with (len (pre ++ encode_container (id, pl)))
      by (rewrite length_app; lia).
    rewrite (app_assoc pre). apply IH; [lia|]. rewrite length_app. lia.
Qed.
End RoundTrip.

(** Parsing an encoded package. *)
Lemma npk_parse_encoded {ZS} (inflateInit : list Z → option ZS) inflate
    `{!InflateLaws inflateInit inflate} z s fs before after trailing zfuel p :
  inflateInit z = Some s → decodes s (encode_files fs) → (pending s < zfuel)%nat →
  Forall file_ok fs → len z < 2 ^ 30 → len (encode_files fs) < 2 ^ 31 →
  Forall (λ c, container_ok c ∧ c.1 ≠ NPK_ZLIB_COMPRESSED_DATA) before →
  len (concat (map encode_container
         (before ++ (NPK_ZLIB_COMPRESSED_DATA, z) :: after))) < 2 ^ 32 →
  pool_plenty p →
  ∃ k p1,
    npk_parse_buffer inflateInit inflate zfuel
      (Some (encode_package (before ++ (NPK_ZLIB_COMPRESSED_DATA, z) :: after) ++ trailing)) true p
      = Some (NPK_STATUS_OK, Some k, p1)
    ∧ pool_plenty p1 ∧ content k = encode_files fs ∧ entries k = entries_at 0 fs.
Proof.
  intros Hi Hd Hzf Hfs Hz Hsz Hbe Hbody Hp.
  set (cs := before ++ _ :: after) in *. set (body := concat (map encode_container cs)) in *.
  set (bytes := encode_package cs ++ trailing).
  assert (Hbytes : bytes = (le_bytes 4 NPK_MAGIC_BYTES ++ le_bytes 4 (len body))
    ++ concat (map encode_container before)
    ++ encode_container (NPK_ZLIB_COMPRESSED_DATA, z)
    ++ (concat (map encode_container after) ++ trailing)).
  { subst bytes. unfold encode_package. fold body.
    assert (Hb : body = concat (map encode_container before)
      ++ encode_container (NPK_ZLIB_COMPRESSED_DATA, z) ++ concat (map encode_container after)).
    { subst body cs. rewrite map_app, concat_app. done. }
    rewrite Hb, <- !app_assoc. done. }
  assert (Hlb : len body = len (concat (map encode_container before))
    + len (encode_container (NPK_ZLIB_COMPRESSED_DATA, z))
    + len (concat (map encode_container after))).
  { subst body cs. rewrite map_app, concat_app, length_app. simpl. rewrite length_app. lia. }
  unfold npk_parse_buffer. rewrite Hbytes.
  set (hdr := le_bytes 4 _ ++ le_bytes 4 _). set (rest := concat _ ++ encode_container _ ++ _).
  assert (Hlh : length hdr = 8%nat) by reflexivity.
  assert (Hlen : len (hdr ++ rest) = 8 + len body + len trailing).
  { unfold rest. rewrite !length_app. lia. }
  unfold NPK_HEADER_SIZE. rewrite (proj2 (Z.ltb_ge _ 8)) by lia.
  assert (E0 : le32 (hdr ++ rest) 0 = Some NPK_MAGIC_BYTES).
  { unfold hdr. rewrite <- app_assoc. by apply (le32_encode []). }
  assert (E4 : le32 (hdr ++ rest) 4 = Some (len body)).
  { unfold hdr. rewrite <- app_assoc. apply (le32_encode (le_bytes 4 NPK_MAGIC_BYTES)). lia. }
  rewrite E0. cbn [mbind option_bind]. rewrite Z.eqb_refl. cbn [negb].
  unfold malloc. rewrite AllocatePool_plenty by done. cbn [negb].
  unfold npk_find_and_inflate_content, NPK_HEADER_SIZE. rewrite E4. cbn [mbind option_bind].
  rewrite (proj2 (Z.ltb_ge _ _)) by lia.
  destruct (find_content_encoded inflateInit inflate z s fs Hz Hi Hd Hfs Hsz zfuel
    (S (length (hdr ++ rest))) hdr before (concat (map encode_container after) ++ trailing)
    (8 + len body) (mkPackage (hdr ++ rest) None false []) (mkPool [] (pool_live p + 1)))
    as (k & p1 & E & Hp1 & Hc & He); try done.
  - assert (Hn : (length before <= length (concat (map encode_container before)))%nat).
    { clear. induction before as [|c l IH]; simpl; [lia|].
      pose proof (length_encode_container c) as Hl. unfold NPK_CONTAINER_HEADER_SIZE in Hl.
      rewrite length_app. lia. }
    unfold rest. rewrite !length_app. lia.
  - lia.
  - replace (len hdr) with 8 in E by lia. unfold rest at 2. rewrite E.
    cbn [mbind option_bind]. rewrite decide_True by done. by exists k, p1.
Qed.

(** C15: Round trip of packages: parsing a package that was written with any
    containers before and after one zlib container, whose stream decompresses to
    the encoding of the files [fs], succeeds with exactly those files, and
    extracting any name from it returns the payload of the first file of that
    name (nothing for an empty one), NOT_A_FILE when that is not a regular file,
    NOT_FOUND when there is none. *)
Theorem npk_roundtrip {ZS} (inflateInit : list Z → option ZS) inflate
    `{!InflateLaws inflateInit inflate} z s fs before after trailing nm zfuel p :
  inflateInit z = Some s → decodes s (encode_files fs) → (pending s < zfuel)%nat →
  Forall file_ok fs → len z < 2 ^ 30 → len (encode_files fs) < 2 ^ 31 →
  Forall (λ c, container_ok c ∧ c.1 ≠ NPK_ZLIB_COMPRESSED_DATA) before →
  len (concat (map encode_container
         (before ++ (NPK_ZLIB_COMPRESSED_DATA, z) :: after))) < 2 ^ 32 →
  Forall (λ c, c ≠ 0) nm → pool_plenty p →
  ∃ k p1 p2,
    npk_parse_buffer inflateInit inflate zfuel
      (Some (encode_package (before ++ (NPK_ZLIB_COMPRESSED_DATA, z) :: after) ++ trailing)) true p
      = Some (NPK_STATUS_OK, Some k, p1)
    ∧ entries k = entries_at 0 fs
    ∧ npk_extract_file (Some k) (Some (nm ++ [0])) true p1 =
      Some (match find_file nm fs with
            | None => (NPK_STATUS_NOT_FOUND, None, p2)
            | Some f =>
                if decide (npk_entry_type_from_mode (f_mode f) = NPK_ENTRY_TYPE_FILE)
                then (NPK_STATUS_OK, match f_payload f with [] => None | d => Some d end, p2)
                else (NPK_STATUS_NOT_A_FILE, None, p2)
            end).
Proof.
  intros Hi Hd Hzf Hfs Hz Hsz Hbe Hbody Hnm Hp.
  destruct (npk_parse_encoded inflateInit inflate z s fs before after trailing zfuel p)
    as (k & p1 & E & Hp1 & Hc & He); [done..|].
  destruct (extract_from_encoded (content k) [] fs nm p1 Hc Hfs Hnm Hp1) as (p2 & _ & Hx).
  exists k, p1, p2. split; [exact E|]. split; [exact He|]. unfold npk_extract_file.
  by rewrite He.
Qed.

(** ** The properties at a package of two files *)

Definition demo_files : list file := [
  mkFile 0x41ED (replicate 22 0) [98; 111; 111; 116] [];
  mkFile 0x81A4 (replicate 22 0) [98; 111; 111; 116; 47; 107] [1; 2; 3] ].

Definition demo_z : list Z := encode_files demo_files.

Lemma demo_z_init : ∃ s, stored_init demo_z = Some s ∧ proj1_sig s = demo_z.
Proof.
  unfold stored_init. destruct (bool_dec (bytes_okb demo_z) true) as [H|H].
  - by eexists.
  - exfalso. apply H. reflexivity.
Qed.

Lemma demo_files_ok : Forall file_ok demo_files.
Proof.
  assert (Hf : ∀ m nm pl, bytes_okb nm = true → forallb (λ c, negb (c =? 0)) nm = true →
    0 <= m < 2 ^ 16 → len nm < 2 ^ 16 → len pl < 2 ^ 32 →
    file_ok (mkFile m (replicate 22 0) nm pl)).
  { intros m nm pl _ Hn ???. split; simpl; try done. split; [done|].
    apply list.Forall_forall. intros c Hc ->. rewrite forallb_forall in Hn.
    apply list_elem_of_In, Hn in Hc. done. }
  repeat (apply List.Forall_cons; [apply Hf; done|]). apply List.Forall_nil.
Qed.

Lemma npk_roundtrip_witness :
  ∃ k p1 p2,
    npk_parse_buffer stored_init stored_inflate 200
      (Some (encode_package ([(1, [9; 9])] ++ (NPK_ZLIB_COMPRESSED_DATA, demo_z) :: []) ++ []))
      true (mkPool [] 0) = Some (NPK_STATUS_OK, Some k, p1)
    ∧ npk_extract_file (Some k) (Some ([98; 111; 111; 116; 47; 107] ++ [0])) true p1
      = Some (NPK_STATUS_OK, Some [1; 2; 3], p2).
Proof.
  destruct demo_z_init as (s & Hi & Hs).
  assert (Hd : decodes (inflateInit := stored_init) (inflate := stored_inflate) s (encode_files demo_files))
    by (symmetry; exact Hs).
  assert (Hf : (pending (inflateInit := stored_init) (inflate := stored_inflate) s < 200)%nat).
  { simpl. rewrite Hs. apply Nat.ltb_lt. reflexivity. }
  assert (Hb : Forall (λ c : Z * list Z, container_ok c ∧ c.1 ≠ NPK_ZLIB_COMPRESSED_DATA) [(1, [9; 9])]).
  { apply List.Forall_cons; [|apply List.Forall_nil].
    split; [split; [simpl; lia|reflexivity]|discriminate]. }
  assert (Hn : Forall (λ c, c ≠ 0) [98; 111; 111; 116; 47; 107])
    by (repeat (apply List.Forall_cons; [lia|]); apply List.Forall_nil).
  destruct (npk_roundtrip stored_init stored_inflate demo_z s demo_files [(1, [9; 9])] [] []
              [98; 111; 111; 116; 47; 107] 200 (mkPool [] 0) Hi Hd Hf demo_files_ok
              eq_refl eq_refl Hb eq_refl Hn eq_refl)
    as (k & p1 & p2 & E & _ & Hx).
  exists k, p1, p2. split; [exact E|exact Hx].
Defined.

(** A package whose zlib container is cut off, with an allocation failing. *)
Lemma npk_parse_safe_witness :
  ∃ st r p', npk_parse_buffer stored_init stored_inflate 1000
      (Some (encode_package [(NPK_ZLIB_COMPRESSED_DATA, take 50 demo_z)])) true
      (mkPool [true; true; true; true; false] 0) = Some (st, r, p').
Proof.
  set (bytes := encode_package _).
  assert (Hb : Forall byte_ok bytes) by (apply bytes_okb_spec; reflexivity).
  assert (Hf : fuel_for stored_init stored_inflate 1000 bytes).
  { intros off n input s Hrd Hi. unfold stored_init in Hi.
    destruct (bool_dec _ _); [|discriminate Hi]. injection Hi as <-. simpl.
    apply rdn_Some in Hrd as (H0 & _ & Hl & Hn & _).
    assert (Hlen : len bytes = 64) by reflexivity. lia. }
  destruct (npk_parse_safe stored_init stored_inflate 1000 bytes
              (mkPool [true; true; true; true; false] 0) Hb Hf) as (st & r & p' & E & _).
  exists st, r, p'. exact E.
Defined.
