(* ===== verification/KernelExtract.v ===== *)
(** * Kernel extraction

    Application/RouterOSLoader/KernelExtract.c: the boot/kernel ELF, its
    "initrd" section, the two XZ streams in it, the PE image and the CPIO
    archive. The XZ decoder is not part of the program's own code: [xz_dec_run]
    is a parameter that returns the status, the input consumed and the output
    written. Buffer sizes are the lengths of the lists. *)

From S2P Require Import Prelude Efi.

Definition XZ_MAGIC_SIZE : Z := 6.
Definition gXzMagic : list Z := [0xFD; 0x37; 0x7A; 0x58; 0x5A; 0x00].
Definition XZ_OUTPUT_MAX_SIZE : Z := 32 * 1024 * 1024.
Definition CPIO_MAGIC : list Z := [0x30; 0x37; 0x30; 0x37; 0x30; 0x31].
Definition CPIO_MAGIC_SIZE : Z := 6.
Definition ELF_MAGIC : Z := 0x464C457F.
Definition ELF_CLASS64 : Z := 2.
Definition ELF_DATA_LSB : Z := 1.
Definition ELF_MACHINE_AARCH64 : Z := 183.
Definition ELF_PT_LOAD : Z := 1.
Definition sizeof_ELF64_EHDR : Z := 64.
Definition sizeof_ELF64_PHDR : Z := 56.
Definition sizeof_ELF64_SHDR : Z := 64.

(** The fields of the packed header structures, by their offsets. *)
Definition e_machine (d : list Z) : option Z := le16 d 18.
Definition e_phoff (d : list Z) : option Z := le64 d 32.
Definition e_shoff (d : list Z) : option Z := le64 d 40.
Definition e_phentsize (d : list Z) : option Z := le16 d 54.
Definition e_phnum (d : list Z) : option Z := le16 d 56.
Definition e_shentsize (d : list Z) : option Z := le16 d 58.
Definition e_shnum (d : list Z) : option Z := le16 d 60.
Definition e_shstrndx (d : list Z) : option Z := le16 d 62.
Definition sh_name (d : list Z) (sh : Z) : option Z := le32 d sh.
Definition sh_offset (d : list Z) (sh : Z) : option Z := le64 d (sh + 24).
Definition sh_size (d : list Z) (sh : Z) : option Z := le64 d (sh + 32).
Definition p_type (d : list Z) (ph : Z) : option Z := le32 d ph.
Definition p_offset (d : list Z) (ph : Z) : option Z := le64 d (ph + 8).
Definition p_filesz (d : list Z) (ph : Z) : option Z := le64 d (ph + 32).

(** "initrd" with its NUL. *)
Definition INITRD_NAME : list Z := [0x69; 0x6E; 0x69; 0x74; 0x72; 0x64; 0].

(** The loop over the sections, from section [i]. *)
Fixpoint find_section (n : nat) (Data : list Z) (Name : list Z) (shoff shentsize StrTab StrTabSize : Z)
    (i : Z) : option (EFI_STATUS * Z * Z) :=
  match n with
  | O => Some (EFI_NOT_FOUND, 0, 0)
  | S n' =>
      let ShOff := shoff +u64 i *u64 shentsize in
      if len Data <? ShOff +u64 sizeof_ELF64_SHDR then Some (EFI_NOT_FOUND, 0, 0)
      else
        nm ← sh_name Data ShOff;
        if StrTabSize <=? nm
        then find_section n' Data Name shoff shentsize StrTab StrTabSize (i + 1)
        else
          let SecName := StrTab +u64 nm in
          if len Data <? SecName then None
          else
            r ← AsciiStrCmp (drop (Z.to_nat SecName) Data) Name;
            if r =? 0 then
              off ← sh_offset Data ShOff;
              sz ← sh_size Data ShOff;
              if len Data <? off +u64 sz then Some (EFI_NOT_FOUND, 0, 0)
              else Some (EFI_SUCCESS, off, sz)
            else find_section n' Data Name shoff shentsize StrTab StrTabSize (i + 1)
  end.

(** The status, [SecOffset] and [SecSize]. [e_shstrndx * e_shentsize] is a
    product of two [int]s: a fault when it overflows. *)
Definition FindElfSection (Data : list Z) (Name : list Z) : option (EFI_STATUS * Z * Z) :=
  if len Data <? sizeof_ELF64_EHDR then Some (EFI_INVALID_PARAMETER, 0, 0)
  else
    magic ← le32 Data 0;
    class ← rd Data 4;
    enc ← rd Data 5;
    machine ← e_machine Data;
    if negb (magic =? ELF_MAGIC) then Some (EFI_INVALID_PARAMETER, 0, 0)
    else if negb (class =? ELF_CLASS64) || negb (enc =? ELF_DATA_LSB)
    then Some (EFI_INVALID_PARAMETER, 0, 0)
    else if negb (machine =? ELF_MACHINE_AARCH64) then Some (EFI_INVALID_PARAMETER, 0, 0)
    else
      shnum ← e_shnum Data;
      shoff ← e_shoff Data;
      shstrndx ← e_shstrndx Data;
      shentsize ← e_shentsize Data;
      if (shnum =? 0) || (shoff =? 0) || (shnum <=? shstrndx) then Some (EFI_NOT_FOUND, 0, 0)
      else if 2 ^ 31 <=? shstrndx * shentsize then None
      else
        let StrTabOff := shoff +u64 shstrndx * shentsize in
        if len Data <? StrTabOff +u64 sizeof_ELF64_SHDR then Some (EFI_NOT_FOUND, 0, 0)
        else
          StrTab ← sh_offset Data StrTabOff;
          StrTabSize ← sh_size Data StrTabOff;
          if len Data <? StrTab +u64 StrTabSize then Some (EFI_NOT_FOUND, 0, 0)
          else find_section (Z.to_nat shnum) Data Name shoff shentsize StrTab StrTabSize 0.

(** What a call of the decoder reports. *)
Inductive xz_ret := XZ_STREAM_END | XZ_OTHER.

Section Code.
(** [xz_dec_run] in single-call mode on the input, with the room for output:
    the status, [in_pos] and the output. *)
Context (xz_dec_run : list Z → Z → xz_ret * Z * list Z).

(** A decoder holds memory of the pool, counted as one allocation, from a successful
    xz_dec_init to xz_dec_end. *)
Definition decoder_opened (p : Pool) : Pool := mkPool (pool_script p) (pool_live p + 1).
Definition xz_dec_end (p : Pool) : Pool := FreePool p.

(** [XzInit] is whether the decoder could be initialised. The status, the
    output buffer, and the input consumed when it was stored. The output
    buffer and the decoder are counted by the pool. *)
Definition TryXzDecompress (Data : list Z) (XzInit : bool) (p : Pool)
    : EFI_STATUS * list Z * option Z * Pool :=
  let '(ok, p) := AllocatePool p in
  if negb ok then (EFI_OUT_OF_RESOURCES, [], None, p)
  else if negb XzInit then (EFI_OUT_OF_RESOURCES, [], None, FreePool p)
  else
    let p := decoder_opened p in
    let '(Ret, in_pos, out) := xz_dec_run Data XZ_OUTPUT_MAX_SIZE in
    let p := xz_dec_end p in
    match Ret with
    | XZ_STREAM_END => (EFI_SUCCESS, out, Some in_pos, p)
    | XZ_OTHER =>
        if 0 <? len out then (EFI_SUCCESS, out, Some in_pos, p)
        else (EFI_COMPROMISED_DATA, [], Some in_pos, FreePool p)
    end.

(** The maximum over the sections from [So]. *)
Fixpoint max_section_end (n : nat) (Data : list Z) (So MaxEnd : Z) : option Z :=
  match n with
  | O => Some MaxEnd
  | S n' =>
      RawSize ← le32 Data (So + 16);
      RawPtr ← le32 Data (So + 20);
      let End := RawPtr + RawSize in
      max_section_end n' Data (So + 40) (if MaxEnd <? End then End else MaxEnd)
  end.

(** [None] inside is FALSE. [PeOffset + 24] is computed in 32 bits. *)
Definition GetPeFileSize (Data : list Z) : option (option Z) :=
  if len Data <? 0x40 then Some None
  else
    m ← rd Data 0; z ← rd Data 1;
    if negb (m =? 0x4D) || negb (z =? 0x5A) then Some None
    else
      PeOffset ← le32 Data 0x3C;
      if len Data <? PeOffset +u32 24 then Some None
      else
        p0 ← rd Data PeOffset; p1 ← rd Data (PeOffset + 1);
        p2 ← rd Data (PeOffset + 2); p3 ← rd Data (PeOffset + 3);
        if negb (p0 =? 0x50) || negb (p1 =? 0x45) || negb (p2 =? 0) || negb (p3 =? 0)
        then Some None
        else
          NumSections ← le16 Data (PeOffset + 6);
          OptHdrSize ← le16 Data (PeOffset + 20);
          let SecStart := PeOffset +u32 24 +u32 OptHdrSize in
          if len Data <? SecStart + NumSections * 40 then Some None
          else
            MaxEnd ← max_section_end (Z.to_nat NumSections) Data SecStart 0;
            Some (Some MaxEnd).

(** The search from [i]; every iteration reads [Data[i]], so the length of the
    buffer bounds their number. *)
Fixpoint find_xz (fuel : nat) (Data : list Z) (DataSize i : Z) : option (option Z) :=
  match fuel with
  | O => None
  | S fuel' =>
      if i +u64 XZ_MAGIC_SIZE <=? DataSize then
        s ← rdn Data i XZ_MAGIC_SIZE;
        if decide (s = gXzMagic) then Some (Some i)
        else find_xz fuel' Data DataSize (i +u64 1)
      else Some None
  end.

Definition FindXzStream (Data : list Z) (DataSize StartOffset : Z) : option (option Z) :=
  find_xz (S (S (length Data))) Data DataSize StartOffset.

(** The end of the loadable segments, from program header [i]. *)
Fixpoint pt_load_end (n : nat) (Data : list Z) (phoff phentsize i PtLoadEnd : Z) : option Z :=
  match n with
  | O => Some PtLoadEnd
  | S n' =>
      let PhOff := phoff +u64 i *u64 phentsize in
      if len Data <? PhOff +u64 sizeof_ELF64_PHDR then Some PtLoadEnd
      else
        ty ← p_type Data PhOff;
        PtLoadEnd ← (if ty =? ELF_PT_LOAD
                     then o ← p_offset Data PhOff; f ← p_filesz Data PhOff;
                          let SegEnd := o +u64 f in
                          Some (if PtLoadEnd <? SegEnd then SegEnd else PtLoadEnd)
                     else Some PtLoadEnd);
        pt_load_end n' Data phoff phentsize (i + 1) PtLoadEnd
  end.

(** Where the XZ streams are looked for. *)
Definition search_range (KernelElf : list Z) : option (Z * Z) :=
  '(Status, off, sz) ← FindElfSection KernelElf INITRD_NAME;
  if negb (EFI_ERROR Status) then Some (off, off +u64 sz)
  else
    phnum ← e_phnum KernelElf;
    phoff ← e_phoff KernelElf;
    phentsize ← e_phentsize KernelElf;
    PtLoadEnd ← pt_load_end (Z.to_nat phnum) KernelElf phoff phentsize 0 0;
    Some (PtLoadEnd, len KernelElf).

(** [while (Stream2Start < SearchEnd && KernelElf[Stream2Start] == 0)] *)
Fixpoint skip_zeros (fuel : nat) (Data : list Z) (SearchEnd i : Z) : option Z :=
  match fuel with
  | O => None
  | S fuel' =>
      if i <? SearchEnd then
        b ← rd Data i;
        if b =? 0 then skip_zeros fuel' Data SearchEnd (i + 1) else Some i
      else Some i
  end.

(** What the function leaves: the stub's buffer and size, the initrd. *)
Record EXTRACTED := mkExtracted {
  StubBuffer : option (list Z);
  StubSize : Z;
  InitrdData : option (list Z)
}.

Definition nothing : EXTRACTED := mkExtracted None 0 None.

(** The part after the kernel: the second stream. *)
Definition extract_initrd (KernelElf : list Z) (SearchEnd Stream2Start : Z) (XzInit : bool)
    (p : Pool) : option (option (list Z) * Pool) :=
  Stream2Start ← skip_zeros (S (length KernelElf)) KernelElf SearchEnd Stream2Start;
  found ← FindXzStream KernelElf SearchEnd Stream2Start;
  match found with
  | None => Some (None, p)
  | Some Stream2Start =>
      input ← rdn KernelElf Stream2Start (SearchEnd - Stream2Start);
      let '(Status, InitrdBuf, _, p) := TryXzDecompress input XzInit p in
      if negb (EFI_ERROR Status) && (0 <? len InitrdBuf) then
        if (CPIO_MAGIC_SIZE <=? len InitrdBuf) &&
           bool_decide (take (Z.to_nat CPIO_MAGIC_SIZE) InitrdBuf = CPIO_MAGIC)
        then Some (Some InitrdBuf, p)
        else Some (None, FreePool p)
      else Some (None, p)
  end.

(** [XzInit] for the two decoder initialisations. *)
Definition ExtractKernelAndInitrd (KernelElf : list Z) (XzInit1 XzInit2 : bool) (p : Pool)
    : option (EFI_STATUS * EXTRACTED * Pool) :=
  '(SearchStart, SearchEnd) ← search_range KernelElf;
  found ← FindXzStream KernelElf SearchEnd SearchStart;
  match found with
  | None => Some (EFI_NOT_FOUND, nothing, p)
  | Some XzOffset =>
      input ← rdn KernelElf XzOffset (SearchEnd - XzOffset);
      let '(Status, KernelBuf, consumed, p) := TryXzDecompress input XzInit1 p in
      if EFI_ERROR Status then Some (Status, nothing, p)
      else
        Stream1Consumed ← consumed;
        mz ← (if len KernelBuf <? 2 then Some false
              else m ← rd KernelBuf 0; z ← rd KernelBuf 1;
                   Some ((m =? 0x4D) && (z =? 0x5A)));
        if negb mz then Some (EFI_NOT_FOUND, nothing, FreePool p)
        else
          pe ← GetPeFileSize KernelBuf;
          let KernelFileSize := match pe with Some n => n | None => len KernelBuf end in
          '(initrd, p) ← extract_initrd KernelElf SearchEnd (XzOffset +u64 Stream1Consumed)
                           XzInit2 p;
          Some (EFI_SUCCESS, mkExtracted (Some KernelBuf) KernelFileSize initrd, p)
  end.
End Code.

(** ** Searching for streams *)

(** The magic is at [i], before [DataSize]. *)
Definition xz_at (Data : list Z) (DataSize i : Z) : Prop :=
  0 <= i ∧ i + XZ_MAGIC_SIZE <= DataSize ∧ rdn Data i XZ_MAGIC_SIZE = Some gXzMagic.

(** The first magic from [i] on. *)
Definition first_xz (Data : list Z) (DataSize i : Z) (r : option Z) : Prop :=
  match r with
  | Some x => i <= x ∧ xz_at Data DataSize x ∧ ∀ j, i <= j < x → ~ xz_at Data DataSize j
  | None => ∀ j, i <= j → ~ xz_at Data DataSize j
  end.

Lemma find_xz_spec fuel Data DataSize i :
  0 <= i → DataSize <= len Data → len Data < 2 ^ 63 → i < 2 ^ 64 - 6 →
  DataSize - i < Z.of_nat fuel → (0 < fuel)%nat →
  ∃ r, find_xz fuel Data DataSize i = Some r ∧ first_xz Data DataSize i r.
Proof.
  unfold XZ_MAGIC_SIZE in *. revert i.
  induction fuel as [|fuel IH]; intros i Hi HD Hlen Hbig Hf Hpos; [lia|]. simpl.
  unfold XZ_MAGIC_SIZE. no_wrap.
  destruct (Z.leb_spec (i + 6) DataSize) as [Hle|Hgt].
  - rewrite rdn_eq by lia. simpl. case_decide as Hd.
    + exists (Some i). split; [done|]. unfold first_xz, xz_at, XZ_MAGIC_SIZE.
      rewrite rdn_eq, Hd by lia. split_and!; try done; lia.
    + destruct (IH (i + 1)) as (r & Hr & Hfirst); [lia..|].
      exists r. split; [done|]. 
      assert (Hnot : ~ xz_at Data DataSize i).
      { unfold xz_at, XZ_MAGIC_SIZE. rewrite rdn_eq by lia. intros (_ & _ & [=]). done. }
      unfold first_xz in *. destruct r as [x|].
      * destruct Hfirst as (? & ? & Hmin). split_and!; [lia|done|].
        intros j Hj. destruct (decide (j = i)) as [->|]; [done|]. apply Hmin. lia.
      * intros j Hj. destruct (decide (j = i)) as [->|]; [done|]. apply Hfirst. lia.
  - exists None. split; [done|]. intros j Hj (_ & Hx & _). unfold XZ_MAGIC_SIZE in Hx. lia.
Qed.

Lemma FindXzStream_spec Data DataSize i :
  0 <= i < 2 ^ 64 - 6 → DataSize <= len Data → len Data < 2 ^ 63 →
  ∃ r, FindXzStream Data DataSize i = Some r ∧ first_xz Data DataSize i r.
Proof. intros. apply find_xz_spec; lia. Qed.

(** ** The PE image *)

Definition is_mz (d : list Z) : Prop := rd d 0 = Some 0x4D ∧ rd d 1 = Some 0x5A.

(** The PE headers of an image: their offset, the number of sections, the size
    of the optional header. *)
Record pe_image (Data : list Z) (o nsec opt : Z) : Prop := {
  pe_mz : is_mz Data;
  pe_long : 0x40 <= len Data;
  pe_lfanew : le32 Data 0x3C = Some o;
  pe_fits : o + 24 <= len Data;
  pe_sig : rdn Data o 4 = Some [0x50; 0x45; 0; 0];
  pe_nsec : le16 Data (o + 6) = Some nsec;
  pe_opt : le16 Data (o + 20) = Some opt;
  pe_sections : o + 24 + opt + nsec * 40 <= len Data
}.

(** [PointerToRawData + SizeOfRawData] of the section header at [So]. *)
Definition section_end (Data : list Z) (So : Z) : Z :=
  default 0 (le32 Data (So + 20)) + default 0 (le32 Data (So + 16)).

(** The extent of the image on disk. *)
Fixpoint image_extent (n : nat) (Data : list Z) (So : Z) : Z :=
  match n with
  | O => 0
  | S n' => Z.max (section_end Data So) (image_extent n' Data (So + 40))
  end.

Lemma image_extent_nonneg n Data So : 0 <= image_extent n Data So.
Proof. revert So. induction n as [|n IH]; intros So; simpl; [lia|]. specialize (IH (So + 40)). lia. Qed.

Lemma max_section_end_spec n Data So M :
  0 <= So → So + Z.of_nat n * 40 <= len Data → 0 <= M →
  max_section_end n Data So M = Some (Z.max M (image_extent n Data So)).
Proof.
  revert So M. induction n as [|n IH]; intros So M HSo Hlen HM; simpl.
  - f_equal. lia.
  - unfold section_end.
    destruct (le32_is_Some Data (So + 16)) as [sz ->]; [lia..|].
    destruct (le32_is_Some Data (So + 20)) as [pt ->]; [lia..|]. simpl.
    rewrite IH by (try case_b; b2p; lia). f_equal. case_b; b2p; lia.
Qed.

Lemma rdn_cons (Data : list Z) o n x s :
  rd Data o = Some x → rdn Data (o + 1) n = Some s → rdn Data o (n + 1) = Some (x :: s).
Proof.
  intros Hx Hs. apply rdn_Some in Hs as (? & ? & ? & ? & ->).
  pose proof (rd_Some _ _ _ Hx). rewrite rdn_eq by lia. f_equal.
  rewrite rd_lookup in Hx by lia. rewrite (drop_S _ _ _ Hx).
  replace (Z.to_nat (n + 1)) with (S (Z.to_nat n)) by lia.
  replace (Z.to_nat (o + 1)) with (S (Z.to_nat o)) by lia. done.
Qed.

Lemma rdn_4 (Data : list Z) o p0 p1 p2 p3 :
  rd Data o = Some p0 → rd Data (o + 1) = Some p1 → rd Data (o + 2) = Some p2 →
  rd Data (o + 3) = Some p3 → rdn Data o 4 = Some [p0; p1; p2; p3].
Proof.
  intros H0 H1 H2 H3. pose proof (rd_Some _ _ _ H0). pose proof (rd_Some _ _ _ H3).
  assert (Hnil : rdn Data (o + 3 + 1) 0 = Some []) by (by rewrite rdn_eq by lia).
  apply (rdn_cons _ _ 3); [done|]. apply (rdn_cons _ _ 2); [done|].
  apply (rdn_cons _ _ 1); [by replace (o + 1 + 1) with (o + 2) by lia|].
  apply (rdn_cons _ _ 0); [by replace (o + 1 + 1 + 1) with (o + 3) by lia|].
  by replace (o + 1 + 1 + 1 + 1) with (o + 3 + 1) by lia.
Qed.

(** The result of [GetPeFileSize] on a buffer of the decompressor. *)
Lemma GetPeFileSize_spec Data :
  Forall byte_ok Data → len Data <= XZ_OUTPUT_MAX_SIZE →
  (GetPeFileSize Data = None ∧ is_mz Data ∧
     ∃ o, le32 Data 0x3C = Some o ∧ 2 ^ 32 - 24 <= o ∧ 0x40 <= len Data) ∨
  (GetPeFileSize Data = Some None ∧
     (∀ o, le32 Data 0x3C = Some o → is_mz Data → 0x40 <= len Data → o < 2 ^ 32 - 24) ∧
     ∀ o nsec opt, ~ pe_image Data o nsec opt) ∨
  (∃ o nsec opt, pe_image Data o nsec opt ∧ o < 2 ^ 32 - 24 ∧
     GetPeFileSize Data = Some (Some (image_extent (Z.to_nat nsec) Data (o + 24 + opt)))).
Proof.
  unfold XZ_OUTPUT_MAX_SIZE. intros Hb Hlen. unfold GetPeFileSize.
  case_b; b2p.
  { right; left. split_and!; [done|intros; lia|]. intros ? ? ? []; lia. }
  destruct (rd_in_range Data 0) as [m Hm]; [lia|]. rewrite Hm. cbn [mbind option_bind].
  destruct (rd_in_range Data 1) as [z Hz]; [lia|]. rewrite Hz. cbn [mbind option_bind].
  case_b.
  { right; left. assert (~ is_mz Data).
    { by intros [? ?]; simplify_eq. }
    split_and!; [done|done|]. intros ? ? ? []; done. }
  b2p. subst.
  assert (Hmz : is_mz Data) by done.
  destruct (le32_is_Some Data 0x3C) as [o Ho]; [lia..|]. rewrite Ho. cbn [mbind option_bind].
  pose proof (le32_range _ _ _ Hb Ho) as Hor.
  destruct (decide (2 ^ 32 - 24 <= o)) as [Hwrap|Hwrap].
  { left. assert (Hu : o +u32 24 = o + 24 - 2 ^ 32).
    { unfold u32. symmetry. apply (Z.mod_unique _ _ 1); lia. }
    rewrite Hu. rewrite (proj2 (Z.ltb_ge _ _)) by lia. rewrite (rd_None Data o) by lia.
    split_and!; [done|done|]. exists o. split_and!; [done|lia|lia]. }
  right. rewrite (u32_small (o + 24)) by lia.
  case_b; b2p.
  { left. split_and!; [done|intros; simplify_eq; lia|]. intros ? ? ? []; simplify_eq; lia. }
  destruct (rd_in_range Data o) as [p0 H0]; [lia|].
  destruct (rd_in_range Data (o + 1)) as [p1 H1]; [lia|].
  destruct (rd_in_range Data (o + 2)) as [p2 H2]; [lia|].
  destruct (rd_in_range Data (o + 3)) as [p3 H3]; [lia|].
  rewrite H0, H1, H2, H3. cbn [mbind option_bind].
  pose proof (rdn_4 _ _ _ _ _ _ H0 H1 H2 H3) as Hsig.
  case_b.
  { left. split_and!; [done|intros; simplify_eq; lia|]. by intros ? ? ? []; simplify_eq. }
  b2p. subst.
  destruct (le16_is_Some Data (o + 6)) as [nsec Hn]; [lia..|].
  destruct (le16_is_Some Data (o + 20)) as [opt Hopt]; [lia..|].
  rewrite Hn, Hopt. cbn [mbind option_bind].
  pose proof (le16_range _ _ _ Hb Hn). pose proof (le16_range _ _ _ Hb Hopt).
  rewrite (u32_small (o + 24 + opt)) by lia.
  case_b; b2p.
  { left. split_and!; [done|intros; simplify_eq; lia|]. intros ? ? ? []; simplify_eq; lia. }
  right. exists o, nsec, opt. split_and!; [by split|lia|].
  rewrite max_section_end_spec by lia. cbn [mbind option_bind].
  do 2 f_equal. pose proof (image_extent_nonneg (Z.to_nat nsec) Data (o + 24 + opt)). lia.
Qed.

(** ** ELF sections *)

(** What the section headers of an image say. *)
Record elf_section := mkSection { sec_name : list Z; sec_offset : Z; sec_size : Z }.

(** A well-formed image: the header's identification, the section header table
    and the string table inside the file, the string table NUL-terminated, and
    every section's name in it. *)
Record elf_ok (Data : list Z) (shnum shoff shentsize StrTab StrTabSize : Z) : Prop := {
  elf_bytes : Forall byte_ok Data;
  elf_short : len Data < 2 ^ 63;
  elf_magic : le32 Data 0 = Some ELF_MAGIC;
  elf_class : rd Data 4 = Some ELF_CLASS64;
  elf_enc : rd Data 5 = Some ELF_DATA_LSB;
  elf_machine : e_machine Data = Some ELF_MACHINE_AARCH64;
  elf_shnum : e_shnum Data = Some shnum;
  elf_shoff : e_shoff Data = Some shoff;
  elf_shentsize : e_shentsize Data = Some shentsize;
  elf_some : 0 < shnum ∧ 0 < shoff;
  elf_table : shoff + (shnum - 1) * shentsize + sizeof_ELF64_SHDR <= len Data;
  elf_shstrndx : ∃ ndx, e_shstrndx Data = Some ndx ∧ ndx < shnum ∧ ndx * shentsize < 2 ^ 31 ∧
    sh_offset Data (shoff + ndx * shentsize) = Some StrTab ∧
    sh_size Data (shoff + ndx * shentsize) = Some StrTabSize;
  elf_strtab : 0 < StrTabSize ∧ StrTab + StrTabSize <= len Data;
  elf_terminated : rd Data (StrTab + StrTabSize - 1) = Some 0;
  elf_names : ∀ i, 0 <= i < shnum → ∃ nm, sh_name Data (shoff + i * shentsize) = Some nm ∧ nm < StrTabSize
}.

(** The [i]th section. *)
Definition elf_section_at (Data : list Z) (shoff shentsize StrTab i : Z) : elf_section :=
  let sh := shoff + i * shentsize in
  mkSection (cstr (drop (Z.to_nat (StrTab + default 0 (sh_name Data sh))) Data))
            (default 0 (sh_offset Data sh)) (default 0 (sh_size Data sh)).

Definition elf_sections (Data : list Z) (shnum shoff shentsize StrTab : Z) : list elf_section :=
  map (elf_section_at Data shoff shentsize StrTab) (seqZ 0 shnum).

Definition find_named (Name : list Z) (l : list elf_section) : option elf_section :=
  head (filter (λ s, sec_name s = Name) l).

(** The lookup's answer: the first section of the name, if its data is inside. *)
Definition section_answer (Data : list Z) (s : option elf_section) : EFI_STATUS * Z * Z :=
  match s with
  | Some s => if len Data <? sec_offset s +u64 sec_size s then (EFI_NOT_FOUND, 0, 0)
              else (EFI_SUCCESS, sec_offset s, sec_size s)
  | None => (EFI_NOT_FOUND, 0, 0)
  end.

Section Lookup.
Context (Data : list Z) (shnum shoff shentsize StrTab StrTabSize : Z).
Hypothesis Hok : elf_ok Data shnum shoff shentsize StrTab StrTabSize.

Lemma elf_ranges :
  0 <= shnum < 2 ^ 16 ∧ 0 <= shoff ∧ 0 <= shentsize < 2 ^ 16 ∧ 0 <= StrTab.
Proof.
  destruct Hok. destruct elf_shstrndx0 as (ndx & ? & ? & ? & Ho & ?).
  pose proof (le16_range _ _ _ elf_bytes0 elf_shnum0).
  pose proof (le64_range _ _ _ elf_bytes0 elf_shoff0).
  pose proof (le16_range _ _ _ elf_bytes0 elf_shentsize0).
  pose proof (le64_range _ _ _ elf_bytes0 Ho). lia.
Qed.

Lemma elf_header_at i :
  0 <= i < shnum → 0 <= shoff + i * shentsize ∧ shoff + i * shentsize + 64 <= len Data.
Proof.
  intros Hi. pose proof elf_ranges. pose proof (elf_table _ _ _ _ _ _ Hok).
  unfold sizeof_ELF64_SHDR in *. nia.
Qed.

(** A name of the string table is terminated. *)
Lemma elf_name_terminated nm :
  0 <= nm < StrTabSize → 0 ∈ drop (Z.to_nat (StrTab + nm)) Data.
Proof.
  intros Hnm. pose proof elf_ranges. pose proof (elf_terminated _ _ _ _ _ _ Hok) as H0.
  apply (rd_in _ (StrTabSize - 1 - nm)). rewrite rd_drop by lia.
  by replace (StrTab + nm + (StrTabSize - 1 - nm)) with (StrTab + StrTabSize - 1) by lia.
Qed.

Lemma find_section_spec n i Name :
  0 <= i → i + Z.of_nat n = shnum → Forall (λ c, c ≠ 0) Name →
  find_section n Data (Name ++ [0]) shoff shentsize StrTab StrTabSize i
  = Some (section_answer Data
      (find_named Name (map (elf_section_at Data shoff shentsize StrTab) (seqZ i (Z.of_nat n))))).
Proof.
  intros Hi Hn HName. pose proof elf_ranges. pose proof (elf_bytes _ _ _ _ _ _ Hok) as Hb.
  pose proof (elf_short _ _ _ _ _ _ Hok). pose proof (elf_strtab _ _ _ _ _ _ Hok).
  revert i Hi Hn. induction n as [|n IH]; intros i Hi Hn; [done|].
  rewrite seqZ_cons by lia. cbn [map find_section]. unfold find_named. rewrite filter_cons.
  destruct (elf_header_at i) as [Hlo Hhi]; [lia|].
  destruct (elf_names _ _ _ _ _ _ Hok i) as (nm & Hnm & Hlt); [lia|].
  pose proof (le32_range _ _ _ Hb Hnm).
  assert (Hsh : shoff +u64 i *u64 shentsize = shoff + i * shentsize).
  { rewrite (u64_small (i * shentsize)) by nia. apply u64_small. lia. }
  rewrite Hsh. unfold sizeof_ELF64_SHDR.
  rewrite u64_small by lia. rewrite (proj2 (Z.ltb_ge _ _)) by lia.
  rewrite Hnm. cbn [mbind option_bind]. rewrite (proj2 (Z.leb_gt _ _)) by lia.
  rewrite u64_small by lia. rewrite (proj2 (Z.ltb_ge _ _)) by lia.
  destruct (AsciiStrCmp_cstr (drop (Z.to_nat (StrTab + nm)) Data) Name) as (r & Hr & Hiff);
    [apply elf_name_terminated; lia|done|].
  rewrite Hr. cbn [mbind option_bind].
  assert (Hname : sec_name (elf_section_at Data shoff shentsize StrTab i)
                  = cstr (drop (Z.to_nat (StrTab + nm)) Data)).
  { unfold elf_section_at. simpl. by rewrite Hnm. }
  destruct (Z.eqb_spec r 0) as [Hr0|Hr0].
  - rewrite decide_True by (rewrite Hname; tauto). simpl.
    unfold sh_offset, sh_size. simpl.
    destruct (le64_is_Some Data (shoff + i * shentsize + 24)) as [off ->]; [lia..|].
    destruct (le64_is_Some Data (shoff + i * shentsize + 32)) as [sz ->]; [lia..|].
    simpl. by case_b.
  - rewrite decide_False by (rewrite Hname; tauto).
    replace (Z.pred (Z.of_nat (S n))) with (Z.of_nat n) by lia.
    change (Z.succ i) with (i + 1). by rewrite IH by lia.
Qed.

Lemma FindElfSection_spec Name :
  Forall (λ c, c ≠ 0) Name →
  FindElfSection Data (Name ++ [0])
  = Some (section_answer Data (find_named Name (elf_sections Data shnum shoff shentsize StrTab))).
Proof.
  intros HName. pose proof elf_ranges. pose proof (elf_strtab _ _ _ _ _ _ Hok).
  pose proof (elf_some _ _ _ _ _ _ Hok) as [Hs1 Hs2]. pose proof (elf_short _ _ _ _ _ _ Hok).
  destruct (elf_shstrndx _ _ _ _ _ _ Hok) as (ndx & Hndx & Hlt & Hsmall & Hoff & Hsize).
  pose proof (le16_range _ _ _ (elf_bytes _ _ _ _ _ _ Hok) Hndx).
  destruct (le16_bounds Data 62 ndx) as [_ Hlen]; [done|].
  destruct (elf_header_at ndx) as [Hlo Hhi]; [lia|].
  unfold FindElfSection, sizeof_ELF64_EHDR. rewrite (proj2 (Z.ltb_ge _ _)) by lia.
  rewrite (elf_magic _ _ _ _ _ _ Hok), (elf_class _ _ _ _ _ _ Hok), (elf_enc _ _ _ _ _ _ Hok),
    (elf_machine _ _ _ _ _ _ Hok), (elf_shnum _ _ _ _ _ _ Hok), (elf_shoff _ _ _ _ _ _ Hok),
    Hndx, (elf_shentsize _ _ _ _ _ _ Hok).
  cbn [mbind option_bind]. rewrite !Z.eqb_refl. cbn [negb orb].
  rewrite !(proj2 (Z.eqb_neq _ _)), (proj2 (Z.leb_gt _ _)) by lia. cbn [orb].
  rewrite (proj2 (Z.leb_gt _ _)) by lia.
  rewrite !(u64_small (shoff + _)) by nia.
  unfold sizeof_ELF64_SHDR. rewrite (u64_small (_ + 64)) by lia.
  rewrite (proj2 (Z.ltb_ge _ _)) by lia. rewrite Hoff, Hsize. cbn [mbind option_bind].
  rewrite u64_small by lia. rewrite (proj2 (Z.ltb_ge _ _)) by lia.
  rewrite find_section_spec by (done || lia). unfold elf_sections. by rewrite Z2Nat.id by lia.
Qed.
End Lookup.

(** ** Extraction *)

(** What xz-embedded promises of a call: it consumes at most its input, writes
    bytes, and at most the room it was given. *)
Class XzLaws (xz_dec_run : list Z → Z → xz_ret * Z * list Z) : Prop := {
  xz_run_spec input room ret in_pos out :
    0 <= room → xz_dec_run input room = (ret, in_pos, out) →
    0 <= in_pos <= len input ∧ len out <= room ∧ Forall byte_ok out
}.

Section Extract.
Context (xz_dec_run : list Z → Z → xz_ret * Z * list Z) `{!XzLaws xz_dec_run}.

Lemma TryXzDecompress_spec input XzInit p st out consumed p' :
  TryXzDecompress xz_dec_run input XzInit p = (st, out, consumed, p') →
  (EFI_ERROR st = true ∧ pool_live p' = pool_live p) ∨
  (st = EFI_SUCCESS ∧ pool_live p' = pool_live p + 1 ∧ ∃ ret pos, consumed = Some pos ∧
     xz_dec_run input XZ_OUTPUT_MAX_SIZE = (ret, pos, out) ∧ (out = [] → ret = XZ_STREAM_END)).
Proof.
  unfold TryXzDecompress.
  destruct (AllocatePool p) as [ok p1] eqn:Hl. apply AllocatePool_live in Hl.
  destruct ok; simpl; [|intros [= <- <- <- <-]; left; split; [done|lia]].
  destruct XzInit; simpl; [|intros [= <- <- <- <-]; left; simpl; split; [done|lia]].
  destruct (xz_dec_run input XZ_OUTPUT_MAX_SIZE) as [[ret pos] o] eqn:E.
  destruct ret.
  - intros [= <- <- <- <-]. right. split_and!; [done|simpl; lia|]. by exists XZ_STREAM_END, pos.
  - case_b; b2p; intros [= <- <- <- <-].
    + right. split_and!; [done|simpl; lia|]. exists XZ_OTHER, pos. split_and!; [done..|].
      intros ->. simpl in *. lia.
    + left. simpl. split; [done|lia].
Qed.

Lemma skip_zeros_spec fuel Data SearchEnd i :
  0 <= i → SearchEnd <= len Data → SearchEnd - i < Z.of_nat fuel → (0 < fuel)%nat →
  ∃ j, skip_zeros fuel Data SearchEnd i = Some j ∧ i <= j ∧ (i <= SearchEnd → j <= SearchEnd) ∧
       (∀ k, i <= k < j → rd Data k = Some 0) ∧ (j < SearchEnd → rd Data j ≠ Some 0).
Proof.
  intros Hi HE. revert i Hi. induction fuel as [|fuel IH]; intros i Hi Hf Hpos; [lia|]. simpl.
  destruct (Z.ltb_spec i SearchEnd) as [Hlt|Hge].
  - destruct (rd_in_range Data i) as [b Hb]; [lia|]. rewrite Hb. simpl.
    destruct (Z.eqb_spec b 0) as [->|Hne].
    + destruct (IH (i + 1)) as (j & -> & ? & ? & Hz & ?); [lia..|].
      exists j. split_and!; [done|lia|lia| |done].
      intros k Hk. destruct (decide (k = i)) as [->|]; [done|]. apply Hz. lia.
    + exists i. split_and!; [done|lia|lia|intros; lia|]. rewrite Hb. congruence.
  - exists i. split_and!; [done|lia|lia|intros; lia|lia].
Qed.

(** The accounting of the second stream: the archive, or nothing, or a buffer
    lost when the stream decompressed to nothing. *)
Definition initrd_leak (r : option (list Z)) (leak : Z) : Prop :=
  leak = 0 ∨ leak = 1 ∧ r = None ∧
    ∃ input pos, xz_dec_run input XZ_OUTPUT_MAX_SIZE = (XZ_STREAM_END, pos, []).

Definition initrd_ok (r : option (list Z)) : Prop :=
  match r with Some c => take 6 c = CPIO_MAGIC | None => True end.

Definition held (r : option (list Z)) : Z := match r with Some _ => 1 | None => 0 end.

Lemma extract_initrd_spec Data SearchEnd Start XzInit p :
  0 <= Start → Start <= SearchEnd → SearchEnd <= len Data → len Data < 2 ^ 63 →
  ∃ r p' leak, extract_initrd xz_dec_run Data SearchEnd Start XzInit p = Some (r, p') ∧
    initrd_ok r ∧ initrd_leak r leak ∧ pool_live p' = pool_live p + held r + leak.
Proof.
  intros H0 HS HE Hlen. unfold extract_initrd.
  destruct (skip_zeros_spec (S (length Data)) Data SearchEnd Start)
    as (j & -> & Hj & HjE & _); [lia..|]. cbn [mbind option_bind].
  destruct (FindXzStream_spec Data SearchEnd j) as (f & -> & Hf); [lia..|].
  cbn [mbind option_bind]. destruct f as [x|].
  - destruct Hf as (? & (? & ? & ?) & _). unfold XZ_MAGIC_SIZE in *.
    rewrite rdn_eq by lia. cbn [mbind option_bind].
    destruct (TryXzDecompress _ _ XzInit p) as [[[st out] c] p1] eqn:ET.
    apply TryXzDecompress_spec in ET as [[Hst Hl]|(-> & Hl & ret & pos & _ & Hrun & Hret)].
    + rewrite Hst. simpl. exists None, p1, 0. split_and!; [done|done|by left|simpl; lia].
    + simpl. destruct (Z.ltb_spec 0 (len out)) as [Ho|Ho]; simpl.
      * case_b; b2p.
        -- exists (Some out), p1, 0. split_and!; [done| |by left|simpl; lia].
           simpl. by match goal with H : bool_decide _ = true |- _ => apply bool_decide_eq_true_1 in H end.
        -- exists None, (FreePool p1), 0. split_and!; [done|done|by left|simpl; lia].
      * exists None, p1, 1. destruct out; [|simpl in *; lia]. rewrite Hret in Hrun by done.
        split_and!; [done|done| |simpl; lia]. right. split_and!; [done|done|]. eauto.
  - exists None, p, 0. split_and!; [done|done|by left|simpl; lia].
Qed.
End Extract.

(** The search for a stream is exact and terminates: on a buffer shorter than
    2^63 bytes, from any start the callers can pass, [FindXzStream] does not
    fault and reports the first offset at or after the start at which the six
    magic bytes lie before [DataSize], and reports none exactly when there is
    none. *)
Theorem FindXzStream_first Data DataSize StartOffset :
  0 <= StartOffset < 2 ^ 64 - 6 → DataSize <= len Data → len Data < 2 ^ 63 →
  ∃ r, FindXzStream Data DataSize StartOffset = Some r ∧
       first_xz Data DataSize StartOffset r.
Proof. apply FindXzStream_spec. Qed.

(** Section lookup: in a well-formed ELF64 image [FindElfSection] answers with
    the first section of the name, in the order of the section headers, when its
    data lies inside the image, and with [EFI_NOT_FOUND] otherwise; it reads only
    inside the image. *)
Theorem FindElfSection_exact Data shnum shoff shentsize StrTab StrTabSize Name :
  elf_ok Data shnum shoff shentsize StrTab StrTabSize → Forall (λ c, c ≠ 0) Name →
  FindElfSection Data (Name ++ [0])
  = Some (section_answer Data (find_named Name (elf_sections Data shnum shoff shentsize StrTab))).
Proof. intros. by eapply FindElfSection_spec. Qed.

(** The size of the kernel image: on every buffer the decompressor can return,
    [GetPeFileSize] yields the largest end of a section's raw data exactly when
    the buffer holds the headers of a PE image, and it reads outside the buffer
    exactly when the image starts with "MZ" and its [PeOffset] is so large that
    [PeOffset + 24] wraps in 32 bits. *)
Theorem GetPeFileSize_exact Data :
  Forall byte_ok Data → len Data <= XZ_OUTPUT_MAX_SIZE →
  (∀ n, GetPeFileSize Data = Some (Some n) ↔
     ∃ o nsec opt, pe_image Data o nsec opt ∧
       n = image_extent (Z.to_nat nsec) Data (o + 24 + opt)) ∧
  (GetPeFileSize Data = None ↔
     is_mz Data ∧ 0x40 <= len Data ∧ ∃ o, le32 Data 0x3C = Some o ∧ 2 ^ 32 - 24 <= o).
Proof.
  intros Hb Hlen.
  destruct (GetPeFileSize_spec Data Hb Hlen)
    as [(Hr & Hmz & o & Ho & Hw & H64)|[(Hr & Hsmall & Hno)|(o & nsec & opt & Hpe & Hw & Hr)]];
    rewrite Hr; split; try (intros n); split; intros Hx.
  - discriminate Hx.
  - destruct Hx as (o' & nsec & opt & [] & ->). unfold XZ_OUTPUT_MAX_SIZE in *. simplify_eq. lia.
  - eauto.
  - done.
  - discriminate Hx.
  - destruct Hx as (o' & nsec & opt & Hpe & ->). by destruct (Hno o' nsec opt).
  - discriminate Hx.
  - destruct Hx as (? & ? & o & Ho & ?). specialize (Hsmall o). naive_solver lia.
  - injection Hx as <-. eauto.
  - destruct Hx as (o' & nsec' & opt' & [] & ->). destruct Hpe. by simplify_eq.
  - discriminate Hx.
  - destruct Hx as (? & ? & o' & Ho & ?). destruct Hpe. simplify_eq. lia.
Qed.

(** Safety and ownership of the extraction: with any decoder that keeps its
    contract, when the streams are looked for inside the image the extraction
    faults only through a kernel whose PE header offset wraps. On an error it
    returns no buffer and keeps no allocation; on success the stub starts with
    "MZ", the initrd (if any) with the CPIO magic, and the caller owns one
    allocation for each of them; one more is lost exactly where a second stream
    decompressed to nothing. *)
Theorem Extract_safe xz_dec_run `{!XzLaws xz_dec_run} KernelElf s e i1 i2 p :
  len KernelElf < 2 ^ 63 → search_range KernelElf = Some (s, e) →
  0 <= s < 2 ^ 64 - 6 → e <= len KernelElf →
  match ExtractKernelAndInitrd xz_dec_run KernelElf i1 i2 p with
  | None => ∃ input ret pos kernel,
      xz_dec_run input XZ_OUTPUT_MAX_SIZE = (ret, pos, kernel) ∧ GetPeFileSize kernel = None
  | Some (st, x, p') =>
      (EFI_ERROR st = true → x = nothing ∧ pool_live p' = pool_live p) ∧
      (EFI_ERROR st = false → ∃ k leak, StubBuffer x = Some k ∧ is_mz k ∧
         initrd_ok (InitrdData x) ∧ initrd_leak xz_dec_run (InitrdData x) leak ∧
         pool_live p' = pool_live p + 1 + held (InitrdData x) + leak)
  end.
Proof.
  intros Hlen Hr Hs He. unfold ExtractKernelAndInitrd. rewrite Hr. cbn [mbind option_bind].
  destruct (FindXzStream_spec KernelElf e s) as (f & -> & Hf); [lia..|].
  cbn [mbind option_bind]. destruct f as [x|]; [|done].
  destruct Hf as (? & (? & ? & ?) & _). unfold XZ_MAGIC_SIZE in *.
  rewrite rdn_eq by lia. cbn [mbind option_bind].
  destruct (TryXzDecompress _ _ i1 p) as [[[st out] c] p1] eqn:ET.
  apply TryXzDecompress_spec in ET as [[Hst Hl]|(-> & Hl & ret & pos & -> & Hrun & _)].
  { rewrite Hst. split; [done|congruence]. }
  assert (Hroom : 0 <= XZ_OUTPUT_MAX_SIZE) by done.
  destruct (xz_run_spec _ _ _ _ _ Hroom Hrun) as (Hpos & _ & _).
  rewrite length_take, length_drop in Hpos.
  cbn [EFI_ERROR mbind option_bind].
  destruct (Z.ltb_spec (len out) 2) as [Hsmall|Hbig]; cbn [mbind option_bind negb].
  { simpl. split; [intros _; split; [done|lia]|done]. }
  destruct (rd_in_range out 0) as [m Hm]; [lia|]. destruct (rd_in_range out 1) as [z Hz]; [lia|].
  rewrite Hm, Hz. cbn [mbind option_bind].
  destruct ((m =? 0x4D) && (z =? 0x5A)) eqn:Hmz; cbn [negb].
  2:{ simpl. split; [intros _; split; [done|lia]|done]. }
  b2p. subst. destruct (GetPeFileSize out) as [pe|] eqn:Hpe; cbn [mbind option_bind].
  2:{ by eexists _, _, _, _. }
  rewrite u64_small by lia.
  destruct (extract_initrd_spec xz_dec_run KernelElf e (x + pos) i2 p1)
    as (r & p2 & leak & -> & Hok & Hleak & Hl2); [lia..|].
  cbn [mbind option_bind]. split; [done|]. intros _. exists out, leak.
  simpl. split_and!; [done|by split|done|done|lia].
Qed.

(** A position that holds the magic is the first from itself on. *)
Lemma FindXzStream_here Data DataSize i tl :
  0 <= i → DataSize <= len Data → len Data < 2 ^ 63 →
  rdn Data i (DataSize - i) = Some (gXzMagic ++ tl) → FindXzStream Data DataSize i = Some (Some i).
Proof.
  intros Hi HD Hlen Hin. apply rdn_Some in Hin as (_ & Hn & _ & Hl & Hin).
  rewrite length_app in Hl. simpl in Hl.
  destruct (FindXzStream_spec Data DataSize i) as (r & -> & Hr); [lia..|]. f_equal.
  assert (Hat : xz_at Data DataSize i).
  { unfold xz_at, XZ_MAGIC_SIZE. rewrite rdn_eq by lia. split_and!; [lia..|]. f_equal.
    transitivity (take (Z.to_nat 6) (gXzMagic ++ tl)); [|done].
    rewrite Hin, take_take. f_equal. lia. }
  unfold first_xz in Hr. destruct r as [x|].
  - destruct Hr as (Hx & _ & Hmin). destruct (decide (x = i)) as [->|]; [done|].
    destruct (Hmin i); [lia|done].
  - by destruct (Hr i).
Qed.

(** Reading on after a part already read. *)
Lemma rdn_suffix (l : list Z) off n a b :
  rdn l off n = Some (a ++ b) → rdn l (off + len a) (n - len a) = Some b.
Proof.
  intros H. apply rdn_Some in H as (? & ? & ? & Hl & H). rewrite length_app in Hl.
  rewrite rdn_eq by lia. f_equal.
  replace (Z.to_nat (off + len a)) with (Z.to_nat off + length a)%nat by lia.
  rewrite <-drop_drop. replace (Z.to_nat (n - len a)) with (Z.to_nat n - length a)%nat by lia.
  rewrite <-skipn_firstn_comm, <-H. by rewrite drop_app_length.
Qed.

Lemma rdn_rd (l : list Z) off n s k :
  rdn l off n = Some s → 0 <= k < n → rd l (off + k) = rd s k.
Proof.
  intros H Hk. apply rdn_Some in H as (? & ? & ? & Hl & ->).
  rewrite rd_take by lia. by rewrite rd_drop by lia.
Qed.

(** The padding is skipped entirely. *)
Lemma skip_zeros_here Data SearchEnd i n b tl :
  SearchEnd <= len Data →
  rdn Data i (SearchEnd - i) = Some (replicate n 0 ++ b :: tl) → b ≠ 0 →
  skip_zeros (S (length Data)) Data SearchEnd i = Some (i + Z.of_nat n).
Proof.
  intros HE Hin Hb. pose proof Hin as Hr.
  apply rdn_Some in Hr as (? & ? & ? & Hl & _).
  rewrite length_app, length_replicate in Hl. cbn [length] in Hl.
  destruct (skip_zeros_spec (S (length Data)) Data SearchEnd i)
    as (j & -> & Hij & _ & Hz & Hnz); [lia..|]. f_equal.
  assert (Hend : rd Data (i + Z.of_nat n) = Some b).
  { rewrite (rdn_rd _ _ _ _ _ Hin) by lia.
    rewrite rd_app_r by (rewrite length_replicate; lia).
    rewrite length_replicate. by replace (Z.of_nat n - Z.of_nat n) with 0 by lia. }
  destruct (Z.lt_trichotomy j (i + Z.of_nat n)) as [Hlt|[->|Hgt]]; [|done|].
  - destruct Hnz; [lia|]. replace j with (i + (j - i)) by lia.
    rewrite (rdn_rd _ _ _ _ _ Hin) by lia.
    rewrite rd_app_l by (rewrite length_replicate; lia).
    rewrite rd_lookup by lia. apply lookup_replicate. split; [done|lia].
  - specialize (Hz (i + Z.of_nat n)). rewrite Hend in Hz. destruct Hb.
    assert (Some b = Some 0) as [=] by (apply Hz; lia). done.
Qed.

Lemma TryXzDecompress_plenty xz_dec_run input pos out p :
  pool_plenty p → xz_dec_run input XZ_OUTPUT_MAX_SIZE = (XZ_STREAM_END, pos, out) →
  TryXzDecompress xz_dec_run input true p
  = (EFI_SUCCESS, out, Some pos, mkPool [] (pool_live p + 1)).
Proof.
  intros Hp Hrun. unfold TryXzDecompress. rewrite AllocatePool_plenty by done. cbn [negb].
  rewrite Hrun. unfold xz_dec_end, decoder_opened, FreePool. cbn [pool_script pool_live].
  do 2 f_equal. lia.
Qed.

(** The second stream behind its padding. *)
Lemma extract_initrd_here xz_dec_run Data SearchEnd i n t pos cpio p :
  SearchEnd <= len Data → len Data < 2 ^ 63 →
  rdn Data i (SearchEnd - i) = Some (replicate n 0 ++ gXzMagic ++ t) →
  xz_dec_run (gXzMagic ++ t) XZ_OUTPUT_MAX_SIZE = (XZ_STREAM_END, pos, cpio) →
  take 6 cpio = CPIO_MAGIC → pool_plenty p →
  extract_initrd xz_dec_run Data SearchEnd i true p
  = Some (Some cpio, mkPool [] (pool_live p + 1)).
Proof.
  intros HE Hlen Hin Hrun Hcpio Hp. unfold extract_initrd.
  pose proof Hin as Hr. apply rdn_Some in Hr as (? & ? & ? & Hl & _).
  rewrite (skip_zeros_here _ _ _ n 0xFD ([0x37; 0x7A; 0x58; 0x5A; 0x00] ++ t)) by done.
  cbn [mbind option_bind]. apply rdn_suffix in Hin. rewrite length_replicate in Hin.
  replace (SearchEnd - i - Z.of_nat n) with (SearchEnd - (i + Z.of_nat n)) in Hin by lia.
  rewrite (FindXzStream_here _ _ _ t) by (done || lia). cbn [mbind option_bind].
  rewrite Hin. cbn [mbind option_bind].
  rewrite (TryXzDecompress_plenty _ _ _ _ _ Hp Hrun). cbn [EFI_ERROR negb andb].
  assert (Hlc : 6 <= len cpio).
  { apply (f_equal length) in Hcpio. rewrite length_take in Hcpio. change (length CPIO_MAGIC) with 6%nat in Hcpio. lia. }
  unfold CPIO_MAGIC_SIZE. rewrite (proj2 (Z.ltb_lt _ _)), (proj2 (Z.leb_le _ _)) by lia.
  change (Z.to_nat 6) with 6%nat. rewrite Hcpio. by rewrite bool_decide_eq_true_2.
Qed.

Lemma two_streams_run xz_dec_run KernelElf shnum shoff shentsize StrTab StrTabSize
    sec t1 zeros t2 kernel pe cpio pos2 p :
  elf_ok KernelElf shnum shoff shentsize StrTab StrTabSize →
  find_named [0x69; 0x6E; 0x69; 0x74; 0x72; 0x64]
    (elf_sections KernelElf shnum shoff shentsize StrTab) = Some sec →
  rdn KernelElf (sec_offset sec) (sec_size sec)
    = Some ((gXzMagic ++ t1) ++ replicate zeros 0 ++ gXzMagic ++ t2) →
  xz_dec_run ((gXzMagic ++ t1) ++ replicate zeros 0 ++ gXzMagic ++ t2) XZ_OUTPUT_MAX_SIZE
    = (XZ_STREAM_END, len (gXzMagic ++ t1), kernel) →
  xz_dec_run (gXzMagic ++ t2) XZ_OUTPUT_MAX_SIZE = (XZ_STREAM_END, pos2, cpio) →
  is_mz kernel → GetPeFileSize kernel = Some pe →
  take 6 cpio = CPIO_MAGIC → pool_plenty p →
  ∃ p', ExtractKernelAndInitrd xz_dec_run KernelElf true true p
    = Some (EFI_SUCCESS, mkExtracted (Some kernel) (default (len kernel) pe) (Some cpio), p') ∧
    pool_live p' = pool_live p + 2.
Proof.
  intros Hok Hsec Hin Hrun1 Hrun2 [Hm Hz] Hpe Hcpio Hp.
  destruct sec as [nm off size]; cbn [sec_offset sec_size] in *.
  pose proof (elf_short _ _ _ _ _ _ Hok) as Hlen.
  pose proof Hin as Hrd. apply rdn_Some in Hrd as (Ho & Hs & Hos & Hl & Hdata).
  unfold ExtractKernelAndInitrd, search_range.
  change INITRD_NAME with ([0x69; 0x6E; 0x69; 0x74; 0x72; 0x64] ++ [0]).
  rewrite (FindElfSection_spec _ _ _ _ _ _ Hok) by (repeat constructor; lia).
  rewrite Hsec. unfold section_answer. cbn [sec_offset sec_size].
  rewrite !u64_small by lia. rewrite (proj2 (Z.ltb_ge _ _)) by lia.
  cbn [mbind option_bind EFI_ERROR negb]. rewrite !u64_small by lia.
  replace size with (off + size - off) in Hin by lia.
  rewrite (FindXzStream_here _ _ _ (t1 ++ replicate zeros 0 ++ gXzMagic ++ t2))
    by (try lia; by rewrite Hin, <-app_assoc).
  cbn [mbind option_bind]. rewrite Hin. cbn [mbind option_bind].
  rewrite (TryXzDecompress_plenty _ _ _ _ _ Hp Hrun1). cbn [EFI_ERROR mbind option_bind].
  rewrite (proj2 (Z.ltb_ge (len kernel) 2)) by (apply rd_Some in Hz; lia).
  rewrite Hm, Hz. cbn [mbind option_bind Z.eqb Pos.eqb andb negb].
  rewrite Hpe. cbn [mbind option_bind].
  rewrite length_app in Hl. apply rdn_suffix in Hin.
  rewrite u64_small by lia.
  rewrite (extract_initrd_here _ _ _ _ zeros t2 pos2 cpio)
    by (try done; try lia; rewrite <-Hin; f_equal; lia).
  cbn [mbind option_bind]. eexists. split; [done|]. simpl. lia.
Qed.

(** The kernel and the initrd come out: in a well-formed ELF64 image whose
    first "initrd" section holds two XZ streams with any number of zero bytes
    between them, when the decoder decodes the first to an "MZ" image (whose PE
    offset does not wrap) and the second to a CPIO archive and memory suffices,
    the extraction returns exactly these two buffers, with the size of the image
    on disk, and the caller owns exactly two allocations. *)
Theorem Extract_two_streams xz_dec_run KernelElf shnum shoff shentsize StrTab StrTabSize
    sec t1 zeros t2 kernel pe cpio pos2 p :
  elf_ok KernelElf shnum shoff shentsize StrTab StrTabSize →
  find_named [0x69; 0x6E; 0x69; 0x74; 0x72; 0x64]
    (elf_sections KernelElf shnum shoff shentsize StrTab) = Some sec →
  rdn KernelElf (sec_offset sec) (sec_size sec)
    = Some ((gXzMagic ++ t1) ++ replicate zeros 0 ++ gXzMagic ++ t2) →
  xz_dec_run ((gXzMagic ++ t1) ++ replicate zeros 0 ++ gXzMagic ++ t2) XZ_OUTPUT_MAX_SIZE
    = (XZ_STREAM_END, len (gXzMagic ++ t1), kernel) →
  xz_dec_run (gXzMagic ++ t2) XZ_OUTPUT_MAX_SIZE = (XZ_STREAM_END, pos2, cpio) →
  is_mz kernel → GetPeFileSize kernel = Some pe →
  take 6 cpio = CPIO_MAGIC → pool_plenty p →
  ∃ p', ExtractKernelAndInitrd xz_dec_run KernelElf true true p
    = Some (EFI_SUCCESS, mkExtracted (Some kernel) (default (len kernel) pe) (Some cpio), p') ∧
    pool_live p' = pool_live p + 2.
Proof. apply two_streams_run. Qed.

(** Where the bounds check of the section lookup fails: [sh_offset + sh_size] is
    compared with the size of the image after wrapping in 64 bits. For a
    well-formed image whose first "initrd" section starts in the last six bytes
    of the address space and wraps to an end inside the image, the section is
    accepted and the search for a stream reads in front of the image. *)
Theorem Extract_wrap_faults xz_dec_run KernelElf shnum shoff shentsize StrTab StrTabSize sec i1 i2 p :
  elf_ok KernelElf shnum shoff shentsize StrTab StrTabSize →
  find_named [0x69; 0x6E; 0x69; 0x74; 0x72; 0x64]
    (elf_sections KernelElf shnum shoff shentsize StrTab) = Some sec →
  2 ^ 64 - 6 <= sec_offset sec < 2 ^ 64 → 6 <= sec_size sec →
  sec_offset sec + sec_size sec - 2 ^ 64 <= len KernelElf →
  FindElfSection KernelElf INITRD_NAME = Some (EFI_SUCCESS, sec_offset sec, sec_size sec) ∧
  ExtractKernelAndInitrd xz_dec_run KernelElf i1 i2 p = None.
Proof.
  intros Hok Hsec Hoff Hsize Hend. pose proof (elf_short _ _ _ _ _ _ Hok) as Hlen.
  assert (Hw : sec_offset sec +u64 sec_size sec = sec_offset sec + sec_size sec - 2 ^ 64).
  { unfold u64. symmetry. apply (Z.mod_unique _ _ 1); lia. }
  assert (Hfind : FindElfSection KernelElf INITRD_NAME
                  = Some (EFI_SUCCESS, sec_offset sec, sec_size sec)).
  { change INITRD_NAME with ([0x69; 0x6E; 0x69; 0x74; 0x72; 0x64] ++ [0]).
    rewrite (FindElfSection_spec _ _ _ _ _ _ Hok) by (repeat constructor; lia).
    rewrite Hsec. unfold section_answer. rewrite Hw. by rewrite (proj2 (Z.ltb_ge _ _)) by lia. }
  split; [done|]. unfold ExtractKernelAndInitrd, search_range. rewrite Hfind.
  cbn [mbind option_bind EFI_ERROR negb]. rewrite Hw.
  unfold FindXzStream. cbn [find_xz]. unfold XZ_MAGIC_SIZE.
  assert (Hw6 : sec_offset sec +u64 6 = sec_offset sec + 6 - 2 ^ 64).
  { unfold u64. symmetry. apply (Z.mod_unique _ _ 1); lia. }
  rewrite Hw6. rewrite (proj2 (Z.leb_le _ _)) by lia.
  assert (Hrd : rdn KernelElf (sec_offset sec) 6 = None).
  { unfold rdn, in_bounds. rewrite (proj2 (Z.leb_gt (sec_offset sec + 6) _)) by lia.
    by rewrite andb_false_r. }
  by rewrite Hrd.
Qed.

(** ** Concrete images *)

(** A decoder of a trivial format: the magic, a length byte, the data. *)
Definition stored_xz (input : list Z) (room : Z) : xz_ret * Z * list Z :=
  match drop 6 input with
  | n :: rest =>
      if (0 <=? n) && (n <=? len rest) && (n <=? room)
      then (XZ_STREAM_END, 7 + n, map u8 (take (Z.to_nat n) rest))
      else (XZ_OTHER, 0, [])
  | [] => (XZ_OTHER, 0, [])
  end.

#[export] Instance stored_xz_laws : XzLaws stored_xz.
Proof.
  constructor. intros input room ret in_pos out Hroom. unfold stored_xz.
  destruct (drop 6 input) as [|n rest] eqn:E.
  { intros [= <- <- <-]. split_and!; [simpl; lia..|constructor]. }
  apply (f_equal length) in E. rewrite length_drop in E. cbn [length] in E.
  case_b; b2p; intros [= <- <- <-].
  - rewrite length_map, length_take. split_and!; [lia..|].
    apply list.Forall_forall. intros x Hx.
    apply list_elem_of_fmap in Hx as (y & -> & _). apply u8_range.
  - split_and!; [simpl; lia..|constructor].
Qed.

(** A PE image of one section. *)
Definition demo_kernel : list Z :=
  [0x4D; 0x5A] ++ replicate 58 0 ++ le_bytes 4 64 ++
  [0x50; 0x45; 0; 0; 0; 0] ++ le_bytes 2 1 ++ replicate 12 0 ++ le_bytes 2 0 ++ [0; 0] ++
  replicate 16 0 ++ le_bytes 4 32 ++ le_bytes 4 96 ++ replicate 16 0.

Definition demo_cpio : list Z := CPIO_MAGIC ++ [1; 2; 3].

Definition demo_t1 : list Z := len demo_kernel :: demo_kernel.
Definition demo_t2 : list Z := len demo_cpio :: demo_cpio.
Definition demo_streams : list Z :=
  (gXzMagic ++ demo_t1) ++ replicate 5 0 ++ gXzMagic ++ demo_t2.

(** An image with an "initrd" section at [off] of [size] bytes: header, string
    table, two section headers, the streams. *)
Definition demo_elf (off size : Z) : list Z :=
  le_bytes 4 ELF_MAGIC ++ [2; 1] ++ replicate 12 0 ++ le_bytes 2 183 ++ replicate 20 0 ++
  le_bytes 8 72 ++ replicate 10 0 ++ le_bytes 2 64 ++ le_bytes 2 2 ++ le_bytes 2 0 ++
  [0; 0x69; 0x6E; 0x69; 0x74; 0x72; 0x64; 0] ++
  le_bytes 4 0 ++ replicate 20 0 ++ le_bytes 8 64 ++ le_bytes 8 8 ++ replicate 24 0 ++
  le_bytes 4 1 ++ replicate 20 0 ++ le_bytes 8 off ++ le_bytes 8 size ++ replicate 24 0 ++
  demo_streams.

Definition demo_image : list Z := demo_elf 200 (len demo_streams).
Definition demo_wrapping : list Z := demo_elf (2 ^ 64 - 3) 10.

Lemma demo_elf_bytes off size : Forall byte_ok (demo_elf off size).
Proof.
  unfold demo_elf. repeat (apply list.Forall_app; split);
    first [apply le_bytes_ok | apply bytes_okb_spec; vm_compute; reflexivity].
Qed.

(** The checks of [elf_ok] on an image given by its bytes. *)
Ltac check_elf :=
  constructor;
  [ apply demo_elf_bytes
  | vm_compute; reflexivity .. | lia | vm_compute; discriminate
  | exists 0; split_and!; vm_compute; reflexivity
  | vm_compute; split; [reflexivity | discriminate]
  | vm_compute; reflexivity
  | intros i Hi; assert (i = 0 ∨ i = 1) as [-> | ->] by lia;
    [exists 0 | exists 1]; split; vm_compute; reflexivity ].

Lemma demo_image_ok : elf_ok demo_image 2 72 64 64 8.
Proof. check_elf. Qed.

Lemma demo_wrapping_ok : elf_ok demo_wrapping 2 72 64 64 8.
Proof. check_elf. Qed.

Lemma demo_search : search_range demo_image = Some (200, 200 + len demo_streams).
Proof. vm_compute. reflexivity. Qed.

Lemma demo_named :
  find_named [0x69; 0x6E; 0x69; 0x74; 0x72; 0x64] (elf_sections demo_image 2 72 64 64)
  = Some (mkSection [0x69; 0x6E; 0x69; 0x74; 0x72; 0x64] 200 (len demo_streams)).
Proof. vm_compute. reflexivity. Qed.

Lemma demo_wrapping_named :
  find_named [0x69; 0x6E; 0x69; 0x74; 0x72; 0x64] (elf_sections demo_wrapping 2 72 64 64)
  = Some (mkSection [0x69; 0x6E; 0x69; 0x74; 0x72; 0x64] (2 ^ 64 - 3) 10).
Proof. vm_compute. reflexivity. Qed.

Lemma demo_short : len demo_image < 2 ^ 63.
Proof. vm_compute. reflexivity. Qed.

Lemma FindXzStream_first_witness :
  ∃ r, FindXzStream demo_image (len demo_image) 0 = Some r ∧ first_xz demo_image (len demo_image) 0 r.
Proof. apply (FindXzStream_first demo_image (len demo_image) 0); [lia|lia|apply demo_short]. Defined.

Lemma FindElfSection_exact_witness :
  FindElfSection demo_image INITRD_NAME = Some (EFI_SUCCESS, 200, len demo_streams).
Proof.
  etransitivity;
    [apply (FindElfSection_exact demo_image 2 72 64 64 8 [0x69; 0x6E; 0x69; 0x74; 0x72; 0x64]);
       [apply demo_image_ok | repeat constructor; lia]
    | vm_compute; reflexivity].
Defined.

Lemma demo_kernel_bytes : Forall byte_ok demo_kernel.
Proof. apply bytes_okb_spec. vm_compute. reflexivity. Qed.

Lemma GetPeFileSize_exact_witness :
  GetPeFileSize demo_kernel = Some (Some 128) ∧ len demo_kernel = 128.
Proof.
  split; [|vm_compute; reflexivity].
  apply (GetPeFileSize_exact demo_kernel); [apply demo_kernel_bytes|vm_compute; discriminate|].
  exists 64, 1, 0. split; [|vm_compute; reflexivity].
  constructor; try (vm_compute; reflexivity); [split; vm_compute; reflexivity|..];
    vm_compute; discriminate.
Defined.

Lemma demo_run :
  ExtractKernelAndInitrd stored_xz demo_image true false (mkPool [] 7)
  = Some (EFI_SUCCESS, mkExtracted (Some demo_kernel) 128 None, mkPool [] 8).
Proof. vm_compute. reflexivity. Qed.

Lemma Extract_safe_witness :
  ∃ leak, initrd_leak stored_xz None leak ∧ 8 = 7 + 1 + 0 + leak.
Proof.
  pose proof (Extract_safe stored_xz demo_image 200 (200 + len demo_streams) true false (mkPool [] 7)
    demo_short demo_search) as H.
  rewrite demo_run in H.
  destruct H as [_ H]; [lia|vm_compute; discriminate|].
  destruct (H eq_refl) as (k & leak & _ & _ & _ & Hleak & Hlive).
  exists leak. split; [exact Hleak|exact Hlive].
Defined.

Lemma Extract_two_streams_witness :
  ∃ p', ExtractKernelAndInitrd stored_xz demo_image true true (mkPool [] 0)
    = Some (EFI_SUCCESS, mkExtracted (Some demo_kernel) 128 (Some demo_cpio), p') ∧
    pool_live p' = 2.
Proof.
  apply (Extract_two_streams stored_xz demo_image 2 72 64 64 8
    (mkSection [0x69; 0x6E; 0x69; 0x74; 0x72; 0x64] 200 (len demo_streams))
    demo_t1 5 demo_t2 demo_kernel (Some 128) demo_cpio (7 + len demo_cpio) (mkPool [] 0));
    [apply demo_image_ok | apply demo_named | ..];
    repeat split; vm_compute; reflexivity.
Defined.

Lemma Extract_wrap_faults_witness :
  FindElfSection demo_wrapping INITRD_NAME = Some (EFI_SUCCESS, 2 ^ 64 - 3, 10) ∧
  ExtractKernelAndInitrd stored_xz demo_wrapping true true (mkPool [] 0) = None.
Proof.
  apply (Extract_wrap_faults stored_xz demo_wrapping 2 72 64 64 8
    (mkSection [0x69; 0x6E; 0x69; 0x74; 0x72; 0x64] (2 ^ 64 - 3) 10));
    [apply demo_wrapping_ok | apply demo_wrapping_named | simpl; lia | simpl; lia
    | vm_compute; discriminate].
Defined.
