(* ===== verification/Fdt.v ===== *)
(** * Device tree blobs

    The part of edk2's FdtLib (libfdt) that the firmware uses, over a type [T] of
    blobs: an operation returns its error code or offset and the blob as it leaves
    it. The laws are what libfdt documents of the operations on the properties of
    the tree. *)

From Stdlib Require Import String.
From S2P Require Import Prelude.

#[local] Open Scope string_scope.
#[local] Open Scope Z_scope.

Class Fdt (T : Type) := {
  FdtCheckHeader : T → Z;
  FdtTotalSize : T → Z;
  FdtOpenInto : T → Z → Z * T;
  FdtPathOffset : T → string → Z;
  FdtAddSubnode : T → Z → string → Z * T;
  FdtSetProp : T → Z → string → list Z → Z * T;
  FdtPack : T → Z * T
}.

(** The 64-bit big-endian cell value. *)
Definition be64 (v : Z) : list Z := rev (le_bytes 8 v).

Definition FdtSetPropU64 {T} `{Fdt T} (t : T) (node : Z) (name : string) (v : Z) : Z * T :=
  FdtSetProp t node name (be64 v).

Class FdtLaws (T : Type) `{Fdt T} := {
  fdt_prop : T → string → string → option (list Z);
  fdt_at : T → Z → string → Prop;
  root_at t : fdt_at t 0 "/";
  path_offset_spec t path : 0 <= FdtPathOffset t path → fdt_at t (FdtPathOffset t path) path;
  open_spec t size t' : FdtOpenInto t size = (0, t') → ∀ path q, fdt_prop t' path q = fdt_prop t path q;
  add_subnode_spec t name off t' :
    FdtAddSubnode t 0 name = (off, t') → 0 <= off →
    fdt_at t' off ("/" ++ name)%string ∧ ∀ path q, fdt_prop t' path q = fdt_prop t path q;
  set_prop_spec t off path name v t' :
    fdt_at t off path → FdtSetProp t off name v = (0, t') →
    fdt_at t' off path ∧
    ∀ path' q, fdt_prop t' path' q = if decide (path' = path ∧ q = name) then Some v else fdt_prop t path' q;
  pack_spec t path q : fdt_prop (FdtPack t).2 path q = fdt_prop t path q
}.

(** Two values set in one node: both are there, and nothing else changed. *)
Lemma set_two {T} `{FdtLaws T} (t t1 t2 : T) off path n1 v1 n2 v2 :
  fdt_at t off path → n1 ≠ n2 →
  FdtSetProp t off n1 v1 = (0, t1) → FdtSetProp t1 off n2 v2 = (0, t2) →
  fdt_prop t2 path n1 = Some v1 ∧ fdt_prop t2 path n2 = Some v2 ∧
  ∀ path' q, ~ (path' = path ∧ (q = n1 ∨ q = n2)) → fdt_prop t2 path' q = fdt_prop t path' q.
Proof.
  intros Hat Hne E1 E2. destruct (set_prop_spec _ _ _ _ _ _ Hat E1) as [Hat1 G1].
  destruct (set_prop_spec _ _ _ _ _ _ Hat1 E2) as [_ G2]. split_and!.
  - rewrite G2, decide_False by naive_solver. rewrite G1, decide_True; done.
  - by rewrite G2, decide_True.
  - intros path' q Hn. rewrite G2, decide_False by naive_solver. rewrite G1, decide_False; naive_solver.
Qed.

(** ** A simulated tree *)

(** A root and its children; an offset is 0 for the root and [k + 1] for the [k]th
    child. Two children never have the same name when made by [FdtAddSubnode]. *)
Definition props := list (string * list Z).
Record SimDt := mkDt { dt_ok : bool; dt_size : Z; dt_root : props; dt_subs : list (string * props) }.

Definition prop_of (q : string) (ps : props) : option (list Z) :=
  option_map snd (List.find (λ e, bool_decide (e.1 = q)) ps).

(** The number of the first child of a name. *)
Fixpoint sub_index (path : string) (subs : list (string * props)) : option nat :=
  match subs with
  | [] => None
  | (n, _) :: rest => if bool_decide (("/" ++ n)%string = path) then Some O else option_map S (sub_index path rest)
  end.

Definition sim_prop (t : SimDt) (path q : string) : option (list Z) :=
  if bool_decide (path = "/") then prop_of q (dt_root t)
  else i ← sub_index path (dt_subs t); s ← dt_subs t !! i; prop_of q s.2.

Definition sim_at (t : SimDt) (off : Z) (path : string) : Prop :=
  (off = 0 ∧ path = "/") ∨ (path ≠ "/" ∧ ∃ i, off = Z.of_nat (S i) ∧ sub_index path (dt_subs t) = Some i).

#[export] Instance sim_fdt : Fdt SimDt := {
  FdtCheckHeader t := if dt_ok t then 0 else -9;
  FdtTotalSize := dt_size;
  FdtOpenInto t size :=
    if size <? dt_size t then (-3, t) else (0, mkDt (dt_ok t) size (dt_root t) (dt_subs t));
  FdtPathOffset t path :=
    if bool_decide (path = "/") then 0
    else match sub_index path (dt_subs t) with Some i => Z.of_nat (S i) | None => -1 end;
  FdtAddSubnode t off name :=
    if negb (off =? 0) || bool_decide (name = "") then (-4, t)
    else match sub_index ("/" ++ name)%string (dt_subs t) with
         | Some _ => (-2, t)
         | None => (Z.of_nat (S (length (dt_subs t))), mkDt (dt_ok t) (dt_size t) (dt_root t) (dt_subs t ++ [(name, [])]))
         end;
  FdtSetProp t off name v :=
    if off =? 0 then (0, mkDt (dt_ok t) (dt_size t) ((name, v) :: dt_root t) (dt_subs t))
    else (0, mkDt (dt_ok t) (dt_size t) (dt_root t)
               (alter (λ s, (s.1, (name, v) :: s.2)) (Z.to_nat off - 1)%nat (dt_subs t)));
  FdtPack t := (0, t)
}.

Lemma sub_index_app path subs n ps :
  sub_index path subs = None →
  sub_index path (subs ++ [(n, ps)]) = if bool_decide (("/" ++ n)%string = path) then Some (length subs) else None.
Proof.
  induction subs as [|[m qs] subs IH]; cbn [app sub_index length].
  - by case_bool_decide.
  - destruct (bool_decide ("/" ++ m = path)%string); [discriminate|].
    destruct (sub_index path subs); [discriminate|]. intros _. rewrite IH by done. by case_bool_decide.
Qed.

Lemma sub_index_app_l path subs x i : sub_index path subs = Some i → sub_index path (subs ++ [x]) = Some i.
Proof.
  revert i. induction subs as [|[m qs] subs IH]; intros i; cbn [app sub_index]; [done|].
  case_bool_decide; [done|]. destruct (sub_index path subs) as [j|]; [|done]. intros [= <-]. by rewrite (IH j).
Qed.

Lemma sub_index_lt path subs i : sub_index path subs = Some i → ∃ s, subs !! i = Some s ∧ ("/" ++ s.1)%string = path.
Proof.
  revert i. induction subs as [|[m qs] subs IH]; intros i; cbn [sub_index]; [done|].
  case_bool_decide as Em; [intros [= <-]; by eexists|]. destruct (sub_index path subs) as [j|]; [|done].
  intros [= <-]. by apply IH.
Qed.

Lemma sub_index_alter path subs k f :
  (∀ s, (f s).1 = s.1) → sub_index path (alter f k subs) = sub_index path subs.
Proof.
  intros Hf. revert k. induction subs as [|[m qs] subs IH]; intros [|k]; cbn [alter list_alter sub_index]; try done.
  - pose proof (Hf (m, qs)) as Hm. destruct (f (m, qs)) as [m' qs']. simpl in Hm. by subst.
  - by rewrite IH.
Qed.

Lemma prop_of_cons q name v ps : prop_of q ((name, v) :: ps) = if bool_decide (name = q) then Some v else prop_of q ps.
Proof. unfold prop_of. cbn [List.find fst]. by case_bool_decide. Qed.

#[export] Instance sim_fdt_laws : FdtLaws SimDt.
Proof.
  refine {| fdt_prop := sim_prop; fdt_at := sim_at |}.
  - intros t. by left.
  - intros t path. unfold FdtPathOffset, sim_fdt. case_bool_decide; [by left|].
    destruct (sub_index path (dt_subs t)) eqn:E; [|done]. intros _. right. eauto.
  - intros t size t'. unfold FdtOpenInto, sim_fdt. by case_match; intros [= <-].
  - intros t name off t'. unfold FdtAddSubnode, sim_fdt. cbn [Z.eqb negb orb].
    case_bool_decide as En; [by intros [= <- <-]|].
    destruct (sub_index ("/" ++ name) (dt_subs t)) eqn:E; [by intros [= <- <-]|]. intros [= <- <-] _.
    assert (Hroot : ("/" ++ name)%string ≠ "/") by (intros Hn; destruct name; [by apply En|discriminate Hn]).
    split.
    + right. split; [done|]. exists (length (dt_subs t)). split; [done|]. cbn [dt_subs].
      by rewrite (sub_index_app _ _ _ _ E), bool_decide_true.
    + intros path q. unfold sim_prop. cbn [dt_root dt_subs]. case_bool_decide; [done|].
      destruct (sub_index path (dt_subs t)) as [i|] eqn:Ei.
      * rewrite (sub_index_app_l _ _ _ _ Ei). cbn [mbind option_bind].
        destruct (sub_index_lt _ _ _ Ei) as (s & Hs & _). by rewrite (lookup_app_l_Some _ _ _ _ Hs), Hs.
      * rewrite (sub_index_app _ _ _ _ Ei). case_bool_decide; [|done]. cbn [mbind option_bind].
        rewrite list_lookup_middle by done. done.
  - intros t off path name v t' Hat. unfold FdtSetProp, sim_fdt.
    destruct Hat as [[-> ->]|(Hp & i & -> & Hi)].
    + cbn [Z.eqb]. intros [= <-]. split; [by left|]. intros path' q. unfold sim_prop. cbn [dt_root dt_subs].
      case_bool_decide as Epath; [|by rewrite decide_False by naive_solver].
      rewrite prop_of_cons. case_bool_decide as En; [rewrite decide_True|rewrite decide_False]; naive_solver.
    + rewrite (proj2 (Z.eqb_neq _ _)) by lia. intros [= <-].
      replace (Z.to_nat (Z.of_nat (S i)) - 1)%nat with i by lia. split.
      * right. split; [done|]. exists i. split; [done|]. cbn [dt_subs]. by rewrite sub_index_alter.
      * intros path' q. unfold sim_prop. cbn [dt_root dt_subs].
        case_bool_decide; [by rewrite decide_False by naive_solver|]. rewrite sub_index_alter by done.
        destruct (sub_index path' (dt_subs t)) as [j|] eqn:Ej; cbn [mbind option_bind].
        2:{ rewrite decide_False; [done|]. naive_solver. }
        destruct (sub_index_lt _ _ _ Ej) as (s & Hs & Hname).
        destruct (decide (i = j)) as [<-|Hij].
        -- rewrite list_lookup_alter_eq, Hs. cbn [mbind option_bind fmap option_fmap option_map snd].
           destruct (sub_index_lt _ _ _ Hi) as (s' & Hs' & Hname'). rewrite Hs in Hs'. injection Hs' as <-.
           rewrite prop_of_cons. case_bool_decide as En; [rewrite decide_True|rewrite decide_False]; naive_solver.
        -- rewrite list_lookup_alter_ne, Hs by done. rewrite decide_False by naive_solver. done.
  - done.
Defined.
