(* ===== verification/RouterOS.v ===== *)
(** * The RouterOS loader

    Application/RouterOSLoader: RouterOSLoader.c reads the system package from the
    first filesystem that has it, takes the kernel out of it and hands it to
    KernelBoot.c, which tells the kernel through the device tree where its initrd
    is, and starts it. The package and the kernel image are parsed by [Npk] and
    [KernelExtract]. *)

From Stdlib Require Import String.
From S2P Require Import Prelude Efi Fdt Npk KernelExtract.

#[local] Open Scope string_scope.
#[local] Open Scope Z_scope.

(** ** The environment *)

(** What the boot services answer during one run. [LoadImage] and [StartImage] are
    told the image; StartImage also says whether it leaves exit data. *)
Record BOOT_SERVICES := mkBs {
  AllocatePages : Z → EFI_STATUS * Z;
  InstallStatus : EFI_STATUS;
  LoadImageStatus : list Z → EFI_STATUS;
  LoadedImageStatus : EFI_STATUS;
  StartImage : EFI_STATUS * bool
}.

(** What a run does to the rest of the machine. *)
Inductive boot_event :=
  | EvCopied (Address : Z) (Data : list Z)
  | EvLoadImage (Image : list Z)
  | EvLoadOptions (CmdLine : string) (Size : Z)
  | EvStartImage
  | EvWriteMagic (Address Value : Z)
  | EvWarmReset.

(** The configuration table and the events so far. *)
Record BOOT_ENV (T : Type) := mkEnv {
  ConfigurationTable : list (EFI_GUID * T);
  events : list boot_event
}.
Arguments mkEnv {T}.
Arguments ConfigurationTable {T}.
Arguments events {T}.

Definition s32 (x : Z) : Z := if u32 x <? 2 ^ 31 then u32 x else u32 x - 2 ^ 32.
Definition EFI_SIZE_TO_PAGES (Size : Z) : Z :=
  Z.shiftr Size 12 + (if Z.land Size 0xFFF =? 0 then 0 else 1).

Definition mCmdLine : string :=
  ("console=ttyS0,115200 benand_no_swecc=2 bootimage=1 yaffs.inband_tags=1 " ++
  "parts=1 arm64=Y board=UEFI_CCR2004-1G-2XS-PCIe ver=2026.325.2012 " ++
  "bver=2026.325.2012 hw_opt=00100001 boot=1 mlc=12 loglevel=7 " ++
  "earlycon=uart8250,mmio32,0xfd883000,115200n8 earlyprintk verbose")%string.
Definition sizeof_mCmdLine : Z := 2 * (Z.of_nat (String.length mCmdLine) + 1).

(** ** KernelBoot.c *)

Section Boot.
Context {T : Type} `{Fdt T} (gFdtTableGuid : EFI_GUID).
Implicit Types env : BOOT_ENV T.

Definition log_event (e : boot_event) env : BOOT_ENV T := mkEnv (ConfigurationTable env) (events env ++ [e]).

Fixpoint FindInstalledDtb (tables : list (EFI_GUID * T)) : option T :=
  match tables with
  | [] => None
  | (VendorGuid, VendorTable) :: rest =>
      if bool_decide (VendorGuid = gFdtTableGuid) then Some VendorTable else FindInstalledDtb rest
  end.

(** [InstallConfigurationTable]: the entry of the identifier is replaced, or one is
    added. *)
Fixpoint install_table (t : T) (tables : list (EFI_GUID * T)) : list (EFI_GUID * T) :=
  match tables with
  | [] => [(gFdtTableGuid, t)]
  | (VendorGuid, VendorTable) :: rest =>
      if bool_decide (VendorGuid = gFdtTableGuid) then (VendorGuid, t) :: rest
      else (VendorGuid, VendorTable) :: install_table t rest
  end.

Definition PatchDtbInitrd (bs : BOOT_SERVICES) (InitrdStart InitrdEnd : Z) env (p : Pool)
    : EFI_STATUS * BOOT_ENV T * Pool :=
  match FindInstalledDtb (ConfigurationTable env) with
  | None => (EFI_NOT_FOUND, env, p)
  | Some OrigDtb =>
      if negb (FdtCheckHeader OrigDtb =? 0) then (EFI_COMPROMISED_DATA, env, p)
      else
        let NewSize := FdtTotalSize OrigDtb + 256 in
        let '(ok, p) := AllocatePool p in
        if negb ok then (EFI_OUT_OF_RESOURCES, env, p)
        else
          let '(Err, NewDtb) := FdtOpenInto OrigDtb (s32 NewSize) in
          if negb (Err =? 0) then (EFI_DEVICE_ERROR, env, FreePool p)
          else
            let Chosen := FdtPathOffset NewDtb "/chosen" in
            let '(Chosen, NewDtb) := if Chosen <? 0 then FdtAddSubnode NewDtb 0 "chosen" else (Chosen, NewDtb) in
            if Chosen <? 0 then (EFI_DEVICE_ERROR, env, FreePool p)
            else
              let '(Err, NewDtb) := FdtSetPropU64 NewDtb Chosen "linux,initrd-start" InitrdStart in
              if negb (Err =? 0) then (EFI_DEVICE_ERROR, env, FreePool p)
              else
                let '(Err, NewDtb) := FdtSetPropU64 NewDtb Chosen "linux,initrd-end" InitrdEnd in
                if negb (Err =? 0) then (EFI_DEVICE_ERROR, env, FreePool p)
                else
                  let '(_, NewDtb) := FdtPack NewDtb in
                  if EFI_ERROR (InstallStatus bs) then (InstallStatus bs, env, FreePool p)
                  else (EFI_SUCCESS, mkEnv (install_table NewDtb (ConfigurationTable env)) (events env), p)
  end.

(** The copy of the initrd that outlives the boot services; the status that ends
    the function, if it ends there. [InitrdData] is [None] for NULL. *)
Definition place_initrd (bs : BOOT_SERVICES) (InitrdData : option (list Z)) env (p : Pool)
    : option EFI_STATUS * BOOT_ENV T * Pool :=
  match InitrdData with
  | Some ((_ :: _) as Data) =>
      let '(Status, InitrdPages) := AllocatePages bs (EFI_SIZE_TO_PAGES (len Data)) in
      if EFI_ERROR Status then (Some Status, env, p)
      else
        let env := log_event (EvCopied InitrdPages Data) env in
        let '(_, env, p) := PatchDtbInitrd bs InitrdPages (InitrdPages +u64 len Data) env p in
        (None, env, p)
  | _ => (None, env, p)
  end.

(** LoadImage reads [KernelSize] bytes of the buffer. *)
Definition BootLinuxKernel (bs : BOOT_SERVICES) (KernelBuffer : list Z) (KernelSize : Z)
    (InitrdData : option (list Z)) env (p : Pool) : option (EFI_STATUS * BOOT_ENV T * Pool) :=
  let '(stop, env, p) := place_initrd bs InitrdData env p in
  match stop with
  | Some Status => Some (Status, env, p)
  | None =>
      Image ← rdn KernelBuffer 0 KernelSize;
      let env := log_event (EvLoadImage Image) env in
      if EFI_ERROR (LoadImageStatus bs Image) then Some (LoadImageStatus bs Image, env, p)
      else if EFI_ERROR (LoadedImageStatus bs) then Some (LoadedImageStatus bs, env, p)
      else
        let env := log_event EvStartImage (log_event (EvLoadOptions mCmdLine sizeof_mCmdLine) env) in
        let '(Status, ExitData) := StartImage bs in
        let p := if ExitData then FreePool (mkPool (pool_script p) (pool_live p + 1)) else p in
        Some (Status, env, p)
  end.
End Boot.

(** ** RouterOSLoader.c *)

Definition mImagePath : string := "\var\pdb\system\image".

(** [EFI_FILE_PROTOCOL], as far as it is used: [F] is an open file of a file system,
    whose calls may fault. The first GetInfo, with no buffer, only answers a status;
    the second the size of the file. *)
Class EfiFile (F : Type) := {
  FileOpen : F → string → option (EFI_STATUS * F);
  FileInfoSize : F → option EFI_STATUS;
  FileGetInfo : F → option (EFI_STATUS * Z);
  FileRead : F → Z → option (EFI_STATUS * list Z)
}.

(** What the loader asks of a file system: the calls it makes do not fault. *)
Class EfiFileLaws (F : Type) `{EfiFile F} := {
  dir_ok : F → Prop;
  opened_ok : F → Prop;
  open_total f : dir_ok f →
    ∃ st f', FileOpen f mImagePath = Some (st, f') ∧ (EFI_ERROR st = false → opened_ok f');
  info_size_total f : opened_ok f → is_Some (FileInfoSize f);
  get_info_total f : opened_ok f → is_Some (FileGetInfo f);
  read_total f st n : opened_ok f → FileGetInfo f = Some (st, n) → EFI_ERROR st = false → is_Some (FileRead f n)
}.

(** A handle that carries a filesystem. *)
Record FS_HANDLE (F : Type) := mkFs {
  ProtocolStatus : EFI_STATUS;
  OpenVolumeStatus : EFI_STATUS;
  Root : F
}.
Arguments mkFs {F}.
Arguments ProtocolStatus {F}.
Arguments OpenVolumeStatus {F}.
Arguments Root {F}.

(** How a run ends: it returns, or it resets the machine. *)
Inductive outcome := Returned (Status : EFI_STATUS) | Reset.

Section Loader.
Context {F : Type} `{EfiFile F} {T : Type} `{Fdt T} (gFdtTableGuid : EFI_GUID).
Context {ZS : Type} (inflateInit : list Z → option ZS) (inflate : ZS → Z → zret * list Z * ZS) (zfuel : nat).
Context (xz_dec_run : list Z → Z → xz_ret * Z * list Z).

(** [n] counts the open files. *)
Definition ReadFileToBuffer (RootDir : F) (Path : string) (n : Z) (p : Pool)
    : option (EFI_STATUS * option (list Z) * Z * Pool) :=
  '(Status, File) ← FileOpen RootDir Path;
  if EFI_ERROR Status then Some (Status, None, n, p)
  else
    let n := n + 1 in
    Status ← FileInfoSize File;
    if negb (bool_decide (Status = EFI_BUFFER_TOO_SMALL)) then Some (EFI_DEVICE_ERROR, None, n - 1, p)
    else
      let '(ok, p) := AllocatePool p in
      if negb ok then Some (EFI_OUT_OF_RESOURCES, None, n - 1, p)
      else
        '(Status, FileSize) ← FileGetInfo File;
        if EFI_ERROR Status then Some (Status, None, n - 1, FreePool p)
        else
          let p := FreePool p in
          let '(ok, p) := AllocatePool p in
          if negb ok then Some (EFI_OUT_OF_RESOURCES, None, n - 1, p)
          else
            '(Status, Buffer) ← FileRead File FileSize;
            if EFI_ERROR Status then Some (Status, None, n - 1, FreePool p)
            else Some (EFI_SUCCESS, Some Buffer, n - 1, p).

(** The loop over the handles. *)
Fixpoint scan_handles (Handles : list (FS_HANDLE F)) (n : Z) (p : Pool) : option (option (list Z) * Z * Pool) :=
  match Handles with
  | [] => Some (None, n, p)
  | h :: rest =>
      if EFI_ERROR (ProtocolStatus h) then scan_handles rest n p
      else if EFI_ERROR (OpenVolumeStatus h) then scan_handles rest n p
      else
        '(Status, NpkData, n, p) ← ReadFileToBuffer (Root h) mImagePath (n + 1) p;
        let n := n - 1 in
        if negb (EFI_ERROR Status) then Some (NpkData, n, p) else scan_handles rest n p
  end.

(** [Located] answers LocateHandleBuffer. *)
Definition FindAndReadNpk (Located : EFI_STATUS * list (FS_HANDLE F)) (n : Z) (p : Pool)
    : option (EFI_STATUS * option (list Z) * Z * Pool) :=
  let '(Status, Handles) := Located in
  if EFI_ERROR Status then Some (Status, None, n, p)
  else
    let p := mkPool (pool_script p) (pool_live p + 1) in
    '(NpkData, n, p) ← scan_handles Handles n p;
    match NpkData with
    | Some Data => Some (EFI_SUCCESS, Some Data, n, FreePool p)
    | None => Some (EFI_NOT_FOUND, None, n, FreePool p)
    end.

Definition KERNEL_NAME : list Z := [98; 111; 111; 116; 47; 107; 101; 114; 110; 101; 108; 0].

(** From the kernel's ELF image on; [XzInit1] and [XzInit2] answer the decoder's
    initialisations. *)
Definition boot_kernel (bs : BOOT_SERVICES) (KernelElf : option (list Z)) (XzInit1 XzInit2 : bool)
    (env : BOOT_ENV T) (p : Pool) : option (outcome * BOOT_ENV T * Pool) :=
  '(Status, x, p) ← ExtractKernelAndInitrd xz_dec_run (default [] KernelElf) XzInit1 XzInit2 p;
  let p := npk_file_buffer_free (match KernelElf with Some _ => true | None => false end) p in
  if EFI_ERROR Status then Some (Returned Status, env, p)
  else
    Stub ← StubBuffer x;
    '(Status, env, p) ← BootLinuxKernel gFdtTableGuid bs Stub (StubSize x) (InitrdData x) env p;
    let p := match InitrdData x with Some _ => FreePool p | None => p end in
    Some (Returned Status, env, FreePool p).

(** [ShellArgs] are the arguments after the program's name, when there is a
    shell. *)
Definition RouterOSLoaderEntry (bs : BOOT_SERVICES) (ShellArgs : option (list string))
    (Located : EFI_STATUS * list (FS_HANDLE F)) (XzInit1 XzInit2 : bool)
    (env : BOOT_ENV T) (n : Z) (p : Pool) : option (outcome * BOOT_ENV T * Z * Pool) :=
  if existsb (String.eqb "-RouterBoot") (default [] ShellArgs) then
    Some (Reset, log_event EvWarmReset (log_event (EvWriteMagic 0x20102000 0xFDFFB001) env), n, p)
  else
    '(Status, NpkData, n, p) ← FindAndReadNpk Located n p;
    match NpkData with
    | None => Some (Returned Status, env, n, p)
    | Some NpkBytes =>
        '(NpkStatus, Package, p) ← npk_parse_buffer inflateInit inflate zfuel (Some NpkBytes) true p;
        if negb (bool_decide (NpkStatus = NPK_STATUS_OK)) then
          Some (Returned EFI_COMPROMISED_DATA, env, n, FreePool p)
        else
          Package ← Package;
          '(NpkStatus, KernelElf, p) ← npk_extract_file (Some Package) (Some KERNEL_NAME) true p;
          let p := FreePool (npk_package_free Package p) in
          if negb (bool_decide (NpkStatus = NPK_STATUS_OK)) then Some (Returned EFI_NOT_FOUND, env, n, p)
          else
            '(o, env, p) ← boot_kernel bs KernelElf XzInit1 XzInit2 env p;
            Some (o, env, n, p)
    end.
End Loader.

(** ** The device tree *)

Section DeviceTree.
Context {T : Type} `{FdtLaws T} (gFdtTableGuid : EFI_GUID).
Implicit Types env : BOOT_ENV T.

Lemma installed_table (t : T) tables : FindInstalledDtb gFdtTableGuid (install_table gFdtTableGuid t tables) = Some t.
Proof.
  induction tables as [|[g o] tables IH]; cbn [install_table FindInstalledDtb].
  - by rewrite bool_decide_true.
  - destruct (bool_decide (g = gFdtTableGuid)) eqn:E; cbn [FindInstalledDtb]; by rewrite E.
Qed.

(** The tree [t'] is [t] with the initrd's place in it. *)
Definition tells_initrd (t t' : T) (InitrdStart InitrdEnd : Z) : Prop :=
  fdt_prop t' "/chosen" "linux,initrd-start" = Some (be64 InitrdStart) ∧
  fdt_prop t' "/chosen" "linux,initrd-end" = Some (be64 InitrdEnd) ∧
  ∀ path q, ~ (path = "/chosen" ∧ (q = "linux,initrd-start" ∨ q = "linux,initrd-end")) →
    fdt_prop t' path q = fdt_prop t path q.

Lemma PatchDtb_spec bs InitrdStart InitrdEnd env p st env' p' :
  PatchDtbInitrd gFdtTableGuid bs InitrdStart InitrdEnd env p = (st, env', p') →
  events env' = events env ∧
  ((EFI_ERROR st = true ∧ env' = env ∧ pool_live p' = pool_live p) ∨
   (st = EFI_SUCCESS ∧ pool_live p' = pool_live p + 1 ∧
    ∃ t t', FindInstalledDtb gFdtTableGuid (ConfigurationTable env) = Some t ∧
      ConfigurationTable env' = install_table gFdtTableGuid t' (ConfigurationTable env) ∧
      tells_initrd t t' InitrdStart InitrdEnd)).
Proof.
  unfold PatchDtbInitrd. destruct (FindInstalledDtb _ _) as [t|]; [|intros [= <- <- <-]; auto].
  destruct (negb (FdtCheckHeader t =? 0)); [intros [= <- <- <-]; auto|].
  destruct (AllocatePool p) as [ok p1] eqn:EA. pose proof (AllocatePool_live _ _ _ EA) as L.
  destruct ok; cbn [negb]; [|intros [= <- <- <-]; split; [done|]; left; split_and!; done || lia].
  destruct (FdtOpenInto t _) as [Err t1] eqn:E1.
  destruct (Z.eqb_spec Err 0) as [->|]; cbn [negb];
    [|intros [= <- <- <-]; split; [done|]; left; split_and!; try done; simpl; lia].
  pose proof (open_spec _ _ _ E1) as P1.
  assert (Hat : ∀ Chosen t2, (if FdtPathOffset t1 "/chosen" <? 0 then FdtAddSubnode t1 0 "chosen"
      else (FdtPathOffset t1 "/chosen", t1)) = (Chosen, t2) → 0 <= Chosen →
    fdt_at t2 Chosen "/chosen" ∧ ∀ path q, fdt_prop t2 path q = fdt_prop t path q).
  { intros Chosen t2. destruct (Z.ltb_spec (FdtPathOffset t1 "/chosen") 0).
    - intros E2 Hc. destruct (add_subnode_spec _ _ _ _ E2 Hc) as [Ha Hp]. split; [exact Ha|].
      intros path q. by rewrite Hp, P1.
    - intros [= <- <-] Hc. split; [by apply path_offset_spec|done]. }
  destruct (if FdtPathOffset t1 "/chosen" <? 0 then _ else _) as [Chosen t2].
  specialize (Hat Chosen t2 eq_refl).
  destruct (Z.ltb_spec Chosen 0) as [|Hc]; [intros [= <- <- <-]; split; [done|]; left; split_and!; try done; simpl; lia|].
  destruct (Hat Hc) as [Hat' P2]. unfold FdtSetPropU64.
  destruct (FdtSetProp t2 Chosen _ _) as [Err3 t3] eqn:E3.
  destruct (Z.eqb_spec Err3 0) as [->|]; cbn [negb];
    [|intros [= <- <- <-]; split; [done|]; left; split_and!; try done; simpl; lia].
  destruct (FdtSetProp t3 Chosen _ _) as [Err4 t4] eqn:E4.
  destruct (Z.eqb_spec Err4 0) as [->|]; cbn [negb];
    [|intros [= <- <- <-]; split; [done|]; left; split_and!; try done; simpl; lia].
  destruct (FdtPack t4) as [Err5 t5] eqn:E5.
  assert (P5 : ∀ path q, fdt_prop t5 path q = fdt_prop t4 path q)
    by (intros; by rewrite <- (pack_spec t4), E5).
  destruct (EFI_ERROR (InstallStatus bs)) eqn:EI; intros [= <- <- <-]; (split; [done|]).
  { left. split_and!; try done. simpl. lia. }
  right. split_and!; [done|lia|]. exists t, t5. split_and!; [done..|].
  assert (Hne : "linux,initrd-start" ≠ "linux,initrd-end") by discriminate.
  destruct (set_two _ _ _ _ _ _ _ _ _ Hat' Hne E3 E4) as (S1 & S2 & S3).
  split_and!; rewrite ?P5; try done. intros path q Hn. by rewrite P5, S3, P2.
Qed.

(** patching the device tree: either the table is as it was and nothing stays
    allocated, or the installed tree is a new one that gives the initrd's start and
    end as 64-bit big-endian cells in /chosen, made if it was missing, and agrees
    with the old tree in every other property of every node. *)
Theorem PatchDtbInitrd_exact bs InitrdStart InitrdEnd env p :
  ∃ st env' p', PatchDtbInitrd gFdtTableGuid bs InitrdStart InitrdEnd env p = (st, env', p') ∧
    ((EFI_ERROR st = true ∧ env' = env ∧ pool_live p' = pool_live p) ∨
     (st = EFI_SUCCESS ∧ pool_live p' = pool_live p + 1 ∧ events env' = events env ∧
      ∃ t t', FindInstalledDtb gFdtTableGuid (ConfigurationTable env) = Some t ∧
        FindInstalledDtb gFdtTableGuid (ConfigurationTable env') = Some t' ∧
        tells_initrd t t' InitrdStart InitrdEnd)).
Proof.
  destruct (PatchDtbInitrd _ _ _ _ _ _) as [[st env'] p'] eqn:E. exists st, env', p'. split; [done|].
  destruct (PatchDtb_spec _ _ _ _ _ _ _ _ E) as [He [Hl|(Hs & Hp & t & t' & Ht & Htab & Htell)]]; [by left|].
  right. split_and!; [done..|]. exists t, t'. split_and!; try done. by rewrite Htab, installed_table.
Qed.

(** A boot in which the firmware accepts the image. *)
Lemma BootLinux_spec bs kernel KernelSize cpio addr env p :
  0 <= KernelSize <= len kernel → take 6 cpio = CPIO_MAGIC →
  AllocatePages bs (EFI_SIZE_TO_PAGES (len cpio)) = (EFI_SUCCESS, addr) →
  (∀ image, EFI_ERROR (LoadImageStatus bs image) = false) → EFI_ERROR (LoadedImageStatus bs) = false →
  ∃ env' p', BootLinuxKernel gFdtTableGuid bs kernel KernelSize (Some cpio) env p = Some ((StartImage bs).1, env', p') ∧
    events env' = (events env ++ [EvCopied addr cpio; EvLoadImage (take (Z.to_nat KernelSize) kernel);
                                  EvLoadOptions mCmdLine sizeof_mCmdLine; EvStartImage])%list ∧
    (ConfigurationTable env' = ConfigurationTable env ∨
     ∃ t t', FindInstalledDtb gFdtTableGuid (ConfigurationTable env) = Some t ∧
       FindInstalledDtb gFdtTableGuid (ConfigurationTable env') = Some t' ∧
       tells_initrd t t' addr (addr +u64 len cpio)).
Proof.
  intros Hsize Hcpio Hpages Hload Hloaded. unfold BootLinuxKernel, place_initrd.
  destruct cpio as [|c cs]; [done|]. rewrite Hpages. cbn [EFI_ERROR]. cbv zeta.
  destruct (PatchDtbInitrd _ _ _ _ _ _) as [[st env1] p1] eqn:EP.
  destruct (PatchDtb_spec _ _ _ _ _ _ _ _ EP) as [He Hcase].
  rewrite rdn_eq by lia. rewrite drop_0. cbn [mbind option_bind]. rewrite Hload, Hloaded.
  destruct (StartImage bs) as [sst ExitData]. eexists _, _. split; [reflexivity|]. split.
  - unfold log_event. cbn [events]. rewrite He. unfold log_event. cbn [events]. by rewrite <- !app_assoc.
  - destruct Hcase as [(_ & -> & _)|(_ & _ & t & t' & Ht & Htab & Htell)]; [by left|]. right.
    exists t, t'. split; [done|]. split; [|done]. unfold log_event. cbn [ConfigurationTable].
    by rewrite Htab, installed_table.
Qed.
End DeviceTree.

Lemma FreePool_live p : pool_live (FreePool p) = pool_live p - 1.
Proof. done. Qed.

Lemma plenty_free p : pool_plenty p → pool_plenty (FreePool p).
Proof. done. Qed.

Lemma package_free_plenty k p : pool_plenty p → pool_plenty (npk_package_free k p).
Proof.
  intros Hp. unfold npk_package_free. apply plenty_free.
  assert (He : pool_plenty (npk_free_entries (entries_array k) (entries k) p)).
  { unfold npk_free_entries. destruct (entries_array k); [|done]. apply plenty_free. revert p Hp.
    induction (entries k) as [|e es IH]; intros p Hp; [done|]. by apply IH. }
  unfold free. by destruct (content_buffer k).
Qed.

(** ** The loader *)

Section Reading.
Context {F : Type} `{EfiFileLaws F}.

(** What reading the system image from a handle yields when memory suffices. *)
Definition image_of (h : FS_HANDLE F) : option (list Z) :=
  if EFI_ERROR (ProtocolStatus h) || EFI_ERROR (OpenVolumeStatus h) then None
  else
    '(Status, File) ← FileOpen (Root h) mImagePath;
    if EFI_ERROR Status then None
    else
      Status ← FileInfoSize File;
      if negb (bool_decide (Status = EFI_BUFFER_TOO_SMALL)) then None
      else
        '(Status, FileSize) ← FileGetInfo File;
        if EFI_ERROR Status then None
        else
          '(Status, Buffer) ← FileRead File FileSize;
          if EFI_ERROR Status then None else Some Buffer.

(** A handle whose file system keeps its promises. *)
Definition handle_ok (h : FS_HANDLE F) : Prop :=
  EFI_ERROR (ProtocolStatus h) = false → EFI_ERROR (OpenVolumeStatus h) = false → dir_ok (Root h).

(** Reading one handle: the files are closed again, the pool holds the buffer or is
    as it was, and nothing but the handle's image is returned. *)
Lemma read_handle h n p :
  handle_ok h → EFI_ERROR (ProtocolStatus h) = false → EFI_ERROR (OpenVolumeStatus h) = false →
  ∃ st r p', ReadFileToBuffer (Root h) mImagePath n p = Some (st, r, n, p') ∧
    pool_live p' = pool_live p + (if is_Some_b r then 1 else 0) ∧
    (if EFI_ERROR st then r = None else r = image_of h ∧ is_Some r) ∧
    (pool_plenty p → pool_plenty p' ∧ r = image_of h).
Proof.
  intros Hok E1 E2. specialize (Hok E1 E2). unfold ReadFileToBuffer, image_of. rewrite E1, E2. cbn [orb].
  destruct (open_total _ Hok) as (st & File & -> & Hf). cbn [mbind option_bind].
  destruct (EFI_ERROR st) eqn:Est.
  { eexists _, None, _. split; [reflexivity|]. rewrite Est. split_and!; simpl; (done || lia). }
  specialize (Hf eq_refl). replace (n + 1 - 1) with n by lia.
  destruct (info_size_total _ Hf) as [st1 ->]. cbn [mbind option_bind]. destruct (negb (bool_decide _)).
  { eexists _, None, _. split; [reflexivity|]. split_and!; simpl; (done || lia). }
  destruct (AllocatePool p) as [ok p1] eqn:EA. pose proof (AllocatePool_live _ _ _ EA) as LA.
  assert (PA : pool_plenty p → ok = true ∧ pool_plenty p1).
  { intros Hp. rewrite AllocatePool_plenty in EA by done. by injection EA as <- <-. }
  destruct (get_info_total _ Hf) as [[st2 FileSize] EI]. rewrite EI. cbn [mbind option_bind].
  destruct ok; cbn [negb].
  2:{ eexists _, None, _. split; [reflexivity|]. split_and!; [simpl; lia|done|]. by intros [? _]%PA. }
  destruct (EFI_ERROR st2) eqn:Est2.
  { eexists _, None, _. split; [reflexivity|]. rewrite Est2. split_and!; [simpl; lia|done|].
    intros [_ ?]%PA. split; [done|done]. }
  destruct (read_total _ _ _ Hf EI Est2) as [[st3 Buf] ->]. cbn [mbind option_bind].
  destruct (AllocatePool (FreePool p1)) as [ok p2] eqn:EB. pose proof (AllocatePool_live _ _ _ EB) as LB. simpl in LB.
  assert (PB : pool_plenty p → ok = true ∧ pool_plenty p2).
  { intros [_ Hp]%PA. rewrite AllocatePool_plenty in EB by done. by injection EB as <- <-. }
  destruct ok; cbn [negb].
  2:{ eexists _, None, _. split; [reflexivity|]. split_and!; [simpl; lia|done|]. by intros [? _]%PB. }
  destruct (EFI_ERROR st3) eqn:Est3.
  { eexists _, None, _. split; [reflexivity|]. rewrite Est3. split_and!; [simpl; lia|done|].
    intros [_ ?]%PB. split; [done|done]. }
  eexists _, (Some Buf), _. split; [reflexivity|]. split_and!; [simpl; lia|by split|]. intros [_ ?]%PB. done.
Qed.

Lemma scan_spec hs n p :
  Forall handle_ok hs →
  ∃ r p', scan_handles hs n p = Some (r, n, p') ∧ pool_live p' = pool_live p + (if is_Some_b r then 1 else 0) ∧
    (∀ d, r = Some d → ∃ h, h ∈ hs ∧ image_of h = Some d) ∧
    (pool_plenty p → pool_plenty p' ∧ r = head (omap image_of hs)).
Proof.
  intros Hhs. revert p. induction Hhs as [|h hs Hh _ IH]; intros p; cbn [scan_handles].
  { exists None, p. split_and!; [done|simpl; lia|done|done]. }
  assert (Hskip : image_of h = None → ∃ r p', scan_handles hs n p = Some (r, n, p') ∧
    pool_live p' = pool_live p + (if is_Some_b r then 1 else 0) ∧
    (∀ d, r = Some d → ∃ h', h' ∈ h :: hs ∧ image_of h' = Some d) ∧
    (pool_plenty p → pool_plenty p' ∧ r = head (omap image_of (h :: hs)))).
  { intros Hn. destruct (IH p) as (r & p' & E & Hl & Hd & Hp). exists r, p'. split_and!; [done..| |].
    - intros d Hr. destruct (Hd d Hr) as (h' & ? & ?). exists h'. split; [by apply elem_of_cons; right|done].
    - intros Hpl. destruct (Hp Hpl) as [? ->]. split; [done|]. cbn [omap list_omap]. by rewrite Hn. }
  destruct (EFI_ERROR (ProtocolStatus h)) eqn:E1; [apply Hskip; unfold image_of; by rewrite E1|].
  destruct (EFI_ERROR (OpenVolumeStatus h)) eqn:E2; [apply Hskip; unfold image_of; by rewrite E1, E2|].
  destruct (read_handle h (n + 1) p Hh E1 E2) as (st & r & p1 & -> & Hl & Hst & Hp). cbn [mbind option_bind].
  replace (n + 1 - 1) with n by lia. destruct (EFI_ERROR st); cbn [negb].
  - subst r. simpl in Hl. destruct (IH p1) as (r & p' & -> & Hl' & Hd & Hp'). exists r, p'.
    split_and!; [done|lia| |].
    + intros d Hr. destruct (Hd d Hr) as (h' & ? & ?). exists h'. split; [by apply elem_of_cons; right|done].
    + intros Hpl. destruct (Hp Hpl) as [Hp1 Hn]. destruct (Hp' Hp1) as [? ->]. split; [done|].
      cbn [omap list_omap]. by rewrite <- Hn.
  - destruct Hst as [-> [d Ed]]. exists (image_of h), p1. split_and!; [done..| |].
    + intros d' Ed'. exists h. split; [by apply elem_of_cons; left|done].
    + intros Hpl. destruct (Hp Hpl) as [? _]. split; [done|]. cbn [omap list_omap]. by rewrite Ed.
Qed.

Lemma FindAndReadNpk_spec Located n p :
  Forall handle_ok Located.2 →
  ∃ st r p', FindAndReadNpk Located n p = Some (st, r, n, p') ∧
    pool_live p' = pool_live p + (if is_Some_b r then 1 else 0) ∧
    (match r with Some d => st = EFI_SUCCESS ∧ ∃ h, h ∈ Located.2 ∧ image_of h = Some d | None => EFI_ERROR st = true end) ∧
    (pool_plenty p → EFI_ERROR Located.1 = false → pool_plenty p' ∧ r = head (omap image_of Located.2)).
Proof.
  destruct Located as [st hs]. intros Hhs. unfold FindAndReadNpk. destruct (EFI_ERROR st) eqn:Est.
  { exists st, None, p. split_and!; [done|simpl; lia|done|]. intros _. simpl. congruence. }
  destruct (scan_spec hs n (mkPool (pool_script p) (pool_live p + 1)) Hhs) as (r & p' & -> & Hl & Hd & Hp).
  simpl in Hl. cbn [mbind option_bind]. destruct r as [d|].
  - exists EFI_SUCCESS, (Some d), (FreePool p'). split; [done|]. split; [simpl in *; lia|]. split; [split; [done|by apply Hd]|].
    intros Hpl _. by apply Hp.
  - exists EFI_NOT_FOUND, None, (FreePool p'). split_and!; [done|simpl in *; lia|done|]. intros Hpl _. by apply Hp.
Qed.
End Reading.

Definition KERNEL_PATH : list Z := [98; 111; 111; 116; 47; 107; 101; 114; 110; 101; 108].

Lemma kernel_path_nonzero : Forall (λ c, c ≠ 0) KERNEL_PATH.
Proof. repeat constructor; lia. Qed.

Section Theorems.
Context {F : Type} `{EfiFileLaws F} {T : Type} `{FdtLaws T} (gFdtTableGuid : EFI_GUID).
Context {ZS : Type} (inflateInit : list Z → option ZS) (inflate : ZS → Z → zret * list Z * ZS)
  `{!InflateLaws inflateInit inflate} (zfuel : nat).
Context (xz_dec_run : list Z → Z → xz_ret * Z * list Z).
Implicit Types env : BOOT_ENV T.

(** What the loader may do before it has the kernel: give up with nothing allocated
    and nothing done, or go on with the copy [KernelElf] it owns. *)
Definition front_outcome bs (Located : EFI_STATUS * list (FS_HANDLE F)) i1 i2 env (n : Z) (p : Pool)
    (run : option (outcome * BOOT_ENV T * Z * Pool)) : Prop :=
  (∃ st p', run = Some (Returned st, env, n, p') ∧ EFI_ERROR st = true ∧ pool_live p' = pool_live p) ∨
  (∃ h d q k q' KernelElf p1,
     h ∈ Located.2 ∧ image_of h = Some d ∧
     npk_parse_buffer inflateInit inflate zfuel (Some d) true q = Some (NPK_STATUS_OK, Some k, q') ∧
     (∀ bytes, KernelElf = Some bytes → ∃ e, e ∈ entries k ∧ cstr (name e) = KERNEL_PATH ∧
        type e = NPK_ENTRY_TYPE_FILE ∧ rdn (content k) (data e) (size e) = Some bytes) ∧
     pool_live p1 = pool_live p + (if is_Some_b KernelElf then 1 else 0) ∧
     run = r ← boot_kernel gFdtTableGuid xz_dec_run bs KernelElf i1 i2 env p1; Some (r.1.1, r.1.2, n, r.2)).

(** up to the kernel, whatever the filesystems, the images and the allocations:
    the loader never faults and closes every file. Either it returns an error with
    nothing allocated and nothing done to the machine, or it goes on with exactly
    the data of a regular file named boot/kernel of a package read from one of the
    handles, owning that copy only. *)
Theorem Entry_front bs ShellArgs Located i1 i2 env n p
  (Hshell : existsb (String.eqb "-RouterBoot") (default [] ShellArgs) = false)
  (Hhandles : Forall handle_ok Located.2)
  (Himages : ∀ h d, h ∈ Located.2 → image_of h = Some d → Forall byte_ok d ∧ fuel_for inflateInit inflate zfuel d) :
  front_outcome bs Located i1 i2 env n p
    (RouterOSLoaderEntry gFdtTableGuid inflateInit inflate zfuel xz_dec_run bs ShellArgs Located i1 i2 env n p).
Proof.
  unfold front_outcome, RouterOSLoaderEntry. rewrite Hshell.
  destruct (FindAndReadNpk_spec Located n p Hhandles) as (st & r & p0 & -> & L0 & Hr & _). cbn [mbind option_bind].
  destruct r as [d|]; [|left; eexists _, _; split; [reflexivity|]; split; [done|simpl in L0; lia]].
  destruct Hr as (_ & h & Hin & Hd). destruct (Himages h d Hin Hd) as [Hb Hf]. simpl in L0.
  destruct (npk_parse_buffer_run inflateInit inflate zfuel d p0 Hb Hf) as (nst & k & q' & E & Hk). rewrite E.
  cbn [mbind option_bind]. destruct k as [k|].
  2:{ destruct Hk as [Hne Hl]. rewrite bool_decide_false by done. left. eexists _, _. split; [reflexivity|].
      split; [done|simpl; lia]. }
  destruct Hk as (-> & Hk & Hl). rewrite bool_decide_true by done. cbn [negb mbind option_bind].
  destruct (extract_from_safe (content k) (entries k) KERNEL_PATH q' (pok_entries _ Hk) kernel_path_nonzero)
    as (est & KernelElf & p2 & Ex & L2 & Hx).
  unfold npk_extract_file. change KERNEL_NAME with (KERNEL_PATH ++ [0])%list. rewrite Ex. cbn [mbind option_bind].
  pose proof (package_free_live k q' Hk) as Lq. pose proof (package_free_live k p2 Hk) as Lp.
  destruct (bool_decide (est = NPK_STATUS_OK)) eqn:Eok; cbn [negb].
  - right. exists h, d, p0, k, q', KernelElf, (FreePool (npk_package_free k p2)).
    split_and!; [done..| |rewrite FreePool_live; lia|].
    + intros bytes ->. by destruct Hx as [_ Hx].
    + destruct (boot_kernel _ _ _ _ _ _ _ _) as [[[o env'] p']|]; done.
  - apply bool_decide_eq_false_1 in Eok. destruct KernelElf as [x|]; [by destruct Hx as [-> _]|].
    left. eexists _, _. split; [reflexivity|]. cbn [is_Some_b] in L2. split; [done|rewrite FreePool_live; lia].
Qed.

(** Up to the kernel of an encoded package. *)
Lemma kernel_reached bs ShellArgs Located i1 i2 env n p z s fs before after trailing f :
  existsb (String.eqb "-RouterBoot") (default [] ShellArgs) = false →
  pool_plenty p → EFI_ERROR Located.1 = false → Forall handle_ok Located.2 →
  head (omap image_of Located.2) =
     Some (encode_package (before ++ (NPK_ZLIB_COMPRESSED_DATA, z) :: after) ++ trailing)%list →
  inflateInit z = Some s → decodes s (encode_files fs) → (pending s < zfuel)%nat →
  Forall file_ok fs → len z < 2 ^ 30 → len (encode_files fs) < 2 ^ 31 →
  Forall (λ c, container_ok c ∧ c.1 ≠ NPK_ZLIB_COMPRESSED_DATA) before →
  len (concat (map encode_container (before ++ (NPK_ZLIB_COMPRESSED_DATA, z) :: after)%list)) < 2 ^ 32 →
  find_file KERNEL_PATH fs = Some f → npk_entry_type_from_mode (f_mode f) = NPK_ENTRY_TYPE_FILE →
  ∃ p3, pool_plenty p3 ∧
    RouterOSLoaderEntry gFdtTableGuid inflateInit inflate zfuel xz_dec_run bs ShellArgs Located i1 i2 env n p =
      '(o, env, p) ← boot_kernel gFdtTableGuid xz_dec_run bs
         (match f_payload f with [] => None | d => Some d end) i1 i2 env p3;
      Some (o, env, n, p).
Proof.
  intros Hshell Hplenty Hloc Hhandles Himage Hz Hdec Hfuel Hfiles Hzlen Hflen Hbefore Hbody Hfind Htype.
  unfold RouterOSLoaderEntry. rewrite Hshell.
  destruct (FindAndReadNpk_spec Located n p Hhandles) as (st & r & p0 & -> & _ & _ & Hr). cbn [mbind option_bind].
  destruct (Hr Hplenty Hloc) as [Hp0 ->]. rewrite Himage. cbn [mbind option_bind].
  destruct (npk_parse_encoded inflateInit inflate z s fs before after trailing zfuel p0)
    as (k & p1 & E & Hp1 & Hc & He); [done..|].
  rewrite E. cbn [mbind option_bind]. rewrite bool_decide_true by done. cbn [negb mbind option_bind].
  unfold npk_extract_file. change KERNEL_NAME with (KERNEL_PATH ++ [0])%list. rewrite He.
  destruct (extract_from_encoded (content k) [] fs KERNEL_PATH p1 Hc Hfiles kernel_path_nonzero Hp1)
    as (p2 & Hp2 & Ex).
  change (len []) with 0 in Ex. rewrite Ex, Hfind, decide_True by done. cbn [mbind option_bind].
  rewrite bool_decide_true by done. cbn [negb].
  assert (Hp3 : pool_plenty (FreePool (npk_package_free k p2))) by (by apply plenty_free, package_free_plenty).
  by exists (FreePool (npk_package_free k p2)).
Qed.

(** A package that the loader can boot: among any files it contains boot/kernel, an
    ELF image whose initrd section holds two compressed streams, a kernel image, of
    which [stub] is what the PE header covers, and an archive [cpio]. *)
Inductive holds_kernel : list Z → list Z → list Z → Prop :=
  | holds z s fs before after trailing f shnum shoff shentsize StrTab StrTabSize sec t1 zeros t2 kernel pe cpio pos2
      (Hz : inflateInit z = Some s) (Hdec : decodes s (encode_files fs)) (Hfuel : (pending s < zfuel)%nat)
      (Hfiles : Forall file_ok fs) (Hzlen : len z < 2 ^ 30) (Hflen : len (encode_files fs) < 2 ^ 31)
      (Hbefore : Forall (λ c, container_ok c ∧ c.1 ≠ NPK_ZLIB_COMPRESSED_DATA) before)
      (Hbody : len (concat (map encode_container (before ++ (NPK_ZLIB_COMPRESSED_DATA, z) :: after)%list)) < 2 ^ 32)
      (Hfind : find_file KERNEL_PATH fs = Some f)
      (Htype : npk_entry_type_from_mode (f_mode f) = NPK_ENTRY_TYPE_FILE)
      (Helf : elf_ok (f_payload f) shnum shoff shentsize StrTab StrTabSize)
      (Hsec : find_named [0x69; 0x6E; 0x69; 0x74; 0x72; 0x64] (elf_sections (f_payload f) shnum shoff shentsize StrTab)
         = Some sec)
      (Hdata : rdn (f_payload f) (sec_offset sec) (sec_size sec)
         = Some ((gXzMagic ++ t1) ++ replicate zeros 0 ++ gXzMagic ++ t2)%list)
      (Hrun1 : xz_dec_run ((gXzMagic ++ t1) ++ replicate zeros 0 ++ gXzMagic ++ t2)%list XZ_OUTPUT_MAX_SIZE
         = (XZ_STREAM_END, len (gXzMagic ++ t1)%list, kernel))
      (Hrun2 : xz_dec_run (gXzMagic ++ t2)%list XZ_OUTPUT_MAX_SIZE = (XZ_STREAM_END, pos2, cpio))
      (Hmz : is_mz kernel) (Hpe : GetPeFileSize kernel = Some pe) (Hcpio : take 6 cpio = CPIO_MAGIC)
      (Hsize : 0 <= default (len kernel) pe <= len kernel) :
      holds_kernel (encode_package (before ++ (NPK_ZLIB_COMPRESSED_DATA, z) :: after) ++ trailing)%list
        (take (Z.to_nat (default (len kernel) pe)) kernel) cpio.

(** Firmware that gives the copy of the archive a place and accepts the image. *)
Record accepts (bs : BOOT_SERVICES) (cpio : list Z) (addr : Z) : Prop := {
  acc_pages : AllocatePages bs (EFI_SIZE_TO_PAGES (len cpio)) = (EFI_SUCCESS, addr);
  acc_load image : EFI_ERROR (LoadImageStatus bs image) = false;
  acc_loaded : EFI_ERROR (LoadedImageStatus bs) = false
}.

(** What a boot leaves: the machine was made to do exactly this, and the device tree
    is the one that was installed or that tree with the place of the archive. *)
Definition booted env env' (stub cpio : list Z) (addr : Z) : Prop :=
  events env' = (events env ++ [EvCopied addr cpio; EvLoadImage stub;
                                EvLoadOptions mCmdLine sizeof_mCmdLine; EvStartImage])%list ∧
  (ConfigurationTable env' = ConfigurationTable env ∨
   ∃ t t', FindInstalledDtb gFdtTableGuid (ConfigurationTable env) = Some t ∧
     FindInstalledDtb gFdtTableGuid (ConfigurationTable env') = Some t' ∧
     tells_initrd t t' addr (addr +u64 len cpio)).

Lemma Loader_run bs ShellArgs Located env n p image stub cpio addr :
  existsb (String.eqb "-RouterBoot") (default [] ShellArgs) = false →
  pool_plenty p → EFI_ERROR Located.1 = false → Forall handle_ok Located.2 →
  head (omap image_of Located.2) = Some image → holds_kernel image stub cpio → accepts bs cpio addr →
  ∃ env' p',
    RouterOSLoaderEntry gFdtTableGuid inflateInit inflate zfuel xz_dec_run bs ShellArgs Located true true env n p
      = Some (Returned (StartImage bs).1, env', n, p') ∧ booted env env' stub cpio addr.
Proof.
  intros Hshell Hplenty Hloc Hhandles Himage Hk [Hpages Hload Hloaded]. destruct Hk.
  destruct (kernel_reached bs ShellArgs Located true true env n p z s fs before after trailing f)
    as (p3 & Hp3 & ->); [done..|].
  assert (Hne : ∃ b tl, f_payload f = b :: tl).
  { destruct (f_payload f); [|eauto]. apply rdn_Some in Hdata as (Ho & _ & Hl & Hlen & _).
    rewrite length_app in Hlen. simpl in Hlen, Hl. lia. }
  destruct Hne as (b & tl & Epl). rewrite Epl. rewrite <- Epl. clear b tl Epl.
  destruct (two_streams_run xz_dec_run (f_payload f) shnum shoff shentsize StrTab StrTabSize sec t1 zeros t2 kernel pe
    cpio pos2 _ Helf Hsec Hdata Hrun1 Hrun2 Hmz Hpe Hcpio Hp3) as (p4 & Ek & _).
  unfold boot_kernel. cbn [default from_option id]. rewrite Ek. cbn [mbind option_bind EFI_ERROR StubBuffer StubSize InitrdData].
  destruct (BootLinux_spec gFdtTableGuid bs kernel (default (len kernel) pe) cpio addr env
    (npk_file_buffer_free true p4)) as (env' & p5 & -> & Hev & Htab); [done..|].
  cbn [mbind option_bind]. eexists env', _. split; [reflexivity|]. by split.
Qed.

(** C3: the boot, on any file systems: when the first one that has the system image
    holds a package with a kernel, memory suffices and the firmware accepts the
    image, the archive is copied to the pages, exactly the kernel image is loaded
    and started with the command line, every file is closed, and the device tree
    the kernel finds is either the one that was installed or that tree with the
    copy's place in /chosen. *)
Theorem Entry_boots bs ShellArgs Located env n p image stub cpio addr
  (Hshell : existsb (String.eqb "-RouterBoot") (default [] ShellArgs) = false)
  (Hplenty : pool_plenty p) (Hloc : EFI_ERROR Located.1 = false) (Hhandles : Forall handle_ok Located.2)
  (Himage : head (omap image_of Located.2) = Some image) (Hk : holds_kernel image stub cpio)
  (Hacc : accepts bs cpio addr) :
  ∃ env' p',
    RouterOSLoaderEntry gFdtTableGuid inflateInit inflate zfuel xz_dec_run bs ShellArgs Located true true env n p
      = Some (Returned (StartImage bs).1, env', n, p') ∧ booted env env' stub cpio addr.
Proof. by eapply Loader_run. Qed.

Lemma short_kernel Data j1 j2 q : len Data < 58 → ExtractKernelAndInitrd xz_dec_run Data j1 j2 q = None.
Proof.
  intros Hlen. unfold ExtractKernelAndInitrd, search_range, FindElfSection, sizeof_ELF64_EHDR.
  rewrite (proj2 (Z.ltb_lt _ _)) by lia. cbn [mbind option_bind EFI_ERROR negb].
  unfold e_phnum. destruct (le16 Data 56) as [v|] eqn:E; [|done].
  apply le16_bounds in E. lia.
Qed.

(** a package whose boot/kernel is shorter than 58 bytes, empty included, makes
    the loader read the program header fields outside the file (through a null
    pointer when it is empty), although the section lookup has refused the image. *)
Theorem Entry_short_kernel_faults bs ShellArgs Located i1 i2 env n p z s fs before after trailing f
  (Hshell : existsb (String.eqb "-RouterBoot") (default [] ShellArgs) = false)
  (Hplenty : pool_plenty p) (Hloc : EFI_ERROR Located.1 = false)
  (Hhandles : Forall handle_ok Located.2)
  (Himage : head (omap image_of Located.2) =
     Some (encode_package (before ++ (NPK_ZLIB_COMPRESSED_DATA, z) :: after) ++ trailing)%list)
  (Hz : inflateInit z = Some s) (Hdec : decodes s (encode_files fs)) (Hfuel : (pending s < zfuel)%nat)
  (Hfiles : Forall file_ok fs) (Hzlen : len z < 2 ^ 30) (Hflen : len (encode_files fs) < 2 ^ 31)
  (Hbefore : Forall (λ c, container_ok c ∧ c.1 ≠ NPK_ZLIB_COMPRESSED_DATA) before)
  (Hbody : len (concat (map encode_container (before ++ (NPK_ZLIB_COMPRESSED_DATA, z) :: after)%list)) < 2 ^ 32)
  (Hfind : find_file KERNEL_PATH fs = Some f) (Htype : npk_entry_type_from_mode (f_mode f) = NPK_ENTRY_TYPE_FILE)
  (Hshort : len (f_payload f) < 58) :
  RouterOSLoaderEntry gFdtTableGuid inflateInit inflate zfuel xz_dec_run bs ShellArgs Located i1 i2 env n p = None.
Proof.
  destruct (kernel_reached bs ShellArgs Located i1 i2 env n p z s fs before after trailing f)
    as (p3 & _ & ->); [done..|].
  unfold boot_kernel. rewrite short_kernel; [done|]. by destruct (f_payload f).
Qed.
End Theorems.

(** ** A machine with two filesystems *)

Inductive SimFile := SimRoot (Image : option (list Z)) | SimImage (Data : list Z).

#[export] Instance sim_files : EfiFile SimFile := {
  FileOpen f path :=
    Some (match f with
          | SimRoot (Some d) => if String.eqb path mImagePath then (EFI_SUCCESS, SimImage d) else (EFI_NOT_FOUND, f)
          | _ => (EFI_NOT_FOUND, f)
          end);
  FileInfoSize f := Some (match f with SimImage _ => EFI_BUFFER_TOO_SMALL | _ => EFI_UNSUPPORTED end);
  FileGetInfo f := Some (match f with SimImage d => (EFI_SUCCESS, len d) | _ => (EFI_DEVICE_ERROR, 0) end);
  FileRead f n := Some (match f with SimImage d => (EFI_SUCCESS, take (Z.to_nat n) d) | _ => (EFI_DEVICE_ERROR, []) end)
}.

#[export] Instance sim_file_laws : EfiFileLaws SimFile.
Proof.
  refine {| dir_ok := λ _, True; opened_ok := λ _, True |}; try by eexists.
  intros f _. unfold FileOpen, sim_files. destruct (match f with SimRoot _ => _ | _ => _ end) as [st f'].
  by exists st, f'.
Defined.

Definition ros_file (payload : list Z) : file := mkFile 0x81A4 (replicate 22 0) KERNEL_PATH payload.
Definition ros_z (payload : list Z) : list Z := encode_files [ros_file payload].
Definition ros_package (payload : list Z) : list Z :=
  (encode_package ([] ++ (NPK_ZLIB_COMPRESSED_DATA, ros_z payload) :: []) ++ [])%list.
Definition ros_located (payload : list Z) : EFI_STATUS * list (FS_HANDLE SimFile) :=
  (EFI_SUCCESS, [mkFs EFI_SUCCESS EFI_SUCCESS (SimRoot None);
                 mkFs EFI_SUCCESS EFI_SUCCESS (SimRoot (Some (ros_package payload)))]).
Definition demo_guid : EFI_GUID := mkGuid 1 2 3 [4].
Definition demo_env : BOOT_ENV SimDt := mkEnv [(demo_guid, mkDt true 100 [("model", [1])] [])] [].
Definition demo_bs : BOOT_SERVICES :=
  mkBs (λ _, (EFI_SUCCESS, 0x80000000)) EFI_SUCCESS (λ _, EFI_SUCCESS) EFI_SUCCESS (EFI_SUCCESS, true).

Lemma ros_file_ok payload : len payload < 2 ^ 32 → Forall file_ok [ros_file payload].
Proof.
  intros Hl. constructor; [|constructor]. unfold ros_file. split; cbn [f_mode f_fill f_name f_payload].
  - split; vm_compute; congruence.
  - done.
  - split; [done|apply kernel_path_nonzero].
  - done.
Qed.

Lemma ros_stream payload :
  bytes_okb (ros_z payload) = true →
  ∃ s, stored_init (ros_z payload) = Some s ∧ proj1_sig s = ros_z payload.
Proof.
  intros Hb. unfold stored_init. destruct (bool_dec (bytes_okb (ros_z payload)) true) as [Hd|Hd]; [by eexists|].
  by destruct Hd.
Qed.

Lemma ros_handles payload : Forall handle_ok (ros_located payload).2.
Proof. by repeat constructor. Qed.

Definition ros_run (payload : list Z) (p : Pool) :=
  RouterOSLoaderEntry demo_guid stored_init stored_inflate 2000 stored_xz demo_bs None (ros_located payload)
    true true demo_env 0 p.

Lemma ros_holds :
  holds_kernel stored_init stored_inflate 2000 stored_xz (ros_package demo_image) (take 128 demo_kernel) demo_cpio.
Proof.
  destruct (ros_stream demo_image ltac:(vm_compute; reflexivity)) as (s & Hs & Hd).
  assert (Hfuel : (pending (inflateInit := stored_init) (inflate := stored_inflate) s < 2000)%nat).
  { simpl. rewrite Hd. apply Nat.ltb_lt. vm_compute. reflexivity. }
  exact (holds stored_init stored_inflate 2000 stored_xz (ros_z demo_image) s [ros_file demo_image] [] [] [] (ros_file demo_image)
    2 72 64 64 8 (mkSection [0x69; 0x6E; 0x69; 0x74; 0x72; 0x64] 200 (len demo_streams))
    demo_t1 5 demo_t2 demo_kernel (Some 128) demo_cpio (7 + len demo_cpio)
    Hs (eq_sym Hd) Hfuel (ros_file_ok demo_image ltac:(vm_compute; reflexivity))
    ltac:(vm_compute; reflexivity) ltac:(vm_compute; reflexivity) (List.Forall_nil _) ltac:(vm_compute; reflexivity)
    ltac:(vm_compute; reflexivity) eq_refl demo_image_ok demo_named
    ltac:(vm_compute; reflexivity) ltac:(vm_compute; reflexivity) ltac:(vm_compute; reflexivity)
    ltac:(split; vm_compute; reflexivity) ltac:(vm_compute; reflexivity) ltac:(vm_compute; reflexivity)
    ltac:(vm_compute; split; discriminate)).
Qed.

Lemma demo_accepts : accepts demo_bs demo_cpio 0x80000000.
Proof. by split. Qed.

Lemma Entry_boots_witness :
  ∃ env' p', ros_run demo_image (mkPool [] 0) = Some (Returned EFI_SUCCESS, env', 0, p') ∧
    booted demo_guid demo_env env' (take 128 demo_kernel) demo_cpio 0x80000000.
Proof.
  assert (Himage : head (omap image_of (ros_located demo_image).2) = Some (ros_package demo_image))
    by (vm_compute; reflexivity).
  exact (Entry_boots (F := SimFile) (H := sim_files) (H0 := sim_file_laws) (T := SimDt) (H1 := sim_fdt) (H2 := sim_fdt_laws)
    demo_guid stored_init stored_inflate 2000 stored_xz demo_bs None (ros_located demo_image) demo_env 0 (mkPool [] 0)
    (ros_package demo_image) (take 128 demo_kernel) demo_cpio 0x80000000
    eq_refl eq_refl eq_refl (ros_handles _) Himage ros_holds demo_accepts).
Defined.

Lemma Entry_short_kernel_faults_witness : ros_run [0x7F; 0x45; 0x4C; 0x46] (mkPool [] 0) = None.
Proof.
  destruct (ros_stream [0x7F; 0x45; 0x4C; 0x46] ltac:(vm_compute; reflexivity)) as (s & Hs & Hd).
  pose proof (ros_file_ok [0x7F; 0x45; 0x4C; 0x46] ltac:(vm_compute; reflexivity)) as Hf.
  assert (Hfuel : (pending (inflateInit := stored_init) (inflate := stored_inflate) s < 2000)%nat).
  { simpl. rewrite Hd. apply Nat.ltb_lt. vm_compute. reflexivity. }
  exact (Entry_short_kernel_faults (F := SimFile) (H := sim_files) (H0 := sim_file_laws) (T := SimDt) (H1 := sim_fdt) demo_guid stored_init stored_inflate 2000 stored_xz demo_bs None
    (ros_located [0x7F; 0x45; 0x4C; 0x46]) true true demo_env 0 (mkPool [] 0) (ros_z [0x7F; 0x45; 0x4C; 0x46]) s
    [ros_file [0x7F; 0x45; 0x4C; 0x46]] [] [] [] (ros_file [0x7F; 0x45; 0x4C; 0x46])
    eq_refl eq_refl eq_refl (ros_handles _) ltac:(vm_compute; reflexivity) Hs (eq_sym Hd) Hfuel Hf
    ltac:(vm_compute; reflexivity) ltac:(vm_compute; reflexivity) (List.Forall_nil _) ltac:(vm_compute; reflexivity)
    ltac:(vm_compute; reflexivity) eq_refl ltac:(vm_compute; reflexivity)).
Defined.

Lemma Entry_front_witness :
  front_outcome demo_guid stored_init stored_inflate 2000 stored_xz demo_bs (ros_located demo_image) true true demo_env 0
    (mkPool [true; false] 4) (ros_run demo_image (mkPool [true; false] 4)) ∧
  ros_run demo_image (mkPool [true; false] 4) = Some (Returned EFI_NOT_FOUND, demo_env, 0, mkPool [] 4).
Proof.
  split; [|vm_compute; reflexivity].
  apply (Entry_front demo_guid stored_init stored_inflate 2000 stored_xz demo_bs None (ros_located demo_image)); [done|apply ros_handles|].
  intros h d Hin Hd. assert (d = ros_package demo_image) as ->.
  { apply elem_of_cons in Hin as [->|Hin]; [done|]. apply elem_of_cons in Hin as [->|Hin]; [|by apply elem_of_nil in Hin].
    vm_compute in Hd. injection Hd as <-. vm_compute. reflexivity. }
  split; [apply bytes_okb_spec; vm_compute; reflexivity|].
  intros off n input s Hrd Hi. unfold stored_init in Hi. destruct (bool_dec _ _); [|done]. injection Hi as <-. simpl.
  apply rdn_Some in Hrd as (H0 & _ & Hl & Hn & _).
  assert (Hlen : (length (ros_package demo_image) < 2000)%nat) by (apply Nat.ltb_lt; vm_compute; reflexivity). lia.
Defined.
