(* ===== verification/Boot.v ===== *)
(** * From the flash to the kernel

    The YAFFS2 driver as the file system the RouterOS loader reads from: a handle
    of a mounted volume is an open file of the loader's interface, and on a flash
    whose reads do not fail the calls the loader makes are answered from the flash
    image. Put together with the loader this gives the boot from the NAND flash. *)

From Stdlib Require Import String Ascii.
From S2P Require Import Prelude Efi Fdt Nand Yaffs2Obj Yaffs2Format Yaffs2Latest Yaffs2Tree Yaffs2Scan Yaffs2File Yaffs2Volume Npk KernelExtract RouterOS.

#[local] Open Scope Z_scope.

(** ** A mounted flash *)

Section Mounted.
Context {D : Type} `{NandLaws D} (img : Z → list Z).

(** What mounting a flash image leaves. *)
Record mounted (v : VOLUME D) : Prop := {
  mnt_volume : volume_ok v;
  mnt_root : ∃ o, vol_Root v = Some 1 ∧ obj v 1 = Some o ∧ o_Type o = YAFFS2_TYPE_DIR;
  mnt_chunks id o : obj v id = Some o → chunks_on_flash (D := D) o;
  mnt_image q : image (vol_Nand v) q = img q;
  mnt_pool : pool_plenty (v_Pool (vol_Tab v))
}.

Lemma mounted_set_pool v p : pool_plenty p → mounted v → mounted (vol_set_pool v p).
Proof. intros Hp [Hv Hr Hc Hi _]. split; [by apply volume_ok_set_pool|exact Hr|exact Hc|exact Hi|exact Hp]. Qed.

Lemma link_child_pool t i p t' : link_child t i p = Some t' → v_Pool t' = v_Pool t.
Proof. unfold link_child. intros HL. inv_ret. by subst. Qed.

(** Building the tree only frees. *)
Lemma BuildTree_plenty t t' r : BuildTree t = Some (t', r) → pool_plenty (v_Pool t) → pool_plenty (v_Pool t').
Proof.
  unfold BuildTree. intros HB Hp. apply bind_Some in HB as (t1 & H1 & HB).
  apply bind_Some in HB as (t2 & H2 & HB). apply bind_Some in HB as (root & _ & HB). simplify_eq.
  eapply (for_loop_preserves (λ t, pool_plenty (v_Pool t))); [|exact H2|].
  - intros j x y Hy Hx. unfold BuildTree_link in Hy. apply bind_Some in Hy as (slot & _ & Hy).
    destruct slot as [p|]; [|by simplify_eq]. apply bind_Some in Hy as (o & _ & Hy).
    case_match; [by simplify_eq|]. apply bind_Some in Hy as (orphan & _ & Hy). destruct orphan.
    + apply bind_Some in Hy as (root' & _ & Hy). destruct root'; [|by simplify_eq].
      by rewrite (link_child_pool _ _ _ _ Hy).
    + by rewrite (link_child_pool _ _ _ _ Hy).
  - eapply (for_loop_preserves (λ t, pool_plenty (v_Pool t))); [|exact H1|done].
    intros j x y Hy Hx. unfold BuildTree_prune in Hy. apply bind_Some in Hy as (slot & _ & Hy).
    destruct slot as [p|]; [|by simplify_eq]. apply bind_Some in Hy as (o & _ & Hy).
    assert (Hd : pool_plenty (v_Pool (drop_object x j o))).
    { unfold drop_object, free_object. cbn [v_Pool]. by destruct (o_ChunkAlloc o =? 0). }
    repeat (case_match; simplify_eq; [exact Hd|]). by simplify_eq.
Qed.
End Mounted.

Section Mounting.
Context {D : Type} `{NandLaws D}.
Hypothesis Hgeo : geometry_ok D.
Hypothesis Hrel : nand_reliable D.

Lemma scan_mounted d p buf v :
  ids_fit (image d) → pool_plenty p → Yaffs2ScanNand (fresh_volume d p buf) = Some (EFI_SUCCESS, v) →
  mounted (image d) v.
Proof.
  intros Hids Hp E.
  destruct (Yaffs2ScanNand_run Hgeo d p buf Hids)
    as (st & v1 & evs & t & E1 & Himg & HP & Hok & HB & Hwf & Ho & _ & Hiff & Hevs).
  rewrite E in E1. injection E1 as <- <-. specialize (Hevs Hrel).
  destruct (process_events_resolved evs [] (table_empty p) (table_empty_wf p) Hp Hok (resolved_empty p))
    as (t1 & E1 & Hwf1 & Hp1 & Hres). rewrite HP in E1. injection E1 as <-.
  pose proof (proj1 Hiff eq_refl) as (r & Hr & Hr1 & Hty).
  assert (Hlive : ∀ id o, live_objects (v_Objects t) !! id = Some o → 1 <= id <= v_MaxObjId t).
  { intros id o Hid. unfold live_objects in Hid. apply map_lookup_filter_Some in Hid as [Hid _].
    by apply (twf_obj _ Hwf1) in Hid as [? _]. }
  split; [by eapply (scanned_volume_ok v _ _ Hwf Hlive Ho), Hiff|by exists r| |exact Himg|by eapply BuildTree_plenty].
  intros id o Hid i c Hc. unfold obj in Hid. rewrite Ho in Hid.
  destruct (live_objects (v_Objects t) !! id) as [o0|] eqn:El; [|done]. simpl in Hid. injection Hid as <-.
  unfold live_objects in El. apply map_lookup_filter_Some in El as [El _].
  destruct Hres as [_ Hres]. specialize (Hres id). unfold object_at in Hres. rewrite El in Hres.
  destruct (res_chunk _ _ _ Hres i c Hc) as (g & page & Hin & _ & _ & ->). cbn [c_PageIndex c_NBytes].
  simpl in Hin. rewrite Hevs in Hin.
  pose proof (volume_events_sound (image d) Hgeo (image_length d) (image_bytes d) Hids) as Hs.
  rewrite list.Forall_forall in Hs. by destruct (Hs _ Hin) as (_ & ? & ?).
Qed.

(** A successful mount. *)
Lemma mount_mounted d p Fresh Freq v p' :
  ids_fit (image d) → pool_plenty p →
  Yaffs2AllocateVolume d p Fresh Freq EFI_SUCCESS = Some (EFI_SUCCESS, Some v, p') → mounted (image d) v.
Proof.
  intros Hids Hp. unfold Yaffs2AllocateVolume. rewrite (AllocatePool_plenty p Hp). cbn [negb].
  rewrite AllocatePool_plenty by done. cbn [negb].
  destruct (Yaffs2ScanNand _) as [[st v1]|] eqn:E; [|done]. cbn [mbind option_bind].
  destruct (Freq =? 0); [done|]. destruct (EFI_ERROR st) eqn:Est; [by intros [= -> _ _]|].
  intros [= -> _].
  destruct (Yaffs2ScanNand_run Hgeo d (mkPool [] (pool_live p + 1 + 1)) Fresh Hids)
    as (st' & v' & _ & _ & E' & _ & _ & _ & _ & _ & _ & Hst & _).
  unfold fresh_volume in E'. cbn [pool_live] in E. rewrite E in E'. injection E' as <- <-.
  destruct Hst as [->| ->]; [|done]. by eapply (scan_mounted _ _ _ _ Hids); [|exact E].
Qed.
End Mounting.

(** ** Handles as files *)

Definition string_chars (s : string) : list Z := map (λ a, Z.of_nat (nat_of_ascii a)) (list_ascii_of_string s).

(** An open file: its volume and its handle. *)
Record YFile (D : Type) := mkYFile { yf_volume : VOLUME D; yf_handle : YAFFS2_IFILE }.
Arguments mkYFile {D}.
Arguments yf_volume {D}.
Arguments yf_handle {D}.

Section Files.
Context {D : Type} `{NandLaws D} (Epoch : Z → list Z).
Hypothesis Hgeo : geometry_ok D.
Hypothesis Hrel : nand_reliable D.
Hypothesis Epoch_length : ∀ t, length (Epoch t) = 16%nat.

Definition yaffs_get_info (f : YFile D) (Size : Z) (Buffer : option (list Z)) :=
  Yaffs2GetInfo Epoch (yf_volume f) (Some (yf_handle f)) (Some gEfiFileInfoGuid) (Some Size) Buffer.

(** The loader's calls, with its buffers: a record of the size the first GetInfo
    asks for, and as many bytes as the record says the file has. *)
#[export] Instance yaffs_files : EfiFile (YFile D) := {
  FileOpen f path :=
    '(Status, h, v) ← Yaffs2Open (yf_volume f) (Some (yf_handle f)) true (Some (string_chars path ++ [0])) EFI_FILE_MODE_READ 0;
    Some (Status, mkYFile v (default (yf_handle f) h));
  FileInfoSize f := '(Status, _, _) ← yaffs_get_info f 0 None; Some Status;
  FileGetInfo f :=
    '(_, _, InfoSize) ← yaffs_get_info f 0 None; n ← InfoSize;
    '(Status, Info, _) ← yaffs_get_info f n (Some (replicate (Z.to_nat n) 0)); Info ← Info;
    if EFI_ERROR Status then Some (Status, 0) else FileSize ← le64 Info 8; Some (Status, FileSize);
  FileRead f n :=
    '(Status, _, _, c, Buffer) ← Yaffs2Read Epoch (yf_volume f) (Some (yf_handle f)) (Some n) (Some (replicate (Z.to_nat n) 0));
    c ← c; Buffer ← Buffer; Some (Status, take (Z.to_nat c) Buffer)
}.

(** OpenVolume of a mounted volume. *)
Definition yaffs_handle (v : VOLUME D) : option (FS_HANDLE (YFile D)) :=
  '(Status, h, v) ← Yaffs2OpenVolume v;
  Some (mkFs EFI_SUCCESS Status (mkYFile v (default (mkIFile 0 0 None) h))).

Definition sizes_fit (v : VOLUME D) : Prop := ∀ id o, obj v id = Some o → o_FileSize o <= MAX_FILE.

Record directory_ok (f : YFile D) : Prop := {
  dk_mounted : ∃ img, mounted img (yf_volume f);
  dk_sizes : sizes_fit (yf_volume f);
  dk_root : f_OFile (yf_handle f) = 1
}.

Record file_open (f : YFile D) (id : Z) (o : YAFFS2_OBJECT) : Prop := {
  fo_mounted : ∃ img, mounted img (yf_volume f);
  fo_size : o_FileSize o <= MAX_FILE;
  fo_handle : yf_handle f = handle_on (yf_volume f) id;
  fo_object : obj (yf_volume f) id = Some o
}.

Lemma image_path_ok : path_ok (string_chars mImagePath).
Proof. split; [|done]. apply (bool_decide_unpack _). by vm_compute. Qed.

Lemma file_wf f id o : file_open f id o → object_wf id o.
Proof. intros [[img Hm] _ _ Ho]. exact (proj2 (twf_obj _ (vok_table _ (mnt_volume img _ Hm)) _ _ Ho)). Qed.

Lemma open_image f :
  directory_ok f →
  match resolve (yf_volume f) 1 (path_components (string_chars mImagePath)) with
  | Some id => ∃ f' o, FileOpen f mImagePath = Some (EFI_SUCCESS, f') ∧ file_open f' id o ∧
      obj (yf_volume f) id = Some o ∧ vol_Nand (yf_volume f') = vol_Nand (yf_volume f)
  | None => FileOpen f mImagePath = Some (EFI_NOT_FOUND, f)
  end.
Proof.
  destruct f as [v h]. intros [[img Hm] Hs Hroot]. cbn [yf_volume yf_handle] in *.
  destruct (mnt_root img v Hm) as (r & Hr & Hr1 & _).
  assert (Hstart : start_object v h (string_chars mImagePath) = Some 1) by exact Hr.
  assert (H1 : is_Some (obj v 1)) by eauto.
  assert (Hh : is_Some (obj v (f_OFile h))) by (rewrite Hroot; eauto).
  pose proof (Open_run v h (string_chars mImagePath) 1 EFI_FILE_MODE_READ 0 (mnt_volume img v Hm) image_path_ok
    Hstart H1 Hh eq_refl eq_refl) as HO.
  unfold FileOpen, yaffs_files. cbn [yf_volume yf_handle].
  destruct (resolve v 1 _) as [id|] eqn:Er; [|by rewrite HO].
  destruct HO as (st & h' & v' & E & Hcase & Hv' & Hp). specialize (Hp (mnt_pool img v Hm)). subst st.
  destruct Hcase as [[_ ->]|[? _]]; [|done].
  destruct (resolve_is_Some v (mnt_volume img v Hm) 1 _ id H1 Er) as [o Ho].
  exists (mkYFile v' (handle_on v id)), o. cbn [yf_volume yf_handle].
  assert (Hpool : pool_plenty (v_Pool (vol_Tab v'))).
  { clear -E Hm. unfold Yaffs2Open in E. simpl negb in E. cbn match in E.
    apply bind_Some in E as (found & _ & E). destruct found as [id'|]; [|by simplify_eq].
    unfold Yaffs2AllocateIFile in E. rewrite (AllocatePool_plenty _ (mnt_pool img v Hm)) in E. cbn [negb] in E.
    apply bind_Some in E as ([h0 v0] & E0 & E). apply bind_Some in E0 as (o0 & _ & E0). by simplify_eq. }
  assert (Hnand : vol_Nand v' = vol_Nand v) by (by rewrite Hv').
  assert (Hobj : ∀ i, obj v' i = obj v i) by (intros i; by rewrite Hv').
  rewrite E. split_and!; [done| |done|done]. split; cbn [yf_volume yf_handle].
  - exists img. rewrite Hv'. by apply mounted_set_pool.
  - by eapply Hs.
  - unfold handle_on. by rewrite Hobj.
  - by rewrite Hobj.
Qed.

(** The record of an open file. *)
Lemma file_info f id o :
  file_open f id o →
  FileInfoSize f = Some EFI_BUFFER_TOO_SMALL ∧ FileGetInfo f = Some (EFI_SUCCESS, o_FileSize o).
Proof.
  intros Hf. pose proof (owf_size _ _ (file_wf _ _ _ Hf)) as Hsize. destruct Hf as [[img Hm] _ Hh Ho].
  destruct f as [v h]. cbn [yf_volume yf_handle] in *. subst h.
  destruct (name_loads v (mnt_volume img v Hm) id o Ho) as [E1 E2].
  set (name := if decide (Some id = vol_Root v) then [] else cstr (o_Name o)).
  assert (EL : (if decide (Some id = vol_Root v) then Some 0 else AsciiStrLen (o_Name o)) = Some (len name))
    by (unfold name; by destruct (decide _)).
  assert (ER : rdn (o_Name o) 0 (len name) = Some name).
  { unfold name. destruct (decide _); [|done]. rewrite rdn_eq by (simpl; lia). done. }
  assert (EI : ∀ n B, yaffs_get_info (mkYFile v (handle_on v id)) n B =
    '(st, b, k) ← put_info (record_size name) (info_of Epoch o name (record_size name)) B n; Some (st, b, Some k)).
  { intros n B. unfold yaffs_get_info, Yaffs2GetInfo. cbn [yf_volume yf_handle]. unfold handle_on. rewrite Ho.
    cbn [f_OFile mbind option_bind]. rewrite Ho. cbn [mbind option_bind]. rewrite EL. cbn [mbind option_bind].
    rewrite ER. cbn [mbind option_bind]. fold (record_size name). by destruct (put_info _ _ _ _) as [[[? ?] ?]|]. }
  assert (Hneed : 0 < record_size name) by (unfold record_size, SIZE_OF_EFI_FILE_INFO; lia).
  assert (E0 : yaffs_get_info (mkYFile v (handle_on v id)) 0 None = Some (EFI_BUFFER_TOO_SMALL, None, Some (record_size name))).
  { rewrite EI. unfold put_info. by rewrite (proj2 (Z.ltb_lt _ _)). }
  pose proof (length_info_of Epoch Epoch_length o name (record_size name)) as Hl.
  unfold FileInfoSize, FileGetInfo, yaffs_files. rewrite E0. cbn [mbind option_bind]. split; [done|].
  rewrite EI, put_info_spec by (rewrite ?length_replicate; lia). cbn [mbind option_bind EFI_ERROR].
  unfold splice. rewrite take_0. cbn [app]. unfold info_of, file_info_bytes. rewrite <- !app_assoc.
  pose proof (le64_encode (le_bytes 8 (record_size name))) as HE. rewrite length_le_bytes in HE.
  change (Z.of_nat 8) with 8 in HE. by rewrite HE.
Qed.

Lemma file_bytes_ext img img' o pos n : (∀ q, img q = img' q) → file_bytes img o pos n = file_bytes img' o pos n.
Proof.
  intros Hq. unfold file_bytes. apply map_ext. intros i. unfold file_byte.
  destruct (o_Chunks o !! _); [|done]. cbv zeta. by rewrite Hq.
Qed.

Lemma read_open f id o :
  file_open f id o → o_Type o ≠ YAFFS2_TYPE_DIR →
  FileRead f (o_FileSize o) = Some (EFI_SUCCESS, file_bytes (image (vol_Nand (yf_volume f))) o 0 (o_FileSize o)).
Proof.
  intros Hf Hty. pose proof (file_wf _ _ _ Hf) as Hwf. pose proof (owf_size _ _ Hwf) as Hsize.
  destruct Hf as [[img Hm] Hmax Hh Ho]. destruct f as [v h]. cbn [yf_volume yf_handle] in *. subst h.
  set (n := o_FileSize o) in *.
  destruct (Read_file_run Epoch v (handle_on v id) o n (replicate (Z.to_nat n) 0) Hgeo Ho Hwf
    (mnt_chunks img v Hm id o Ho) Hty Hmax ltac:(done) ltac:(rewrite length_replicate; lia) ltac:(simpl; lia))
    as (st & v' & f' & c & buf' & E & _ & _ & Hcase & Hr).
  destruct (Hr Hrel) as [-> ->]. destruct Hcase as [(_ & _ & -> & _)|[? _]]; [|done].
  assert (Hn : readable o (f_Position (handle_on v id)) n = n) by (unfold readable; simpl; lia).
  rewrite Hn in E. change (f_Position (handle_on v id)) with 0 in E.
  unfold FileRead, yaffs_files. cbn [yf_volume yf_handle]. rewrite E. cbn [mbind option_bind].
  unfold splice. rewrite take_0. cbn [app]. rewrite take_app_le by (rewrite length_file_bytes; lia).
  by rewrite take_ge by (rewrite length_file_bytes; lia).
Qed.

Lemma read_directory f id o :
  file_open f id o → o_Type o = YAFFS2_TYPE_DIR → is_Some (FileRead f (o_FileSize o)).
Proof.
  intros Hf Hty. pose proof (owf_size _ _ (file_wf _ _ _ Hf)) as Hsize.
  destruct Hf as [[img Hm] Hmax Hh Ho]. destruct f as [v h]. cbn [yf_volume yf_handle] in *. subst h.
  assert (Hcur : f_DirCursor (handle_on v id) = Some 0%nat).
  { unfold handle_on. rewrite Ho. cbn [f_DirCursor]. by rewrite Hty. }
  unfold FileRead, yaffs_files. cbn [yf_volume yf_handle].
  rewrite (Read_dir_run Epoch v (handle_on v id) o 0 _ _ (mnt_volume img v Hm) Epoch_length Ho Hty Hcur)
    by (rewrite ?length_replicate; simpl; lia).
  destruct (o_ChildHead o !! 0%nat) as [c|] eqn:Ec; [|cbn [mbind option_bind]; eauto].
  destruct (vok_child _ (mnt_volume img v Hm) _ _ c Ho ltac:(by eapply list_elem_of_lookup_2)) as [child Hc].
  rewrite Hc. cbn [mbind option_bind]. cbv zeta. destruct (_ <? _); cbn [mbind option_bind]; eauto.
Qed.

(** A mounted volume keeps the promises the loader relies on. *)
#[export] Instance yaffs_file_laws : EfiFileLaws (YFile D).
Proof using Hgeo Hrel Epoch_length.
  refine {| dir_ok := directory_ok; opened_ok := λ f, ∃ id o, file_open f id o |}.
  - intros f Hf. pose proof (open_image f Hf) as HO. destruct (resolve _ _ _) as [id|].
    + destruct HO as (f' & o & E & Hf' & _). exists EFI_SUCCESS, f'. eauto.
    + exists EFI_NOT_FOUND, f. done.
  - intros f (id & o & Hf). destruct (file_info f id o Hf) as [-> _]. eauto.
  - intros f (id & o & Hf). destruct (file_info f id o Hf) as [_ ->]. eauto.
  - intros f st n (id & o & Hf) E _. destruct (file_info f id o Hf) as [_ EI]. rewrite EI in E. injection E as <- <-.
    destruct (decide (o_Type o = YAFFS2_TYPE_DIR)) as [Hd|Hd]; [by apply (read_directory f id)|].
    rewrite (read_open f id o Hf Hd). eauto.
Defined.

(** What the loader reads from a mounted volume. *)
Lemma handle_image img v id o :
  mounted img v → sizes_fit v →
  resolve v 1 (path_components (string_chars mImagePath)) = Some id → obj v id = Some o →
  o_Type o ≠ YAFFS2_TYPE_DIR →
  ∃ h, yaffs_handle v = Some h ∧ handle_ok h ∧ image_of h = Some (file_bytes img o 0 (o_FileSize o)).
Proof.
  intros Hm Hs Hres Ho Hty. destruct (mnt_root img v Hm) as (r & Hr & Hr1 & Hrt).
  unfold yaffs_handle, Yaffs2OpenVolume, Yaffs2AllocateIFile. rewrite Hr.
  rewrite (AllocatePool_plenty _ (mnt_pool img v Hm)). cbn [negb].
  set (p := mkPool [] _). change (obj (vol_set_pool v p) 1) with (obj v 1). rewrite Hr1. cbn [mbind option_bind].
  eexists. split; [reflexivity|]. cbn [default from_option Datatypes.id].
  set (f := mkYFile (vol_set_pool v p) _).
  assert (Hf : directory_ok f).
  { split; [exists img; by apply mounted_set_pool|exact Hs|done]. }
  split; [by intros _ _|]. unfold image_of. cbn [ProtocolStatus OpenVolumeStatus Root EFI_ERROR orb].
  pose proof (open_image f Hf) as HO. unfold f in HO at 1. cbn [yf_volume] in HO.
  change (resolve (vol_set_pool v p)) with (resolve v) in HO. rewrite Hres in HO.
  destruct HO as (f' & o' & -> & Hf' & Ho' & Hn). unfold f in Ho'. cbn [yf_volume] in Ho'.
  change (obj (vol_set_pool v p) id) with (obj v id) in Ho'. rewrite Ho in Ho'. injection Ho' as <-.
  cbn [mbind option_bind EFI_ERROR]. destruct (file_info f' id o Hf') as [-> ->]. cbn [mbind option_bind].
  rewrite bool_decide_true by done. cbn [negb EFI_ERROR]. rewrite (read_open f' id o Hf' Hty).
  cbn [mbind option_bind EFI_ERROR]. f_equal. apply file_bytes_ext. intros q. rewrite Hn. apply (mnt_image img v Hm).
Qed.
End Files.

(** ** The boot *)

Section Boot.
Context {D : Type} `{NandLaws D} {T : Type} `{FdtLaws T} (gFdtTableGuid : EFI_GUID).
Context {ZS : Type} (inflateInit : list Z → option ZS) (inflate : ZS → Z → zret * list Z * ZS)
  `{!InflateLaws inflateInit inflate} (zfuel : nat).
Context (xz_dec_run : list Z → Z → xz_ret * Z * list Z) (Epoch : Z → list Z).

(** C2: from the NAND flash to the kernel: on a NAND driver that keeps the protocol and
    whose reads do not fail, mount any flash image; if in the mounted tree the path
    of the system image leads to a file whose bytes on the flash are a package with
    a kernel, then the loader, reading through the volume's own file protocol,
    starts exactly that kernel with the archive in place, and closes every file. *)
Theorem flash_boots (d : D) q Fresh Freq v q' id o bs ShellArgs env n p image stub cpio addr
  (Hgeo : geometry_ok D) (Hrel : nand_reliable D) (Hepoch : ∀ t, length (Epoch t) = 16%nat)
  (Hids : ids_fit (Nand.image d)) (Hq : pool_plenty q)
  (Hmount : Yaffs2AllocateVolume d q Fresh Freq EFI_SUCCESS = Some (EFI_SUCCESS, Some v, q'))
  (Hsizes : sizes_fit v) (Hpath : resolve v 1 (path_components (string_chars mImagePath)) = Some id)
  (Ho : obj v id = Some o) (Hty : o_Type o ≠ YAFFS2_TYPE_DIR)
  (Hbytes : file_bytes (Nand.image d) o 0 (o_FileSize o) = image)
  (Hk : holds_kernel inflateInit inflate zfuel xz_dec_run image stub cpio) (Hacc : accepts bs cpio addr)
  (Hshell : existsb (String.eqb "-RouterBoot") (default [] ShellArgs) = false) (Hp : pool_plenty p) :
  ∃ h env' p', yaffs_handle v = Some h ∧
    RouterOSLoaderEntry (H := yaffs_files Epoch) gFdtTableGuid inflateInit inflate zfuel xz_dec_run bs ShellArgs
        (EFI_SUCCESS, [h]) true true env n p
      = Some (Returned (StartImage bs).1, env', n, p') ∧ booted gFdtTableGuid env env' stub cpio addr.
Proof.
  pose proof (mount_mounted Hgeo Hrel d q Fresh Freq v q' Hids Hq Hmount) as Hm.
  destruct (handle_image Epoch Hgeo Hrel Hepoch (Nand.image d) v id o Hm Hsizes Hpath Ho Hty) as (h & Eh & Hh & Hi).
  rewrite Hbytes in Hi.
  destruct (Loader_run (H := yaffs_files Epoch) (H0 := yaffs_file_laws Epoch Hgeo Hrel Hepoch) gFdtTableGuid inflateInit
    inflate zfuel xz_dec_run bs ShellArgs (EFI_SUCCESS, [h]) env n p image stub cpio addr) as (env' & p' & E & Hb);
    try done.
  - cbn [snd]. by apply List.Forall_cons.
  - cbn [snd omap list_omap]. by rewrite Hi.
  - by exists h, env', p'.
Qed.
End Boot.

(** ** A flash with the system package *)

(** var, pdb, system and image, objects 257 to 260, in two blocks of four pages. *)
Definition boot_file : list Z := ros_package demo_image.
Definition boot_pages : gmap Z (list Z) := list_to_map [
  (0, mk_page (encode_header (demo_header YAFFS2_TYPE_DIR 1 0 [])) (header_tags 0x1001 3 1 1 0));
  (1, mk_page (encode_header (demo_header YAFFS2_TYPE_DIR 1 0 [118; 97; 114])) (header_tags 0x1001 3 257 1 0));
  (2, mk_page (encode_header (demo_header YAFFS2_TYPE_DIR 257 0 [112; 100; 98])) (header_tags 0x1001 3 258 257 0));
  (3, mk_page (encode_header (demo_header YAFFS2_TYPE_DIR 258 0 [115; 121; 115; 116; 101; 109])) (header_tags 0x1001 3 259 258 0));
  (4, mk_page (encode_header (demo_header YAFFS2_TYPE_FILE 259 (len boot_file) [105; 109; 97; 103; 101]))
        (header_tags 0x1002 1 260 259 (len boot_file)));
  (5, mk_page boot_file (encode_tags 0x1002 260 1 (len boot_file)))
].
Definition boot_dev : SimDev := mkSim boot_pages None.

Lemma boot_ids_fit : ids_fit (Nand.image boot_dev).
Proof.
  split.
  - intros Block i g Hb Hi Hg.
    destruct (cases_0_1 Block Hb) as [-> | ->];
    destruct (cases_0_3 i Hi) as [-> | [-> | [-> | ->]]];
      vm_compute in Hg; first [discriminate Hg | injection Hg as <-; simpl; lia].
  - intros Block seq e Hb Hs.
    destruct (cases_0_1 Block Hb) as [-> | ->]; vm_compute in Hs; discriminate Hs.
Qed.

(** The volume of a successful mount. *)
Definition volume_of (r : option (EFI_STATUS * option (VOLUME SimDev) * Pool)) : option (VOLUME SimDev) :=
  match r with Some (EFI_SUCCESS, v, _) => v | _ => None end.
Definition boot_volume : VOLUME SimDev :=
  default (fresh_volume boot_dev (mkPool [] 0) []) (volume_of (Yaffs2AllocateVolume boot_dev (mkPool [] 0) [] 1000 EFI_SUCCESS)).
Definition boot_object : YAFFS2_OBJECT := object_at (v_Objects (vol_Tab boot_volume)) 260.

Lemma volume_of_mounts r v0 :
  is_Some_b (volume_of r) = true → ∃ q', r = Some (EFI_SUCCESS, Some (default v0 (volume_of r)), q').
Proof. destruct r as [[[st [v|]] q']|]; [|by destruct st|done]. destruct st; try done. by exists q'. Qed.

Lemma boot_mounts :
  ∃ q', Yaffs2AllocateVolume boot_dev (mkPool [] 0) [] 1000 EFI_SUCCESS = Some (EFI_SUCCESS, Some boot_volume, q').
Proof. apply volume_of_mounts. vm_compute. reflexivity. Qed.

#[local] Opaque boot_volume.

Lemma boot_object_at : obj boot_volume 260 = Some boot_object.
Proof.
  assert (E : is_Some_b (obj boot_volume 260) = true) by (vm_compute; reflexivity).
  unfold boot_object, object_at. unfold obj in E |- *. by destruct (v_Objects (vol_Tab boot_volume) !! 260).
Qed.

#[local] Opaque boot_object.

Lemma boot_sizes : sizes_fit boot_volume.
Proof.
  assert (E : bool_decide (map_Forall (λ _ o, o_FileSize o <= MAX_FILE) (v_Objects (vol_Tab boot_volume))) = true)
    by (vm_compute; reflexivity).
  apply bool_decide_eq_true in E. intros id o Ho. unfold obj in Ho. exact (E id o Ho).
Qed.

Lemma boot_path : resolve boot_volume 1 (path_components (string_chars mImagePath)) = Some 260.
Proof. vm_compute. reflexivity. Qed.

Lemma boot_type : o_Type boot_object ≠ YAFFS2_TYPE_DIR.
Proof. vm_compute. discriminate. Qed.

Lemma boot_bytes : file_bytes (Nand.image boot_dev) boot_object 0 (o_FileSize boot_object) = ros_package demo_image.
Proof. vm_compute. reflexivity. Qed.

Lemma flash_boots_witness :
  ∃ h env' p', yaffs_handle boot_volume = Some h ∧
    RouterOSLoaderEntry (H := yaffs_files (λ _, replicate 16 0)) demo_guid stored_init stored_inflate 2000 stored_xz demo_bs None
        (EFI_SUCCESS, [h]) true true demo_env 0 (mkPool [] 0)
      = Some (Returned EFI_SUCCESS, env', 0, p') ∧
    booted demo_guid demo_env env' (take 128 demo_kernel) demo_cpio 0x80000000.
Proof.
  destruct boot_mounts as [q' Hmount].
  exact (flash_boots (D := SimDev) (H := SimNand) (H0 := SimLaws) (T := SimDt) (H1 := sim_fdt) (H2 := sim_fdt_laws)
    demo_guid stored_init stored_inflate 2000 stored_xz (λ _, replicate 16 0) boot_dev (mkPool [] 0) [] 1000 boot_volume q'
    260 boot_object demo_bs None demo_env 0 (mkPool [] 0) (ros_package demo_image) (take 128 demo_kernel) demo_cpio 0x80000000
    sim_geometry sim_reliable (λ _, eq_refl) boot_ids_fit eq_refl Hmount boot_sizes boot_path boot_object_at boot_type boot_bytes
    ros_holds demo_accepts eq_refl eq_refl).
Defined.
