(* ===== verification/AlNand.v ===== *)
(** * The NAND driver

    Drivers/AlNandDxe/AlNandDxe.c: the driver that produces
    [MIKROTIK_NAND_FLASH_PROTOCOL] and a read-only block device. The vendor's
    HAL is a class of operations over the controller's state, with the behaviour
    its header documents as laws; the driver is shown to keep the promises of
    the protocol ([NandLaws]), so the file system's theorems apply to it. *)

From S2P Require Import Prelude Efi Nand.

Definition BENAND_PAGE_SIZE : Z := 2048.
Definition BENAND_OOB_SIZE : Z := 64.
Definition BENAND_PAGES_PER_BLOCK : Z := 64.
Definition BENAND_NUM_BLOCKS : Z := 1024.
Definition BENAND_NUM_PAGES : Z := BENAND_NUM_BLOCKS * BENAND_PAGES_PER_BLOCK.
Definition AL_NAND_CW_SIZE : Z := 512.
Definition AL_NAND_MAX_CMD_SEQ : Z := 32.
Definition AL_NAND_BB_MAP_SIZE : Z := BENAND_NUM_BLOCKS / 8.
Definition AL_NAND_BASE : Z := 0xFA100000.
Definition AL_NAND_POLL_TIMEOUT_US : Z := 1000000.

(** The commands of the controller's sequencer. *)
Definition AL_NAND_COMMAND_TYPE_CMD : Z := 2.
Definition AL_NAND_COMMAND_TYPE_ADDRESS : Z := 3.
Definition AL_NAND_COMMAND_TYPE_WAIT_FOR_READY : Z := 5.
Definition AL_NAND_COMMAND_TYPE_DATA_READ_COUNT : Z := 6.
Definition AL_NAND_CMD_SEQ_ENTRY (type arg : Z) : Z := Z.lor (Z.shiftl type 8) arg.

(** ** The HAL *)

(** The device properties the driver configures; the fields not set are 0. *)
Record al_nand_dev_properties := mkProps {
  tSETUP : Z; tHOLD : Z; tWH : Z; tWRP : Z; tINTCMD : Z; tRR : Z; tWB : Z; readDelay : Z;
  readyBusyTimeout : Z; num_col_cyc : Z; num_row_cyc : Z
}.

(** The controller registers written directly. *)
Inductive nand_reg := bch_ctrl_reg_0 | bch_ctrl_reg_1 | nflash_spare_offset | nfc_int_stat.

(** The operations of al_hal_nand.h over the controller's state [H]. The data
    buffer read returns its error code and the bytes it stored. *)
Class NandHal (H : Type) := {
  al_nand_init : Z → H → Z * H;
  al_nand_dev_select : Z → H → H;
  al_nand_dev_config : al_nand_dev_properties → H → Z * H;
  al_nand_ecc_set_enabled : Z → H → H;
  al_reg_write32 : nand_reg → Z → H → H;
  al_nand_int_disable : Z → H → H;
  al_nand_cmd_buff_is_empty : H → bool * H;
  al_nand_cmd_single_execute : Z → H → H;
  al_nand_cmd_seq_execute : list Z → H → H;
  al_nand_cw_config : Z → Z → H → H;
  al_nand_cmd_seq_gen_page_read : Z → Z → Z → Z → Z → H → Z * list Z * Z * Z;
  al_nand_data_buff_read : Z → Z → Z → H → Z * list Z * H;
  MicroSecondDelay : Z → H → H
}.

(** [CMD (0x05), COL (0), CMD (0xE0)] and the counts of [n] code words. *)
Definition change_read_column (CwSize : Z) (n : nat) : list Z :=
  [AL_NAND_CMD_SEQ_ENTRY AL_NAND_COMMAND_TYPE_CMD 0x05;
   AL_NAND_CMD_SEQ_ENTRY AL_NAND_COMMAND_TYPE_ADDRESS 0;
   AL_NAND_CMD_SEQ_ENTRY AL_NAND_COMMAND_TYPE_ADDRESS 0;
   AL_NAND_CMD_SEQ_ENTRY AL_NAND_COMMAND_TYPE_CMD 0xE0] ++
  mjoin (replicate n
    [AL_NAND_CMD_SEQ_ENTRY AL_NAND_COMMAND_TYPE_DATA_READ_COUNT (Z.land CwSize 0xFF);
     AL_NAND_CMD_SEQ_ENTRY AL_NAND_COMMAND_TYPE_DATA_READ_COUNT (Z.land (Z.shiftr CwSize 8) 0xFF)]).

(** What the HAL and the flash chip document: a generated page-read sequence,
    executed after its code word configuration, loads the row into the chip's
    page register and makes the bytes from the column available to the data
    buffer; Change Read Column re-outputs the page register from column 0.
    Reading does not change what the chip holds. *)
Class NandHalLaws (H : Type) `{NandHal H} := {
  chip : H → Z → list Z;
  page_register : H → option Z;
  chip_length h row : length (chip h row) = Z.to_nat (BENAND_PAGE_SIZE + BENAND_OOB_SIZE);
  chip_bytes h row : Forall byte_ok (chip h row);
  data_buff_length n head tail h err buf h' :
    0 <= head + tail <= n →
    al_nand_data_buff_read n head tail h = (err, buf, h') → len buf <= n - head - tail;
  page_read_spec h col row n skip seq cw cc err buf h' :
    0 <= col → 0 <= row < BENAND_NUM_PAGES → 0 <= skip <= n → col + n <= BENAND_PAGE_SIZE + BENAND_OOB_SIZE →
    al_nand_cmd_seq_gen_page_read col row n 0 AL_NAND_MAX_CMD_SEQ h = (0, seq, cw, cc) →
    al_nand_data_buff_read n 0 skip (al_nand_cmd_seq_execute seq (al_nand_cw_config cw cc h))
      = (err, buf, h') →
    (∀ r, chip h' r = chip h r) ∧
    (err = 0 → buf = take (Z.to_nat (n - skip)) (drop (Z.to_nat col) (chip h row)) ∧
               page_register h' = Some row);
  change_column_spec h cw cc err buf h' :
    0 <= cw → cw * Z.of_nat cc <= BENAND_PAGE_SIZE + BENAND_OOB_SIZE →
    al_nand_data_buff_read (cw * Z.of_nat cc) 0 0
      (foldl (λ h c, al_nand_cmd_single_execute c h)
         (al_nand_cw_config cw (Z.of_nat cc) h) (change_read_column cw cc)) = (err, buf, h') →
    (∀ r, chip h' r = chip h r) ∧
    (err = 0 → ∀ row, page_register h = Some row →
       buf = take (Z.to_nat (cw * Z.of_nat cc)) (chip h row))
}.

(** ** The driver *)

Record EFI_BLOCK_IO_MEDIA := mkMedia {
  MediaId : Z;
  MediaPresent : bool;
  ReadOnly : bool;
  BlockSize : Z;
  LastBlock : Z
}.

Record AL_NAND_CONTEXT (H : Type) := mkCtx {
  NandObj : H;
  Ctx_PageSize : Z;
  Ctx_OobSize : Z;
  Ctx_PagesPerBlock : Z;
  Ctx_NumBlocks : Z;
  Ctx_NumPages : Z;
  BadBlockMap : list Z;
  Media : EFI_BLOCK_IO_MEDIA
}.
Arguments mkCtx {H}. Arguments NandObj {H}. Arguments Ctx_PageSize {H}. Arguments Ctx_OobSize {H}.
Arguments Ctx_PagesPerBlock {H}. Arguments Ctx_NumBlocks {H}. Arguments Ctx_NumPages {H}.
Arguments BadBlockMap {H}. Arguments Media {H}.

Section Code.
Context {H : Type} `{NandHal H}.

Definition set_obj (Ctx : AL_NAND_CONTEXT H) (h : H) : AL_NAND_CONTEXT H :=
  mkCtx h (Ctx_PageSize Ctx) (Ctx_OobSize Ctx) (Ctx_PagesPerBlock Ctx) (Ctx_NumBlocks Ctx)
        (Ctx_NumPages Ctx) (BadBlockMap Ctx) (Media Ctx).

Definition set_map (Ctx : AL_NAND_CONTEXT H) (m : list Z) : AL_NAND_CONTEXT H :=
  mkCtx (NandObj Ctx) (Ctx_PageSize Ctx) (Ctx_OobSize Ctx) (Ctx_PagesPerBlock Ctx)
        (Ctx_NumBlocks Ctx) (Ctx_NumPages Ctx) m (Media Ctx).

(** One of the two polling loops: [n] polls, each that fails followed by [delay]. *)
Fixpoint poll_cmd_empty (delay : H → H) (n : nat) (Obj : H) : bool * H :=
  match n with
  | O => (false, Obj)
  | S n' => let '(empty, Obj) := al_nand_cmd_buff_is_empty Obj in
            if empty : bool then (true, Obj) else poll_cmd_empty delay n' (delay Obj)
  end.

Definition AlNandWaitCmdEmpty (Obj : H) : EFI_STATUS * H :=
  let '(empty, Obj) := poll_cmd_empty id 1000 Obj in
  if empty then (EFI_SUCCESS, Obj)
  else
    let '(empty, Obj) := poll_cmd_empty (MicroSecondDelay 1) (Z.to_nat AL_NAND_POLL_TIMEOUT_US) Obj in
    if empty then (EFI_SUCCESS, Obj) else (EFI_TIMEOUT, Obj).

Definition AlNandDeviceReset (Ctx : AL_NAND_CONTEXT H) : EFI_STATUS * AL_NAND_CONTEXT H :=
  let h := al_nand_cmd_single_execute
             (AL_NAND_CMD_SEQ_ENTRY AL_NAND_COMMAND_TYPE_CMD 0xFF) (NandObj Ctx) in
  let h := al_nand_cmd_single_execute
             (AL_NAND_CMD_SEQ_ENTRY AL_NAND_COMMAND_TYPE_WAIT_FOR_READY 0) h in
  let '(Status, h) := AlNandWaitCmdEmpty h in
  (Status, set_obj Ctx h).

(** The bytes stored in [IdBuf]. *)
Definition AlNandReadId (Ctx : AL_NAND_CONTEXT H) (IdLen : Z)
    : EFI_STATUS * list Z * AL_NAND_CONTEXT H :=
  let CwSize := Z.land (IdLen +u32 3) (Z.lnot 3) in
  let h := al_nand_cw_config CwSize 1 (NandObj Ctx) in
  let h := foldl (λ h c, al_nand_cmd_single_execute c h) h
    [AL_NAND_CMD_SEQ_ENTRY AL_NAND_COMMAND_TYPE_CMD 0x90;
     AL_NAND_CMD_SEQ_ENTRY AL_NAND_COMMAND_TYPE_ADDRESS 0x00;
     AL_NAND_CMD_SEQ_ENTRY AL_NAND_COMMAND_TYPE_DATA_READ_COUNT (Z.land CwSize 0xFF);
     AL_NAND_CMD_SEQ_ENTRY AL_NAND_COMMAND_TYPE_DATA_READ_COUNT
       (Z.land (Z.shiftr CwSize 8) 0xFF)] in
  let '(Err, IdBuf, h) := al_nand_data_buff_read CwSize 0 (CwSize - IdLen) h in
  (if negb (Err =? 0) then EFI_DEVICE_ERROR else EFI_SUCCESS, IdBuf, set_obj Ctx h).

(** The status and the contents of [Buffer], which is written from its start. *)
Definition AlNandReadPage (Ctx : AL_NAND_CONTEXT H) (Page : Z) (Buffer : list Z)
    : option (EFI_STATUS * list Z * AL_NAND_CONTEXT H) :=
  let '(Err, SeqBuf, CwSize, CwCount) :=
    al_nand_cmd_seq_gen_page_read 0 Page (Ctx_PageSize Ctx) 0 AL_NAND_MAX_CMD_SEQ (NandObj Ctx) in
  if negb (Err =? 0) then Some (EFI_DEVICE_ERROR, Buffer, Ctx)
  else
    let h := al_nand_cw_config CwSize CwCount (NandObj Ctx) in
    let h := al_nand_cmd_seq_execute SeqBuf h in
    let '(Err, data, h) := al_nand_data_buff_read (Ctx_PageSize Ctx) 0 0 h in
    Buffer ← wrn Buffer 0 data;
    Some (if negb (Err =? 0) then EFI_DEVICE_ERROR else EFI_SUCCESS, Buffer, set_obj Ctx h).

(** The byte is meaningful on success; [Tmp] has four bytes, of which the HAL
    stores the first. *)
Definition AlNandReadOobByte (Ctx : AL_NAND_CONTEXT H) (Page : Z)
    : option (EFI_STATUS * Z * AL_NAND_CONTEXT H) :=
  let '(Err, SeqBuf, CwSize, CwCount) :=
    al_nand_cmd_seq_gen_page_read (Ctx_PageSize Ctx) Page 4 0 AL_NAND_MAX_CMD_SEQ (NandObj Ctx) in
  if negb (Err =? 0) then Some (EFI_DEVICE_ERROR, 0, Ctx)
  else
    let h := al_nand_cw_config CwSize CwCount (NandObj Ctx) in
    let h := al_nand_cmd_seq_execute SeqBuf h in
    let '(Err, Tmp, h) := al_nand_data_buff_read 4 0 3 h in
    if 4 <? len Tmp then None
    else if negb (Err =? 0) then Some (EFI_DEVICE_ERROR, 0, set_obj Ctx h)
    else
      OobByte ← rd Tmp 0;
      Some (EFI_SUCCESS, OobByte, set_obj Ctx h).

(** One block of the scan; [(UINT8)(1 << (Block % 8))] is or-ed into its byte. *)
Definition scan_bad_block (Block : Z) (Ctx : AL_NAND_CONTEXT H) : option (AL_NAND_CONTEXT H) :=
  let Page := Block *u32 Ctx_PagesPerBlock Ctx in
  '(Status, OobByte, Ctx) ← AlNandReadOobByte Ctx Page;
  if EFI_ERROR Status || negb (OobByte =? 0xFF) then
    b ← rd (BadBlockMap Ctx) (Block / 8);
    m ← wrn (BadBlockMap Ctx) (Block / 8) [Z.lor b (u8 (Z.shiftl 1 (Block mod 8)))];
    Some (set_map Ctx m)
  else Some Ctx.

Definition AlNandScanBadBlocks (Ctx : AL_NAND_CONTEXT H) : option (AL_NAND_CONTEXT H) :=
  let Ctx := set_map Ctx (replicate (Z.to_nat AL_NAND_BB_MAP_SIZE) 0) in
  for_loop (Z.to_nat (Ctx_NumBlocks Ctx)) 0 scan_bad_block Ctx.

Definition AlNandIsBlockBad (Ctx : AL_NAND_CONTEXT H) (Block : Z) : option bool :=
  if Ctx_NumBlocks Ctx <=? Block then Some true
  else
    b ← rd (BadBlockMap Ctx) (Block / 8);
    Some (negb (Z.land b (Z.shiftl 1 (Block mod 8)) =? 0)).

(** [SetMem (Buffer, n, 0xFF)] *)
Definition fill_ff (Buffer : list Z) (n : Z) : option (list Z) := wrn Buffer 0 (all_ff n).

(** ** MIKROTIK_NAND_FLASH_PROTOCOL *)

Definition AlNandFlashReadPage (This : option (AL_NAND_CONTEXT H)) (PageIndex : Z)
    (Buffer : option (list Z))
    : option (EFI_STATUS * option (list Z) * option (AL_NAND_CONTEXT H)) :=
  match This, Buffer with
  | Some Ctx, Some buf =>
      if Ctx_NumPages Ctx <=? PageIndex then Some (EFI_INVALID_PARAMETER, Buffer, This)
      else
        let Block := PageIndex / Ctx_PagesPerBlock Ctx in
        bad ← AlNandIsBlockBad Ctx Block;
        if bad : bool then
          buf ← fill_ff buf (Ctx_PageSize Ctx);
          Some (EFI_SUCCESS, Some buf, This)
        else
          '(Status, buf, Ctx) ← AlNandReadPage Ctx PageIndex buf;
          Some (Status, Some buf, Some Ctx)
  | _, _ => Some (EFI_INVALID_PARAMETER, Buffer, This)
  end.

Definition AlNandFlashReadTags (This : option (AL_NAND_CONTEXT H)) (PageIndex : Z)
    (Buffer : option (list Z))
    : option (EFI_STATUS * option (list Z) * option (AL_NAND_CONTEXT H)) :=
  match This, Buffer with
  | Some Ctx, Some buf =>
      if Ctx_NumPages Ctx <=? PageIndex then Some (EFI_INVALID_PARAMETER, Buffer, This)
      else
        let Block := PageIndex / Ctx_PagesPerBlock Ctx in
        bad ← AlNandIsBlockBad Ctx Block;
        if bad : bool then
          buf ← fill_ff buf 16;
          Some (EFI_SUCCESS, Some buf, This)
        else
          let '(Err, SeqBuf, CwSize, CwCount) :=
            al_nand_cmd_seq_gen_page_read (Ctx_PageSize Ctx - 16) PageIndex 16 0
              AL_NAND_MAX_CMD_SEQ (NandObj Ctx) in
          if negb (Err =? 0) then Some (EFI_DEVICE_ERROR, Buffer, This)
          else
            let h := al_nand_cw_config CwSize CwCount (NandObj Ctx) in
            let h := al_nand_cmd_seq_execute SeqBuf h in
            let '(Err, data, h) := al_nand_data_buff_read 16 0 0 h in
            buf ← wrn buf 0 data;
            Some (if negb (Err =? 0) then EFI_DEVICE_ERROR else EFI_SUCCESS,
                  Some buf, Some (set_obj Ctx h))
  | _, _ => Some (EFI_INVALID_PARAMETER, Buffer, This)
  end.

(** The loop over the code words issues two commands each. *)
Definition AlNandFlashReadPageBody (This : option (AL_NAND_CONTEXT H)) (Buffer : option (list Z))
    : option (EFI_STATUS * option (list Z) * option (AL_NAND_CONTEXT H)) :=
  match This, Buffer with
  | Some Ctx, Some buf =>
      let CwSize := AL_NAND_CW_SIZE in
      let CwCount := Ctx_PageSize Ctx / CwSize in
      let h := al_nand_cw_config CwSize CwCount (NandObj Ctx) in
      let h := foldl (λ h c, al_nand_cmd_single_execute c h) h
                 (change_read_column CwSize (Z.to_nat CwCount)) in
      let '(Err, data, h) := al_nand_data_buff_read (Ctx_PageSize Ctx) 0 0 h in
      buf ← wrn buf 0 data;
      Some (if negb (Err =? 0) then EFI_DEVICE_ERROR else EFI_SUCCESS,
            Some buf, Some (set_obj Ctx h))
  | _, _ => Some (EFI_INVALID_PARAMETER, Buffer, This)
  end.

(** ** EFI_BLOCK_IO_PROTOCOL *)

Definition AlNandBlockIoReset (Ctx : AL_NAND_CONTEXT H) : EFI_STATUS * AL_NAND_CONTEXT H :=
  AlNandDeviceReset Ctx.

(** The loop over the pages: [Buf] is what the loop has left of the buffer; the
    buffer before it has been written. *)
Fixpoint read_pages (NumPages : nat) (Ctx : AL_NAND_CONTEXT H) (Page : Z) (Buf : list Z)
    : option (EFI_STATUS * list Z * AL_NAND_CONTEXT H) :=
  match NumPages with
  | O => Some (EFI_SUCCESS, Buf, Ctx)
  | S NumPages' =>
      let n := Z.to_nat (Ctx_PageSize Ctx) in
      let Block := Page / Ctx_PagesPerBlock Ctx in
      bad ← AlNandIsBlockBad Ctx Block;
      '(Status, Buf, Ctx) ←
        (if bad : bool then Buf ← fill_ff Buf (Ctx_PageSize Ctx); Some (EFI_SUCCESS, Buf, Ctx)
         else AlNandReadPage Ctx Page Buf);
      if EFI_ERROR Status then Some (EFI_DEVICE_ERROR, Buf, Ctx)
      else
        '(Status, rest, Ctx) ← read_pages NumPages' Ctx (Page +u32 1) (drop n Buf);
        Some (Status, take n Buf ++ rest, Ctx)
  end.

Definition AlNandBlockIoReadBlocks (Ctx : AL_NAND_CONTEXT H) (Id Lba BufferSize : Z)
    (Buffer : option (list Z)) : option (EFI_STATUS * option (list Z) * AL_NAND_CONTEXT H) :=
  match Buffer with
  | None => Some (EFI_INVALID_PARAMETER, Buffer, Ctx)
  | Some Buf =>
      if negb (Id =? MediaId (Media Ctx)) then Some (EFI_MEDIA_CHANGED, Buffer, Ctx)
      else if BufferSize =? 0 then Some (EFI_SUCCESS, Buffer, Ctx)
      else if negb (BufferSize mod Ctx_PageSize Ctx =? 0)
      then Some (EFI_BAD_BUFFER_SIZE, Buffer, Ctx)
      else
        let NumPages := u32 (BufferSize / Ctx_PageSize Ctx) in
        let Page := u32 Lba in
        if Ctx_NumPages Ctx <? Page +u32 NumPages
        then Some (EFI_INVALID_PARAMETER, Buffer, Ctx)
        else
          '(Status, Buf, Ctx) ← read_pages (Z.to_nat NumPages) Ctx Page Buf;
          Some (Status, Some Buf, Ctx)
  end.

Definition AlNandBlockIoWriteBlocks (Ctx : AL_NAND_CONTEXT H) (Id Lba BufferSize : Z)
    (Buffer : option (list Z)) : EFI_STATUS := EFI_WRITE_PROTECTED.

Definition AlNandBlockIoFlushBlocks (Ctx : AL_NAND_CONTEXT H) : EFI_STATUS := EFI_SUCCESS.

(** ** Entry point *)

(** BENAND, ONFI mode 4 timing at 500 MHz. *)
Definition DevProps : al_nand_dev_properties := mkProps 6 3 5 6 10 10 50 3 0 2 2.

(** [InstallStatus] is what installing the protocols answers. On success the
    context that stays installed. *)
Definition AlNandDxeInitialize (InstallStatus : EFI_STATUS) (h : H) (p : Pool)
    : option (EFI_STATUS * option (AL_NAND_CONTEXT H) * Pool) :=
  let '(ok, p) := AllocatePool p in
  if negb ok then Some (EFI_OUT_OF_RESOURCES, None, p)
  else
    let '(Err, h) := al_nand_init AL_NAND_BASE h in
    if negb (Err =? 0) then Some (EFI_DEVICE_ERROR, None, FreePool p)
    else
      let h := al_nand_dev_select 0 h in
      let '(Err, h) := al_nand_dev_config DevProps h in
      if negb (Err =? 0) then Some (EFI_DEVICE_ERROR, None, FreePool p)
      else
        let h := al_nand_ecc_set_enabled 0 h in
        let h := al_reg_write32 bch_ctrl_reg_0 0 h in
        let h := al_reg_write32 bch_ctrl_reg_1 0 h in
        let h := al_reg_write32 nflash_spare_offset 0 h in
        let h := al_nand_int_disable 0xFFFFFFFF h in
        let h := al_reg_write32 nfc_int_stat 0xFFFFFFFF h in
        let Ctx := mkCtx h BENAND_PAGE_SIZE BENAND_OOB_SIZE BENAND_PAGES_PER_BLOCK
                     BENAND_NUM_BLOCKS BENAND_NUM_PAGES
                     (replicate (Z.to_nat AL_NAND_BB_MAP_SIZE) 0) (mkMedia 0 false false 0 0) in
        let '(Status, Ctx) := AlNandDeviceReset Ctx in
        if EFI_ERROR Status then Some (Status, None, FreePool p)
        else
          let '(Status, IdBuf, Ctx) := AlNandReadId Ctx 8 in
          if 8 <? len IdBuf then None
          else if EFI_ERROR Status then Some (Status, None, FreePool p)
          else
            Ctx ← AlNandScanBadBlocks Ctx;
            let Ctx := mkCtx (NandObj Ctx) (Ctx_PageSize Ctx) (Ctx_OobSize Ctx)
                         (Ctx_PagesPerBlock Ctx) (Ctx_NumBlocks Ctx) (Ctx_NumPages Ctx)
                         (BadBlockMap Ctx)
                         (mkMedia 0 true true (Ctx_PageSize Ctx) (Ctx_NumPages Ctx - 1)) in
            let '(ok, p) := AllocatePool p in
            if negb ok then Some (EFI_OUT_OF_RESOURCES, None, FreePool p)
            else if EFI_ERROR InstallStatus then Some (InstallStatus, None, FreePool (FreePool p))
            else Some (EFI_SUCCESS, Some Ctx, p).
End Code.

(** ** The driver against the HAL's laws *)

(** The context as the entry point leaves it. *)
Record ctx_ok {H} (Ctx : AL_NAND_CONTEXT H) : Prop := {
  ok_page : Ctx_PageSize Ctx = BENAND_PAGE_SIZE;
  ok_per_block : Ctx_PagesPerBlock Ctx = BENAND_PAGES_PER_BLOCK;
  ok_blocks : Ctx_NumBlocks Ctx = BENAND_NUM_BLOCKS;
  ok_pages : Ctx_NumPages Ctx = BENAND_NUM_PAGES;
  ok_map : len (BadBlockMap Ctx) = AL_NAND_BB_MAP_SIZE;
  ok_oob : Ctx_OobSize Ctx = BENAND_OOB_SIZE
}.

(** The bit of a block in the map. *)
Definition bad_bit (m : list Z) (Block : Z) : bool :=
  Z.testbit (default 0 (rd m (Block / 8))) (Block mod 8).

(** The contents the driver presents for a page: 0xFF for a page of a bad block
    (and outside the flash), the data area of the chip's page otherwise. *)
Definition page_image {H} `{NandHalLaws H} (m : list Z) (h : H) (p : Z) : list Z :=
  if zbetween 0 p (BENAND_NUM_PAGES - 1) && negb (bad_bit m (p / BENAND_PAGES_PER_BLOCK))
  then take (Z.to_nat BENAND_PAGE_SIZE) (chip h p) else all_ff BENAND_PAGE_SIZE.

Lemma land_bit b k : 0 <= k → negb (Z.land b (Z.shiftl 1 k) =? 0) = Z.testbit b k.
Proof.
  intros Hk. destruct (Z.testbit b k) eqn:E.
  - apply negb_true_iff, Z.eqb_neq. intros H0. apply (f_equal (λ x, Z.testbit x k)) in H0.
    rewrite Z.land_spec, Z.bits_0, E, Z.shiftl_spec, Z.sub_diag in H0 by lia. done.
  - apply negb_false_iff, Z.eqb_eq. apply Z.bits_inj'. intros i Hi.
    rewrite Z.land_spec, Z.bits_0, Z.shiftl_1_l, Z.pow2_bits_eqb by lia.
    destruct (Z.eqb_spec k i) as [->|]; [by rewrite E|apply andb_false_r].
Qed.

Lemma lor_bit b k i :
  0 <= k < 8 → 0 <= i < 8 →
  Z.testbit (Z.lor b (u8 (Z.shiftl 1 k))) i = (i =? k) || Z.testbit b i.
Proof.
  intros Hk Hi. rewrite Z.lor_spec, Z.shiftl_1_l. unfold u8.
  rewrite Z.mod_pow2_bits_low, Z.pow2_bits_eqb, orb_comm by lia. by rewrite Z.eqb_sym.
Qed.

Lemma length_all_ff n : 0 <= n → len (all_ff n) = n.
Proof. intros. unfold all_ff. rewrite length_replicate. lia. Qed.

Section Driver.
Context {H : Type} `{NandHalLaws H}.
Implicit Types Ctx : AL_NAND_CONTEXT H.

Definition ctx_image Ctx (p : Z) : list Z := page_image (BadBlockMap Ctx) (NandObj Ctx) p.

(** The chip holds the same after the operation. *)
Definition same_chip (h h' : H) : Prop := ∀ r, chip h' r = chip h r.

Lemma length_page_image m h p : length (page_image m h p) = 2048%nat.
Proof.
  unfold page_image. case_b; [|unfold all_ff; by rewrite length_replicate].
  rewrite length_take, chip_length. done.
Qed.

Lemma page_image_same m h h' p : same_chip h h' → page_image m h' p = page_image m h p.
Proof. intros Hs. unfold page_image. by rewrite Hs. Qed.

Lemma IsBlockBad_spec Ctx Block :
  ctx_ok Ctx → 0 <= Block →
  AlNandIsBlockBad Ctx Block
  = Some (if BENAND_NUM_BLOCKS <=? Block then true else bad_bit (BadBlockMap Ctx) Block).
Proof.
  intros [_ _ Hb _ Hm _] HB. unfold AlNandIsBlockBad. rewrite Hb.
  unfold BENAND_NUM_BLOCKS, AL_NAND_BB_MAP_SIZE, BENAND_NUM_BLOCKS in *.
  change (1024 / 8) with 128 in Hm. case_b; [done|]. b2p.
  assert (0 <= Block / 8 < 128) by (split; [apply Z.div_pos|apply Z.div_lt_upper_bound]; lia).
  unfold bad_bit.
  destruct (rd_in_range (BadBlockMap Ctx) (Block / 8)) as [b ->]; [lia|]. simpl.
  by rewrite land_bit by (apply Z.mod_pos_bound; lia).
Qed.

(** A page index of an existing page. *)
Lemma page_block p : 0 <= p < BENAND_NUM_PAGES → 0 <= p / BENAND_PAGES_PER_BLOCK < BENAND_NUM_BLOCKS.
Proof.
  unfold BENAND_NUM_PAGES, BENAND_NUM_BLOCKS, BENAND_PAGES_PER_BLOCK. intros.
  split; [apply Z.div_pos|apply Z.div_lt_upper_bound]; lia.
Qed.

Lemma page_image_good m h p :
  0 <= p < BENAND_NUM_PAGES → bad_bit m (p / BENAND_PAGES_PER_BLOCK) = false →
  page_image m h p = take (Z.to_nat BENAND_PAGE_SIZE) (chip h p).
Proof.
  intros Hp Hbad. unfold page_image.
  rewrite (proj2 (zbetween_spec _ _ _)) by lia. by rewrite Hbad.
Qed.

Lemma page_image_bad m h p :
  bad_bit m (p / BENAND_PAGES_PER_BLOCK) = true → page_image m h p = all_ff BENAND_PAGE_SIZE.
Proof. intros Hbad. unfold page_image. by rewrite Hbad, andb_false_r. Qed.

Lemma ctx_ok_obj Ctx h : ctx_ok Ctx → ctx_ok (set_obj Ctx h).
Proof. by intros []. Qed.

(** What every read leaves: the same geometry and map, the same chip. *)
Definition read_leaves Ctx Ctx' : Prop :=
  ∃ h, Ctx' = set_obj Ctx h ∧ same_chip (NandObj Ctx) h.

Lemma read_leaves_refl Ctx : read_leaves Ctx Ctx.
Proof. exists (NandObj Ctx). by destruct Ctx. Qed.

Lemma read_leaves_ok Ctx Ctx' : read_leaves Ctx Ctx' → ctx_ok Ctx → ctx_ok Ctx'.
Proof. intros (h & -> & _). apply ctx_ok_obj. Qed.

Lemma read_leaves_image Ctx Ctx' p : read_leaves Ctx Ctx' → ctx_image Ctx' p = ctx_image Ctx p.
Proof. intros (h & -> & Hs). unfold ctx_image. simpl. by apply page_image_same. Qed.

Lemma ReadPage_spec_hal Ctx Page Buffer :
  ctx_ok Ctx → 0 <= Page < BENAND_NUM_PAGES → BENAND_PAGE_SIZE <= len Buffer →
  ∃ st buf Ctx', AlNandReadPage Ctx Page Buffer = Some (st, buf, Ctx') ∧
    read_leaves Ctx Ctx' ∧ length buf = length Buffer ∧ (st = EFI_SUCCESS ∨ st = EFI_DEVICE_ERROR) ∧
    (st = EFI_SUCCESS →
       buf = take (Z.to_nat BENAND_PAGE_SIZE) (chip (NandObj Ctx) Page) ++ drop 2048 Buffer ∧
       page_register (NandObj Ctx') = Some Page).
Proof.
  intros Hok Hp Hlen. pose proof (ok_page _ Hok) as Hps. unfold AlNandReadPage. rewrite Hps.
  destruct (al_nand_cmd_seq_gen_page_read _ _ _ _ _ _) as [[[Err seq] cw] cc] eqn:EG.
  destruct (Z.eqb_spec Err 0) as [->|]; simpl.
  2:{ exists EFI_DEVICE_ERROR, Buffer, Ctx. split_and!; eauto using read_leaves_refl. done. }
  destruct (al_nand_data_buff_read _ _ _ _) as [[Err data] h'] eqn:ER.
  pose proof ER as Hspec.
  assert (Hdl : len data <= BENAND_PAGE_SIZE - 0 - 0) by (eapply data_buff_length, ER; done).
  apply (page_read_spec (NandObj Ctx) 0 Page) in Hspec as (Hs & Hdata);
    [|done|done|unfold BENAND_PAGE_SIZE; lia|done|exact EG].
  rewrite wrn_0 by lia. simpl. eexists _, _, _. split; [done|].
  split; [by exists h'|]. split; [rewrite length_app, length_drop; lia|].
  destruct (Z.eqb_spec Err 0) as [->|]; simpl; [|split; [by right|done]].
  split; [by left|]. intros _. destruct (Hdata eq_refl) as [-> Hreg].
  rewrite Z.sub_0_r. split; [|done].
  f_equal. f_equal. rewrite length_take, length_drop, chip_length. done.
Qed.

(** ** The protocol's operations *)

Lemma FlashReadPage_spec Ctx p buf :
  ctx_ok Ctx → 0 <= p → len buf = BENAND_PAGE_SIZE →
  ∃ st buf' Ctx', AlNandFlashReadPage (Some Ctx) p (Some buf) = Some (st, Some buf', Some Ctx') ∧
    read_leaves Ctx Ctx' ∧ len buf' = BENAND_PAGE_SIZE ∧
    (EFI_ERROR st = false → p < BENAND_NUM_PAGES ∧ buf' = ctx_image Ctx p).
Proof.
  intros Hok Hp Hb. destruct (Hok) as [Hps Hpb _ Hpn _ _]. unfold AlNandFlashReadPage.
  rewrite Hpn, Hps, Hpb. case_b; b2p.
  { eexists _, _, _. split_and!; [done|apply read_leaves_refl|done|done]. }
  destruct (page_block p) as [Hb1 Hb2]; [done|].
  rewrite IsBlockBad_spec by done. cbn [mbind option_bind].
  rewrite (proj2 (Z.leb_gt _ _)) by done.
  destruct (bad_bit (BadBlockMap Ctx) _) eqn:Hbad.
  - unfold fill_ff. rewrite wrn_0 by (rewrite length_all_ff by done; lia). cbn [mbind option_bind].
    eexists _, _, _. split; [done|]. split; [apply read_leaves_refl|].
    rewrite drop_ge by (unfold all_ff; rewrite length_replicate; lia). rewrite app_nil_r.
    split; [by apply length_all_ff|]. intros _. split; [done|].
    unfold ctx_image. by rewrite page_image_bad.
  - destruct (ReadPage_spec_hal Ctx p buf) as (st & b & Ctx' & -> & Hl & Hlen & Hst & Hdata);
      [done..|lia|]. cbn [mbind option_bind].
    eexists _, _, _. split; [done|]. split; [done|]. split; [lia|]. intros He.
    destruct Hst as [-> | ->]; [|done]. destruct Hdata as [-> _]; [done|]. split; [done|].
    unfold ctx_image. rewrite page_image_good by done.
    rewrite drop_ge by (unfold BENAND_PAGE_SIZE in *; lia). by rewrite app_nil_r.
Qed.

Lemma FlashReadTags_spec Ctx p buf :
  ctx_ok Ctx → 0 <= p → len buf = 16 →
  ∃ st buf' Ctx', AlNandFlashReadTags (Some Ctx) p (Some buf) = Some (st, Some buf', Some Ctx') ∧
    read_leaves Ctx Ctx' ∧ len buf' = 16 ∧
    (EFI_ERROR st = false → p < BENAND_NUM_PAGES ∧ buf' = drop 2032 (ctx_image Ctx p) ∧
       (bad_bit (BadBlockMap Ctx) (p / BENAND_PAGES_PER_BLOCK) = false →
        page_register (NandObj Ctx') = Some p)).
Proof.
  intros Hok Hp Hb. destruct (Hok) as [Hps Hpb _ Hpn _ _]. unfold AlNandFlashReadTags.
  rewrite Hpn, Hps, Hpb. case_b; b2p.
  { eexists _, _, _. split_and!; [done|apply read_leaves_refl|done|done]. }
  destruct (page_block p) as [Hb1 Hb2]; [done|].
  rewrite IsBlockBad_spec by done. cbn [mbind option_bind].
  rewrite (proj2 (Z.leb_gt _ _)) by done.
  destruct (bad_bit (BadBlockMap Ctx) _) eqn:Hbad.
  - unfold fill_ff. rewrite wrn_0 by (rewrite length_all_ff by done; lia). cbn [mbind option_bind].
    eexists _, _, _. split; [done|]. split; [apply read_leaves_refl|].
    rewrite drop_ge by (unfold all_ff; rewrite length_replicate; lia). rewrite app_nil_r.
    split; [by apply length_all_ff|]. intros _. split; [done|]. split; [|done].
    unfold ctx_image. by rewrite page_image_bad.
  - destruct (al_nand_cmd_seq_gen_page_read _ _ _ _ _ _) as [[[Err seq] cw] cc] eqn:EG.
    destruct (Z.eqb_spec Err 0) as [->|]; cbn [negb].
    2:{ eexists _, _, _. split_and!; [done|apply read_leaves_refl|done|done]. }
    destruct (al_nand_data_buff_read _ _ _ _) as [[Err data] h'] eqn:ER.
    pose proof ER as Hspec.
    apply (page_read_spec (NandObj Ctx) (BENAND_PAGE_SIZE - 16) p) in Hspec as (Hs & Hdata);
      [|done|done|done|unfold BENAND_PAGE_SIZE, BENAND_OOB_SIZE; lia|exact EG].
    assert (Hdl : len data <= 16 - 0 - 0) by (eapply data_buff_length, ER; done).
    rewrite wrn_0 by lia. cbn [mbind option_bind]. eexists _, _, _. split; [done|].
    split; [by exists h'|]. split; [rewrite length_app, length_drop; lia|].
    destruct (Z.eqb_spec Err 0) as [->|]; cbn [negb]; [|done]. intros _.
    destruct (Hdata eq_refl) as [-> Hreg]. split_and!; [done| |done].
    unfold ctx_image. rewrite page_image_good by done.
    rewrite (drop_ge buf) by (rewrite length_take, length_drop, chip_length; simpl; lia).
    rewrite app_nil_r, skipn_firstn_comm. done.
Qed.

Lemma FlashReadPageBody_spec Ctx buf :
  ctx_ok Ctx → len buf = BENAND_PAGE_SIZE →
  ∃ st buf' Ctx', AlNandFlashReadPageBody (Some Ctx) (Some buf) = Some (st, Some buf', Some Ctx') ∧
    read_leaves Ctx Ctx' ∧ len buf' = BENAND_PAGE_SIZE ∧
    (EFI_ERROR st = false → ∀ p, page_register (NandObj Ctx) = Some p →
       buf' = take (Z.to_nat BENAND_PAGE_SIZE) (chip (NandObj Ctx) p)).
Proof.
  intros Hok Hb. destruct (Hok) as [Hps _ _ _ _ _]. unfold AlNandFlashReadPageBody. rewrite Hps.
  destruct (al_nand_data_buff_read _ _ _ _) as [[Err data] h'] eqn:ER.
  assert (Hdl : len data <= BENAND_PAGE_SIZE - 0 - 0) by (eapply data_buff_length, ER; done).
  apply (change_column_spec (NandObj Ctx) AL_NAND_CW_SIZE 4) in ER as (Hs & Hdata); [|done|done].
  rewrite wrn_0 by lia. cbn [mbind option_bind]. eexists _, _, _. split; [done|].
  split; [by exists h'|]. split; [rewrite length_app, length_drop; lia|].
  destruct (Z.eqb_spec Err 0) as [->|]; cbn [negb]; [|done]. intros _ p Hp.
  rewrite (Hdata eq_refl p Hp).
  rewrite (drop_ge buf) by (rewrite length_take, chip_length;
    unfold BENAND_PAGE_SIZE, BENAND_OOB_SIZE, AL_NAND_CW_SIZE in *; lia).
  by rewrite app_nil_r.
Qed.

(** ** Bad blocks *)

(** Every page-read of the HAL succeeds. *)
Definition hal_reliable : Prop :=
  (∀ col row n (h : H), (al_nand_cmd_seq_gen_page_read col row n 0 AL_NAND_MAX_CMD_SEQ h).1.1.1 = 0) ∧
  (∀ n head tail (h : H), (al_nand_data_buff_read n head tail h).1.1 = 0).

(** The first spare byte of a block's first page. *)
Definition oob_marker (h : H) (Block : Z) : Z :=
  default 0 (rd (chip h (Block * BENAND_PAGES_PER_BLOCK)) BENAND_PAGE_SIZE).

Lemma rd_chip (h : H) row i : 0 <= i < 2112 → ∃ b, rd (chip h row) i = Some b.
Proof.
  intros. apply rd_in_range. rewrite chip_length.
  unfold BENAND_PAGE_SIZE, BENAND_OOB_SIZE. lia.
Qed.

Lemma ReadOobByte_spec Ctx Block :
  ctx_ok Ctx → 0 <= Block < BENAND_NUM_BLOCKS →
  ∃ st b Ctx', AlNandReadOobByte Ctx (Block * BENAND_PAGES_PER_BLOCK) = Some (st, b, Ctx') ∧
    read_leaves Ctx Ctx' ∧ (EFI_ERROR st = false → b = oob_marker (NandObj Ctx) Block) ∧
    (hal_reliable → EFI_ERROR st = false).
Proof.
  intros Hok HB. destruct (Hok) as [Hps _ _ _ _ _]. unfold AlNandReadOobByte. rewrite Hps.
  destruct (al_nand_cmd_seq_gen_page_read _ _ _ _ _ _) as [[[Err seq] cw] cc] eqn:EG.
  destruct (Z.eqb_spec Err 0) as [->|Hne]; cbn [negb].
  2:{ eexists _, _, _. split; [done|]. split; [apply read_leaves_refl|]. split; [done|].
      intros [Hr _]. pose proof (Hr BENAND_PAGE_SIZE (Block * BENAND_PAGES_PER_BLOCK) 4 (NandObj Ctx)) as Hg.
      rewrite EG in Hg. by destruct Hne. }
  destruct (al_nand_data_buff_read _ _ _ _) as [[Err data] h'] eqn:ER.
  pose proof ER as Hspec.
  apply (page_read_spec (NandObj Ctx) BENAND_PAGE_SIZE (Block * BENAND_PAGES_PER_BLOCK)) in Hspec as (Hs & Hdata);
    [|done|unfold BENAND_NUM_PAGES, BENAND_PAGES_PER_BLOCK, BENAND_NUM_BLOCKS in *; lia|done
    |done|exact EG].
  assert (Hdl : len data <= 4 - 0 - 3) by (eapply data_buff_length, ER; done).
  rewrite (proj2 (Z.ltb_ge _ _)) by lia.
  destruct (Z.eqb_spec Err 0) as [->|Hne]; cbn [negb].
  - destruct (Hdata eq_refl) as [-> _].
    destruct (rd_chip (NandObj Ctx) (Block * BENAND_PAGES_PER_BLOCK) 2048) as [b Hb]; [lia|].
    rewrite rd_take, rd_drop by (unfold BENAND_PAGE_SIZE; lia).
    change (BENAND_PAGE_SIZE + 0) with 2048. rewrite Hb. cbn [mbind option_bind].
    eexists _, _, _. split; [done|]. split; [by exists h'|]. split; [|done].
    intros _. unfold oob_marker. change BENAND_PAGE_SIZE with 2048. by rewrite Hb.
  - eexists _, _, _. split; [done|]. split; [by exists h'|]. split; [done|].
    intros [_ Hr]. specialize (Hr 4 0 3 (al_nand_cmd_seq_execute seq (al_nand_cw_config cw cc (NandObj Ctx)))).
    rewrite ER in Hr. by destruct Hne.
Qed.

(** Marking a block sets its bit and no other. *)
Lemma mark_bad m Block :
  len m = 128 → 0 <= Block < 1024 →
  ∃ b m', rd m (Block / 8) = Some b ∧
    wrn m (Block / 8) [Z.lor b (u8 (Z.shiftl 1 (Block mod 8)))] = Some m' ∧ len m' = 128 ∧
    ∀ B, 0 <= B < 1024 → bad_bit m' B = (B =? Block) || bad_bit m B.
Proof.
  intros Hm HB.
  assert (0 <= Block / 8 < 128) by (split; [apply Z.div_pos|apply Z.div_lt_upper_bound]; lia).
  pose proof (Z.mod_pos_bound Block 8 ltac:(lia)).
  destruct (rd_in_range m (Block / 8)) as [b Hb]; [lia|].
  destruct (wrn_1 m (Block / 8) (Z.lor b (u8 (Z.shiftl 1 (Block mod 8))))) as (m' & Hw & Hl & Hr); [lia|].
  exists b, m'. split_and!; [done|done|lia|]. intros B HB'. unfold bad_bit. rewrite Hr.
  pose proof (Z.mod_pos_bound B 8 ltac:(lia)).
  pose proof (Z.div_mod B 8). pose proof (Z.div_mod Block 8).
  destruct (Z.eqb_spec (B / 8) (Block / 8)) as [Heq|Hne].
  - rewrite Heq, Hb. cbn [from_option id]. rewrite lor_bit by lia. f_equal.
    destruct (Z.eqb_spec (B mod 8) (Block mod 8)), (Z.eqb_spec B Block); (done || lia).
  - destruct (Z.eqb_spec B Block) as [->|]; [done|]. done.
Qed.

Lemma ltb_succ B i : B ≠ i → (B <? i + 1) = (B <? i).
Proof. intros. destruct (Z.ltb_spec B i), (Z.ltb_spec B (i + 1)); (done || lia). Qed.

(** What the scan has established below block [i]. *)
Definition scanned (Ctx0 : AL_NAND_CONTEXT H) (i : Z) (Ctx : AL_NAND_CONTEXT H) : Prop :=
  ctx_ok Ctx ∧ same_chip (NandObj Ctx0) (NandObj Ctx) ∧ Media Ctx = Media Ctx0 ∧
  (∀ B, 0 <= B < i → oob_marker (NandObj Ctx0) B ≠ 0xFF → bad_bit (BadBlockMap Ctx) B = true) ∧
  (hal_reliable → ∀ B, 0 <= B < 1024 →
     bad_bit (BadBlockMap Ctx) B = (B <? i) && negb (oob_marker (NandObj Ctx0) B =? 0xFF)).

Lemma scan_bad_block_spec Ctx0 Block Ctx :
  0 <= Block < 1024 → scanned Ctx0 Block Ctx →
  ∃ Ctx', scan_bad_block Block Ctx = Some Ctx' ∧ scanned Ctx0 (Block + 1) Ctx'.
Proof.
  intros HB (Hok & Hs & Hmed & Hsafe & Hex). unfold scan_bad_block.
  rewrite (ok_per_block _ Hok). rewrite u32_small by (unfold BENAND_PAGES_PER_BLOCK; lia).
  destruct (ReadOobByte_spec Ctx Block Hok) as (st & b & Ctx1 & -> & Hl & Hb & Hrel); [done|].
  cbn [mbind option_bind].
  pose proof (read_leaves_ok _ _ Hl Hok) as Hok1. destruct Hl as (h & -> & Hsh).
  assert (Hmk : oob_marker (NandObj Ctx) Block = oob_marker (NandObj Ctx0) Block)
    by (unfold oob_marker; by rewrite Hs).
  rewrite Hmk in Hb. pose proof (ok_map _ Hok1) as Hm. change AL_NAND_BB_MAP_SIZE with 128 in Hm.
  destruct (EFI_ERROR st || negb (b =? 255)) eqn:Hbad.
  - destruct (mark_bad _ Block Hm HB) as (v & m' & -> & Hw & Hlm & Hbits).
    cbn [mbind option_bind]. rewrite Hw. cbn [mbind option_bind].
    eexists. split; [done|]. split; [by destruct Hok1; split|].
    split; [intros r; simpl; by rewrite Hsh|]. split; [done|]. simpl. split.
    + intros B HB' Hne. rewrite Hbits by lia.
      destruct (Z.eqb_spec B Block); [done|]. apply Hsafe; [lia|done].
    + intros Hr B HB'. rewrite Hbits by done. rewrite (Hex Hr) by done.
      rewrite (Hrel Hr) in Hbad. cbn [orb] in Hbad.
      destruct (Z.eqb_spec B Block) as [->|].
      * rewrite <-(Hb (Hrel Hr)), Hbad. by rewrite (proj2 (Z.ltb_lt Block (Block + 1))) by lia.
      * cbn [orb]. by rewrite (ltb_succ B Block) by done.
  - apply orb_false_iff in Hbad as [He Hff]. eexists. split; [done|].
    split; [done|]. split; [intros r; simpl; by rewrite Hsh|]. split; [done|]. simpl. split.
    + intros B HB' Hne. destruct (Z.eqb_spec B Block) as [->|].
      * b2p. rewrite <-(Hb He) in Hne. done.
      * apply Hsafe; [lia|done].
    + intros Hr B HB'. rewrite (Hex Hr) by done. destruct (Z.eqb_spec B Block) as [->|].
      * rewrite <-(Hb He), Hff. by rewrite !andb_false_r.
      * by rewrite (ltb_succ B Block) by done.
Qed.

Lemma bad_bit_zeros n B : bad_bit (replicate n 0) B = false.
Proof.
  unfold bad_bit. destruct (rd (replicate n 0) (B / 8)) as [b|] eqn:E; simpl; [|apply Z.bits_0].
  apply rd_in, elem_of_replicate in E as [-> _]. apply Z.bits_0.
Qed.

Lemma ScanBadBlocks_spec Ctx :
  Ctx_PageSize Ctx = BENAND_PAGE_SIZE → Ctx_PagesPerBlock Ctx = BENAND_PAGES_PER_BLOCK →
  Ctx_NumBlocks Ctx = BENAND_NUM_BLOCKS → Ctx_NumPages Ctx = BENAND_NUM_PAGES →
  Ctx_OobSize Ctx = BENAND_OOB_SIZE →
  ∃ Ctx', AlNandScanBadBlocks Ctx = Some Ctx' ∧ scanned Ctx BENAND_NUM_BLOCKS Ctx'.
Proof.
  intros H1' H2' H3' H4' H5'. unfold AlNandScanBadBlocks.
  set (C0 := set_map Ctx _).
  destruct (for_loop_inv scan_bad_block (scanned Ctx) (Z.to_nat (Ctx_NumBlocks C0)) 0 C0)
    as (Ctx' & -> & HP).
  - split; [by split|]. split; [done|]. split; [done|]. split; [intros; lia|].
    intros _ B HB.
    change (BadBlockMap C0) with (replicate (Z.to_nat AL_NAND_BB_MAP_SIZE) 0).
    rewrite bad_bit_zeros. by rewrite (proj2 (Z.ltb_ge _ _)) by lia.
  - intros j s Hj. apply scan_bad_block_spec. simpl in Hj. rewrite H3' in Hj.
    unfold BENAND_NUM_BLOCKS in Hj. lia.
  - exists Ctx'. split; [done|]. simpl in HP. rewrite H3' in HP. exact HP.
Qed.

(** ** Block reads *)

Lemma ReadPage_reliable Ctx Page Buffer st buf Ctx' :
  hal_reliable → AlNandReadPage Ctx Page Buffer = Some (st, buf, Ctx') → st = EFI_SUCCESS.
Proof.
  intros [Hg Hr] HR. unfold AlNandReadPage in HR.
  pose proof (Hg 0 Page (Ctx_PageSize Ctx) (NandObj Ctx)) as HG.
  destruct (al_nand_cmd_seq_gen_page_read _ _ _ _ _ _) as [[[Err seq] cw] cc]. simpl in HG, HR.
  subst Err. simpl in HR.
  pose proof (Hr (Ctx_PageSize Ctx) 0 0
    (al_nand_cmd_seq_execute seq (al_nand_cw_config cw cc (NandObj Ctx)))) as HE.
  destruct (al_nand_data_buff_read _ _ _ _) as [[Err data] h']. simpl in HE. subst Err.
  destruct (wrn Buffer 0 data); simpl in HR; [|done]. by injection HR as <- _ _.
Qed.

(** The pages from [p] on. *)
Definition page_images Ctx (p : Z) (n : nat) : list Z :=
  mjoin (map (ctx_image Ctx) (seqZ p (Z.of_nat n))).

Lemma page_images_S Ctx p n :
  page_images Ctx p (S n) = ctx_image Ctx p ++ page_images Ctx (p + 1) n.
Proof.
  unfold page_images. rewrite seqZ_cons by lia. cbn [map mjoin list_join].
  by replace (Z.pred (Z.of_nat (S n))) with (Z.of_nat n) by lia.
Qed.

Lemma page_images_leaves Ctx Ctx' p n :
  read_leaves Ctx Ctx' → page_images Ctx' p n = page_images Ctx p n.
Proof.
  intros Hl. unfold page_images. f_equal. apply map_ext. intros q.
  by apply read_leaves_image.
Qed.

Lemma read_leaves_trans C1 C2 C3 : read_leaves C1 C2 → read_leaves C2 C3 → read_leaves C1 C3.
Proof.
  intros (h2 & -> & H12) (h3 & -> & H23). exists h3. split; [done|].
  intros r. rewrite H23. apply H12.
Qed.

(** One page of the loop. *)
Lemma read_one_spec Ctx Page Buf :
  ctx_ok Ctx → 0 <= Page < BENAND_NUM_PAGES → BENAND_PAGE_SIZE <= len Buf →
  ∃ st Buf' Ctx',
    (bad ← AlNandIsBlockBad Ctx (Page / Ctx_PagesPerBlock Ctx);
     if bad : bool then Buf ← fill_ff Buf (Ctx_PageSize Ctx); Some (EFI_SUCCESS, Buf, Ctx)
     else AlNandReadPage Ctx Page Buf) = Some (st, Buf', Ctx') ∧
    read_leaves Ctx Ctx' ∧ length Buf' = length Buf ∧ (st = EFI_SUCCESS ∨ st = EFI_DEVICE_ERROR) ∧
    (st = EFI_SUCCESS → Buf' = ctx_image Ctx Page ++ drop 2048 Buf) ∧
    (hal_reliable → st = EFI_SUCCESS).
Proof.
  intros Hok Hp Hlen. destruct (Hok) as [Hps Hpb _ _ _ _]. rewrite Hps, Hpb.
  destruct (page_block Page) as [Hb1 Hb2]; [done|].
  rewrite IsBlockBad_spec by done. cbn [mbind option_bind].
  rewrite (proj2 (Z.leb_gt _ _)) by done. destruct (bad_bit (BadBlockMap Ctx) _) eqn:Hbad.
  - unfold fill_ff. rewrite wrn_0 by (rewrite length_all_ff by done; lia). cbn [mbind option_bind].
    eexists _, _, _. split; [done|]. split; [apply read_leaves_refl|].
    split; [rewrite length_app, length_drop; unfold all_ff; rewrite length_replicate; lia|].
    split; [by left|]. split; [|done]. intros _. unfold ctx_image. by rewrite page_image_bad.
  - destruct (ReadPage_spec_hal Ctx Page Buf) as (st & b & Ctx' & HR & Hl & Hlb & Hst & Hdata);
      [done..|]. rewrite HR. eexists _, _, _. split; [done|]. split; [done|]. split; [done|].
    split; [done|]. split.
    + intros ->. destruct Hdata as [-> _]; [done|]. unfold ctx_image. by rewrite page_image_good.
    + intros Hr. by eapply ReadPage_reliable.
Qed.

Lemma read_pages_spec n Ctx Page Buf :
  ctx_ok Ctx → 0 <= Page → Page + Z.of_nat n <= BENAND_NUM_PAGES →
  len Buf = Z.of_nat n * BENAND_PAGE_SIZE →
  ∃ st Buf' Ctx', read_pages n Ctx Page Buf = Some (st, Buf', Ctx') ∧ read_leaves Ctx Ctx' ∧
    length Buf' = length Buf ∧ (st = EFI_SUCCESS ∨ st = EFI_DEVICE_ERROR) ∧
    (st = EFI_SUCCESS → Buf' = page_images Ctx Page n) ∧ (hal_reliable → st = EFI_SUCCESS).
Proof.
  unfold BENAND_NUM_PAGES, BENAND_NUM_BLOCKS, BENAND_PAGES_PER_BLOCK, BENAND_PAGE_SIZE.
  revert Ctx Page Buf. induction n as [|n IH]; intros Ctx Page Buf Hok H0' Hle Hlen.
  { eexists _, _, _. split; [done|]. split; [apply read_leaves_refl|]. split; [done|].
    split; [by left|]. split; [|done]. intros _. destruct Buf; [done|simpl in Hlen; lia]. }
  cbn [read_pages]. rewrite (ok_page _ Hok). change (Z.to_nat BENAND_PAGE_SIZE) with 2048%nat.
  destruct (read_one_spec Ctx Page Buf) as (st & B & C1 & HR & Hl1 & Hlb & Hst & Hd & Hrel);
    [done|unfold BENAND_NUM_PAGES, BENAND_NUM_BLOCKS, BENAND_PAGES_PER_BLOCK; lia
    |unfold BENAND_PAGE_SIZE; lia|].
  rewrite (ok_page _ Hok) in HR.
  destruct (AlNandIsBlockBad Ctx _) as [bad|]; [|done]. cbn [mbind option_bind] in HR |- *.
  rewrite HR. cbn [mbind option_bind].
  destruct Hst as [-> | ->]; cbn [EFI_ERROR].
  2:{ eexists _, _, _. split; [done|]. split; [done|]. split; [done|]. split; [by right|].
      split; [done|]. intros Hr. by specialize (Hrel Hr). }
  rewrite u32_small by lia.
  destruct (IH C1 (Page + 1) (drop 2048 B)) as (st2 & B2 & C2 & -> & Hl2 & Hlb2 & Hst2 & Hd2 & Hrel2);
    [by eapply read_leaves_ok|lia|lia|rewrite length_drop; lia|]. cbn [mbind option_bind].
  eexists _, _, _. split; [done|]. split; [by eapply read_leaves_trans|].
  split; [rewrite length_app, length_take, Hlb2, length_drop; lia|]. split; [done|].
  split; [|by intros Hr; apply Hrel2]. intros Hs. rewrite (Hd2 Hs).
  rewrite (page_images_leaves Ctx C1) by done. rewrite page_images_S. f_equal.
  rewrite (Hd eq_refl). rewrite take_app_le by (unfold ctx_image; rewrite length_page_image; lia).
  apply take_ge. unfold ctx_image. rewrite length_page_image. lia.
Qed.
End Driver.

(** ** The protocol's class *)

(** The driver's context over the controller state [h], with the bad block map
    the entry point has computed. *)
Definition installed {H} (m : list Z) (h : H) : AL_NAND_CONTEXT H :=
  mkCtx h BENAND_PAGE_SIZE BENAND_OOB_SIZE BENAND_PAGES_PER_BLOCK BENAND_NUM_BLOCKS
        BENAND_NUM_PAGES m (mkMedia 0 true true BENAND_PAGE_SIZE (BENAND_NUM_PAGES - 1)).

(** The result of an operation as the class has it; an operation that faults or
    gets an index that is no UINT32 has no result. *)
Definition as_result {H} (h : H) (stale : list Z)
    (r : option (EFI_STATUS * option (list Z) * option (AL_NAND_CONTEXT H)))
    : EFI_STATUS * list Z * H :=
  match r with
  | Some (st, Some buf, Some Ctx) => (st, buf, NandObj Ctx)
  | _ => (EFI_INVALID_PARAMETER, stale, h)
  end.

Section Instance.
Context {H : Type} `{NandHalLaws H} (m : list Z).
Hypothesis Hm : len m = AL_NAND_BB_MAP_SIZE.

(** What the caller's buffer holds before a read. *)
Context (stale : nat → list Z).
Hypothesis Hstale : ∀ n, length (stale n) = n.

Definition AlNandFlash : NandFlash H := {|
  PageSize := BENAND_PAGE_SIZE;
  PagesPerBlock := BENAND_PAGES_PER_BLOCK;
  NumBlocks := BENAND_NUM_BLOCKS;
  ReadPage p h := as_result h (stale 2048)
    (if zbetween 0 p (2 ^ 32 - 1)
     then AlNandFlashReadPage (Some (installed m h)) p (Some (stale 2048)) else None);
  ReadTags p h := as_result h (stale 16)
    (if zbetween 0 p (2 ^ 32 - 1)
     then AlNandFlashReadTags (Some (installed m h)) p (Some (stale 16)) else None);
  ReadPageBody h := as_result h (stale 2048)
    (AlNandFlashReadPageBody (Some (installed m h)) (Some (stale 2048)))
|}.

Lemma installed_ok (h : H) : ctx_ok (installed m h).
Proof. by split. Qed.

(** The page the page body belongs to: none for a page of a bad block. *)
Definition driver_latch (h : H) : option Z :=
  match page_register h with
  | Some p => if zbetween 0 p (BENAND_NUM_PAGES - 1) && negb (bad_bit m (p / BENAND_PAGES_PER_BLOCK))
              then Some p else None
  | None => None
  end.

Lemma driver_latch_Some h p :
  driver_latch h = Some p →
  page_register h = Some p ∧ page_image m h p = take (Z.to_nat BENAND_PAGE_SIZE) (chip h p).
Proof.
  unfold driver_latch, page_image. destruct (page_register h) as [q|]; [|done].
  destruct (_ && _) eqn:E; [|done]. intros [= ->]. by rewrite E.
Qed.

Lemma drop_all_ff : drop 2032 (all_ff 2048) = all_ff 16.
Proof. reflexivity. Qed.

Lemma ReadPage_law p h st buf h' :
  @ReadPage H AlNandFlash p h = (st, buf, h') →
  (∀ q, page_image m h' q = page_image m h q) ∧ length buf = 2048%nat ∧
  (EFI_ERROR st = false → buf = page_image m h p).
Proof.
  cbn [ReadPage AlNandFlash].
  destruct (zbetween 0 p (2 ^ 32 - 1)) eqn:Hp; [|by intros [= <- <- <-]].
  apply zbetween_spec in Hp.
  destruct (FlashReadPage_spec (installed m h) p (stale 2048)) as (s & b & C & -> & Hl & Hlen & Hd);
    [apply installed_ok|lia|by rewrite Hstale|].
  destruct Hl as (h1 & -> & Hs). cbn [as_result NandObj set_obj installed]. intros [= <- <- <-].
  split; [intros q; by apply page_image_same|].
  split; [unfold BENAND_PAGE_SIZE in Hlen; lia|]. intros He. by destruct (Hd He).
Qed.

Lemma ReadTags_law p h st buf h' :
  @ReadTags H AlNandFlash p h = (st, buf, h') →
  (∀ q, page_image m h' q = page_image m h q) ∧ length buf = 16%nat ∧
  (EFI_ERROR st = false →
     buf = drop 2032 (page_image m h p) ∧ (buf ≠ all_ff 16 → driver_latch h' = Some p)).
Proof.
  cbn [ReadTags AlNandFlash].
  destruct (zbetween 0 p (2 ^ 32 - 1)) eqn:Hp; [|by intros [= <- <- <-]].
  apply zbetween_spec in Hp.
  destruct (FlashReadTags_spec (installed m h) p (stale 16)) as (s & b & C & -> & Hl & Hlen & Hd);
    [apply installed_ok|lia|by rewrite Hstale|].
  destruct Hl as (h1 & -> & Hs). cbn [as_result NandObj set_obj installed]. intros [= <- <- <-].
  split; [intros q; by apply page_image_same|]. split; [lia|].
  intros He. destruct (Hd He) as (Hlt & Hb & Hreg). split; [done|]. intros Hne.
  destruct (bad_bit m (p / BENAND_PAGES_PER_BLOCK)) eqn:Hbad.
  - destruct Hne. rewrite Hb. unfold ctx_image. cbn [BadBlockMap installed].
    rewrite page_image_bad by done. apply drop_all_ff.
  - unfold driver_latch. cbn [NandObj set_obj] in Hreg. rewrite Hreg by done.
    rewrite (proj2 (zbetween_spec _ _ _)) by lia. by rewrite Hbad.
Qed.

Lemma ReadPageBody_law h st buf h' :
  @ReadPageBody H AlNandFlash h = (st, buf, h') →
  (∀ q, page_image m h' q = page_image m h q) ∧ length buf = 2048%nat ∧
  (EFI_ERROR st = false → ∀ p, driver_latch h = Some p → buf = page_image m h p).
Proof.
  cbn [ReadPageBody AlNandFlash].
  destruct (FlashReadPageBody_spec (installed m h) (stale 2048)) as (s & b & C & -> & Hl & Hlen & Hd);
    [apply installed_ok|by rewrite Hstale|].
  destruct Hl as (h1 & -> & Hs). cbn [as_result NandObj set_obj installed]. intros [= <- <- <-].
  split; [intros q; by apply page_image_same|].
  split; [unfold BENAND_PAGE_SIZE in Hlen; lia|]. intros He p Hp.
  apply driver_latch_Some in Hp as [Hreg ->]. by apply (Hd He).
Qed.

Lemma page_image_bytes h p : Forall byte_ok (page_image m h p).
Proof.
  unfold page_image. case_b; [apply Forall_take, chip_bytes|].
  apply Forall_replicate. unfold byte_ok. lia.
Qed.

(** The driver is an implementation of the protocol. *)
#[program] Definition AlNandLaws : @NandLaws H AlNandFlash := {|
  image := page_image m;
  latched := driver_latch
|}.
Next Obligation. intros. apply length_page_image. Qed.
Next Obligation. intros. apply page_image_bytes. Qed.
Next Obligation. exact ReadPage_law. Qed.
Next Obligation. exact ReadTags_law. Qed.
Next Obligation. exact ReadPageBody_law. Qed.
End Instance.

(** ** Initialization *)

Lemma AllocatePool_cases p :
  ∃ b p', AllocatePool p = (b, p') ∧ pool_live p' = pool_live p + (if b : bool then 1 else 0).
Proof.
  destruct (AllocatePool p) as [b p'] eqn:E. exists b, p'. split; [done|].
  by apply AllocatePool_live.
Qed.

Section Init.
Context {H : Type} `{NandHalLaws H}.

Lemma DeviceReset_spec (Ctx : AL_NAND_CONTEXT H) :
  ∃ st h, AlNandDeviceReset Ctx = (st, set_obj Ctx h) ∧ (st = EFI_SUCCESS ∨ st = EFI_TIMEOUT).
Proof.
  unfold AlNandDeviceReset, AlNandWaitCmdEmpty.
  destruct (poll_cmd_empty _ 1000 _) as [[] h]; [eauto|].
  destruct (poll_cmd_empty _ (Z.to_nat _) h) as [[] h']; eauto.
Qed.

Lemma ReadId_spec (Ctx : AL_NAND_CONTEXT H) :
  ∃ st ids h, AlNandReadId Ctx 8 = (st, ids, set_obj Ctx h) ∧ len ids <= 8 ∧
    (st = EFI_SUCCESS ∨ st = EFI_DEVICE_ERROR).
Proof.
  unfold AlNandReadId. change (Z.land (8 +u32 3) (Z.lnot 3)) with 8.
  destruct (al_nand_data_buff_read _ _ _ _) as [[Err ids] h] eqn:ER.
  assert (len ids <= 8 - 0 - (8 - 8)) by (eapply data_buff_length, ER; done).
  eexists _, _, _. split; [done|]. split; [lia|]. destruct (Err =? 0); simpl; auto.
Qed.

(** What the entry point leaves installed: the constant geometry and the map of
    the bad blocks. *)
Definition initialized (Ctx : AL_NAND_CONTEXT H) : Prop :=
  Ctx = installed (BadBlockMap Ctx) (NandObj Ctx) ∧ len (BadBlockMap Ctx) = AL_NAND_BB_MAP_SIZE ∧
  (∀ B, 0 <= B < BENAND_NUM_BLOCKS → oob_marker (NandObj Ctx) B ≠ 0xFF →
     AlNandIsBlockBad Ctx B = Some true) ∧
  (hal_reliable (H := H) → ∀ B, 0 <= B < BENAND_NUM_BLOCKS →
     AlNandIsBlockBad Ctx B = Some (negb (oob_marker (NandObj Ctx) B =? 0xFF))).

Lemma scanned_initialized (Ctx0 Ctx : AL_NAND_CONTEXT H) :
  scanned Ctx0 BENAND_NUM_BLOCKS Ctx → initialized (installed (BadBlockMap Ctx) (NandObj Ctx)).
Proof.
  intros (Hok & Hs & _ & Hsafe & Hex). pose proof (ok_map _ Hok) as Hm.
  assert (Hmk : ∀ B, oob_marker (NandObj Ctx) B = oob_marker (NandObj Ctx0) B)
    by (intros B; unfold oob_marker; by rewrite Hs).
  assert (Hbad : ∀ B, 0 <= B < BENAND_NUM_BLOCKS →
    AlNandIsBlockBad (installed (BadBlockMap Ctx) (NandObj Ctx)) B
    = Some (bad_bit (BadBlockMap Ctx) B)).
  { intros B HB. rewrite IsBlockBad_spec by (done || lia || apply HB).
    by rewrite (proj2 (Z.leb_gt _ _)) by lia. }
  split_and!; [done|done| |].
  - intros B HB Hne. rewrite Hbad by done. f_equal. apply Hsafe; [done|].
    simpl in Hne. by rewrite <-Hmk.
  - intros Hr B HB. rewrite Hbad by done. f_equal. rewrite (Hex Hr B) by done. simpl.
    rewrite Hmk. by rewrite (proj2 (Z.ltb_lt _ _)) by lia.
Qed.

Lemma Initialize_spec InstallStatus (h : H) p :
  match AlNandDxeInitialize InstallStatus h p with
  | Some (st, Some Ctx, p') =>
      st = EFI_SUCCESS ∧ pool_live p' = pool_live p + 2 ∧ initialized Ctx
  | Some (st, None, p') => EFI_ERROR st = true ∧ pool_live p' = pool_live p
  | None => False
  end.
Proof.
  unfold AlNandDxeInitialize.
  destruct (AllocatePool_cases p) as (ok & p1 & -> & Hl1).
  destruct ok; cbn [negb]; [|split; [done|lia]].
  destruct (al_nand_init AL_NAND_BASE h) as [Err h1]. case_b; [split; [done|simpl; lia]|].
  destruct (al_nand_dev_config DevProps _) as [Err2 h2]. case_b; [split; [done|simpl; lia]|].
  match goal with |- context [AlNandDeviceReset ?C] =>
    destruct (DeviceReset_spec C) as (st & h3 & -> & [-> | ->]) end;
    cbn [EFI_ERROR]; [|split; [done|simpl; lia]].
  match goal with |- context [AlNandReadId ?C 8] =>
    destruct (ReadId_spec C) as (st & ids & h4 & -> & Hids & Hst) end.
  rewrite (proj2 (Z.ltb_ge _ _)) by lia.
  destruct Hst as [-> | ->]; cbn [EFI_ERROR]; [|split; [done|simpl; lia]].
  match goal with |- context [AlNandScanBadBlocks ?C] =>
    destruct (ScanBadBlocks_spec C) as (C' & -> & Hsc) end; [done..|].
  cbn [mbind option_bind].
  destruct (AllocatePool_cases p1) as (ok & p2 & -> & Hl2).
  destruct ok; cbn [negb]; [|split; [done|simpl; lia]].
  case_b; [split; [done|simpl; lia]|].
  split; [done|]. split; [lia|].
  pose proof (scanned_initialized _ _ Hsc) as Hi. destruct Hsc as ([-> -> -> -> _ ->] & _).
  exact Hi.
Qed.
End Init.

(** ** Properties *)

(** C23: The driver is an implementation of the protocol of MikroTikNandFlash.h, over
    any HAL that keeps its own contract. With any bad-block map, the three
    operations satisfy every law of [NandLaws], the class the file system is
    verified against: the contents they present are [page_image] (0xFF throughout
    for a page of a bad block) and the page that a page body belongs to is
    [driver_latch], the chip's page register when that page is in a good block.
    And they never fault: on any context of the installed geometry and buffers of
    the right size each returns, leaves the flash unchanged and stays in its
    buffer; a successful [ReadPage] returns the page; after a successful [ReadTags]
    of a page that did not come back erased, a successful [ReadPageBody] returns
    that very page, whose last 16 bytes are the tags just read. *)
Theorem AlNand_keeps_protocol {H} `{NandHalLaws H} m stale :
  len m = AL_NAND_BB_MAP_SIZE → (∀ n, length (stale n) = n) →
  (∃ L : @NandLaws H (AlNandFlash m stale),
     (∀ h p, @image H (AlNandFlash m stale) L h p = page_image m h p) ∧
     ∀ h, @latched H (AlNandFlash m stale) L h = driver_latch m h) ∧
  ∀ (Ctx : AL_NAND_CONTEXT H) p page tags body,
  ctx_ok Ctx → 0 <= p → len page = BENAND_PAGE_SIZE → len tags = 16 → len body = BENAND_PAGE_SIZE →
  (∃ st buf Ctx', AlNandFlashReadPage (Some Ctx) p (Some page) = Some (st, Some buf, Some Ctx') ∧
     read_leaves Ctx Ctx' ∧ len buf = BENAND_PAGE_SIZE ∧
     (EFI_ERROR st = false → buf = ctx_image Ctx p)) ∧
  (∃ st buf Ctx1 st2 buf2 Ctx2,
     AlNandFlashReadTags (Some Ctx) p (Some tags) = Some (st, Some buf, Some Ctx1) ∧
     AlNandFlashReadPageBody (Some Ctx1) (Some body) = Some (st2, Some buf2, Some Ctx2) ∧
     read_leaves Ctx Ctx1 ∧ read_leaves Ctx1 Ctx2 ∧
     (EFI_ERROR st = false → buf = drop 2032 (ctx_image Ctx p)) ∧
     (EFI_ERROR st = false → buf ≠ all_ff 16 → EFI_ERROR st2 = false →
        buf2 = ctx_image Ctx p ∧ buf = drop 2032 buf2)).
Proof.
  intros Hm Hstale. split; [by exists (AlNandLaws m Hm stale Hstale)|].
  intros Ctx p page tags body Hok Hp Hpage Htags Hbody. split.
  - destruct (FlashReadPage_spec Ctx p page) as (st & b & C & HR & Hl & Hlen & Hd); [done..|].
    exists st, b, C. split_and!; try done. intros He. by destruct (Hd He).
  - destruct (FlashReadTags_spec Ctx p tags) as (st & b & C1 & HR & Hl & Hlen & Hd); [done..|].
    destruct (FlashReadPageBody_spec C1 body) as (st2 & b2 & C2 & HR2 & Hl2 & _ & Hd2);
      [by eapply read_leaves_ok|done|].
    exists st, b, C1, st2, b2, C2. split_and!; try done; [by intros He; apply Hd|].
    intros He Hne He2. destruct (Hd He) as (Hlt & Hb & Hreg).
    destruct (bad_bit (BadBlockMap Ctx) (p / BENAND_PAGES_PER_BLOCK)) eqn:Hbad.
    { destruct Hne. rewrite Hb. unfold ctx_image. by rewrite page_image_bad. }
    assert (Hb2 : b2 = ctx_image Ctx p).
    { rewrite (Hd2 He2 p (Hreg eq_refl)). destruct Hl as (h & -> & Hs). simpl.
      unfold ctx_image. rewrite page_image_good by done. by rewrite Hs. }
    rewrite Hb2. by split.
Qed.

(** The entry point: whatever the HAL and the boot services answer, it returns;
    on failure nothing stays allocated; on success two allocations (the context
    and the device path) stay, the geometry is the BENAND's, every block whose
    bad-block marker is not 0xFF is treated as bad, and on a HAL that does not
    fail exactly those are. *)
Theorem Initialize_installs {H} `{NandHalLaws H} InstallStatus (h : H) p :
  match AlNandDxeInitialize InstallStatus h p with
  | Some (st, Some Ctx, p') =>
      st = EFI_SUCCESS ∧ pool_live p' = pool_live p + 2 ∧ initialized Ctx
  | Some (st, None, p') => EFI_ERROR st = true ∧ pool_live p' = pool_live p
  | None => False
  end.
Proof. apply Initialize_spec. Qed.

(** Block reads: a request for whole pages inside the flash fills the buffer
    with exactly the images of the pages from [Lba] on, or stops with
    EFI_DEVICE_ERROR at a page the HAL cannot read; on a HAL that does not fail it
    succeeds. *)
Theorem ReadBlocks_exact {H} `{NandHalLaws H} (Ctx : AL_NAND_CONTEXT H) Lba n buf :
  ctx_ok Ctx → 0 <= Lba → 0 < Z.of_nat n → Lba + Z.of_nat n <= BENAND_NUM_PAGES →
  len buf = Z.of_nat n * BENAND_PAGE_SIZE →
  ∃ st buf' Ctx',
    AlNandBlockIoReadBlocks Ctx (MediaId (Media Ctx)) Lba (len buf) (Some buf)
      = Some (st, Some buf', Ctx') ∧
    read_leaves Ctx Ctx' ∧ length buf' = length buf ∧ (st = EFI_SUCCESS ∨ st = EFI_DEVICE_ERROR) ∧
    (st = EFI_SUCCESS → buf' = page_images Ctx Lba n) ∧
    (hal_reliable (H := H) → st = EFI_SUCCESS).
Proof.
  intros Hok HL Hn Hle Hlen. unfold AlNandBlockIoReadBlocks.
  rewrite Z.eqb_refl. cbn [negb]. rewrite (ok_page _ Hok), (ok_pages _ Hok), Hlen.
  unfold BENAND_PAGE_SIZE, BENAND_NUM_PAGES, BENAND_NUM_BLOCKS, BENAND_PAGES_PER_BLOCK in *.
  rewrite (proj2 (Z.eqb_neq (Z.of_nat n * 2048) 0)) by lia. rewrite Z.mod_mul by done. cbn [Z.eqb negb].
  rewrite Z.div_mul by done. rewrite !(u32_small (Z.of_nat n)), (u32_small Lba) by lia.
  rewrite u32_small by lia. rewrite (proj2 (Z.ltb_ge _ _)) by lia. rewrite Nat2Z.id.
  destruct (read_pages_spec n Ctx Lba buf) as (st & b & C & -> & ?); [done..|].
  cbn [mbind option_bind]. by exists st, b, C.
Qed.

(** Where the block device goes wrong: the bounds check looks at the low 32 bits
    of the LBA only. A request whose LBA lies beyond the last block, but whose low
    half is in range, is not refused: on a HAL that does not fail it succeeds with
    the contents of other pages. *)
Theorem ReadBlocks_lba_truncated {H} `{NandHalLaws H} (Ctx : AL_NAND_CONTEXT H) k p n buf :
  ctx_ok Ctx → hal_reliable (H := H) → 0 < k < 2 ^ 32 → 0 <= p → 0 < Z.of_nat n →
  p + Z.of_nat n <= BENAND_NUM_PAGES → len buf = Z.of_nat n * BENAND_PAGE_SIZE →
  BENAND_NUM_PAGES <= k * 2 ^ 32 + p < 2 ^ 64 ∧
  ∃ Ctx', AlNandBlockIoReadBlocks Ctx (MediaId (Media Ctx)) (k * 2 ^ 32 + p) (len buf) (Some buf)
    = Some (EFI_SUCCESS, Some (page_images Ctx p n), Ctx') ∧ read_leaves Ctx Ctx'.
Proof.
  intros Hok Hrel Hk HL Hn Hle Hlen. unfold AlNandBlockIoReadBlocks.
  rewrite Z.eqb_refl. cbn [negb]. rewrite (ok_page _ Hok), (ok_pages _ Hok), Hlen.
  unfold BENAND_PAGE_SIZE, BENAND_NUM_PAGES, BENAND_NUM_BLOCKS, BENAND_PAGES_PER_BLOCK in *.
  split; [lia|].
  rewrite (proj2 (Z.eqb_neq (Z.of_nat n * 2048) 0)) by lia. rewrite Z.mod_mul by done. cbn [Z.eqb negb].
  assert (Hu : u32 (k * 2 ^ 32 + p) = p).
  { unfold u32. rewrite Z.add_comm, Z_mod_plus_full. apply Z.mod_small. lia. }
  rewrite Z.div_mul by done. rewrite Hu, !(u32_small (Z.of_nat n)) by lia.
  rewrite u32_small by lia. rewrite (proj2 (Z.ltb_ge _ _)) by lia. rewrite Nat2Z.id.
  destruct (read_pages_spec n Ctx p buf) as (st & b & C & -> & Hl & _ & _ & Hd & Hs); [done..|].
  cbn [mbind option_bind]. rewrite (Hs Hrel) in *. rewrite (Hd eq_refl). by exists C.
Qed.

(** ** A HAL over a chip in memory *)

Record SimHal := mkSimHal {
  sh_pages : gmap Z (list Z);       (* pages with their spare area; absent is erased *)
  sh_register : option Z;
  sh_fifo : list Z
}.

Definition sim_chip (s : SimHal) (row : Z) : list Z := fit 2112 (default [] (sh_pages s !! row)).

#[export] Instance SimNandHal : NandHal SimHal := {
  al_nand_init _ s := (0, s);
  al_nand_dev_select _ s := s;
  al_nand_dev_config _ s := (0, s);
  al_nand_ecc_set_enabled _ s := s;
  al_reg_write32 _ _ s := s;
  al_nand_int_disable _ s := s;
  al_nand_cmd_buff_is_empty s := (true, s);
  al_nand_cmd_single_execute c s :=
    if c =? AL_NAND_CMD_SEQ_ENTRY AL_NAND_COMMAND_TYPE_CMD 0xE0
    then mkSimHal (sh_pages s) (sh_register s)
           (match sh_register s with Some row => sim_chip s row | None => [] end)
    else s;
  al_nand_cmd_seq_execute seq s :=
    match seq with
    | [col; row; n] => mkSimHal (sh_pages s) (Some row)
                         (take (Z.to_nat n) (drop (Z.to_nat col) (sim_chip s row)))
    | _ => s
    end;
  al_nand_cw_config _ _ s := s;
  al_nand_cmd_seq_gen_page_read col row n _ _ _ := (0, [col; row; n], AL_NAND_CW_SIZE, 1);
  al_nand_data_buff_read n head tail s :=
    (0, take (Z.to_nat (n - head - tail)) (drop (Z.to_nat head) (sh_fifo s)), s);
  MicroSecondDelay _ s := s
}.

(** The read counts do not touch the chip. *)
Lemma sim_counts cw n s :
  foldl (λ h c, al_nand_cmd_single_execute c h) s
    (mjoin (replicate n
      [AL_NAND_CMD_SEQ_ENTRY AL_NAND_COMMAND_TYPE_DATA_READ_COUNT (Z.land cw 0xFF);
       AL_NAND_CMD_SEQ_ENTRY AL_NAND_COMMAND_TYPE_DATA_READ_COUNT (Z.land (Z.shiftr cw 8) 0xFF)])) = s.
Proof.
  assert (Hne : ∀ x, (AL_NAND_CMD_SEQ_ENTRY AL_NAND_COMMAND_TYPE_DATA_READ_COUNT x
                     =? AL_NAND_CMD_SEQ_ENTRY AL_NAND_COMMAND_TYPE_CMD 0xE0) = false).
  { intros x. apply Z.eqb_neq. intros Heq. apply (f_equal (λ z, Z.testbit z 10)) in Heq.
    unfold AL_NAND_CMD_SEQ_ENTRY in Heq. rewrite !Z.lor_spec in Heq. done. }
  induction n as [|n IH]; [done|]. cbn [replicate mjoin list_join foldl app].
  cbn [al_nand_cmd_single_execute SimNandHal]. rewrite !Hne. exact IH.
Qed.

#[export, program] Instance SimNandHalLaws : NandHalLaws SimHal := {
  chip := sim_chip;
  page_register := sh_register
}.
Next Obligation. intros. apply length_fit. Qed.
Next Obligation. intros. apply fit_bytes. Qed.
Next Obligation.
  simpl. intros n head tail h err buf h' Hb [= _ <- _]. rewrite length_take. lia.
Qed.
Next Obligation.
  simpl. intros h col row n skip seq cw cc err buf h' Hc Hr Hs Hn [= <- <- <-] [= <- <- <-].
  split; [done|]. intros _. split; [|done].
  change (Z.to_nat 0) with 0%nat. rewrite drop_0, take_take. f_equal. lia.
Qed.
Next Obligation.
  simpl. intros h cw cc err buf h' Hcw Hn Hread. rewrite sim_counts in Hread.
  injection Hread as _ <- <-. split; [done|].
  intros _ row Hrow. rewrite Hrow. cbn [sh_fifo].
  change (Z.to_nat 0) with 0%nat. rewrite drop_0. f_equal. lia.
Qed.

Lemma sim_reliable_hal : hal_reliable (H := SimHal).
Proof. by split. Qed.

(** A chip with one written page and a marked second block. *)
Definition demo_tags : list Z := [1; 2; 3; 4; 5; 6; 7; 8; 9; 10; 11; 12; 13; 14; 15; 16].
Definition demo_hal : SimHal :=
  mkSimHal (list_to_map [(0, replicate (Z.to_nat 2032) 7 ++ demo_tags);
                         (64, replicate (Z.to_nat 2048) 3 ++ [0])]) None [].
Definition demo_map : list Z := 2 :: replicate 127 0.
Definition demo_ctx : AL_NAND_CONTEXT SimHal := installed demo_map demo_hal.
Definition blank (n : Z) : list Z := replicate (Z.to_nat n) 0.

Lemma demo_ctx_ok : ctx_ok demo_ctx.
Proof. by split. Qed.

Lemma length_blank n : 0 <= n → len (blank n) = n.
Proof. intros. unfold blank. rewrite length_replicate. lia. Qed.

Lemma length_blank_nat n : length (blank (Z.of_nat n)) = n.
Proof. unfold blank. rewrite length_replicate. lia. Qed.

Lemma AlNand_keeps_protocol_witness :
  let F := AlNandFlash demo_map (λ n, blank (Z.of_nat n)) in
  (∃ L : @NandLaws SimHal F, ∀ h p, @image SimHal F L h p = page_image demo_map h p) ∧
  ∃ st buf Ctx1 st2 buf2 Ctx2,
    AlNandFlashReadTags (Some demo_ctx) 0 (Some (blank 16)) = Some (st, Some buf, Some Ctx1) ∧
    AlNandFlashReadPageBody (Some Ctx1) (Some (blank 2048)) = Some (st2, Some buf2, Some Ctx2) ∧
    read_leaves demo_ctx Ctx1 ∧ read_leaves Ctx1 Ctx2 ∧
    (EFI_ERROR st = false → buf = drop 2032 (ctx_image demo_ctx 0)) ∧
    (EFI_ERROR st = false → buf ≠ all_ff 16 → EFI_ERROR st2 = false →
       buf2 = ctx_image demo_ctx 0 ∧ buf = drop 2032 buf2).
Proof.
  destruct (AlNand_keeps_protocol demo_map (λ n, blank (Z.of_nat n)) eq_refl length_blank_nat) as [(L & E & _) X].
  split; [by exists L|].
  apply (X demo_ctx 0 (blank 2048) (blank 16) (blank 2048)); [apply demo_ctx_ok|lia|by apply length_blank..].
Defined.

(** The run that witness is about: the tags come back and the page follows. *)
Lemma demo_tags_read :
  ∃ h1, AlNandFlashReadTags (Some demo_ctx) 0 (Some (blank 16))
        = Some (EFI_SUCCESS, Some demo_tags, Some (set_obj demo_ctx h1)).
Proof. eexists. vm_compute. reflexivity. Qed.

Lemma Initialize_installs_witness :
  ∃ Ctx, AlNandDxeInitialize EFI_SUCCESS demo_hal (mkPool [] 0)
         = Some (EFI_SUCCESS, Some Ctx, mkPool [] 2) ∧ initialized Ctx.
Proof.
  pose proof (Initialize_installs EFI_SUCCESS demo_hal (mkPool [] 0)) as Hinit.
  destruct (AlNandDxeInitialize EFI_SUCCESS demo_hal (mkPool [] 0)) as [[[st [Ctx|]] p']|] eqn:E.
  - destruct Hinit as (-> & Hlive & Hi). exists Ctx. split; [|exact Hi].
    f_equal. f_equal. vm_compute in E. injection E as _ <-. reflexivity.
  - exfalso. vm_compute in E. discriminate E.
  - exfalso. exact Hinit.
Defined.

Lemma ReadBlocks_exact_witness :
  ∃ st buf' Ctx',
    AlNandBlockIoReadBlocks demo_ctx 0 63 (len (blank 4096)) (Some (blank 4096))
      = Some (st, Some buf', Ctx') ∧
    read_leaves demo_ctx Ctx' ∧ length buf' = length (blank 4096) ∧
    (st = EFI_SUCCESS ∨ st = EFI_DEVICE_ERROR) ∧
    (st = EFI_SUCCESS → buf' = page_images demo_ctx 63 2) ∧
    (hal_reliable (H := SimHal) → st = EFI_SUCCESS).
Proof.
  apply (ReadBlocks_exact demo_ctx 63 2 (blank 4096));
    [apply demo_ctx_ok|lia|lia|vm_compute; discriminate|by apply length_blank].
Defined.

Lemma ReadBlocks_lba_truncated_witness :
  BENAND_NUM_PAGES <= 1 * 2 ^ 32 + 5 < 2 ^ 64 ∧
  ∃ Ctx', AlNandBlockIoReadBlocks demo_ctx 0 (1 * 2 ^ 32 + 5) (len (blank 2048)) (Some (blank 2048))
    = Some (EFI_SUCCESS, Some (page_images demo_ctx 5 1), Ctx') ∧ read_leaves demo_ctx Ctx'.
Proof.
  apply (ReadBlocks_lba_truncated demo_ctx 1 5 1 (blank 2048));
    [apply demo_ctx_ok|apply sim_reliable_hal|lia|lia|lia|vm_compute; discriminate
    |by apply length_blank].
Defined.
