(* ===== verification/Spi.v ===== *)
(** * The SPI controller and the NOR flash

    What the firmware's two users of the boot flash (the DXE driver and the SPI
    loader) rely on: the operations of the vendor's al_hal_spi.h over the
    controller's state, and the command set of the flash chip as its datasheet
    gives it, as laws. *)

From S2P Require Import Prelude Efi.

(** A transfer sends the command bytes, then reads or writes; it returns the error
    code. *)
Class SpiHal (H : Type) := {
  al_spi_init : Z → Z → H → H;
  al_spi_claim_bus : Z → H → H;
  al_spi_read : list Z → Z → H → Z * list Z * H;
  al_spi_write : list Z → list Z → H → Z * H;
  MicroSecondDelay : Z → H → H
}.

(** The command byte and the 24-bit address, most significant byte first, as the
    code fills [Cmd]. *)
Definition Cmd (op Addr : Z) : list Z :=
  [op; u8 (Z.shiftr Addr 16); u8 (Z.shiftr Addr 8); u8 Addr].

Definition NOR_SIZE : Z := 2 ^ 24.
Definition SR_WIP (Sr : Z) : bool := Z.testbit Sr 0.
Definition SR_WEL (Sr : Z) : bool := Z.testbit Sr 1.

(** Page program of [data] at [a]: programming clears bits. *)
Definition programmed (mem : Z → Z) (a : Z) (data : list Z) (x : Z) : Z :=
  match rd data (x - a) with Some v => Z.land (mem x) v | None => mem x end.

(** Sector erase at [a]. *)
Definition erased (mem : Z → Z) (a x : Z) : Z :=
  if x / 4096 =? a / 4096 then 0xFF else mem x.

(** The contents from [a], which wrap at the end of the chip. *)
Definition nor_bytes (mem : Z → Z) (a : Z) (n : nat) : list Z :=
  map (λ x, mem (x mod NOR_SIZE)) (seqZ a (Z.of_nat n)).

(** The chip behind the controller. A transfer that reports an error may have
    been cut short, so programming and erasing say nothing then; reading and the
    status commands never change the contents. The chip's block-protection bits
    are taken as clear, the state the driver's entry point brings a Winbond part
    to; a chip that still protects a sector does not satisfy the laws. *)
Class NorLaws (H : Type) `{SpiHal H} := {
  nor_mem : H → Z → Z;
  nor_ready : H → bool;
  nor_wel : H → bool;
  nor_mem_bytes h x : byte_ok (nor_mem h x);
  delay_spec us h :
    (∀ x, nor_mem (MicroSecondDelay us h) x = nor_mem h x) ∧
    (nor_ready h = true → nor_ready (MicroSecondDelay us h) = true);
  read_length cmd n h err buf h' : 0 <= n → al_spi_read cmd n h = (err, buf, h') → len buf <= n;
  status_spec h err buf h' :
    al_spi_read [0x05] 1 h = (err, buf, h') →
    (∀ x, nor_mem h' x = nor_mem h x) ∧ (nor_ready h = true → nor_ready h' = true) ∧
    (err = 0 → ∃ sr, buf = [sr] ∧ (SR_WIP sr = false → nor_ready h' = true) ∧
                     (SR_WEL sr = true → nor_wel h' = true));
  spi_setup_spec base clk hz h h' :
    h' = al_spi_init base clk h ∨ h' = al_spi_claim_bus hz h →
    (∀ x, nor_mem h' x = nor_mem h x) ∧ (nor_ready h = true → nor_ready h' = true);
  read_id_spec n h err buf h' :
    0 <= n <= 3 → al_spi_read [0x9F] n h = (err, buf, h') →
    (∀ x, nor_mem h' x = nor_mem h x) ∧ (nor_ready h = true → nor_ready h' = true) ∧
    (err = 0 → len buf = n);
  write_enable_spec h err h' :
    al_spi_write [0x06] [] h = (err, h') →
    (∀ x, nor_mem h' x = nor_mem h x) ∧ (nor_ready h = true → nor_ready h' = true);
  read_data_spec Addr n h err buf h' :
    0 <= n → al_spi_read (Cmd 0x03 Addr) n h = (err, buf, h') →
    (∀ x, nor_mem h' x = nor_mem h x) ∧ (nor_ready h = true → nor_ready h' = true) ∧
    (err = 0 → nor_ready h = true → buf = nor_bytes (nor_mem h) (Addr mod NOR_SIZE) (Z.to_nat n));
  program_spec Addr data h h' :
    nor_ready h = true → nor_wel h = true → Addr mod 256 + len data <= 256 →
    al_spi_write (Cmd 0x02 Addr) data h = (0, h') →
    ∀ x, 0 <= x < NOR_SIZE → nor_mem h' x = programmed (nor_mem h) (Addr mod NOR_SIZE) data x;
  erase_spec Addr h h' :
    nor_ready h = true → nor_wel h = true →
    al_spi_write (Cmd 0x20 Addr) [] h = (0, h') →
    ∀ x, 0 <= x < NOR_SIZE → nor_mem h' x = erased (nor_mem h) (Addr mod NOR_SIZE) x
}.

(** A chip and controller on which nothing fails: transfers succeed, a write
    enable is visible in the status at once, and an operation in progress ends
    within [polls] status reads, fewer than the driver allows. *)
Record nor_reliable (H : Type) `{NorLaws H} (polls : H → nat) : Prop := {
  rel_read cmd n h : (al_spi_read cmd n h).1.1 = 0;
  rel_write cmd data h : (al_spi_write cmd data h).1 = 0;
  rel_wel h h' err buf h'' :
    nor_ready h = true → al_spi_write [0x06] [] h = (0, h') →
    al_spi_read [0x05] 1 h' = (err, buf, h'') → ∃ sr, buf = [sr] ∧ SR_WEL sr = true;
  rel_polls h : Z.of_nat (polls h) < 10000;
  rel_progress us h err sr h' :
    al_spi_read [0x05] 1 h = (err, [sr], h') → SR_WIP sr = true →
    (polls (MicroSecondDelay us h') < polls h)%nat
}.

(** ** The address bytes *)

(** The address a chip decodes from the three bytes. *)
Definition addr24 (c : list Z) : Z :=
  match c with
  | [_; a2; a1; a0] => a2 * 2 ^ 16 + a1 * 2 ^ 8 + a0
  | _ => 0
  end.

(** The chip sees the address modulo its size. *)
Lemma addr24_Cmd op Addr : addr24 (Cmd op Addr) = Addr mod NOR_SIZE.
Proof.
  unfold addr24, Cmd, u8, NOR_SIZE. rewrite !Z.shiftr_div_pow2 by lia.
  pose proof (Z.div_mod Addr (2 ^ 8)). pose proof (Z.div_mod (Addr / 2 ^ 8) (2 ^ 8)).
  pose proof (Z.div_mod (Addr / 2 ^ 16) (2 ^ 8)).
  rewrite !Z.div_div in * by lia.
  change (2 ^ 8 * 2 ^ 8) with (2 ^ 16) in *. change (2 ^ 16 * 2 ^ 8) with (2 ^ 24) in *.
  pose proof (Z.mod_pos_bound Addr (2 ^ 8)). pose proof (Z.mod_pos_bound (Addr / 2 ^ 8) (2 ^ 8)).
  pose proof (Z.mod_pos_bound (Addr / 2 ^ 16) (2 ^ 8)).
  apply (Z.mod_unique _ _ (Addr / 2 ^ 24)); lia.
Qed.

(** ** Runs against the chip *)

Section Chip.
Context {H : Type} `{NorLaws H}.

Definition same_mem (h h' : H) : Prop := ∀ x, nor_mem h' x = nor_mem h x.

Lemma same_mem_trans h1 h2 h3 : same_mem h1 h2 → same_mem h2 h3 → same_mem h1 h3.
Proof. intros H12 H23 x. by rewrite H23, H12. Qed.

(** A run of the driver on a flawless device. *)
Definition flawless : Prop := ∃ polls, nor_reliable H polls.

Lemma nor_bytes_app mem a n m :
  nor_bytes mem a (n + m) = nor_bytes mem a n ++ nor_bytes mem (a + Z.of_nat n) m.
Proof.
  unfold nor_bytes. rewrite Nat2Z.inj_add, seqZ_app by lia. by rewrite map_app.
Qed.

Lemma nor_bytes_same h h' a n :
  same_mem h h' → nor_bytes (nor_mem h') a n = nor_bytes (nor_mem h) a n.
Proof. intros Hs. apply map_ext. intros x. apply Hs. Qed.
End Chip.

(** ** A simulated chip *)

(** A 16 MiB chip whose program and erase end at the next delay; [others] is the
    state of the other devices of the machine. *)
Record Nor (X : Type) := mkChip { cells : Z → Z; busy : bool; wel : bool; others : X }.
Arguments mkChip {X}.
Arguments cells {X}.
Arguments busy {X}.
Arguments wel {X}.
Arguments others {X}.

Section Simulated.
Context {X : Type}.

Definition cell (s : Nor X) (x : Z) : Z := u8 (cells s x).
Definition status_byte (s : Nor X) : Z := (if busy s then 1 else 0) + (if wel s then 2 else 0).

#[export] Instance SimSpi : SpiHal (Nor X) := {
  al_spi_init _ _ s := s;
  al_spi_claim_bus _ s := s;
  al_spi_read cmd n s :=
    match cmd with
    | 0x05 :: _ => (0, take (Z.to_nat n) [status_byte s], s)
    | 0x9F :: _ => (0, take (Z.to_nat n) [0xEF; 0x40; 0x18], s)
    | 0x03 :: _ => (0, nor_bytes (cell s) (addr24 cmd) (Z.to_nat n), s)
    | _ => (0, [], s)
    end;
  al_spi_write cmd data s :=
    if busy s then (0, s)
    else match cmd with
         | 0x06 :: _ => (0, mkChip (cells s) false true (others s))
         | 0x02 :: _ =>
             (0, if wel s then mkChip (programmed (cell s) (addr24 cmd) data) true false (others s) else s)
         | 0x20 :: _ => (0, if wel s then mkChip (erased (cell s) (addr24 cmd)) true false (others s) else s)
         | _ => (0, s)
         end;
  MicroSecondDelay _ s := mkChip (cells s) false (wel s) (others s)
}.

Lemma u8_land a v : u8 (Z.land (u8 a) v) = Z.land (u8 a) v.
Proof.
  unfold u8. change (2 ^ 8) with (2 ^ 8). rewrite <- !Z.land_ones by lia.
  rewrite <- !Z.land_assoc, (Z.land_comm v), (Z.land_assoc (Z.ones 8) (Z.ones 8)).
  by rewrite Z.land_diag.
Qed.

Lemma u8_u8 a : u8 (u8 a) = u8 a.
Proof. unfold u8. by rewrite Z.mod_mod. Qed.

#[export] Program Instance SimNorLaws : NorLaws (Nor X) := {
  nor_mem := cell;
  nor_ready s := negb (busy s);
  nor_wel := wel
}.
Next Obligation. intros s x. apply Z.mod_pos_bound. lia. Qed.
Next Obligation. done. Qed.
Next Obligation.
  intros cmd n s err buf s' Hn. simpl. intros E.
  repeat case_match; injection E as <- <- <-; rewrite ?length_take; simpl; try lia.
  unfold nor_bytes. rewrite length_map, length_seqZ. lia.
Qed.
Next Obligation.
  intros s err buf s' [= <- <- <-]. split_and!; [done..|]. intros _. exists (status_byte s).
  split_and!; [done| |]; unfold status_byte; by destruct (busy s), (wel s).
Qed.
Next Obligation. intros base clk hz s s' [-> | ->]; done. Qed.
Next Obligation.
  intros n s err buf s' Hn. simpl. intros [= <- <- <-]. split_and!; [done..|]. intros _.
  rewrite length_take. simpl. lia.
Qed.
Next Obligation. intros s err s'. simpl. destruct (busy s) eqn:E; intros [= <- <-]; rewrite ?E; done. Qed.
Next Obligation.
  intros Addr n s err buf s' Hn. simpl. intros [= <- <- <-]. split_and!; [done..|]. intros _ _.
  do 2 f_equal. apply (addr24_Cmd 3).
Qed.
Next Obligation.
  intros Addr data s s'. simpl. intros Hr Hw _. apply negb_true_iff in Hr. rewrite Hr, Hw.
  intros [= <-] x Hx. pose proof (addr24_Cmd 2 Addr) as HA.
  simpl in HA. rewrite <- HA. unfold cell at 1. simpl. unfold programmed.
  destruct (rd _ _); [apply u8_land|apply u8_u8].
Qed.
Next Obligation.
  intros Addr s s'. simpl. intros Hr Hw. apply negb_true_iff in Hr. rewrite Hr, Hw.
  intros [= <-] x Hx. pose proof (addr24_Cmd 32 Addr) as HA.
  simpl in HA. rewrite <- HA. unfold cell at 1. simpl. unfold erased.
  destruct (_ =? _); [done|apply u8_u8].
Qed.

Lemma sim_flawless : flawless (H := Nor X).
Proof.
  exists (λ s, if busy s then 1%nat else 0%nat). split.
  - intros cmd n s. simpl. by repeat case_match.
  - intros cmd data s. simpl. by repeat case_match.
  - intros s s' err buf s'' Hr. simpl. apply negb_true_iff in Hr. rewrite Hr.
    intros [= <-] [= <- <- <-]. by exists 2.
  - intros s. by destruct (busy s).
  - intros us s err sr s'. simpl. intros [= <- <- <-]. unfold status_byte.
    destruct (busy s); [lia|]. by destruct (wel s).
Qed.
End Simulated.
