(* ===== verification/SpiNor.v ===== *)
(** * The SPI NOR flash driver

    Drivers/SpiNorFlashDxe/SpiNorFlashDxe.c: [EFI_SPI_NOR_FLASH_PROTOCOL] over
    the SPI HAL. A caller's buffer that is written is the list of the bytes
    stored in it so far. *)

From S2P Require Import Prelude Efi Spi.

Definition CMD_READ_ID : Z := 0x9F.
Definition CMD_READ_DATA : Z := 0x03.
Definition CMD_WRITE_ENABLE : Z := 0x06.
Definition CMD_PAGE_PROGRAM : Z := 0x02.
Definition CMD_SECTOR_ERASE : Z := 0x20.
Definition CMD_READ_STATUS : Z := 0x05.
Definition CMD_READ_STATUS2 : Z := 0x35.
Definition CMD_READ_STATUS3 : Z := 0x15.
Definition CMD_WRITE_STATUS : Z := 0x01.
Definition CMD_WRITE_STATUS2 : Z := 0x31.
Definition CMD_WRITE_STATUS3 : Z := 0x11.
Definition FLASH_SIZE : Z := 16 * 1024 * 1024.
Definition FLASH_PAGE_SIZE : Z := 256.
Definition FLASH_SECTOR_SIZE : Z := 4 * 1024.
Definition AL_SPI_BASE : Z := 0xFD882000.
Definition AL_SPI_CLK_HZ : Z := 500000000.
Definition AL_SPI_FLASH_HZ : Z := 30000000.
Definition WIP_POLL_MAX : Z := 10000.
Definition WIP_POLL_DELAY_US : Z := 100.

Section Code.
Context {H : Type} `{SpiHal H}.

(** [int] error codes as status. *)
Definition hal_status (Err : Z) : EFI_STATUS := if Err =? 0 then EFI_SUCCESS else EFI_DEVICE_ERROR.

Definition HalRead (cmd : list Z) (BufLen : Z) (h : H) : EFI_STATUS * list Z * H :=
  let '(Err, Buf, h) := al_spi_read cmd BufLen h in (hal_status Err, Buf, h).

Definition HalWrite (cmd Data : list Z) (h : H) : EFI_STATUS * H :=
  let '(Err, h) := al_spi_write cmd Data h in (hal_status Err, h).

Definition HalCmdOnly (cmd : list Z) (h : H) : EFI_STATUS * H :=
  let '(Err, h) := al_spi_write cmd [] h in (hal_status Err, h).

(** The status and the bytes stored in [*Sr]. *)
Definition FlashReadStatus (StatusCmd : Z) (h : H) : EFI_STATUS * list Z * H :=
  HalRead [StatusCmd] 1 h.

(** The loop that waits for WEL. A status read that succeeds without storing the
    byte leaves [Sr] uninitialised. *)
Fixpoint wait_wel (Retry : nat) (h : H) : option (EFI_STATUS * H) :=
  match Retry with
  | O => Some (EFI_DEVICE_ERROR, h)
  | S Retry' =>
      let '(Status, buf, h) := FlashReadStatus CMD_READ_STATUS h in
      if EFI_ERROR Status then Some (Status, h)
      else
        Sr ← rd buf 0;
        if SR_WEL Sr then Some (EFI_SUCCESS, h) else wait_wel Retry' (MicroSecondDelay 10 h)
  end.

Definition FlashWriteEnable (h : H) : option (EFI_STATUS * H) :=
  let '(Status, h) := HalCmdOnly [CMD_WRITE_ENABLE] h in
  if EFI_ERROR Status then Some (Status, h) else wait_wel 100 h.

Fixpoint wait_ready (Retry : nat) (h : H) : option (EFI_STATUS * H) :=
  match Retry with
  | O => Some (EFI_TIMEOUT, h)
  | S Retry' =>
      let '(Status, buf, h) := FlashReadStatus CMD_READ_STATUS h in
      if EFI_ERROR Status then Some (EFI_DEVICE_ERROR, h)
      else
        Sr ← rd buf 0;
        if negb (SR_WIP Sr) then Some (EFI_SUCCESS, h)
        else wait_ready Retry' (MicroSecondDelay WIP_POLL_DELAY_US h)
  end.

Definition FlashWaitReady (h : H) : option (EFI_STATUS * H) :=
  wait_ready (Z.to_nat WIP_POLL_MAX) h.

(** ** Protocol methods *)

Definition SpiNorGetFlashId (h : H) : EFI_STATUS * list Z * H := HalRead [CMD_READ_ID] 3 h.

(** The chunks of a read from [Offset] on; every chunk is at least a byte. *)
Fixpoint read_chunks (fuel : nat) (FlashAddress LengthInBytes Offset : Z) (h : H)
    : option (EFI_STATUS * list Z * H) :=
  if Offset <? LengthInBytes then
    match fuel with
    | O => None
    | S fuel' =>
        let Chunk := LengthInBytes -u32 Offset in
        let Addr := FlashAddress +u32 Offset in
        let Chunk := if FLASH_SECTOR_SIZE <? Chunk then FLASH_SECTOR_SIZE else Chunk in
        let '(Status, bytes, h) := HalRead (Cmd CMD_READ_DATA Addr) Chunk h in
        if EFI_ERROR Status then Some (EFI_DEVICE_ERROR, bytes, h)
        else
          '(Status, rest, h) ← read_chunks fuel' FlashAddress LengthInBytes (Offset +u32 Chunk) h;
          Some (Status, bytes ++ rest, h)
    end
  else Some (EFI_SUCCESS, [], h).

Definition SpiNorReadData (FlashAddress LengthInBytes : Z) (h : H)
    : option (EFI_STATUS * list Z * H) :=
  if FLASH_SIZE <? FlashAddress +u32 LengthInBytes then Some (EFI_INVALID_PARAMETER, [], h)
  else read_chunks (S (Z.to_nat (LengthInBytes / FLASH_SECTOR_SIZE))) FlashAddress LengthInBytes 0 h.

Definition SpiNorLfReadData (FlashAddress LengthInBytes : Z) (h : H)
    : option (EFI_STATUS * list Z * H) :=
  SpiNorReadData FlashAddress LengthInBytes h.

Definition SpiNorReadStatus (LengthInBytes : Z) (h : H) : EFI_STATUS * list Z * H :=
  if LengthInBytes <? 1 then (EFI_INVALID_PARAMETER, [], h)
  else FlashReadStatus CMD_READ_STATUS h.

(** [write_status cmd val]: write enable, the value, wait. *)
Definition SpiNorWriteStatus (LengthInBytes : Z) (FlashStatus : list Z) (h : H)
    : option (EFI_STATUS * H) :=
  if LengthInBytes <? 1 then Some (EFI_INVALID_PARAMETER, h)
  else
    '(Status, h) ← FlashWriteEnable h;
    if EFI_ERROR Status then Some (Status, h)
    else
      data ← rdn FlashStatus 0 1;
      let '(Status, h) := HalWrite [CMD_WRITE_STATUS] data h in
      if EFI_ERROR Status then Some (Status, h) else FlashWaitReady h.

(** The loop over the pages; [Buffer] is what is left to write. Every turn writes
    at least a byte. *)
Fixpoint write_pages (fuel : nat) (FlashAddress LengthInBytes : Z) (Buffer : list Z) (h : H)
    : option (EFI_STATUS * H) :=
  if 0 <? LengthInBytes then
    match fuel with
    | O => None
    | S fuel' =>
        let PageOffset := Z.land FlashAddress (FLASH_PAGE_SIZE - 1) in
        let ChunkSize := FLASH_PAGE_SIZE -u32 PageOffset in
        let ChunkSize := if LengthInBytes <? ChunkSize then LengthInBytes else ChunkSize in
        '(Status, h) ← FlashWriteEnable h;
        if EFI_ERROR Status then Some (Status, h)
        else
          data ← rdn Buffer 0 ChunkSize;
          let '(Status, h) := HalWrite (Cmd CMD_PAGE_PROGRAM FlashAddress) data h in
          if EFI_ERROR Status then Some (Status, h)
          else
            '(Status, h) ← FlashWaitReady h;
            if EFI_ERROR Status then Some (Status, h)
            else write_pages fuel' (FlashAddress +u32 ChunkSize) (LengthInBytes -u32 ChunkSize)
                   (drop (Z.to_nat ChunkSize) Buffer) h
    end
  else Some (EFI_SUCCESS, h).

Definition SpiNorWriteData (FlashAddress LengthInBytes : Z) (Buffer : list Z) (h : H)
    : option (EFI_STATUS * H) :=
  if FLASH_SIZE <? FlashAddress +u32 LengthInBytes then Some (EFI_INVALID_PARAMETER, h)
  else write_pages (S (length Buffer)) FlashAddress LengthInBytes Buffer h.

(** The loop over the sectors, from sector [Idx]. *)
Fixpoint erase_sectors (n : nat) (FlashAddress Idx : Z) (h : H) : option (EFI_STATUS * H) :=
  match n with
  | O => Some (EFI_SUCCESS, h)
  | S n' =>
      let Addr := FlashAddress +u32 Idx *u32 FLASH_SECTOR_SIZE in
      '(Status, h) ← FlashWriteEnable h;
      if EFI_ERROR Status then Some (Status, h)
      else
        let '(Status, h) := HalCmdOnly (Cmd CMD_SECTOR_ERASE Addr) h in
        if EFI_ERROR Status then Some (Status, h)
        else
          '(Status, h) ← FlashWaitReady h;
          if EFI_ERROR Status then Some (Status, h) else erase_sectors n' FlashAddress (Idx + 1) h
  end.

Definition SpiNorErase (FlashAddress BlockCount : Z) (h : H) : option (EFI_STATUS * H) :=
  if negb (Z.land FlashAddress (FLASH_SECTOR_SIZE - 1) =? 0) then Some (EFI_INVALID_PARAMETER, h)
  else if FLASH_SIZE <? FlashAddress +u32 BlockCount *u32 FLASH_SECTOR_SIZE
  then Some (EFI_INVALID_PARAMETER, h)
  else erase_sectors (Z.to_nat BlockCount) FlashAddress 0 h.

(** ** Entry point *)

(** The protocol instance that stays installed. *)
Record SPI_NOR_FLASH_PROTOCOL := mkNor {
  FlashSize : Z;
  EraseBlockBytes : Z;
  Deviceid : list Z
}.

(** One of the status registers rewritten without its protection bits; the results
    of the three calls are ignored. *)
Definition clear_status (cmd Val : Z) (h : H) : option H :=
  '(_, h) ← FlashWriteEnable h;
  let '(_, h) := HalWrite [cmd] [Val] h in
  '(_, h) ← FlashWaitReady h;
  Some h.

(** The Winbond part: the status registers read (an unread one is uninitialised)
    and their protection bits cleared. *)
Definition clear_protection (h : H) : option H :=
  let '(_, Sr1, h) := FlashReadStatus CMD_READ_STATUS h in
  let '(_, Sr2, h) := FlashReadStatus CMD_READ_STATUS2 h in
  let '(_, Sr3, h) := FlashReadStatus CMD_READ_STATUS3 h in
  Sr1 ← rd Sr1 0; Sr2 ← rd Sr2 0; Sr3 ← rd Sr3 0;
  h ← (if negb (Z.land Sr1 0x7C =? 0)
       then clear_status CMD_WRITE_STATUS (Z.land Sr1 (Z.lnot 0x7C)) h else Some h);
  h ← (if negb (Z.land Sr2 0x40 =? 0)
       then clear_status CMD_WRITE_STATUS2 (Z.land Sr2 (Z.lnot 0x40)) h else Some h);
  if negb (Z.land Sr3 0x04 =? 0)
  then clear_status CMD_WRITE_STATUS3 (Z.land Sr3 (Z.lnot 0x04)) h else Some h.

Definition SpiNorFlashDxeEntry (InstallStatus : EFI_STATUS) (h : H) (p : Pool)
    : option (EFI_STATUS * option SPI_NOR_FLASH_PROTOCOL * H * Pool) :=
  let '(ok, p) := AllocatePool p in
  if negb ok then Some (EFI_OUT_OF_RESOURCES, None, h, p)
  else
    let h := al_spi_claim_bus AL_SPI_FLASH_HZ (al_spi_init AL_SPI_BASE AL_SPI_CLK_HZ h) in
    let '(Status, JedecId, h) := SpiNorGetFlashId h in
    if EFI_ERROR Status then Some (Status, None, h, FreePool p)
    else
      DeviceId ← rdn JedecId 0 3;
      mfr ← rd JedecId 0;
      h ← (if mfr =? 0xEF then clear_protection h else Some h);
      if EFI_ERROR InstallStatus then Some (InstallStatus, None, h, FreePool p)
      else Some (EFI_SUCCESS, Some (mkNor FLASH_SIZE FLASH_SECTOR_SIZE DeviceId), h, p).
End Code.

(** ** The driver against the chip *)

Section Chip.
Context {H : Type} `{NorLaws H}.

Lemma wait_wel_spec n h :
  ∃ st h', wait_wel n h = Some (st, h') ∧ same_mem h h' ∧
    (nor_ready h = true → nor_ready h' = true) ∧ (st = EFI_SUCCESS → nor_wel h' = true) ∧
    (st = EFI_SUCCESS ∨ EFI_ERROR st = true).
Proof.
  revert h. induction n as [|n IH]; intros h; [exists EFI_DEVICE_ERROR, h; split_and!; try done; by right|]. simpl.
  unfold FlashReadStatus, HalRead, CMD_READ_STATUS.
  destruct (al_spi_read [5] 1 h) as [[Err buf] h1] eqn:E.
  apply status_spec in E as (Hm & Hr & Hs). unfold hal_status.
  destruct (Z.eqb_spec Err 0) as [->|]; cbn [EFI_ERROR]; [|eexists _, _; split_and!; try done; by right].
  destruct (Hs eq_refl) as (sr & -> & _ & Hwel). cbn [rd Z.eqb mbind option_bind].
  destruct (SR_WEL sr) eqn:Hsr; [exists EFI_SUCCESS, h1; split_and!; auto|].
  destruct (IH (MicroSecondDelay 10 h1)) as (st & h' & -> & Hm' & Hr' & Hw' & Hst).
  destruct (delay_spec 10 h1) as [Hmd Hrd].
  exists st, h'. split_and!; [done| |auto|done|done].
  eapply same_mem_trans; [exact Hm|]. by eapply same_mem_trans.
Qed.

Lemma WriteEnable_spec h :
  ∃ st h', FlashWriteEnable h = Some (st, h') ∧ same_mem h h' ∧
    (nor_ready h = true → nor_ready h' = true) ∧ (st = EFI_SUCCESS → nor_wel h' = true) ∧
    (st = EFI_SUCCESS ∨ EFI_ERROR st = true) ∧
    (flawless → nor_ready h = true → st = EFI_SUCCESS).
Proof.
  unfold FlashWriteEnable, HalCmdOnly, CMD_WRITE_ENABLE.
  destruct (al_spi_write [6] [] h) as [Err h1] eqn:E.
  pose proof (write_enable_spec _ _ _ E) as [Hm Hr]. unfold hal_status.
  destruct (Z.eqb_spec Err 0) as [->|Hne]; cbn [EFI_ERROR].
  - destruct (wait_wel_spec 100 h1) as (st & h' & Hw & Hm' & Hr' & Hwel & Hst).
    exists st, h'. split_and!; [done|by eapply same_mem_trans|auto|done|done|].
    intros (polls & Hrel) Hready. change 100%nat with (S 99) in Hw. simpl in Hw.
    unfold FlashReadStatus, HalRead, CMD_READ_STATUS in Hw.
    pose proof (rel_read H polls Hrel [5] 1 h1) as Hz.
    destruct (al_spi_read [5] 1 h1) as [[Err buf] h2] eqn:E2. simpl in Hz. subst Err.
    destruct (rel_wel H polls Hrel _ _ _ _ _ Hready E E2) as (sr & -> & Hsr).
    cbn [hal_status Z.eqb EFI_ERROR rd mbind option_bind] in Hw. rewrite Hsr in Hw.
    by injection Hw as <- _.
  - exists EFI_DEVICE_ERROR, h1. split_and!; [done..|by right|]. intros (polls & Hrel) _.
    pose proof (rel_write H polls Hrel [6] [] h) as Hz. by rewrite E in Hz.
Qed.

Lemma wait_ready_spec n h :
  ∃ st h', wait_ready n h = Some (st, h') ∧ same_mem h h' ∧ (st = EFI_SUCCESS → nor_ready h' = true) ∧
    (st = EFI_SUCCESS ∨ EFI_ERROR st = true) ∧
    (∀ polls, nor_reliable H polls → (polls h < n)%nat → st = EFI_SUCCESS).
Proof.
  revert h. induction n as [|n IH]; intros h; [exists EFI_TIMEOUT, h; split_and!; try done; [by right|lia]|].
  simpl. unfold FlashReadStatus, HalRead, CMD_READ_STATUS.
  destruct (al_spi_read [5] 1 h) as [[Err buf] h1] eqn:E.
  pose proof (status_spec _ _ _ _ E) as (Hm & Hr & Hs). unfold hal_status.
  destruct (Z.eqb_spec Err 0) as [->|Hne]; cbn [EFI_ERROR].
  2:{ exists EFI_DEVICE_ERROR, h1. split_and!; [done..|by right|]. intros polls Hrel _.
      pose proof (rel_read H polls Hrel [5] 1 h) as Hz. by rewrite E in Hz. }
  destruct (Hs eq_refl) as (sr & -> & Hwip & _). cbn [rd Z.eqb mbind option_bind].
  destruct (SR_WIP sr) eqn:Hsr; cbn [negb]; [|exists EFI_SUCCESS, h1; split_and!; auto].
  destruct (IH (MicroSecondDelay WIP_POLL_DELAY_US h1)) as (st & h' & -> & Hm' & Hr' & Hst & Hrel').
  destruct (delay_spec WIP_POLL_DELAY_US h1) as [Hmd _].
  exists st, h'. split_and!; [done| |done|done|].
  - eapply same_mem_trans; [exact Hm|]. by eapply same_mem_trans.
  - intros polls Hrel Hlt. apply (Hrel' polls Hrel).
    pose proof (rel_progress H polls Hrel WIP_POLL_DELAY_US _ _ _ _ E Hsr). lia.
Qed.

Lemma WaitReady_spec h :
  ∃ st h', FlashWaitReady h = Some (st, h') ∧ same_mem h h' ∧
    (st = EFI_SUCCESS → nor_ready h' = true) ∧ (st = EFI_SUCCESS ∨ EFI_ERROR st = true) ∧
    (flawless → st = EFI_SUCCESS).
Proof.
  unfold FlashWaitReady. destruct (wait_ready_spec (Z.to_nat WIP_POLL_MAX) h)
    as (st & h' & -> & Hm & Hr & Hst & Hrel).
  exists st, h'. split_and!; [done..|]. intros (polls & Hp). apply (Hrel polls Hp).
  pose proof (rel_polls H polls Hp h). unfold WIP_POLL_MAX. lia.
Qed.

(** ** Reading *)

Lemma read_chunks_spec fuel FA L Offset h :
  0 <= FA → 0 <= Offset <= L → FA + L <= FLASH_SIZE → L - Offset <= Z.of_nat fuel * 4096 →
  ∃ st bytes h', read_chunks fuel FA L Offset h = Some (st, bytes, h') ∧ same_mem h h' ∧
    (nor_ready h = true → nor_ready h' = true) ∧ len bytes <= L - Offset ∧
    (st = EFI_SUCCESS ∨ st = EFI_DEVICE_ERROR) ∧
    (st = EFI_SUCCESS → nor_ready h = true →
       bytes = nor_bytes (nor_mem h) (FA + Offset) (Z.to_nat (L - Offset))) ∧
    (flawless → st = EFI_SUCCESS).
Proof.
  unfold FLASH_SIZE. revert Offset h. induction fuel as [|fuel IH]; intros Offset h HFA HO HL Hf; simpl.
  { rewrite (proj2 (Z.ltb_ge _ _)) by lia. exists EFI_SUCCESS, [], h. split_and!; try done; [simpl; lia|auto|].
    intros _ _. by replace (L - Offset) with 0 by lia. }
  destruct (Z.ltb_spec Offset L) as [Hlt|Hge].
  2:{ exists EFI_SUCCESS, [], h. split_and!; try done; [simpl; lia|auto|].
      intros _ _. by replace (L - Offset) with 0 by lia. }
  rewrite (u32_small (L - Offset)), (u32_small (FA + Offset)) by lia.
  unfold FLASH_SECTOR_SIZE, HalRead, CMD_READ_DATA.
  set (Chunk := if 4 * 1024 <? L - Offset then 4 * 1024 else L - Offset).
  assert (HC : 0 < Chunk ∧ Chunk <= L - Offset ∧ Chunk <= 4096 ∧ L - Offset - Chunk <= Z.of_nat fuel * 4096).
  { unfold Chunk. case_b; b2p; lia. }
  clearbody Chunk. destruct HC as (HC1 & HC2 & HC3 & HC4).
  destruct (al_spi_read (Cmd 3 (FA + Offset)) Chunk h) as [[Err buf] h1] eqn:E.
  assert (Hbl : len buf <= Chunk) by (eapply read_length, E; lia).
  pose proof E as Hsp. apply read_data_spec in Hsp as (Hm & Hr & Hd); [|lia]. unfold hal_status.
  destruct (Z.eqb_spec Err 0) as [->|Hne]; cbn [EFI_ERROR].
  2:{ exists EFI_DEVICE_ERROR, buf, h1. split_and!; try done; [lia|auto|].
      intros (polls & Hrel). pose proof (rel_read H polls Hrel (Cmd 3 (FA + Offset)) Chunk h) as Hz.
      by rewrite E in Hz. }
  rewrite u32_small by lia.
  destruct (IH (Offset + Chunk) h1) as (st & rest & h2 & -> & Hm2 & Hr2 & Hl2 & Hst & Hd2 & Hrel);
    [lia..|]. cbn [mbind option_bind].
  exists st, (buf ++ rest), h2. split_and!; [done|by eapply same_mem_trans|auto| |done| |done].
  - rewrite length_app. lia.
  - intros Hs Hrd. rewrite (Hd eq_refl Hrd), (Hd2 Hs (Hr Hrd)).
    rewrite (nor_bytes_same h h1) by done. rewrite Z.mod_small by (unfold NOR_SIZE; lia).
    replace (Z.to_nat (L - Offset)) with (Z.to_nat Chunk + Z.to_nat (L - (Offset + Chunk)))%nat by lia.
    rewrite nor_bytes_app. do 2 f_equal. lia.
Qed.

(** ** Writing *)

Lemma programmed_app mem a d1 d2 x :
  programmed (programmed mem a d1) (a + len d1) d2 x = programmed mem a (d1 ++ d2) x.
Proof.
  unfold programmed. destruct (decide (x - a < len d1)) as [Hlt|Hge].
  - rewrite (rd_app_l d1) by done. rewrite (rd_None d2) by lia. done.
  - rewrite (rd_app_r d1) by lia. replace (x - (a + len d1)) with (x - a - len d1) by lia.
    destruct (rd d2 _); rewrite (rd_None d1) by lia; done.
Qed.

Lemma programmed_ext m1 m2 a d x : m1 x = m2 x → programmed m1 a d x = programmed m2 a d x.
Proof. unfold programmed. intros ->. done. Qed.

Lemma page_offset FA : 0 <= FA → Z.land FA (FLASH_PAGE_SIZE - 1) = FA mod 256.
Proof. intros. change (FLASH_PAGE_SIZE - 1) with (Z.ones 8). by rewrite Z.land_ones by lia. Qed.

(** The write loop: on success exactly the requested bytes are programmed. *)
Lemma write_pages_spec fuel FA L Buffer h :
  nor_ready h = true → 0 <= FA → 0 <= L → FA + L <= FLASH_SIZE → len Buffer = L → L < Z.of_nat fuel →
  ∃ st h', write_pages fuel FA L Buffer h = Some (st, h') ∧
    (st = EFI_SUCCESS → nor_ready h' = true ∧
       ∀ x, 0 <= x < NOR_SIZE → nor_mem h' x = programmed (nor_mem h) FA Buffer x) ∧
    (flawless → st = EFI_SUCCESS).
Proof.
  unfold FLASH_SIZE. revert FA L Buffer h.
  induction fuel as [|fuel IH]; intros FA L Buffer h Hrd HFA HL Hle Hb Hf; [lia|]. cbn [write_pages].
  destruct (Z.ltb_spec 0 L) as [Hpos|Hz].
  2:{ exists EFI_SUCCESS, h. split_and!; [done| |done]. intros _. split; [done|]. intros x _.
      unfold programmed. by rewrite (rd_None Buffer) by lia. }
  rewrite page_offset by done. pose proof (Z.mod_pos_bound FA 256 ltac:(lia)).
  change (FLASH_PAGE_SIZE -u32 FA mod 256) with (u32 (256 - FA mod 256)).
  rewrite (u32_small (256 - FA mod 256)) by lia.
  set (C := if L <? 256 - FA mod 256 then L else 256 - FA mod 256).
  assert (HC : 0 < C ∧ C <= L ∧ FA mod 256 + C <= 256) by (unfold C; case_b; b2p; lia).
  clearbody C. destruct HC as (HC1 & HC2 & HC3).
  destruct (WriteEnable_spec h) as (st1 & h1 & -> & Hm1 & Hr1 & Hw1 & [-> | He] & Hrel1);
    cbn [mbind option_bind EFI_ERROR].
  2:{ rewrite He. exists st1, h1. split_and!; [done|intros ->; done|]. auto. }
  rewrite rdn_eq by lia. rewrite drop_0. cbn [mbind option_bind].
  unfold HalWrite, CMD_PAGE_PROGRAM.
  destruct (al_spi_write (Cmd 2 FA) (take (Z.to_nat C) Buffer) h1) as [Err h2] eqn:E.
  unfold hal_status. destruct (Z.eqb_spec Err 0) as [->|Hne]; cbn [EFI_ERROR].
  2:{ exists EFI_DEVICE_ERROR, h2. split_and!; [done|done|]. intros (polls & Hrel).
      pose proof (rel_write H polls Hrel (Cmd 2 FA) (take (Z.to_nat C) Buffer) h1) as Hz.
      by rewrite E in Hz. }
  assert (Hlt : len (take (Z.to_nat C) Buffer) = C) by (rewrite length_take; lia).
  assert (Hpg : FA mod 256 + len (take (Z.to_nat C) Buffer) <= 256) by lia.
  pose proof (program_spec _ _ _ _ (Hr1 Hrd) (Hw1 eq_refl) Hpg E) as Hp.
  rewrite (Z.mod_small FA) in Hp by (unfold NOR_SIZE; lia).
  destruct (WaitReady_spec h2) as (st3 & h3 & -> & Hm3 & Hr3 & [-> | He] & Hrel3);
    cbn [mbind option_bind EFI_ERROR].
  2:{ rewrite He. exists st3, h3. split_and!; [done|intros ->; done|]. auto. }
  rewrite (u32_small (FA + C)), (u32_small (L - C)) by lia.
  destruct (IH (FA + C) (L - C) (drop (Z.to_nat C) Buffer) h3) as (st & h' & -> & Hok & Hrel);
    [by apply Hr3|lia|lia|lia|rewrite length_drop; lia|lia|].
  exists st, h'. split_and!; [done| |done]. intros Hs. destruct (Hok Hs) as [Hrd' Hmem].
  split; [done|]. intros x Hx. rewrite Hmem by done.
  rewrite (programmed_ext _ (programmed (nor_mem h) FA (take (Z.to_nat C) Buffer))).
  2:{ rewrite (Hm3 x), Hp by done. apply programmed_ext. apply Hm1. }
  replace (FA + C) with (FA + len (take (Z.to_nat C) Buffer)) by lia.
  by rewrite programmed_app, take_drop.
Qed.

(** ** Erasing *)

(** Sector [x / 4096] is among those the loop addresses. *)
Definition hit (FA Idx n x : Z) : Prop :=
  Exists (λ j, (FA + j * 4096) mod NOR_SIZE / 4096 = x / 4096) (seqZ Idx n).

Lemma hit_iff FA Idx n x :
  hit FA Idx n x ↔ ∃ j, Idx <= j < Idx + n ∧ (FA + j * 4096) mod NOR_SIZE / 4096 = x / 4096.
Proof.
  unfold hit. rewrite list.Exists_exists. setoid_rewrite elem_of_seqZ. naive_solver.
Qed.

Lemma hit_S FA Idx n x :
  hit FA Idx (Z.of_nat (S n)) x ↔
    (FA + Idx * 4096) mod NOR_SIZE / 4096 = x / 4096 ∨ hit FA (Idx + 1) (Z.of_nat n) x.
Proof.
  unfold hit. rewrite seqZ_cons by lia. rewrite Exists_cons.
  by replace (Z.pred (Z.of_nat (S n))) with (Z.of_nat n) by lia.
Qed.

Lemma erase_sectors_spec n FA Idx h :
  nor_ready h = true → 0 <= FA → 0 <= Idx → Idx + Z.of_nat n < 2 ^ 32 →
  ∃ st h', erase_sectors n FA Idx h = Some (st, h') ∧
    (st = EFI_SUCCESS → nor_ready h' = true ∧ ∀ x, 0 <= x < NOR_SIZE →
       (hit FA Idx (Z.of_nat n) x → nor_mem h' x = 0xFF) ∧
       (~ hit FA Idx (Z.of_nat n) x → nor_mem h' x = nor_mem h x)) ∧
    (flawless → st = EFI_SUCCESS).
Proof.
  revert Idx h. induction n as [|n IH]; intros Idx h Hrd HFA HI Hn; cbn [erase_sectors].
  { exists EFI_SUCCESS, h. split_and!; [done| |done]. intros _. split; [done|]. intros x Hx.
    split; [|done]. rewrite hit_iff. intros (j & Hj & _). lia. }
  destruct (WriteEnable_spec h) as (st1 & h1 & -> & Hm1 & Hr1 & Hw1 & [-> | He] & Hrel1);
    cbn [mbind option_bind EFI_ERROR].
  2:{ rewrite He. exists st1, h1. split_and!; [done|intros ->; done|]. auto. }
  unfold HalCmdOnly, CMD_SECTOR_ERASE.
  destruct (al_spi_write (Cmd 32 _) [] h1) as [Err h2] eqn:E.
  unfold hal_status. destruct (Z.eqb_spec Err 0) as [->|Hne]; cbn [EFI_ERROR].
  2:{ exists EFI_DEVICE_ERROR, h2. split_and!; [done|done|]. intros (polls & Hrel).
      match type of E with al_spi_write ?c ?d ?g = _ => pose proof (rel_write H polls Hrel c d g) as Hz end.
      by rewrite E in Hz. }
  pose proof (erase_spec _ _ _ (Hr1 Hrd) (Hw1 eq_refl) E) as Hp.
  assert (Hmod : (FA +u32 Idx *u32 FLASH_SECTOR_SIZE) mod NOR_SIZE = (FA + Idx * 4096) mod NOR_SIZE).
  { unfold u32, NOR_SIZE, FLASH_SECTOR_SIZE. change (4 * 1024) with 4096.
    rewrite Z.add_mod_idemp_r by lia.
    apply Z.mod_mod_divide. by exists (2 ^ 8). }
  rewrite Hmod in Hp.
  destruct (WaitReady_spec h2) as (st3 & h3 & -> & Hm3 & Hr3 & [-> | He] & Hrel3);
    cbn [mbind option_bind EFI_ERROR].
  2:{ rewrite He. exists st3, h3. split_and!; [done|intros ->; done|]. auto. }
  destruct (IH (Idx + 1) h3) as (st & h' & -> & Hok & Hrel); [by apply Hr3|lia..|].
  exists st, h'. split_and!; [done| |done]. intros Hs. destruct (Hok Hs) as [Hrd' Hmem].
  split; [done|]. intros x Hx. destruct (Hmem x Hx) as [Hin Hout].
  assert (Hstep : nor_mem h3 x = if decide ((FA + Idx * 4096) mod NOR_SIZE / 4096 = x / 4096)
                                 then 0xFF else nor_mem h x).
  { rewrite Hm3, Hp by done. unfold erased. rewrite Hm1. case_decide as Hd.
    - by rewrite Hd, Z.eqb_refl.
    - by rewrite (proj2 (Z.eqb_neq _ _)) by congruence. }
  rewrite hit_S. destruct (decide (hit FA (Idx + 1) (Z.of_nat n) x)) as [Hh|Hh].
  - split; [auto|tauto].
  - rewrite (Hout Hh), Hstep. case_decide; tauto.
Qed.

(** The sectors of a request inside the flash. *)
Lemma hit_inside FA n x :
  0 <= FA → FA mod 4096 = 0 → FA + n * 4096 <= NOR_SIZE → 0 <= x →
  hit FA 0 n x ↔ FA <= x < FA + n * 4096.
Proof.
  intros HFA Hal Hle Hx. unfold NOR_SIZE in *. rewrite hit_iff.
  pose proof (Z.div_mod FA 4096). pose proof (Z.div_mod x 4096).
  pose proof (Z.mod_pos_bound x 4096 ltac:(lia)).
  assert (Hs : ∀ j, 0 <= j < n → (FA + j * 4096) mod NOR_SIZE / 4096 = FA / 4096 + j).
  { intros j Hj. unfold NOR_SIZE. rewrite Z.mod_small by nia. by rewrite Z.div_add by done. }
  split.
  - intros (j & Hj & Heq). rewrite Hs in Heq by lia. lia.
  - intros Hr. exists (x / 4096 - FA / 4096). split; [lia|]. rewrite Hs by lia. lia.
Qed.

(** A request of at least as many sectors as the chip has addresses them all. *)
Lemma hit_all FA n x : 0 <= FA → 4096 <= n → 0 <= x < NOR_SIZE → FA mod 4096 = 0 → hit FA 0 n x.
Proof.
  intros HFA Hn Hx Hal. rewrite hit_iff. unfold NOR_SIZE in *.
  exists ((x / 4096 - FA / 4096) mod 4096).
  pose proof (Z.mod_pos_bound (x / 4096 - FA / 4096) 4096 ltac:(lia)). split; [lia|].
  pose proof (Z.div_mod FA 4096). pose proof (Z.div_mod (x / 4096 - FA / 4096) 4096).
  set (q := (x / 4096 - FA / 4096) / 4096) in *.
  replace (FA + (x / 4096 - FA / 4096) mod 4096 * 4096) with (x / 4096 * 4096 + (- q) * 2 ^ 24) by lia.
  rewrite Z_mod_plus_full. pose proof (Z.div_mod x 4096).
  pose proof (Z.mod_pos_bound x 4096 ltac:(lia)).
  rewrite Z.mod_small by lia. by rewrite Z.div_mul.
Qed.
End Chip.

(** ** Properties *)

Lemma ReadData_run {H} `{NorLaws H} (h : H) FlashAddress LengthInBytes :
  0 <= FlashAddress → 0 <= LengthInBytes → FlashAddress + LengthInBytes < 2 ^ 32 →
  if FlashAddress + LengthInBytes <=? FLASH_SIZE then
    ∃ st bytes h', SpiNorReadData FlashAddress LengthInBytes h = Some (st, bytes, h') ∧
      same_mem h h' ∧ len bytes <= LengthInBytes ∧
      (st = EFI_SUCCESS ∨ st = EFI_DEVICE_ERROR) ∧
      (st = EFI_SUCCESS → nor_ready h = true →
         bytes = nor_bytes (nor_mem h) FlashAddress (Z.to_nat LengthInBytes)) ∧
      (flawless (H := H) → st = EFI_SUCCESS)
  else SpiNorReadData FlashAddress LengthInBytes h = Some (EFI_INVALID_PARAMETER, [], h).
Proof.
  intros HF HL Hsum. unfold SpiNorReadData. rewrite u32_small by lia.
  destruct (Z.leb_spec (FlashAddress + LengthInBytes) FLASH_SIZE) as [Hle|Hgt].
  2:{ by rewrite (proj2 (Z.ltb_lt _ _)) by lia. }
  rewrite (proj2 (Z.ltb_ge _ _)) by lia.
  assert (Hfuel : LengthInBytes - 0 <= Z.of_nat (S (Z.to_nat (LengthInBytes / FLASH_SECTOR_SIZE))) * 4096).
  { change FLASH_SECTOR_SIZE with 4096. pose proof (Z.div_mod LengthInBytes 4096).
    pose proof (Z.mod_pos_bound LengthInBytes 4096). pose proof (Z.div_pos LengthInBytes 4096). lia. }
  destruct (read_chunks_spec _ FlashAddress LengthInBytes 0 h HF ltac:(lia) Hle Hfuel)
    as (st & b & h' & -> & Hm & _ & Hlb & Hst & Hd & Hfl).
  exists st, b, h'. split_and!; try done; [lia|]. intros Hs Hr. rewrite (Hd Hs Hr).
  f_equal; [lia|f_equal; lia].
Qed.

(** Reading: a request inside the flash returns exactly the bytes of the chip at
    the address, whatever number of chunks it takes, or stops with
    EFI_DEVICE_ERROR; reading never changes the contents; on a flawless device it
    succeeds. A request whose end lies outside the flash, and does not wrap in 32
    bits, is refused without a transfer. *)
Theorem ReadData_exact {H} `{NorLaws H} (h : H) FlashAddress LengthInBytes :
  0 <= FlashAddress → 0 <= LengthInBytes → FlashAddress + LengthInBytes < 2 ^ 32 →
  if FlashAddress + LengthInBytes <=? FLASH_SIZE then
    ∃ st bytes h', SpiNorReadData FlashAddress LengthInBytes h = Some (st, bytes, h') ∧
      same_mem h h' ∧ len bytes <= LengthInBytes ∧
      (st = EFI_SUCCESS ∨ st = EFI_DEVICE_ERROR) ∧
      (st = EFI_SUCCESS → nor_ready h = true →
         bytes = nor_bytes (nor_mem h) FlashAddress (Z.to_nat LengthInBytes)) ∧
      (flawless (H := H) → st = EFI_SUCCESS)
  else SpiNorReadData FlashAddress LengthInBytes h = Some (EFI_INVALID_PARAMETER, [], h).
Proof. apply ReadData_run. Qed.

(** Writing: on a chip that is ready, a write inside the flash splits the data
    at the page boundaries so that on success every byte of the range is
    programmed with its byte of the buffer and no other byte changes; on a
    flawless device it succeeds. *)
Theorem WriteData_exact {H} `{NorLaws H} (h : H) FlashAddress Buffer :
  nor_ready h = true → 0 <= FlashAddress → FlashAddress + len Buffer <= FLASH_SIZE →
  ∃ st h', SpiNorWriteData FlashAddress (len Buffer) Buffer h = Some (st, h') ∧
    (st = EFI_SUCCESS → nor_ready h' = true ∧
       ∀ x, 0 <= x < NOR_SIZE → nor_mem h' x = programmed (nor_mem h) FlashAddress Buffer x) ∧
    (flawless (H := H) → st = EFI_SUCCESS).
Proof.
  intros Hr HF Hle. unfold SpiNorWriteData.
  rewrite u32_small by (unfold FLASH_SIZE in *; lia). rewrite (proj2 (Z.ltb_ge _ _)) by lia.
  apply write_pages_spec; (done || lia).
Qed.

(** The erase of an aligned request. *)
Lemma Erase_run {H} `{NorLaws H} (h : H) FlashAddress BlockCount :
  nor_ready h = true → 0 <= FlashAddress → FlashAddress mod 4096 = 0 → 0 <= BlockCount < 2 ^ 32 →
  FlashAddress +u32 BlockCount *u32 FLASH_SECTOR_SIZE <= FLASH_SIZE →
  ∃ st h', SpiNorErase FlashAddress BlockCount h = Some (st, h') ∧
    (st = EFI_SUCCESS → nor_ready h' = true ∧ ∀ x, 0 <= x < NOR_SIZE →
       (hit FlashAddress 0 BlockCount x → nor_mem h' x = 0xFF) ∧
       (~ hit FlashAddress 0 BlockCount x → nor_mem h' x = nor_mem h x)) ∧
    (flawless (H := H) → st = EFI_SUCCESS).
Proof.
  intros Hr HF Hal HB Hle. unfold SpiNorErase.
  change (FLASH_SECTOR_SIZE - 1) with (Z.ones 12). rewrite Z.land_ones by lia.
  change (2 ^ 12) with 4096. rewrite Hal. cbn [Z.eqb negb].
  rewrite (proj2 (Z.ltb_ge _ _)) by lia.
  destruct (erase_sectors_spec (Z.to_nat BlockCount) FlashAddress 0 h) as (st & h' & -> & Hok & Hfl);
    [done|done|lia|lia|]. rewrite Z2Nat.id in Hok by lia. by exists st, h'.
Qed.

(** Erasing: on a chip that is ready, a request for whole sectors inside the
    flash sets exactly their bytes to 0xFF when it succeeds, and on a flawless
    device it succeeds. *)
Theorem Erase_exact {H} `{NorLaws H} (h : H) FlashAddress BlockCount :
  nor_ready h = true → 0 <= FlashAddress → FlashAddress mod 4096 = 0 → 0 <= BlockCount →
  FlashAddress + BlockCount * 4096 <= FLASH_SIZE →
  ∃ st h', SpiNorErase FlashAddress BlockCount h = Some (st, h') ∧
    (st = EFI_SUCCESS → nor_ready h' = true ∧ ∀ x, 0 <= x < NOR_SIZE →
       nor_mem h' x = if zbetween FlashAddress x (FlashAddress + BlockCount * 4096 - 1)
                      then 0xFF else nor_mem h x) ∧
    (flawless (H := H) → st = EFI_SUCCESS).
Proof.
  intros Hr HF Hal HB Hle. unfold FLASH_SIZE in Hle.
  destruct (Erase_run h FlashAddress BlockCount) as (st & h' & HE & Hok & Hfl); [done..|lia| |].
  { change FLASH_SECTOR_SIZE with 4096. rewrite (u32_small (BlockCount * 4096)), u32_small by lia.
    unfold FLASH_SIZE. lia. }
  exists st, h'. split_and!; [done| |done]. intros Hs. destruct (Hok Hs) as [Hrd Hm].
  split; [done|]. intros x Hx. destruct (Hm x Hx) as [Hin Hout].
  rewrite (hit_inside FlashAddress BlockCount x) in * by (unfold NOR_SIZE; lia).
  destruct (zbetween _ _ _) eqn:E.
  - apply zbetween_spec in E. apply Hin. lia.
  - apply Hout. intros Hr'. assert (Ht : zbetween FlashAddress x (FlashAddress + BlockCount * 4096 - 1) = true)
      by (apply zbetween_spec; lia). congruence.
Qed.

Lemma land_255 v : byte_ok v → Z.land 0xFF v = v.
Proof.
  intros Hv. rewrite Z.land_comm. change 0xFF with (Z.ones 8). rewrite Z.land_ones by lia.
  by apply Z.mod_small.
Qed.

(** C24: Updating the flash: on a flawless, ready device, erasing sectors, writing
    data that fits in them at their start and reading it back returns the data,
    and everything outside the sectors is as before. *)
Theorem update_roundtrip {H} `{NorLaws H} (h : H) FlashAddress BlockCount data :
  flawless (H := H) → nor_ready h = true → 0 <= FlashAddress → FlashAddress mod 4096 = 0 →
  0 <= BlockCount → FlashAddress + BlockCount * 4096 <= FLASH_SIZE →
  len data <= BlockCount * 4096 → Forall byte_ok data →
  ∃ h1 h2 h3,
    SpiNorErase FlashAddress BlockCount h = Some (EFI_SUCCESS, h1) ∧
    SpiNorWriteData FlashAddress (len data) data h1 = Some (EFI_SUCCESS, h2) ∧
    SpiNorReadData FlashAddress (len data) h2 = Some (EFI_SUCCESS, data, h3) ∧
    ∀ x, 0 <= x < NOR_SIZE → ~ (FlashAddress <= x < FlashAddress + BlockCount * 4096) →
      nor_mem h3 x = nor_mem h x.
Proof.
  intros Hfl Hr HF Hal HB Hle Hfit Hb. unfold FLASH_SIZE in Hle.
  destruct (Erase_run h FlashAddress BlockCount) as (st & h1 & HE & Hok & Hrel); [done..|lia| |].
  { change FLASH_SECTOR_SIZE with 4096. rewrite (u32_small (BlockCount * 4096)), u32_small by lia.
    unfold FLASH_SIZE. lia. }
  rewrite (Hrel Hfl) in *. destruct (Hok eq_refl) as [Hr1 Hm1]. exists h1.
  unfold SpiNorWriteData. rewrite u32_small by lia.
  rewrite (proj2 (Z.ltb_ge _ _)) by (unfold FLASH_SIZE; lia).
  destruct (write_pages_spec (S (length data)) FlashAddress (len data) data h1)
    as (st2 & h2 & HW & Hok2 & Hrel2); [done|done|lia|unfold FLASH_SIZE; lia|done|lia|].
  rewrite (Hrel2 Hfl) in *. destruct (Hok2 eq_refl) as [Hr2 Hm2]. exists h2.
  unfold SpiNorReadData. rewrite u32_small by lia.
  rewrite (proj2 (Z.ltb_ge _ _)) by (unfold FLASH_SIZE; lia).
  assert (Hfuel : len data - 0 <= Z.of_nat (S (Z.to_nat (len data / FLASH_SECTOR_SIZE))) * 4096).
  { change FLASH_SECTOR_SIZE with 4096. pose proof (Z.div_mod (len data) 4096).
    pose proof (Z.mod_pos_bound (len data) 4096). pose proof (Z.div_pos (len data) 4096). lia. }
  destruct (read_chunks_spec (S (Z.to_nat (len data / FLASH_SECTOR_SIZE))) FlashAddress (len data) 0 h2)
    as (st3 & b & h3 & HR & Hm3 & _ & _ & _ & Hd & Hrel3);
    [done|lia|unfold FLASH_SIZE; lia|exact Hfuel|].
  rewrite (Hrel3 Hfl) in *. exists h3. split_and!; [done|done| |].
  - rewrite HR. do 3 f_equal. rewrite (Hd eq_refl Hr2). replace (FlashAddress + 0) with FlashAddress by lia.
    replace (Z.to_nat (len data - 0)) with (length data) by lia.
    apply list_eq. intros i. unfold nor_bytes. rewrite list_lookup_fmap.
    destruct (decide (i < length data)%nat) as [Hi|Hi].
    2:{ rewrite lookup_seqZ_ge by lia. rewrite lookup_ge_None_2 by lia. done. }
    rewrite lookup_seqZ_lt by lia. simpl.
    rewrite Z.mod_small by (unfold NOR_SIZE; lia). rewrite Hm2 by (unfold NOR_SIZE; lia).
    unfold programmed. replace (FlashAddress + Z.of_nat i - FlashAddress) with (Z.of_nat i) by lia.
    rewrite rd_lookup, Nat2Z.id by lia.
    destruct (lookup_lt_is_Some_2 data i Hi) as [v Hv]. rewrite Hv. f_equal.
    destruct (Hm1 (FlashAddress + Z.of_nat i)) as [Hin _]; [unfold NOR_SIZE; lia|].
    rewrite Hin by (apply hit_inside; unfold NOR_SIZE; lia). apply land_255.
    by eapply list.Forall_lookup_1.
  - intros x Hx Hout. rewrite Hm3, Hm2 by done. unfold programmed. rewrite rd_None by lia.
    apply Hm1; [done|]. rewrite hit_inside by (unfold NOR_SIZE; lia). done.
Qed.

(** Where the driver goes wrong: [FlashAddress + BlockCount * 4096] is computed in
    32 bits, so a request far beyond the flash is accepted when the sum wraps to
    a value inside it; the chip decodes 24 address bits, and such a request of at
    least 4096 sectors erases the whole flash. *)
Theorem Erase_wraps {H} `{NorLaws H} (h : H) FlashAddress BlockCount :
  flawless (H := H) → nor_ready h = true → 0 <= FlashAddress → FlashAddress mod 4096 = 0 →
  4096 <= BlockCount < 2 ^ 32 → FLASH_SIZE < FlashAddress + BlockCount * 4096 →
  u32 (FlashAddress + BlockCount * 4096) <= FLASH_SIZE →
  ∃ h', SpiNorErase FlashAddress BlockCount h = Some (EFI_SUCCESS, h') ∧
    ∀ x, 0 <= x < NOR_SIZE → nor_mem h' x = 0xFF.
Proof.
  intros Hfl Hr HF Hal HB Hout Hw.
  destruct (Erase_run h FlashAddress BlockCount) as (st & h' & HE & Hok & Hrel); [done..|lia| |].
  { change FLASH_SECTOR_SIZE with 4096. unfold u32. by rewrite Z.add_mod_idemp_r. }
  rewrite (Hrel Hfl) in *. exists h'. split; [done|]. intros x Hx.
  apply (proj2 (Hok eq_refl) x Hx). apply hit_all; (done || lia).
Qed.

(** ** Witnesses, on the simulated chip *)

Definition demo_chip : Nor unit := mkChip (λ x, x) false false tt.

Lemma ReadData_exact_witness :
  SpiNorReadData 16 3 demo_chip = Some (EFI_SUCCESS, [16; 17; 18], demo_chip) ∧
  (∃ st bytes h', SpiNorReadData 16 3 demo_chip = Some (st, bytes, h') ∧
    same_mem demo_chip h' ∧ len bytes <= 3 ∧
    (st = EFI_SUCCESS ∨ st = EFI_DEVICE_ERROR) ∧
    (st = EFI_SUCCESS → nor_ready demo_chip = true →
       bytes = nor_bytes (nor_mem demo_chip) 16 (Z.to_nat 3)) ∧
    (flawless (H := Nor unit) → st = EFI_SUCCESS)).
Proof.
  split; [vm_compute; reflexivity|].
  exact (ReadData_exact demo_chip 16 3 ltac:(lia) ltac:(lia) ltac:(lia)).
Defined.

(** A write over a page boundary. *)
Lemma WriteData_exact_witness :
  ∃ st h', SpiNorWriteData 255 2 [0xF0; 0x0F] demo_chip = Some (st, h') ∧
    (st = EFI_SUCCESS → nor_ready h' = true ∧
       ∀ x, 0 <= x < NOR_SIZE → nor_mem h' x = programmed (nor_mem demo_chip) 255 [0xF0; 0x0F] x) ∧
    (flawless (H := Nor unit) → st = EFI_SUCCESS).
Proof. exact (WriteData_exact demo_chip 255 [0xF0; 0x0F] eq_refl ltac:(lia) ltac:(done)). Defined.

Lemma Erase_exact_witness :
  ∃ st h', SpiNorErase 8192 2 demo_chip = Some (st, h') ∧
    (st = EFI_SUCCESS → nor_ready h' = true ∧ ∀ x, 0 <= x < NOR_SIZE →
       nor_mem h' x = if zbetween 8192 x (8192 + 2 * 4096 - 1) then 0xFF else nor_mem demo_chip x) ∧
    (flawless (H := Nor unit) → st = EFI_SUCCESS).
Proof.
  exact (Erase_exact demo_chip 8192 2 eq_refl ltac:(lia) eq_refl ltac:(lia) ltac:(done)).
Defined.

Lemma update_roundtrip_witness :
  ∃ h1 h2 h3,
    SpiNorErase 4096 1 demo_chip = Some (EFI_SUCCESS, h1) ∧
    SpiNorWriteData 4096 3 [1; 2; 3] h1 = Some (EFI_SUCCESS, h2) ∧
    SpiNorReadData 4096 3 h2 = Some (EFI_SUCCESS, [1; 2; 3], h3) ∧
    ∀ x, 0 <= x < NOR_SIZE → ~ (4096 <= x < 4096 + 1 * 4096) → nor_mem h3 x = nor_mem demo_chip x.
Proof.
  apply (update_roundtrip demo_chip 4096 1 [1; 2; 3] sim_flawless); try done.
  repeat constructor; done.
Defined.

(** The sum is exactly 2^32. *)
Lemma Erase_wraps_witness :
  ∃ h', SpiNorErase 4096 1048575 demo_chip = Some (EFI_SUCCESS, h') ∧
    ∀ x, 0 <= x < NOR_SIZE → nor_mem h' x = 0xFF.
Proof. apply (Erase_wraps demo_chip 4096 1048575 sim_flawless); done. Defined.
