(* ===== verification/SpiLoader.v ===== *)
(** * The SPI loader

    SpiLoader/: the second-stage loader the boot ROM starts from the flash at
    0x04000000. It reads an AArch64 ELF image from the second half of the same
    flash, places its segments in memory and jumps to it with the MMU and the
    caches off. The machine is the devices' state, the memory the CPU sees
    ([mem]), and the memory behind the data cache ([ram]), which a cache clean
    brings up to date. The loader's own objects (the ELF header on the stack,
    the static program headers) live in [mem], so a segment loaded over them
    would change what the loop reads next. Every address is taken to be memory:
    the device registers are reached through [Mmio] only. *)

From S2P Require Import Prelude Efi Spi.
From Stdlib Require Import Ascii.
From Stdlib Require Import (notations) String.

(** The linker script's symbols, where the compiler put the two objects, the
    cache type register, and a bound on the polls of the transmitter. *)
Class Platform := {
  __stack_top : Z;
  Header_addr : Z;
  mProgramHeaders : Z;
  ctr_el0 : Z;
  uart_fuel : nat
}.

Record Machine (H : Type) := mkMachine { dev : H; mem : Z → Z; ram : Z → Z }.
Arguments mkMachine {H}.
Arguments dev {H}.
Arguments mem {H}.
Arguments ram {H}.

(** A call returns, or the machine is parked in [SpiloaderPanic]. *)
Inductive outcome (A : Type) := Done (a : A) | Panicked.
Arguments Done {A}.
Arguments Panicked {A}.

(** ** Constants of spiloader.h *)

Definition SPILOADER_LOAD_ADDR : Z := 0x04000000.
Definition SPILOADER_MAX_IMAGE_SIZE : Z := 8 * 1024 * 1024.
Definition CCR2004_UART0_BASE : Z := 0xFD883000.
Definition CCR2004_UART_REG_SHIFT : Z := 2.
Definition CCR2004_UART_CLOCK_HZ : Z := 500000000.
Definition CCR2004_UART_BAUD : Z := 115200.
Definition CCR2004_SPI_BASE : Z := 0xFD882000.
Definition CCR2004_SPI_CLOCK_HZ : Z := 500000000.
Definition CCR2004_SPI_MAX_HZ : Z := 30000000.
Definition CCR2004_SPI_FLASH_OFFSET : Z := 0x00800000.
Definition SPI_NOR_CMD_READ_DATA : Z := 0x03.
Definition SPI_NOR_CMD_READ_ID : Z := 0x9F.
Definition PT_LOAD : Z := 1.
Definition ELFCLASS64 : Z := 2.
Definition ELFDATA2LSB : Z := 1.
Definition EV_CURRENT : Z := 1.
Definition EM_AARCH64 : Z := 183.
Definition SPILOADER_PHDR_LIMIT : Z := 32.
Definition UART_THR : Z := 0.
Definition UART_DLL : Z := 0.
Definition UART_IER : Z := 1.
Definition UART_DLM : Z := 1.
Definition UART_FCR : Z := 2.
Definition UART_LCR : Z := 3.
Definition UART_MCR : Z := 4.
Definition UART_LSR : Z := 5.
Definition UART_LCR_DLAB : Z := 0x80.
Definition UART_LCR_8N1 : Z := 0x03.
Definition UART_FCR_ENABLE : Z := 0x01.
Definition UART_FCR_CLEAR_RX : Z := 0x02.
Definition UART_FCR_CLEAR_TX : Z := 0x04.
Definition UART_MCR_DTR : Z := 0x01.
Definition UART_MCR_RTS : Z := 0x02.
Definition UART_LSR_THRE : Z := 0x20.

(** ** Memory *)

(** The [n]-byte little-endian integer at [a]. *)
Fixpoint ld (n : nat) (m : Z → Z) (a : Z) : Z :=
  match n with
  | O => 0
  | S n' => m a + 2 ^ 8 * ld n' m (a + 1)
  end.

(** The bytes [data] stored from [a] on. *)
Definition store (a : Z) (data : list Z) (m : Z → Z) (x : Z) : Z :=
  match rd data (x - a) with Some v => u8 v | None => m x end.

Record ELF64_EHDR := mkEhdr {
  e_ident : list Z;
  e_type : Z;
  e_machine : Z;
  e_version : Z;
  e_entry : Z;
  e_phoff : Z;
  e_shoff : Z;
  e_flags : Z;
  e_ehsize : Z;
  e_phentsize : Z;
  e_phnum : Z;
  e_shentsize : Z;
  e_shnum : Z;
  e_shstrndx : Z
}.

Record ELF64_PHDR := mkPhdr {
  p_type : Z;
  p_flags : Z;
  p_offset : Z;
  p_vaddr : Z;
  p_paddr : Z;
  p_filesz : Z;
  p_memsz : Z;
  p_align : Z
}.

Definition sizeof_ELF64_EHDR : Z := 64.
Definition sizeof_ELF64_PHDR : Z := 56.

(** The structures at [a]. *)
Definition ehdr_at (m : Z → Z) (a : Z) : ELF64_EHDR :=
  mkEhdr (map (λ i, m (a + i)) (seqZ 0 16)) (ld 2 m (a + 16)) (ld 2 m (a + 18)) (ld 4 m (a + 20))
    (ld 8 m (a + 24)) (ld 8 m (a + 32)) (ld 8 m (a + 40)) (ld 4 m (a + 48)) (ld 2 m (a + 52))
    (ld 2 m (a + 54)) (ld 2 m (a + 56)) (ld 2 m (a + 58)) (ld 2 m (a + 60)) (ld 2 m (a + 62)).

Definition phdr_at (m : Z → Z) (a : Z) : ELF64_PHDR :=
  mkPhdr (ld 4 m a) (ld 4 m (a + 4)) (ld 8 m (a + 8)) (ld 8 m (a + 16)) (ld 8 m (a + 24))
    (ld 8 m (a + 32)) (ld 8 m (a + 40)) (ld 8 m (a + 48)).

(** [mProgramHeaders[Index]] of an array at [base]. *)
Definition phdr_nth (m : Z → Z) (base Index : Z) : ELF64_PHDR :=
  phdr_at m (base + Index * sizeof_ELF64_PHDR).

(** ** Validation (ElfLoader.c) *)

Definition RangeOverlaps (StartA SizeA StartB SizeB : Z) : bool :=
  if (SizeA =? 0) || (SizeB =? 0) then false
  else
    let EndA := StartA +u64 SizeA in
    let EndB := StartB +u64 SizeB in
    if (EndA <? StartA) || (EndB <? StartB) then true
    else negb ((EndA <=? StartB) || (EndB <=? StartA)).

Definition ValidateElfHeader (Header : ELF64_EHDR) : Z :=
  let id i := e_ident Header !!! i in
  if negb (id 0%nat =? 0x7F) || negb (id 1%nat =? 0x45) || negb (id 2%nat =? 0x4C) ||
     negb (id 3%nat =? 0x46)
  then -1
  else if negb (id 4%nat =? ELFCLASS64) || negb (id 5%nat =? ELFDATA2LSB) || negb (id 6%nat =? EV_CURRENT)
  then -1
  else if negb (e_machine Header =? EM_AARCH64) || negb (e_version Header =? EV_CURRENT) ||
          (e_ehsize Header <? sizeof_ELF64_EHDR) || negb (e_phentsize Header =? sizeof_ELF64_PHDR) ||
          (e_phnum Header =? 0) || (SPILOADER_PHDR_LIMIT <? e_phnum Header)
  then -1
  else if (SPILOADER_MAX_IMAGE_SIZE <? e_phoff Header) ||
          (SPILOADER_MAX_IMAGE_SIZE <? e_phoff Header +u64 e_phnum Header * sizeof_ELF64_PHDR)
  then -1
  else 0.

(** Where a segment goes: its physical address, or the virtual one. *)
Definition Target (p : ELF64_PHDR) : Z := if p_paddr p =? 0 then p_vaddr p else p_paddr p.

(** The turn of the loop for the header [p]: [None] is [return -1]. *)
Definition validate_phdr (ReservedBase ReservedSize : Z) (p : ELF64_PHDR) (Highest : Z) : option Z :=
  if negb (p_type p =? PT_LOAD) then Some Highest
  else if p_memsz p <? p_filesz p then None
  else
    let SegmentEnd := Target p +u64 p_memsz p in
    let FileEnd := p_offset p +u64 p_filesz p in
    if (SegmentEnd <? Target p) || (FileEnd <? p_offset p) then None
    else if SPILOADER_MAX_IMAGE_SIZE <? FileEnd then None
    else if RangeOverlaps (Target p) (p_memsz p) ReservedBase ReservedSize then None
    else Some (if Highest <? FileEnd then FileEnd else Highest).

(** The status and [*MaxFileExtent] when it is set. [ph] is [mProgramHeaders]. *)
Definition ValidateProgramHeaders (Header : ELF64_EHDR) (ph : Z → ELF64_PHDR)
    (ReservedBase ReservedSize : Z) : Z * option Z :=
  let Highest := e_phoff Header +u64 e_phnum Header * sizeof_ELF64_PHDR in
  match for_loop (Z.to_nat (e_phnum Header)) 0
          (λ Index Highest, validate_phdr ReservedBase ReservedSize (ph Index) Highest) Highest with
  | Some Highest => (0, Some Highest)
  | None => (-1, None)
  end.

(** ** The loader as a computation on the machine *)

Section Code.
Context {H : Type} `{SpiHal H, Mmio H, Platform}.

(** A computation may panic; [None] is a loop that the model's fuel does not
    cover or a fault. *)
Definition M (A : Type) : Type := Machine H → option (outcome A * Machine H).

#[global] Instance M_ret : MRet M := λ A a s, Some (Done a, s).
#[global] Instance M_bind : MBind M := λ A B f m s,
  match m s with
  | Some (Done a, s') => f a s'
  | Some (Panicked, s') => Some (Panicked, s')
  | None => None
  end.

(** The end of a path: a loop the fuel does not cover, and the [wfi] loop. *)
Definition stuck {A} : M A := λ _, None.
Definition park {A} : M A := λ s, Some (Panicked, s).

(** An access to a device. *)
Definition on_dev {A} (f : H → A * H) : M A := λ s,
  let '(a, h) := f (dev s) in Some (Done a, mkMachine h (mem s) (ram s)).

Definition get_mem : M (Z → Z) := λ s, Some (Done (mem s), s).
Definition upd_mem (f : (Z → Z) → Z → Z) : M unit := λ s,
  Some (Done tt, mkMachine (dev s) (f (mem s)) (ram s)).

(** [for (i = from; n times; i++) body] *)
Fixpoint M_for (n : nat) (i : Z) (body : Z → M unit) : M unit :=
  match n with
  | O => mret tt
  | S n' => _ ← body i; M_for n' (i + 1) body
  end.

(** *** Support.c *)

(** The loops write one byte a turn, from [Index] on. *)
Fixpoint mem_copy (n : nat) (Dst Src Index : Z) : M unit :=
  match n with
  | O => mret tt
  | S n' =>
      m ← get_mem;
      _ ← upd_mem (store (Dst + Index) [m (Src + Index)]);
      mem_copy n' Dst Src (Index + 1)
  end.

Definition SpiloaderMemCopy (Destination Source Length : Z) : M Z :=
  _ ← mem_copy (Z.to_nat Length) Destination Source 0; mret Destination.

Fixpoint mem_set (n : nat) (Dst Value Index : Z) : M unit :=
  match n with
  | O => mret tt
  | S n' =>
      _ ← upd_mem (store (Dst + Index) [u8 Value]);
      mem_set n' Dst Value (Index + 1)
  end.

Definition SpiloaderMemSet (Destination Value Length : Z) : M Z :=
  _ ← mem_set (Z.to_nat Length) Destination Value 0; mret Destination.

Fixpoint mem_compare (n : nat) (m : Z → Z) (A B Index : Z) : Z :=
  match n with
  | O => 0
  | S n' =>
      if negb (m (A + Index) =? m (B + Index)) then m (A + Index) - m (B + Index)
      else mem_compare n' m A B (Index + 1)
  end.

Definition SpiloaderMemCompare (Left Right Length : Z) : M Z :=
  m ← get_mem; mret (mem_compare (Z.to_nat Length) m Left Right 0).

Definition UartReg (Index : Z) : Z :=
  CCR2004_UART0_BASE +u64 Z.shiftl Index CCR2004_UART_REG_SHIFT.

Definition uart_write (Reg Value : Z) : M unit :=
  on_dev (λ h, (tt, MmioWrite32 (UartReg Reg) Value h)).

Definition UartInitialize : M unit :=
  let Divisor := CCR2004_UART_CLOCK_HZ / (16 *u32 CCR2004_UART_BAUD) in
  let Divisor := if Divisor =? 0 then 1 else Divisor in
  _ ← uart_write UART_IER 0;
  _ ← uart_write UART_LCR UART_LCR_DLAB;
  _ ← uart_write UART_DLL (Z.land Divisor 0xFF);
  _ ← uart_write UART_DLM (Z.land (Z.shiftr Divisor 8) 0xFF);
  _ ← uart_write UART_LCR UART_LCR_8N1;
  _ ← uart_write UART_FCR (Z.lor (Z.lor UART_FCR_ENABLE UART_FCR_CLEAR_RX) UART_FCR_CLEAR_TX);
  uart_write UART_MCR (Z.lor UART_MCR_DTR UART_MCR_RTS).

(** The wait for the transmitter: its loop has no bound, [uart_fuel] is the
    model's. *)
Fixpoint wait_thre (fuel : nat) : M unit :=
  match fuel with
  | O => stuck
  | S fuel' =>
      Lsr ← on_dev (MmioRead32 (UartReg UART_LSR));
      if Z.land Lsr UART_LSR_THRE =? 0 then wait_thre fuel' else mret tt
  end.

Definition UartPutChar (Character : Z) : M unit :=
  _ ← wait_thre uart_fuel; uart_write UART_THR (u8 Character).

Fixpoint UartWrite (String : list Z) : M unit :=
  match String with
  | [] => stuck
  | c :: String' => if c =? 0 then mret tt else _ ← UartPutChar c; UartWrite String'
  end.

Definition HexNibble (Value : Z) : Z :=
  let Value := Z.land Value 0x0F in
  if Value <? 10 then 0x30 + Value else 0x61 + (Value - 10).

(** The loops over the digits: [n] are left, at [Shift], [Shift - 4], ... *)
Fixpoint write_hex (n : nat) (Shift Value : Z) : M unit :=
  match n with
  | O => mret tt
  | S n' =>
      _ ← UartPutChar (HexNibble (u8 (Z.shiftr Value Shift)));
      write_hex n' (Shift - 4) Value
  end.

Definition UartWriteHex32 (Value : Z) : M unit := write_hex 8 28 Value.
Definition UartWriteHex64 (Value : Z) : M unit := write_hex 16 60 Value.

(** *** SpiFlash.c *)

Definition SpiInitialize : M unit :=
  on_dev (λ h, (tt, al_spi_claim_bus CCR2004_SPI_MAX_HZ
                      (al_spi_init CCR2004_SPI_BASE CCR2004_SPI_CLOCK_HZ h))).

(** The error code and the bytes stored in the caller's array. *)
Definition SpiFlashReadJedecId : M (Z * list Z) :=
  on_dev (al_spi_read [SPI_NOR_CMD_READ_ID] 3).

Fixpoint flash_read_loop (fuel : nat) (FlashOffset Bytes Length : Z) : M Z :=
  if 0 <? Length then
    match fuel with
    | O => stuck
    | S fuel' =>
        let Chunk := if 4096 <? Length then 4096 else Length in
        '(Err, data) ← on_dev (al_spi_read (Cmd SPI_NOR_CMD_READ_DATA FlashOffset) (u32 Chunk));
        _ ← upd_mem (store Bytes data);
        if negb (Err =? 0) then mret (-1)
        else flash_read_loop fuel' (FlashOffset +u32 u32 Chunk) (Bytes +u64 Chunk) (Length -u64 Chunk)
    end
  else mret 0.

Definition SpiFlashRead (FlashOffset Buffer Length : Z) : M Z :=
  if 0x01000000 <? FlashOffset +u64 Length then mret (-1)
  else flash_read_loop (S (Z.to_nat (Length / 4096))) FlashOffset Buffer Length.

(** *** Main.c: messages and panic *)

(** A string literal, and one that ends in a new line. *)
Definition chars (s : String.string) : list Z :=
  map (λ c, Z.of_nat (nat_of_ascii c)) (String.list_ascii_of_string s).
Definition lit (s : String.string) : list Z := chars s ++ [0].
Definition line (s : String.string) : list Z := chars s ++ [13; 10; 0].

Definition LogBanner : M unit := UartWrite (line "SpiLoader: start").

Definition SpiloaderPanic {A} (Message : list Z) : M A :=
  _ ← UartWrite (lit "SpiLoader: panic: ");
  _ ← UartWrite Message;
  _ ← UartWrite (line "");
  park.

Definition LogJedecId : M unit :=
  '(Err, JedecId) ← SpiFlashReadJedecId;
  if negb (Err =? 0) then UartWrite (line "SpiLoader: JEDEC read failed")
  else
    match JedecId with
    | [id0; id1; id2] =>
        _ ← UartWrite (lit "SpiLoader: JEDEC ");
        _ ← UartWriteHex32 id0;
        _ ← UartWrite (lit " ");
        _ ← UartWriteHex32 id1;
        _ ← UartWrite (lit " ");
        _ ← UartWriteHex32 id2;
        UartWrite (line "")
    | _ => stuck
    end.

(** *** ElfLoader.c: loading *)

(** [dc civac]: the line of [Cursor] reaches the memory behind the cache. *)
Definition dc_civac (CacheLineBytes Cursor : Z) : M unit := λ s,
  Some (Done tt, mkMachine (dev s) (mem s)
    (λ x, if x / CacheLineBytes =? Cursor / CacheLineBytes then mem s x else ram s x)).

Fixpoint clean_lines (fuel : nat) (CacheLineBytes Cursor End : Z) : M unit :=
  if Cursor <? End then
    match fuel with
    | O => stuck
    | S fuel' =>
        _ ← dc_civac CacheLineBytes Cursor;
        clean_lines fuel' CacheLineBytes (Cursor +u64 CacheLineBytes) End
    end
  else mret tt.

Definition CacheLineBytes : Z := u64 (Z.shiftl 4 (Z.land (Z.shiftr ctr_el0 16) 0x0F)).

Definition CleanInvalidateDataCacheRange (Address Length : Z) : M unit :=
  if Length =? 0 then mret tt
  else
    let mask := u64 (Z.lnot (CacheLineBytes - 1)) in
    let Start := Z.land Address mask in
    let End := Z.land (Address +u64 Length +u64 CacheLineBytes -u64 1) mask in
    clean_lines (S (Z.to_nat ((End - Start) / CacheLineBytes))) CacheLineBytes Start End.

Definition LoadSegment (p : ELF64_PHDR) : M unit :=
  _ ← (if 0 <? p_filesz p then
         Err ← SpiFlashRead (CCR2004_SPI_FLASH_OFFSET +u32 u32 (p_offset p)) (Target p) (p_filesz p);
         if negb (Err =? 0) then SpiloaderPanic (lit "segment read") else mret tt
       else mret tt);
  _ ← (if p_filesz p <? p_memsz p then
         _ ← SpiloaderMemSet (Target p +u64 p_filesz p) 0 (p_memsz p -u64 p_filesz p); mret tt
       else mret tt);
  CleanInvalidateDataCacheRange (Target p) (p_memsz p).

(** The turn [Index] of the loop over the program headers, which reads them from
    memory each time. *)
Definition load_phdr (Index : Z) : M unit :=
  m ← get_mem;
  let p := phdr_nth m mProgramHeaders Index in
  if negb (p_type p =? PT_LOAD) then mret tt
  else
    _ ← UartWrite (lit "SpiLoader: load seg @ 0x");
    _ ← UartWriteHex64 (Target p);
    _ ← UartWrite (lit " size 0x");
    _ ← UartWriteHex64 (p_memsz p);
    _ ← UartWrite (line "");
    LoadSegment p.

(** The loop reads its bound from the header in memory at every turn. *)
Fixpoint load_loop (fuel : nat) (Index : Z) : M unit :=
  m ← get_mem;
  if Index <? e_phnum (ehdr_at m Header_addr) then
    match fuel with
    | O => stuck
    | S fuel' => _ ← load_phdr Index; load_loop fuel' (u16 (Index + 1))
    end
  else mret tt.

Record SPILOADER_RESULT := mkResult { EntryPoint : Z; ReservedTop : Z }.

(** The status and [*Result] when it is filled. *)
Definition LoadImageFromFlash : M (Z * option SPILOADER_RESULT) :=
  let ReservedBase := SPILOADER_LOAD_ADDR in
  let ReservedTop := __stack_top in
  let ReservedSize := ReservedTop -u64 ReservedBase in
  Err ← SpiFlashRead CCR2004_SPI_FLASH_OFFSET Header_addr sizeof_ELF64_EHDR;
  if negb (Err =? 0) then mret (-1, None)
  else
    m ← get_mem;
    let Header := ehdr_at m Header_addr in
    if negb (ValidateElfHeader Header =? 0) then
      _ ← UartWrite (line "SpiLoader: bad ELF header"); mret (-1, None)
    else
      Err ← SpiFlashRead (CCR2004_SPI_FLASH_OFFSET +u32 u32 (e_phoff Header)) mProgramHeaders
              (e_phnum Header * sizeof_ELF64_PHDR);
      if negb (Err =? 0) then
        _ ← UartWrite (line "SpiLoader: PHDR read failed"); mret (-1, None)
      else
        m ← get_mem;
        let Header := ehdr_at m Header_addr in
        match ValidateProgramHeaders Header (phdr_nth m mProgramHeaders) ReservedBase ReservedSize with
        | (0, Some MaxFileExtent) =>
            _ ← UartWrite (lit "SpiLoader: ELF bytes <= 0x");
            _ ← UartWriteHex64 MaxFileExtent;
            _ ← UartWrite (line "");
            _ ← load_loop (Z.to_nat SPILOADER_PHDR_LIMIT) 0;
            m ← get_mem;
            mret (0, Some (mkResult (e_entry (ehdr_at m Header_addr)) ReservedTop))
        | _ => _ ← UartWrite (line "SpiLoader: bad PHDRs"); mret (-1, None)
        end.

(** The registers [SpiloaderJumpToImage] sets; barriers and the instruction cache
    flush have no state here. *)
Record Cpu := mkCpu {
  CurrentEL : Z;
  sctlr_el1 : Z;
  sctlr_el2 : Z;
  daif : Z;
  x0_x3 : list Z;
  pc : Z
}.

(** MMU, data cache and instruction cache off. *)
Definition caches_off (Sctlr : Z) : Z :=
  let Sctlr := Z.land Sctlr (u64 (Z.lnot (Z.shiftl 1 0))) in
  let Sctlr := Z.land Sctlr (u64 (Z.lnot (Z.shiftl 1 2))) in
  Z.land Sctlr (u64 (Z.lnot (Z.shiftl 1 12))).

(** The CPU as the image finds it. *)
Definition SpiloaderJumpToImage (EntryPoint ReservedTop : Z) (cpu : Cpu) : M Cpu :=
  _ ← CleanInvalidateDataCacheRange SPILOADER_LOAD_ADDR (ReservedTop -u64 SPILOADER_LOAD_ADDR);
  let daif := Z.shiftl 0xF 6 in
  mret (if Z.shiftr (CurrentEL cpu) 2 =? 2
        then mkCpu (CurrentEL cpu) (sctlr_el1 cpu) (caches_off (sctlr_el2 cpu)) daif [0; 0; 0; 0] EntryPoint
        else mkCpu (CurrentEL cpu) (caches_off (sctlr_el1 cpu)) (sctlr_el2 cpu) daif [0; 0; 0; 0] EntryPoint).

Definition SpiloaderMain (cpu : Cpu) : M Cpu :=
  _ ← UartInitialize;
  _ ← LogBanner;
  _ ← SpiInitialize;
  _ ← LogJedecId;
  r ← LoadImageFromFlash;
  match r with
  | (0, Some Result) =>
      _ ← UartWrite (lit "SpiLoader: jump 0x");
      _ ← UartWriteHex64 (EntryPoint Result);
      _ ← UartWrite (line "");
      SpiloaderJumpToImage (EntryPoint Result) (ReservedTop Result) cpu
  | _ => SpiloaderPanic (lit "ELF load failed")
  end.
End Code.

(** ** The machine's devices *)

(** The programming model of the 16550 behind [UartReg]: the characters sent so
    far, the line control register and the two bytes of the divisor. *)
Record Uart16550 := mkUart { tx : list Z; lcr : Z; dll : Z; dlm : Z }.

Definition uart_store (Reg Value : Z) (u : Uart16550) : Uart16550 :=
  let Value := u8 Value in
  let dlab := Z.testbit (lcr u) 7 in
  if Reg =? 0 then
    if dlab then mkUart (tx u) (lcr u) Value (dlm u) else mkUart (tx u ++ [Value]) (lcr u) (dll u) (dlm u)
  else if Reg =? 1 then if dlab then mkUart (tx u) (lcr u) (dll u) Value else u
  else if Reg =? 3 then mkUart (tx u) Value (dll u) (dlm u)
  else u.

(** The UART and the flash are separate devices; the transmitter empties within
    [uart_fuel] polls. *)
Class UartLaws (H : Type) `{NorLaws H, Mmio H, Platform} := {
  uart : H → Uart16550;
  uart_polls : H → nat;
  uart_polls_bound h : (uart_polls h < uart_fuel)%nat;
  lsr_spec h v h' :
    MmioRead32 (UartReg UART_LSR) h = (v, h') →
    uart h' = uart h ∧ (∀ x, nor_mem h' x = nor_mem h x) ∧ (nor_ready h = true → nor_ready h' = true) ∧
    (Z.testbit v 5 = false → (uart_polls h' < uart_polls h)%nat);
  uart_write_spec Reg Value h :
    0 <= Reg <= 4 →
    let h' := MmioWrite32 (UartReg Reg) Value h in
    uart h' = uart_store Reg Value (uart h) ∧ (∀ x, nor_mem h' x = nor_mem h x) ∧
    (nor_ready h = true → nor_ready h' = true);
  spi_keeps_uart cmd n h base clk hz :
    uart (al_spi_read cmd n h).2 = uart h ∧ uart (al_spi_init base clk h) = uart h ∧
    uart (al_spi_claim_bus hz h) = uart h
}.

(** The objects of the loader lie in the region it reserves for itself. *)
Class PlatformLaws `{Platform} : Prop := {
  header_reserved : SPILOADER_LOAD_ADDR <= Header_addr ∧ Header_addr + 64 <= __stack_top;
  phdrs_reserved : SPILOADER_LOAD_ADDR <= mProgramHeaders ∧ mProgramHeaders + 32 * 56 <= __stack_top;
  objects_disjoint : Header_addr + 64 <= mProgramHeaders ∨ mProgramHeaders + 32 * 56 <= Header_addr;
  stack_top_range : __stack_top < 2 ^ 63
}.

(** ** Postconditions of computations *)

Section Wp.
Context {H : Type}.
Implicit Types s : Machine H.

Lemma wp_bind {A B} (m : M A) (f : A → M B) Q s :
  wp m (λ o s', match o with Done a => wp (f a) Q s' | Panicked => Q Panicked s' end) s →
  wp (m ≫= f) Q s.
Proof. unfold wp, mbind, M_bind. by destruct (m s) as [[[a|] s']|]. Qed.

(** The rule used for a call whose result is known. *)
Lemma wp_seq {A B} (m : M A) (f : A → M B) (P : outcome A → Machine H → Prop) Q s :
  wp m P s → (∀ a s', P (Done a) s' → wp (f a) Q s') → (∀ s', P Panicked s' → Q Panicked s') →
  wp (m ≫= f) Q s.
Proof. intros Hm Hf Hp. apply wp_bind. eapply wp_mono; [exact Hm|]. intros [a|] s'; auto. Qed.

Lemma wp_ret {A} (a : A) (Q : outcome A → Machine H → Prop) s : Q (Done a) s → wp (mret (M := M) a) Q s.
Proof. done. Qed.

Lemma wp_get {A} (f : (Z → Z) → M A) Q s : wp (f (mem s)) Q s → wp (get_mem ≫= f) Q s.
Proof. done. Qed.
End Wp.

(** ** Lemmas *)

Lemma ld_ext n m m' a b :
  (∀ i, 0 <= i < Z.of_nat n → m (a + i) = m' (b + i)) → ld n m a = ld n m' b.
Proof.
  revert a b. induction n as [|n IH]; intros a b Hm; simpl; [done|].
  rewrite (IH (a + 1) (b + 1)).
  - specialize (Hm 0). rewrite !Z.add_0_r in Hm. by rewrite Hm by lia.
  - intros i Hi. rewrite <- !Z.add_assoc. apply Hm. lia.
Qed.

Lemma ld_range n m a : (∀ x, byte_ok (m x)) → 0 <= ld n m a < 2 ^ (8 * Z.of_nat n).
Proof.
  intros Hm. revert a. induction n as [|n IH]; intros a; simpl; [done|].
  specialize (IH (a + 1)). specialize (Hm a). unfold byte_ok in Hm.
  replace (8 * Z.of_nat (S n)) with (8 + 8 * Z.of_nat n) by lia.
  rewrite Z.pow_add_r by lia. lia.
Qed.

Lemma ehdr_at_ext m m' a b :
  (∀ i, 0 <= i < 64 → m (a + i) = m' (b + i)) → ehdr_at m a = ehdr_at m' b.
Proof.
  intros Hm. unfold ehdr_at. f_equal.
  1:{ apply map_ext_in. intros i Hi. apply list_elem_of_In, elem_of_seqZ in Hi. apply Hm. lia. }
  all: apply ld_ext; intros i Hi; rewrite <- !Z.add_assoc; apply Hm; lia.
Qed.

Lemma phdr_at_ext m m' a b :
  (∀ i, 0 <= i < 56 → m (a + i) = m' (b + i)) → phdr_at m a = phdr_at m' b.
Proof.
  intros Hm. unfold phdr_at. f_equal.
  1: by apply ld_ext; intros i Hi; apply Hm; lia.
  all: apply ld_ext; intros i Hi; rewrite <- !Z.add_assoc; apply Hm; lia.
Qed.

(** Every field of a header in memory is in the range of its type. *)
Record phdr_ok (p : ELF64_PHDR) : Prop := {
  off_ok : 0 <= p_offset p < 2 ^ 64;
  vaddr_ok : 0 <= p_vaddr p < 2 ^ 64;
  paddr_ok : 0 <= p_paddr p < 2 ^ 64;
  filesz_ok : 0 <= p_filesz p < 2 ^ 64;
  memsz_ok : 0 <= p_memsz p < 2 ^ 64
}.

Lemma phdr_at_ok m a : (∀ x, byte_ok (m x)) → phdr_ok (phdr_at m a).
Proof. intros Hm. split; apply (ld_range 8); done. Qed.

Lemma Target_range p : phdr_ok p → 0 <= Target p < 2 ^ 64.
Proof. intros []. unfold Target. by case_b. Qed.

(** *** Validation *)

(** What the loader asks of a segment, in unbounded arithmetic. *)
Definition seg_ok (Base Size : Z) (p : ELF64_PHDR) : Prop :=
  p_type p = PT_LOAD →
  p_filesz p <= p_memsz p ∧ Target p + p_memsz p < 2 ^ 64 ∧
  p_offset p + p_filesz p <= SPILOADER_MAX_IMAGE_SIZE ∧
  (p_memsz p = 0 ∨ Size = 0 ∨ Target p + p_memsz p <= Base ∨ Base + Size <= Target p).

#[export] Instance seg_ok_dec Base Size p : Decision (seg_ok Base Size p).
Proof. unfold seg_ok. solve_decision. Defined.

(** Overlap of two ranges, as sets of addresses. *)
Lemma RangeOverlaps_false A SA B SB :
  0 <= A < 2 ^ 64 → 0 <= SA < 2 ^ 64 → 0 <= B → 0 <= SB → B + SB < 2 ^ 64 → A + SA < 2 ^ 64 →
  RangeOverlaps A SA B SB = false ↔ SA = 0 ∨ SB = 0 ∨ A + SA <= B ∨ B + SB <= A.
Proof.
  intros HA HSA HB HSB HBS HAS. unfold RangeOverlaps.
  rewrite (u64_small (A + SA)), (u64_small (B + SB)) by lia.
  destruct (Z.eqb_spec SA 0), (Z.eqb_spec SB 0); simpl; [intuition lia..|].
  rewrite (proj2 (Z.ltb_ge _ _)), (proj2 (Z.ltb_ge _ _)) by lia. simpl.
  rewrite negb_false_iff, orb_true_iff, !Z.leb_le. lia.
Qed.

Lemma u64_add_overflow a b :
  0 <= a < 2 ^ 64 → 0 <= b < 2 ^ 64 → (u64 (a + b) <? a) = negb (a + b <? 2 ^ 64).
Proof.
  intros Ha Hb. unfold u64. destruct (Z.ltb_spec (a + b) (2 ^ 64)).
  - rewrite Z.mod_small by lia. simpl. apply Z.ltb_ge. lia.
  - replace (a + b) with (a + b - 2 ^ 64 + 1 * 2 ^ 64) by lia.
    rewrite Z_mod_plus_full, Z.mod_small by lia. apply Z.ltb_lt. lia.
Qed.

(** Where the file data of a segment ends, 0 for one that is not loaded. *)
Definition file_end (p : ELF64_PHDR) : Z :=
  if p_type p =? PT_LOAD then p_offset p + p_filesz p else 0.

Lemma validate_phdr_spec Base Size p Highest :
  phdr_ok p → 0 <= Base → 0 <= Size → Base + Size < 2 ^ 64 → 0 <= Highest →
  validate_phdr Base Size p Highest =
    if decide (seg_ok Base Size p) then Some (Z.max Highest (file_end p)) else None.
Proof.
  intros Hp HB HS HBS HH. pose proof (Target_range p Hp). destruct Hp.
  unfold validate_phdr, seg_ok, file_end.
  destruct (Z.eqb_spec (p_type p) PT_LOAD) as [Ht|Ht]; simpl.
  2:{ rewrite decide_True by done. f_equal. lia. }
  destruct (Z.ltb_spec (p_memsz p) (p_filesz p)); [by rewrite decide_False by (intros Hd; specialize (Hd Ht); lia)|].
  rewrite !u64_add_overflow by lia.
  destruct (Z.ltb_spec (Target p + p_memsz p) (2 ^ 64)); simpl;
    [|by rewrite decide_False by (intros Hd; specialize (Hd Ht); lia)].
  destruct (Z.ltb_spec (p_offset p + p_filesz p) (2 ^ 64)); simpl;
    [|by rewrite decide_False by (unfold SPILOADER_MAX_IMAGE_SIZE; intros Hd; specialize (Hd Ht); lia)].
  rewrite (u64_small (p_offset p + _)) by lia.
  destruct (Z.ltb_spec SPILOADER_MAX_IMAGE_SIZE (p_offset p + p_filesz p));
    [by rewrite decide_False by (intros Hd; specialize (Hd Ht); lia)|].
  pose proof (RangeOverlaps_false (Target p) (p_memsz p) Base Size) as Ho.
  destruct (RangeOverlaps _ _ _ _).
  - rewrite decide_False; [done|]. intros Hd. specialize (Hd Ht).
    destruct Ho as [_ Ho]; [lia..|]. discriminate Ho. lia.
  - rewrite decide_True by (intros _; destruct Ho as [Ho _]; [lia..|]; specialize (Ho eq_refl); lia).
    f_equal. case_b; b2p; lia.
Qed.

(** The highest end over a list of headers. *)
Definition highest (ps : list ELF64_PHDR) (Start : Z) : Z :=
  foldl (λ hi p, Z.max hi (file_end p)) Start ps.

Lemma validate_loop n i ph Base Size hi :
  (∀ j, phdr_ok (ph j)) → 0 <= Base → 0 <= Size → Base + Size < 2 ^ 64 → 0 <= hi →
  let ps := map ph (seqZ i (Z.of_nat n)) in
  for_loop n i (λ Index Highest, validate_phdr Base Size (ph Index) Highest) hi =
    if decide (Forall (seg_ok Base Size) ps) then Some (highest ps hi) else None.
Proof.
  intros Hp HB HS HBS. revert i hi. induction n as [|n IH]; intros i hi Hhi; [done|].
  cbn [for_loop]. rewrite validate_phdr_spec by done. rewrite seqZ_cons by lia.
  replace (Z.pred (Z.of_nat (S n))) with (Z.of_nat n) by lia. cbn [map].
  destruct (decide (seg_ok Base Size (ph i))) as [Hok|Hno]; cbn [mbind option_bind].
  - change (Z.succ i) with (i + 1). rewrite IH by lia. unfold highest. cbn [foldl].
    destruct (decide (Forall _ (map ph (seqZ (i + 1) (Z.of_nat n))))) as [Hf|Hf].
    + by rewrite decide_True by (by constructor).
    + rewrite decide_False; [done|]. intros Hc. by inversion Hc.
  - rewrite decide_False; [done|]. intros Hc. by inversion Hc.
Qed.

(** What a valid header bounds. *)
Lemma ValidateElfHeader_bounds Header :
  ValidateElfHeader Header = 0 → 0 <= e_phoff Header → 0 <= e_phnum Header →
  0 < e_phnum Header <= 32 ∧ e_phoff Header + e_phnum Header * 56 <= SPILOADER_MAX_IMAGE_SIZE.
Proof.
  intros Hv Ho Hn. revert Hv. unfold ValidateElfHeader.
  repeat (case_b; try done). b2p. intros _. unfold SPILOADER_PHDR_LIMIT, sizeof_ELF64_PHDR in *.
  unfold SPILOADER_MAX_IMAGE_SIZE in *.
  match goal with X : u64 _ <= _ |- _ => rewrite u64_small in X by lia end. lia.
Qed.

Lemma Validate_run Header ph Base Size :
  (∀ j, phdr_ok (ph j)) → 0 <= Base → 0 <= Size → Base + Size < 2 ^ 64 →
  0 <= e_phnum Header → ValidateElfHeader Header = 0 → 0 <= e_phoff Header →
  let ps := map ph (seqZ 0 (e_phnum Header)) in
  ValidateProgramHeaders Header ph Base Size =
    if decide (Forall (seg_ok Base Size) ps)
    then (0, Some (highest ps (e_phoff Header + e_phnum Header * 56)))
    else (-1, None).
Proof.
  intros Hp HB HS HBS Hn Hv Ho ps. unfold ValidateProgramHeaders.
  destruct (ValidateElfHeader_bounds Header Hv Ho Hn) as [Hr1 Hr2].
  unfold SPILOADER_MAX_IMAGE_SIZE in Hr2. change sizeof_ELF64_PHDR with 56.
  rewrite u64_small by lia. rewrite validate_loop by (done || lia).
  rewrite Z2Nat.id by done. fold ps. by destruct (decide _).
Qed.

(** Validation reads the headers below [e_phnum] only. *)
Lemma for_loop_ext {A} n i (f g : Z → A → option A) x :
  (∀ j y, i <= j < i + Z.of_nat n → f j y = g j y) → for_loop n i f x = for_loop n i g x.
Proof.
  revert i x. induction n as [|n IH]; intros i x Hfg; cbn [for_loop]; [done|].
  rewrite Hfg by lia. destruct (g i x); [|done]. cbn [mbind option_bind]. apply IH. intros j y Hj.
  apply Hfg. lia.
Qed.

Lemma validate_ext Header ph ph' Base Size :
  (∀ j, 0 <= j < e_phnum Header → ph j = ph' j) →
  ValidateProgramHeaders Header ph Base Size = ValidateProgramHeaders Header ph' Base Size.
Proof.
  intros Hp. unfold ValidateProgramHeaders. erewrite for_loop_ext; [done|].
  intros j y Hj. cbv beta. by rewrite Hp by lia.
Qed.

(** *** Runs of the devices *)

Section Runs.
Context {H : Type} `{UartLaws H}.
Implicit Types s : Machine H.

Definition console (s : Machine H) : Uart16550 := uart (dev s).

(** The flash and its readiness are what they were. *)
Definition flash_kept (h h' : H) : Prop :=
  same_mem h h' ∧ (nor_ready h = true → nor_ready h' = true).

Lemma flash_kept_refl h : flash_kept h h.
Proof. split; [done|auto]. Qed.

Lemma flash_kept_trans h1 h2 h3 : flash_kept h1 h2 → flash_kept h2 h3 → flash_kept h1 h3.
Proof. intros [Hm1 Hr1] [Hm2 Hr2]. split; [by eapply same_mem_trans|auto]. Qed.

#[local] Hint Resolve flash_kept_refl : core.

(** A run that only prints: the memory stays, the text is appended. *)
Definition says (txt : list Z) s s' : Prop :=
  mem s' = mem s ∧ ram s' = ram s ∧ flash_kept (dev s) (dev s') ∧
  console s' = mkUart (tx (console s) ++ txt) (lcr (console s)) (dll (console s)) (dlm (console s)).

(** The transmitter is selected at offset 0. *)
Definition printing s : Prop := Z.testbit (lcr (console s)) 7 = false.

Lemma says_printing txt s s' : says txt s s' → printing s → printing s'.
Proof. intros (_ & _ & _ & Hc). unfold printing. by rewrite Hc. Qed.

Lemma says_nil s : says [] s s.
Proof. split_and!; [done..|]. rewrite app_nil_r. by destruct (console s). Qed.

Lemma says_app t1 t2 s1 s2 s3 : says t1 s1 s2 → says t2 s2 s3 → says (t1 ++ t2) s1 s3.
Proof.
  intros (Hm1 & Hr1 & Hf1 & Hc1) (Hm2 & Hr2 & Hf2 & Hc2). split_and!.
  - congruence.
  - congruence.
  - by eapply flash_kept_trans.
  - rewrite Hc2, Hc1. simpl. by rewrite app_assoc.
Qed.

Lemma wait_thre_spec fuel s :
  (uart_polls (dev s) < fuel)%nat → wp (wait_thre fuel) (λ o s', o = Done tt ∧ says [] s s') s.
Proof.
  revert s. induction fuel as [|fuel IH]; intros s Hf; [lia|]. unfold wp. cbn [wait_thre].
  unfold mbind, M_bind, on_dev.
  destruct (MmioRead32 (UartReg UART_LSR) (dev s)) as [v h'] eqn:E.
  destruct (lsr_spec _ _ _ E) as (Hu & Hm & Hr & Hp).
  assert (Hs : says [] s (mkMachine h' (mem s) (ram s))).
  { split_and!; [done..|]. rewrite app_nil_r. unfold console at 1. simpl. rewrite Hu.
    unfold console. by destruct (uart (dev s)). }
  assert (Ht : (Z.land v UART_LSR_THRE =? 0) = negb (Z.testbit v 5)).
  { change UART_LSR_THRE with (2 ^ 5). apply eq_bool_prop_intro. rewrite Is_true_true, Z.eqb_eq.
    rewrite negb_True, Is_true_false. split; intros Hb.
    - assert (Hc : Z.testbit (Z.land v (2 ^ 5)) 5 = false) by (rewrite Hb; done).
      rewrite Z.land_spec, Z.pow2_bits_true in Hc by lia. by rewrite andb_true_r in Hc.
    - apply Z.bits_inj'. intros n Hn. rewrite Z.land_spec, Z.pow2_bits_eqb, Z.bits_0 by lia.
      destruct (Z.eqb_spec 5 n) as [<-|]; [by rewrite Hb|apply andb_false_r]. }
  rewrite Ht. destruct (Z.testbit v 5) eqn:Hb; simpl; [done|].
  specialize (IH (mkMachine h' (mem s) (ram s))). unfold wp in IH.
  specialize (Hp eq_refl). simpl in IH. specialize (IH ltac:(lia)).
  destruct (wait_thre fuel _) as [[o s']|]; [|done]. destruct IH as [-> Hs'].
  split; [done|]. apply (says_app [] [] _ _ _ Hs Hs').
Qed.

Lemma put_spec c s : printing s → wp (UartPutChar c) (λ o s', o = Done tt ∧ says [u8 c] s s') s.
Proof.
  intros Hp. unfold UartPutChar. eapply wp_seq.
  { apply wait_thre_spec, uart_polls_bound. }
  2:{ by intros s' [? _]. }
  intros _ s1 [_ Hs]. pose proof (says_printing _ _ _ Hs Hp) as Hp1. unfold wp, uart_write, on_dev.
  destruct (uart_write_spec UART_THR (u8 c) (dev s1) ltac:(done)) as (Hu & Hm & Hr).
  split; [done|]. apply (says_app [] [u8 c] _ _ _ Hs). split_and!; [done..|].
  unfold console at 1. simpl. rewrite Hu. unfold uart_store, UART_THR. cbn [Z.eqb].
  unfold printing, console in Hp1. rewrite Hp1. unfold u8. by rewrite Z.mod_mod.
Qed.

(** [UartWrite] sends the characters before the NUL. *)
Lemma UartWrite_spec str s :
  printing s → 0 ∈ str →
  wp (UartWrite str) (λ o s', o = Done tt ∧ says (map u8 (cstr str)) s s') s.
Proof.
  revert s. induction str as [|c str IH]; intros s Hp Hz; [by apply elem_of_nil in Hz|].
  cbn [UartWrite cstr]. destruct (Z.eqb_spec c 0) as [->|Hne].
  { split; [done|apply says_nil]. }
  eapply wp_seq; [by apply put_spec| |by intros ? [? _]]. intros _ s1 [_ Hs].
  eapply wp_mono. { apply IH; [by eapply says_printing|]. apply elem_of_cons in Hz as [|]; [lia|done]. }
  intros o s' [-> Hs']. split; [done|]. by eapply (says_app [u8 c]).
Qed.

(** The digits [write_hex] sends. *)
Definition hex_digits (n : nat) (Shift Value : Z) : list Z :=
  map (λ i, u8 (HexNibble (u8 (Z.shiftr Value (Shift - 4 * i))))) (seqZ 0 (Z.of_nat n)).

Lemma hex_digits_S n Shift v :
  hex_digits (S n) Shift v = u8 (HexNibble (u8 (Z.shiftr v Shift))) :: hex_digits n (Shift - 4) v.
Proof.
  unfold hex_digits. rewrite seqZ_cons by lia. cbn [map]. f_equal; [do 4 f_equal; lia|].
  replace (Z.pred (Z.of_nat (S n))) with (Z.of_nat n) by lia.
  change (Z.succ 0) with (1 + 0). rewrite <- (fmap_add_seqZ 1 0 (Z.of_nat n)).
  unfold fmap. change list_fmap with map. rewrite map_map. apply map_ext. intros i. do 4 f_equal. lia.
Qed.

Lemma write_hex_spec n Shift Value s :
  printing s →
  wp (write_hex n Shift Value) (λ o s', o = Done tt ∧ says (hex_digits n Shift Value) s s') s.
Proof.
  revert Shift s. induction n as [|n IH]; intros Shift s Hp; cbn [write_hex].
  { split; [done|apply says_nil]. }
  eapply wp_seq; [by apply put_spec| |by intros ? [? _]]. intros _ s1 [_ Hs].
  eapply wp_mono. { apply IH. by eapply says_printing. }
  intros o s' [-> Hs']. split; [done|]. rewrite hex_digits_S. by eapply (says_app [_]).
Qed.
(** *** Memory *)

Definition mem_ok s : Prop := ∀ x, byte_ok (mem s x).
Definition span (a n x : Z) : Prop := a <= x < a + n.

(** A run that keeps the flash and changes memory inside [F] only. *)
Record frame (F : Z → Prop) s s' : Prop := {
  frame_flash : flash_kept (dev s) (dev s');
  frame_printing : printing s → printing s';
  frame_ok : mem_ok s → mem_ok s';
  frame_mem x : ~ F x → mem s' x = mem s x
}.

Lemma frame_refl F s : frame F s s.
Proof. by split. Qed.

Lemma frame_trans F s1 s2 s3 : frame F s1 s2 → frame F s2 s3 → frame F s1 s3.
Proof.
  intros [] []. split; [by eapply flash_kept_trans|auto..|].
  intros x Hx. etransitivity; auto.
Qed.

Lemma frame_weaken (F G : Z → Prop) s s' : frame F s s' → (∀ x, F x → G x) → frame G s s'.
Proof. intros [] HG. split; auto. Qed.

Lemma says_frame txt F s s' : says txt s s' → frame F s s'.
Proof.
  intros Hs. pose proof (says_printing _ _ _ Hs). destruct Hs as (Hm & _ & Hf & _).
  split; [done|done| |].
  - intros Hok x. rewrite Hm. apply Hok.
  - intros x _. by rewrite Hm.
Qed.

Lemma store_ok a data (m : Z → Z) : (∀ x, byte_ok (m x)) → ∀ x, byte_ok (store a data m x).
Proof. intros Hm x. unfold store. case_match; [apply u8_range|apply Hm]. Qed.

Lemma store_outside a data m x : ~ span a (len data) x → store a data m x = m x.
Proof. unfold span, store. intros Hx. by rewrite rd_None by lia. Qed.

Lemma frame_store F h a data s :
  flash_kept (dev s) h → uart h = console s → (∀ x, span a (len data) x → F x) →
  frame F s (mkMachine h (store a data (mem s)) (ram s)).
Proof.
  intros Hf Hu HF. split; [done| | |].
  - unfold printing, console. simpl. by rewrite Hu.
  - intros Hok. intros x. by apply store_ok.
  - intros x Hx. apply store_outside. auto.
Qed.

Lemma store_nor a m m' x n :
  (∀ y, byte_ok (m y)) → 0 <= n → 0 <= a → a + n <= NOR_SIZE →
  ∀ b, span b n x → store b (nor_bytes m a (Z.to_nat n)) m' x = m (a + (x - b)).
Proof.
  intros Hm Hn Ha Hle b Hx. unfold span in Hx. unfold store, nor_bytes.
  rewrite rd_lookup by lia. rewrite list_lookup_fmap, lookup_seqZ_lt by lia. simpl.
  rewrite Z.mod_small by lia. rewrite u8_small by apply Hm. f_equal. lia.
Qed.

Lemma flash_read_loop_spec fuel FO B L s :
  0 <= FO → 0 <= L → FO + L <= NOR_SIZE → 0 <= B → B + L <= 2 ^ 64 → L <= Z.of_nat fuel * 4096 →
  wp (flash_read_loop fuel FO B L) (λ o s', ∃ r, o = Done r ∧ (r = 0 ∨ r = -1) ∧
    frame (span B L) s s' ∧ ram s' = ram s ∧
    (r = 0 → nor_ready (dev s) = true →
       ∀ x, span B L x → mem s' x = nor_mem (dev s) (FO + (x - B))) ∧
    (flawless (H := H) → r = 0)) s.
Proof.
  revert FO B L s. unfold NOR_SIZE.
  induction fuel as [|fuel IH]; intros FO B L s HFO HL Hle HB HBL Hf; cbn [flash_read_loop].
  { rewrite (proj2 (Z.ltb_ge _ _)) by lia. exists 0. split_and!; [done|by left|by split|done| |done].
    intros _ _ x Hx. unfold span in Hx. lia. }
  destruct (Z.ltb_spec 0 L) as [Hpos|Hz].
  2:{ exists 0. split_and!; [done|by left|by split|done| |done].
      intros _ _ x Hx. unfold span in Hx. lia. }
  set (C := if 4096 <? L then 4096 else L).
  assert (HC : 0 < C ∧ C <= L ∧ C <= 4096 ∧ L - C <= Z.of_nat fuel * 4096) by (unfold C; case_b; b2p; lia).
  clearbody C. destruct HC as (HC1 & HC2 & HC3 & HC4). rewrite (u32_small C), (u32_small (FO + C)) by lia.
  rewrite (u64_small (L - C)) by lia. unfold SPI_NOR_CMD_READ_DATA.
  unfold wp, mbind, M_bind, on_dev, upd_mem.
  pose proof (spi_keeps_uart (Cmd 3 FO) C (dev s) 0 0 0) as (Hu & _).
  destruct (al_spi_read (Cmd 3 FO) C (dev s)) as [[Err data] h1] eqn:E. simpl in Hu |- *.
  assert (Hbl : len data <= C) by (eapply read_length, E; lia).
  pose proof E as Hsp. apply read_data_spec in Hsp as (Hm & Hr & Hd); [|lia].
  set (s1 := mkMachine h1 (store B data (mem s)) (ram s)).
  assert (Hs1 : frame (span B L) s s1) by (apply frame_store; [done..|unfold span; lia]).
  destruct (Z.eqb_spec Err 0) as [->|Hne]; cbn [negb].
  2:{ exists (-1). split_and!; [done|by right|done|done|done|]. intros (polls & Hrel).
      pose proof (rel_read H polls Hrel (Cmd 3 FO) C (dev s)) as Hz. by rewrite E in Hz. }
  destruct (decide (L = C)) as [->|Hlt].
  { replace (C - C) with 0 by lia. replace (flash_read_loop fuel (FO + C) (B +u64 C) 0 s1)
      with (Some (Done 0, s1)) by (by destruct fuel). exists 0. split_and!; [done|by left|done|done| |done].
    intros _ Hrd x Hx. simpl. rewrite (Hd eq_refl Hrd), Z.mod_small by (unfold NOR_SIZE; lia).
    apply store_nor; [apply nor_mem_bytes|lia|lia|unfold NOR_SIZE; lia|done]. }
  rewrite (u64_small (B + C)) by lia.
  pose proof (wp_run _ _ _ (IH (FO + C) (B + C) (L - C) s1 ltac:(lia) ltac:(lia) ltac:(lia) ltac:(lia)
    ltac:(lia) ltac:(lia))) as (o & s2 & -> & r & -> & Hr01 & Hf2 & Hram & Hd2 & Hrel).
  exists r. split_and!; [done|done| |done| |done].
  - eapply frame_trans; [exact Hs1|]. eapply frame_weaken; [exact Hf2|]. unfold span. lia.
  - intros Hz Hrd x Hx. destruct (decide (x < B + C)) as [Hin|Hout].
    + rewrite (frame_mem _ _ _ Hf2) by (unfold span; lia). simpl.
      rewrite (Hd eq_refl Hrd), Z.mod_small by (unfold NOR_SIZE; lia).
      apply store_nor; [apply nor_mem_bytes|lia|lia|unfold NOR_SIZE; lia|unfold span in *; lia].
    + rewrite (Hd2 Hz (Hr Hrd)) by (unfold span in *; lia). simpl. rewrite Hm. f_equal. lia.
Qed.

Lemma SpiFlashRead_in FO B L s :
  0 <= FO → 0 <= L → FO + L <= NOR_SIZE → 0 <= B → B + L <= 2 ^ 64 →
  wp (SpiFlashRead FO B L) (λ o s', ∃ r, o = Done r ∧ (r = 0 ∨ r = -1) ∧
    frame (span B L) s s' ∧ ram s' = ram s ∧
    (r = 0 → nor_ready (dev s) = true →
       ∀ x, span B L x → mem s' x = nor_mem (dev s) (FO + (x - B))) ∧
    (flawless (H := H) → r = 0)) s.
Proof.
  intros HFO HL Hle HB HBL. unfold SpiFlashRead. unfold NOR_SIZE in Hle.
  rewrite u64_small by lia. rewrite (proj2 (Z.ltb_ge _ _)) by lia.
  apply flash_read_loop_spec; try done.
  pose proof (Z.div_mod L 4096). pose proof (Z.mod_pos_bound L 4096).
  pose proof (Z.div_pos L 4096). lia.
Qed.
(** [SpiloaderMemSet] fills its range. *)
Lemma mem_set_spec n Dst V i s :
  wp (mem_set n Dst V i) (λ o s', o = Done tt ∧ dev s' = dev s ∧ ram s' = ram s ∧
    ∀ x, mem s' x = if decide (span (Dst + i) (Z.of_nat n) x) then u8 V else mem s x) s.
Proof.
  revert i s. induction n as [|n IH]; intros i s; cbn [mem_set].
  { split_and!; [done..|]. intros x. rewrite decide_False by (unfold span; lia). done. }
  eapply wp_mono; [apply (IH (i + 1) (mkMachine (dev s) (store (Dst + i) [u8 V] (mem s)) (ram s)))|].
  intros o s' (-> & Hd & Hr & Hm). split_and!; [done..|]. intros x. rewrite Hm. simpl. unfold store.
  destruct (decide (x = Dst + i)) as [->|Hne].
  - replace (Dst + i - (Dst + i)) with 0 by lia. cbn [rd Z.eqb].
    rewrite (decide_True (P := span (Dst + i) _ _)) by (unfold span; lia).
    unfold u8. rewrite Z.mod_mod by lia. by case_decide.
  - rewrite rd_None by (simpl; lia). unfold span.
    destruct (decide (Dst + (i + 1) <= x < Dst + (i + 1) + Z.of_nat n));
      [rewrite decide_True by lia|rewrite decide_False by lia]; done.
Qed.

(** *** The data cache *)

Lemma CacheLine_pow : ∃ k, 0 <= k <= 17 ∧ CacheLineBytes = 2 ^ k.
Proof.
  unfold CacheLineBytes. change 0x0F with (Z.ones 4). rewrite Z.land_ones by lia.
  pose proof (Z.mod_pos_bound (Z.shiftr ctr_el0 16) (2 ^ 4) ltac:(lia)) as Hk.
  set (j := Z.shiftr ctr_el0 16 mod 2 ^ 4) in *. clearbody j. exists (2 + j). split; [lia|].
  rewrite Z.shiftl_mul_pow2 by lia. change 4 with (2 ^ 2). rewrite <- Z.pow_add_r by lia.
  apply u64_small. split; [lia|]. apply Z.pow_lt_mono_r; lia.
Qed.

Lemma land_mask k A :
  0 <= k → 0 <= A < 2 ^ 64 → Z.land A (u64 (Z.lnot (2 ^ k - 1))) = A / 2 ^ k * 2 ^ k.
Proof.
  intros Hk HA. unfold u64. rewrite <- Z.land_ones, Z.land_assoc by lia.
  rewrite (Z.land_comm A), <- Z.land_assoc, Z.land_ones, (Z.mod_small A) by lia.
  replace (2 ^ k - 1) with (Z.ones k) by (rewrite Z.ones_equiv; lia).
  rewrite Z.land_comm, <- Z.ldiff_land, Z.ldiff_ones_r by done.
  rewrite Z.shiftl_mul_pow2, Z.shiftr_div_pow2 by lia. done.
Qed.

(** The lines cleaned from [Cursor] to [End]. *)
Lemma clean_lines_spec fuel c i j s :
  0 < c → 0 <= i → j * c < 2 ^ 64 → j - i <= Z.of_nat fuel →
  wp (clean_lines fuel c (i * c) (j * c)) (λ o s', o = Done tt ∧ dev s' = dev s ∧ mem s' = mem s ∧
    ∀ x, ram s' x = if decide (i <= x / c < j) then mem s x else ram s x) s.
Proof.
  intros Hc. revert i s. induction fuel as [|fuel IH]; intros i s Hi Hj Hf; cbn [clean_lines].
  { rewrite (proj2 (Z.ltb_ge _ _)) by nia. split_and!; [done..|]. intros x.
    by rewrite decide_False by lia. }
  destruct (Z.ltb_spec (i * c) (j * c)) as [Hlt|Hge].
  2:{ split_and!; [done..|]. intros x. by rewrite decide_False by nia. }
  assert (Hij : i + 1 <= j) by nia.
  replace (i * c +u64 c) with ((i + 1) * c) by (rewrite u64_small by nia; lia).
  eapply wp_mono; [apply (IH (i + 1) (mkMachine (dev s) (mem s)
    (λ x, if x / c =? i * c / c then mem s x else ram s x))); lia|].
  intros o s' (-> & Hd & Hm & Hr). split_and!; [done..|]. intros x. rewrite Hr. simpl.
  rewrite Z.div_mul by lia.
  destruct (Z.eqb_spec (x / c) i) as [<-|Hne].
  - rewrite decide_False by lia. by rewrite decide_True by lia.
  - destruct (decide (i + 1 <= x / c < j)); [rewrite decide_True by lia|rewrite decide_False by lia]; done.
Qed.

Lemma Clean_spec A L s :
  0 <= A → 0 <= L → A + L <= 2 ^ 64 →
  wp (CleanInvalidateDataCacheRange A L) (λ o s', o = Done tt ∧ dev s' = dev s ∧ mem s' = mem s ∧
    ∀ x, ram s' x =
      if decide (0 < L ∧ A + L + CacheLineBytes <= 2 ^ 64 ∧
                 A / CacheLineBytes <= x / CacheLineBytes <= (A + L - 1) / CacheLineBytes)
      then mem s x else ram s x) s.
Proof.
  intros HA HL HAL. unfold CleanInvalidateDataCacheRange.
  destruct (Z.eqb_spec L 0) as [->|Hne].
  { split_and!; [done..|]. intros x. by rewrite decide_False by lia. }
  destruct CacheLine_pow as (k & Hk & Hc).
  assert (Hpos : 0 < 2 ^ k) by lia. assert (Hbig : 2 ^ k <= 2 ^ 17) by (apply Z.pow_le_mono_r; lia).
  rewrite Hc. clear Hc. rewrite !land_mask by (lia || apply u64_range).
  assert (Hend : A +u64 L +u64 2 ^ k -u64 1 = u64 (A + L + (2 ^ k - 1))).
  { unfold u64. rewrite Zminus_mod_idemp_l.
    replace ((A + L) mod 2 ^ 64 + 2 ^ k - 1) with ((A + L) mod 2 ^ 64 + (2 ^ k - 1)) by lia.
    by rewrite Z.add_mod_idemp_l. }
  rewrite Hend. set (c := 2 ^ k) in *. clearbody c.
  destruct (decide (A + L + c <= 2 ^ 64)) as [Hin|Hout].
  - rewrite (u64_small (A + L + (c - 1))) by lia.
    assert (Hdiv : (A + L + (c - 1)) / c = (A + L - 1) / c + 1).
    { replace (A + L + (c - 1)) with (A + L - 1 + 1 * c) by lia. by rewrite Z.div_add by lia. }
    rewrite Hdiv. pose proof (Z.div_le_mono A (A + L - 1) c Hpos ltac:(lia)).
    pose proof (Z.div_pos A c HA Hpos).
    pose proof (Z.mul_div_le (A + L + (c - 1)) c Hpos).
    eapply wp_mono; [apply clean_lines_spec; [done..|nia|]|].
    { replace (((A + L - 1) / c + 1) * c - A / c * c) with (((A + L - 1) / c + 1 - A / c) * c) by lia.
      rewrite Z.div_mul by lia. lia. }
    intros o s' (-> & Hd & Hm & Hr). split_and!; [done..|]. intros x. rewrite Hr.
    destruct (decide (A / c <= x / c < (A + L - 1) / c + 1));
      [rewrite decide_True by lia|rewrite decide_False by lia]; done.
  - replace (A + L + (c - 1)) with (A + L + (c - 1) - 2 ^ 64 + 1 * 2 ^ 64) by lia.
    unfold u64. rewrite Z_mod_plus_full, Z.mod_small by lia. rewrite (Z.div_small (A + L + (c - 1) - 2 ^ 64)) by lia.
    pose proof (Z.div_pos A c HA Hpos). rewrite Z.mul_0_l.
    cbn [clean_lines]. rewrite (proj2 (Z.ltb_ge _ _)) by nia. split_and!; [done..|].
    intros x. by rewrite decide_False by lia.
Qed.
(** *** Loading *)

Definition print_ok {A} (m : M A) (o : outcome A) : Prop :=
  ∀ s, printing s → wp m (λ o' s', o' = o ∧ ∃ txt, says txt s s') s.

Lemma write_ok str : 0 ∈ str → print_ok (UartWrite str) (Done tt).
Proof.
  intros Hz s Hp. eapply wp_mono; [by apply UartWrite_spec|]. intros o s' [-> Hs]. eauto.
Qed.

Lemma hex_ok n Shift Value : print_ok (write_hex n Shift Value) (Done tt).
Proof.
  intros s Hp. eapply wp_mono; [by apply write_hex_spec|]. intros o s' [-> Hs]. eauto.
Qed.

Lemma print_seq {A B} (m : M A) (a : A) (f : A → M B) o :
  print_ok m (Done a) → print_ok (f a) o → print_ok (m ≫= f) o.
Proof.
  intros Hm Hf s Hp. eapply wp_seq; [by apply Hm| |by intros ? [? _]].
  intros a' s1 ([= ->] & t1 & Hs1). eapply wp_mono; [apply Hf; by eapply says_printing|].
  intros o' s' (-> & t2 & Hs2). split; [done|]. exists (t1 ++ t2). by eapply says_app.
Qed.

Lemma lit_nul str : 0 ∈ lit str.
Proof. unfold lit. rewrite elem_of_app. right. by left. Qed.

Lemma line_nul str : 0 ∈ line str.
Proof. unfold line. rewrite elem_of_app. right. do 2 right. by left. Qed.

#[local] Hint Resolve lit_nul line_nul write_ok hex_ok : core.

Lemma panic_ok {A} msg : 0 ∈ msg → print_ok (SpiloaderPanic (A := A) msg) Panicked.
Proof.
  intros Hz. unfold SpiloaderPanic. do 3 (eapply print_seq; [by auto|]).
  intros s _. split; [done|]. exists []. apply says_nil.
Qed.

(** The rule for a call that prints inside a computation. *)
Lemma wp_print {A B} (m : M A) (a : A) (f : A → M B) Q s :
  print_ok m (Done a) → printing s →
  (∀ txt s', says txt s s' → wp (f a) Q s') → wp (m ≫= f) Q s.
Proof.
  intros Hm Hp Hf. eapply wp_seq; [by apply Hm| |by intros ? [? _]].
  intros a' s' ([= ->] & txt & Hs). eauto.
Qed.

End Runs.

Ltac prints := first [apply write_ok; (apply lit_nul || apply line_nul) | apply hex_ok].

Section Loading.
Context {H : Type} `{UartLaws H}.
Implicit Types s : Machine H.

(** The same along a run that has only printed since [s]. *)
Lemma wp_print_from {A B} (m : M A) (a : A) (f : A → M B) Q s s1 :
  print_ok m (Done a) → printing s → (∃ txt, says txt s s1) →
  (∀ s2, (∃ txt, says txt s s2) → wp (f a) Q s2) → wp (m ≫= f) Q s1.
Proof.
  intros Hm Hp (t1 & Hs1) Hf. eapply wp_print; [exact Hm|by eapply says_printing|].
  intros t2 s2 Hs2. apply Hf. exists (t1 ++ t2). by eapply says_app.
Qed.

(** The addresses of a segment, and what the image has there. *)
Definition seg (p : ELF64_PHDR) (x : Z) : Prop := span (Target p) (p_memsz p) x.
Definition seg_val (nor : Z → Z) (p : ELF64_PHDR) (x : Z) : Z :=
  if x <? Target p + p_filesz p
  then nor (CCR2004_SPI_FLASH_OFFSET + p_offset p + (x - Target p)) else 0.

(** The cache clean of a segment does not run over the end of the address space. *)
Definition cleanable (p : ELF64_PHDR) : Prop := Target p + p_memsz p + CacheLineBytes <= 2 ^ 64.

(** Every loaded segment that holds [x] is cleaned: none of them ends within a
    cache line of the end of the address space. *)
Definition cleaned_at (ps : list ELF64_PHDR) (x : Z) : Prop :=
  Forall (λ p, p_type p = PT_LOAD → seg p x → cleanable p) ps.

(** What a cache clean leaves in step. *)
Definition in_step s (x : Z) : Prop := ram s x = mem s x.

Lemma Clean_in_step A L s s' x :
  0 < L → A + L + CacheLineBytes <= 2 ^ 64 → mem s' = mem s → span A L x →
  ram s' x = (if decide (0 < L ∧ A + L + CacheLineBytes <= 2 ^ 64 ∧
                 A / CacheLineBytes <= x / CacheLineBytes <= (A + L - 1) / CacheLineBytes)
              then mem s x else ram s x) →
  in_step s' x.
Proof.
  intros HL Hc Hm Hx Hr. unfold in_step. destruct CacheLine_pow as (k & Hk & Hck).
  assert (Hp : 0 < CacheLineBytes) by (rewrite Hck; lia).
  rewrite Hr, Hm, decide_True; [done|]. unfold span in Hx. split_and!; try done; apply Z.div_le_mono; lia.
Qed.

(** The first part of [LoadSegment]: the bytes of the file. *)
Lemma load_file_spec p s :
  phdr_ok p → p_filesz p <= p_memsz p → Target p + p_memsz p < 2 ^ 64 →
  p_offset p + p_filesz p <= SPILOADER_MAX_IMAGE_SIZE → printing s →
  wp (if 0 <? p_filesz p then
        Err ← SpiFlashRead (CCR2004_SPI_FLASH_OFFSET +u32 u32 (p_offset p)) (Target p) (p_filesz p);
        if negb (Err =? 0) then SpiloaderPanic (lit "segment read") else mret tt
      else mret (M := M) tt)
    (λ o s', frame (span (Target p) (p_filesz p)) s s' ∧ ram s' = ram s ∧
       (flawless (H := H) → o = Done tt) ∧
       (o = Done tt → nor_ready (dev s) = true → ∀ x, span (Target p) (p_filesz p) x →
          mem s' x = seg_val (nor_mem (dev s)) p x)) s.
Proof.
  intros Hp Hfm HT Ho Hpr. pose proof (Target_range p Hp). destruct Hp.
  unfold SPILOADER_MAX_IMAGE_SIZE in Ho.
  destruct (Z.ltb_spec 0 (p_filesz p)) as [Hf|Hf].
  2:{ split_and!; [apply frame_refl|done|done|]. intros _ _ x Hx. unfold span in Hx. lia. }
  unfold CCR2004_SPI_FLASH_OFFSET. rewrite (u32_small (p_offset p)), u32_small by lia.
  eapply wp_seq; [apply SpiFlashRead_in; unfold NOR_SIZE; lia| |by intros ? (? & ? & _)].
  intros Err s1 (r & [= ->] & Hr & Hfr & Hram & Hd & Hfl).
  destruct Hr as [-> | ->]; simpl.
  - split_and!; [done..|]. intros _ Hrd x Hx. rewrite (Hd eq_refl Hrd x Hx). unfold seg_val.
    unfold span in Hx. rewrite (proj2 (Z.ltb_lt _ _)) by lia. unfold CCR2004_SPI_FLASH_OFFSET. f_equal.
  - eapply wp_mono; [apply panic_ok; [apply lit_nul|]; by apply (frame_printing _ _ _ Hfr)|].
    intros o s' (-> & txt & Hs). split_and!.
    + eapply frame_trans; [done|]. by eapply says_frame.
    + destruct Hs as (_ & Hs & _). congruence.
    + intros Hflaw. by specialize (Hfl Hflaw).
    + done.
Qed.

(** A turn of the loader: the segment is in memory and behind the cache; nothing
    else changed. *)
Lemma LoadSegment_spec p s :
  phdr_ok p → p_filesz p <= p_memsz p → Target p + p_memsz p < 2 ^ 64 →
  p_offset p + p_filesz p <= SPILOADER_MAX_IMAGE_SIZE → printing s →
  wp (LoadSegment p) (λ o s', frame (seg p) s s' ∧ (flawless (H := H) → o = Done tt) ∧
    (o = Done tt → nor_ready (dev s) = true → ∀ x, seg p x → mem s' x = seg_val (nor_mem (dev s)) p x) ∧
    (o = Done tt → ∀ x, (seg p x → cleanable p → in_step s' x) ∧
                        (~ seg p x → in_step s x → in_step s' x))) s.
Proof.
  intros Hp Hfm HT Ho Hpr. pose proof (Target_range p Hp) as HTr.
  unfold LoadSegment. eapply wp_seq; [by apply load_file_spec| |].
  2:{ intros s1 (Hf1 & _ & Hfl & _). split_and!; [|by intros Hx; specialize (Hfl Hx)|done|done].
      eapply frame_weaken; [exact Hf1|]. unfold seg, span. lia. }
  intros [] s1 (Hf1 & Hram1 & _ & Hd1). destruct Hp.
  assert (Hset : wp (if p_filesz p <? p_memsz p then
         _ ← SpiloaderMemSet (Target p +u64 p_filesz p) 0 (p_memsz p -u64 p_filesz p); mret tt
       else mret (M := M) tt) (λ o s2, o = Done tt ∧ dev s2 = dev s1 ∧ ram s2 = ram s1 ∧
      ∀ x, mem s2 x = if decide (span (Target p + p_filesz p) (p_memsz p - p_filesz p) x)
                      then 0 else mem s1 x) s1).
  { destruct (Z.ltb_spec (p_filesz p) (p_memsz p)) as [Hlt|Hge].
    - rewrite (u64_small (Target p + _)), (u64_small (p_memsz p - _)) by lia.
      unfold SpiloaderMemSet. apply wp_bind, wp_bind. eapply wp_mono; [apply mem_set_spec|].
      intros o s2 (-> & Hd & Hr & Hm). split_and!; [done..|]. intros x. rewrite Hm.
      rewrite Z2Nat.id, Z.add_0_r by lia. done.
    - split_and!; [done..|]. intros x. rewrite decide_False by (unfold span; lia). done. }
  eapply wp_seq; [exact Hset| |by intros ? [? _]].
  intros [] s2 (_ & Hdev2 & Hram2 & Hm2).
  eapply wp_mono; [apply Clean_spec; lia|]. intros o s3 (-> & Hdev3 & Hm3 & Hr3).
  assert (Hout : ∀ x, ~ seg p x → mem s3 x = mem s x).
  { intros x Hx. rewrite Hm3, Hm2, decide_False by (unfold seg, span in *; lia).
    apply (frame_mem _ _ _ Hf1). unfold seg, span in *. lia. }
  split_and!; [|done| |].
  - split; [|unfold printing, console; rewrite Hdev3, Hdev2; apply (frame_printing _ _ _ Hf1)| |done].
    + rewrite Hdev3, Hdev2. apply (frame_flash _ _ _ Hf1).
    + intros Hok x. rewrite Hm3, Hm2.
      destruct (decide (span _ _ x)); [unfold byte_ok; lia|]. by apply (frame_ok _ _ _ Hf1).
  - intros _ Hrd x Hx. rewrite Hm3, Hm2. unfold seg, span in Hx.
    destruct (decide (span _ _ x)) as [Hd|Hd]; unfold span in Hd.
    + unfold seg_val. by rewrite (proj2 (Z.ltb_ge _ _)) by lia.
    + apply (Hd1 eq_refl Hrd). unfold span. lia.
  - intros _ x. split.
    + intros Hx Hc. eapply (Clean_in_step (Target p) (p_memsz p) s2); [|exact Hc|exact Hm3|exact Hx|apply Hr3].
      unfold seg, span in Hx. lia.
    + intros Hx Hs. unfold in_step in *. rewrite Hr3, Hram2, Hram1, Hs, (Hout x Hx).
      destruct (decide (_ ∧ _)); [|done]. by rewrite <- Hm3, (Hout x Hx).
Qed.
(** *** The image *)

(** The image as the flash holds it. *)
Definition image_header (nor : Z → Z) : ELF64_EHDR :=
  ehdr_at (λ i, nor (CCR2004_SPI_FLASH_OFFSET + i)) 0.
Definition image_phdr (nor : Z → Z) (Index : Z) : ELF64_PHDR :=
  phdr_nth (λ i, nor (CCR2004_SPI_FLASH_OFFSET + e_phoff (image_header nor) + i)) 0 Index.
Definition image_phdrs (nor : Z → Z) : list ELF64_PHDR :=
  map (image_phdr nor) (seqZ 0 (e_phnum (image_header nor))).

(** The loader accepts it. *)
Definition accepted (nor : Z → Z) : Prop :=
  ValidateElfHeader (image_header nor) = 0 ∧
  Forall (seg_ok SPILOADER_LOAD_ADDR (__stack_top - SPILOADER_LOAD_ADDR)) (image_phdrs nor).

(** An address of a loaded segment; memory with the segments placed in order. *)
Definition loads (ps : list ELF64_PHDR) (x : Z) : Prop := Exists (λ p, p_type p = PT_LOAD ∧ seg p x) ps.
#[export] Instance seg_dec p x : Decision (seg p x).
Proof. unfold seg, span. solve_decision. Defined.
Definition placed (nor : Z → Z) (ps : list ELF64_PHDR) (m : Z → Z) (x : Z) : Z :=
  foldl (λ b p, if decide (p_type p = PT_LOAD ∧ seg p x) then seg_val nor p x else b) (m x) ps.

(** The loader's own objects. *)
Definition objects (x : Z) : Prop := span Header_addr 64 x ∨ span mProgramHeaders (32 * 56) x.

Lemma objects_reserved `{!PlatformLaws} x : objects x → SPILOADER_LOAD_ADDR <= x < __stack_top.
Proof.
  pose proof header_reserved. pose proof phdrs_reserved. unfold objects, span. lia.
Qed.

Lemma seg_reserved `{!PlatformLaws} p x :
  seg_ok SPILOADER_LOAD_ADDR (__stack_top - SPILOADER_LOAD_ADDR) p → p_type p = PT_LOAD →
  seg p x → ~ objects x.
Proof.
  intros Hs Ht Hx Ho. apply objects_reserved in Ho. specialize (Hs Ht). unfold seg, span in Hx. lia.
Qed.

Lemma seg_val_ext n1 n2 p x : (∀ y, n1 y = n2 y) → seg_val n1 p x = seg_val n2 p x.
Proof. intros Hn. unfold seg_val. by rewrite Hn. Qed.

(** The loop over the program headers; it keeps the header and the program
    headers it reads from memory. *)
Lemma load_loop_spec `{!PlatformLaws} hdr ph nor n fuel Index s :
  Z.of_nat n = e_phnum hdr - Index → 0 <= Index → e_phnum hdr <= 32 → (n <= fuel)%nat →
  (∀ j, phdr_ok (ph j)) →
  Forall (seg_ok SPILOADER_LOAD_ADDR (__stack_top - SPILOADER_LOAD_ADDR)) (map ph (seqZ Index (Z.of_nat n))) →
  ehdr_at (mem s) Header_addr = hdr →
  (∀ j, 0 <= j < e_phnum hdr → phdr_nth (mem s) mProgramHeaders j = ph j) →
  printing s → nor_ready (dev s) = true → (∀ x, nor_mem (dev s) x = nor x) →
  let ps := map ph (seqZ Index (Z.of_nat n)) in
  wp (load_loop fuel Index) (λ o s', frame (loads ps) s s' ∧ (flawless (H := H) → o = Done tt) ∧
    (o = Done tt → (∀ x, mem s' x = placed nor ps (mem s) x) ∧ ehdr_at (mem s') Header_addr = hdr ∧
       (∀ x, cleaned_at ps x → loads ps x ∨ in_step s x → in_step s' x))) s.
Proof.
  revert fuel Index s. induction n as [|n IH]; intros fuel Index s Hn HI Hle Hf Hok Hseg Hh Hph Hpr Hrd Hnor;
    destruct fuel as [|fuel]; try lia; cbn [load_loop]; apply wp_get; rewrite Hh.
  1,2: rewrite (proj2 (Z.ltb_ge _ _)) by lia; split_and!; [apply frame_refl|done|]; intros _;
    split_and!; [done..|]; intros x _ [Hx|Hx]; [by apply Exists_nil in Hx|done].
  rewrite (proj2 (Z.ltb_lt _ _)) by lia.
  rewrite seqZ_cons in Hseg |- * by lia. change (Z.succ Index) with (Index + 1) in *.
  replace (Z.pred (Z.of_nat (S n))) with (Z.of_nat n) in * by lia. cbn [map] in *.
  apply Forall_cons_1 in Hseg as [Hseg Hrest]. set (p := ph Index) in *.
  set (ps := map ph (seqZ (Index + 1) (Z.of_nat n))) in *.
  (* one turn *)
  assert (Hturn : wp (load_phdr Index) (λ o s1,
      frame (λ x, p_type p = PT_LOAD ∧ seg p x) s s1 ∧ (flawless (H := H) → o = Done tt) ∧
      (o = Done tt → ∀ x, mem s1 x = placed nor [p] (mem s) x) ∧
      (o = Done tt → ∀ x, (p_type p = PT_LOAD → seg p x → cleanable p → in_step s1 x) ∧
         (~ (p_type p = PT_LOAD ∧ seg p x) → in_step s x → in_step s1 x))) s).
  { unfold load_phdr. apply wp_get. rewrite Hph by lia. fold p.
    destruct (Z.eqb_spec (p_type p) PT_LOAD) as [Ht|Ht]; cbn [negb].
    2:{ split_and!; [apply frame_refl|done|..].
        - intros _ x. unfold placed. cbn [foldl]. by rewrite decide_False by tauto.
        - intros _ x. tauto. }
    assert (Hline : ∀ s1, (∃ txt, says txt s s1) → wp (LoadSegment p) (λ o s1',
      frame (λ x, p_type p = PT_LOAD ∧ seg p x) s s1' ∧ (flawless (H := H) → o = Done tt) ∧
      (o = Done tt → ∀ x, mem s1' x = placed nor [p] (mem s) x) ∧
      (o = Done tt → ∀ x, (p_type p = PT_LOAD → seg p x → cleanable p → in_step s1' x) ∧
         (~ (p_type p = PT_LOAD ∧ seg p x) → in_step s x → in_step s1' x))) s1).
    { intros s1 (txt & Hs1). destruct (Hseg Ht) as (Hfm & HT & Ho & _).
      pose proof Hs1 as (Hm1 & Hr1 & [Hn1 Hrd1] & _).
      eapply wp_mono; [apply (LoadSegment_spec p s1 (Hok Index) Hfm HT Ho); by eapply says_printing|].
      intros o s2 (Hfr & Hfl & Hd & Hin). split_and!.
      - eapply frame_trans; [by eapply says_frame|]. by eapply frame_weaken.
      - done.
      - intros Hdone x. unfold placed. cbn [foldl]. destruct (decide (p_type p = PT_LOAD ∧ seg p x)) as [[_ Hx]|Hx].
        + rewrite (Hd Hdone (Hrd1 Hrd) x Hx). apply seg_val_ext. intros y. by rewrite Hn1.
        + rewrite (frame_mem _ _ _ Hfr) by tauto. by rewrite Hm1.
      - intros Hdone x. destruct (Hin Hdone x) as [Hi1 Hi2]. split; [auto|].
        intros Hx Hs. apply Hi2; [tauto|]. unfold in_step in *. by rewrite Hr1, Hm1. }
    do 5 (apply (wp_print_from _ tt _ _ s); [prints|done|eauto using says_nil|intros ? ?]). by apply Hline. }
  eapply wp_seq; [exact Hturn| |].
  2:{ intros s1 (Hf1 & Hfl & _). split_and!; [|intros Hx; by specialize (Hfl Hx)|done].
      eapply frame_weaken; [exact Hf1|]. intros x Hx. by apply Exists_cons_hd. }
  intros [] s1 (Hf1 & _ & Hm1 & Hin1).
  replace (u16 (Index + 1)) with (Index + 1) by (rewrite u16_small by lia; done).
  assert (Hkeep : ∀ x, objects x → mem s1 x = mem s x).
  { intros x Hx. apply (frame_mem _ _ _ Hf1). intros [Ht Hsg]. by eapply (seg_reserved p x Hseg Ht). }
  assert (Hh1 : ehdr_at (mem s1) Header_addr = hdr).
  { rewrite <- Hh. apply ehdr_at_ext. intros i Hi. apply Hkeep. left. unfold span. lia. }
  eapply wp_mono.
  { apply (IH fuel (Index + 1) s1); try done; try lia.
    - intros j Hj. rewrite <- Hph by done. apply phdr_at_ext. intros i Hi. apply Hkeep. right.
      unfold span, sizeof_ELF64_PHDR. lia.
    - by apply (frame_printing _ _ _ Hf1).
    - by apply (frame_flash _ _ _ Hf1).
    - intros x. rewrite <- Hnor. apply (frame_flash _ _ _ Hf1). }
  fold ps. intros o s2 (Hf2 & Hfl2 & Hd2). split_and!; [|done|].
  - eapply frame_trans; eapply frame_weaken; [exact Hf1| |exact Hf2|]; intros x Hx;
      [by apply Exists_cons_hd|by apply Exists_cons_tl].
  - intros Hdone. destruct (Hd2 Hdone) as (Hm2 & Hh2 & Hin2). split_and!; [|done|].
    + intros x. rewrite Hm2. unfold placed. by rewrite (Hm1 eq_refl).
    + intros x Hc Hx. apply Forall_cons_1 in Hc as [Hc Hcs]. apply Hin2; [done|].
      destruct (Hin1 eq_refl x) as [Hi1 Hi2]. destruct (decide (p_type p = PT_LOAD ∧ seg p x)) as [[Ht Hsg]|Hno].
      * right. apply Hi1; auto.
      * destruct Hx as [Hx|Hx]; [|right; by apply Hi2].
        apply Exists_cons in Hx as [Hx|Hx]; [done|by left].
Qed.
#[export] Instance accepted_dec nor : Decision (accepted nor).
Proof. unfold accepted. solve_decision. Defined.

Lemma image_header_range nor :
  (∀ x, byte_ok (nor x)) →
  0 <= e_phoff (image_header nor) ∧ 0 <= e_phnum (image_header nor) ∧ ∀ i, phdr_ok (image_phdr nor i).
Proof.
  intros Hn. set (m i := nor (CCR2004_SPI_FLASH_OFFSET + i)).
  assert (Hm : ∀ i, byte_ok (m i)) by (intros i; apply Hn).
  split_and!; [apply (ld_range 8 m _ Hm)|apply (ld_range 2 m _ Hm)|].
  intros i. apply phdr_at_ok. intros j. apply Hn.
Qed.

(** What a run of [LoadImageFromFlash] from [s] may end in. *)
Definition load_result (nor : Z → Z) (s : Machine H) (o : outcome (Z * option SPILOADER_RESULT))
    (s' : Machine H) : Prop :=
  match o with
  | Done (0, Some r) =>
      accepted nor ∧ r = mkResult (e_entry (image_header nor)) __stack_top ∧
      (∀ x, ~ objects x → mem s' x = placed nor (image_phdrs nor) (mem s) x) ∧
      (∀ x, loads (image_phdrs nor) x → cleaned_at (image_phdrs nor) x → in_step s' x)
  | Done (r, _) => r = -1
  | Panicked => accepted nor
  end.

(** The status of a run on a flawless flash. *)
Definition load_status (nor : Z → Z) (o : outcome (Z * option SPILOADER_RESULT)) : Prop :=
  if decide (accepted nor) then ∃ r, o = Done (0, Some r) else o = Done (-1, None).

(** The addresses a run may write. *)
Definition may_write (nor : Z → Z) (x : Z) : Prop :=
  objects x ∨ accepted nor ∧ loads (image_phdrs nor) x.

Definition load_post (nor : Z → Z) s o s' : Prop :=
  frame (may_write nor) s s' ∧ load_result nor s o s' ∧ (flawless (H := H) → load_status nor o).

(** A run that gives up: the message is printed, -1 returned. *)
Lemma give_up_spec nor msg s s1 :
  frame objects s s1 → printing s1 → 0 ∈ msg → (flawless (H := H) → ~ accepted nor) →
  wp (_ ← UartWrite msg; mret (M := M) (-1, None)) (load_post nor s) s1.
Proof.
  intros Hf Hp Hz Hno. eapply wp_print; [by apply write_ok|done|]. intros txt s2 Hs. split_and!.
  - eapply frame_weaken; [eapply frame_trans; [exact Hf|by eapply says_frame]|]. by left.
  - done.
  - intros Hfl. unfold load_status. by rewrite decide_False by auto.
Qed.

(** The rest of the loader once the program headers are in memory. *)
Lemma load_segments_spec `{!PlatformLaws} nor s s1 :
  frame objects s s1 → printing s1 → nor_ready (dev s1) = true →
  (∀ x, nor_mem (dev s1) x = nor x) → (∀ x, byte_ok (nor x)) → ValidateElfHeader (image_header nor) = 0 →
  ehdr_at (mem s1) Header_addr = image_header nor →
  (∀ j, 0 <= j < e_phnum (image_header nor) → phdr_nth (mem s1) mProgramHeaders j = image_phdr nor j) →
  accepted nor →
  wp (_ ← UartWrite (lit "SpiLoader: ELF bytes <= 0x");
      _ ← UartWriteHex64 (highest (image_phdrs nor) (e_phoff (image_header nor) + e_phnum (image_header nor) * 56));
      _ ← UartWrite (line "");
      _ ← load_loop (Z.to_nat SPILOADER_PHDR_LIMIT) 0;
      m ← get_mem;
      mret (0, Some (mkResult (e_entry (ehdr_at m Header_addr)) __stack_top)))
    (load_post nor s) s1.
Proof.
  intros Hf Hp Hrd Hnor Hb Hv Hh Hph Hacc.
  destruct (image_header_range nor Hb) as (Ho & Hn & Hok).
  destruct (ValidateElfHeader_bounds _ Hv Ho Hn) as [Hnum _].
  do 2 (apply (wp_print_from _ tt _ _ s1); [prints|done|eauto using says_nil|intros ? ?]).
  apply (wp_print_from _ tt _ _ s1); [prints|done|eauto|]. intros sP (txt & Hs).
  pose proof Hs as (Hm2 & Hr2 & [Hn2 Hrd2] & _).
  assert (Hps : map (image_phdr nor) (seqZ 0 (Z.of_nat (Z.to_nat (e_phnum (image_header nor))))) = image_phdrs nor)
    by (by rewrite Z2Nat.id by lia).
  eapply wp_seq.
  { apply (load_loop_spec (image_header nor) (image_phdr nor) nor (Z.to_nat (e_phnum (image_header nor)))).
    - rewrite Z2Nat.id by lia. lia.
    - lia.
    - lia.
    - unfold SPILOADER_PHDR_LIMIT. lia.
    - done.
    - rewrite Hps. apply Hacc.
    - by rewrite Hm2.
    - by rewrite Hm2.
    - by eapply says_printing.
    - auto.
    - intros x. by rewrite Hn2. }
  all: rewrite Hps.
  - intros [] s3 (Hf3 & _ & Hd3). apply wp_get, wp_ret. destruct (Hd3 eq_refl) as (Hm3 & Hh3 & Hin3). split_and!.
    + eapply frame_trans; [eapply frame_weaken; [exact Hf|by left]|].
      eapply frame_trans; [by eapply says_frame|]. eapply frame_weaken; [exact Hf3|]. by right.
    + unfold load_result. rewrite Hh3. split_and!; [done|done| |].
      * intros x Hx. rewrite Hm3, Hm2. unfold placed. by rewrite (frame_mem _ _ _ Hf).
      * intros Hc x Hx. apply Hin3; auto.
    + intros _. unfold load_status. rewrite decide_True by done. eauto.
  - intros s3 (Hf3 & Hfl & _). split_and!.
    + eapply frame_trans; [eapply frame_weaken; [exact Hf|by left]|].
      eapply frame_trans; [by eapply says_frame|]. eapply frame_weaken; [exact Hf3|]. by right.
    + done.
    + intros Hflaw. by specialize (Hfl Hflaw).
Qed.
(** The second read: the program headers. *)
Lemma phdrs_read_spec `{!PlatformLaws} nor s1 :
  nor_ready (dev s1) = true → (∀ x, nor_mem (dev s1) x = nor x) → (∀ x, byte_ok (nor x)) →
  ValidateElfHeader (image_header nor) = 0 → ehdr_at (mem s1) Header_addr = image_header nor →
  wp (SpiFlashRead (CCR2004_SPI_FLASH_OFFSET +u32 u32 (e_phoff (image_header nor))) mProgramHeaders
        (e_phnum (image_header nor) * sizeof_ELF64_PHDR))
    (λ o s2, ∃ r, o = Done r ∧ (r = 0 ∨ r = -1) ∧ frame objects s1 s2 ∧ (flawless (H := H) → r = 0) ∧
       (r = 0 → ehdr_at (mem s2) Header_addr = image_header nor ∧
          ∀ j, 0 <= j < e_phnum (image_header nor) → phdr_nth (mem s2) mProgramHeaders j = image_phdr nor j)) s1.
Proof.
  intros Hrd Hnor Hb Hv Hh. destruct (image_header_range nor Hb) as (Ho & Hn & _).
  destruct (ValidateElfHeader_bounds _ Hv Ho Hn) as [Hnum Hend].
  pose proof header_reserved. pose proof phdrs_reserved. pose proof objects_disjoint.
  pose proof stack_top_range. unfold SPILOADER_MAX_IMAGE_SIZE in Hend.
  unfold SPILOADER_LOAD_ADDR in *. change sizeof_ELF64_PHDR with 56.
  set (off := e_phoff (image_header nor)) in *. set (n := e_phnum (image_header nor)) in *.
  unfold CCR2004_SPI_FLASH_OFFSET. rewrite (u32_small off), (u32_small (0x800000 + off)) by lia.
  eapply wp_mono; [apply SpiFlashRead_in; unfold NOR_SIZE; lia|].
  intros o s2 (r & -> & Hr & Hf & _ & Hd & Hfl). exists r. split_and!; [done|done| |done|].
  - eapply frame_weaken; [exact Hf|]. unfold objects, span. lia.
  - intros ->. split.
    + rewrite <- Hh. apply ehdr_at_ext. intros i Hi. apply (frame_mem _ _ _ Hf). unfold span. lia.
    + intros j Hj. apply phdr_at_ext. intros i Hi. unfold sizeof_ELF64_PHDR.
      rewrite (Hd eq_refl Hrd) by (unfold span; lia). rewrite Hnor. unfold CCR2004_SPI_FLASH_OFFSET.
      fold off. f_equal. lia.
Qed.

Lemma LoadImage_run `{!PlatformLaws} nor s :
  printing s → nor_ready (dev s) = true → (∀ x, nor_mem (dev s) x = nor x) →
  wp LoadImageFromFlash (load_post nor s) s.
Proof.
  intros Hp Hrd Hnor. assert (Hb : ∀ x, byte_ok (nor x)) by (intros x; rewrite <- Hnor; apply nor_mem_bytes).
  destruct (image_header_range nor Hb) as (Ho & Hn & Hok).
  pose proof header_reserved as Hhr. pose proof stack_top_range.
  unfold SPILOADER_LOAD_ADDR in Hhr.
  assert (Hfo : ∀ s1, frame (span Header_addr 64) s s1 → frame objects s s1).
  { intros s1 Hf. eapply frame_weaken; [exact Hf|]. by left. }
  unfold LoadImageFromFlash. eapply wp_seq; [apply (SpiFlashRead_in CCR2004_SPI_FLASH_OFFSET Header_addr);
    change sizeof_ELF64_EHDR with 64; unfold CCR2004_SPI_FLASH_OFFSET, NOR_SIZE; lia| |by intros ? (? & ? & _)].
  change sizeof_ELF64_EHDR with 64.
  intros Err s1 (r & [= ->] & Hr & Hf1 & _ & Hd1 & Hfl1). specialize (Hfo s1 Hf1).
  destruct Hr as [-> | ->]; cbn [Z.eqb negb].
  2:{ apply wp_ret. split_and!; [eapply frame_weaken; [exact Hfo|by left]|done|].
      intros Hflaw. by specialize (Hfl1 Hflaw). }
  apply wp_get. assert (Hh1 : ehdr_at (mem s1) Header_addr = image_header nor).
  { apply ehdr_at_ext. intros i Hi. rewrite (Hd1 eq_refl Hrd), Hnor by (unfold span; lia).
    f_equal. lia. }
  rewrite Hh1. pose proof (frame_printing _ _ _ Hf1 Hp) as Hp1.
  destruct (frame_flash _ _ _ Hf1) as [Hn1 Hrd1].
  destruct (Z.eqb_spec (ValidateElfHeader (image_header nor)) 0) as [Hv|Hv]; cbn [negb].
  2:{ apply give_up_spec; [done|done|apply line_nul|]. intros _ [? _]. done. }
  assert (Hnor1 : ∀ x, nor_mem (dev s1) x = nor x) by (intros x; by rewrite Hn1).
  eapply wp_seq; [apply (phdrs_read_spec nor); auto| |by intros ? (? & ? & _)].
  intros Err s2 (r & [= ->] & Hr & Hf2 & Hfl2 & Hd2).
  assert (Hf12 : frame objects s s2) by (by eapply frame_trans).
  pose proof (frame_printing _ _ _ Hf2 Hp1) as Hp2.
  destruct (frame_flash _ _ _ Hf12) as [Hn2 Hrd2].
  assert (Hnor2 : ∀ x, nor_mem (dev s2) x = nor x) by (intros x; by rewrite Hn2).
  destruct Hr as [-> | ->]; cbn [Z.eqb negb].
  2:{ apply give_up_spec; [done|done|apply line_nul|]. intros Hflaw. by specialize (Hfl2 Hflaw). }
  destruct (Hd2 eq_refl) as [Hh2 Hph2]. apply wp_get. rewrite Hh2.
  assert (Hval : ValidateProgramHeaders (image_header nor) (phdr_nth (mem s2) mProgramHeaders)
      SPILOADER_LOAD_ADDR (__stack_top -u64 SPILOADER_LOAD_ADDR) =
    if decide (accepted nor) then (0, Some (highest (image_phdrs nor) (e_phoff (image_header nor) + e_phnum (image_header nor) * 56)))
    else (-1, None)).
  { unfold SPILOADER_LOAD_ADDR. rewrite u64_small by lia.
    erewrite (validate_ext (image_header nor) _ (image_phdr nor)) by exact Hph2.
    rewrite Validate_run; try (done || lia). unfold accepted, image_phdrs.
    destruct (decide (Forall _ _)) as [Hs|Hs];
      [rewrite decide_True by done|rewrite decide_False by tauto]; done. }
  rewrite Hval. destruct (decide (accepted nor)) as [Hacc|Hacc].
  - apply load_segments_spec; auto.
  - apply give_up_spec; [done|done|apply line_nul|done].
Qed.
(** *** The console and the rest of the main program *)

(** A register write of [UartInitialize]. *)
Lemma uart_write_ok Reg Value s :
  0 <= Reg <= 4 →
  wp (uart_write Reg Value) (λ o s', o = Done tt ∧ mem s' = mem s ∧ ram s' = ram s ∧
    flash_kept (dev s) (dev s') ∧ console s' = uart_store Reg Value (console s)) s.
Proof.
  intros Hr. unfold wp, uart_write, on_dev. destruct (uart_write_spec Reg Value (dev s) Hr) as (Hu & Hm & Hrd).
  split_and!; [done..| |done]. by split.
Qed.

Lemma UartInitialize_run s :
  wp UartInitialize (λ o s', o = Done tt ∧ mem s' = mem s ∧ ram s' = ram s ∧
    flash_kept (dev s) (dev s') ∧ console s' = mkUart (tx (console s)) 0x03 0x0F 0x01) s.
Proof.
  assert (Hstep : ∀ (f : unit → M unit) Reg Value u u' s1,
    0 <= Reg <= 4 →
    (mem s1 = mem s ∧ ram s1 = ram s ∧ flash_kept (dev s) (dev s1) ∧ console s1 = u) →
    uart_store Reg Value u = u' →
    (∀ s2, (mem s2 = mem s ∧ ram s2 = ram s ∧ flash_kept (dev s) (dev s2) ∧ console s2 = u') →
       wp (f tt) (λ o s', o = Done tt ∧ mem s' = mem s ∧ ram s' = ram s ∧
         flash_kept (dev s) (dev s') ∧ console s' = mkUart (tx (console s)) 0x03 0x0F 0x01) s2) →
    wp (uart_write Reg Value ≫= f) (λ o s', o = Done tt ∧ mem s' = mem s ∧ ram s' = ram s ∧
         flash_kept (dev s) (dev s') ∧ console s' = mkUart (tx (console s)) 0x03 0x0F 0x01) s1).
  { intros f Reg Value u u' s1 HReg (Hm & Hr & Hf & Hu) Hst Hk.
    eapply wp_seq; [by apply uart_write_ok| |by intros ? [? _]].
    intros [] s2 (_ & Hm2 & Hr2 & Hf2 & Hu2). apply Hk. split_and!; [congruence..| |congruence].
    by eapply flash_kept_trans. }
  unfold UartInitialize. change (_ / (16 *u32 CCR2004_UART_BAUD)) with 271. cbn [Z.eqb].
  set (u0 := console s).
  eapply (Hstep _ _ _ u0); [done|done|reflexivity|]. intros s1 Hs1.
  eapply (Hstep _ _ _ _ (mkUart (tx u0) 0x80 (dll u0) (dlm (uart_store 1 0 u0)))); [done|exact Hs1| |].
  { unfold uart_store, UART_LCR, UART_IER. cbn [Z.eqb]. by destruct (Z.testbit (lcr u0) 7). }
  intros s2 Hs2. eapply (Hstep _ _ _ _ (mkUart (tx u0) 0x80 0x0F _)); [done|exact Hs2|reflexivity|].
  intros s3 Hs3. eapply (Hstep _ _ _ _ (mkUart (tx u0) 0x80 0x0F 0x01)); [done|exact Hs3|reflexivity|].
  intros s4 Hs4. eapply (Hstep _ _ _ _ (mkUart (tx u0) 0x03 0x0F 0x01)); [done|exact Hs4|reflexivity|].
  intros s5 Hs5. eapply (Hstep _ _ _ _ (mkUart (tx u0) 0x03 0x0F 0x01)); [done|exact Hs5|reflexivity|].
  intros s6 (Hm & Hr & Hf & Hu). eapply wp_mono; [by apply uart_write_ok|].
  intros o s7 (-> & Hm7 & Hr7 & Hf7 & Hu7). split_and!; [done|congruence|congruence| |].
  - by eapply flash_kept_trans.
  - rewrite Hu7, Hu. reflexivity.
Qed.

(** A call that reaches the flash's setup only. *)
Lemma SpiInitialize_ok : print_ok SpiInitialize (Done tt).
Proof.
  intros s _. split; [done|]. exists [].
  set (h1 := al_spi_init CCR2004_SPI_BASE CCR2004_SPI_CLOCK_HZ (dev s)).
  destruct (spi_setup_spec CCR2004_SPI_BASE CCR2004_SPI_CLOCK_HZ 0 (dev s) h1) as [Hm1 Hr1]; [by left|].
  destruct (spi_setup_spec 0 0 CCR2004_SPI_MAX_HZ h1 (al_spi_claim_bus CCR2004_SPI_MAX_HZ h1)) as [Hm2 Hr2];
    [by right|].
  split_and!; [done|done| |].
  - split; [|auto]. intros x. simpl. fold h1. by rewrite Hm2.
  - rewrite app_nil_r. unfold console. simpl. fold h1.
    destruct (spi_keeps_uart [] 0 h1 0 0 CCR2004_SPI_MAX_HZ) as (_ & _ & ->).
    unfold h1.    destruct (spi_keeps_uart [] 0 (dev s) CCR2004_SPI_BASE CCR2004_SPI_CLOCK_HZ 0) as (_ & -> & _).
    by destruct (uart (dev s)).
Qed.

Lemma ReadJedecId_says s :
  wp SpiFlashReadJedecId (λ o s', ∃ Err id, o = Done (Err, id) ∧ says [] s s' ∧ (Err = 0 → len id = 3)) s.
Proof.
  unfold wp, SpiFlashReadJedecId, on_dev, SPI_NOR_CMD_READ_ID.
  destruct (spi_keeps_uart [0x9F] 3 (dev s) 0 0 0) as (Hu & _).
  destruct (al_spi_read [0x9F] 3 (dev s)) as [[Err id] h'] eqn:E. simpl in Hu.
  apply read_id_spec in E as (Hm & Hr & Hl); [|lia].
  exists Err, id. split; [done|]. split; [|done]. split_and!; [done|done|by split|].
  rewrite app_nil_r. unfold console. simpl. rewrite Hu. by destruct (uart (dev s)).
Qed.

Lemma LogJedecId_ok : print_ok LogJedecId (Done tt).
Proof.
  intros s Hp. eapply wp_seq; [apply ReadJedecId_says| |by intros ? (? & ? & ? & _)].
  intros [Err0 id0] s1 (Err & id & [= -> ->] & Hs & Hl).
  assert (Hrest : print_ok (if negb (Err =? 0) then UartWrite (line "SpiLoader: JEDEC read failed")
    else match id with
         | [id0; id1; id2] =>
             _ ← UartWrite (lit "SpiLoader: JEDEC ");
             _ ← UartWriteHex32 id0;
             _ ← UartWrite (lit " ");
             _ ← UartWriteHex32 id1;
             _ ← UartWrite (lit " ");
             _ ← UartWriteHex32 id2;
             UartWrite (line "")
         | _ => stuck
         end) (Done tt)).
  { destruct (Z.eqb_spec Err 0) as [->|]; cbn [negb]; [|prints].
    specialize (Hl eq_refl). destruct id as [|a [|b [|c [|]]]]; cbn [length] in Hl; try lia.
    do 6 (eapply print_seq; [prints|]). prints. }
  eapply wp_mono; [apply Hrest; by eapply says_printing|].
  intros o s2 (-> & txt & Hs2). split; [done|]. exists ([] ++ txt). by eapply says_app.
Qed.

(** Cleaning keeps what is in step in step. *)
Lemma Clean_keeps A L s :
  0 <= A → 0 <= L → A + L <= 2 ^ 64 →
  wp (CleanInvalidateDataCacheRange A L) (λ o s', o = Done tt ∧ dev s' = dev s ∧ mem s' = mem s ∧
    ∀ x, in_step s x → in_step s' x) s.
Proof.
  intros HA HL HAL. eapply wp_mono; [by apply Clean_spec|].
  intros o s' (-> & Hd & Hm & Hr). split_and!; [done..|]. intros x Hx. unfold in_step in *.
  rewrite Hr, Hm. by destruct (decide (_ ∧ _)).
Qed.
End Loading.

(** ** Properties *)

(** C25: Validation of the program headers: for headers of any contents
    [ValidateProgramHeaders] succeeds exactly when every PT_LOAD segment has no
    more file bytes than memory, ends below 2^64, comes from the first 8 MiB of
    the image and keeps out of the reserved region, all in unbounded arithmetic;
    it then returns the highest file offset that is used. *)
Theorem ValidateProgramHeaders_exact Header ph Base Size :
  (∀ j, phdr_ok (ph j)) → 0 <= Base → 0 <= Size → Base + Size < 2 ^ 64 →
  0 <= e_phnum Header → ValidateElfHeader Header = 0 → 0 <= e_phoff Header →
  let ps := map ph (seqZ 0 (e_phnum Header)) in
  ValidateProgramHeaders Header ph Base Size =
    if decide (Forall (seg_ok Base Size) ps)
    then (0, Some (highest ps (e_phoff Header + e_phnum Header * 56)))
    else (-1, None).
Proof. apply Validate_run. Qed.

(** Cache maintenance: [CleanInvalidateDataCacheRange] terminates and brings
    the memory behind the cache up to date on exactly the cache lines that meet
    the range, for every line size the cache type register can give; a range
    that ends within a line of 2^64 is not cleaned at all, because the end wraps
    to 0. *)
Theorem CleanInvalidate_exact {H} `{UartLaws H} (s : Machine H) Address Length :
  0 <= Address → 0 <= Length → Address + Length <= 2 ^ 64 →
  ∃ s', CleanInvalidateDataCacheRange Address Length s = Some (Done tt, s') ∧
    dev s' = dev s ∧ mem s' = mem s ∧
    ∀ x, ram s' x =
      if decide (0 < Length ∧ Address + Length + CacheLineBytes <= 2 ^ 64 ∧
                 Address / CacheLineBytes <= x / CacheLineBytes <= (Address + Length - 1) / CacheLineBytes)
      then mem s x else ram s x.
Proof.
  intros HA HL Hle. destruct (wp_run _ _ _ (Clean_spec Address Length s HA HL Hle)) as (o & s' & Hrun & -> & Hr).
  by exists s'.
Qed.

(** The console after [UartInitialize]: whatever state the boot ROM left the
    UART in, the divisor is 271 (115313 baud from the 500 MHz clock), the line
    is 8N1 with the transmitter selected, and nothing was sent. *)
Theorem UartInitialize_console {H} `{UartLaws H} (s : Machine H) :
  ∃ s', UartInitialize s = Some (Done tt, s') ∧ mem s' = mem s ∧
    let u := console s' in
    tx u = tx (console s) ∧ lcr u = UART_LCR_8N1 ∧ dll u + 2 ^ 8 * dlm u = 271 ∧ printing s'.
Proof.
  destruct (wp_run _ _ _ (UartInitialize_run s)) as (o & s' & Hrun & -> & Hm & _ & _ & Hu).
  exists s'. split_and!; [done|done|..]; unfold printing; rewrite Hu; done.
Qed.

(** The value of a string of hexadecimal digits. *)
Definition nibble_val (c : Z) : option Z :=
  if zbetween 0x30 c 0x39 then Some (c - 0x30)
  else if zbetween 0x61 c 0x66 then Some (c - 0x61 + 10) else None.
Definition hex_val (txt : list Z) : option Z :=
  foldl (λ acc c, a ← acc; d ← nibble_val c; Some (a * 16 + d)) (Some 0) txt.

Lemma nibble_roundtrip v : 0 <= v → nibble_val (u8 (HexNibble (u8 v))) = Some (v mod 16).
Proof.
  intros Hv. unfold HexNibble. change 0x0F with (Z.ones 4). rewrite Z.land_ones by lia.
  assert (Hm : u8 v mod 2 ^ 4 = v mod 16).
  { unfold u8. change (2 ^ 4) with 16. apply Z.mod_mod_divide. by exists 16. }
  rewrite Hm. pose proof (Z.mod_pos_bound v 16). set (d := v mod 16) in *. clearbody d.
  unfold nibble_val, zbetween. destruct (Z.ltb_spec d 10).
  - rewrite u8_small by lia. rewrite !(proj2 (Z.leb_le _ _)) by lia. simpl. f_equal. lia.
  - rewrite u8_small by lia. rewrite (proj2 (Z.leb_gt (97 + (d - 10)) 57)) by lia.
    rewrite andb_false_r, !(proj2 (Z.leb_le _ _)) by lia. simpl. f_equal. lia.
Qed.

Lemma hex_val_digits n v acc :
  0 <= v →
  foldl (λ acc c, a ← acc; d ← nibble_val c; Some (a * 16 + d)) (Some acc)
    (hex_digits n (4 * Z.of_nat n - 4) v) = Some (acc * 16 ^ Z.of_nat n + v mod 16 ^ Z.of_nat n).
Proof.
  intros Hv. revert acc. induction n as [|n IH]; intros acc.
  { simpl. rewrite Z.mod_1_r. f_equal. lia. }
  rewrite hex_digits_S. cbn [foldl].
  rewrite nibble_roundtrip by (apply Z.shiftr_nonneg; lia). cbn [mbind option_bind].
  replace (4 * Z.of_nat (S n) - 4 - 4) with (4 * Z.of_nat n - 4) by lia. rewrite IH. f_equal.
  replace (4 * Z.of_nat (S n) - 4) with (4 * Z.of_nat n) by lia.
  rewrite Z.shiftr_div_pow2, Z.pow_mul_r by lia. change (2 ^ 4) with 16.
  replace (Z.of_nat (S n)) with (Z.of_nat n + 1) by lia. rewrite Z.pow_add_r by lia.
  change (16 ^ 1) with 16. set (w := 16 ^ Z.of_nat n). assert (0 < w) by (apply Z.pow_pos_nonneg; lia).
  rewrite (Z.rem_mul_r v w 16) by lia. lia.
Qed.

(** Printing a number: on a console that is printing, [UartWriteHex64] sends
    sixteen lower-case hexadecimal digits whose value is the number, and changes
    nothing else; the wait for the transmitter always ends. *)
Theorem UartWriteHex64_exact {H} `{UartLaws H} (s : Machine H) Value :
  printing s → 0 <= Value < 2 ^ 64 →
  ∃ txt s', UartWriteHex64 Value s = Some (Done tt, s') ∧ says txt s s' ∧
    length txt = 16%nat ∧ hex_val txt = Some Value.
Proof.
  intros Hp HV. destruct (wp_run _ _ _ (write_hex_spec 16 60 Value s Hp)) as (o & s' & Hrun & -> & Hs).
  exists (hex_digits 16 60 Value), s'. split_and!; [done|done|done|].
  unfold hex_val. pose proof (hex_val_digits 16 Value 0 ltac:(lia)) as Hd.
  change (4 * Z.of_nat 16 - 4) with 60 in Hd. rewrite Hd. change (16 ^ Z.of_nat 16) with (2 ^ 64).
  rewrite Z.mod_small by lia. done.
Qed.

(** Loading the image, with every object of the loader in the memory it loads
    to: from any machine whose console prints and whose flash is idle,
    [LoadImageFromFlash] terminates and writes nothing but its own header buffers
    and the segments of an acceptable image. When it returns 0, the image in the
    flash is acceptable, memory holds its segments placed in order (file bytes,
    then zeros), the cleaned addresses are behind the cache, and the result is
    the image's entry point; it panics only on a failed read of an acceptable
    image. On a flawless flash it returns 0 exactly for acceptable images. *)
Theorem LoadImage_correct {H} `{UartLaws H, !PlatformLaws} (s : Machine H) :
  printing s → nor_ready (dev s) = true →
  let nor := nor_mem (dev s) in
  ∃ o s', LoadImageFromFlash s = Some (o, s') ∧
    (∀ x, ~ may_write nor x → mem s' x = mem s x) ∧
    match o with
    | Done (0, Some r) =>
        accepted nor ∧ r = mkResult (e_entry (image_header nor)) __stack_top ∧
        (∀ x, ~ objects x → mem s' x = placed nor (image_phdrs nor) (mem s) x) ∧
        (∀ x, loads (image_phdrs nor) x → cleaned_at (image_phdrs nor) x → ram s' x = mem s' x)
    | Done (r, _) => r = -1
    | Panicked => accepted nor
    end ∧
    (flawless (H := H) → if decide (accepted nor) then ∃ r, o = Done (0, Some r) else o = Done (-1, None)).
Proof.
  intros Hp Hrd nor. destruct (wp_run _ _ _ (LoadImage_run nor s Hp Hrd (λ x, eq_refl))) as (o & s' & Hrun & Hf & Hr & Hst).
  exists o, s'. split_and!; [done|apply (frame_mem _ _ _ Hf)|exact Hr|exact Hst].
Qed.

(** The three bits [caches_off] clears. *)
Lemma caches_off_spec v i :
  0 <= i < 64 → Z.testbit (caches_off v) i = Z.testbit v i && negb (bool_decide (i = 0 ∨ i = 2 ∨ i = 12)).
Proof.
  intros Hi. unfold caches_off, u64. rewrite !Z.land_spec, <- !Z.land_ones, !Z.land_spec by lia.
  rewrite !Z.lnot_spec, !Z.shiftl_mul_pow2, !Z.mul_1_l, !Z.pow2_bits_eqb, Z.ones_spec_low by lia.
  destruct (Z.eqb_spec 0 i), (Z.eqb_spec 2 i), (Z.eqb_spec 12 i); subst; simpl;
    rewrite ?andb_true_r, ?andb_false_r; try done.
  all: rewrite bool_decide_eq_false_2 by lia; by rewrite andb_true_r.
Qed.

(** The SCTLR of the exception level the loader runs at. *)
Definition sctlr (cpu : Cpu) : Z :=
  if Z.shiftr (CurrentEL cpu) 2 =? 2 then sctlr_el2 cpu else sctlr_el1 cpu.

Lemma Jump_run {H} `{UartLaws H, !PlatformLaws} entry cpu (s : Machine H) :
  wp (SpiloaderJumpToImage entry __stack_top cpu) (λ o s', ∃ cpu', o = Done cpu' ∧
    pc cpu' = entry ∧ x0_x3 cpu' = [0; 0; 0; 0] ∧ CurrentEL cpu' = CurrentEL cpu ∧
    sctlr cpu' = caches_off (sctlr cpu) ∧ mem s' = mem s ∧ ∀ x, in_step s x → in_step s' x) s.
Proof.
  pose proof header_reserved as Hh. pose proof stack_top_range.
  unfold SpiloaderJumpToImage, SPILOADER_LOAD_ADDR in *. rewrite u64_small by lia.
  eapply wp_seq; [apply Clean_keeps; lia| |by intros ? [? _]].
  intros _ s1 (_ & _ & Hm & Hin). apply wp_ret. eexists. split; [done|]. unfold sctlr.
  destruct (Z.shiftr (CurrentEL cpu) 2 =? 2) eqn:E; cbn [CurrentEL pc x0_x3 sctlr_el1 sctlr_el2];
    rewrite E; done.
Qed.

Lemma SpiloaderMain_run {H} `{UartLaws H, !PlatformLaws} (s : Machine H) cpu :
  nor_ready (dev s) = true →
  let nor := nor_mem (dev s) in
  ∃ o s', SpiloaderMain cpu s = Some (o, s') ∧
    (∀ x, ~ may_write nor x → mem s' x = mem s x) ∧
    (∀ cpu', o = Done cpu' →
       accepted nor ∧ pc cpu' = e_entry (image_header nor) ∧ x0_x3 cpu' = [0; 0; 0; 0] ∧
       (∀ i, 0 <= i < 64 → Z.testbit (sctlr cpu') i =
          Z.testbit (sctlr cpu) i && negb (bool_decide (i = 0 ∨ i = 2 ∨ i = 12))) ∧
       (∀ x, ~ objects x → mem s' x = placed nor (image_phdrs nor) (mem s) x) ∧
       (∀ x, loads (image_phdrs nor) x → cleaned_at (image_phdrs nor) x → ram s' x = mem s' x)) ∧
    (flawless (H := H) → if decide (accepted nor) then ∃ cpu', o = Done cpu' else o = Panicked).
Proof.
  intros Hrd nor. apply wp_run. unfold SpiloaderMain.
  eapply wp_seq; [apply UartInitialize_run| |by intros ? [? _]].
  intros _ s1 (_ & Hm1 & _ & [Hn1 Hr1] & Hu1).
  assert (Hp1 : printing s1) by (unfold printing; by rewrite Hu1).
  apply (wp_print_from _ tt _ _ s1); [apply write_ok, line_nul|done|eauto using says_nil|intros sA HA].
  apply (wp_print_from _ tt _ _ s1); [apply SpiInitialize_ok|done|exact HA|intros sB HB].
  apply (wp_print_from _ tt _ _ s1); [apply LogJedecId_ok|done|exact HB|]. intros sP (txt & Hs).
  pose proof Hs as (HmP & _ & [HnP HrP] & _). pose proof (says_printing _ _ _ Hs Hp1) as HpP.
  assert (Hnor : ∀ x, nor_mem (dev sP) x = nor x) by (intros x; by rewrite HnP, Hn1).
  eapply wp_seq; [by apply (LoadImage_run nor); auto| |].
  2:{ intros s2 (Hf & Hacc & Hst). split_and!; [|done|].
      - intros x Hx. rewrite (frame_mem _ _ _ Hf) by done. congruence.
      - intros Hfl. specialize (Hst Hfl). unfold load_status in Hst. case_decide; [by destruct Hst|done]. }
  intros [r res] s2 (Hf & Hres & Hst). pose proof (frame_printing _ _ _ Hf HpP) as Hp2.
  assert (Hout : ∀ x, ~ may_write nor x → mem s2 x = mem s x).
  { intros x Hx. rewrite (frame_mem _ _ _ Hf) by done. congruence. }
  match goal with |- wp _ ?Q _ => set (Post := Q) end.
  assert (Hpanic : (flawless (H := H) → ~ accepted nor) → wp (SpiloaderPanic (lit "ELF load failed")) Post s2).
  { intros Hno. eapply wp_mono; [apply panic_ok; [apply lit_nul|done]|].
    intros o s3 (-> & t3 & Hm3 & _). split_and!; [|done|].
    - intros x Hx. rewrite Hm3. by apply Hout.
    - intros Hfl. by rewrite decide_False by auto. }
  assert (Hno : (r, res) ≠ (0, res) ∨ res = None → flawless (H := H) → ~ accepted nor).
  { intros Hbad Hfl Hacc. specialize (Hst Hfl). unfold load_status in Hst.
    rewrite decide_True in Hst by done. destruct Hst as [R [= -> ->]]. by destruct Hbad. }
  destruct r as [|r|r]; [destruct res as [R|]|..].
  2-4: apply Hpanic, Hno; first [by right|left; congruence].
  destruct Hres as (Hacc & -> & Hpl & Hin). cbn [EntryPoint ReservedTop].
  apply (wp_print_from _ tt _ _ s2); [prints|done|eauto using says_nil|intros sC HC].
  apply (wp_print_from _ tt _ _ s2); [prints|done|exact HC|intros sD HD].
  apply (wp_print_from _ tt _ _ s2); [prints|done|exact HD|]. intros s3 (t3 & Hm3 & Hr3 & _).
  eapply wp_mono; [apply Jump_run|].
  intros o s4 (cpu' & -> & Hpc & Hx & _ & Hsc & Hm4 & Hin4). split_and!.
  - intros x Hx'. rewrite Hm4, Hm3. auto.
  - intros c [= <-]. split_and!; try done.
    + intros i Hi. rewrite Hsc. by apply caches_off_spec.
    + intros x Hx'. rewrite Hm4, Hm3, Hpl by done. unfold placed. by rewrite HmP, Hm1.
    + intros x Hl Hc. apply Hin4. unfold in_step. rewrite Hr3, Hm3. by apply Hin.
  - intros _. rewrite decide_True by done. eauto.
Qed.

(** C5: The loader as a whole, from an arbitrary console and CPU state: it never
    hangs; it either panics or leaves for the entry point of an acceptable image
    whose segments are completely in memory, with x0 to x3 zero and the MMU, data
    cache and instruction cache bits of its exception level cleared and no other
    bit of that register changed; nothing but its buffers and the segments is
    written. A loaded address is also behind the cache ([ram = mem]), except
    inside a segment that ends less than one cache line below 2^64: the loader
    accepts such a segment, and its clean returns without doing anything
    ([CleanInvalidate_exact]). On a flawless flash it boots exactly the
    acceptable images. *)
Theorem SpiloaderMain_boots {H} `{UartLaws H, !PlatformLaws} (s : Machine H) cpu :
  nor_ready (dev s) = true →
  let nor := nor_mem (dev s) in
  ∃ o s', SpiloaderMain cpu s = Some (o, s') ∧
    (∀ x, ~ may_write nor x → mem s' x = mem s x) ∧
    (∀ cpu', o = Done cpu' →
       accepted nor ∧ pc cpu' = e_entry (image_header nor) ∧ x0_x3 cpu' = [0; 0; 0; 0] ∧
       (∀ i, 0 <= i < 64 → Z.testbit (sctlr cpu') i =
          Z.testbit (sctlr cpu) i && negb (bool_decide (i = 0 ∨ i = 2 ∨ i = 12))) ∧
       (∀ x, ~ objects x → mem s' x = placed nor (image_phdrs nor) (mem s) x) ∧
       (∀ x, loads (image_phdrs nor) x → cleaned_at (image_phdrs nor) x → ram s' x = mem s' x)) ∧
    (flawless (H := H) → if decide (accepted nor) then ∃ cpu', o = Done cpu' else o = Panicked).
Proof. apply SpiloaderMain_run. Qed.

(** ** Witnesses, on a simulated machine *)

#[export] Instance SimMmio : Mmio (Nor Uart16550) := {
  MmioRead32 _ s := (0x60, s);
  MmioWrite32 a v s :=
    mkChip (cells s) (busy s) (wel s) (uart_store ((a - CCR2004_UART0_BASE) / 4) v (others s))
}.

(** 64-byte cache lines. *)
#[export] Instance demo_platform : Platform := {
  __stack_top := 0x04010000;
  Header_addr := 0x0400FF00;
  mProgramHeaders := 0x04008000;
  ctr_el0 := 0x84448004;
  uart_fuel := 1
}.

#[export] Instance demo_platform_laws : PlatformLaws.
Proof. by split; unfold SPILOADER_LOAD_ADDR; simpl; lia. Qed.

#[export] Program Instance SimUartLaws : UartLaws (Nor Uart16550) := {
  uart := others;
  uart_polls _ := 0%nat
}.
Next Obligation. simpl. lia. Qed.
Next Obligation. intros h v h'. simpl. by intros [= <- <-]. Qed.
Next Obligation.
  intros Reg Value h HR. cbv zeta. unfold MmioWrite32, SimMmio.
  assert (HReg : (UartReg Reg - CCR2004_UART0_BASE) / 4 = Reg).
  { unfold UartReg, CCR2004_UART0_BASE, CCR2004_UART_REG_SHIFT. rewrite Z.shiftl_mul_pow2 by lia.
    rewrite u64_small by lia. replace (_ - _) with (Reg * 4) by lia. by rewrite Z.div_mul. }
  by rewrite HReg.
Qed.
Next Obligation.
  intros cmd n h base clk hz. simpl. split_and!; [|done..]. by repeat case_match.
Qed.

(** An ELF image with one segment of four file bytes and four zero bytes at
    0x80000000, and one over the loader. *)
Definition demo_ehdr (phnum : Z) : list Z :=
  [0x7F; 0x45; 0x4C; 0x46; 2; 1; 1; 0; 0; 0; 0; 0; 0; 0; 0; 0] ++
  le_bytes 2 2 ++ le_bytes 2 183 ++ le_bytes 4 1 ++ le_bytes 8 0x80000000 ++ le_bytes 8 64 ++
  le_bytes 8 0 ++ le_bytes 4 0 ++ le_bytes 2 64 ++ le_bytes 2 56 ++ le_bytes 2 phnum ++
  le_bytes 2 0 ++ le_bytes 2 0 ++ le_bytes 2 0.
Definition demo_phdr (off paddr filesz memsz : Z) : list Z :=
  le_bytes 4 1 ++ le_bytes 4 5 ++ le_bytes 8 off ++ le_bytes 8 0 ++ le_bytes 8 paddr ++
  le_bytes 8 filesz ++ le_bytes 8 memsz ++ le_bytes 8 4096.
Definition demo_image (paddr : Z) : list Z :=
  demo_ehdr 1 ++ demo_phdr 120 paddr 4 8 ++ [0xDE; 0xAD; 0xBE; 0xEF].
Definition demo_machine (paddr lcr : Z) : Machine (Nor Uart16550) :=
  mkMachine (mkChip (λ x, default 0xFF (rd (demo_image paddr) (x - CCR2004_SPI_FLASH_OFFSET)))
               false false (mkUart [] lcr 0 0))
    (λ _, 0xAA) (λ _, 0xAA).
Definition demo_cpu : Cpu := mkCpu 8 0 0x30C51835 0 [1; 2; 3; 4] 0.

(** What the run shows: the outcome, some memory on both sides of the cache. *)
Definition observe (r : option (outcome Cpu * Machine (Nor Uart16550))) : list Z * list Z * list Z :=
  match r with
  | Some (Done cpu, s) =>
      ([pc cpu; sctlr_el2 cpu], map (mem s) (seqZ 0x7FFFFFFF 10), map (ram s) (seqZ 0x80000000 8))
  | _ => ([], [], [])
  end.

Lemma demo_boots :
  observe (SpiloaderMain demo_cpu (demo_machine 0x80000000 0x80)) =
    ([0x80000000; 0x30C50830],
     [0xAA; 0xDE; 0xAD; 0xBE; 0xEF; 0; 0; 0; 0; 0xAA], [0xDE; 0xAD; 0xBE; 0xEF; 0; 0; 0; 0]).
Proof. vm_compute. reflexivity. Qed.

Lemma demo_accepted :
  accepted (nor_mem (dev (demo_machine 0x80000000 3))) ∧
  ~ accepted (nor_mem (dev (demo_machine 0x04000ffc 3))).
Proof. split; apply (bool_decide_unpack _); vm_compute; exact I. Qed.

Lemma ValidateProgramHeaders_exact_witness :
  let nor := nor_mem (dev (demo_machine 0x80000000 3)) in
  ValidateProgramHeaders (image_header nor) (image_phdr nor) SPILOADER_LOAD_ADDR 0x10000 = (0, Some 124) ∧
  ValidateProgramHeaders (image_header nor) (image_phdr nor) SPILOADER_LOAD_ADDR 0x10000 =
    if decide (Forall (seg_ok SPILOADER_LOAD_ADDR 0x10000)
                 (map (image_phdr nor) (seqZ 0 (e_phnum (image_header nor)))))
    then (0, Some (highest (map (image_phdr nor) (seqZ 0 (e_phnum (image_header nor))))
                     (e_phoff (image_header nor) + e_phnum (image_header nor) * 56)))
    else (-1, None).
Proof.
  intros nor. split; [vm_compute; reflexivity|].
  destruct (image_header_range nor (nor_mem_bytes _)) as (Ho & Hn & Hok).
  apply (ValidateProgramHeaders_exact (image_header nor) (image_phdr nor) SPILOADER_LOAD_ADDR 0x10000);
    [exact Hok|unfold SPILOADER_LOAD_ADDR; lia|lia|unfold SPILOADER_LOAD_ADDR; lia|exact Hn| |exact Ho].
  vm_compute. reflexivity.
Defined.

Lemma CleanInvalidate_exact_witness :
  CacheLineBytes = 64 ∧
  ∃ s', CleanInvalidateDataCacheRange 0x80000000 8 (demo_machine 0x80000000 3) = Some (Done tt, s') ∧
    dev s' = dev (demo_machine 0x80000000 3) ∧ mem s' = mem (demo_machine 0x80000000 3) ∧
    ∀ x, ram s' x =
      if decide (0 < 8 ∧ 0x80000000 + 8 + CacheLineBytes <= 2 ^ 64 ∧
                 0x80000000 / CacheLineBytes <= x / CacheLineBytes <= (0x80000000 + 8 - 1) / CacheLineBytes)
      then mem (demo_machine 0x80000000 3) x else ram (demo_machine 0x80000000 3) x.
Proof.
  split; [vm_compute; reflexivity|].
  apply (CleanInvalidate_exact (demo_machine 0x80000000 3) 0x80000000 8); lia.
Defined.

Lemma UartWriteHex64_exact_witness :
  ∃ txt s', UartWriteHex64 0xDEADBEEF (demo_machine 0x80000000 3) = Some (Done tt, s') ∧
    says txt (demo_machine 0x80000000 3) s' ∧ length txt = 16%nat ∧ hex_val txt = Some 0xDEADBEEF.
Proof. apply (UartWriteHex64_exact (demo_machine 0x80000000 3) 0xDEADBEEF); [reflexivity|lia]. Defined.

Lemma LoadImage_correct_witness :
  let s := demo_machine 0x80000000 3 in
  let nor := nor_mem (dev s) in
  ∃ o s', LoadImageFromFlash s = Some (o, s') ∧
    (∀ x, ~ may_write nor x → mem s' x = mem s x) ∧
    match o with
    | Done (0, Some r) =>
        accepted nor ∧ r = mkResult (e_entry (image_header nor)) __stack_top ∧
        (∀ x, ~ objects x → mem s' x = placed nor (image_phdrs nor) (mem s) x) ∧
        (∀ x, loads (image_phdrs nor) x → cleaned_at (image_phdrs nor) x → ram s' x = mem s' x)
    | Done (r, _) => r = -1
    | Panicked => accepted nor
    end ∧
    (flawless (H := Nor Uart16550) →
     if decide (accepted nor) then ∃ r, o = Done (0, Some r) else o = Done (-1, None)).
Proof. exact (LoadImage_correct (demo_machine 0x80000000 3) eq_refl eq_refl). Defined.

(** The console is left with the divisor latch selected. *)
Lemma SpiloaderMain_boots_witness :
  let s := demo_machine 0x80000000 0x80 in
  let nor := nor_mem (dev s) in
  ∃ o s', SpiloaderMain demo_cpu s = Some (o, s') ∧
    (∀ x, ~ may_write nor x → mem s' x = mem s x) ∧
    (∀ cpu', o = Done cpu' →
       accepted nor ∧ pc cpu' = e_entry (image_header nor) ∧ x0_x3 cpu' = [0; 0; 0; 0] ∧
       (∀ i, 0 <= i < 64 → Z.testbit (sctlr cpu') i =
          Z.testbit (sctlr demo_cpu) i && negb (bool_decide (i = 0 ∨ i = 2 ∨ i = 12))) ∧
       (∀ x, ~ objects x → mem s' x = placed nor (image_phdrs nor) (mem s) x) ∧
       (∀ x, loads (image_phdrs nor) x → cleaned_at (image_phdrs nor) x → ram s' x = mem s' x)) ∧
    (flawless (H := Nor Uart16550) →
     if decide (accepted nor) then ∃ cpu', o = Done cpu' else o = Panicked).
Proof. exact (SpiloaderMain_boots (demo_machine 0x80000000 0x80) demo_cpu eq_refl). Defined.
