(* ===== verification/I2c.v ===== *)
(** * The I2C master interface

    [EFI_I2C_MASTER_PROTOCOL] as the drivers above it see it: the operations
    over the state [M] of the bus, and what a master promises its clients. The
    DesignWare controller driver and every channel of the mux driver implement
    it. *)

From S2P Require Import Prelude Efi.

(** An operation of a request packet; a read stores into [Buffer]. *)
Record EFI_I2C_OPERATION := mkOp {
  Flags : Z;
  LengthInBytes : Z;
  Buffer : list Z
}.

Definition I2C_FLAG_READ : Z := 1.
Definition is_read (op : EFI_I2C_OPERATION) : bool := negb (Z.land (Flags op) I2C_FLAG_READ =? 0).

(** Synchronous requests: no event and no status pointer. *)
Class I2cMaster (M : Type) := {
  StartRequest : Z → list EFI_I2C_OPERATION → M → option (EFI_STATUS * list EFI_I2C_OPERATION * M);
  SetBusFrequency : Z → M → option (EFI_STATUS * Z * M);
  MasterReset : M → option (EFI_STATUS * M)
}.

(** The buffers hold what the lengths say. *)
Definition op_ok (op : EFI_I2C_OPERATION) : Prop := 0 <= LengthInBytes op <= len (Buffer op) ∧ LengthInBytes op < 2 ^ 32.

(** A request only fills read buffers. *)
Definition same_shape (op op' : EFI_I2C_OPERATION) : Prop :=
  Flags op' = Flags op ∧ LengthInBytes op' = LengthInBytes op ∧
  length (Buffer op') = length (Buffer op) ∧ (is_read op = false → Buffer op' = Buffer op) ∧
  (Forall byte_ok (Buffer op) → Forall byte_ok (Buffer op')).

Lemma same_shape_refl op : same_shape op op.
Proof. by split_and!. Qed.

(** What a master promises: from an idle state every call returns, and leaves the
    master idle. *)
Class I2cMasterLaws (M : Type) `{I2cMaster M} := {
  idle : M → Prop;
  start_total addr ops m :
    idle m → Forall op_ok ops →
    ∃ st ops' m', StartRequest addr ops m = Some (st, ops', m') ∧ idle m' ∧ Forall2 same_shape ops ops';
  freq_total hz m : idle m → ∃ st hz' m', SetBusFrequency hz m = Some (st, hz', m') ∧ idle m';
  reset_total m : idle m → ∃ st m', MasterReset m = Some (st, m') ∧ idle m'
}.

(** ** Finding the parent bus *)

Definition HARDWARE_DEVICE_PATH : Z := 0x01.
Definition HW_VENDOR_DP : Z := 0x04.
Definition DW_I2C_DEVICE_PATH_GUID : EFI_GUID :=
  mkGuid 0x3a8e7b2c 0xd4f1 0x4905 [0xb6; 0xc8; 0x1e; 0x9a; 0x0f; 0x3d; 0x5c; 0x72].

(** A handle that carries an I2C master: what HandleProtocol answers for its device
    path, the first node of that path, and what it answers for the master. *)
Record I2C_HANDLE := mkHandle {
  DevicePathStatus : EFI_STATUS;
  DevicePathType : Z;
  DevicePathSubType : Z;
  VendorGuid : EFI_GUID;
  Instance_ : Z;
  MasterStatus : EFI_STATUS
}.

(** The handles from number [Index] on: the status of the search, and the handle
    whose master is taken. *)
Fixpoint find_handles (BusInstance : Z) (HandleBuffer : list I2C_HANDLE) (Index : nat) : EFI_STATUS * option nat :=
  match HandleBuffer with
  | [] => (EFI_NOT_FOUND, None)
  | h :: rest =>
      if EFI_ERROR (DevicePathStatus h) then find_handles BusInstance rest (S Index)
      else if negb (DevicePathType h =? HARDWARE_DEVICE_PATH) || negb (DevicePathSubType h =? HW_VENDOR_DP)
      then find_handles BusInstance rest (S Index)
      else if negb (bool_decide (VendorGuid h = DW_I2C_DEVICE_PATH_GUID)) then find_handles BusInstance rest (S Index)
      else if negb (Instance_ h =? BusInstance) then find_handles BusInstance rest (S Index)
      else (MasterStatus h, if EFI_ERROR (MasterStatus h) then None else Some Index)
  end.

(** [Located] answers LocateHandleBuffer, which allocates the buffer. *)
Definition find_master (BusInstance : Z) (Located : option (list I2C_HANDLE)) (p : Pool)
    : EFI_STATUS * option nat * Pool :=
  match Located with
  | None => (EFI_NOT_FOUND, None, p)
  | Some HandleBuffer =>
      let p := mkPool (pool_script p) (pool_live p + 1) in
      (find_handles BusInstance HandleBuffer 0, FreePool p)
  end.

(** The handle a bus of the controller driver installs. *)
Definition is_bus (BusInstance : Z) (h : I2C_HANDLE) : Prop :=
  EFI_ERROR (DevicePathStatus h) = false ∧ DevicePathType h = HARDWARE_DEVICE_PATH ∧
  DevicePathSubType h = HW_VENDOR_DP ∧ VendorGuid h = DW_I2C_DEVICE_PATH_GUID ∧ Instance_ h = BusInstance.
#[export] Instance is_bus_dec BusInstance h : Decision (is_bus BusInstance h).
Proof. solve_decision. Defined.

Lemma find_handles_cons BusInstance h rest Index :
  find_handles BusInstance (h :: rest) Index =
    if decide (is_bus BusInstance h)
    then (MasterStatus h, if EFI_ERROR (MasterStatus h) then None else Some Index)
    else find_handles BusInstance rest (S Index).
Proof.
  cbn [find_handles]. destruct (decide (is_bus BusInstance h)) as [(E1 & E2 & E3 & E4 & E5)|Hn].
  - rewrite E1, E2, E3, E5, !Z.eqb_refl. cbn [negb orb]. by rewrite bool_decide_true.
  - destruct (EFI_ERROR (DevicePathStatus h)) eqn:E1; [done|].
    destruct (Z.eqb_spec (DevicePathType h) HARDWARE_DEVICE_PATH) as [E2|_]; [|done].
    destruct (Z.eqb_spec (DevicePathSubType h) HW_VENDOR_DP) as [E3|_]; [|done]. cbn [negb orb].
    case_bool_decide as E4; [|done]. destruct (Z.eqb_spec (Instance_ h) BusInstance) as [E5|_]; [|done].
    by destruct Hn.
Qed.

(** The search takes the first handle of that bus, and frees its buffer. *)
Lemma find_master_first BusInstance hs p st i p' :
  find_master BusInstance (Some hs) p = (st, Some i, p') →
  pool_live p' = pool_live p ∧ EFI_ERROR st = false ∧
  ∃ h, hs !! i = Some h ∧ is_bus BusInstance h ∧ (∀ j h', (j < i)%nat → hs !! j = Some h' → ~ is_bus BusInstance h').
Proof.
  unfold find_master. intros [= E <-]. split; [simpl; lia|].
  assert (Hg : ∀ n, find_handles BusInstance hs n = (st, Some i) →
    EFI_ERROR st = false ∧ ∃ k h, i = (n + k)%nat ∧ hs !! k = Some h ∧ is_bus BusInstance h ∧
      ∀ j h', (j < k)%nat → hs !! j = Some h' → ~ is_bus BusInstance h').
  { clear E. induction hs as [|h hs IH]; intros n; [done|]. rewrite find_handles_cons.
    destruct (decide _) as [Hb|Hb].
    - destruct (EFI_ERROR (MasterStatus h)) eqn:Em; intros [= <- <-]. split; [done|].
      exists O, h. split_and!; [lia|done..|]. intros j h'. lia.
    - intros E. destruct (IH _ E) as (Hst & k & h' & -> & Hk & Hh & Hbefore). split; [done|].
      exists (S k), h'. split_and!; [lia|done..|]. intros [|j] h2 Hj; simpl.
      + by intros [= <-].
      + apply Hbefore. lia. }
  destruct (Hg O E) as (Hst & k & h & Ei & Hk & Hh & Hbefore). simpl in Ei. subst k. eauto.
Qed.
