(* ===== verification/DwI2c.v ===== *)
(** * The DesignWare I2C controller driver

    Drivers/DwI2cDxe: polled master transfers. The hardware [H] is arbitrary:
    every register access goes through [Mmio] and is recorded in a log, and the
    theorems are about the log, so they hold for whatever the registers answer.
    A request that the code gives up on is a run of the model like any other,
    because all the polls are bounded. *)

From S2P Require Import Prelude Efi I2c.

(** ** Registers *)

Definition DW_IC_CON : Z := 0x00.
Definition DW_IC_TAR : Z := 0x04.
Definition DW_IC_DATA_CMD : Z := 0x10.
Definition DW_IC_SS_SCL_HCNT : Z := 0x14.
Definition DW_IC_SS_SCL_LCNT : Z := 0x18.
Definition DW_IC_FS_SCL_HCNT : Z := 0x1C.
Definition DW_IC_FS_SCL_LCNT : Z := 0x20.
Definition DW_IC_INTR_MASK : Z := 0x30.
Definition DW_IC_RAW_INTR_STAT : Z := 0x34.
Definition DW_IC_CLR_INTR : Z := 0x40.
Definition DW_IC_CLR_RX_UNDER : Z := 0x44.
Definition DW_IC_CLR_RX_OVER : Z := 0x48.
Definition DW_IC_CLR_TX_ABRT : Z := 0x54.
Definition DW_IC_CLR_STOP_DET : Z := 0x60.
Definition DW_IC_ENABLE : Z := 0x6C.
Definition DW_IC_STATUS : Z := 0x70.
Definition DW_IC_TXFLR : Z := 0x74.
Definition DW_IC_SDA_HOLD : Z := 0x7C.
Definition DW_IC_ENABLE_STATUS : Z := 0x9C.
Definition DW_IC_COMP_PARAM_1 : Z := 0xF4.
Definition DW_IC_COMP_VERSION : Z := 0xF8.
Definition DW_IC_CON_MASTER : Z := 0x01.
Definition DW_IC_CON_SPEED_STD : Z := 0x02.
Definition DW_IC_CON_SPEED_FAST : Z := 0x04.
Definition DW_IC_CON_SPEED_MASK : Z := 0x06.
Definition DW_IC_CON_RESTART_EN : Z := 0x20.
Definition DW_IC_CON_SLAVE_DISABLE : Z := 0x40.
Definition DW_IC_DATA_CMD_DAT_MASK : Z := 0xFF.
Definition DW_IC_DATA_CMD_CMD : Z := 0x100.
Definition DW_IC_DATA_CMD_STOP : Z := 0x200.
Definition DW_IC_DATA_CMD_RESTART : Z := 0x400.
Definition DW_IC_INTR_RX_UNDER : Z := 0x001.
Definition DW_IC_INTR_RX_OVER : Z := 0x002.
Definition DW_IC_INTR_TX_ABRT : Z := 0x040.
Definition DW_IC_INTR_STOP_DET : Z := 0x200.
Definition DW_IC_ERR_CONDITION : Z :=
  Z.lor (Z.lor DW_IC_INTR_RX_UNDER DW_IC_INTR_RX_OVER) DW_IC_INTR_TX_ABRT.
Definition DW_IC_STATUS_TFE : Z := 0x04.
Definition DW_IC_STATUS_RFNE : Z := 0x08.
Definition DW_IC_STATUS_MST_ACTIVITY : Z := 0x20.
Definition DW_IC_COMP_PARAM_1_RX_BUFFER_DEPTH (x : Z) : Z := Z.land (Z.shiftr x 8) 0xFF + 1.
Definition DW_IC_COMP_PARAM_1_TX_BUFFER_DEPTH (x : Z) : Z := Z.land (Z.shiftr x 16) 0xFF + 1.
Definition DW_IC_SDA_HOLD_MIN_VERS : Z := 0x3131312A.
Definition DW_MAX_TRANSFER_POLL_COUNT : Z := 100000.
Definition DW_MAX_STATUS_POLL_COUNT : Z := 100.
Definition DW_POLL_MST_ACTIVITY_INTERVAL_US : Z := 1000.
Definition DW_MAX_MST_ACTIVITY_POLL_COUNT : Z := 20.
Definition DW_POLL_INTERVAL_US (Speed : Z) : Z := 10 * (1000000 / Speed).
Definition DW_I2C_BUS_COUNT : Z := 2.
Definition DW_I2C_SS_SCL_HCNT_VAL : Z := 0x855.
Definition DW_I2C_SS_SCL_LCNT_VAL : Z := 0xB0B.
Definition DW_I2C_FS_SCL_HCNT_VAL : Z := 0x19D.
Definition DW_I2C_FS_SCL_LCNT_VAL : Z := 0x320.
Definition DW_I2C_SDA_HOLD_VAL : Z := 150.
Definition mDwI2cBase : list Z := [0xFD880000; 0xFD894000].
Definition mDwI2cSpeed : list Z := [100000; 100000].

(** ** State *)

Record DW_I2C_CONTEXT := mkDwCtx {
  BaseAddress : Z;
  BusIndex : Z;
  BusSpeedHz : Z;
  TxFifo : Z;
  RxFifo : Z;
  PollingTimeUs : Z
}.

(** An access to a register, by its offset. *)
Inductive access := Rd (Offset Value : Z) | Wr (Offset Value : Z).

(** The controller: its context and lock, the hardware, the accesses made so far
    and the events signalled so far. *)
Record DwBus (H : Type) := mkBus {
  ctx : DW_I2C_CONTEXT;
  locked : bool;
  hw : H;
  log : list access;
  signalled : list Z
}.
Arguments mkBus {H}.
Arguments ctx {H}.
Arguments locked {H}.
Arguments hw {H}.
Arguments log {H}.
Arguments signalled {H}.

Section Code.
Context {H : Type} `{Mmio H, Timer H}.

(** Computations on the controller; [None] is a fault: an access outside a
    buffer, or a lock taken twice. *)
Definition Dw (A : Type) : Type := DwBus H → option (A * DwBus H).

#[global] Instance Dw_ret : MRet Dw := λ A a s, Some (a, s).
#[global] Instance Dw_bind : MBind Dw := λ A B f m s,
  match m s with Some (a, s') => f a s' | None => None end.

Definition lift {A} (o : option A) : Dw A := λ s, match o with Some a => Some (a, s) | None => None end.
Definition get_ctx : Dw DW_I2C_CONTEXT := λ s, Some (ctx s, s).
Definition set_ctx (c : DW_I2C_CONTEXT) : Dw unit := λ s,
  Some (tt, mkBus c (locked s) (hw s) (log s) (signalled s)).

Definition EfiAcquireLock : Dw unit := λ s,
  if locked s then None else Some (tt, mkBus (ctx s) true (hw s) (log s) (signalled s)).
Definition EfiReleaseLock : Dw unit := λ s,
  if locked s then Some (tt, mkBus (ctx s) false (hw s) (log s) (signalled s)) else None.

Definition MicroSecondDelay (us : Z) : Dw unit := λ s,
  Some (tt, mkBus (ctx s) (locked s) (us_delay us (hw s)) (log s) (signalled s)).

Definition DwI2cRead (Offset : Z) : Dw Z := λ s,
  let '(v, h) := MmioRead32 (BaseAddress (ctx s) + Offset) (hw s) in
  Some (v, mkBus (ctx s) (locked s) h (log s ++ [Rd Offset v]) (signalled s)).

Definition DwI2cWrite (Offset Value : Z) : Dw unit := λ s,
  Some (tt, mkBus (ctx s) (locked s) (MmioWrite32 (BaseAddress (ctx s) + Offset) Value (hw s))
              (log s ++ [Wr Offset Value]) (signalled s)).

(** A polling loop of [n] turns: a turn that yields a status ends it. *)
Fixpoint poll (n : nat) (turn : Dw (option EFI_STATUS)) : Dw EFI_STATUS :=
  match n with
  | O => mret EFI_TIMEOUT
  | S n' => r ← turn; match r with Some Status => mret Status | None => poll n' turn end
  end.

Definition DwI2cEnable (Enable : Z) : Dw EFI_STATUS :=
  _ ← DwI2cWrite DW_IC_ENABLE Enable;
  poll (Z.to_nat DW_MAX_STATUS_POLL_COUNT)
    (v ← DwI2cRead DW_IC_ENABLE_STATUS;
     if Z.land v 0x01 =? Enable then mret (Some EFI_SUCCESS)
     else c ← get_ctx; _ ← MicroSecondDelay (PollingTimeUs c); mret None).

(** Reading TX_ABRT_SOURCE is left out: it is an argument of a DEBUG message,
    evaluated only in a build that prints verbose messages, and has no effect on
    the controller. *)
Definition DwI2cCheckErrors : Dw Z :=
  v ← DwI2cRead DW_IC_RAW_INTR_STAT;
  let Errors := Z.land v DW_IC_ERR_CONDITION in
  _ ← (if negb (Z.land Errors DW_IC_INTR_RX_UNDER =? 0)
       then _ ← DwI2cRead DW_IC_CLR_RX_UNDER; mret tt else mret tt);
  _ ← (if negb (Z.land Errors DW_IC_INTR_RX_OVER =? 0)
       then _ ← DwI2cRead DW_IC_CLR_RX_OVER; mret tt else mret tt);
  _ ← (if negb (Z.land Errors DW_IC_INTR_TX_ABRT =? 0)
       then _ ← DwI2cRead DW_IC_CLR_TX_ABRT; mret tt else mret tt);
  mret Errors.

Definition DwI2cWaitBusNotBusy : Dw EFI_STATUS :=
  poll (Z.to_nat DW_MAX_MST_ACTIVITY_POLL_COUNT)
    (v ← DwI2cRead DW_IC_STATUS;
     if Z.land v DW_IC_STATUS_MST_ACTIVITY =? 0 then mret (Some EFI_SUCCESS)
     else _ ← MicroSecondDelay DW_POLL_MST_ACTIVITY_INTERVAL_US; mret None).

Definition DwI2cWaitTxData : Dw EFI_STATUS :=
  poll (Z.to_nat DW_MAX_TRANSFER_POLL_COUNT)
    (v ← DwI2cRead DW_IC_TXFLR;
     c ← get_ctx;
     if v <? TxFifo c then mret (Some EFI_SUCCESS)
     else
       Errors ← DwI2cCheckErrors;
       if negb (Z.land Errors DW_IC_INTR_TX_ABRT =? 0) then mret (Some EFI_ABORTED)
       else _ ← MicroSecondDelay (PollingTimeUs c); mret None).

Definition DwI2cWaitRxData : Dw EFI_STATUS :=
  poll (Z.to_nat DW_MAX_TRANSFER_POLL_COUNT)
    (v ← DwI2cRead DW_IC_STATUS;
     if negb (Z.land v DW_IC_STATUS_RFNE =? 0) then mret (Some EFI_SUCCESS)
     else
       Errors ← DwI2cCheckErrors;
       if negb (Z.land Errors DW_IC_INTR_TX_ABRT =? 0) then mret (Some EFI_ABORTED)
       else c ← get_ctx; _ ← MicroSecondDelay (PollingTimeUs c); mret None).

Definition DwI2cFinish : Dw EFI_STATUS :=
  Status ← poll (Z.to_nat DW_MAX_TRANSFER_POLL_COUNT)
    (v ← DwI2cRead DW_IC_STATUS;
     if negb (Z.land v DW_IC_STATUS_TFE =? 0) then mret (Some EFI_SUCCESS)
     else c ← get_ctx; _ ← MicroSecondDelay (PollingTimeUs c); mret None);
  if EFI_ERROR Status then mret EFI_TIMEOUT
  else
    poll (Z.to_nat DW_MAX_TRANSFER_POLL_COUNT)
      (v ← DwI2cRead DW_IC_RAW_INTR_STAT;
       if negb (Z.land v DW_IC_INTR_STOP_DET =? 0)
       then _ ← DwI2cRead DW_IC_CLR_STOP_DET; mret (Some EFI_SUCCESS)
       else c ← get_ctx; _ ← MicroSecondDelay (PollingTimeUs c); mret None).

Definition DwI2cHwInit : Dw unit :=
  _ ← DwI2cEnable 0;
  _ ← DwI2cWrite DW_IC_INTR_MASK 0;
  _ ← DwI2cWrite DW_IC_SS_SCL_HCNT DW_I2C_SS_SCL_HCNT_VAL;
  _ ← DwI2cWrite DW_IC_SS_SCL_LCNT DW_I2C_SS_SCL_LCNT_VAL;
  _ ← DwI2cWrite DW_IC_FS_SCL_HCNT DW_I2C_FS_SCL_HCNT_VAL;
  _ ← DwI2cWrite DW_IC_FS_SCL_LCNT DW_I2C_FS_SCL_LCNT_VAL;
  Version ← DwI2cRead DW_IC_COMP_VERSION;
  _ ← (if DW_IC_SDA_HOLD_MIN_VERS <=? Version
       then DwI2cWrite DW_IC_SDA_HOLD DW_I2C_SDA_HOLD_VAL else mret tt);
  _ ← DwI2cWrite DW_IC_CON
        (Z.lor (Z.lor (Z.lor DW_IC_CON_MASTER DW_IC_CON_SLAVE_DISABLE) DW_IC_CON_RESTART_EN)
               DW_IC_CON_SPEED_STD);
  _ ← DwI2cRead DW_IC_CLR_INTR;
  mret tt.

(** ** EFI_I2C_MASTER_PROTOCOL *)

(** A null [This] or [BusClockHertz] is [None]. *)
Definition DwI2cSetBusFrequency (This BusClockHertz : bool) (Hz : Z) : Dw (EFI_STATUS * Z) :=
  if negb This || negb BusClockHertz then mret (EFI_INVALID_PARAMETER, Hz)
  else
    _ ← EfiAcquireLock;
    _ ← DwI2cEnable 0;
    IcCon ← DwI2cRead DW_IC_CON;
    let IcCon := Z.land IcCon (u32 (Z.lnot DW_IC_CON_SPEED_MASK)) in
    let '(IcCon, Hz) :=
      if Hz <=? 100000 then (Z.lor IcCon DW_IC_CON_SPEED_STD, 100000)
      else (Z.lor IcCon DW_IC_CON_SPEED_FAST, 400000) in
    _ ← DwI2cWrite DW_IC_CON IcCon;
    c ← get_ctx;
    _ ← set_ctx (mkDwCtx (BaseAddress c) (BusIndex c) Hz (TxFifo c) (RxFifo c) (DW_POLL_INTERVAL_US Hz));
    _ ← DwI2cEnable 1;
    _ ← EfiReleaseLock;
    mret (EFI_SUCCESS, Hz).

Definition DwI2cReset (This : bool) : Dw EFI_STATUS :=
  if negb This then mret EFI_INVALID_PARAMETER
  else
    _ ← EfiAcquireLock;
    _ ← DwI2cHwInit;
    _ ← EfiReleaseLock;
    mret EFI_SUCCESS.

(** The flags of byte [ByteIdx] of an operation. *)
Definition stop_restart (CmdData : Z) (IsLastOp NeedRestart : bool) (ByteIdx Length : Z) : Z :=
  let CmdData := if IsLastOp && (ByteIdx =? Length - 1) then Z.lor CmdData DW_IC_DATA_CMD_STOP else CmdData in
  if NeedRestart && (ByteIdx =? 0) then Z.lor CmdData DW_IC_DATA_CMD_RESTART else CmdData.

(** The byte loops: [n] bytes are left. *)
Fixpoint read_bytes (n : nat) (IsLastOp NeedRestart : bool) (ByteIdx Length : Z) (Buffer : list Z)
    : Dw (EFI_STATUS * list Z) :=
  match n with
  | O => mret (EFI_SUCCESS, Buffer)
  | S n' =>
      Status ← DwI2cWaitTxData;
      if EFI_ERROR Status then mret (Status, Buffer)
      else
        _ ← DwI2cWrite DW_IC_DATA_CMD (stop_restart DW_IC_DATA_CMD_CMD IsLastOp NeedRestart ByteIdx Length);
        Status ← DwI2cWaitRxData;
        if EFI_ERROR Status then mret (Status, Buffer)
        else
          v ← DwI2cRead DW_IC_DATA_CMD;
          Buffer ← lift (wrn Buffer ByteIdx [u8 (Z.land v DW_IC_DATA_CMD_DAT_MASK)]);
          read_bytes n' IsLastOp NeedRestart (ByteIdx + 1) Length Buffer
  end.

Fixpoint write_bytes (n : nat) (IsLastOp NeedRestart : bool) (ByteIdx Length : Z) (Buffer : list Z)
    : Dw EFI_STATUS :=
  match n with
  | O => mret EFI_SUCCESS
  | S n' =>
      Status ← DwI2cWaitTxData;
      if EFI_ERROR Status then mret Status
      else
        b ← lift (rd Buffer ByteIdx);
        _ ← DwI2cWrite DW_IC_DATA_CMD
              (stop_restart (Z.land b DW_IC_DATA_CMD_DAT_MASK) IsLastOp NeedRestart ByteIdx Length);
        write_bytes n' IsLastOp NeedRestart (ByteIdx + 1) Length Buffer
  end.

(** The operations from number [OpIdx] on; those done keep their filled buffers. *)
Fixpoint process_ops (ops : list EFI_I2C_OPERATION) (OpIdx : Z) : Dw (EFI_STATUS * list EFI_I2C_OPERATION) :=
  match ops with
  | [] => mret (EFI_SUCCESS, [])
  | Op :: rest =>
      let IsLastOp := match rest with [] => true | _ => false end in
      let NeedRestart := 0 <? OpIdx in
      let n := Z.to_nat (LengthInBytes Op) in
      '(Status, Op) ←
        (if is_read Op then
           '(Status, Buffer) ← read_bytes n IsLastOp NeedRestart 0 (LengthInBytes Op) (Buffer Op);
           mret (Status, mkOp (Flags Op) (LengthInBytes Op) Buffer)
         else
           Status ← write_bytes n IsLastOp NeedRestart 0 (LengthInBytes Op) (Buffer Op);
           mret (Status, Op));
      if EFI_ERROR Status then mret (Status, Op :: rest)
      else
        '(Status, rest) ← process_ops rest (OpIdx + 1);
        mret (Status, Op :: rest)
  end.

(** [Abort:] *)
Definition abort_request (Status : EFI_STATUS) : Dw EFI_STATUS :=
  _ ← DwI2cWrite DW_IC_DATA_CMD DW_IC_DATA_CMD_STOP;
  _ ← DwI2cFinish;
  _ ← DwI2cCheckErrors;
  _ ← DwI2cWaitBusNotBusy;
  _ ← DwI2cEnable 0;
  _ ← EfiReleaseLock;
  mret (if decide (Status = EFI_ABORTED) then EFI_NO_RESPONSE else Status).

(** The request between taking the lock and [Done:]. *)
Definition run_request (SlaveAddress : Z) (ops : list EFI_I2C_OPERATION)
    : Dw (EFI_STATUS * list EFI_I2C_OPERATION) :=
  _ ← EfiAcquireLock;
  Status ← DwI2cWaitBusNotBusy;
  if EFI_ERROR Status then _ ← EfiReleaseLock; mret (Status, ops)
  else
    _ ← DwI2cEnable 0;
    _ ← DwI2cWrite DW_IC_TAR (Z.land SlaveAddress 0x3FF);
    _ ← DwI2cEnable 1;
    _ ← DwI2cRead DW_IC_CLR_INTR;
    '(Status, ops) ← process_ops ops 0;
    if EFI_ERROR Status then Status ← abort_request Status; mret (Status, ops)
    else
      Status ← DwI2cFinish;
      if EFI_ERROR Status then Status ← abort_request Status; mret (Status, ops)
      else
        Errors ← DwI2cCheckErrors;
        let Status :=
          if negb (Z.land Errors DW_IC_INTR_TX_ABRT =? 0) then EFI_NO_RESPONSE
          else if negb (Z.land Errors (Z.lor DW_IC_INTR_RX_UNDER DW_IC_INTR_RX_OVER) =? 0)
          then EFI_DEVICE_ERROR
          else EFI_SUCCESS in
        _ ← DwI2cWaitBusNotBusy;
        _ ← DwI2cEnable 0;
        _ ← EfiReleaseLock;
        mret (Status, ops).

(** [gBS->SignalEvent] of an event that is not null. *)
Definition signal (Event : option Z) : Dw unit := λ s,
  Some (tt, match Event with
            | Some e => mkBus (ctx s) (locked s) (hw s) (log s) (signalled s ++ [e])
            | None => s
            end).

(** The status returned, which [*I2cStatus] also gets, and the packet with its
    buffers; a null [This] is false, a null packet is [None]. *)
Definition DwI2cStartRequest (This : bool) (SlaveAddress : Z)
    (RequestPacket : option (list EFI_I2C_OPERATION)) (Event : option Z)
    : Dw (EFI_STATUS * option (list EFI_I2C_OPERATION)) :=
  r ← (match RequestPacket with
       | Some ((_ :: _) as ops) =>
           if This then '(Status, ops) ← run_request SlaveAddress ops; mret (Status, Some ops)
           else mret (EFI_INVALID_PARAMETER, RequestPacket)
       | _ => mret (EFI_INVALID_PARAMETER, RequestPacket)
       end);
  _ ← signal Event;
  mret r.

(** ** The other protocols *)

(** [*Device] is set to null. *)
Definition DwI2cEnumerate (Device : bool) : EFI_STATUS :=
  if negb Device then EFI_INVALID_PARAMETER else EFI_NO_MAPPING.

(** The status and [*BusClockHertz] when it is set. *)
Definition DwI2cGetBusFrequency (This BusClockHertz : bool) (I2cBusConfiguration : Z)
    : Dw (EFI_STATUS * option Z) :=
  if negb This || negb BusClockHertz then mret (EFI_INVALID_PARAMETER, None)
  else if negb (I2cBusConfiguration =? 0) then mret (EFI_NO_MAPPING, None)
  else c ← get_ctx; mret (EFI_SUCCESS, Some (BusSpeedHz c)).

Definition DwI2cEnableBusConfiguration (I2cBusConfiguration : Z) (Event : option Z) : Dw EFI_STATUS :=
  if negb (I2cBusConfiguration =? 0) then mret EFI_NO_MAPPING
  else _ ← signal Event; mret EFI_SUCCESS.

(** ** Entry point *)

(** The controllers from number [Index] on, one per element of [hws]; the
    controllers whose protocols stay installed. [Install] answers the
    installation of each. *)
Fixpoint init_buses (Install : Z → EFI_STATUS) (hws : list H) (Index : Z) (p : Pool)
    : option (EFI_STATUS * list (DwBus H) * Pool) :=
  match hws with
  | [] => Some (EFI_SUCCESS, [], p)
  | h :: hws' =>
      let '(ok, p) := AllocatePool p in
      if negb ok then Some (EFI_OUT_OF_RESOURCES, [], p)
      else
        Base ← rd mDwI2cBase Index;
        Speed ← rd mDwI2cSpeed Index;
        let '(Param, h) := MmioRead32 (Base + DW_IC_COMP_PARAM_1) h in
        let c := mkDwCtx Base Index Speed (DW_IC_COMP_PARAM_1_TX_BUFFER_DEPTH Param)
                   (DW_IC_COMP_PARAM_1_RX_BUFFER_DEPTH Param) (DW_POLL_INTERVAL_US Speed) in
        '(_, b) ← DwI2cHwInit (mkBus c false h [Rd DW_IC_COMP_PARAM_1 Param] []);
        let '(ok, p) := AllocatePool p in
        if negb ok then Some (EFI_OUT_OF_RESOURCES, [], FreePool p)
        else if EFI_ERROR (Install Index) then Some (Install Index, [], FreePool (FreePool p))
        else
          '(Status, bs, p) ← init_buses Install hws' (Index + 1) p;
          Some (Status, b :: bs, p)
  end.

Definition DwI2cDxeInitialize (Install : Z → EFI_STATUS) (hws : list H) (p : Pool)
    : option (EFI_STATUS * list (DwBus H) * Pool) :=
  init_buses Install (take (Z.to_nat DW_I2C_BUS_COUNT) hws) 0 p.
End Code.

(** The bus instances [DwI2cOnEndOfDxe] connects; [located] answers
    LocateDevicePath. *)
Fixpoint connect_buses (fuel : nat) (located : Z → bool) (Instance : Z) : option (list Z) :=
  match fuel with
  | O => None
  | S fuel' =>
      if negb (located Instance) then Some []
      else rest ← connect_buses fuel' located (Instance +u32 1); Some (Instance :: rest)
  end.

Definition DwI2cOnEndOfDxe (fuel : nat) (located : Z → bool) (p : Pool) : option (list Z * Pool) :=
  let '(ok, p) := AllocatePool p in
  if negb ok then Some ([], p)
  else ids ← connect_buses fuel located 0; Some (ids, FreePool p).

(** ** What a run leaves in the log *)

(** The accesses that make the transfer: enabling, the target address, the
    commands issued, and the bytes taken from the receive FIFO as they are stored. *)
Definition bus_write (o : Z) : bool := (o =? DW_IC_DATA_CMD) || (o =? DW_IC_ENABLE) || (o =? DW_IC_TAR).
Definition data_of (a : access) : option access :=
  match a with
  | Rd o v => if o =? DW_IC_DATA_CMD then Some (Rd o (u8 (Z.land v DW_IC_DATA_CMD_DAT_MASK))) else None
  | Wr o v => if bus_write o then Some (Wr o v) else None
  end.
Definition data (l : list access) : list access := omap data_of l.

(** The transfer of byte [i] of an operation with the buffer [buf]. *)
Definition byte_events (rd_op last restart : bool) (Length : Z) (buf : list Z) (i : Z) : list access :=
  let b := default 0 (rd buf i) in
  if rd_op
  then [Wr DW_IC_DATA_CMD (stop_restart DW_IC_DATA_CMD_CMD last restart i Length); Rd DW_IC_DATA_CMD b]
  else [Wr DW_IC_DATA_CMD (stop_restart (Z.land b DW_IC_DATA_CMD_DAT_MASK) last restart i Length)].

(** Bytes [i] to [i + n - 1]. *)
Definition bytes_events rd_op last restart Length buf (i : Z) (n : nat) : list access :=
  mjoin (map (byte_events rd_op last restart Length buf) (seqZ i (Z.of_nat n))).

(** A packet on the bus: a repeated start opens every operation but the first, a
    stop closes the last. *)
Fixpoint request_events (ops : list EFI_I2C_OPERATION) (OpIdx : Z) : list access :=
  match ops with
  | [] => []
  | op :: rest =>
      bytes_events (is_read op) (match rest with [] => true | _ => false end) (0 <? OpIdx)
        (LengthInBytes op) (Buffer op) 0 (Z.to_nat (LengthInBytes op)) ++ request_events rest (OpIdx + 1)
  end.

Section Runs.
Context {H : Type} `{Mmio H, Timer H}.
Implicit Types s : DwBus H.

Lemma dw_wp_bind {A B} (m : Dw A) (f : A → Dw B) Q s :
  wp m (λ a s', wp (f a) Q s') s → wp (m ≫= f) Q s.
Proof. unfold wp, mbind, Dw_bind. by destruct (m s) as [[a s']|]. Qed.

(** A run under the lock: the context, the lock and the events stay, the log grows
    by accesses whose data part is [d]. *)
Definition ran (d : list access) s s' : Prop :=
  ctx s' = ctx s ∧ locked s' = locked s ∧ signalled s' = signalled s ∧
  ∃ l, log s' = log s ++ l ∧ data l = d.

Lemma ran_refl s : ran [] s s.
Proof. split_and!; [done..|]. exists []. by rewrite app_nil_r. Qed.

Lemma ran_trans d1 d2 s1 s2 s3 : ran d1 s1 s2 → ran d2 s2 s3 → ran (d1 ++ d2) s1 s3.
Proof.
  intros (Hc1 & Hl1 & Hs1 & l1 & Hg1 & Hd1) (Hc2 & Hl2 & Hs2 & l2 & Hg2 & Hd2).
  split_and!; [congruence..|]. exists (l1 ++ l2). rewrite Hg2, Hg1, app_assoc. split; [done|].
  unfold data in *. by rewrite omap_app, Hd1, Hd2.
Qed.

Lemma read_spec o s :
  wp (DwI2cRead o) (λ v s', ran (data [Rd o v]) s s') s.
Proof.
  unfold wp, DwI2cRead. destruct (MmioRead32 _ _) as [v h]. split_and!; [done..|]. by exists [Rd o v].
Qed.

Lemma write_spec o v s : wp (DwI2cWrite o v) (λ _ s', ran (data [Wr o v]) s s') s.
Proof. split_and!; [done..|]. by exists [Wr o v]. Qed.

(** Computations that make none of these accesses. *)
Definition quiet {A} (m : Dw A) : Prop := ∀ s, wp m (λ _ s', ran [] s s') s.

Lemma quiet_ret {A} (a : A) : quiet (mret a).
Proof. intros s. apply ran_refl. Qed.

Lemma quiet_bind {A B} (m : Dw A) (f : A → Dw B) : quiet m → (∀ a, quiet (f a)) → quiet (m ≫= f).
Proof.
  intros Hm Hf s. apply dw_wp_bind. eapply wp_mono; [apply Hm|]. intros a s1 H1'.
  eapply wp_mono; [apply Hf|]. intros b s2 H2'. by apply (ran_trans [] [] s s1 s2).
Qed.

Lemma quiet_read o : o ≠ DW_IC_DATA_CMD → quiet (DwI2cRead o).
Proof.
  intros Ho s. eapply wp_mono; [apply read_spec|]. intros v s'. unfold data. cbn [omap list_omap data_of].
  by rewrite (proj2 (Z.eqb_neq _ _)).
Qed.

Lemma quiet_write o v : bus_write o = false → quiet (DwI2cWrite o v).
Proof.
  intros Ho s. eapply wp_mono; [apply write_spec|]. intros [] s'. unfold data. cbn [omap list_omap data_of].
  by rewrite Ho.
Qed.

Lemma quiet_delay us : quiet (MicroSecondDelay us).
Proof. intros s. split_and!; [done..|]. exists []. by rewrite app_nil_r. Qed.

Lemma quiet_ctx : quiet get_ctx.
Proof. intros s. apply ran_refl. Qed.

Lemma quiet_if {A} (b : bool) (m1 m2 : Dw A) : quiet m1 → quiet m2 → quiet (if b then m1 else m2).
Proof. by destruct b. Qed.

Lemma quiet_poll n turn : quiet turn → quiet (poll n turn).
Proof.
  intros Ht. induction n as [|n IH]; cbn [poll]; [apply quiet_ret|]. apply quiet_bind; [done|].
  intros [st|]; [apply quiet_ret|done].
Qed.
End Runs.

Create HintDb dw.
#[export] Hint Resolve quiet_ret quiet_delay quiet_ctx : dw.

(** Quietness of a computation, from its parts. *)
Ltac quiet_step :=
  first [ solve [auto with dw] | apply quiet_poll | apply quiet_bind; [|intros ?] | apply quiet_if
        | apply quiet_read; vm_compute; discriminate | apply quiet_write; vm_compute; reflexivity ].
Ltac quiet := cbv zeta; repeat quiet_step.

Section Driver.
Context {H : Type} `{Mmio H, Timer H}.
Implicit Types s : DwBus H.

Lemma quiet_errors : quiet DwI2cCheckErrors.
Proof. unfold DwI2cCheckErrors. quiet. Qed.
#[local] Hint Resolve quiet_errors : dw.
Lemma quiet_busy : quiet DwI2cWaitBusNotBusy.
Proof. unfold DwI2cWaitBusNotBusy. quiet. Qed.
Lemma quiet_tx : quiet DwI2cWaitTxData.
Proof. unfold DwI2cWaitTxData. quiet. Qed.
Lemma quiet_rx : quiet DwI2cWaitRxData.
Proof. unfold DwI2cWaitRxData. quiet. Qed.
Lemma quiet_finish : quiet DwI2cFinish.
Proof. unfold DwI2cFinish. quiet. Qed.
#[local] Hint Resolve quiet_busy quiet_tx quiet_rx quiet_finish : dw.

(** The rules for a call that is quiet, a command and a lifted access. *)
Lemma wp_quiet {A B} (m : Dw A) (f : A → Dw B) (Q : B → DwBus H → Prop) s :
  quiet m → (∀ a s', ran [] s s' → wp (f a) Q s') → wp (m ≫= f) Q s.
Proof. intros Hm Hf. apply dw_wp_bind. eapply wp_mono; [apply Hm|]. auto. Qed.

Lemma Enable_spec e s : wp (DwI2cEnable e) (λ _ s', ran [Wr DW_IC_ENABLE e] s s') s.
Proof.
  unfold DwI2cEnable. apply dw_wp_bind. eapply wp_mono; [apply write_spec|]. intros [] s1 Hs1.
  eapply wp_mono; [|intros st s2 Hs2; exact (ran_trans _ _ _ _ _ Hs1 Hs2)].
  match goal with |- wp ?m _ _ => assert (Hq : quiet m) by quiet end. apply Hq.
Qed.

Lemma wp_enable {B} e (f : EFI_STATUS → Dw B) (Q : B → DwBus H → Prop) s :
  (∀ st s', ran [Wr DW_IC_ENABLE e] s s' → wp (f st) Q s') → wp (DwI2cEnable e ≫= f) Q s.
Proof. intros Hf. apply dw_wp_bind. eapply wp_mono; [apply Enable_spec|]. auto. Qed.

Lemma wp_cmd {B} v (f : unit → Dw B) (Q : B → DwBus H → Prop) s :
  (∀ s', ran [Wr DW_IC_DATA_CMD v] s s' → wp (f tt) Q s') → wp (DwI2cWrite DW_IC_DATA_CMD v ≫= f) Q s.
Proof. intros Hf. apply dw_wp_bind. eapply wp_mono; [apply write_spec|]. intros [] s'. apply Hf. Qed.

Lemma wp_tar {B} v (f : unit → Dw B) (Q : B → DwBus H → Prop) s :
  (∀ s', ran [Wr DW_IC_TAR v] s s' → wp (f tt) Q s') → wp (DwI2cWrite DW_IC_TAR v ≫= f) Q s.
Proof. intros Hf. apply dw_wp_bind. eapply wp_mono; [apply write_spec|]. intros [] s'. apply Hf. Qed.

Lemma wp_take {B} (f : Z → Dw B) (Q : B → DwBus H → Prop) s :
  (∀ v s', ran [Rd DW_IC_DATA_CMD (u8 (Z.land v DW_IC_DATA_CMD_DAT_MASK))] s s' → wp (f v) Q s') →
  wp (DwI2cRead DW_IC_DATA_CMD ≫= f) Q s.
Proof. intros Hf. apply dw_wp_bind. eapply wp_mono; [apply read_spec|]. intros v s'. apply Hf. Qed.

Lemma wp_lift {A B} (o : option A) a (f : A → Dw B) (Q : B → DwBus H → Prop) s :
  o = Some a → wp (f a) Q s → wp (lift o ≫= f) Q s.
Proof. by intros ->. Qed.

Lemma bytes_events_S rd_op last restart Length buf i n :
  bytes_events rd_op last restart Length buf i (S n) =
    byte_events rd_op last restart Length buf i ++ bytes_events rd_op last restart Length buf (i + 1) n.
Proof.
  unfold bytes_events. rewrite seqZ_cons by lia. cbn [map mjoin list_join].
  by replace (Z.pred (Z.of_nat (S n))) with (Z.of_nat n) by lia.
Qed.

(** What a partial transfer leaves: all of [evs], or a prefix of it. *)
Definition progress (st : EFI_STATUS) (evs d : list access) : Prop :=
  if EFI_ERROR st then d `prefix_of` evs else st = EFI_SUCCESS ∧ d = evs.

Lemma progress_error st evs d : EFI_ERROR st = true → d `prefix_of` evs → progress st evs d.
Proof. unfold progress. by intros ->. Qed.

Lemma progress_app st evs d d0 : progress st evs d → progress st (d0 ++ evs) (d0 ++ d).
Proof.
  unfold progress. destruct (EFI_ERROR st); [by apply prefix_app|]. by intros [-> ->].
Qed.

Lemma error_not_success st : EFI_ERROR st = false → (st = EFI_SUCCESS ∨ st = EFI_WARN_DELETE_FAILURE).
Proof. destruct st; auto; done. Qed.

(** The status of a poll is never a warning. *)
Definition not_warning (st : EFI_STATUS) : Prop := EFI_ERROR st = false → st = EFI_SUCCESS.

Lemma read_bytes_spec n last restart i Length buf s :
  0 <= i → i + Z.of_nat n <= len buf →
  wp (read_bytes n last restart i Length buf) (λ '(st, buf') s',
    length buf' = length buf ∧ (∀ j, j < i → rd buf' j = rd buf j) ∧
    (Forall byte_ok buf → Forall byte_ok buf') ∧
    ∃ d, ran d s s' ∧ progress st (bytes_events true last restart Length buf' i n) d) s.
Proof.
  revert i buf s. induction n as [|n IH]; intros i buf s Hi Hn; cbn [read_bytes].
  { split_and!; [done..|]. exists []. split; [apply ran_refl|]. done. }
  apply wp_quiet; [apply quiet_tx|]. intros st s1 Hs1.
  destruct (EFI_ERROR st) eqn:Est.
  { split_and!; [done..|]. exists []. split; [done|]. apply progress_error; [done|]. apply prefix_nil. }
  apply wp_cmd. intros s2 Hs2. pose proof (ran_trans _ _ _ _ _ Hs1 Hs2) as Hs12.
  apply wp_quiet; [apply quiet_rx|]. intros st2 s3 Hs3. pose proof (ran_trans _ _ _ _ _ Hs12 Hs3) as Hs13.
  destruct (EFI_ERROR st2) eqn:Est2.
  { split_and!; [done..|]. eexists. split; [exact Hs13|]. apply progress_error; [done|].
    rewrite bytes_events_S. simpl. apply prefix_cons, prefix_nil. }
  apply wp_take. intros v s4 Hs4. pose proof (ran_trans _ _ _ _ _ Hs13 Hs4) as Hs14.
  set (b := u8 (Z.land v DW_IC_DATA_CMD_DAT_MASK)) in *.
  assert (Hw : wrn buf i [b] = Some (take (Z.to_nat i) buf ++ [b] ++ drop (Z.to_nat i + 1) buf))
    by (apply wrn_eq; simpl; lia).
  set (buf1 := take (Z.to_nat i) buf ++ [b] ++ drop (Z.to_nat i + 1) buf) in *.
  assert (Hl1 : length buf1 = length buf) by (by apply wrn_length in Hw).
  assert (Htake : len (take (Z.to_nat i) buf) = i) by (rewrite length_take; lia).
  apply (wp_lift _ buf1); [exact Hw|].
  eapply wp_mono; [apply (IH (i + 1) buf1); lia|].
  intros [st5 buf'] s5 (Hl & Hkeep & Hbytes & d & Hd & Hp). split_and!.
  - congruence.
  - intros j Hj. rewrite Hkeep by lia. unfold buf1. rewrite rd_app_l by lia. apply rd_take. lia.
  - intros Hbuf. apply Hbytes. unfold buf1. rewrite !Forall_app. split_and!; auto using Forall_take, Forall_drop.
    constructor; [|done]. apply u8_range.
  - eexists. split; [exact (ran_trans _ _ _ _ _ Hs14 Hd)|]. rewrite bytes_events_S.
    replace (byte_events true last restart Length buf' i)
      with ((([] ++ [Wr DW_IC_DATA_CMD (stop_restart DW_IC_DATA_CMD_CMD last restart i Length)]) ++ []) ++ [Rd DW_IC_DATA_CMD b]).
    { by apply progress_app. }
    unfold byte_events. rewrite Hkeep by lia. unfold buf1. rewrite rd_app_r by lia.
    rewrite Htake. replace (i - i) with 0 by lia. done.
Qed.

Lemma write_bytes_spec n last restart i Length buf s :
  0 <= i → i + Z.of_nat n <= len buf →
  wp (write_bytes n last restart i Length buf) (λ st s',
    ∃ d, ran d s s' ∧ progress st (bytes_events false last restart Length buf i n) d) s.
Proof.
  revert i s. induction n as [|n IH]; intros i s Hi Hn; cbn [write_bytes].
  { exists []. split; [apply ran_refl|]. done. }
  apply wp_quiet; [apply quiet_tx|]. intros st s1 Hs1.
  destruct (EFI_ERROR st) eqn:Est.
  { exists []. split; [done|]. apply progress_error; [done|]. apply prefix_nil. }
  destruct (rd_in_range buf i ltac:(lia)) as [b Hb]. apply (wp_lift _ b); [exact Hb|].
  apply wp_cmd. intros s2 Hs2. pose proof (ran_trans _ _ _ _ _ Hs1 Hs2) as Hs12.
  eapply wp_mono; [apply (IH (i + 1)); lia|]. intros st3 s3 (d & Hd & Hp).
  eexists. split; [exact (ran_trans _ _ _ _ _ Hs12 Hd)|]. rewrite bytes_events_S.
  unfold byte_events at 1. rewrite Hb. by apply progress_app.
Qed.

(** The packet: on every path the buffers keep their shape, and what went over the
    bus is the packet's transfer or a prefix of it. *)
Lemma process_ops_spec ops OpIdx s :
  Forall op_ok ops →
  wp (process_ops ops OpIdx) (λ '(st, ops') s',
    Forall2 same_shape ops ops' ∧ ∃ d, ran d s s' ∧ progress st (request_events ops' OpIdx) d) s.
Proof.
  revert OpIdx s. induction ops as [|op rest IH]; intros OpIdx s Hok; cbn [process_ops].
  { split; [done|]. exists []. split; [apply ran_refl|]. done. }
  apply Forall_cons_1 in Hok as [[Hlen Hlt] Hrest].
  set (last := match rest with [] => true | _ => false end).
  set (n := Z.to_nat (LengthInBytes op)).
  assert (Hop : wp (if is_read op then
           '(Status, Buffer) ← read_bytes n last (0 <? OpIdx) 0 (LengthInBytes op) (Buffer op);
           mret (Status, mkOp (Flags op) (LengthInBytes op) Buffer)
         else
           Status ← write_bytes n last (0 <? OpIdx) 0 (LengthInBytes op) (Buffer op);
           mret (Status, op))
    (λ '(st, op') s', same_shape op op' ∧ ∃ d, ran d s s' ∧
       progress st (bytes_events (is_read op) last (0 <? OpIdx) (LengthInBytes op) (Buffer op') 0 n) d) s).
  { destruct (is_read op) eqn:Er; apply dw_wp_bind.
    - eapply wp_mono; [apply read_bytes_spec; lia|]. intros [st buf'] s' (Hl & _ & Hbytes & Hd).
      split; [|done]. split_and!; [done..| |done]. by rewrite Er.
    - eapply wp_mono; [apply write_bytes_spec; lia|]. intros st s' Hd.
      split; [apply same_shape_refl|done]. }
  apply dw_wp_bind. eapply wp_mono; [exact Hop|].
  intros [st op'] s1 (Hsh & d & Hd & Hp). pose proof Hsh as (Hfl & Hln & _ & _ & _).
  assert (Hrd : is_read op' = is_read op) by (unfold is_read; by rewrite Hfl).
  unfold progress in Hp. destruct (EFI_ERROR st) eqn:Est.
  - split; [constructor; [done|]; clear; induction rest; constructor; auto using same_shape_refl|].
    exists d. split; [done|]. apply progress_error; [done|]. cbn [request_events]. fold last.
    rewrite Hrd, Hln. fold n. by apply prefix_app_r.
  - destruct Hp as [-> ->]. apply dw_wp_bind. eapply wp_mono; [by apply IH|].
    intros [st2 rest'] s2 (Hsh2 & d2 & Hd2 & Hp2). split; [by constructor|].
    eexists. split; [exact (ran_trans _ _ _ _ _ Hd Hd2)|]. cbn [request_events].
    replace (match rest' with [] => true | _ => false end) with last by (unfold last; by destruct Hsh2).
    rewrite Hrd, Hln. fold n. by apply progress_app.
Qed.
(** ** A request *)

(** The trace of a request to [addr] whose transfer left [d]. *)
Definition session (addr : Z) (d : list access) : list access :=
  [Wr DW_IC_ENABLE 0; Wr DW_IC_TAR (Z.land addr 0x3FF); Wr DW_IC_ENABLE 1] ++ d ++ [Wr DW_IC_ENABLE 0].

(** What a request may leave: nothing when the bus stayed busy; the whole packet;
    or a part of it that an abort closed with a stop. *)
Definition request_trace (addr : Z) (st : EFI_STATUS) (ops ops' : list EFI_I2C_OPERATION) (d : list access) : Prop :=
  (st = EFI_SUCCESS ∧ d = session addr (request_events ops' 0)) ∨
  (EFI_ERROR st = true ∧
     ((d = [] ∧ ops' = ops) ∨ d = session addr (request_events ops' 0) ∨
      ∃ pre, pre `prefix_of` request_events ops' 0 ∧ d = session addr (pre ++ [Wr DW_IC_DATA_CMD DW_IC_DATA_CMD_STOP]))).

Definition unlocked_after (d : list access) s s' : Prop :=
  ctx s' = ctx s ∧ locked s' = false ∧ signalled s' = signalled s ∧ ∃ l, log s' = log s ++ l ∧ data l = d.

Lemma wp_release {B} d s s1 (f : unit → Dw B) (Q : B → DwBus H → Prop) :
  locked s = true → ran d s s1 →
  (∀ s', unlocked_after d s s' → wp (f tt) Q s') → wp (EfiReleaseLock ≫= f) Q s1.
Proof.
  intros Hl (Hc & Hl1 & Hs & Hd) Hf. apply dw_wp_bind. unfold wp at 1, EfiReleaseLock.
  rewrite Hl1, Hl. apply Hf. by split_and!.
Qed.

Lemma abort_spec st d s s1 :
  locked s = true → ran d s s1 → EFI_ERROR st = true →
  wp (abort_request st) (λ st' s', EFI_ERROR st' = true ∧ st' ≠ EFI_ABORTED ∧
    unlocked_after (d ++ [Wr DW_IC_DATA_CMD DW_IC_DATA_CMD_STOP; Wr DW_IC_ENABLE 0]) s s') s1.
Proof.
  intros Hl Hd Hst. unfold abort_request. apply wp_cmd. intros s2 Hs2.
  apply wp_quiet; [apply quiet_finish|]. intros _ s3 Hs3.
  apply wp_quiet; [apply quiet_errors|]. intros _ s4 Hs4.
  apply wp_quiet; [apply quiet_busy|]. intros _ s5 Hs5.
  apply wp_enable. intros _ s6 Hs6.
  pose proof (ran_trans _ _ _ _ _ (ran_trans _ _ _ _ _ (ran_trans _ _ _ _ _
    (ran_trans _ _ _ _ _ (ran_trans _ _ _ _ _ Hd Hs2) Hs3) Hs4) Hs5) Hs6) as Hall.
  rewrite !app_nil_r, <- app_assoc in Hall. simpl in Hall.
  eapply wp_release; [exact Hl|exact Hall|]. intros s7 Hs7. unfold wp, mret, Dw_ret.
  destruct (decide (st = EFI_ABORTED)) as [->|]; done.
Qed.

Lemma wp_and {A} (m : Dw A) (P Q : A → DwBus H → Prop) s :
  wp m P s → wp m Q s → wp m (λ a s', P a s' ∧ Q a s') s.
Proof. unfold wp. by destruct (m s) as [[a s']|]. Qed.

Lemma busy_status s : wp DwI2cWaitBusNotBusy (λ st _, st = EFI_SUCCESS ∨ st = EFI_TIMEOUT) s.
Proof.
  unfold DwI2cWaitBusNotBusy. generalize (Z.to_nat DW_MAX_MST_ACTIVITY_POLL_COUNT) as n. intros n.
  revert s. induction n as [|n IH]; intros s; cbn [poll]; [by right|].
  apply dw_wp_bind, dw_wp_bind. eapply wp_mono; [apply read_spec|]. intros v s' _. cbv beta.
  destruct (_ =? 0); [by left|]. apply dw_wp_bind. apply IH.
Qed.

Lemma run_request_spec addr ops s :
  locked s = false → Forall op_ok ops →
  wp (run_request addr ops) (λ '(st, ops') s',
    Forall2 same_shape ops ops' ∧ st ≠ EFI_ABORTED ∧
    ∃ d, unlocked_after d s s' ∧ request_trace addr st ops ops' d) s.
Proof.
  intros Hlock Hok. unfold run_request. apply dw_wp_bind. unfold wp at 1, EfiAcquireLock. rewrite Hlock.
  set (s0 := mkBus (ctx s) true (hw s) (log s) (signalled s)).
  assert (Hun : ∀ d s', unlocked_after d s0 s' → unlocked_after d s s') by (by intros d s' Hd).
  assert (Hshape : Forall2 same_shape ops ops) by (clear; induction ops; constructor; auto using same_shape_refl).
  apply dw_wp_bind. eapply wp_mono; [apply wp_and; [apply quiet_busy|apply busy_status]|].
  intros st s1 [Hs1 Hst]. destruct (EFI_ERROR st) eqn:Est.
  { apply (wp_release [] s0); [done..|]. intros s2 Hs2. split_and!; [done|by destruct Hst as [->| ->]|].
    exists []. split; [by apply Hun|]. right. split; [done|by left]. }
  apply wp_enable. intros _ s2 Hs2. pose proof (ran_trans _ _ _ _ _ Hs1 Hs2) as Hr2.
  apply wp_tar. intros s3 Hs3. pose proof (ran_trans _ _ _ _ _ Hr2 Hs3) as Hr3.
  apply wp_enable. intros _ s4 Hs4. pose proof (ran_trans _ _ _ _ _ Hr3 Hs4) as Hr4.
  apply wp_quiet; [by apply quiet_read|]. intros _ s5 Hs5. pose proof (ran_trans _ _ _ _ _ Hr4 Hs5) as Hr5.
  apply dw_wp_bind. eapply wp_mono; [by apply process_ops_spec|].
  intros [st1 ops'] s6 (Hsh & d & Hs6 & Hp). pose proof (ran_trans _ _ _ _ _ Hr5 Hs6) as Hr6.
  unfold progress in Hp. destruct (EFI_ERROR st1) eqn:Est1.
  { apply dw_wp_bind. eapply wp_mono; [exact (abort_spec _ _ s0 _ eq_refl Hr6 Est1)|].
    intros st2 s7 (Hst2 & Hna & Hs7). split_and!; [done..|]. eexists. split; [by apply Hun|].
    right. split; [done|]. right; right. exists d. split; [done|].
    unfold session. by rewrite <- !app_assoc. }
  destruct Hp as [-> ->].
  apply wp_quiet; [apply quiet_finish|]. intros st3 s7 Hs7. pose proof (ran_trans _ _ _ _ _ Hr6 Hs7) as Hr7.
  destruct (EFI_ERROR st3) eqn:Est3.
  { apply dw_wp_bind. eapply wp_mono; [exact (abort_spec _ _ s0 _ eq_refl Hr7 Est3)|].
    intros st2 s8 (Hst2 & Hna & Hs8). split_and!; [done..|]. eexists. split; [by apply Hun|].
    right. split; [done|]. right; right. eexists. split; [reflexivity|].
    unfold session. by rewrite app_nil_r, <- !app_assoc. }
  apply wp_quiet; [apply quiet_errors|]. intros Errors s8 Hs8. cbv zeta.
  apply wp_quiet; [apply quiet_busy|]. intros _ s9 Hs9.
  apply wp_enable. intros _ s10 Hs10.
  pose proof (ran_trans _ _ _ _ _ (ran_trans _ _ _ _ _ (ran_trans _ _ _ _ _ Hr7 Hs8) Hs9) Hs10) as Hr.
  eapply (wp_release _ s0); [done|exact Hr|]. intros s11 Hs11. rewrite !app_nil_r in Hs11.
  assert (Hall : ∀ st, st = EFI_SUCCESS ∨ EFI_ERROR st = true → st ≠ EFI_ABORTED →
    wp (mret (M := Dw) (st, ops')) (λ '(st, ops') s', Forall2 same_shape ops ops' ∧ st ≠ EFI_ABORTED ∧
      ∃ d, unlocked_after d s s' ∧ request_trace addr st ops ops' d) s11).
  { intros st4 Hst4 Hna. split_and!; [done..|]. eexists. split; [by apply Hun|].
    destruct Hst4 as [->|Hst4]; [by left|]. right. split; [done|]. right. by left. }
  apply Hall; repeat (destruct (negb _)); auto; done.
Qed.
End Driver.

(** ** What the devices on the bus see *)

(** One operation as it goes over the bus: whether a repeated start opens it, its
    direction and its bytes. *)
Definition segment : Type := bool * bool * list Z.

(** A byte before what follows it: a stop ends the transfer, a restart or another
    byte in the same direction must follow otherwise. *)
Definition join_byte (restart dir stop : bool) (b : Z) (rest : option (list segment)) : option (list segment) :=
  match rest with
  | None => None
  | Some [] => if stop then Some [(restart, dir, [b])] else None
  | Some ((r, d, bs) :: t) =>
      if stop then None
      else if r then Some ((restart, dir, [b]) :: (r, d, bs) :: t)
      else if Bool.eqb d dir then Some ((restart, dir, b :: bs) :: t) else None
  end.

(** The commands issued, read as the controller's manual defines the bits of
    DATA_CMD. *)
Fixpoint decode (l : list access) : option (list segment) :=
  match l with
  | [] => Some []
  | Wr o c :: l' =>
      if negb (o =? DW_IC_DATA_CMD) then None
      else if Z.testbit c 8 then
        match l' with
        | Rd _ b :: l'' => join_byte (Z.testbit c 10) true (Z.testbit c 9) b (decode l'')
        | _ => None
        end
      else join_byte (Z.testbit c 10) false (Z.testbit c 9) (Z.land c 0xFF) (decode l')
  | Rd _ _ :: _ => None
  end.

(** What the packet asks for. *)
Fixpoint segments (ops : list EFI_I2C_OPERATION) (OpIdx : Z) : list segment :=
  match ops with
  | [] => []
  | op :: rest =>
      (0 <? OpIdx, is_read op, take (Z.to_nat (LengthInBytes op)) (Buffer op)) :: segments rest (OpIdx + 1)
  end.

(** A packet whose operations all move bytes. *)
Definition op_moves (op : EFI_I2C_OPERATION) : Prop :=
  op_ok op ∧ 0 < LengthInBytes op ∧ Forall byte_ok (Buffer op).

Lemma stop_restart_bits base last restart i Length :
  (base = DW_IC_DATA_CMD_CMD ∨ byte_ok base) →
  Z.testbit (stop_restart base last restart i Length) 8 = Z.testbit base 8 ∧
  Z.testbit (stop_restart base last restart i Length) 9 = last && (i =? Length - 1) ∧
  Z.testbit (stop_restart base last restart i Length) 10 = restart && (i =? 0) ∧
  Z.land (stop_restart base last restart i Length) 0xFF = Z.land base 0xFF.
Proof.
  intros Hb.
  assert (Hhi : Z.testbit base 9 = false ∧ Z.testbit base 10 = false).
  { destruct Hb as [->|Hb]; [done|]. unfold byte_ok in Hb.
    rewrite <- (Z.mod_small base (2 ^ 8)) by lia. by rewrite !Z.mod_pow2_bits_high by lia. }
  destruct Hhi as [H9 H10]. unfold stop_restart.
  destruct (last && _), (restart && _); rewrite ?Z.lor_spec, ?Z.land_lor_distr_l, ?H9, ?H10;
    cbn [orb]; rewrite ?orb_false_r; split_and!; rewrite ?Z.lor_0_r; done.
Qed.

Lemma stop_restart_read last restart i Length l b :
  decode (Wr DW_IC_DATA_CMD (stop_restart DW_IC_DATA_CMD_CMD last restart i Length) :: Rd DW_IC_DATA_CMD b :: l) =
    join_byte (restart && (i =? 0)) true (last && (i =? Length - 1)) b (decode l).
Proof.
  destruct (stop_restart_bits DW_IC_DATA_CMD_CMD last restart i Length ltac:(by left)) as (E8 & E9 & E10 & _).
  cbn [decode]. by rewrite E8, E9, E10.
Qed.

Lemma byte_low b : byte_ok b → Z.land b 0xFF = b ∧ Z.testbit b 8 = false.
Proof.
  unfold byte_ok. intros Hb. change 0xFF with (Z.ones 8). rewrite Z.land_ones, Z.mod_small by lia.
  split; [done|]. rewrite <- (Z.mod_small b (2 ^ 8)) by lia. by apply Z.mod_pow2_bits_high.
Qed.

Lemma stop_restart_write last restart i Length l b :
  byte_ok b →
  decode (Wr DW_IC_DATA_CMD (stop_restart (Z.land b DW_IC_DATA_CMD_DAT_MASK) last restart i Length) :: l) =
    join_byte (restart && (i =? 0)) false (last && (i =? Length - 1)) b (decode l).
Proof.
  intros Hb. destruct (byte_low b Hb) as [Hl H8]. unfold DW_IC_DATA_CMD_DAT_MASK. rewrite Hl.
  destruct (stop_restart_bits b last restart i Length ltac:(by right)) as (E8 & E9 & E10 & El).
  cbn [decode]. by rewrite E8, E9, E10, El, H8, Hl.
Qed.

Lemma byte_events_decode rd_op last restart Length buf i l b :
  Forall byte_ok buf → rd buf i = Some b →
  decode (byte_events rd_op last restart Length buf i ++ l) =
    join_byte (restart && (i =? 0)) rd_op (last && (i =? Length - 1)) b (decode l).
Proof.
  intros Hbuf Hb. unfold byte_events. rewrite Hb. cbn [default].
  destruct rd_op; cbn [app]; [apply stop_restart_read|]. apply stop_restart_write. by eapply rd_byte_ok.
Qed.

(** What may follow an operation: nothing after the last, a restart after the others. *)
Definition follows (last : bool) (segs : list segment) : Prop :=
  if last then segs = [] else ∃ d bs t, segs = (true, d, bs) :: t.

Lemma bytes_events_decode rd_op last restart Length buf i n l segs :
  Forall byte_ok buf → 0 <= i → i + Z.of_nat (S n) = Length → Length <= len buf →
  decode l = Some segs → follows last segs →
  decode (bytes_events rd_op last restart Length buf i (S n) ++ l) =
    Some ((restart && (i =? 0), rd_op, take (S n) (drop (Z.to_nat i) buf)) :: segs).
Proof.
  intros Hbuf. revert i. induction n as [|n IH]; intros i Hi Hn Hlen Hl Hf;
    destruct (rd_in_range buf i ltac:(lia)) as [b Hb];
    rewrite bytes_events_S, <- app_assoc, (byte_events_decode _ _ _ _ _ _ _ b Hbuf Hb).
  - rewrite (drop_S buf b (Z.to_nat i)) by (by rewrite <- rd_lookup).
    replace (i =? Length - 1) with true by (symmetry; apply Z.eqb_eq; lia). rewrite andb_true_r.
    unfold bytes_events. cbn [seqZ map mjoin list_join app]. simpl. rewrite Hl. simpl. unfold follows in Hf.
    destruct last; [by subst segs|]. by destruct Hf as (d & bs & tl & ->).
  - rewrite IH by (done || lia).
    rewrite (drop_S buf b (Z.to_nat i)) by (by rewrite <- rd_lookup).
    replace (Z.to_nat (i + 1)) with (S (Z.to_nat i)) by lia.
    replace (i =? Length - 1) with false by (symmetry; apply Z.eqb_neq; lia).
    replace (i + 1 =? 0) with false by (symmetry; apply Z.eqb_neq; lia).
    rewrite !andb_false_r. cbn [join_byte]. by rewrite eqb_reflx.
Qed.

Lemma request_decode ops OpIdx :
  Forall op_moves ops → 0 <= OpIdx → decode (request_events ops OpIdx) = Some (segments ops OpIdx).
Proof.
  revert OpIdx. induction ops as [|op rest IH]; intros OpIdx Hok Hi; [done|].
  apply Forall_cons_1 in Hok as [(Hop & Hlen & Hb) Hrest]. destruct Hop as [Hle _].
  cbn [request_events segments].
  destruct (Z.to_nat (LengthInBytes op)) as [|n] eqn:En; [lia|].
  rewrite (bytes_events_decode _ _ _ _ _ _ _ _ (segments rest (OpIdx + 1))); [..|apply IH; [done|lia]|].
  - by rewrite andb_true_r.
  - done.
  - lia.
  - lia.
  - lia.
  - unfold follows. destruct rest as [|op2 rest2]; [done|]. cbn [segments].
    rewrite (proj2 (Z.ltb_lt 0 (OpIdx + 1))) by lia. eauto.
Qed.

(** ** A controller that keeps up

    What the driver needs of the hardware to finish a request: the transmit FIFO
    drains, a read command brings a byte, no error is raised, and a stop command
    ends the transfer. [sees base n ph h]: the receive FIFO holds [n] bytes and the
    bus is in phase [ph]. *)

Inductive phase := Idle | Active | Stopped.
#[export] Instance phase_eq_dec : EqDecision phase.
Proof. solve_decision. Defined.

Definition after_command (c : Z) : phase := if Z.testbit c 9 then Stopped else Active.
Definition bytes_asked (c : Z) : nat := if Z.testbit c 8 then 1 else 0.

Class DwHwLaws (H : Type) `{Mmio H, Timer H} := {
  sees : Z → nat → phase → H → Prop;
  hw_delay base n ph us h : sees base n ph h → sees base n ph (us_delay us h);
  hw_status base n ph h :
    sees base n ph h →
    let '(v, h') := MmioRead32 (base + DW_IC_STATUS) h in
    sees base n ph h' ∧ (ph ≠ Active → Z.land v DW_IC_STATUS_MST_ACTIVITY = 0) ∧
    Z.land v DW_IC_STATUS_TFE ≠ 0 ∧ (n ≠ O → Z.land v DW_IC_STATUS_RFNE ≠ 0);
  hw_txflr base n ph h :
    sees base n ph h →
    let '(v, h') := MmioRead32 (base + DW_IC_TXFLR) h in sees base n ph h' ∧ v = 0;
  hw_intr base n ph h :
    sees base n ph h →
    let '(v, h') := MmioRead32 (base + DW_IC_RAW_INTR_STAT) h in
    sees base n ph h' ∧ Z.land v DW_IC_ERR_CONDITION = 0 ∧
    (ph = Stopped → Z.land v DW_IC_INTR_STOP_DET ≠ 0);
  hw_take base n ph h :
    sees base (S n) ph h → sees base n ph (MmioRead32 (base + DW_IC_DATA_CMD) h).2;
  hw_clr_stop base n h :
    sees base n Stopped h → sees base n Idle (MmioRead32 (base + DW_IC_CLR_STOP_DET) h).2;
  hw_clr_intr base n h :
    sees base n Idle h → sees base n Idle (MmioRead32 (base + DW_IC_CLR_INTR) h).2;
  hw_enable_status base n ph h :
    sees base n ph h → sees base n ph (MmioRead32 (base + DW_IC_ENABLE_STATUS) h).2;
  hw_command base n ph c h :
    sees base n ph h →
    sees base (n + bytes_asked c) (after_command c) (MmioWrite32 (base + DW_IC_DATA_CMD) c h);
  hw_enable base e h :
    sees base 0 Idle h → sees base 0 Idle (MmioWrite32 (base + DW_IC_ENABLE) e h);
  hw_tar base a h :
    sees base 0 Idle h → sees base 0 Idle (MmioWrite32 (base + DW_IC_TAR) a h)
}.

Section KeepsUp.
Context {H : Type} `{DwHwLaws H}.
Implicit Types s : DwBus H.

Definition bus_at (n : nat) (ph : phase) s : Prop :=
  sees (BaseAddress (ctx s)) n ph (hw s) ∧ 0 < TxFifo (ctx s).

Lemma read_at n ph n' ph' o s (P : Z → Prop) :
  bus_at n ph s →
  (sees (BaseAddress (ctx s)) n ph (hw s) →
   sees (BaseAddress (ctx s)) n' ph' (MmioRead32 (BaseAddress (ctx s) + o) (hw s)).2 ∧
   P (MmioRead32 (BaseAddress (ctx s) + o) (hw s)).1) →
  wp (DwI2cRead o) (λ v s', P v ∧ bus_at n' ph' s') s.
Proof.
  intros [Hs Ht] Hl. specialize (Hl Hs). unfold wp, DwI2cRead.
  destruct (MmioRead32 _ _) as [v h]. simpl in Hl. by destruct Hl.
Qed.

Lemma status_at n ph s :
  bus_at n ph s →
  wp (DwI2cRead DW_IC_STATUS) (λ v s',
    ((ph ≠ Active → Z.land v DW_IC_STATUS_MST_ACTIVITY = 0) ∧ Z.land v DW_IC_STATUS_TFE ≠ 0 ∧
     (n ≠ O → Z.land v DW_IC_STATUS_RFNE ≠ 0)) ∧ bus_at n ph s') s.
Proof.
  intros Hb. apply (read_at n ph); [done|]. intros Hs. pose proof (hw_status _ _ _ _ Hs) as Hl.
  by destruct (MmioRead32 _ _).
Qed.

Lemma intr_at n ph s :
  bus_at n ph s →
  wp (DwI2cRead DW_IC_RAW_INTR_STAT) (λ v s',
    (Z.land v DW_IC_ERR_CONDITION = 0 ∧ (ph = Stopped → Z.land v DW_IC_INTR_STOP_DET ≠ 0)) ∧ bus_at n ph s') s.
Proof.
  intros Hb. apply (read_at n ph); [done|]. intros Hs. pose proof (hw_intr _ _ _ _ Hs) as Hl.
  by destruct (MmioRead32 _ _).
Qed.

(** A poll whose first turn ends it. *)
Lemma poll_first n turn st (Q : DwBus H → Prop) s :
  n ≠ O → wp turn (λ r s', r = Some st ∧ Q s') s → wp (poll n turn) (λ st' s', st' = st ∧ Q s') s.
Proof.
  intros Hn Ht. destruct n as [|n]; [done|]. cbn [poll]. apply dw_wp_bind. eapply wp_mono; [exact Ht|].
  intros r s' [-> HQ]. done.
Qed.

Lemma poll_keeps n turn (P : DwBus H → Prop) s :
  (∀ s, P s → wp turn (λ _ s', P s') s) → P s → wp (poll n turn) (λ _ s', P s') s.
Proof.
  intros Ht. revert s. induction n as [|n IH]; intros s HP; cbn [poll]; [done|].
  apply dw_wp_bind. eapply wp_mono; [by apply Ht|]. intros [st|] s' HP'; [done|]. by apply IH.
Qed.

Lemma Enable_at e s : bus_at 0 Idle s → wp (DwI2cEnable e) (λ _ s', bus_at 0 Idle s') s.
Proof.
  intros [Hs Ht]. unfold DwI2cEnable. apply dw_wp_bind. unfold wp at 1, DwI2cWrite.
  apply poll_keeps; [|split; [by apply hw_enable|done]].
  intros s1 Hb. apply dw_wp_bind. eapply wp_mono.
  { apply (read_at 0 Idle 0 Idle _ _ (λ _, True)); [done|]. intros Hs1. split; [|done]. by apply hw_enable_status. }
  intros v s2 [_ [Hs2 Ht2]]. destruct (_ =? e); split; try done. by apply hw_delay.
Qed.

Lemma Errors_at n ph s : bus_at n ph s → wp DwI2cCheckErrors (λ e s', e = 0 ∧ bus_at n ph s') s.
Proof.
  intros Hb. unfold DwI2cCheckErrors. apply dw_wp_bind. eapply wp_mono; [by apply intr_at|].
  intros v s1 [[Hv _] Hb1]. cbv zeta. rewrite Hv. by split.
Qed.

Lemma Busy_at n ph s :
  ph ≠ Active → bus_at n ph s → wp DwI2cWaitBusNotBusy (λ st s', st = EFI_SUCCESS ∧ bus_at n ph s') s.
Proof.
  intros Hph Hb. apply poll_first; [done|]. apply dw_wp_bind. eapply wp_mono; [by apply status_at|].
  intros v s1 [[Hv _] Hb1]. rewrite (Hv Hph). done.
Qed.

Lemma Tx_at n ph s : bus_at n ph s → wp DwI2cWaitTxData (λ st s', st = EFI_SUCCESS ∧ bus_at n ph s') s.
Proof.
  intros Hb. apply poll_first; [done|]. apply dw_wp_bind. eapply wp_mono.
  { apply (read_at n ph n ph _ _ (λ v, v = 0)); [done|]. intros Hs. pose proof (hw_txflr _ _ _ _ Hs) as Hl.
    by destruct (MmioRead32 _ _). }
  intros v s1 [-> Hb1]. apply dw_wp_bind. unfold wp at 1, get_ctx.
  rewrite (proj2 (Z.ltb_lt _ _)) by apply Hb1. done.
Qed.

Lemma Rx_at n ph s : bus_at (S n) ph s → wp DwI2cWaitRxData (λ st s', st = EFI_SUCCESS ∧ bus_at (S n) ph s') s.
Proof.
  intros Hb. apply poll_first; [done|]. apply dw_wp_bind. eapply wp_mono; [by apply status_at|].
  intros v s1 [(_ & _ & Hv) Hb1]. rewrite (proj2 (Z.eqb_neq _ _)) by (by apply Hv). done.
Qed.

Lemma Finish_at n s : bus_at n Stopped s → wp DwI2cFinish (λ st s', st = EFI_SUCCESS ∧ bus_at n Idle s') s.
Proof.
  intros Hb. unfold DwI2cFinish. apply dw_wp_bind. eapply wp_mono.
  { apply (poll_first _ _ EFI_SUCCESS (bus_at n Stopped)); [done|]. apply dw_wp_bind.
    eapply wp_mono; [by apply status_at|]. intros v s1 [(_ & Hv & _) Hb1].
    by rewrite (proj2 (Z.eqb_neq _ _)). }
  intros st s1 [-> Hb1]. cbn [EFI_ERROR]. apply poll_first; [done|]. apply dw_wp_bind.
  eapply wp_mono; [by apply intr_at|]. intros v s2 [[_ Hv] Hb2].
  rewrite (proj2 (Z.eqb_neq _ _)) by auto. apply dw_wp_bind. eapply wp_mono.
  { apply (read_at n Stopped n Idle _ _ (λ _, True)); [done|]. intros Hs. split; [by apply hw_clr_stop|done]. }
  intros _ s3 [_ Hb3]. done.
Qed.

Lemma cmd_at n ph c s :
  bus_at n ph s → wp (DwI2cWrite DW_IC_DATA_CMD c) (λ _ s', bus_at (n + bytes_asked c) (after_command c) s') s.
Proof. intros [Hs Ht]. split; [by apply (hw_command _ n ph)|done]. Qed.

Lemma take_at n ph s : bus_at (S n) ph s → wp (DwI2cRead DW_IC_DATA_CMD) (λ _ s', bus_at n ph s') s.
Proof.
  intros Hb. eapply wp_mono.
  - apply (read_at (S n) ph n ph _ _ (λ _, True) Hb). intros Hs. split; [by apply hw_take|done].
  - by intros v s' [_ Hb'].
Qed.

Lemma read_bytes_at n last restart i Length buf ph s :
  0 <= i → i + Z.of_nat n = Length → Length <= len buf →
  bus_at 0 ph s →
  wp (read_bytes n last restart i Length buf) (λ '(st, _) s',
    st = EFI_SUCCESS ∧ bus_at 0 (if decide (n = O) then ph else if last then Stopped else Active) s') s.
Proof.
  revert i buf ph s. induction n as [|n IH]; intros i buf ph s Hi Hn Hlen Hb; cbn [read_bytes]; [done|].
  apply dw_wp_bind. eapply wp_mono; [by apply Tx_at|]. intros st s1 [-> Hb1]. cbn [EFI_ERROR].
  apply dw_wp_bind. eapply wp_mono; [exact (cmd_at _ _ _ _ Hb1)|]. intros [] s2 Hb2.
  destruct (stop_restart_bits DW_IC_DATA_CMD_CMD last restart i Length ltac:(by left)) as (E8 & E9 & _ & _).
  unfold bytes_asked, after_command in Hb2. rewrite E8, E9 in Hb2. simpl in Hb2.
  apply dw_wp_bind. eapply wp_mono; [by apply Rx_at|]. intros st s3 [-> Hb3]. cbn [EFI_ERROR].
  apply dw_wp_bind. eapply wp_mono; [exact (take_at _ _ _ Hb3)|].
  intros v s4 Hb4. eapply (wp_lift _); [apply wrn_eq; simpl; lia|].
  eapply wp_mono; [apply IH; [lia|lia| |exact Hb4]|].
  { rewrite !length_app, length_take, length_drop. simpl. lia. }
  intros [st buf'] s5 [-> Hb5]. split; [done|]. rewrite decide_False by done.
  destruct (decide (n = O)) as [->|Hn0]; [|done].
  replace (i =? Length - 1) with true in Hb5 by (symmetry; apply Z.eqb_eq; lia). by rewrite andb_true_r in Hb5.
Qed.

Lemma write_bytes_at n last restart i Length buf ph s :
  0 <= i → i + Z.of_nat n = Length → Length <= len buf → Forall byte_ok buf →
  bus_at 0 ph s →
  wp (write_bytes n last restart i Length buf) (λ st s',
    st = EFI_SUCCESS ∧ bus_at 0 (if decide (n = O) then ph else if last then Stopped else Active) s') s.
Proof.
  revert i ph s. induction n as [|n IH]; intros i ph s Hi Hn Hlen Hbuf Hb; cbn [write_bytes]; [done|].
  apply dw_wp_bind. eapply wp_mono; [by apply Tx_at|]. intros st s1 [-> Hb1]. cbn [EFI_ERROR].
  destruct (rd_in_range buf i ltac:(lia)) as [b Eb]. apply (wp_lift _ b); [done|].
  destruct (byte_low b (rd_byte_ok _ _ _ Hbuf Eb)) as [El E0]. unfold DW_IC_DATA_CMD_DAT_MASK. rewrite El.
  apply dw_wp_bind. eapply wp_mono; [exact (cmd_at _ _ _ _ Hb1)|]. intros [] s2 Hb2.
  destruct (stop_restart_bits b last restart i Length) as (E8 & E9 & _ & _).
  { right. by eapply rd_byte_ok. }
  unfold bytes_asked, after_command in Hb2. rewrite E8, E9, E0 in Hb2. simpl in Hb2.
  eapply wp_mono; [apply (IH (i + 1) _ _ ltac:(lia) ltac:(lia) Hlen Hbuf Hb2)|].
  intros st s3 [-> Hb3]. split; [done|]. rewrite decide_False by done.
  destruct (decide (n = O)) as [->|Hn0]; [|done].
  replace (i =? Length - 1) with true in Hb3 by (symmetry; apply Z.eqb_eq; lia). by rewrite andb_true_r in Hb3.
Qed.

Lemma process_ops_at ops OpIdx ph s :
  ops ≠ [] → Forall op_moves ops → bus_at 0 ph s →
  wp (process_ops ops OpIdx) (λ '(st, _) s', st = EFI_SUCCESS ∧ bus_at 0 Stopped s') s.
Proof.
  revert OpIdx ph s. induction ops as [|op rest IH]; intros OpIdx ph s Hne Hok Hb; [done|].
  apply Forall_cons_1 in Hok as [([Hlen _] & Hpos & Hbuf) Hrest]. cbn [process_ops].
  set (last := match rest with [] => true | _ => false end).
  assert (Hn : Z.to_nat (LengthInBytes op) ≠ O) by lia.
  apply dw_wp_bind, (wp_mono _ (λ '(st, _) s', st = EFI_SUCCESS ∧ bus_at 0 (if last then Stopped else Active) s')).
  - destruct (is_read op); apply dw_wp_bind; (eapply wp_mono;
      [first [eapply read_bytes_at|eapply write_bytes_at]; try exact Hb; try done; lia|]).
    + intros [st buf] s1 [-> Hb1]. by rewrite decide_False in Hb1.
    + intros st s1 [-> Hb1]. by rewrite decide_False in Hb1.
  - intros [st op'] s1 [-> Hb1]. cbn [EFI_ERROR]. apply dw_wp_bind. destruct rest as [|op2 rest2]; [done|].
    eapply wp_mono; [by eapply IH|]. by intros [st rest'] s2 [-> Hb2].
Qed.

(** What holds of a run that does not fault. *)
Lemma dw_wlp_bind {A B} (m : Dw A) (f : A → Dw B) (P : A → DwBus H → Prop) Q s :
  wlp m P s → (∀ a s', P a s' → wlp (f a) Q s') → wlp (m ≫= f) Q s.
Proof.
  unfold wlp, mbind, Dw_bind. intros Hm Hf b s2 E. destruct (m s) as [[a s1]|] eqn:Em; [|done].
  by apply (Hf a s1 (Hm _ _ eq_refl)).
Qed.

Lemma release_at n ph s : bus_at n ph s → wlp EfiReleaseLock (λ _ s', bus_at n ph s') s.
Proof. intros Hb a s'. unfold EfiReleaseLock. by destruct (locked s); intros [= <- <-]. Qed.

Lemma run_request_at addr ops s :
  ops ≠ [] → Forall op_moves ops → bus_at 0 Idle s →
  wlp (run_request addr ops) (λ '(st, _) s', st = EFI_SUCCESS ∧ bus_at 0 Idle s') s.
Proof.
  intros Hne Hok Hb. unfold run_request.
  apply (dw_wlp_bind _ _ (λ _ s', bus_at 0 Idle s')).
  { intros a s'. unfold EfiAcquireLock. by destruct (locked s); intros [= <- <-]. }
  intros ? s1 Hb1. eapply dw_wlp_bind; [by apply wp_wlp, (Busy_at 0 Idle)|].
  intros st s2 [-> Hb2]. cbn [EFI_ERROR].
  eapply dw_wlp_bind; [by apply wp_wlp, Enable_at|]. intros ? s3 Hb3.
  apply (dw_wlp_bind _ _ (λ _ s', bus_at 0 Idle s')).
  { intros ? s' [= <- <-]. cbv beta. split; [by apply hw_tar, Hb3|apply Hb3]. }
  intros ? s4 Hb4. eapply dw_wlp_bind; [by apply wp_wlp, Enable_at|]. intros ? s5 Hb5.
  eapply dw_wlp_bind.
  { apply wp_wlp, (read_at 0 Idle 0 Idle _ _ (λ _, True)); [done|]. intros Hs. split; [by apply hw_clr_intr|done]. }
  intros ? s6 [_ Hb6]. eapply dw_wlp_bind; [by eapply wp_wlp, process_ops_at|].
  intros [st ops'] s7 [-> Hb7]. cbn [EFI_ERROR].
  eapply dw_wlp_bind; [by apply wp_wlp, Finish_at|]. intros st s8 [-> Hb8]. cbn [EFI_ERROR].
  eapply dw_wlp_bind; [by apply wp_wlp, Errors_at|]. intros e s9 [-> Hb9]. cbv zeta.
  eapply dw_wlp_bind; [by apply wp_wlp, (Busy_at 0 Idle)|]. intros ? s10 [_ Hb10].
  eapply dw_wlp_bind; [by apply wp_wlp, Enable_at|]. intros ? s11 Hb11.
  eapply dw_wlp_bind; [exact (release_at _ _ _ Hb11)|]. intros ? s12 Hb12.
  by intros [st ops2] s13 [= <- <- <-].
Qed.
End KeepsUp.

(** ** StartRequest *)

Section Requests.
Context {H : Type} `{Mmio H, Timer H}.
Implicit Types s : DwBus H.

(** A request with no packet, an empty packet or no controller touches nothing but
    the event. *)
Lemma StartRequest_invalid (This : bool) addr RequestPacket Event s :
  This = false ∨ RequestPacket = None ∨ RequestPacket = Some [] →
  ∃ s', DwI2cStartRequest This addr RequestPacket Event s = Some ((EFI_INVALID_PARAMETER, RequestPacket), s') ∧
    log s' = log s ∧ locked s' = locked s ∧ signalled s' = signalled s ++ option_list Event.
Proof.
  intros Hinv. unfold DwI2cStartRequest.
  assert (Hr : ∃ s', (_ ← signal Event; mret (EFI_INVALID_PARAMETER, RequestPacket)) s =
      Some ((EFI_INVALID_PARAMETER, RequestPacket), s') ∧
    log s' = log s ∧ locked s' = locked s ∧ signalled s' = signalled s ++ option_list Event).
  { destruct Event as [e|]; eexists; (split; [reflexivity|]); split_and!; try done. simpl. by rewrite app_nil_r. }
  destruct RequestPacket as [[|op ops]|]; [exact Hr| |exact Hr].
  destruct This; [by destruct Hinv as [?|[?|?]]|exact Hr].
Qed.

Lemma StartRequest_run addr ops Event s :
  locked s = false → ops ≠ [] → Forall op_ok ops →
  ∃ st ops' s', DwI2cStartRequest true addr (Some ops) Event s = Some ((st, Some ops'), s') ∧
    Forall2 same_shape ops ops' ∧ st ≠ EFI_ABORTED ∧
    locked s' = false ∧ ctx s' = ctx s ∧ signalled s' = signalled s ++ option_list Event ∧
    (∃ s1, run_request addr ops s = Some ((st, ops'), s1) ∧ ctx s1 = ctx s ∧ hw s1 = hw s') ∧
    ∃ l, log s' = log s ++ l ∧ request_trace addr st ops ops' (data l).
Proof.
  intros Hl Hne Hok. destruct (wp_run _ _ _ (run_request_spec addr ops s Hl Hok))
    as ([st ops'] & s1 & E & Hsh & Hna & d & (Hc & Hlk & Hsg & l & Hlog & <-) & Htr).
  exists st, ops'. destruct ops as [|op rest]; [done|].
  destruct Event as [e|]; eexists; (split;
    [cbv [DwI2cStartRequest mbind Dw_bind mret Dw_ret]; rewrite E; reflexivity|]); split_and!; simpl; eauto.
  - by rewrite Hsg.
  - by rewrite Hsg, app_nil_r.
Qed.

(** C26: whatever the controller answers, a request never faults, and it gives the
    lock back and signals the event once. On success the accesses are: disable,
    target address, enable, the commands of the whole packet with the bytes that
    the read buffers now hold, disable. On an error they are none (the bus stayed
    busy), the same, or a prefix of the commands closed by one stop. *)
Theorem StartRequest_exact addr ops Event s
  (Hlocked : locked s = false) (Hops : ops ≠ []) (Hok : Forall op_ok ops) :
  ∃ st ops' s' l,
    DwI2cStartRequest true addr (Some ops) Event s = Some ((st, Some ops'), s') ∧
    Forall2 same_shape ops ops' ∧ st ≠ EFI_ABORTED ∧
    locked s' = false ∧ ctx s' = ctx s ∧ signalled s' = signalled s ++ option_list Event ∧
    log s' = log s ++ l ∧ request_trace addr st ops ops' (data l).
Proof.
  destruct (StartRequest_run addr ops Event s Hlocked Hops Hok)
    as (st & ops' & s' & E & Hsh & Hna & Hl & Hc & Hsg & _ & l & Hlog & Htr).
  by exists st, ops', s', l.
Qed.

Lemma moves_shape ops ops' : Forall2 same_shape ops ops' → Forall op_moves ops → Forall op_moves ops'.
Proof.
  induction 1 as [|op op' ops ops' (_ & Hln & Hlen & _ & Hb) _ IH]; [done|].
  intros [([Hle Hlt] & Hpos & Hbuf) Hrest]%Forall_cons_1. constructor; [|by apply IH].
  unfold op_moves, op_ok. rewrite Hln, Hlen. auto.
Qed.

Lemma moves_ok ops : Forall op_moves ops → Forall op_ok ops.
Proof. induction 1 as [|? ? []]; by constructor. Qed.

(** C13: the commands of a successful request whose operations all move at least one
    byte, read back as the controller puts them on the bus, are the packet: each
    operation in order, with its direction and all its bytes, a repeated start
    before every one but the first, and one stop after the last byte. The condition
    is needed: a packet that ends in an operation of no bytes has no stop and does
    not read back ([empty_last_operation]). *)
Theorem StartRequest_roundtrip addr ops Event s ops' s'
  (Hlocked : locked s = false) (Hops : ops ≠ []) (Hok : Forall op_moves ops)
  (Hrun : DwI2cStartRequest true addr (Some ops) Event s = Some ((EFI_SUCCESS, Some ops'), s')) :
  ∃ l evs, log s' = log s ++ l ∧ data l = session addr evs ∧ decode evs = Some (segments ops' 0).
Proof.
  destruct (StartRequest_run addr ops Event s Hlocked Hops (moves_ok _ Hok))
    as (st & ops2 & s2 & E & Hsh & _ & _ & _ & _ & _ & l & Hlog & Htr).
  rewrite Hrun in E. injection E as <- <- <-.
  exists l, (request_events ops' 0). split; [done|]. destruct Htr as [[_ Hd]|[Hst _]]; [|done].
  split; [done|]. apply request_decode; [by eapply moves_shape|lia].
Qed.

(** C27: on a controller that keeps up, every packet whose operations all move bytes
    is transferred: the status is success, and the bus is idle again. *)
Theorem StartRequest_completes `{!DwHwLaws H} addr ops Event s
  (Hlocked : locked s = false) (Hops : ops ≠ []) (Hok : Forall op_moves ops) (Hbus : bus_at 0 Idle s) :
  ∃ ops' s', DwI2cStartRequest true addr (Some ops) Event s = Some ((EFI_SUCCESS, Some ops'), s') ∧
    bus_at 0 Idle s'.
Proof.
  destruct (StartRequest_run addr ops Event s Hlocked Hops (moves_ok _ Hok))
    as (st & ops2 & s2 & E & _ & _ & _ & Hc & _ & (s1 & Erun & Hc1 & Hh) & _).
  destruct (run_request_at addr ops s Hops Hok Hbus _ _ Erun) as [-> [Hs Ht]].
  exists ops2, s2. split; [done|]. unfold bus_at. rewrite Hc, <- Hc1, <- Hh. done.
Qed.

(** ** The controller as a master *)

Definition keeps_lock {A} (m : Dw A) : Prop := ∀ s, wp m (λ _ s', locked s' = locked s) s.

Lemma keeps_bind {A B} (m : Dw A) (f : A → Dw B) : keeps_lock m → (∀ a, keeps_lock (f a)) → keeps_lock (m ≫= f).
Proof.
  intros Hm Hf s. apply dw_wp_bind. eapply wp_mono; [apply Hm|]. intros a s1 E.
  eapply wp_mono; [apply Hf|]. congruence.
Qed.

Lemma keeps_ret {A} (a : A) : keeps_lock (mret a).
Proof. by intros s. Qed.

Lemma keeps_read o : keeps_lock (DwI2cRead o).
Proof. intros s. eapply wp_mono; [apply read_spec|]. by intros v s' (_ & -> & _). Qed.

Lemma keeps_write o v : keeps_lock (DwI2cWrite o v).
Proof. by intros s. Qed.

Lemma keeps_Enable e : keeps_lock (DwI2cEnable e).
Proof. intros s. eapply wp_mono; [apply Enable_spec|]. by intros v s' (_ & -> & _). Qed.

Lemma keeps_HwInit : keeps_lock DwI2cHwInit.
Proof.
  unfold DwI2cHwInit.
  repeat first [apply keeps_ret | apply keeps_read | apply keeps_write | apply keeps_Enable
    | apply keeps_bind; [|intros ?] | case_match].
Qed.

Lemma Reset_total s : locked s = false → wp (DwI2cReset true) (λ st s', st = EFI_SUCCESS ∧ locked s' = false) s.
Proof.
  intros Hl. unfold DwI2cReset. cbn [negb]. apply dw_wp_bind. unfold wp at 1, EfiAcquireLock. rewrite Hl.
  apply dw_wp_bind. eapply wp_mono; [apply keeps_HwInit|]. intros [] s1 E. simpl in E.
  apply dw_wp_bind. unfold wp at 1, EfiReleaseLock. by rewrite E.
Qed.

(** The clock becomes one of the two the controller has, and is what is returned. *)
Lemma SetBusFrequency_spec Hz s :
  locked s = false →
  wp (DwI2cSetBusFrequency true true Hz) (λ '(st, Hz') s',
    st = EFI_SUCCESS ∧ locked s' = false ∧ BusSpeedHz (ctx s') = Hz' ∧
    Hz' = (if Hz <=? 100000 then 100000 else 400000) ∧
    PollingTimeUs (ctx s') = (if Hz <=? 100000 then 100 else 20)) s.
Proof.
  intros Hl. unfold DwI2cSetBusFrequency. cbn [negb orb]. apply dw_wp_bind. unfold wp at 1, EfiAcquireLock. rewrite Hl.
  set (s0 := mkBus (ctx s) true (hw s) (log s) (signalled s)).
  apply wp_enable. intros _ s1 Hr1.
  apply wp_quiet; [by apply quiet_read|]. intros v s2 Hr2. cbv zeta.
  destruct (Hz <=? 100000);
    (apply wp_quiet; [by apply quiet_write|]; intros _ s3 Hr3;
     apply dw_wp_bind; unfold wp at 1, get_ctx; apply dw_wp_bind; unfold wp at 1, set_ctx; apply wp_enable;
     intros _ s4 (Hc4 & Hl4 & _);
     destruct Hr1 as (_ & Hl1 & _), Hr2 as (_ & Hl2 & _), Hr3 as (_ & Hl3 & _);
     apply dw_wp_bind; unfold wp at 1, EfiReleaseLock;
     rewrite Hl4; simpl; rewrite Hl3, Hl2, Hl1; simpl; unfold wp, mret, Dw_ret; simpl; rewrite Hc4; by split_and!).
Qed.

#[export] Instance dw_master : I2cMaster (DwBus H) := {
  StartRequest addr ops m :=
    match DwI2cStartRequest true addr (Some ops) None m with
    | Some ((st, Some ops'), m') => Some (st, ops', m')
    | _ => None
    end;
  SetBusFrequency hz m :=
    match DwI2cSetBusFrequency true true hz m with Some ((st, hz'), m') => Some (st, hz', m') | None => None end;
  MasterReset m := DwI2cReset true m
}.

#[export] Instance dw_master_laws : I2cMasterLaws (DwBus H).
Proof.
  refine {| idle := λ m, locked m = false |}.
  - intros addr ops m Hl Hok. unfold StartRequest, dw_master. destruct (decide (ops = [])) as [->|Hne].
    + exists EFI_INVALID_PARAMETER, [], m. done.
    + destruct (StartRequest_run addr ops None m Hl Hne Hok) as (st & ops' & s' & -> & Hsh & _ & Hl' & _). eauto 6.
  - intros hz m Hl. unfold SetBusFrequency, dw_master.
    destruct (wp_run _ _ _ (SetBusFrequency_spec hz m Hl)) as ([st hz'] & s' & -> & _ & Hl' & _). eauto 6.
  - intros m Hl. destruct (wp_run _ _ _ (Reset_total m Hl)) as (st & s' & E & _ & Hl'). eauto.
Defined.
End Requests.

(** ** A simulated controller *)

(** It sends [sim_data] to the read commands, byte after byte. *)
Record DwSim := mkDwSim {
  sim_base : Z;
  sim_enabled : Z;
  sim_rx : nat;
  sim_phase : phase;
  sim_data : list Z
}.

Definition sim_status (h : DwSim) : Z :=
  Z.lor (if decide (sim_phase h = Active) then DW_IC_STATUS_MST_ACTIVITY else 0)
    (if sim_rx h is O then DW_IC_STATUS_TFE else Z.lor DW_IC_STATUS_TFE DW_IC_STATUS_RFNE).

#[export] Instance sim_mmio : Mmio DwSim := {
  MmioRead32 a h :=
    let o := a - sim_base h in
    if o =? DW_IC_STATUS then (sim_status h, h)
    else if o =? DW_IC_RAW_INTR_STAT then
      (if decide (sim_phase h = Stopped) then DW_IC_INTR_STOP_DET else 0, h)
    else if o =? DW_IC_DATA_CMD then
      (default 0 (head (sim_data h)),
       mkDwSim (sim_base h) (sim_enabled h) (pred (sim_rx h)) (sim_phase h) (tail (sim_data h)))
    else if o =? DW_IC_CLR_STOP_DET then
      (0, mkDwSim (sim_base h) (sim_enabled h) (sim_rx h) Idle (sim_data h))
    else if o =? DW_IC_ENABLE_STATUS then (sim_enabled h, h)
    else (0, h);
  MmioWrite32 a v h :=
    let o := a - sim_base h in
    if o =? DW_IC_DATA_CMD then
      mkDwSim (sim_base h) (sim_enabled h) (sim_rx h + bytes_asked v) (after_command v) (sim_data h)
    else if o =? DW_IC_ENABLE then mkDwSim (sim_base h) v (sim_rx h) (sim_phase h) (sim_data h)
    else h
}.
#[export] Instance sim_timer : Timer DwSim := {| us_delay _ h := h |}.

#[export] Instance sim_laws : DwHwLaws DwSim.
Proof.
  refine {| sees base n ph h := sim_base h = base ∧ sim_rx h = n ∧ sim_phase h = ph |};
    (intros * (<- & <- & Hph) || intros * (<- & Hrx & Hph)); unfold MmioRead32, MmioWrite32, sim_mmio;
    cbv zeta; rewrite ?Z.add_simpl_l; try done.
  - cbn [Z.eqb]. split; [done|]. unfold sim_status.
    split_and!; [intros Hna; rewrite decide_False by congruence; by destruct (sim_rx h)
      |by destruct (decide _), (sim_rx h)|].
    intros Hr. destruct (sim_rx h); [done|]. by destruct (decide _).
  - change (DW_IC_RAW_INTR_STAT =? DW_IC_STATUS) with false. rewrite Z.eqb_refl. split; [done|].
    destruct (decide (sim_phase h = Stopped)); split; done || congruence.
  - change (DW_IC_DATA_CMD =? DW_IC_STATUS) with false.
    change (DW_IC_DATA_CMD =? DW_IC_RAW_INTR_STAT) with false. rewrite Z.eqb_refl. simpl. by rewrite Hrx.
Defined.

(** Two bytes written to a register of the device, then three read. *)
Definition demo_ops : list EFI_I2C_OPERATION := [mkOp 0 2 [0x90; 0x7]; mkOp 1 3 [0; 0; 0]].
Definition demo_bus : DwBus DwSim :=
  mkBus (mkDwCtx 0xFD894000 1 100000 16 16 100) false (mkDwSim 0xFD894000 0 0 Idle [0x11; 0x22; 0x33]) [] [].

Example demo_request :
  option_map (λ r, (r.1, data (log r.2))) (DwI2cStartRequest true 0x70 (Some demo_ops) (Some 5) demo_bus) =
  Some ((EFI_SUCCESS, Some [mkOp 0 2 [0x90; 0x7]; mkOp 1 3 [0x11; 0x22; 0x33]]),
    [Wr DW_IC_ENABLE 0; Wr DW_IC_TAR 0x70; Wr DW_IC_ENABLE 1; Wr DW_IC_DATA_CMD 0x90; Wr DW_IC_DATA_CMD 0x07;
     Wr DW_IC_DATA_CMD 0x500; Rd DW_IC_DATA_CMD 0x11; Wr DW_IC_DATA_CMD 0x100; Rd DW_IC_DATA_CMD 0x22;
     Wr DW_IC_DATA_CMD 0x300; Rd DW_IC_DATA_CMD 0x33; Wr DW_IC_ENABLE 0]).
Proof. vm_compute. reflexivity. Qed.

(** A packet that ends in an operation of no bytes has no stop, so a successful
    transfer of it leaves the devices waiting for one. *)
Example empty_last_operation :
  request_events [mkOp 0 1 [0x90]; mkOp 1 0 []] 0 = [Wr DW_IC_DATA_CMD 0x90] ∧
  decode (request_events [mkOp 0 1 [0x90]; mkOp 1 0 []] 0) = None.
Proof. by split. Qed.

Lemma demo_moves : Forall op_moves demo_ops.
Proof. repeat constructor; unfold byte_ok; simpl; lia. Qed.

Lemma StartRequest_exact_witness :
  ∃ st ops' s' l,
    DwI2cStartRequest true 0x70 (Some demo_ops) (Some 5) demo_bus = Some ((st, Some ops'), s') ∧
    Forall2 same_shape demo_ops ops' ∧ st ≠ EFI_ABORTED ∧
    locked s' = false ∧ ctx s' = ctx demo_bus ∧ signalled s' = [5] ∧
    log s' = l ∧ request_trace 0x70 st demo_ops ops' (data l).
Proof. exact (StartRequest_exact 0x70 demo_ops (Some 5) demo_bus eq_refl ltac:(done) (moves_ok _ demo_moves)). Defined.

Lemma StartRequest_completes_witness :
  ∃ ops' s', DwI2cStartRequest true 0x70 (Some demo_ops) (Some 5) demo_bus = Some ((EFI_SUCCESS, Some ops'), s') ∧
    bus_at 0 Idle s'.
Proof.
  apply (StartRequest_completes 0x70 demo_ops (Some 5) demo_bus eq_refl ltac:(done) demo_moves).
  by split_and!.
Defined.

Lemma StartRequest_roundtrip_witness :
  ∃ ops' s' l evs,
    DwI2cStartRequest true 0x70 (Some demo_ops) (Some 5) demo_bus = Some ((EFI_SUCCESS, Some ops'), s') ∧
    log s' = log demo_bus ++ l ∧ data l = session 0x70 evs ∧ decode evs = Some (segments ops' 0).
Proof.
  eexists _, _.
  destruct (StartRequest_roundtrip 0x70 demo_ops (Some 5) demo_bus _ _ eq_refl ltac:(done) demo_moves
    ltac:(vm_compute; reflexivity)) as (l & evs & Hl & Hd & He).
  exists l, evs. split; [vm_compute; reflexivity|]. split_and!; [exact Hl|exact Hd|exact He].
Defined.
