(* ===== verification/Pca954x.v ===== *)
(** * The PCA9546 I2C switch driver

    Drivers/Pca954xDxe: four child buses behind one switch on the general I2C bus.
    The children share one mux context, so the model threads it through the
    operations of all of them; the parent [M] is any implementation of the master
    interface whose bus carries the switch. *)

From S2P Require Import Prelude Efi I2c.

Definition PCA9546_SLAVE_ADDRESS : Z := 0x70.
Definition PCA9546_CHANNEL_COUNT : Z := 4.
Definition PCA954X_NO_CHANNEL : Z := 0xFF.
Definition PCA954X_PARENT_BUS_INSTANCE : Z := 1.

Definition FindParentI2cMaster := find_master PCA954X_PARENT_BUS_INSTANCE.

(** ** State *)

(** One per switch, shared by its channels; the parent's own state is behind its
    pointer. [Events] are the events signalled so far. *)
Record PCA954X_MUX_CONTEXT (M : Type) := mkMux {
  ParentI2cMaster : M;
  Lock : bool;
  ActiveChannel : Z;
  Events : list Z
}.
Arguments mkMux {M}.
Arguments ParentI2cMaster {M}.
Arguments Lock {M}.
Arguments ActiveChannel {M}.
Arguments Events {M}.

Section Code.
Context {M : Type} `{I2cMaster M}.
Implicit Types m : PCA954X_MUX_CONTEXT M.

Definition set_lock (l : bool) m := mkMux (ParentI2cMaster m) l (ActiveChannel m) (Events m).
Definition EfiAcquireLock m : option (PCA954X_MUX_CONTEXT M) :=
  if Lock m then None else Some (set_lock true m).
Definition EfiReleaseLock m : option (PCA954X_MUX_CONTEXT M) :=
  if Lock m then Some (set_lock false m) else None.
Definition signal (Event : option Z) m :=
  mkMux (ParentI2cMaster m) (Lock m) (ActiveChannel m) (Events m ++ option_list Event).

(** ** Operations *)

(** The write of one byte to the switch. *)
Definition mux_packet (RegVal : Z) : list EFI_I2C_OPERATION := [mkOp 0 1 [RegVal]].

Definition Pca954xSelectChannel (Channel : Z) m : option (EFI_STATUS * PCA954X_MUX_CONTEXT M) :=
  if ActiveChannel m =? Channel then Some (EFI_SUCCESS, m)
  else
    let RegVal := u8 (u32 (Z.shiftl 1 Channel)) in
    '(Status, _, Parent) ← StartRequest PCA9546_SLAVE_ADDRESS (mux_packet RegVal) (ParentI2cMaster m);
    Some (Status, mkMux Parent (Lock m) (if EFI_ERROR Status then PCA954X_NO_CHANNEL else Channel) (Events m)).

(** The operations of the child of [Channel]; a null pointer is false or [None]. *)
Definition Pca954xSetBusFrequency (This BusClockHertz : bool) (Hz : Z) m
    : option (EFI_STATUS * Z * PCA954X_MUX_CONTEXT M) :=
  if negb This || negb BusClockHertz then Some (EFI_INVALID_PARAMETER, Hz, m)
  else
    '(Status, Hz, Parent) ← SetBusFrequency Hz (ParentI2cMaster m);
    Some (Status, Hz, mkMux Parent (Lock m) (ActiveChannel m) (Events m)).

Definition Pca954xReset (This : bool) m : option (EFI_STATUS * PCA954X_MUX_CONTEXT M) :=
  if negb This then Some (EFI_INVALID_PARAMETER, m)
  else
    '(Status, Parent) ← MasterReset (ParentI2cMaster m);
    Some (Status, mkMux Parent (Lock m) PCA954X_NO_CHANNEL (Events m)).

Definition Pca954xStartRequest (This : bool) (Channel SlaveAddress : Z)
    (RequestPacket : option (list EFI_I2C_OPERATION)) (Event : option Z) m
    : option (EFI_STATUS * option (list EFI_I2C_OPERATION) * PCA954X_MUX_CONTEXT M) :=
  '(Status, RequestPacket, m) ←
    match RequestPacket with
    | Some ops =>
        if negb This then Some (EFI_INVALID_PARAMETER, RequestPacket, m)
        else
          m ← EfiAcquireLock m;
          '(Status, m) ← Pca954xSelectChannel Channel m;
          if EFI_ERROR Status then
            m ← EfiReleaseLock m;
            Some (Status, RequestPacket, m)
          else
            '(Status, ops, Parent) ← StartRequest SlaveAddress ops (ParentI2cMaster m);
            m ← EfiReleaseLock (mkMux Parent (Lock m) (ActiveChannel m) (Events m));
            Some (Status, Some ops, m)
    | None => Some (EFI_INVALID_PARAMETER, RequestPacket, m)
    end;
  Some (Status, RequestPacket, signal Event m).

(** [*Device] is set to null. *)
Definition Pca954xEnumerate (Device : bool) : EFI_STATUS :=
  if negb Device then EFI_INVALID_PARAMETER else EFI_NO_MAPPING.

Definition Pca954xGetBusFrequency (This : bool) (I2cBusConfiguration : Z) (BusClockHertz : bool)
    : EFI_STATUS * option Z :=
  if negb This || negb BusClockHertz then (EFI_INVALID_PARAMETER, None)
  else if negb (I2cBusConfiguration =? 0) then (EFI_NO_MAPPING, None)
  else (EFI_SUCCESS, Some 100000).

Definition Pca954xEnableBusConfiguration (I2cBusConfiguration : Z) (Event : option Z) m
    : EFI_STATUS * PCA954X_MUX_CONTEXT M :=
  if negb (I2cBusConfiguration =? 0) then (EFI_NO_MAPPING, m) else (EFI_SUCCESS, signal Event m).

(** ** Entry point *)

(** The channels from [Index] on; the channels whose handles exist at the end.
    [Install] answers the installation of each. *)
Fixpoint create_channels (n : nat) (Install : Z → EFI_STATUS) (Index : Z) (p : Pool)
    : EFI_STATUS * list Z * Pool :=
  match n with
  | O => (EFI_SUCCESS, [], p)
  | S n' =>
      let '(ok, p) := AllocatePool p in
      if negb ok then (EFI_OUT_OF_RESOURCES, [], p)
      else
        let '(ok, p) := AllocatePool p in
        if negb ok then (EFI_OUT_OF_RESOURCES, [], FreePool p)
        else if EFI_ERROR (Install Index) then (Install Index, [], FreePool (FreePool p))
        else
          let '(Status, installed, p) := create_channels n' Install (Index + 1) p in
          (Status, Index :: installed, p)
  end.

(** The status, the mux context when it is still allocated, and the channels
    installed. [parent] gives the state of the master of a handle. *)
Definition Pca954xDxeInitialize (Located : option (list I2C_HANDLE)) (parent : nat → M)
    (Install : Z → EFI_STATUS) (p : Pool)
    : option (EFI_STATUS * option (PCA954X_MUX_CONTEXT M) * list Z * Pool) :=
  let '(_, found, p) := FindParentI2cMaster Located p in
  match found with
  | None => Some (EFI_NOT_FOUND, None, [], p)
  | Some h =>
      let '(ok, p) := AllocatePool p in
      if negb ok then Some (EFI_OUT_OF_RESOURCES, None, [], p)
      else
        '(Status, _, Parent) ← StartRequest PCA9546_SLAVE_ADDRESS (mux_packet 0x00) (parent h);
        if EFI_ERROR Status then Some (EFI_NOT_FOUND, None, [], FreePool p)
        else
          let '(Status, installed, p) :=
            create_channels (Z.to_nat PCA9546_CHANNEL_COUNT) Install 0 p in
          Some (Status, Some (mkMux Parent false PCA954X_NO_CHANNEL []), installed, p)
  end.

(** The handles [Pca954xOnEndOfDxe] connects, in order. *)
Definition Pca954xOnEndOfDxe (mChildHandles : list Z) : list Z := mChildHandles.
End Code.

(** ** The switch on the bus *)

(** An address the switch does not answer; the controller drops the bits above 10. *)
Definition other_device (addr : Z) : Prop := Z.land addr 0x3FF ≠ PCA9546_SLAVE_ADDRESS.

(** The control register of the switch, from its datasheet: a byte written to its
    address selects the channels of its bits, and no other transfer changes it. *)
Class SwitchLaws (M : Type) `{I2cMasterLaws M} := {
  mux_reg : M → Z;
  mux_written b m st ops' m' :
    idle m → 0 <= b < 16 → StartRequest PCA9546_SLAVE_ADDRESS (mux_packet b) m = Some (st, ops', m') →
    EFI_ERROR st = false → mux_reg m' = b;
  mux_other addr ops m st ops' m' :
    idle m → other_device addr → StartRequest addr ops m = Some (st, ops', m') → mux_reg m' = mux_reg m;
  mux_freq hz m st hz' m' :
    idle m → SetBusFrequency hz m = Some (st, hz', m') → mux_reg m' = mux_reg m;
  mux_reset m st m' : idle m → MasterReset m = Some (st, m') → mux_reg m' = mux_reg m
}.

Section Routing.
Context {M : Type} `{SwitchLaws M}.
Implicit Types m : PCA954X_MUX_CONTEXT M.

(** What the children and the other users of the parent bus may do, one at a time
    and in any order: requests of a channel to the devices behind it, the other
    operations of a channel, requests of the parent's own clients. *)
Inductive mux_step : PCA954X_MUX_CONTEXT M → PCA954X_MUX_CONTEXT M → Prop :=
  | step_request c addr ops Event m st ops' m' :
      0 <= c < PCA9546_CHANNEL_COUNT → other_device addr → Forall op_ok ops →
      Pca954xStartRequest true c addr (Some ops) Event m = Some (st, ops', m') → mux_step m m'
  | step_freq hz m st hz' m' : Pca954xSetBusFrequency true true hz m = Some (st, hz', m') → mux_step m m'
  | step_reset m st m' : Pca954xReset true m = Some (st, m') → mux_step m m'
  | step_parent addr ops m st ops' Parent :
      other_device addr → Forall op_ok ops → StartRequest addr ops (ParentI2cMaster m) = Some (st, ops', Parent) →
      mux_step m (mkMux Parent (Lock m) (ActiveChannel m) (Events m)).

(** Between operations: the lock is free, and the channel the driver remembers is
    the one the switch has selected. *)
Definition routed m : Prop :=
  Lock m = false ∧ idle (ParentI2cMaster m) ∧
  (ActiveChannel m = PCA954X_NO_CHANNEL ∨
   0 <= ActiveChannel m < PCA9546_CHANNEL_COUNT ∧ mux_reg (ParentI2cMaster m) = 2 ^ ActiveChannel m).

Lemma channel_bit c : 0 <= c < PCA9546_CHANNEL_COUNT → u8 (u32 (Z.shiftl 1 c)) = 2 ^ c ∧ 0 <= 2 ^ c < 16.
Proof.
  unfold PCA9546_CHANNEL_COUNT. intros Hc.
  assert (Hcases : c = 0 ∨ c = 1 ∨ c = 2 ∨ c = 3) by lia.
  by destruct Hcases as [->|[->|[->| ->]]].
Qed.

Lemma mux_packet_ok b : Forall op_ok (mux_packet b).
Proof. repeat constructor; simpl; lia. Qed.

Lemma select_spec c m :
  0 <= c < PCA9546_CHANNEL_COUNT → idle (ParentI2cMaster m) →
  (ActiveChannel m = PCA954X_NO_CHANNEL ∨ mux_reg (ParentI2cMaster m) = 2 ^ ActiveChannel m) →
  ∃ st m', Pca954xSelectChannel c m = Some (st, m') ∧ Lock m' = Lock m ∧ Events m' = Events m ∧
    idle (ParentI2cMaster m') ∧
    (if EFI_ERROR st then ActiveChannel m' = PCA954X_NO_CHANNEL
     else ActiveChannel m' = c ∧ mux_reg (ParentI2cMaster m') = 2 ^ c).
Proof.
  intros Hc Hidle Hact. unfold Pca954xSelectChannel. destruct (Z.eqb_spec (ActiveChannel m) c) as [<-|Hne].
  - exists EFI_SUCCESS, m. split_and!; try done. destruct Hact as [E|Hact]; [|done].
    exfalso. rewrite E in Hc. unfold PCA9546_CHANNEL_COUNT, PCA954X_NO_CHANNEL in Hc. lia.
  - destruct (channel_bit c Hc) as [-> Hb]. cbv zeta.
    destruct (start_total PCA9546_SLAVE_ADDRESS (mux_packet (2 ^ c)) (ParentI2cMaster m) Hidle (mux_packet_ok _))
      as (st & ops' & p' & E & Hidle' & _). rewrite E. cbn [mbind option_bind].
    eexists st, _. split; [reflexivity|]. split_and!; try done. simpl.
    destruct (EFI_ERROR st) eqn:Est; [done|]. split; [done|].
    by apply (mux_written _ _ _ _ _ Hidle Hb E).
Qed.

(** A request of a channel, in full. *)
Lemma request_spec c addr ops Event m :
  0 <= c < PCA9546_CHANNEL_COUNT → Forall op_ok ops → routed m →
  ∃ st ops' m', Pca954xStartRequest true c addr (Some ops) Event m = Some (st, Some ops', m') ∧
    Lock m' = false ∧ idle (ParentI2cMaster m') ∧ Events m' = Events m ++ option_list Event ∧
    Forall2 same_shape ops ops' ∧
    ((EFI_ERROR st = true ∧ ops' = ops ∧ ActiveChannel m' = PCA954X_NO_CHANNEL) ∨
     (ActiveChannel m' = c ∧ ∃ p, idle p ∧ mux_reg p = 2 ^ c ∧ StartRequest addr ops p = Some (st, ops', ParentI2cMaster m'))).
Proof.
  intros Hc Hops (Hlock & Hidle & Hact). unfold Pca954xStartRequest. cbn [negb].
  unfold EfiAcquireLock. rewrite Hlock. cbn [mbind option_bind].
  destruct (select_spec c (set_lock true m) Hc Hidle ltac:(destruct Hact as [?|[_ ?]]; [by left|by right]))
    as (st & m1 & -> & Hl1 & He1 & Hi1 & Hsel).
  cbn [mbind option_bind]. unfold EfiReleaseLock. destruct (EFI_ERROR st) eqn:Est.
  - rewrite Hl1. cbn [mbind option_bind set_lock Lock]. eexists st, ops, _. split; [reflexivity|].
    split_and!; try done; [by simpl; rewrite He1| |by left].
    clear. induction ops; constructor; auto using same_shape_refl.
  - destruct Hsel as [Ha Hreg].
    destruct (start_total addr ops _ Hi1 Hops) as (st2 & ops2 & p2 & E & Hi2 & Hsh). rewrite E.
    cbn [mbind option_bind]. cbn [Lock]. rewrite Hl1. cbn [mbind option_bind set_lock Lock].
    eexists st2, ops2, _. split; [reflexivity|]. split_and!; try done; [by simpl; rewrite He1|].
    right. split; [done|]. by exists (ParentI2cMaster m1).
Qed.

Lemma request_routed c addr ops Event m st ops' m' :
  0 <= c < PCA9546_CHANNEL_COUNT → Forall op_ok ops → other_device addr → routed m →
  Pca954xStartRequest true c addr (Some ops) Event m = Some (st, ops', m') → routed m'.
Proof.
  intros Hc Hops Haddr Hr E.
  destruct (request_spec c addr ops Event m Hc Hops Hr) as (st2 & ops2 & m2 & E2 & Hl & Hi & _ & _ & Hcase).
  rewrite E in E2. injection E2 as <- -> <-. split_and!; [done..|].
  destruct Hcase as [(_ & _ & Ha)|(Ha & p & Hp & Hreg & Es)]; [by left|]. right. rewrite Ha. split; [done|].
  by rewrite (mux_other _ _ _ _ _ _ Hp Haddr Es).
Qed.

Lemma step_routed m m' : mux_step m m' → routed m → routed m'.
Proof.
  intros Hstep Hr. destruct Hstep as [c addr ops Event m st ops' m' Hc Haddr Hops E|hz m st hz' m' E|m st m' E
    |addr ops m st ops' Parent Haddr Hops E].
  - by apply (request_routed c addr ops Event m st ops' m').
  - destruct Hr as (Hl & Hi & Ha). unfold Pca954xSetBusFrequency in E. cbn [negb orb] in E.
    destruct (freq_total hz _ Hi) as (st2 & hz2 & p & E2 & Hp). rewrite E2 in E. injection E as <- <- <-.
    split_and!; [done..|]. simpl. by rewrite (mux_freq _ _ _ _ _ Hi E2).
  - destruct Hr as (Hl & Hi & Ha). unfold Pca954xReset in E. cbn [negb] in E.
    destruct (reset_total _ Hi) as (st2 & p & E2 & Hp). rewrite E2 in E. injection E as <- <-.
    split_and!; [done..|]. by left.
  - destruct Hr as (Hl & Hi & Ha). destruct (start_total addr ops _ Hi Hops) as (st2 & ops2 & p & E2 & Hp & _).
    rewrite E in E2. injection E2 as <- <- <-. split_and!; [done..|]. simpl.
    by rewrite (mux_other _ _ _ _ _ _ Hi Haddr E).
Qed.
End Routing.

(** ** What the children get *)

Section Theorems.
Context {M : Type} `{SwitchLaws M}.
Implicit Types m : PCA954X_MUX_CONTEXT M.

(** The context the entry point makes. *)
Definition initial_mux (Parent : M) : PCA954X_MUX_CONTEXT M := mkMux Parent false PCA954X_NO_CHANNEL [].

Lemma reachable_routed Parent m : idle Parent → rtc mux_step (initial_mux Parent) m → routed m.
Proof.
  intros Hi. generalize (initial_mux Parent), (conj eq_refl (conj Hi (or_introl eq_refl)) : routed (initial_mux Parent)).
  intros m0 Hr Hrtc. revert Hr. induction Hrtc as [|m1 m2 m3 Hstep _ IH]; [done|].
  intros Hr. by eapply IH, step_routed.
Qed.

(** C14: in every state that is reachable while nobody addresses the switch itself -
    by requests of the channels and of the parent's other clients to any other
    address ([other_device]), frequency changes and resets, in any order - a request
    of channel [c] returns with the lock free and its event signalled, and it is
    either refused because the channel could not be selected, or carried out by the
    parent while the switch has exactly channel [c] selected; the state it leaves is
    again such a state unless it addressed the switch. The driver forwards a request
    to the switch's own address like any other, and after it a channel may reach
    another channel's devices ([child_moves_switch]). *)
Theorem Requests_routed Parent m c addr ops Event
  (Hparent : idle Parent) (Hreach : rtc mux_step (initial_mux Parent) m)
  (Hc : 0 <= c < PCA9546_CHANNEL_COUNT) (Hops : Forall op_ok ops) :
  ∃ st ops' m', Pca954xStartRequest true c addr (Some ops) Event m = Some (st, Some ops', m') ∧
    Lock m' = false ∧ Events m' = Events m ++ option_list Event ∧ Forall2 same_shape ops ops' ∧
    ((EFI_ERROR st = true ∧ ops' = ops ∧ ActiveChannel m' = PCA954X_NO_CHANNEL) ∨
     (ActiveChannel m' = c ∧
      ∃ p, mux_reg p = 2 ^ c ∧ StartRequest addr ops p = Some (st, ops', ParentI2cMaster m'))) ∧
    (other_device addr → rtc mux_step (initial_mux Parent) m').
Proof.
  destruct (request_spec c addr ops Event m Hc Hops (reachable_routed _ _ Hparent Hreach))
    as (st & ops' & m' & E & Hl & _ & He & Hsh & Hcase).
  exists st, ops', m'. split_and!; [done..| |].
  - destruct Hcase as [Hf|(Ha & p & _ & Hreg & Es)]; [by left|]. right. eauto.
  - intros Hd. eapply rtc_r; [exact Hreach|]. by eapply step_request.
Qed.

(** ** The children as masters *)

#[local] Instance channel_master (c : Z) : I2cMaster (PCA954X_MUX_CONTEXT M) := {
  StartRequest addr ops m :=
    match Pca954xStartRequest true c addr (Some ops) None m with
    | Some (st, Some ops', m') => Some (st, ops', m')
    | _ => None
    end;
  SetBusFrequency hz m := Pca954xSetBusFrequency true true hz m;
  MasterReset m := Pca954xReset true m
}.

(** Each child keeps the promises of the parent it stands on. *)
Definition channel_idle m : Prop :=
  Lock m = false ∧ idle (ParentI2cMaster m) ∧
  (ActiveChannel m = PCA954X_NO_CHANNEL ∨ 0 <= ActiveChannel m < PCA9546_CHANNEL_COUNT).

Lemma select_total c m :
  0 <= c < PCA9546_CHANNEL_COUNT → channel_idle m →
  ∃ st m', Pca954xSelectChannel c (set_lock true m) = Some (st, m') ∧ Lock m' = true ∧
    idle (ParentI2cMaster m') ∧ (ActiveChannel m' = PCA954X_NO_CHANNEL ∨ 0 <= ActiveChannel m' < PCA9546_CHANNEL_COUNT).
Proof.
  intros Hc (Hl & Hi & Ha). unfold Pca954xSelectChannel. cbn [set_lock ActiveChannel ParentI2cMaster].
  destruct (ActiveChannel m =? c); [by eexists _, _|]. cbv zeta.
  destruct (start_total PCA9546_SLAVE_ADDRESS (mux_packet (u8 (u32 (Z.shiftl 1 c)))) _ Hi (mux_packet_ok _))
    as (st & ops' & p' & E & Hidle' & _). rewrite E. cbn [mbind option_bind].
  eexists st, _. split; [reflexivity|]. split_and!; [done..|]. simpl. destruct (EFI_ERROR st); auto.
Qed.

Definition channel_laws (c : Z) (Hc : 0 <= c < PCA9546_CHANNEL_COUNT) :
  I2cMasterLaws (PCA954X_MUX_CONTEXT M) (H := channel_master c).
Proof.
  refine (Build_I2cMasterLaws _ (channel_master c) channel_idle _ _ _).
  - intros addr ops m Hm Hops. pose proof Hm as (Hl & _ & _).
    unfold StartRequest, channel_master, Pca954xStartRequest. cbn [negb].
    unfold EfiAcquireLock. rewrite Hl. cbn [mbind option_bind].
    destruct (select_total c m Hc Hm) as (st & m1 & -> & Hl1 & Hi1 & Ha1). cbn [mbind option_bind].
    unfold EfiReleaseLock. destruct (EFI_ERROR st).
    + rewrite Hl1. cbn [mbind option_bind]. eexists st, ops, _. split; [reflexivity|].
      split; [done|]. clear. induction ops; constructor; auto using same_shape_refl.
    + destruct (start_total addr ops _ Hi1 Hops) as (st2 & ops2 & p2 & E & Hi2 & Hsh). rewrite E.
      cbn [mbind option_bind]. cbn [Lock]. rewrite Hl1. cbn [mbind option_bind].
      eexists st2, ops2, _. split; [reflexivity|]. done.
  - intros hz m (Hl & Hi & Ha). unfold SetBusFrequency, channel_master, Pca954xSetBusFrequency. cbn [negb orb].
    destruct (freq_total hz _ Hi) as (st & hz' & p & E & Hp). rewrite E. eexists st, hz', _. split; [reflexivity|]. done.
  - intros m (Hl & Hi & Ha). unfold MasterReset, channel_master, Pca954xReset. cbn [negb].
    destruct (reset_total _ Hi) as (st & p & E & Hp). rewrite E. eexists st, _. split; [reflexivity|].
    split_and!; [done..|by left].
Defined.

(** ** Entry point *)

Lemma create_channels_spec n Install Index p st installed p' :
  create_channels n Install Index p = (st, installed, p') →
  ∃ k, installed = seqZ Index (Z.of_nat k) ∧ (k <= n)%nat ∧ (k = n ↔ EFI_ERROR st = false) ∧
    pool_live p' = pool_live p + 2 * len installed.
Proof.
  revert Index p st installed p'. induction n as [|n IH]; intros Index p st installed p'; cbn [create_channels].
  { intros [= <- <- <-]. exists O. split_and!; try done; simpl; lia. }
  destruct (AllocatePool p) as [b1 p1] eqn:E1. pose proof (AllocatePool_live _ _ _ E1) as L1.
  destruct b1; cbn [negb]; [|intros [= <- <- <-]; exists O; split_and!; try done; simpl; lia].
  destruct (AllocatePool p1) as [b2 p2] eqn:E2. pose proof (AllocatePool_live _ _ _ E2) as L2.
  destruct b2; cbn [negb]; [|intros [= <- <- <-]; exists O; split_and!; try done; simpl; lia].
  destruct (EFI_ERROR (Install Index)) eqn:EI.
  { intros [= <- <- <-]. exists O. split_and!; try done; [lia| |simpl; lia]. rewrite EI. done. }
  destruct (create_channels n Install (Index + 1) p2) as [[st2 ins2] p3] eqn:E3. intros [= <- <- <-].
  destruct (IH _ _ _ _ _ E3) as (k & -> & Hk & Hst & Hp). exists (S k). split_and!.
  - rewrite (seqZ_cons Index (Z.of_nat (S k))) by lia.
    by replace (Z.pred (Z.of_nat (S k))) with (Z.of_nat k) by lia.
  - lia.
  - rewrite <- Hst. lia.
  - rewrite Hp, L2, L1. simpl. lia.
Qed.

(** the entry point fails after it has published channels: it returns an error
    with [k] channels installed, [k] less than four, exactly when a later channel
    fails, and then the mux context and two allocations per channel stay, with the
    channels' handlers in an image about to be unloaded. Every other path is
    balanced. *)
Theorem Initialize_partial Located parent Install p st mux installed p'
  (Hidle : ∀ h, idle (parent h))
  (Hrun : Pca954xDxeInitialize Located parent Install p = Some (st, mux, installed, p')) :
  match mux with
  | None => EFI_ERROR st = true ∧ installed = [] ∧ pool_live p' = pool_live p
  | Some m =>
      routed m ∧ mux_reg (ParentI2cMaster m) = 0 ∧
      ∃ k, 0 <= k <= PCA9546_CHANNEL_COUNT ∧ installed = seqZ 0 k ∧
        (k = PCA9546_CHANNEL_COUNT ↔ EFI_ERROR st = false) ∧ pool_live p' = pool_live p + 1 + 2 * k
  end.
Proof.
  unfold Pca954xDxeInitialize in Hrun. destruct (FindParentI2cMaster Located p) as [[st0 found] p0] eqn:E0.
  assert (L0 : pool_live p0 = pool_live p).
  { unfold FindParentI2cMaster, find_master in E0. destruct Located; simplify_eq; simpl; lia. }
  destruct found as [h|]; [|injection Hrun as <- <- <- <-; done].
  destruct (AllocatePool p0) as [b1 p1] eqn:E1. pose proof (AllocatePool_live _ _ _ E1) as L1.
  destruct b1; cbn [negb] in Hrun; [|injection Hrun as <- <- <- <-; split_and!; try done; lia].
  destruct (start_total PCA9546_SLAVE_ADDRESS (mux_packet 0) _ (Hidle h) (mux_packet_ok _))
    as (st1 & ops1 & Parent & E & Hi & _). rewrite E in Hrun. cbn [mbind option_bind] in Hrun.
  destruct (EFI_ERROR st1) eqn:Est1; [injection Hrun as <- <- <- <-; split_and!; try done; simpl; lia|].
  destruct (create_channels _ Install 0 p1) as [[st2 ins2] p2] eqn:E2. injection Hrun as <- <- <- <-.
  destruct (create_channels_spec _ _ _ _ _ _ _ E2) as (k & -> & Hk & Hst & Hp).
  split; [by split_and!; [..|left]|]. split; [by apply (mux_written 0 _ _ _ _ (Hidle h) ltac:(lia) E)|].
  exists (Z.of_nat k). change (Z.to_nat PCA9546_CHANNEL_COUNT) with 4%nat in *.
  unfold PCA9546_CHANNEL_COUNT. split_and!; [lia..|done| |].
  - rewrite <- Hst. lia.
  - rewrite Hp, L1, L0, length_seqZ. lia.
Qed.
End Theorems.

(** ** A simulated bus *)

(** Behind each channel, a device at 0x50 that answers reads with bytes of its own. *)
Record SimBus := mkSimBus { sim_reg : Z; sim_log : list (Z * Z) }.

Definition sim_fill (reg : Z) (op : EFI_I2C_OPERATION) : EFI_I2C_OPERATION :=
  if is_read op then mkOp (Flags op) (LengthInBytes op) (replicate (length (Buffer op)) (u8 reg)) else op.

#[export] Instance sim_bus_master : I2cMaster SimBus := {
  StartRequest addr ops s :=
    let s' := mkSimBus (sim_reg s) (sim_log s ++ [(sim_reg s, addr)]) in
    if Z.land addr 0x3FF =? PCA9546_SLAVE_ADDRESS then
      match ops with
      | [mkOp 0 1 [b]] => Some (EFI_SUCCESS, ops, mkSimBus b (sim_log s'))
      | _ => Some (EFI_DEVICE_ERROR, ops, s')
      end
    else if (addr =? 0x50) && negb (sim_reg s =? 0) then Some (EFI_SUCCESS, map (sim_fill (sim_reg s)) ops, s')
    else Some (EFI_NO_RESPONSE, ops, s');
  SetBusFrequency hz s := Some (EFI_SUCCESS, hz, s);
  MasterReset s := Some (EFI_SUCCESS, s)
}.

Lemma sim_fill_shape reg ops : Forall2 same_shape ops (map (sim_fill reg) ops).
Proof.
  induction ops as [|op ops IH]; [done|]. constructor; [|done]. unfold sim_fill.
  destruct (is_read op) eqn:E; [|apply same_shape_refl]. split_and!; simpl; try done.
  - apply length_replicate.
  - by rewrite E.
  - intros _. apply Forall_replicate, u8_range.
Qed.

Lemma sim_same_shape (ops : list EFI_I2C_OPERATION) : Forall2 same_shape ops ops.
Proof. induction ops; constructor; auto using same_shape_refl. Qed.

#[export] Instance sim_bus_laws : I2cMasterLaws SimBus.
Proof.
  refine {| idle := λ _, True |}.
  - intros addr ops s _ _. simpl. destruct (_ =? _).
    + repeat case_match; eexists _, _, _; (split; [reflexivity|]); auto using sim_same_shape.
    + destruct (_ && _); eexists _, _, _; (split; [reflexivity|]); auto using sim_same_shape, sim_fill_shape.
  - intros hz s _. by eexists _, _, _.
  - intros s _. by eexists _, _.
Defined.

#[export] Instance sim_switch : SwitchLaws SimBus.
Proof.
  refine {| mux_reg := sim_reg |}.
  - intros b m st ops' m' _ _ [= <- <- <-] _. done.
  - intros addr ops m st ops' m' _ Ha. simpl. unfold other_device in Ha.
    rewrite (proj2 (Z.eqb_neq _ _)) by done. destruct (_ && _); by intros [= <- <- <-].
  - by intros hz m st hz' m' _ [= <- <- <-].
  - by intros m st m' _ [= <- <-].
Defined.

(** Two requests on channel 0 and one on channel 2: the switch is written twice. *)
Definition read_one : list EFI_I2C_OPERATION := [mkOp 1 1 [0]].
Definition after_one : PCA954X_MUX_CONTEXT SimBus := mkMux (mkSimBus 1 [(0, 0x70); (1, 0x50)]) false 0 [].

Lemma after_one_reached : rtc mux_step (initial_mux (mkSimBus 0 [])) after_one.
Proof.
  apply rtc_once. eapply (step_request 0 0x50 read_one None); [done|done| |vm_compute; reflexivity].
  repeat constructor; simpl; lia.
Qed.

Lemma Requests_routed_witness :
  ∃ st ops' m', Pca954xStartRequest true 2 0x50 (Some read_one) (Some 9) after_one = Some (st, Some ops', m') ∧
    Lock m' = false ∧ Events m' = [9] ∧ Forall2 same_shape read_one ops' ∧
    ((EFI_ERROR st = true ∧ ops' = read_one ∧ ActiveChannel m' = PCA954X_NO_CHANNEL) ∨
     (ActiveChannel m' = 2 ∧
      ∃ p, mux_reg p = 2 ^ 2 ∧ StartRequest 0x50 read_one p = Some (st, ops', ParentI2cMaster m'))) ∧
    (other_device 0x50 → rtc mux_step (initial_mux (mkSimBus 0 [])) m').
Proof.
  apply (Requests_routed (mkSimBus 0 []) after_one 2 0x50 read_one (Some 9) ltac:(exact I) after_one_reached ltac:(done)).
  repeat constructor; simpl; lia.
Defined.

Example routed_run :
  option_map (λ r, (r.1, sim_log (ParentI2cMaster r.2)))
    (Pca954xStartRequest true 2 0x50 (Some read_one) None after_one) =
  Some (EFI_SUCCESS, Some [mkOp 1 1 [4]], [(0, 0x70); (1, 0x50); (1, 0x70); (4, 0x50)]).
Proof. vm_compute. reflexivity. Qed.

(** A child that addresses the switch itself: channel 0 selects channel 3 behind the
    driver's back, and the next request on channel 0 reads the device of channel 3. *)
Example child_moves_switch :
  (m ← (r ← Pca954xStartRequest true 0 0x70 (Some [mkOp 0 1 [8]]) None after_one; Some r.2);
   option_map (λ r, (r.1, ActiveChannel r.2)) (Pca954xStartRequest true 0 0x50 (Some read_one) None m)) =
  Some ((EFI_SUCCESS, Some [mkOp 1 1 [8]]), 0).
Proof. vm_compute. reflexivity. Qed.

(** The third channel fails to install. *)
Definition demo_handles : list I2C_HANDLE :=
  [mkHandle EFI_SUCCESS 1 4 DW_I2C_DEVICE_PATH_GUID 0 EFI_SUCCESS;
   mkHandle EFI_SUCCESS 1 4 DW_I2C_DEVICE_PATH_GUID 1 EFI_SUCCESS].
Definition demo_install (i : Z) : EFI_STATUS := if i =? 2 then EFI_OUT_OF_RESOURCES else EFI_SUCCESS.

Lemma Initialize_partial_witness :
  Pca954xDxeInitialize (Some demo_handles) (λ _, mkSimBus 5 []) demo_install (mkPool [] 0) =
    Some (EFI_OUT_OF_RESOURCES, Some (initial_mux (mkSimBus 0 [(5, 0x70)])), [0; 1], mkPool [] 5) ∧
  ∃ k, 0 <= k <= 4 ∧ [0; 1] = seqZ 0 k ∧ (k = 4 ↔ true = false) ∧ 5 = 0 + 1 + 2 * k.
Proof.
  split; [vm_compute; reflexivity|].
  destruct (Initialize_partial (Some demo_handles) (λ _, mkSimBus 5 []) demo_install (mkPool [] 0)
    EFI_OUT_OF_RESOURCES (Some (initial_mux (mkSimBus 0 [(5, 0x70)]))) [0; 1] (mkPool [] 5) ltac:(intros ?; exact I)
    ltac:(vm_compute; reflexivity)) as (_ & _ & k & Hk & Hseq & Hst & Hp).
  exists k. exact (conj Hk (conj Hseq (conj Hst Hp))).
Defined.
