(* ===== verification/Fan.v ===== *)
(** * The fan keepalive driver

    Drivers/FanDxe: the frames exchanged with the fan controller over the parent
    I2C bus, which is any implementation [M] of the master interface. *)

From S2P Require Import Prelude Efi I2c.

Definition FAN_MCU_SLAVE_ADDRESS : Z := 0x0d.
Definition FAN_MCU_REG_VERSION : Z := 0x90.
Definition FAN_MCU_REG_COMMAND : Z := 0x98.
Definition FAN_MCU_CMD_PWM : Z := 0x23.
Definition FAN_PWM_VALUE : Z := 51.
Definition FAN_KEEPALIVE_INTERVAL : Z := 40000000.
Definition FAN_PARENT_BUS_INSTANCE : Z := 1.

Definition FindI2cMasterBus1 := find_master FAN_PARENT_BUS_INSTANCE.

Section Code.
Context {M : Type} `{I2cMaster M}.

(** ** Registers of the fan controller *)

Definition FanMcuWriteReg (Reg : Z) (Data : list Z) (m : M) (p : Pool) : option (EFI_STATUS * M * Pool) :=
  let '(ok, p) := AllocatePool p in
  if negb ok then Some (EFI_OUT_OF_RESOURCES, m, p)
  else
    let Buffer := Reg :: Data in
    let '(ok, p) := AllocatePool p in
    if negb ok then Some (EFI_OUT_OF_RESOURCES, m, FreePool p)
    else
      '(Status, _, m) ← StartRequest FAN_MCU_SLAVE_ADDRESS [mkOp 0 (u32 (1 + len Data)) Buffer] m;
      Some (Status, m, FreePool (FreePool p)).

(** [Data] is the caller's buffer, which comes back as the request left it. *)
Definition FanMcuReadReg (Reg : Z) (Data : list Z) (m : M) : option (EFI_STATUS * list Z * M) :=
  '(Status, ops, m) ←
    StartRequest FAN_MCU_SLAVE_ADDRESS [mkOp 0 1 [Reg]; mkOp I2C_FLAG_READ (u32 (len Data)) Data] m;
  match ops with
  | [_; op] => Some (Status, Buffer op, m)
  | _ => None
  end.

(** [Buf] is what the stack holds on entry; the version when it is read. *)
Definition FanMcuReadVersion (Buf : list Z) (m : M) : option (EFI_STATUS * option Z * M) :=
  '(Status, Buf, m) ← FanMcuReadReg FAN_MCU_REG_VERSION Buf m;
  if EFI_ERROR Status then Some (Status, None, m)
  else
    b0 ← rd Buf 0; b1 ← rd Buf 1; b2 ← rd Buf 2; b3 ← rd Buf 3;
    if negb (b2 =? 1) then Some (EFI_DEVICE_ERROR, None, m)
    else if negb (Z.lxor (Z.lxor b0 b1) b2 =? b3) then Some (EFI_DEVICE_ERROR, None, m)
    else Some (EFI_SUCCESS, Some (u16 (Z.lor (Z.shiftl b1 8) b0)), m).

Definition FanMcuSendPwm (PwmValue : Z) (m : M) (p : Pool) : option (EFI_STATUS * M * Pool) :=
  FanMcuWriteReg FAN_MCU_REG_COMMAND [FAN_MCU_CMD_PWM; PwmValue; u8 (Z.lxor PwmValue FAN_MCU_CMD_PWM)] m p.

Definition FanKeepaliveTimerCallback (m : M) (p : Pool) : option (M * Pool) :=
  '(_, m, p) ← FanMcuSendPwm FAN_PWM_VALUE m p;
  Some (m, p).

(** ** Entry point *)

(** The status, the period of the keepalive timer when its event exists, the bus
    and the pool. [parent] gives the master of a handle; [CreateEvent] and
    [SetTimer] are the answers of the boot services. *)
Definition FanDxeInitialize (Located : option (list I2C_HANDLE)) (parent : nat → M) (Buf : list Z)
    (CreateEvent SetTimer : EFI_STATUS) (p : Pool)
    : option (EFI_STATUS * option Z * option M * Pool) :=
  let '(_, found, p) := FindI2cMasterBus1 Located p in
  match found with
  | None => Some (EFI_NOT_FOUND, None, None, p)
  | Some h =>
      '(Status, McuVersion, m) ← FanMcuReadVersion Buf (parent h);
      if EFI_ERROR Status then Some (EFI_NOT_FOUND, None, Some m, p)
      else
        '(Status, m, p) ← FanMcuSendPwm FAN_PWM_VALUE m p;
        if EFI_ERROR Status then Some (Status, None, Some m, p)
        else if EFI_ERROR CreateEvent then Some (CreateEvent, None, Some m, p)
        else if EFI_ERROR SetTimer then Some (SetTimer, None, Some m, p)
        else Some (EFI_SUCCESS, Some FAN_KEEPALIVE_INTERVAL, Some m, p)
  end.
End Code.

(** ** Frames *)

(** The reply that announces version [v]. *)
Definition version_reply (v : Z) : list Z :=
  [v mod 2 ^ 8; v / 2 ^ 8; 1; Z.lxor (Z.lxor (v mod 2 ^ 8) (v / 2 ^ 8)) 1].

(** What the driver makes of the four bytes of a reply. *)
Definition parse_version (Buf : list Z) : option Z :=
  match Buf with
  | [b0; b1; b2; b3] =>
      if (b2 =? 1) && (Z.lxor (Z.lxor b0 b1) b2 =? b3) then Some (b1 * 2 ^ 8 + b0) else None
  | _ => None
  end.

Lemma parse_version_reply v : 0 <= v < 2 ^ 16 → parse_version (version_reply v) = Some v.
Proof.
  intros Hv. unfold parse_version, version_reply. rewrite !Z.eqb_refl. cbn [andb]. f_equal.
  pose proof (Z.div_mod v (2 ^ 8)). lia.
Qed.

(** One byte changed anywhere is noticed. *)
Lemma parse_version_detects Buf i b v :
  parse_version Buf = Some v → rd Buf i ≠ Some b → (Z.to_nat i < 4)%nat → 0 <= i →
  parse_version (<[Z.to_nat i := b]> Buf) = None.
Proof.
  unfold parse_version. destruct Buf as [|b0 [|b1 [|b2 [|b3 [|]]]]]; try done.
  destruct (Z.eqb_spec b2 1) as [->|]; [|done].
  destruct (Z.eqb_spec (Z.lxor (Z.lxor b0 b1) 1) b3) as [E|]; [|done]. cbn [andb]. intros _ Hi Hlt Hpos.
  assert (Hcancel : ∀ x y z, Z.lxor x z = Z.lxor y z → x = y).
  { intros x y z Hxy. apply (f_equal (λ t, Z.lxor t z)) in Hxy.
    by rewrite !Z.lxor_assoc, !Z.lxor_nilpotent, !Z.lxor_0_r in Hxy. }
  rewrite rd_lookup in Hi by done. destruct (Z.to_nat i) as [|[|[|[|]]]]; [| | | |lia]; simpl in Hi |- *.
  - destruct (Z.eqb_spec (Z.lxor (Z.lxor b b1) 1) b3) as [E2|]; [|done]. destruct Hi. f_equal.
    rewrite <- E in E2. symmetry. by apply Hcancel, Hcancel in E2.
  - destruct (Z.eqb_spec (Z.lxor (Z.lxor b0 b) 1) b3) as [E2|]; [|done]. destruct Hi. f_equal.
    rewrite <- E in E2. apply Hcancel in E2. rewrite !(Z.lxor_comm b0) in E2. symmetry. by apply Hcancel in E2.
  - destruct (Z.eqb_spec b 1) as [->|]; [|done]. by destruct Hi.
  - destruct (Z.eqb_spec (Z.lxor (Z.lxor b0 b1) 1) b) as [E2|]; [|done]. destruct Hi. by subst.
Qed.

(** ** The exchanges *)

Section Theorems.
Context {M : Type} `{I2cMasterLaws M}.

(** The request that reads the version into a buffer of four bytes. *)
Definition version_request (Buf : list Z) : list EFI_I2C_OPERATION :=
  [mkOp 0 1 [FAN_MCU_REG_VERSION]; mkOp I2C_FLAG_READ 4 Buf].

(** The request that sets the duty cycle. *)
Definition pwm_request (PwmValue : Z) : list EFI_I2C_OPERATION :=
  [mkOp 0 4 [FAN_MCU_REG_COMMAND; FAN_MCU_CMD_PWM; PwmValue; Z.lxor PwmValue FAN_MCU_CMD_PWM]].

Lemma lxor_byte x y : byte_ok x → byte_ok y → byte_ok (Z.lxor x y).
Proof.
  unfold byte_ok. intros Hx Hy. assert (Hn : 0 <= Z.lxor x y) by (apply Z.lxor_nonneg; lia).
  split; [done|]. destruct (Z.eq_dec (Z.lxor x y) 0) as [->|Hne]; [lia|].
  apply Z.log2_lt_pow2; [lia|]. eapply Z.le_lt_trans; [apply Z.log2_lxor; lia|].
  apply Z.max_lub_lt; (destruct (Z.eq_dec x 0), (Z.eq_dec y 0); subst; simpl; try lia);
    apply Z.log2_lt_pow2; lia.
Qed.

Lemma ReadVersion_spec Buf m :
  len Buf = 4 → Forall byte_ok Buf → idle m →
  ∃ st Buf' m', StartRequest FAN_MCU_SLAVE_ADDRESS (version_request Buf) m = Some (st, version_request Buf', m') ∧
    len Buf' = 4 ∧ idle m' ∧
    FanMcuReadVersion Buf m =
      Some (if EFI_ERROR st then (st, None, m')
            else match parse_version Buf' with
                 | Some v => (EFI_SUCCESS, Some v, m')
                 | None => (EFI_DEVICE_ERROR, None, m')
                 end).
Proof.
  intros Hlen Hbytes Hidle.
  destruct (start_total FAN_MCU_SLAVE_ADDRESS (version_request Buf) m Hidle) as (st & ops' & m' & E & Hi & Hsh).
  { repeat constructor; simpl; lia. }
  apply Forall2_cons_inv_l in Hsh as ([f0 l0 B0] & ops1 & (Hf0 & Hl0 & _ & Hw & _) & Hsh & ->).
  apply Forall2_cons_inv_l in Hsh as ([f1 l1 Buf'] & ops2 & (Hf1 & Hl1 & Hlen1 & _ & Hb1) & Hsh & ->).
  apply Forall2_nil_inv_l in Hsh as ->. simpl in *. rewrite (Hw eq_refl) in E. subst.
  exists st, Buf', m'. specialize (Hb1 Hbytes). split_and!; [exact E|lia|done|].
  unfold FanMcuReadVersion, FanMcuReadReg. rewrite Hlen, u32_small by lia.
  unfold version_request in E. rewrite E. cbn [mbind option_bind]. cbn [Buffer].
  destruct (EFI_ERROR st); [done|].
  destruct Buf' as [|b0 [|b1 [|b2 [|b3 [|]]]]]; simpl in Hlen1; try lia.
  change (rd [b0; b1; b2; b3] 0) with (Some b0). change (rd [b0; b1; b2; b3] 1) with (Some b1).
  change (rd [b0; b1; b2; b3] 2) with (Some b2). change (rd [b0; b1; b2; b3] 3) with (Some b3).
  cbn [mbind option_bind]. unfold parse_version.
  destruct (b2 =? 1); [|done]. cbn [negb andb]. destruct (_ =? b3); [|done]. cbn [negb]. do 3 f_equal.
  apply Forall_cons_1 in Hb1 as [Hb0 Hb1]. apply Forall_cons_1 in Hb1 as [Hb1 _]. f_equal.
  rewrite Z.lor_comm, lor16 by done. unfold byte_ok in *. rewrite u16_small; lia.
Qed.

(** The pool comes back as it was, and the bus sees one request or, when memory ran
    out, none. *)
Lemma SendPwm_spec v m p :
  byte_ok v → idle m →
  ∃ st m' p', FanMcuSendPwm v m p = Some (st, m', p') ∧ idle m' ∧ pool_live p' = pool_live p ∧
    ((st = EFI_OUT_OF_RESOURCES ∧ m' = m) ∨
     ∃ ops', StartRequest FAN_MCU_SLAVE_ADDRESS (pwm_request v) m = Some (st, ops', m')).
Proof.
  intros Hv Hidle. unfold FanMcuSendPwm, FanMcuWriteReg.
  destruct (AllocatePool p) as [b1 p1] eqn:E1. pose proof (AllocatePool_live _ _ _ E1) as L1.
  destruct b1; cbn [negb]; [|eexists _, _, _; split; [reflexivity|]; split_and!; [done|lia|by left]].
  destruct (AllocatePool p1) as [b2 p2] eqn:E2. pose proof (AllocatePool_live _ _ _ E2) as L2.
  destruct b2; cbn [negb]; [|eexists _, _, _; split; [reflexivity|]; split_and!; [done|simpl; lia|by left]].
  assert (Hx : u8 (Z.lxor v FAN_MCU_CMD_PWM) = Z.lxor v FAN_MCU_CMD_PWM).
  { apply u8_small, lxor_byte; [done|]. unfold byte_ok, FAN_MCU_CMD_PWM. lia. }
  rewrite Hx. change (u32 _) with 4.
  destruct (start_total FAN_MCU_SLAVE_ADDRESS (pwm_request v) m Hidle) as (st & ops' & m' & E & Hi & _).
  { repeat constructor; simpl; lia. }
  unfold pwm_request in E. rewrite E. cbn [mbind option_bind].
  eexists st, m', _. split; [reflexivity|]. split_and!; [done|simpl; lia|]. right. by exists ops'.
Qed.

(** the version is reported exactly when the four bytes received carry it with
    its marker and checksum; every 16-bit version gets through, and a reply with any
    one byte changed is refused as a device error. *)
Theorem ReadVersion_checked Buf m
  (Hlen : len Buf = 4) (Hbytes : Forall byte_ok Buf) (Hidle : idle m) :
  ∃ st Buf' m', StartRequest FAN_MCU_SLAVE_ADDRESS (version_request Buf) m = Some (st, version_request Buf', m') ∧
    (EFI_ERROR st = true → FanMcuReadVersion Buf m = Some (st, None, m')) ∧
    (EFI_ERROR st = false →
       (∀ v, 0 <= v < 2 ^ 16 → Buf' = version_reply v → FanMcuReadVersion Buf m = Some (EFI_SUCCESS, Some v, m')) ∧
       (∀ v i b, 0 <= v < 2 ^ 16 → 0 <= i < 4 → rd (version_reply v) i ≠ Some b →
          Buf' = <[Z.to_nat i := b]> (version_reply v) → FanMcuReadVersion Buf m = Some (EFI_DEVICE_ERROR, None, m'))).
Proof.
  destruct (ReadVersion_spec Buf m Hlen Hbytes Hidle) as (st & Buf' & m' & E & _ & _ & ->).
  exists st, Buf', m'. split; [done|]. split; intros Est; rewrite Est; [done|]. split.
  - intros v Hv ->. by rewrite parse_version_reply.
  - intros v i b Hv Hi Hne ->. rewrite (parse_version_detects _ i b v); [done|..]; [|done|lia|lia].
    by apply parse_version_reply.
Qed.

(** the driver never faults and never leaks; it succeeds only after the fan
    controller has announced a checked version and accepted the duty cycle with its
    checksum, and then the keepalive runs every four seconds; after an error no
    timer is left. *)
Theorem Initialize_keepalive Located parent Buf CreateEvent SetTimer p
  (Hlen : len Buf = 4) (Hbytes : Forall byte_ok Buf) (Hidle : ∀ h, idle (parent h)) :
  ∃ st timer m p', FanDxeInitialize Located parent Buf CreateEvent SetTimer p = Some (st, timer, m, p') ∧
    pool_live p' = pool_live p ∧
    (EFI_ERROR st = true → timer = None) ∧
    (EFI_ERROR st = false →
       timer = Some FAN_KEEPALIVE_INTERVAL ∧
       ∃ h m0 m1 st0 st1 Buf' ops v,
         m = Some m1 ∧
         StartRequest FAN_MCU_SLAVE_ADDRESS (version_request Buf) (parent h) = Some (st0, version_request Buf', m0) ∧
         EFI_ERROR st0 = false ∧ parse_version Buf' = Some v ∧
         StartRequest FAN_MCU_SLAVE_ADDRESS (pwm_request FAN_PWM_VALUE) m0 = Some (st1, ops, m1) ∧ EFI_ERROR st1 = false).
Proof.
  unfold FanDxeInitialize. destruct (FindI2cMasterBus1 Located p) as [[st0 found] p0] eqn:E0.
  assert (L0 : pool_live p0 = pool_live p).
  { unfold FindI2cMasterBus1, find_master in E0. destruct Located; simplify_eq; simpl; lia. }
  destruct found as [h|]; [|eexists _, _, _, _; split; [reflexivity|]; done].
  destruct (ReadVersion_spec Buf (parent h) Hlen Hbytes (Hidle h)) as (st1 & Buf' & m1 & E1 & _ & Hi1 & ->).
  cbn [mbind option_bind]. destruct (EFI_ERROR st1) eqn:Est1.
  { cbn [mbind option_bind]. rewrite Est1. eexists _, _, _, _. split; [reflexivity|]. done. }
  destruct (parse_version Buf') as [v|] eqn:Ev; cbn [mbind option_bind EFI_ERROR];
    [|eexists _, _, _, _; split; [reflexivity|]; done].
  destruct (SendPwm_spec FAN_PWM_VALUE m1 p0 ltac:(unfold byte_ok, FAN_PWM_VALUE; lia) Hi1)
    as (st2 & m2 & p2 & -> & Hi2 & L2 & Hcase). cbn [mbind option_bind].
  destruct (EFI_ERROR st2) eqn:Est2.
  { eexists _, _, _, _. split; [reflexivity|]. split_and!; [lia|done|congruence]. }
  destruct Hcase as [[-> _]|[ops E2]]; [done|].
  destruct (EFI_ERROR CreateEvent) eqn:Ec.
  { eexists _, _, _, _. split; [reflexivity|]. split_and!; [lia|done|congruence]. }
  destruct (EFI_ERROR SetTimer) eqn:Et.
  { eexists _, _, _, _. split; [reflexivity|]. split_and!; [lia|done|congruence]. }
  eexists _, _, _, _. split; [reflexivity|]. split_and!; [lia|done|]. intros _. split; [done|].
  exists h, m1, m2, st1, st2, Buf', ops, v. done.
Qed.
End Theorems.

(** ** A simulated fan controller *)

Record SimMcu := mkMcu { mcu_version : Z; mcu_duty : option Z }.

#[export] Instance sim_mcu : I2cMaster SimMcu := {
  StartRequest addr ops s :=
    if negb (addr =? FAN_MCU_SLAVE_ADDRESS) then Some (EFI_NO_RESPONSE, ops, s)
    else match ops with
         | [mkOp 0 1 [0x90] as w; mkOp 1 4 [_; _; _; _]] =>
             Some (EFI_SUCCESS, [w; mkOp 1 4 (map u8 (version_reply (mcu_version s)))], s)
         | [mkOp 0 4 [0x98; 0x23; v; c]] =>
             if c =? Z.lxor v 0x23 then Some (EFI_SUCCESS, ops, mkMcu (mcu_version s) (Some v))
             else Some (EFI_DEVICE_ERROR, ops, s)
         | _ => Some (EFI_DEVICE_ERROR, ops, s)
         end;
  SetBusFrequency hz s := Some (EFI_SUCCESS, hz, s);
  MasterReset s := Some (EFI_SUCCESS, s)
}.

Lemma mcu_shape (ops : list EFI_I2C_OPERATION) : Forall2 same_shape ops ops.
Proof. induction ops; constructor; auto using same_shape_refl. Qed.

#[export] Instance sim_mcu_laws : I2cMasterLaws SimMcu.
Proof.
  refine {| idle := λ _, True |}.
  - intros addr ops s _ _. simpl. destruct (negb _);
      [eexists _, _, _; (split; [reflexivity|]); auto using mcu_shape|].
    repeat case_match; subst; eexists _, _, _; (split; [reflexivity|]); (split; [exact I|]);
      auto using mcu_shape.
    constructor; [apply same_shape_refl|]. constructor; [|done]. split_and!; try done.
    intros _. change (Forall byte_ok (u8 <$> version_reply (mcu_version s))).
    rewrite Forall_fmap. apply Forall_true. intros x. apply u8_range.
  - intros hz s _. by eexists _, _, _.
  - intros s _. by eexists _, _.
Defined.

Lemma ReadVersion_checked_witness :
  FanMcuReadVersion [9; 9; 9; 9] (mkMcu 0x0102 None) = Some (EFI_SUCCESS, Some 0x0102, mkMcu 0x0102 None) ∧
  ∃ st Buf' m', StartRequest FAN_MCU_SLAVE_ADDRESS (version_request [9; 9; 9; 9]) (mkMcu 0x0102 None) =
      Some (st, version_request Buf', m') ∧
    (EFI_ERROR st = false → Buf' = version_reply 0x0102 →
     FanMcuReadVersion [9; 9; 9; 9] (mkMcu 0x0102 None) = Some (EFI_SUCCESS, Some 0x0102, m')).
Proof.
  split; [vm_compute; reflexivity|].
  destruct (ReadVersion_checked [9; 9; 9; 9] (mkMcu 0x0102 None) eq_refl
    ltac:(repeat constructor; unfold byte_ok; lia) ltac:(exact I)) as (st & Buf' & m' & E & _ & Hok).
  exists st, Buf', m'. split; [exact E|]. intros Est EB. apply (proj1 (Hok Est) 0x0102 ltac:(lia) EB).
Defined.

Lemma Initialize_keepalive_witness :
  let hs := [mkHandle EFI_SUCCESS 1 4 DW_I2C_DEVICE_PATH_GUID 1 EFI_SUCCESS] in
  FanDxeInitialize (Some hs) (λ _, mkMcu 0x0102 None) [0; 0; 0; 0] EFI_SUCCESS EFI_SUCCESS (mkPool [] 3) =
    Some (EFI_SUCCESS, Some 40000000, Some (mkMcu 0x0102 (Some 51)), mkPool [] 3) ∧
  ∃ st timer m p', FanDxeInitialize (Some hs) (λ _, mkMcu 0x0102 None) [0; 0; 0; 0] EFI_SUCCESS EFI_SUCCESS (mkPool [] 3) =
      Some (st, timer, m, p') ∧ pool_live p' = 3 ∧ (EFI_ERROR st = true → timer = None).
Proof.
  intros hs. split; [vm_compute; reflexivity|].
  destruct (Initialize_keepalive (Some hs) (λ _, mkMcu 0x0102 None) [0; 0; 0; 0] EFI_SUCCESS EFI_SUCCESS (mkPool [] 3)
    eq_refl ltac:(repeat constructor; unfold byte_ok; lia) ltac:(intros; exact I))
    as (st & timer & m & p' & E & Hp & Ht & _).
  exists st, timer, m, p'. exact (conj E (conj Hp Ht)).
Defined.
