(* ===== verification/BoardInfo.v ===== *)
(** * The board information driver

    Drivers/BoardInfoDxe: the board's name, serial number and MAC address, parsed
    from the tag-length-value block that RouterBOOT keeps in the boot flash, which
    is read through the SPI NOR driver. *)

From S2P Require Import Prelude Efi Spi SpiNor.

Definition BOARD_INFO_FLASH_OFFSET : Z := 0xB0000.
Definition BOARD_INFO_READ_SIZE : Z := 4096.
Definition BOARD_INFO_MAGIC : Z := 0x64726148.
Definition RB_TAG_END : Z := 0x00.
Definition RB_TAG_BOARD_SERIAL : Z := 0x0B.
Definition RB_TAG_MAC : Z := 0x04.
Definition RB_TAG_BOARD_NAME : Z := 0x05.
Definition BOARD_NAME_MAX : Z := 64.
Definition SERIAL_MAX : Z := 32.
Definition SIZEOF_RB_TLV_HEADER : Z := 4.
Definition SIZEOF_EFI_MAC_ADDRESS : Z := 32.

(** The two names and the address, as arrays of bytes. *)
Record BOARD_INFO_INSTANCE := mkInfo {
  BoardName : list Z;
  Serial : list Z;
  MacAddress : list Z
}.

(** ** Protocol methods *)

(** The array behind [*BoardName] and [*Serial]; a null out pointer is false. *)
Definition BoardInfoGetBoardName (Instance : BOARD_INFO_INSTANCE) (out : bool) : EFI_STATUS * option (list Z) :=
  if negb out then (EFI_INVALID_PARAMETER, None) else (EFI_SUCCESS, Some (BoardName Instance)).
Definition BoardInfoGetSerial (Instance : BOARD_INFO_INSTANCE) (out : bool) : EFI_STATUS * option (list Z) :=
  if negb out then (EFI_INVALID_PARAMETER, None) else (EFI_SUCCESS, Some (Serial Instance)).
Definition BoardInfoGetMacAddress (Instance : BOARD_INFO_INSTANCE) (out : bool) : EFI_STATUS * option (list Z) :=
  if negb out then (EFI_INVALID_PARAMETER, None) else (EFI_SUCCESS, Some (MacAddress Instance)).

(** ** The parser *)

(** A string field: at most [Max - 1] bytes of the value, and a NUL. *)
Definition copy_field (Dest : list Z) (Max : Z) (FlashBuf : list Z) (DataPtr Length : Z) : option (list Z) :=
  let CopyLen := if Max <=? Length then Max - 1 else Length in
  bytes ← rdn FlashBuf DataPtr CopyLen;
  Dest ← wrn Dest 0 bytes;
  wrn Dest CopyLen [0].

(** The switch on the tag. *)
Definition store_tag (FlashBuf : list Z) (Tag Length DataPtr : Z) (Info : BOARD_INFO_INSTANCE)
    : option BOARD_INFO_INSTANCE :=
  if Tag =? RB_TAG_BOARD_NAME then
    n ← copy_field (BoardName Info) BOARD_NAME_MAX FlashBuf DataPtr Length;
    Some (mkInfo n (Serial Info) (MacAddress Info))
  else if Tag =? RB_TAG_BOARD_SERIAL then
    s ← copy_field (Serial Info) SERIAL_MAX FlashBuf DataPtr Length;
    Some (mkInfo (BoardName Info) s (MacAddress Info))
  else if Tag =? RB_TAG_MAC then
    if 6 <=? Length then
      bytes ← rdn FlashBuf DataPtr 6;
      m ← wrn (MacAddress Info) 0 bytes;
      Some (mkInfo (BoardName Info) (Serial Info) m)
    else Some Info
  else Some Info.

(** The loop from [Pos] on; every record takes at least its header. *)
Fixpoint tlv_loop (fuel : nat) (FlashBuf : list Z) (End Pos : Z) (Info : BOARD_INFO_INSTANCE)
    : option BOARD_INFO_INSTANCE :=
  if Pos + SIZEOF_RB_TLV_HEADER <=? End then
    match fuel with
    | O => None
    | S fuel' =>
        Tag ← le16 FlashBuf Pos;
        if Tag =? RB_TAG_END then Some Info
        else
          let DataPtr := Pos + SIZEOF_RB_TLV_HEADER in
          Length ← le16 FlashBuf (Pos + 2);
          if End <? DataPtr + Length then Some Info
          else
            Info ← store_tag FlashBuf Tag Length DataPtr Info;
            tlv_loop fuel' FlashBuf End (DataPtr + Length) Info
    end
  else Some Info.

Definition ParseTlvBlock (FlashBuf : list Z) (BufSize : Z) (Info : BOARD_INFO_INSTANCE) : option BOARD_INFO_INSTANCE :=
  if BufSize <? 4 then Some Info
  else
    Magic ← le32 FlashBuf 0;
    if negb (Magic =? BOARD_INFO_MAGIC) then Some Info
    else tlv_loop (S (Z.to_nat (BufSize / SIZEOF_RB_TLV_HEADER))) FlashBuf BufSize 4 Info.

(** ** Entry point *)

(** [AsciiStrCpyS] into a zeroed array of [Max] bytes that the literal fits in. *)
Definition field_of (Max : Z) (s : list Z) : list Z := s ++ replicate (Z.to_nat Max - length s) 0.

Definition default_info : BOARD_INFO_INSTANCE :=
  mkInfo (field_of BOARD_NAME_MAX [82; 111; 117; 116; 101; 114; 66; 111; 97; 114; 100])
    (field_of SERIAL_MAX [85; 110; 107; 110; 111; 119; 110])
    (field_of SIZEOF_EFI_MAC_ADDRESS [0x02; 0; 0; 0; 0; 0x01]).

(** The status, the instance whose protocol is installed, the flash and the pool. *)
Definition BoardInfoDxeEntry {H} `{SpiHal H} (Located InstallStatus : EFI_STATUS) (h : H) (p : Pool)
    : option (EFI_STATUS * BOARD_INFO_INSTANCE * H * Pool) :=
  '(mBoardInfo, h, p) ←
    (if EFI_ERROR Located then Some (default_info, h, p)
     else
       let '(ok, p) := AllocatePool p in
       if negb ok then Some (default_info, h, p)
       else
         '(Status, FlashBuf, h) ← SpiNorReadData BOARD_INFO_FLASH_OFFSET BOARD_INFO_READ_SIZE h;
         if EFI_ERROR Status then Some (default_info, h, FreePool p)
         else
           Info ← ParseTlvBlock FlashBuf BOARD_INFO_READ_SIZE default_info;
           Some (Info, h, FreePool p));
  Some (if EFI_ERROR InstallStatus then InstallStatus else EFI_SUCCESS, mBoardInfo, h, p).

(** ** The format *)

(** A record of the block and how it is laid out. *)
Record tlv := mkTlv { tlv_tag : Z; tlv_data : list Z }.
Definition tlv_ok (t : tlv) : Prop := 0 < tlv_tag t < 2 ^ 16 ∧ len (tlv_data t) < 2 ^ 16.
Definition encode_tlv (t : tlv) : list Z :=
  le_bytes 2 (tlv_tag t) ++ le_bytes 2 (len (tlv_data t)) ++ tlv_data t.
Definition encode_block (ts : list tlv) (rest : list Z) : list Z :=
  le_bytes 4 BOARD_INFO_MAGIC ++ mjoin (map encode_tlv ts) ++ rest.

(** What ends a block: too little room for a header, or an end tag. *)
Definition block_end (rest : list Z) : Prop := len rest < 4 ∨ le16 rest 0 = Some RB_TAG_END.

(** The meaning of a record. *)
Definition set_field (Max : Z) (old data : list Z) : list Z :=
  let d := take (Z.to_nat (Max - 1)) data in d ++ 0 :: drop (S (length d)) old.
Definition apply_tlv (Info : BOARD_INFO_INSTANCE) (t : tlv) : BOARD_INFO_INSTANCE :=
  if tlv_tag t =? RB_TAG_BOARD_NAME then
    mkInfo (set_field BOARD_NAME_MAX (BoardName Info) (tlv_data t)) (Serial Info) (MacAddress Info)
  else if tlv_tag t =? RB_TAG_BOARD_SERIAL then
    mkInfo (BoardName Info) (set_field SERIAL_MAX (Serial Info) (tlv_data t)) (MacAddress Info)
  else if (tlv_tag t =? RB_TAG_MAC) && (6 <=? len (tlv_data t)) then
    mkInfo (BoardName Info) (Serial Info) (take 6 (tlv_data t) ++ drop 6 (MacAddress Info))
  else Info.

(** The arrays have their sizes and the strings their NUL. *)
Definition info_ok (Info : BOARD_INFO_INSTANCE) : Prop :=
  len (BoardName Info) = BOARD_NAME_MAX ∧ 0 ∈ BoardName Info ∧
  len (Serial Info) = SERIAL_MAX ∧ 0 ∈ Serial Info ∧ len (MacAddress Info) = SIZEOF_EFI_MAC_ADDRESS.

Lemma default_info_ok : info_ok default_info.
Proof. split_and!; try done; by apply (list_elem_of_lookup_2 _ 20). Qed.

Lemma set_field_ok Max old data :
  1 <= Max → len old = Max → len (set_field Max old data) = Max ∧ 0 ∈ set_field Max old data.
Proof.
  intros HM Hl. unfold set_field. cbv zeta. split; [|set_solver].
  rewrite length_app. cbn [length]. rewrite length_drop, length_take. lia.
Qed.

Lemma copy_field_spec Max Dest FlashBuf DataPtr Length :
  1 <= Max → len Dest = Max → 0 <= DataPtr → 0 <= Length → DataPtr + Length <= len FlashBuf →
  copy_field Dest Max FlashBuf DataPtr Length =
    Some (set_field Max Dest (take (Z.to_nat Length) (drop (Z.to_nat DataPtr) FlashBuf))).
Proof.
  intros HM Hd HP HL Hin. unfold copy_field. cbv zeta.
  set (CopyLen := if Max <=? Length then Max - 1 else Length).
  assert (HC : 0 <= CopyLen <= Length ∧ CopyLen < Max) by (unfold CopyLen; destruct (Z.leb_spec Max Length); lia).
  rewrite rdn_eq by lia. cbn [mbind option_bind].
  set (d := take (Z.to_nat CopyLen) (drop (Z.to_nat DataPtr) FlashBuf)).
  assert (Hld : length d = Z.to_nat CopyLen) by (unfold d; rewrite length_take, length_drop; lia).
  rewrite wrn_0 by lia. cbn [mbind option_bind].
  rewrite wrn_eq by (rewrite ?length_app, ?length_drop; simpl; lia).
  rewrite <- Hld, take_app_length. f_equal. unfold set_field. cbv zeta.
  assert (Ed : take (Z.to_nat (Max - 1)) (take (Z.to_nat Length) (drop (Z.to_nat DataPtr) FlashBuf)) = d).
  { rewrite take_take. unfold d, CopyLen. f_equal. destruct (Z.leb_spec Max Length); lia. }
  rewrite Ed. do 2 f_equal. cbn [length]. rewrite drop_app_add, drop_drop. f_equal. lia.
Qed.

Lemma store_tag_spec FlashBuf Tag Length DataPtr Info :
  info_ok Info → 0 <= DataPtr → 0 <= Length → DataPtr + Length <= len FlashBuf →
  store_tag FlashBuf Tag Length DataPtr Info =
    Some (apply_tlv Info (mkTlv Tag (take (Z.to_nat Length) (drop (Z.to_nat DataPtr) FlashBuf)))) ∧
  info_ok (apply_tlv Info (mkTlv Tag (take (Z.to_nat Length) (drop (Z.to_nat DataPtr) FlashBuf)))).
Proof.
  intros (Hn & Hn0 & Hs & Hs0 & Hm) HP HL Hin. unfold store_tag, apply_tlv. cbn [tlv_tag tlv_data].
  set (data := take (Z.to_nat Length) (drop (Z.to_nat DataPtr) FlashBuf)).
  assert (Hld : len data = Length) by (unfold data; rewrite length_take, length_drop; lia).
  destruct (Tag =? RB_TAG_BOARD_NAME).
  { rewrite copy_field_spec by (done || lia). split; [done|].
    destruct (set_field_ok BOARD_NAME_MAX _ data ltac:(done) Hn). by split_and!. }
  destruct (Tag =? RB_TAG_BOARD_SERIAL).
  { rewrite copy_field_spec by (done || lia). split; [done|].
    destruct (set_field_ok SERIAL_MAX _ data ltac:(done) Hs). by split_and!. }
  destruct (Tag =? RB_TAG_MAC); [|by split_and!]. cbn [andb]. rewrite Hld.
  destruct (Z.leb_spec 6 Length); [|by split_and!]. unfold SIZEOF_EFI_MAC_ADDRESS in Hm.
  rewrite rdn_eq by lia. cbn [mbind option_bind].
  assert (E6 : take (Z.to_nat 6) (drop (Z.to_nat DataPtr) FlashBuf) = take 6 data).
  { unfold data. rewrite take_take. f_equal. lia. }
  rewrite E6. assert (H6 : length (take 6 data) = 6%nat) by (rewrite length_take; lia).
  rewrite wrn_0 by lia. rewrite H6. cbn [mbind option_bind]. split; [done|].
  split_and!; try done. cbn [MacAddress]. rewrite length_app, length_drop. unfold SIZEOF_EFI_MAC_ADDRESS. lia.
Qed.

(** ** The loop *)

Lemma tlv_loop_safe fuel FlashBuf End Pos Info :
  Forall byte_ok FlashBuf → End <= len FlashBuf → 0 <= Pos → End - Pos < 4 * Z.of_nat fuel + 4 → info_ok Info →
  ∃ Info', tlv_loop fuel FlashBuf End Pos Info = Some Info' ∧ info_ok Info'.
Proof.
  intros Hb He. revert Pos Info. induction fuel as [|fuel IH]; intros Pos Info HP Hf Hi; cbn [tlv_loop];
    unfold SIZEOF_RB_TLV_HEADER; destruct (Z.leb_spec (Pos + 4) End) as [Hle|]; eauto; [lia|].
  destruct (le16_is_Some FlashBuf Pos HP ltac:(lia)) as [Tag ->]. cbn [mbind option_bind].
  destruct (Tag =? RB_TAG_END); [eauto|]. cbv zeta.
  destruct (le16_is_Some FlashBuf (Pos + 2) ltac:(lia) ltac:(lia)) as [Length EL]. rewrite EL.
  cbn [mbind option_bind]. apply (le16_range _ _ _ Hb) in EL.
  destruct (Z.ltb_spec End (Pos + 4 + Length)); [eauto|].
  destruct (store_tag_spec FlashBuf Tag Length (Pos + 4) Info Hi ltac:(lia) ltac:(lia) ltac:(lia)) as [-> Hi'].
  cbn [mbind option_bind]. apply IH; [lia|lia|done].
Qed.

Lemma encode_tlv_length t : len (encode_tlv t) = 4 + len (tlv_data t).
Proof. unfold encode_tlv. rewrite !length_app, !length_le_bytes. lia. Qed.

Lemma tlv_loop_encode ts fuel pre rest Info :
  Forall tlv_ok ts → block_end rest → info_ok Info →
  len (mjoin (map encode_tlv ts) ++ rest) < 4 * Z.of_nat fuel + 4 →
  tlv_loop fuel (pre ++ mjoin (map encode_tlv ts) ++ rest)
    (len (pre ++ mjoin (map encode_tlv ts) ++ rest)) (len pre) Info = Some (foldl apply_tlv Info ts).
Proof.
  intros Hts Hend. revert fuel pre Info. induction Hts as [|t ts [Htag Hlen] Hts IH]; intros fuel pre Info Hi Hf.
  - cbn [map mjoin list_join app foldl]. cbn [map mjoin list_join app] in Hf. rewrite length_app.
    destruct fuel as [|fuel]; cbn [tlv_loop]; unfold SIZEOF_RB_TLV_HEADER;
      (destruct (Z.leb_spec (len pre + 4) (Z.of_nat (length pre + length rest))); [|done]); [lia|].
    destruct Hend as [?|Hend]; [lia|].
    assert (E : le16 (pre ++ rest) (len pre) = le16 rest 0) by (rewrite le16_app_r by lia; f_equal; lia).
    by rewrite E, Hend.
  - cbn [map mjoin list_join foldl]. cbn [map mjoin list_join] in Hf.
    set (tail := mjoin (map encode_tlv ts)) in *. rewrite !length_app in Hf.
    pose proof (encode_tlv_length t) as Hl.
    replace (pre ++ (encode_tlv t ++ tail) ++ rest) with ((pre ++ encode_tlv t) ++ tail ++ rest)
      by (by rewrite <- !app_assoc).
    destruct fuel as [|fuel]; cbn [tlv_loop]; unfold SIZEOF_RB_TLV_HEADER;
      rewrite (proj2 (Z.leb_le _ _)) by (rewrite !length_app; lia); [lia|].
    assert (E1 : le16 ((pre ++ encode_tlv t) ++ tail ++ rest) (len pre) = Some (tlv_tag t)).
    { unfold encode_tlv. rewrite <- !app_assoc. apply le16_encode. lia. }
    assert (E2 : le16 ((pre ++ encode_tlv t) ++ tail ++ rest) (len pre + 2) = Some (len (tlv_data t))).
    { unfold encode_tlv. rewrite <- !app_assoc, (app_assoc pre).
      replace (len pre + 2) with (len (pre ++ le_bytes 2 (tlv_tag t))) by (rewrite length_app, length_le_bytes; lia).
      apply le16_encode. lia. }
    rewrite E1. cbn [mbind option_bind]. unfold RB_TAG_END. rewrite (proj2 (Z.eqb_neq _ _)) by lia. cbv zeta.
    rewrite E2. cbn [mbind option_bind]. rewrite (proj2 (Z.ltb_ge _ _)) by (rewrite !length_app; lia).
    destruct (store_tag_spec ((pre ++ encode_tlv t) ++ tail ++ rest) (tlv_tag t) (len (tlv_data t)) (len pre + 4) Info
      Hi ltac:(lia) ltac:(lia) ltac:(rewrite !length_app; lia)) as [-> Hi'].
    assert (Ed : take (Z.to_nat (len (tlv_data t))) (drop (Z.to_nat (len pre + 4)) ((pre ++ encode_tlv t) ++ tail ++ rest)) = tlv_data t).
    { unfold encode_tlv. rewrite <- !app_assoc, (app_assoc pre), (app_assoc (pre ++ _)).
      replace (Z.to_nat (len pre + 4)) with (length ((pre ++ le_bytes 2 (tlv_tag t)) ++ le_bytes 2 (len (tlv_data t))))
        by (rewrite !length_app, !length_le_bytes; lia).
      rewrite drop_app_length, Nat2Z.id. apply take_app_length. }
    rewrite Ed in Hi' |- *. cbn [mbind option_bind].
    replace (len pre + 4 + len (tlv_data t)) with (len (pre ++ encode_tlv t)) by (rewrite length_app; lia).
    destruct t as [tag data]. cbn [tlv_tag tlv_data] in *. apply IH; [done|]. rewrite length_app. lia.
Qed.

Lemma cstr_app_nul d r : cstr (d ++ 0 :: r) = cstr d.
Proof. induction d as [|c d IH]; simpl; [done|]. by rewrite IH. Qed.

Lemma field_string Max old data : cstr (set_field Max old data) = cstr (take (Z.to_nat (Max - 1)) data).
Proof. apply cstr_app_nul. Qed.

Lemma later_name ts Info :
  Forall (λ t, tlv_tag t ≠ RB_TAG_BOARD_NAME) ts → BoardName (foldl apply_tlv Info ts) = BoardName Info.
Proof.
  intros Hts. revert Info. induction Hts as [|t ts Ht _ IH]; intros Info; [done|]. cbn [foldl]. rewrite IH.
  unfold apply_tlv. rewrite (proj2 (Z.eqb_neq _ _)) by done. by repeat case_match.
Qed.

Lemma later_mac ts Info :
  Forall (λ t, tlv_tag t ≠ RB_TAG_MAC) ts → MacAddress (foldl apply_tlv Info ts) = MacAddress Info.
Proof.
  intros Hts. revert Info. induction Hts as [|t ts Ht _ IH]; intros Info; [done|]. cbn [foldl]. rewrite IH.
  unfold apply_tlv. rewrite (proj2 (Z.eqb_neq _ RB_TAG_MAC)) by done. by repeat case_match.
Qed.

(** The address left by the last address record. *)
Lemma last_mac ts1 mac ts2 Info :
  Forall (λ t, tlv_tag t ≠ RB_TAG_MAC) ts2 → 6 <= len mac →
  take 6 (MacAddress (foldl apply_tlv Info (ts1 ++ mkTlv RB_TAG_MAC mac :: ts2))) = take 6 mac.
Proof.
  intros H2 Hlen. rewrite foldl_app. cbn [foldl]. rewrite later_mac by done.
  unfold apply_tlv at 1. cbn [tlv_tag tlv_data].
  change (RB_TAG_MAC =? RB_TAG_BOARD_NAME) with false. change (RB_TAG_MAC =? RB_TAG_BOARD_SERIAL) with false.
  rewrite Z.eqb_refl, (proj2 (Z.leb_le _ _)) by done. cbn [andb MacAddress].
  rewrite take_app_le by (rewrite length_take; lia). by rewrite take_take.
Qed.

Lemma parse_safe FlashBuf BufSize Info :
  Forall byte_ok FlashBuf → BufSize <= len FlashBuf → info_ok Info →
  ∃ Info', ParseTlvBlock FlashBuf BufSize Info = Some Info' ∧ info_ok Info'.
Proof.
  intros Hb HB Hi. unfold ParseTlvBlock. destruct (Z.ltb_spec BufSize 4); [eauto|].
  destruct (le32_is_Some FlashBuf 0 ltac:(lia) ltac:(lia)) as [Magic ->]. cbn [mbind option_bind].
  destruct (negb _); [eauto|]. apply tlv_loop_safe; try done. unfold SIZEOF_RB_TLV_HEADER.
  pose proof (Z.div_mod BufSize 4). pose proof (Z.mod_pos_bound BufSize 4).
  pose proof (Z.div_pos BufSize 4). lia.
Qed.

(** ** Properties *)

(** every flash content is parsed without a read or a write outside the block or
    the fields, and whatever it holds the two strings stay terminated within their
    arrays. *)
Theorem ParseTlvBlock_safe FlashBuf BufSize Info
  (Hb : Forall byte_ok FlashBuf) (HB : BufSize <= len FlashBuf) (Hi : info_ok Info) :
  ∃ Info', ParseTlvBlock FlashBuf BufSize Info = Some Info' ∧
    len (BoardName Info') = BOARD_NAME_MAX ∧ AsciiStrLen (BoardName Info') = Some (len (cstr (BoardName Info'))) ∧
    len (Serial Info') = SERIAL_MAX ∧ AsciiStrLen (Serial Info') = Some (len (cstr (Serial Info'))) ∧
    len (MacAddress Info') = SIZEOF_EFI_MAC_ADDRESS.
Proof.
  destruct (parse_safe FlashBuf BufSize Info Hb HB Hi) as (Info' & E & Hn & Hn0 & Hs & Hs0 & Hm).
  exists Info'. split_and!; auto using AsciiStrLen_cstr.
Qed.

Lemma parse_encoded ts rest Info :
  Forall tlv_ok ts → block_end rest → info_ok Info →
  ParseTlvBlock (encode_block ts rest) (len (encode_block ts rest)) Info = Some (foldl apply_tlv Info ts).
Proof.
  intros Hts Hrest Hi.
  unfold ParseTlvBlock, encode_block. rewrite (proj2 (Z.ltb_ge _ _)) by (rewrite length_app, length_le_bytes; lia).
  assert (EM : le32 (le_bytes 4 BOARD_INFO_MAGIC ++ mjoin (map encode_tlv ts) ++ rest) 0 = Some BOARD_INFO_MAGIC)
    by (by apply (le32_encode [])).
  rewrite EM. cbn [mbind option_bind].
  rewrite Z.eqb_refl. cbn [negb]. 
  match goal with |- tlv_loop ?f ?b ?e 4 ?i = ?r =>
    change (tlv_loop f b e (len (le_bytes 4 BOARD_INFO_MAGIC)) i = r) end.
  apply tlv_loop_encode; try done. rewrite !length_app, length_le_bytes. unfold SIZEOF_RB_TLV_HEADER.
  set (n := (length (mjoin (map encode_tlv ts)) + length rest)%nat).
  pose proof (Z.div_mod (Z.of_nat (4 + n)) 4). pose proof (Z.mod_pos_bound (Z.of_nat (4 + n)) 4).
  pose proof (Z.div_pos (Z.of_nat (4 + n)) 4). lia.
Qed.

(** C28: a block written from any list of records comes back as their effects in
    order, whatever follows its end; the board name reported is the last name
    record's, cut to the 63 characters that fit. *)
Theorem ParseTlvBlock_roundtrip ts rest Info
  (Hts : Forall tlv_ok ts) (Hrest : block_end rest) (Hi : info_ok Info) :
  ParseTlvBlock (encode_block ts rest) (len (encode_block ts rest)) Info = Some (foldl apply_tlv Info ts) ∧
  ∀ ts1 name ts2, ts = ts1 ++ mkTlv RB_TAG_BOARD_NAME name :: ts2 →
    Forall (λ t, tlv_tag t ≠ RB_TAG_BOARD_NAME) ts2 →
    cstr (BoardName (foldl apply_tlv Info ts)) = cstr (take 63 name).
Proof.
  split; [by apply parse_encoded|].
  intros ts1 name ts2 -> H2. rewrite foldl_app. cbn [foldl]. rewrite later_name by done.
  unfold apply_tlv at 1. cbn [tlv_tag]. rewrite Z.eqb_refl. apply field_string.
Qed.

Section Entry.
Context {H : Type} `{NorLaws H}.

Lemma Entry_run Located InstallStatus (h : H) p (Hready : nor_ready h = true) :
  ∃ st Info h' p', BoardInfoDxeEntry Located InstallStatus h p = Some (st, Info, h', p') ∧
    EFI_ERROR st = EFI_ERROR InstallStatus ∧ info_ok Info ∧ same_mem h h' ∧ pool_live p' = pool_live p ∧
    (EFI_ERROR Located = true ∨ (AllocatePool p).1 = false → Info = default_info ∧ h' = h) ∧
    (EFI_ERROR Located = false → (AllocatePool p).1 = true → flawless (H := H) →
       ParseTlvBlock (nor_bytes (nor_mem h) BOARD_INFO_FLASH_OFFSET 4096) BOARD_INFO_READ_SIZE default_info = Some Info).
Proof.
  assert (Hst : ∀ s, EFI_ERROR (if EFI_ERROR s then s else EFI_SUCCESS) = EFI_ERROR s).
  { intros s. by destruct (EFI_ERROR s) eqn:E. }
  assert (Hrefl : same_mem h h) by done.
  unfold BoardInfoDxeEntry. destruct (EFI_ERROR Located) eqn:EL.
  { eexists _, _, _, _. split; [reflexivity|]. split_and!; auto using default_info_ok. done. }
  destruct (AllocatePool p) as [ok p1] eqn:EA. pose proof (AllocatePool_live _ _ _ EA) as LA.
  destruct ok; cbn [negb].
  2:{ eexists _, _, _, _. split; [reflexivity|]. split_and!; auto using default_info_ok; [lia|done]. }
  destruct (ReadData_run h BOARD_INFO_FLASH_OFFSET BOARD_INFO_READ_SIZE ltac:(done) ltac:(done) ltac:(done))
    as (st & bytes & h' & E & Hm & _ & Hst2 & Hbytes & Hfl). rewrite E. cbn [mbind option_bind].
  destruct (EFI_ERROR st) eqn:Est.
  { eexists _, _, _, _. split; [reflexivity|].
    split_and!; auto using default_info_ok; [simpl; lia|by intros [?|?]|].
    intros _ _ Hf. by rewrite (Hfl Hf) in Est. }
  assert (Hs : st = EFI_SUCCESS) by (destruct Hst2 as [->| ->]; done). subst st.
  assert (HB : bytes = nor_bytes (nor_mem h) BOARD_INFO_FLASH_OFFSET 4096) by (by apply Hbytes).
  destruct (parse_safe bytes BOARD_INFO_READ_SIZE default_info) as (Info & EP & Hi).
  { rewrite HB. apply list.Forall_forall. intros x [y [-> _]]%list_elem_of_fmap. apply nor_mem_bytes. }
  { rewrite HB. unfold nor_bytes. rewrite length_map, length_seqZ. done. }
  { exact default_info_ok. }
  rewrite EP. cbn [mbind option_bind]. eexists _, Info, _, _. split; [reflexivity|].
  split_and!; auto; [simpl; lia|by intros [?|?]|]. intros _ _ _. by rewrite <- HB.
Qed.

(** the entry point always installs a well-formed instance and returns the pool as it was.
    On a flash that is ready, with the driver found, memory left and a reliable
    device, the instance is the parse of the 4096 bytes of the chip at 0xB0000; when
    the driver is missing or memory runs out it is the defaults. *)
Theorem Entry_reads_flash Located InstallStatus (h : H) p (Hready : nor_ready h = true) :
  ∃ st Info h' p', BoardInfoDxeEntry Located InstallStatus h p = Some (st, Info, h', p') ∧
    EFI_ERROR st = EFI_ERROR InstallStatus ∧ info_ok Info ∧ same_mem h h' ∧ pool_live p' = pool_live p ∧
    (EFI_ERROR Located = true ∨ (AllocatePool p).1 = false → Info = default_info ∧ h' = h) ∧
    (EFI_ERROR Located = false → (AllocatePool p).1 = true → flawless (H := H) →
       ParseTlvBlock (nor_bytes (nor_mem h) BOARD_INFO_FLASH_OFFSET 4096) BOARD_INFO_READ_SIZE default_info = Some Info).
Proof. by apply Entry_run. Qed.
End Entry.

(** ** Witnesses *)

Definition demo_tlvs : list tlv :=
  [mkTlv RB_TAG_BOARD_NAME [65; 66]; mkTlv RB_TAG_MAC [1; 2; 3; 4; 5; 6]; mkTlv 0x1234 []; mkTlv RB_TAG_BOARD_NAME [67]].
Definition demo_block : list Z := encode_block demo_tlvs [0; 0; 9; 9; 7].

Lemma demo_tlvs_ok : Forall tlv_ok demo_tlvs.
Proof. repeat constructor; simpl; lia. Qed.

Lemma ParseTlvBlock_roundtrip_witness :
  option_map (λ i, (take 4 (BoardName i), take 7 (MacAddress i)))
    (ParseTlvBlock demo_block (len demo_block) default_info) = Some ([67; 0; 0; 116], [1; 2; 3; 4; 5; 6; 0]) ∧
  ParseTlvBlock demo_block (len demo_block) default_info = Some (foldl apply_tlv default_info demo_tlvs) ∧
  cstr (BoardName (foldl apply_tlv default_info demo_tlvs)) = cstr (take 63 [67]).
Proof.
  split; [vm_compute; reflexivity|].
  destruct (ParseTlvBlock_roundtrip demo_tlvs [0; 0; 9; 9; 7] default_info demo_tlvs_ok (or_intror eq_refl) default_info_ok)
    as [Hparse Hname].
  split; [exact Hparse|]. exact (Hname (take 3 demo_tlvs) [67] [] eq_refl (Forall_nil_2 _)).
Defined.

(** A record that claims more than the block holds ends the parse. *)
Definition cut_block : list Z := take 20 demo_block.

Lemma ParseTlvBlock_safe_witness :
  ∃ Info', ParseTlvBlock cut_block 20 default_info = Some Info' ∧
    len (BoardName Info') = BOARD_NAME_MAX ∧ AsciiStrLen (BoardName Info') = Some (len (cstr (BoardName Info'))) ∧
    len (Serial Info') = SERIAL_MAX ∧ AsciiStrLen (Serial Info') = Some (len (cstr (Serial Info'))) ∧
    len (MacAddress Info') = SIZEOF_EFI_MAC_ADDRESS.
Proof.
  apply (ParseTlvBlock_safe cut_block 20 default_info); [by apply bytes_okb_spec|done|exact default_info_ok].
Defined.

Definition demo_flash : Nor unit := mkChip (λ x, default 0 (rd demo_block (x - BOARD_INFO_FLASH_OFFSET))) false false tt.

Lemma Entry_reads_flash_witness :
  ∃ st Info h' p', BoardInfoDxeEntry EFI_SUCCESS EFI_SUCCESS demo_flash (mkPool [] 2) = Some (st, Info, h', p') ∧
    EFI_ERROR st = false ∧ info_ok Info ∧ pool_live p' = 2 ∧
    ParseTlvBlock (nor_bytes (nor_mem demo_flash) BOARD_INFO_FLASH_OFFSET 4096) BOARD_INFO_READ_SIZE default_info = Some Info.
Proof.
  destruct (Entry_reads_flash (H := Nor unit) (H0 := SimSpi) (H1 := SimNorLaws) EFI_SUCCESS EFI_SUCCESS demo_flash (mkPool [] 2) eq_refl)
    as (st & Info & h' & p' & E & Hst & Hi & _ & Hp & _ & Hparse).
  exists st, Info, h', p'. split; [exact E|].
  exact (conj Hst (conj Hi (conj Hp (Hparse eq_refl eq_refl sim_flawless)))).
Defined.
