(* ===== verification/DtPatch.v ===== *)
(** * The device tree driver

    Drivers/DtPatchDxe: loads the platform's device tree, writes the board's MAC
    address into its root node and installs it as the configuration table that
    the RouterOS loader later extends. The address comes from the board
    information driver, which reads it from the boot flash. *)

From Stdlib Require Import String.
From S2P Require Import Prelude Efi Fdt Spi SpiNor BoardInfo RouterOS.

#[local] Open Scope string_scope.
#[local] Open Scope Z_scope.

(** What DtPlatformLoadDtb answers: the blob is [None] for NULL and is an
    allocation of the caller's otherwise. *)
Record LOADED_DTB (T : Type) := mkLoaded { LoadStatus : EFI_STATUS; Dtb : option T; DtbSize : Z }.
Arguments mkLoaded {T}.
Arguments LoadStatus {T}.
Arguments Dtb {T}.
Arguments DtbSize {T}.

Section DtPatch.
Context {T : Type} `{Fdt T} (gFdtTableGuid : EFI_GUID).
Implicit Types env : BOOT_ENV T.

(** An error of FdtSetProp is only reported. *)
Definition PatchMacAddress (t : T) (MacAddr : list Z) : option T :=
  Addr ← rdn MacAddr 0 6;
  let '(Err, t) := FdtSetProp t 0 "mac-address" Addr in Some t.

(** [BoardInfo] is what LocateProtocol answers; the pool is the one after the load. *)
Definition DtPatchDxeEntryPoint (Loaded : LOADED_DTB T) (BoardInfo : EFI_STATUS * BOARD_INFO_INSTANCE)
    (InstallStatus : EFI_STATUS) env (p : Pool) : option (EFI_STATUS * BOOT_ENV T * Pool) :=
  match Dtb Loaded with
  | None => Some (LoadStatus Loaded, env, p)
  | Some blob =>
      if EFI_ERROR (LoadStatus Loaded) then Some (LoadStatus Loaded, env, p)
      else
        let PatchedSize := DtbSize Loaded +u64 256 in
        let '(ok, p) := AllocatePool p in
        if negb ok then Some (EFI_OUT_OF_RESOURCES, env, FreePool p)
        else
          let '(Err, PatchedDtb) := FdtOpenInto blob (s32 PatchedSize) in
          if negb (Err =? 0) then Some (EFI_DEVICE_ERROR, env, FreePool (FreePool p))
          else
            let p := FreePool p in
            let '(Status, Instance) := BoardInfo in
            PatchedDtb ←
              (if negb (EFI_ERROR Status) then
                 let '(Status, MacAddr) := BoardInfoGetMacAddress Instance true in
                 if negb (EFI_ERROR Status) then MacAddr ← MacAddr; PatchMacAddress PatchedDtb MacAddr
                 else Some PatchedDtb
               else Some PatchedDtb);
            let '(_, PatchedDtb) := FdtPack PatchedDtb in
            if EFI_ERROR InstallStatus then Some (InstallStatus, env, FreePool p)
            else Some (EFI_SUCCESS, mkEnv (install_table gFdtTableGuid PatchedDtb (ConfigurationTable env)) (events env), p)
  end.
End DtPatch.

(** ** Properties *)

Section Theorems.
Context {T : Type} `{FdtLaws T} (gFdtTableGuid : EFI_GUID).
Implicit Types env : BOOT_ENV T.

(** The tree [t'] is [t] with [mac] in the root node. *)
Definition carries_mac (t t' : T) (mac : list Z) : Prop :=
  fdt_prop t' "/" "mac-address" = Some mac ∧
  ∀ path q, ~ (path = "/" ∧ q = "mac-address") → fdt_prop t' path q = fdt_prop t path q.

(** What the entry point installs in place of [t]. *)
Definition patched (t t1 t' : T) (BoardInfo : EFI_STATUS * BOARD_INFO_INSTANCE) : Prop :=
  let mac := take 6 (MacAddress BoardInfo.2) in
  if EFI_ERROR BoardInfo.1 then ∀ path q, fdt_prop t' path q = fdt_prop t path q
  else (FdtSetProp t1 0 "mac-address" mac).1 = 0 → carries_mac t t' mac.

Lemma Entry_spec blob size Status Info InstallStatus env p (Hinfo : info_ok Info) :
  let '(Err, t1) := FdtOpenInto blob (s32 (size +u64 256)) in
  ∃ st env' p', DtPatchDxeEntryPoint gFdtTableGuid (mkLoaded EFI_SUCCESS (Some blob) size) (Status, Info)
      InstallStatus env p = Some (st, env', p') ∧
    if (AllocatePool p).1 && (Err =? 0) && negb (EFI_ERROR InstallStatus)
    then st = EFI_SUCCESS ∧ pool_live p' = pool_live p ∧ events env' = events env ∧
      ∃ t', FindInstalledDtb gFdtTableGuid (ConfigurationTable env') = Some t' ∧ patched blob t1 t' (Status, Info)
    else EFI_ERROR st = true ∧ env' = env ∧ pool_live p' = pool_live p - 1.
Proof.
  destruct (FdtOpenInto blob _) as [Err t1] eqn:E1. unfold DtPatchDxeEntryPoint. cbn [Dtb LoadStatus DtbSize EFI_ERROR].
  destruct (AllocatePool p) as [ok p1] eqn:EA. pose proof (AllocatePool_live _ _ _ EA) as LA.
  destruct ok; cbn [negb andb fst].
  2:{ eexists _, _, _. split; [reflexivity|]. split_and!; [done..|simpl; lia]. }
  rewrite E1. destruct (Z.eqb_spec Err 0) as [->|]; cbn [negb andb].
  2:{ eexists _, _, _. split; [reflexivity|]. split_and!; [done..|simpl; lia]. }
  pose proof (open_spec _ _ _ E1) as P1. destruct Hinfo as (_ & _ & _ & _ & Hmac). unfold SIZEOF_EFI_MAC_ADDRESS in Hmac.
  assert (HM : ∃ t2, (if negb (EFI_ERROR Status) then
      let '(Status, MacAddr) := BoardInfoGetMacAddress Info true in
      if negb (EFI_ERROR Status) then MacAddr ← MacAddr; PatchMacAddress t1 MacAddr else Some t1
      else Some t1) = Some t2 ∧ patched blob t1 t2 (Status, Info)).
  { unfold patched. cbn [fst snd]. destruct (EFI_ERROR Status); cbn [negb]; [eauto|].
    cbn [BoardInfoGetMacAddress negb EFI_ERROR mbind option_bind]. unfold PatchMacAddress.
    rewrite rdn_eq by lia. rewrite drop_0. cbn [mbind option_bind]. change (Z.to_nat 6) with 6%nat.
    destruct (FdtSetProp t1 0 _ _) as [Err2 t2] eqn:E2. eexists. split; [done|]. cbn [fst]. intros ->.
    destruct (set_prop_spec _ _ _ _ _ _ (root_at t1) E2) as [_ G]. split.
    - by rewrite G, decide_True.
    - intros path q Hn. by rewrite G, decide_False, P1. }
  destruct HM as (t2 & -> & Hp). cbn [mbind option_bind].
  destruct (FdtPack t2) as [Err3 t3] eqn:E3.
  assert (P3 : ∀ path q, fdt_prop t3 path q = fdt_prop t2 path q) by (intros; by rewrite <- (pack_spec t2), E3).
  destruct (EFI_ERROR InstallStatus) eqn:EI; cbn [negb];
    (eexists _, _, _; split; [reflexivity|]; split_and!; try done; try (simpl; lia)).
  exists t3. cbn [ConfigurationTable]. rewrite installed_table. split; [done|].
  unfold patched in *. cbn [fst snd] in *. destruct (EFI_ERROR Status); [intros; by rewrite P3|].
  intros Hs. destruct (Hp Hs) as [G1 G2]. split; [by rewrite P3|]. intros path q Hn. by rewrite P3, G2.
Qed.

(** every branch of the entry point: a failure installs nothing and gives back both
    buffers; success leaves one buffer, the installed tree, which differs from the
    platform's in the root's mac-address at most. A load that succeeds without a
    blob returns success with nothing installed. *)
Theorem DtPatchEntry_exact Loaded BoardInfo InstallStatus env p (Hinfo : info_ok BoardInfo.2) :
  ∃ st env' p', DtPatchDxeEntryPoint gFdtTableGuid Loaded BoardInfo InstallStatus env p = Some (st, env', p') ∧
    match Dtb Loaded with
    | None => st = LoadStatus Loaded ∧ env' = env ∧ p' = p
    | Some blob =>
        if EFI_ERROR (LoadStatus Loaded) then st = LoadStatus Loaded ∧ env' = env ∧ p' = p
        else
          let '(Err, t1) := FdtOpenInto blob (s32 (DtbSize Loaded +u64 256)) in
          if (AllocatePool p).1 && (Err =? 0) && negb (EFI_ERROR InstallStatus)
          then st = EFI_SUCCESS ∧ pool_live p' = pool_live p ∧ events env' = events env ∧
            ∃ t', FindInstalledDtb gFdtTableGuid (ConfigurationTable env') = Some t' ∧ patched blob t1 t' BoardInfo
          else EFI_ERROR st = true ∧ env' = env ∧ pool_live p' = pool_live p - 1
    end.
Proof.
  destruct Loaded as [ls [blob|] size]; cbn [Dtb LoadStatus DtbSize]; [|by eexists _, _, _].
  destruct (EFI_ERROR ls) eqn:EL.
  { unfold DtPatchDxeEntryPoint. cbn [Dtb LoadStatus]. rewrite EL. by eexists _, _, _. }
  destruct BoardInfo as [Status Info].
  pose proof (Entry_spec blob size Status Info InstallStatus env p Hinfo) as HE.
  destruct (FdtOpenInto _ _) as [Err t1]. destruct HE as (st & env' & p' & E & HE). exists st, env', p'.
  split; [|exact HE]. rewrite <- E. unfold DtPatchDxeEntryPoint. cbn [Dtb LoadStatus DtbSize]. by rewrite EL.
Qed.

(** C16: the board's address, from the flash to the kernel: when the chip holds at
    0xB0000 a block whose last address record is [mac], the SPI NOR driver answers
    and the tree has room, the instance the board information driver installs
    makes this driver install a tree whose root carries [mac]; the tree the
    RouterOS loader then makes of it, for any initrd, still carries it. *)
Theorem mac_reaches_kernel {C : Type} `{NorLaws C} (chip : C) q ts1 mac ts2 rest
    blob size InstallStatus env p
  (Hready : nor_ready chip = true) (Hreliable : flawless (H := C)) (Hplenty : pool_plenty q)
  (Hflash : nor_bytes (nor_mem chip) BOARD_INFO_FLASH_OFFSET 4096
     = encode_block (ts1 ++ mkTlv RB_TAG_MAC mac :: ts2)%list rest)
  (Hts : Forall tlv_ok (ts1 ++ mkTlv RB_TAG_MAC mac :: ts2)%list) (Hrest : block_end rest)
  (Hlast : Forall (λ t, tlv_tag t ≠ RB_TAG_MAC) ts2) (Hmac : 6 <= len mac)
  (Halloc : (AllocatePool p).1 = true) (Hopen : (FdtOpenInto blob (s32 (size +u64 256))).1 = 0)
  (Hroom : ∀ t1, FdtOpenInto blob (s32 (size +u64 256)) = (0, t1) → (FdtSetProp t1 0 "mac-address" (take 6 mac)).1 = 0)
  (Hinstall : EFI_ERROR InstallStatus = false) :
  ∃ Info chip' q' env1 p1 t1,
    BoardInfoDxeEntry EFI_SUCCESS EFI_SUCCESS chip q = Some (EFI_SUCCESS, Info, chip', q') ∧
    DtPatchDxeEntryPoint gFdtTableGuid (mkLoaded EFI_SUCCESS (Some blob) size) (EFI_SUCCESS, Info) InstallStatus env p
      = Some (EFI_SUCCESS, env1, p1) ∧
    FindInstalledDtb gFdtTableGuid (ConfigurationTable env1) = Some t1 ∧ carries_mac blob t1 (take 6 mac) ∧
    ∀ bs s e p2 env2 p3, PatchDtbInitrd gFdtTableGuid bs s e env1 p2 = (EFI_SUCCESS, env2, p3) →
      ∃ t2, FindInstalledDtb gFdtTableGuid (ConfigurationTable env2) = Some t2 ∧ tells_initrd t1 t2 s e ∧
        fdt_prop t2 "/" "mac-address" = Some (take 6 mac).
Proof.
  destruct (Entry_run EFI_SUCCESS EFI_SUCCESS chip q Hready) as (st & Info & chip' & q' & E & Hst & Hi & _ & _ & _ & HP).
  rewrite AllocatePool_plenty in HP by done. specialize (HP eq_refl eq_refl Hreliable).
  assert (HL : BOARD_INFO_READ_SIZE = len (encode_block (ts1 ++ mkTlv RB_TAG_MAC mac :: ts2)%list rest)).
  { rewrite <- Hflash. unfold nor_bytes. by rewrite length_map, length_seqZ. }
  rewrite Hflash, HL, parse_encoded in HP by auto using default_info_ok. injection HP as HP.
  assert (HM : take 6 (MacAddress Info) = take 6 mac) by (rewrite <- HP; by apply last_mac).
  assert (Hs : st = EFI_SUCCESS).
  { unfold BoardInfoDxeEntry in E. cbn [EFI_ERROR] in E. by repeat (case_match || simplify_option_eq). }
  subst st. pose proof (Entry_spec blob size EFI_SUCCESS Info InstallStatus env p Hi) as HE.
  destruct (FdtOpenInto _ _) as [Err t0] eqn:EO. cbn [fst] in Hopen. subst Err. destruct HE as (st & env1 & p1 & E1 & HE).
  rewrite Halloc, Hinstall in HE. cbn [Z.eqb andb negb] in HE.
  destruct HE as (-> & _ & _ & t1 & Ht1 & Hp). unfold patched in Hp. cbn [fst snd EFI_ERROR] in Hp.
  rewrite HM in Hp. pose proof (Hp (Hroom t0 eq_refl)) as Hc.
  exists Info, chip', q', env1, p1, t1. split_and!; [done..|exact Hc|].
  intros bs s e p2 env2 p3 EP. destruct (PatchDtb_spec _ _ _ _ _ _ _ _ _ EP) as [_ [[He _]|(_ & _ & t & t2 & Ht & Htab & Htell)]].
  { done. }
  rewrite Ht1 in Ht. injection Ht as <-. exists t2. rewrite Htab, installed_table. split_and!; try done.
  destruct Htell as (_ & _ & Hother). rewrite Hother by (intros [? _]; discriminate). apply Hc.
Qed.
End Theorems.

(** ** A board *)

Definition dt_blob : SimDt := mkDt true 100 [("model", [1])] [].
Definition dt_rest : list Z := ([0; 0; 9; 9; 7] ++ replicate 4062 0)%list.

Lemma DtPatchEntry_exact_witness :
  ∃ st env' p', DtPatchDxeEntryPoint demo_guid (mkLoaded EFI_SUCCESS (Some dt_blob) 100) (EFI_SUCCESS, default_info)
      EFI_SUCCESS (mkEnv [] []) (mkPool [] 1) = Some (st, env', p') ∧
    st = EFI_SUCCESS ∧ pool_live p' = 1 ∧ events env' = [] ∧
    ∃ t', FindInstalledDtb demo_guid (ConfigurationTable env') = Some t' ∧
      patched dt_blob (mkDt true 356 [("model", [1])] []) t' (EFI_SUCCESS, default_info).
Proof.
  exact (DtPatchEntry_exact (T := SimDt) (H := sim_fdt) (H0 := sim_fdt_laws) demo_guid
    (mkLoaded EFI_SUCCESS (Some dt_blob) 100) (EFI_SUCCESS, default_info) EFI_SUCCESS (mkEnv [] []) (mkPool [] 1)
    default_info_ok).
Defined.

Lemma mac_reaches_kernel_witness :
  ∃ Info chip' q' env1 p1 t1,
    BoardInfoDxeEntry EFI_SUCCESS EFI_SUCCESS demo_flash (mkPool [] 0) = Some (EFI_SUCCESS, Info, chip', q') ∧
    DtPatchDxeEntryPoint demo_guid (mkLoaded EFI_SUCCESS (Some dt_blob) 100) (EFI_SUCCESS, Info) EFI_SUCCESS
      (mkEnv [] []) (mkPool [] 1) = Some (EFI_SUCCESS, env1, p1) ∧
    FindInstalledDtb demo_guid (ConfigurationTable env1) = Some t1 ∧ carries_mac dt_blob t1 [1; 2; 3; 4; 5; 6] ∧
    ∀ bs s e p2 env2 p3, PatchDtbInitrd demo_guid bs s e env1 p2 = (EFI_SUCCESS, env2, p3) →
      ∃ t2, FindInstalledDtb demo_guid (ConfigurationTable env2) = Some t2 ∧ tells_initrd t1 t2 s e ∧
        fdt_prop t2 "/" "mac-address" = Some [1; 2; 3; 4; 5; 6].
Proof.
  assert (Hflash : nor_bytes (nor_mem demo_flash) BOARD_INFO_FLASH_OFFSET 4096
    = encode_block (take 1 demo_tlvs ++ mkTlv RB_TAG_MAC [1; 2; 3; 4; 5; 6] :: drop 2 demo_tlvs)%list dt_rest)
    by (vm_compute; reflexivity).
  assert (Hroom : ∀ t1, FdtOpenInto dt_blob (s32 (100 +u64 256)) = (0, t1) →
    (FdtSetProp t1 0 "mac-address" (take 6 [1; 2; 3; 4; 5; 6])).1 = 0)
    by (intros t1 E; vm_compute in E; injection E as <-; reflexivity).
  assert (Hlast : Forall (λ t, tlv_tag t ≠ RB_TAG_MAC) (drop 2 demo_tlvs)) by (repeat constructor; discriminate).
  assert (Hopen : (FdtOpenInto dt_blob (s32 (100 +u64 256))).1 = 0) by (vm_compute; reflexivity).
  assert (Hrest : block_end dt_rest) by (right; vm_compute; reflexivity).
  pose proof (mac_reaches_kernel (T := SimDt) (H := sim_fdt) (H0 := sim_fdt_laws) (H1 := SimSpi) (H2 := SimNorLaws)
    demo_guid demo_flash (mkPool [] 0) (take 1 demo_tlvs) [1; 2; 3; 4; 5; 6] (drop 2 demo_tlvs) dt_rest
    dt_blob 100 EFI_SUCCESS (mkEnv [] []) (mkPool [] 1)
    eq_refl sim_flawless eq_refl Hflash demo_tlvs_ok Hrest Hlast ltac:(done) eq_refl Hopen Hroom eq_refl) as HM.
  exact HM.
Defined.
