(* ===== verification/Udma.v ===== *)
(** * The UDMA queues of the Alpine HAL

    Library/AlpineHalLib: the queues of the DMA engine (al_hal_udma.h,
    al_hal_udma_main.c) and the Ethernet data path on them (al_hal_eth_main.c:
    preparing packets, adding receive buffers, fetching completions). The rest of
    the HAL is a parameter of its clients.

    The rings are in memory that the engine shares: [Words] are its aligned 32-bit
    words by address; what is not in the map is not mapped and faults. The code is
    compiled for a little-endian processor, so [swap32_to_le] is the identity. The
    registers are reached through [Mmio]. A failing [al_assert] is a fault. *)

From S2P Require Import Prelude Efi.

(** ** Memory shared with the engine *)

Definition Words := gmap Z Z.

Definition ld32 (m : Words) (a : Z) : option Z := m !! a.
Definition st32 (m : Words) (a v : Z) : option Words := _ ← m !! a; Some (<[a := v]> m).
Definition ld64 (m : Words) (a : Z) : option Z :=
  lo ← ld32 m a; hi ← ld32 m (a + 4); Some (Z.lor lo (Z.shiftl hi 32)).
Definition st64 (m : Words) (a v : Z) : option Words :=
  m ← st32 m a (u32 v); st32 m (a + 4) (u32 (Z.shiftr v 32)).

(** ** Constants *)

Definition EPERM : Z := 1.
Definition EIO : Z := 5.
Definition EINVAL : Z := 22.
Definition ENOSPC : Z := 28.
Definition ETIME : Z := 62.
Definition AL_BIT (b : Z) : Z := Z.shiftl 1 b.
Definition AL_ADDR_LOW (x : Z) : Z := u32 x.
Definition AL_ADDR_HIGH (x : Z) : Z := u32 (Z.shiftr (Z.shiftr x 16) 16).

Definition AL_UDMA_MAX_NUM_CDESC_PER_CACHE_LINE : Z := 16.
Definition AL_UDMA_MIN_Q_SIZE : Z := 32.
Definition AL_UDMA_MAX_Q_SIZE : Z := Z.shiftl 1 16.
Definition AL_UDMA_Q_QUIESCE_TOUT : Z := 10000.
Definition AL_UDMA_INITIAL_RING_ID : Z := 1.
Definition DMA_RING_ID_MASK : Z := 0x3.
Definition AL_UDMA_Q_FLAGS_NO_COMP_UPDATE : Z := AL_BIT 1.
Definition AL_M2S_DESC_CONCAT : Z := AL_BIT 31.
Definition AL_M2S_DESC_NO_SNOOP_H : Z := AL_BIT 29.
Definition AL_M2S_DESC_INT_EN : Z := AL_BIT 28.
Definition AL_M2S_DESC_LAST : Z := AL_BIT 27.
Definition AL_M2S_DESC_FIRST : Z := AL_BIT 26.
Definition AL_M2S_DESC_RING_ID_SHIFT : Z := 24.
Definition AL_M2S_DESC_RING_ID_MASK : Z := Z.shiftl 0x3 24.
Definition AL_M2S_DESC_LEN_MASK : Z := 0xffff.
Definition AL_S2M_DESC_DUAL_BUF : Z := AL_BIT 31.
Definition AL_S2M_DESC_RING_ID_SHIFT : Z := 24.
Definition AL_S2M_DESC_LEN_MASK : Z := 0xffff.
Definition AL_S2M_DESC_LEN2_SHIFT : Z := 16.
Definition AL_S2M_DESC_LEN2_MASK : Z := Z.shiftl 0x3fff 16.
Definition AL_S2M_DESC_LEN2_GRANULARITY_SHIFT : Z := 6.
Definition AL_S2M_DESC_ERR : Z := AL_BIT 16.
Definition AL_UDMA_DESC_TGTID_SHIFT : Z := 48.
Definition AL_UDMA_CDESC_ERROR : Z := AL_BIT 31.
Definition AL_UDMA_CDESC_BUF1_USED : Z := AL_BIT 30.
Definition AL_UDMA_CDESC_LAST : Z := AL_BIT 27.
Definition AL_UDMA_CDESC_FIRST : Z := AL_BIT 26.
Definition AL_UDMA_CDESC_BUF2_USED : Z := AL_BIT 31.

(** Registers of a queue, from its base: struct udma_rings_regs, udma_m2s_q and
    udma_s2m_q; and of an S2M engine, from its base. *)
Definition rings_cfg : Z := 0x20.
Definition rings_status : Z := 0x24.
Definition rings_drbp_low : Z := 0x28.
Definition rings_drbp_high : Z := 0x2c.
Definition rings_drl : Z := 0x30.
Definition rings_drtp_inc : Z := 0x38.
Definition rings_dcp : Z := 0x40.
Definition rings_crbp_low : Z := 0x44.
Definition rings_crbp_high : Z := 0x48.
Definition rings_crhp : Z := 0x4c.
Definition m2s_q_rlimit_mask : Z := 0x60 + 0x14.
Definition m2s_q_comp_cfg : Z := 0xa0.
Definition m2s_q_sw_ctrl : Z := 0xb0.
Definition s2m_q_comp_cfg : Z := 0x54.
Definition s2m_q_comp_cfg_2 : Z := 0x58.
Definition s2m_q_sw_ctrl : Z := 0x64.
Definition s2m_comp_cfg_1c : Z := 0x380.
Definition UDMA_M2S_Q_CFG_EN_PREF : Z := Z.shiftl 1 16.
Definition UDMA_M2S_Q_CFG_EN_SCHEDULING : Z := Z.shiftl 1 17.
Definition UDMA_M2S_Q_STATUS_PREFETCH : Z := Z.shiftl 1 28.
Definition UDMA_M2S_Q_STATUS_SCHEDULER : Z := Z.shiftl 1 29.
Definition UDMA_M2S_Q_TDRBP_LOW_ADDR_MASK : Z := 0xFFFFFFC0.
Definition UDMA_M2S_Q_TCRBP_LOW_ADDR_MASK : Z := 0xFFFFFFC0.
Definition UDMA_M2S_Q_RATE_LIMIT_MASK_INTERNAL_PAUSE_DMB : Z := Z.shiftl 1 2.
Definition UDMA_M2S_Q_COMP_CFG_EN_COMP_RING_UPDATE : Z := Z.shiftl 1 0.
Definition UDMA_M2S_Q_COMP_CFG_DIS_COMP_COAL : Z := Z.shiftl 1 1.
Definition UDMA_S2M_Q_COMP_CFG_DIS_COMP_COAL : Z := Z.shiftl 1 1.
Definition UDMA_M2S_Q_SW_CTRL_RST_Q : Z := Z.shiftl 1 8.
Definition UDMA_S2M_COMP_CFG_1C_DESC_SIZE_MASK : Z := 0x0000000F.

(** ** Queues *)

Inductive al_udma_type := UDMA_TX | UDMA_RX.
#[export] Instance al_udma_type_eq_dec : EqDecision al_udma_type.
Proof. solve_decision. Defined.

(** 0 is what a cleared structure holds. *)
Inductive al_udma_queue_status := AL_QUEUE_UNSET | AL_QUEUE_DISABLED | AL_QUEUE_ENABLED | AL_QUEUE_ABORTED.
#[export] Instance al_udma_queue_status_eq_dec : EqDecision al_udma_queue_status.
Proof. solve_decision. Defined.

Record al_udma_q := mkQ {
  size_mask : Z;          (* uint16_t *)
  q_regs : Z;
  desc_base_ptr : Z;
  next_desc_idx : Z;      (* uint16_t *)
  desc_ring_id : Z;
  cdesc_base_ptr : Z;
  cdesc_size : Z;
  next_cdesc_idx : Z;     (* uint16_t *)
  end_cdesc_ptr : Z;
  comp_head_idx : Z;      (* uint16_t *)
  comp_head_ptr : Z;
  pkt_crnt_descs : Z;
  comp_ring_id : Z;
  desc_phy_base : Z;
  cdesc_phy_base : Z;
  q_flags : Z;
  q_size : Z;
  q_status : al_udma_queue_status;
  qid : Z;
  q_rev_id : Z            (* adapter_rev_id *)
}.

Record al_udma_q_params := mkQParams {
  p_size : Z;
  p_desc_base : Z;
  p_desc_phy_base : Z;
  p_cdesc_base : Z;
  p_cdesc_phy_base : Z;
  p_cdesc_size : Z;
  p_adapter_rev_id : Z
}.

(** An engine: the fields of struct al_udma that the queues use. *)
Record al_udma := mkUdma {
  udma_type : al_udma_type;
  num_of_queues : Z;
  udma_regs : Z;
  udma_q : list al_udma_q
}.

(** Assignments to the fields that change after initialization. *)
Definition set_desc (q : al_udma_q) (idx rid : Z) : al_udma_q :=
  mkQ (size_mask q) (q_regs q) (desc_base_ptr q) idx rid (cdesc_base_ptr q) (cdesc_size q)
    (next_cdesc_idx q) (end_cdesc_ptr q) (comp_head_idx q) (comp_head_ptr q) (pkt_crnt_descs q)
    (comp_ring_id q) (desc_phy_base q) (cdesc_phy_base q) (q_flags q) (q_size q) (q_status q)
    (qid q) (q_rev_id q).
Definition set_next_cdesc (q : al_udma_q) (idx : Z) : al_udma_q :=
  mkQ (size_mask q) (q_regs q) (desc_base_ptr q) (next_desc_idx q) (desc_ring_id q)
    (cdesc_base_ptr q) (cdesc_size q)
    idx (end_cdesc_ptr q) (comp_head_idx q) (comp_head_ptr q) (pkt_crnt_descs q)
    (comp_ring_id q) (desc_phy_base q) (cdesc_phy_base q) (q_flags q) (q_size q) (q_status q)
    (qid q) (q_rev_id q).
Definition set_comp_head_idx (q : al_udma_q) (idx : Z) : al_udma_q :=
  mkQ (size_mask q) (q_regs q) (desc_base_ptr q) (next_desc_idx q) (desc_ring_id q)
    (cdesc_base_ptr q) (cdesc_size q)
    (next_cdesc_idx q) (end_cdesc_ptr q) idx (comp_head_ptr q) (pkt_crnt_descs q)
    (comp_ring_id q) (desc_phy_base q) (cdesc_phy_base q) (q_flags q) (q_size q) (q_status q)
    (qid q) (q_rev_id q).
Definition set_head (q : al_udma_q) (ptr descs : Z) : al_udma_q :=
  mkQ (size_mask q) (q_regs q) (desc_base_ptr q) (next_desc_idx q) (desc_ring_id q)
    (cdesc_base_ptr q) (cdesc_size q)
    (next_cdesc_idx q) (end_cdesc_ptr q) (comp_head_idx q) ptr descs
    (comp_ring_id q) (desc_phy_base q) (cdesc_phy_base q) (q_flags q) (q_size q) (q_status q)
    (qid q) (q_rev_id q).
Definition set_comp_ring_id (q : al_udma_q) (rid : Z) : al_udma_q :=
  mkQ (size_mask q) (q_regs q) (desc_base_ptr q) (next_desc_idx q) (desc_ring_id q)
    (cdesc_base_ptr q) (cdesc_size q)
    (next_cdesc_idx q) (end_cdesc_ptr q) (comp_head_idx q) (comp_head_ptr q) (pkt_crnt_descs q)
    rid (desc_phy_base q) (cdesc_phy_base q) (q_flags q) (q_size q) (q_status q)
    (qid q) (q_rev_id q).
Definition set_status (q : al_udma_q) (flags : Z) (status : al_udma_queue_status) : al_udma_q :=
  mkQ (size_mask q) (q_regs q) (desc_base_ptr q) (next_desc_idx q) (desc_ring_id q)
    (cdesc_base_ptr q) (cdesc_size q)
    (next_cdesc_idx q) (end_cdesc_ptr q) (comp_head_idx q) (comp_head_ptr q) (pkt_crnt_descs q)
    (comp_ring_id q) (desc_phy_base q) (cdesc_phy_base q) flags (q_size q) status
    (qid q) (q_rev_id q).

(** ** Submission ring (al_hal_udma.h) *)

Definition al_udma_available_get (q : al_udma_q) : Z :=
  Z.land (u16 (next_cdesc_idx q - (next_desc_idx q + AL_UDMA_MAX_NUM_CDESC_PER_CACHE_LINE)))
    (size_mask q).

Definition al_udma_is_empty (q : al_udma_q) : bool :=
  Z.land (next_cdesc_idx q - next_desc_idx q) (size_mask q) =? 0.

(** The address of the next descriptor, 16 bytes each. *)
Definition al_udma_desc_get (q : al_udma_q) : Z * al_udma_q :=
  (desc_base_ptr q + 16 * next_desc_idx q,
   set_desc q (Z.land (u16 (next_desc_idx q + 1)) (size_mask q)) (desc_ring_id q)).

Definition al_udma_ring_id_get (q : al_udma_q) : Z * al_udma_q :=
  (desc_ring_id q,
   if next_desc_idx q =? 0
   then set_desc q (next_desc_idx q) (Z.land (desc_ring_id q +u32 1) DMA_RING_ID_MASK)
   else q).

Definition al_udma_desc_action_add {H} `{Mmio H} (q : al_udma_q) (num : Z) (h : H) : option H :=
  if (0 <? num) && (num <=? q_size q) then Some (MmioWrite32 (q_regs q + rings_drtp_inc) num h)
  else None.

(** ** Completion ring (al_hal_udma.h) *)

Definition cdesc_is_first (flags : Z) : bool := negb (Z.land flags AL_UDMA_CDESC_FIRST =? 0).
Definition cdesc_is_last (flags : Z) : bool := negb (Z.land flags AL_UDMA_CDESC_LAST =? 0).

Definition al_cdesc_next (q : al_udma_q) (cdesc offset : Z) : Z :=
  let tmp := cdesc + offset * cdesc_size q in
  if end_cdesc_ptr q <? tmp then cdesc_base_ptr q + (tmp - end_cdesc_ptr q - cdesc_size q) else tmp.

Definition al_udma_new_cdesc (q : al_udma_q) (flags : Z) : bool :=
  Z.shiftr (Z.land flags AL_M2S_DESC_RING_ID_MASK) AL_M2S_DESC_RING_ID_SHIFT =? comp_ring_id q.

Definition al_cdesc_next_update (q : al_udma_q) (cdesc : Z) : Z * al_udma_q :=
  if cdesc =? end_cdesc_ptr q
  then (cdesc_base_ptr q, set_comp_ring_id q (Z.land (comp_ring_id q +u32 1) DMA_RING_ID_MASK))
  else (cdesc + cdesc_size q, q).

Definition al_udma_cdesc_idx_to_ptr (q : al_udma_q) (idx : Z) : Z :=
  cdesc_base_ptr q + idx * cdesc_size q.

Definition al_udma_cdesc_get_all {H} `{Mmio H} (q : al_udma_q) (h : H) : Z * Z * al_udma_q * H :=
  let '(v, h) := MmioRead32 (q_regs q + rings_crhp) h in
  let q := set_comp_head_idx q (Z.land v 0xFFFF) in
  let count := Z.land (comp_head_idx q - next_cdesc_idx q) (size_mask q) in
  (count, al_udma_cdesc_idx_to_ptr q (next_cdesc_idx q), q, h).

Definition al_udma_cdesc_ack (q : al_udma_q) (num : Z) : al_udma_q :=
  set_next_cdesc q (Z.land (u16 (next_cdesc_idx q + num)) (size_mask q)).

(** ** al_udma_cdesc_packet_get (al_hal_udma_main.c)

    [packet_done] is the code after the label [done]; [packet_trim] marks the
    descriptor before the one at which another packet starts. *)

Definition packet_done (q : al_udma_q) (m : Words) (curr count : Z)
    : option (Z * Z * al_udma_q * Words) :=
  let cdesc := al_udma_cdesc_idx_to_ptr q (next_cdesc_idx q) in
  let '(head, q) := al_cdesc_next_update q curr in
  Some (count, cdesc, set_head q head 0, m).

Definition packet_trim (q : al_udma_q) (m : Words) (count : Z) : option (Z * Words) :=
  let curr := al_udma_cdesc_idx_to_ptr q (Z.land (next_cdesc_idx q + count -u32 1) (size_mask q)) in
  v ← ld32 m curr;
  m ← st32 m curr (Z.lor v (Z.lor AL_S2M_DESC_ERR AL_UDMA_CDESC_LAST));
  Some (curr, m).

(** The loop over the packet's descriptors. It visits the ring at most once:
    [packet_loop_total]. *)
Fixpoint packet_loop (fuel : nat) (q : al_udma_q) (m : Words) (curr comp_flags count : Z)
    : option (Z * Z * al_udma_q * Words) :=
  match fuel with
  | O => None
  | S fuel' =>
      if cdesc_is_last comp_flags then packet_done q m curr count
      else
        let '(curr, q) := al_cdesc_next_update q curr in
        comp_flags ← ld32 m curr;
        if negb (al_udma_new_cdesc q comp_flags) then Some (0, curr, set_head q curr count, m)
        else if cdesc_is_first comp_flags then
          '(curr, m) ← packet_trim q m count;
          packet_done q m curr count
        else if count + 1 <=? q_size q then packet_loop fuel' q m curr comp_flags (count + 1)
        else None
  end.

(** The number of descriptors of the next whole packet and the address of the
    first; the address means nothing when the number is 0. *)
Definition al_udma_cdesc_packet_get (q : al_udma_q) (m : Words)
    : option (Z * Z * al_udma_q * Words) :=
  if negb (Z.land (q_flags q) AL_UDMA_Q_FLAGS_NO_COMP_UPDATE =? 0) then None
  else
    let curr := comp_head_ptr q in
    comp_flags ← ld32 m curr;
    if negb (al_udma_new_cdesc q comp_flags) then Some (0, curr, q, m)
    else if negb (pkt_crnt_descs q =? 0) && cdesc_is_first comp_flags then
      '(curr, m) ← packet_trim q m (pkt_crnt_descs q);
      packet_done q m curr (pkt_crnt_descs q)
    else packet_loop (Z.to_nat (q_size q)) q m curr comp_flags (pkt_crnt_descs q +u32 1).

(** ** Life of a queue (al_hal_udma_main.c) *)

Section Lifecycle.
Context {H : Type} `{Mmio H, Timer H}.

Definition al_udma_q_config (ty : al_udma_type) (q : al_udma_q) (h : H) : H :=
  match ty with
  | UDMA_TX =>
      let '(val, h) := MmioRead32 (q_regs q + m2s_q_rlimit_mask) h in
      let val := Z.land val (u32 (Z.lnot UDMA_M2S_Q_RATE_LIMIT_MASK_INTERNAL_PAUSE_DMB)) in
      MmioWrite32 (q_regs q + m2s_q_rlimit_mask) val h
  | UDMA_RX => h
  end.

Definition al_udma_q_config_compl (u : al_udma) (q : al_udma_q) (h : H) : H :=
  let reg_addr := q_regs q +
    match udma_type u with UDMA_TX => m2s_q_comp_cfg | UDMA_RX => s2m_q_comp_cfg end in
  let '(val, h) := MmioRead32 reg_addr h in
  let val :=
    if negb (Z.land (q_flags q) AL_UDMA_Q_FLAGS_NO_COMP_UPDATE =? 0)
    then Z.land val (u32 (Z.lnot UDMA_M2S_Q_COMP_CFG_EN_COMP_RING_UPDATE))
    else Z.lor val UDMA_M2S_Q_COMP_CFG_EN_COMP_RING_UPDATE in
  let val := Z.lor val UDMA_M2S_Q_COMP_CFG_DIS_COMP_COAL in
  let h := MmioWrite32 reg_addr val h in
  match udma_type u with
  | UDMA_TX => h
  | UDMA_RX =>
      let '(val, h) := MmioRead32 (udma_regs u + s2m_comp_cfg_1c) h in
      let val := Z.land val (u32 (Z.lnot UDMA_S2M_COMP_CFG_1C_DESC_SIZE_MASK)) in
      let val := Z.lor val
        (Z.land (Z.shiftr (cdesc_size q) 2) UDMA_S2M_COMP_CFG_1C_DESC_SIZE_MASK) in
      MmioWrite32 (udma_regs u + s2m_comp_cfg_1c) val h
  end.

Definition al_udma_q_set_pointers (u : al_udma) (q : al_udma_q) (h : H) : option (al_udma_q * H) :=
  if Z.land (AL_ADDR_LOW (desc_phy_base q)) (u32 (Z.lnot UDMA_M2S_Q_TDRBP_LOW_ADDR_MASK)) =? 0 then
    let h := MmioWrite32 (q_regs q + rings_drbp_low) (AL_ADDR_LOW (desc_phy_base q)) h in
    let h := MmioWrite32 (q_regs q + rings_drbp_high) (AL_ADDR_HIGH (desc_phy_base q)) h in
    let h := MmioWrite32 (q_regs q + rings_drl) (q_size q) h in
    '(q, h) ←
      (if cdesc_base_ptr q =? 0
       then Some (set_status q (Z.lor (q_flags q) AL_UDMA_Q_FLAGS_NO_COMP_UPDATE) (q_status q), h)
       else if Z.land (AL_ADDR_LOW (cdesc_phy_base q)) (u32 (Z.lnot UDMA_M2S_Q_TCRBP_LOW_ADDR_MASK)) =? 0
       then
         let h := MmioWrite32 (q_regs q + rings_crbp_low) (AL_ADDR_LOW (cdesc_phy_base q)) h in
         Some (q, MmioWrite32 (q_regs q + rings_crbp_high) (AL_ADDR_HIGH (cdesc_phy_base q)) h)
       else None);
    Some (q, al_udma_q_config_compl u q h)
  else None.

Definition al_udma_q_enable (q : al_udma_q) (enable : bool) (h : H) : al_udma_q * H :=
  let '(reg, h) := MmioRead32 (q_regs q + rings_cfg) h in
  let bits := Z.lor UDMA_M2S_Q_CFG_EN_PREF UDMA_M2S_Q_CFG_EN_SCHEDULING in
  if enable
  then (set_status q (q_flags q) AL_QUEUE_ENABLED, MmioWrite32 (q_regs q + rings_cfg) (Z.lor reg bits) h)
  else (set_status q (q_flags q) AL_QUEUE_DISABLED,
        MmioWrite32 (q_regs q + rings_cfg) (Z.land reg (u32 (Z.lnot bits))) h).

Definition al_udma_q_is_enabled (q : al_udma_q) (h : H) : bool * H :=
  let '(reg, h) := MmioRead32 (q_regs q + rings_cfg) h in
  (negb (Z.land reg (Z.lor UDMA_M2S_Q_CFG_EN_PREF UDMA_M2S_Q_CFG_EN_SCHEDULING) =? 0), h).

(** The queue's index, when the engine has it; the structure itself is
    [udma_q u !! qid]. *)
Definition al_udma_q_handle_get (u : al_udma) (qid : Z) : Z * option Z :=
  if num_of_queues u <=? qid then (- EINVAL, None) else (0, Some qid).

(** What al_udma_q_init stores before it touches the hardware. *)
Definition q_init_fields (old : al_udma_q) (id : Z) (p : al_udma_q_params) : al_udma_q :=
  mkQ (u16 (p_size p - 1)) (q_regs old) (p_desc_base p) 0 AL_UDMA_INITIAL_RING_ID
    (p_cdesc_base p) (p_cdesc_size p) 0
    (p_cdesc_base p + (p_size p - 1) * p_cdesc_size p) 0 (p_cdesc_base p) 0
    AL_UDMA_INITIAL_RING_ID (p_desc_phy_base p) (p_cdesc_phy_base p) 0 (p_size p)
    AL_QUEUE_DISABLED id (p_adapter_rev_id p).

Definition al_udma_q_init (u : al_udma) (id : Z) (p : al_udma_q_params) (h : H)
    : option (Z * al_udma * H) :=
  if num_of_queues u <=? id then Some (- EINVAL, u, h)
  else
    old ← rd (udma_q u) id;
    if bool_decide (q_status old = AL_QUEUE_ENABLED) then Some (- EIO, u, h)
    else if p_size p <? AL_UDMA_MIN_Q_SIZE then Some (- EINVAL, u, h)
    else if AL_UDMA_MAX_Q_SIZE <? p_size p then Some (- EINVAL, u, h)
    else if negb (Z.land (p_size p) (p_size p - 1) =? 0) then Some (- EINVAL, u, h)
    else
      let q := q_init_fields old id p in
      let h := al_udma_q_config (udma_type u) q h in
      '(q, h) ← al_udma_q_set_pointers u q h;
      let '(q, h) := al_udma_q_enable q true h in
      qs ← wrn (udma_q u) id [q];
      Some (0, mkUdma (udma_type u) (num_of_queues u) (udma_regs u) qs, h).

(** One of the waits of al_udma_q_pause: at most [remaining_time] polls. The
    condition reads the registers. *)
Fixpoint pause_wait (remaining_time : nat) (done : H → bool * H) (h : H) : nat * H :=
  match remaining_time with
  | O => (O, h)
  | S n =>
      let '(ok, h) := done h in
      if ok : bool then (S n, h) else pause_wait n done (us_delay 1 h)
  end.

Definition pause_idle (q : al_udma_q) (h : H) : bool * H :=
  let '(status, h) := MmioRead32 (q_regs q + rings_status) h in
  (Z.land status (Z.lor UDMA_M2S_Q_STATUS_PREFETCH UDMA_M2S_Q_STATUS_SCHEDULER) =? 0, h).

Definition pause_drained (q : al_udma_q) (h : H) : bool * H :=
  let '(dcp, h) := MmioRead32 (q_regs q + rings_dcp) h in
  let '(crhp, h) := MmioRead32 (q_regs q + rings_crhp) h in
  (dcp =? crhp, h).

Definition al_udma_q_pause (q : al_udma_q) (h : H) : Z * al_udma_q * H :=
  let '(q, h) := al_udma_q_enable q false h in
  let '(remaining_time, h) := pause_wait (Z.to_nat AL_UDMA_Q_QUIESCE_TOUT) (pause_idle q) h in
  match remaining_time with
  | O => (- ETIME, q, h)
  | _ =>
      let '(remaining_time, h) := pause_wait remaining_time (pause_drained q) h in
      match remaining_time with
      | O => (- ETIME, q, h)
      | _ => (0, q, h)
      end
  end.

Definition al_udma_q_resume (q : al_udma_q) (h : H) : Z * al_udma_q * H :=
  let '(q, h) := al_udma_q_enable q true h in (0, q, h).

Definition al_udma_q_reset (ty : al_udma_type) (q : al_udma_q) (h : H) : Z * al_udma_q * H :=
  let '(rc, q, h) := al_udma_q_pause q h in
  if negb (rc =? 0) then (rc, q, h)
  else
    let reg := q_regs q + match ty with UDMA_TX => m2s_q_sw_ctrl | UDMA_RX => s2m_q_sw_ctrl end in
    (0, q, MmioWrite32 reg UDMA_M2S_Q_SW_CTRL_RST_Q h).

(** al_udma_q_reset_all: [n] queues are left, from [i]. *)
Fixpoint al_udma_q_reset_all_loop (n : nat) (i : Z) (u : al_udma) (h : H) : option (Z * al_udma * H) :=
  match n with
  | O => Some (0, u, h)
  | S n' =>
      q ← rd (udma_q u) i;
      let '(on, h) := al_udma_q_is_enabled q h in
      if negb on then al_udma_q_reset_all_loop n' (i + 1) u h
      else
        let '(err, q, h) := al_udma_q_reset (udma_type u) q h in
        qs ← wrn (udma_q u) i [q];
        let u := mkUdma (udma_type u) (num_of_queues u) (udma_regs u) qs in
        if negb (err =? 0) then Some (err, u, h)
        else al_udma_q_reset_all_loop n' (i + 1) u h
  end.

Definition al_udma_q_reset_all (u : al_udma) (h : H) : option (Z * al_udma * H) :=
  al_udma_q_reset_all_loop (Z.to_nat (num_of_queues u)) 0 u h.

(** al_udma_s2m_q_compl_coal_config (al_hal_udma_config.c). *)
Definition al_udma_s2m_q_compl_coal_config (q : al_udma_q) (enable : bool) (coal_timeout : Z) (h : H)
    : Z * H :=
  let '(reg, h) := MmioRead32 (q_regs q + s2m_q_comp_cfg) h in
  let reg := if enable then Z.land reg (u32 (Z.lnot UDMA_S2M_Q_COMP_CFG_DIS_COMP_COAL))
             else Z.lor reg UDMA_S2M_Q_COMP_CFG_DIS_COMP_COAL in
  let h := MmioWrite32 (q_regs q + s2m_q_comp_cfg) reg h in
  (0, MmioWrite32 (q_regs q + s2m_q_comp_cfg_2) coal_timeout h).
End Lifecycle.

(** ** Ethernet packets (al_hal_eth.h, al_hal_eth_main.c)

    The packets of this program carry no meta data ([pkt->meta] is NULL), so
    struct al_eth_pkt is modelled without it. *)

Record al_buf := mkBuf { addr : Z; blen : Z }.

Record al_eth_pkt := mkPkt {
  flags : Z;
  flags_ex : Z;
  l3_proto_idx : Z;
  l4_proto_idx : Z;
  source_vlan_count : Z;
  vlan_mod_add_count : Z;
  vlan_mod_del_count : Z;
  vlan_mod_v1_ether_sel : Z;
  vlan_mod_v1_vid_sel : Z;
  vlan_mod_v1_pbits_sel : Z;
  tunnel_mode : Z;
  outer_l3_proto_idx : Z;
  protocol_number : Z;
  gen_crc_checksum_en_mask : Z;
  tgtid : Z;
  rx_header_len : Z;
  rxhash : Z;
  l3_offset : Z;
  num_of_bufs : Z;
  bufs : list al_buf
}.

Definition AL_ETH_PKT_MAX_BUFS : Z := 19.
Definition AL_ETH_REV_ID_2 : Z := 2.
Definition AL_ETH_REV_ID_4 : Z := 4.
Definition AL_ETH_PROTO_ID_IPv4 : Z := 8.
Definition AL_ETH_TX_FLAGS_TSO : Z := AL_BIT 7.
Definition AL_ETH_TX_FLAGS_IPV4_L3_CSUM : Z := AL_BIT 13.
Definition AL_ETH_TX_FLAGS_L4_CSUM : Z := AL_BIT 14.
Definition AL_ETH_TX_FLAGS_L4_PARTIAL_CSUM : Z := AL_BIT 17.
Definition AL_ETH_TX_FLAGS_L2_MACSEC_PKT : Z := AL_BIT 16.
Definition AL_ETH_TX_FLAGS_PACKET_DROP : Z := AL_BIT 16.
Definition AL_ETH_TX_FLAGS_L2_DIS_FCS : Z := AL_BIT 15.
Definition AL_ETH_TX_FLAGS_TS : Z := AL_BIT 21.
Definition AL_ETH_TX_FLAGS_INT : Z := AL_M2S_DESC_INT_EN.
Definition AL_ETH_TX_FLAGS_NO_SNOOP : Z := AL_M2S_DESC_NO_SNOOP_H.
Definition AL_ETH_TX_PKT_UDMA_FLAGS : Z := Z.lor AL_ETH_TX_FLAGS_NO_SNOOP AL_ETH_TX_FLAGS_INT.
Definition AL_ETH_TX_PKT_META_FLAGS : Z :=
  Z.lor (Z.lor (Z.lor (Z.lor (Z.lor (Z.lor (Z.lor AL_ETH_TX_FLAGS_IPV4_L3_CSUM
    AL_ETH_TX_FLAGS_L4_CSUM) AL_ETH_TX_FLAGS_L4_PARTIAL_CSUM) AL_ETH_TX_FLAGS_L2_MACSEC_PKT)
    AL_ETH_TX_FLAGS_L2_DIS_FCS) AL_ETH_TX_FLAGS_TSO) AL_ETH_TX_FLAGS_TS)
    AL_ETH_TX_FLAGS_PACKET_DROP.
Definition AL_ETH_TX_L4_PROTO_IDX_SHIFT : Z := 8.
Definition AL_ETH_TX_SRC_VLAN_CNT_SHIFT : Z := 5.
Definition AL_ETH_TX_TUNNEL_MODE_SHIFT : Z := 18.
Definition AL_ETH_TX_OUTER_L3_PROTO_SHIFT : Z := 20.
Definition AL_ETH_TX_VLAN_MOD_ADD_SHIFT : Z := 22.
Definition AL_ETH_TX_VLAN_MOD_DEL_SHIFT : Z := 24.
Definition AL_ETH_TX_VLAN_MOD_E_SEL_SHIFT : Z := 26.
Definition AL_ETH_TX_VLAN_MOD_VID_SEL_SHIFT : Z := 28.
Definition AL_ETH_TX_VLAN_MOD_PBIT_SEL_SHIFT : Z := 30.
Definition AL_ETH_TX_GEN_CRC_CHECKSUM_EN_SHIFT : Z := 28.
Definition AL_ETH_TX_PROTOCOL_NUM_SHIFT : Z := 22.
Definition AL_ETH_RX_FLAGS_TGTID_MASK : Z := 0xffff.
Definition AL_ETH_RX_FLAGS_INT : Z := AL_M2S_DESC_INT_EN.
Definition AL_ETH_RX_ERROR : Z := AL_BIT 16.
Definition AL_ETH_RX_W0_EC_INFO_LB_INDICATION : Z := AL_BIT 12.
Definition AL_ETH_RX_W0_ETH_ERR_1 : Z := AL_BIT 16.
Definition AL_ETH_V4_RX_PROTO_NUM_MASK : Z := 0x3F.
Definition AL_ETH_RX_L3_PROTO_IDX_MASK : Z := 0x1F.
Definition AL_ETH_RX_L4_PROTO_IDX_MASK : Z := 0x1F.
Definition AL_ETH_RX_L4_PROTO_IDX_SHIFT : Z := 8.
Definition AL_ETH_RX_L3_OFFSET_SHIFT : Z := 9.
Definition AL_ETH_RX_L3_OFFSET_MASK : Z := Z.shiftl 0x7f 9.
Definition AL_ETH_RX_HASH_SHIFT : Z := 16.
Definition AL_ETH_RX_HASH_MASK : Z := Z.shiftl 0xffff 16.

(** The control word of the first buffer's descriptor. *)
Definition tx_meta_ctrl (q : al_udma_q) (pkt : al_eth_pkt) : Z :=
  let mc := Z.land (flags pkt) AL_ETH_TX_PKT_META_FLAGS in
  let mc := Z.lor mc (l3_proto_idx pkt) in
  let mc := Z.lor mc (Z.shiftl (l4_proto_idx pkt) AL_ETH_TX_L4_PROTO_IDX_SHIFT) in
  let mc := Z.lor mc (Z.shiftl (source_vlan_count pkt) AL_ETH_TX_SRC_VLAN_CNT_SHIFT) in
  let mc :=
    if q_rev_id q <? AL_ETH_REV_ID_4 then
      let mc := Z.lor mc (Z.shiftl (vlan_mod_add_count pkt) AL_ETH_TX_VLAN_MOD_ADD_SHIFT) in
      let mc := Z.lor mc (Z.shiftl (vlan_mod_del_count pkt) AL_ETH_TX_VLAN_MOD_DEL_SHIFT) in
      let mc := Z.lor mc (Z.shiftl (vlan_mod_v1_ether_sel pkt) AL_ETH_TX_VLAN_MOD_E_SEL_SHIFT) in
      let mc := Z.lor mc (Z.shiftl (vlan_mod_v1_vid_sel pkt) AL_ETH_TX_VLAN_MOD_VID_SEL_SHIFT) in
      Z.lor mc (Z.shiftl (vlan_mod_v1_pbits_sel pkt) AL_ETH_TX_VLAN_MOD_PBIT_SEL_SHIFT)
    else
      let mc := Z.lor mc
        (Z.shiftl (gen_crc_checksum_en_mask pkt) AL_ETH_TX_GEN_CRC_CHECKSUM_EN_SHIFT) in
      Z.lor mc (Z.shiftl (protocol_number pkt) AL_ETH_TX_PROTOCOL_NUM_SHIFT) in
  let mc := Z.lor mc (Z.shiftl (tunnel_mode pkt) AL_ETH_TX_TUNNEL_MODE_SHIFT) in
  u32 (if outer_l3_proto_idx pkt =? AL_ETH_PROTO_ID_IPv4
       then Z.lor mc (Z.shiftl 1 AL_ETH_TX_OUTER_L3_PROTO_SHIFT) else mc).

(** The two assertions on the packet's flags. *)
Definition tx_flags_ok (pkt : al_eth_pkt) : bool :=
  let csum := Z.lor AL_ETH_TX_FLAGS_L4_CSUM AL_ETH_TX_FLAGS_L4_PARTIAL_CSUM in
  let ts := Z.lor AL_ETH_TX_FLAGS_TSO AL_ETH_TX_FLAGS_TS in
  negb (Z.land (flags pkt) csum =? AL_ETH_TX_FLAGS_L4_PARTIAL_CSUM) &&
  negb (Z.land (flags pkt) ts =? ts).

(** The loop over the buffers: [n] are left, [buf_idx] is the next. *)
Fixpoint tx_bufs_loop (n : nat) (buf_idx : Z) (pkt : al_eth_pkt) (meta_ctrl fl : Z)
    (q : al_udma_q) (m : Words) : option (al_udma_q * Words) :=
  match n with
  | O => Some (q, m)
  | S n' =>
      let '(tx_desc, q) := al_udma_desc_get q in
      let '(rid, q) := al_udma_ring_id_get q in
      let flags_len := Z.lor fl (Z.shiftl rid AL_M2S_DESC_RING_ID_SHIFT) in
      let flags_len :=
        if buf_idx =? num_of_bufs pkt - 1 then Z.lor flags_len AL_M2S_DESC_LAST else flags_len in
      let fl := Z.lor (Z.land fl AL_ETH_TX_FLAGS_NO_SNOOP) AL_M2S_DESC_CONCAT in
      buf ← rd (bufs pkt) buf_idx;
      let flags_len := Z.lor flags_len (Z.land (blen buf) AL_M2S_DESC_LEN_MASK) in
      m ← st32 m tx_desc flags_len;
      m ← (if buf_idx =? 0 then st32 m (tx_desc + 4) meta_ctrl else Some m);
      m ← st64 m (tx_desc + 8) (Z.lor (addr buf) (Z.shiftl (tgtid pkt) AL_UDMA_DESC_TGTID_SHIFT));
      tx_bufs_loop n' (buf_idx + 1) pkt meta_ctrl fl q m
  end.

Definition al_eth_tx_pkt_prepare (q : al_udma_q) (pkt : al_eth_pkt) (m : Words)
    : option (Z * al_udma_q * Words) :=
  let fl := Z.lor (Z.lor AL_M2S_DESC_FIRST AL_M2S_DESC_CONCAT)
                  (Z.land (flags pkt) AL_ETH_TX_FLAGS_INT) in
  let tx_descs := num_of_bufs pkt in
  if al_udma_available_get q <? tx_descs then Some (0, q, m)
  else if negb (tx_flags_ok pkt) then None
  else
    let fl := Z.lor fl (Z.land (flags pkt) AL_ETH_TX_PKT_UDMA_FLAGS) in
    '(q, m) ← tx_bufs_loop (Z.to_nat (num_of_bufs pkt)) 0 pkt (tx_meta_ctrl q pkt) fl q m;
    Some (tx_descs, q, m).

Definition al_eth_tx_dma_action {H} `{Mmio H} (q : al_udma_q) (tx_descs : Z) (h : H) : option H :=
  al_udma_desc_action_add q tx_descs h.

Definition al_eth_comp_tx_get {H} `{Mmio H} (q : al_udma_q) (h : H) : Z * al_udma_q * H :=
  let '(rc, _, q, h) := al_udma_cdesc_get_all q h in
  (rc, if negb (rc =? 0) then al_udma_cdesc_ack q rc else q, h).

Definition al_eth_rx_buffer_add (q : al_udma_q) (buf : al_buf) (fl : Z) (header_buf : option al_buf)
    (m : Words) : option (Z * al_udma_q * Words) :=
  let tgt := Z.shiftl (Z.land fl AL_ETH_RX_FLAGS_TGTID_MASK) AL_UDMA_DESC_TGTID_SHIFT in
  let flags_len := Z.land fl (u32 (Z.lnot AL_ETH_RX_FLAGS_TGTID_MASK)) in
  if al_udma_available_get q <? 1 then Some (- ENOSPC, q, m)
  else
    let '(rx_desc, q) := al_udma_desc_get q in
    let '(rid, q) := al_udma_ring_id_get q in
    let flags_len := Z.lor flags_len (Z.shiftl rid AL_S2M_DESC_RING_ID_SHIFT) in
    let flags_len := Z.lor flags_len (Z.land (blen buf) AL_S2M_DESC_LEN_MASK) in
    '(flags_len, m) ←
      (if negb (Z.land fl AL_S2M_DESC_DUAL_BUF =? 0) then
         hb ← header_buf;
         let flags_len := Z.lor flags_len
           (Z.land (Z.shiftl (Z.shiftr (blen hb) AL_S2M_DESC_LEN2_GRANULARITY_SHIFT)
                             AL_S2M_DESC_LEN2_SHIFT) AL_S2M_DESC_LEN2_MASK) in
         m ← st32 m (rx_desc + 4) (AL_ADDR_LOW (addr hb));
         Some (flags_len, m)
       else Some (flags_len, m));
    m ← st32 m rx_desc flags_len;
    m ← st64 m (rx_desc + 8) (Z.lor (addr buf) tgt);
    Some (0, q, m).

Definition al_eth_rx_buffer_action {H} `{Mmio H} (q : al_udma_q) (descs_num : Z) (h : H) : option H :=
  al_udma_desc_action_add q descs_num h.

(** The lengths of a packet's buffers: [n] descriptors are left, from [i]. *)
Fixpoint rx_bufs_loop (n : nat) (i : Z) (q : al_udma_q) (cdesc : Z) (hdr : Z) (bs : list al_buf)
    (m : Words) : option (Z * list al_buf) :=
  match n with
  | O => Some (hdr, bs)
  | S n' =>
      let rx_desc := al_cdesc_next q cdesc i in
      buf1_len ← ld32 m (rx_desc + 4);
      word2 ← (if i =? 0 then ld32 m (rx_desc + 8) else Some 0);
      let hdr :=
        if (i =? 0) && negb (Z.land word2 AL_UDMA_CDESC_BUF2_USED =? 0)
        then Z.shiftr (Z.land word2 AL_S2M_DESC_LEN2_MASK) AL_S2M_DESC_LEN2_SHIFT else hdr in
      ctrl ← ld32 m rx_desc;
      b ← rd bs i;
      let l := if negb (Z.land ctrl AL_UDMA_CDESC_BUF1_USED =? 0)
               then Z.land buf1_len AL_S2M_DESC_LEN_MASK else 0 in
      bs ← wrn bs i [mkBuf (addr b) l];
      rx_bufs_loop n' (i + 1) q cdesc hdr bs m
  end.

Definition al_eth_pkt_rx (q : al_udma_q) (pkt : al_eth_pkt) (m : Words)
    : option (Z * al_eth_pkt * al_udma_q * Words) :=
  '(rc, cdesc, q, m) ← al_udma_cdesc_packet_get q m;
  if rc =? 0 then Some (0, pkt, q, m)
  else if AL_ETH_PKT_MAX_BUFS <? rc then None
  else
    '(hdr, bs) ← rx_bufs_loop (Z.to_nat rc) 0 q cdesc 0 (bufs pkt) m;
    let rx_desc := al_cdesc_next q cdesc (rc - 1) in
    ctrl ← ld32 m rx_desc;
    l ← ld32 m (rx_desc + 4);
    w2 ← ld32 m (rx_desc + 8);
    w3 ← ld32 m (rx_desc + 12);
    let fl :=
      if (q_rev_id q =? AL_ETH_REV_ID_4) &&
         negb (Z.land ctrl AL_ETH_RX_W0_EC_INFO_LB_INDICATION =? 0)
      then Z.land ctrl (u32 (Z.lnot AL_ETH_RX_W0_ETH_ERR_1)) else ctrl in
    '(proto, l3, l4, hash) ←
      (if AL_ETH_REV_ID_4 <=? q_rev_id q then
         w6 ← ld32 m (rx_desc + 24);
         Some (Z.land fl AL_ETH_V4_RX_PROTO_NUM_MASK, 0, 0,
               Z.shiftr (Z.land w6 AL_ETH_RX_HASH_MASK) AL_ETH_RX_HASH_SHIFT)
       else
         Some (0, Z.land fl AL_ETH_RX_L3_PROTO_IDX_MASK,
               Z.land (Z.shiftr fl AL_ETH_RX_L4_PROTO_IDX_SHIFT) AL_ETH_RX_L4_PROTO_IDX_MASK,
               Z.shiftr (Z.land l AL_ETH_RX_HASH_MASK) AL_ETH_RX_HASH_SHIFT));
    let pkt := mkPkt fl w3 l3 l4
      (source_vlan_count pkt) (vlan_mod_add_count pkt) (vlan_mod_del_count pkt)
      (vlan_mod_v1_ether_sel pkt) (vlan_mod_v1_vid_sel pkt) (vlan_mod_v1_pbits_sel pkt)
      (tunnel_mode pkt) (outer_l3_proto_idx pkt) proto (gen_crc_checksum_en_mask pkt) (tgtid pkt)
      hdr hash
      (Z.shiftr (Z.land w2 AL_ETH_RX_L3_OFFSET_MASK) AL_ETH_RX_L3_OFFSET_SHIFT)
      (num_of_bufs pkt) bs in
    Some (rc, pkt, al_udma_cdesc_ack q rc, m).

(** * Theorems *)

(** ** Absolute positions

    The code keeps positions modulo the ring's size and the number of times
    around modulo 4. The specification counts from the start: [P] descriptors
    submitted, [C] acknowledged, the completion head at [Hd]. *)

Definition rid (size n : Z) : Z := (1 + n / size) mod 4.

Definition dslot (q : al_udma_q) (n : Z) : Z := desc_base_ptr q + 16 * (n mod q_size q).
Definition slot (q : al_udma_q) (n : Z) : Z := cdesc_base_ptr q + (n mod q_size q) * cdesc_size q.

Record q_wf (q : al_udma_q) : Prop := mkWf {
  wf_size : ∃ k, 5 <= k <= 16 ∧ q_size q = 2 ^ k;
  wf_mask : size_mask q = q_size q - 1;
  wf_cdesc_size : 0 < cdesc_size q;
  wf_end : end_cdesc_ptr q = cdesc_base_ptr q + (q_size q - 1) * cdesc_size q
}.

(** The submission side: at most [q_size - 16] descriptors are in use. *)
Record sub_rep (q : al_udma_q) (P C : Z) : Prop := mkSub {
  sub_wf : q_wf q;
  sub_range : 0 <= C <= P;
  sub_room : P - C <= q_size q - AL_UDMA_MAX_NUM_CDESC_PER_CACHE_LINE;
  sub_idx : next_desc_idx q = P mod q_size q;
  sub_rid : desc_ring_id q = rid (q_size q) P;
  sub_ack : next_cdesc_idx q = C mod q_size q
}.

(** The completion side: [K] descriptors of a packet were seen by an earlier
    call; the head is at [Hd]. *)
Record comp_rep (q : al_udma_q) (C Hd K : Z) : Prop := mkComp {
  comp_wf : q_wf q;
  comp_range : 0 <= C ∧ 0 <= Hd ∧ 0 <= K;
  comp_ack : next_cdesc_idx q = C mod q_size q;
  comp_head : comp_head_ptr q = slot q Hd;
  comp_rid : comp_ring_id q = rid (q_size q) Hd;
  comp_pending : pkt_crnt_descs q = K
}.

Section Ring.
Implicit Types q : al_udma_q.

Lemma wf_bounds q : q_wf q → 32 <= q_size q <= 65536 ∧ (q_size q | 2 ^ 16).
Proof.
  intros [(k & Hk & ->) _ _ _]. split.
  - pose proof (Z.pow_le_mono_r 2 5 k) as L. pose proof (Z.pow_le_mono_r 2 k 16) as U. lia.
  - exists (2 ^ (16 - k)). rewrite <- Z.pow_add_r by lia. f_equal. lia.
Qed.

Lemma size_mask_mod q x : q_wf q → Z.land x (size_mask q) = x mod q_size q.
Proof.
  intros [(k & Hk & E) -> _ _]. rewrite E, <- Z.land_ones by lia.
  by rewrite Z.ones_equiv, Z.sub_1_r.
Qed.

Lemma u16_mod q x : q_wf q → u16 x mod q_size q = x mod q_size q.
Proof.
  intros W. destruct (wf_bounds q W) as [B D]. unfold u16.
  apply Z.mod_mod_divide, D.
Qed.

Lemma land3 x : 0 <= x < 4 → Z.land (x +u32 1) DMA_RING_ID_MASK = (x + 1) mod 4.
Proof.
  intros Hx. rewrite u32_small by lia. change DMA_RING_ID_MASK with (Z.ones 2).
  by rewrite Z.land_ones by lia.
Qed.

Lemma rid_range size n : 0 <= rid size n < 4.
Proof. apply Z.mod_pos_bound. lia. Qed.

Lemma succ_div_mod n s :
  0 < s →
  ((n + 1) mod s = 0 ∧ n mod s = s - 1 ∧ (n + 1) / s = n / s + 1)
  ∨ ((n + 1) mod s = n mod s + 1 ∧ n mod s <> s - 1 ∧ (n + 1) / s = n / s).
Proof.
  intros Hs. pose proof (Z.div_mod n s ltac:(lia)) as E.
  pose proof (Z.mod_pos_bound n s Hs) as B.
  destruct (decide (n mod s = s - 1)) as [L|L].
  - left. assert (n + 1 = (n / s + 1) * s) as -> by lia.
    rewrite Z.mod_mul, Z.div_mul by lia. split_and!; lia.
  - right. split_and!; [|done|].
    + symmetry. apply (Z.mod_unique _ _ (n / s)); lia.
    + symmetry. apply (Z.div_unique _ _ _ (n mod s + 1)); lia.
Qed.

Lemma rid_next size n :
  0 < size → rid size (n + 1) = if (n + 1) mod size =? 0 then (rid size n + 1) mod 4 else rid size n.
Proof.
  intros Hs. unfold rid. destruct (succ_div_mod n size Hs) as [(-> & _ & ->)|(-> & L & ->)].
  - change (0 =? 0) with true. cbv iota. rewrite Zplus_mod_idemp_l. f_equal. lia.
  - pose proof (Z.mod_pos_bound n size Hs). destruct (Z.eqb_spec (n mod size + 1) 0); [lia|done].
Qed.

(** Going around once changes the ring id. *)
Lemma rid_lap size n : 0 < size → rid size (n + size) <> rid size n.
Proof.
  intros Hs. unfold rid. replace (n + size) with (n + 1 * size) by lia.
  rewrite Z.div_add by lia. intros E.
  pose proof (Z.div_mod (1 + (n / size + 1)) 4 ltac:(lia)).
  pose proof (Z.div_mod (1 + n / size) 4 ltac:(lia)). lia.
Qed.

Lemma slot_end q n : q_wf q → (slot q n = end_cdesc_ptr q ↔ n mod q_size q = q_size q - 1).
Proof.
  intros [_ _ Hc ->]. unfold slot. split; [|by intros ->].
  intros E. apply (Z.mul_reg_r _ _ (cdesc_size q)); lia.
Qed.

Lemma slot_lap q n : q_wf q → slot q (n + q_size q) = slot q n.
Proof.
  intros W. unfold slot. destruct (wf_bounds q W) as [B _].
  replace (n + q_size q) with (n + 1 * q_size q) by lia. by rewrite Z.mod_add by lia.
Qed.

(** Slots less than a lap apart are different. *)
Lemma slot_inj q a b : q_wf q → a < b < a + q_size q → slot q a <> slot q b.
Proof.
  intros W Hab E. destruct (wf_bounds q W) as [B _]. destruct W as [_ _ Hc _]. unfold slot in E.
  assert (a mod q_size q = b mod q_size q) as M by (apply (Z.mul_reg_r _ _ (cdesc_size q)); lia).
  pose proof (Z.div_mod a (q_size q) ltac:(lia)). pose proof (Z.div_mod b (q_size q) ltac:(lia)).
  assert (b - a = q_size q * (b / q_size q - a / q_size q)) as D by lia.
  destruct (Z_le_gt_dec (b / q_size q - a / q_size q) 0); nia.
Qed.

(** ** The submission ring *)

Lemma available_spec q P C :
  sub_rep q P C →
  al_udma_available_get q = q_size q - AL_UDMA_MAX_NUM_CDESC_PER_CACHE_LINE - (P - C).
Proof.
  intros [W R M I _ A]. destruct (wf_bounds q W) as [B _].
  unfold al_udma_available_get, AL_UDMA_MAX_NUM_CDESC_PER_CACHE_LINE in *.
  rewrite size_mask_mod, u16_mod, I, A by done.
  rewrite Zminus_mod_idemp_l, (Z.add_comm (P mod _)), Z.sub_add_distr, Zminus_mod_idemp_r.
  symmetry. apply (Z.mod_unique _ _ (-1)); lia.
Qed.

(** al_udma_desc_get followed by al_udma_ring_id_get hands out descriptor [P]
    with its ring id. *)
Lemma desc_alloc q P C :
  sub_rep q P C → P - C < q_size q - AL_UDMA_MAX_NUM_CDESC_PER_CACHE_LINE →
  let '(d, q1) := al_udma_desc_get q in
  let '(r, q2) := al_udma_ring_id_get q1 in
  d = dslot q P ∧ r = rid (q_size q) P ∧
  q2 = set_desc q ((P + 1) mod q_size q) (rid (q_size q) (P + 1)) ∧ sub_rep q2 (P + 1) C.
Proof.
  intros [W R M I G A] Hlt. destruct (wf_bounds q W) as [B _].
  unfold al_udma_desc_get, al_udma_ring_id_get. cbn [next_desc_idx desc_ring_id set_desc].
  assert (Z.land (u16 (next_desc_idx q + 1)) (size_mask q) = (P + 1) mod q_size q) as E.
  { rewrite size_mask_mod, u16_mod, I by done. by rewrite Zplus_mod_idemp_l. }
  rewrite E, I, G, land3 by apply rid_range.
  rewrite (rid_next (q_size q) P) by lia.
  assert (sub_rep (set_desc q ((P + 1) mod q_size q) (rid (q_size q) (P + 1))) (P + 1) C) as S.
  { constructor; cbn; try done; try lia. destruct W; by constructor. }
  rewrite (rid_next (q_size q) P) in S by lia.
  destruct ((P + 1) mod q_size q =? 0); done.
Qed.

Lemma ack_spec q P C n :
  sub_rep q P C → 0 <= n <= P - C → sub_rep (al_udma_cdesc_ack q n) P (C + n).
Proof.
  intros [W R M I G A] Hn. constructor; cbn; try done; try lia.
  - destruct W; by constructor.
  - rewrite size_mask_mod, u16_mod, A by done. apply Zplus_mod_idemp_l.
Qed.

(** The number the engine's head pointer is ahead of the acknowledged ones. *)
Lemma get_all_spec {H} `{Mmio H} q P C n h v h' :
  sub_rep q P C → 0 <= n <= P - C →
  MmioRead32 (q_regs q + rings_crhp) h = (v, h') → Z.land v 0xFFFF = (C + n) mod q_size q →
  al_udma_cdesc_get_all q h =
    (n, slot q C, set_comp_head_idx q ((C + n) mod q_size q), h').
Proof.
  intros [W R M I G A] Hn E V. destruct (wf_bounds q W) as [B _].
  unfold al_udma_cdesc_get_all. rewrite E. cbn [comp_head_idx next_cdesc_idx size_mask set_comp_head_idx].
  rewrite V, A. unfold AL_UDMA_MAX_NUM_CDESC_PER_CACHE_LINE in *.
  unfold al_udma_cdesc_idx_to_ptr, slot. cbn [cdesc_base_ptr cdesc_size].
  rewrite size_mask_mod by done. rewrite Zminus_mod_idemp_l, Zminus_mod_idemp_r.
  replace (C + n - C) with n by lia. by rewrite Z.mod_small by lia.
Qed.

Lemma sub_rep_comp_head q P C i : sub_rep q P C → sub_rep (set_comp_head_idx q i) P C.
Proof. intros [W R M I G A]. constructor; cbn; try done. destruct W; by constructor. Qed.

(** ** The completion ring *)

Lemma next_update_spec q n :
  q_wf q → comp_ring_id q = rid (q_size q) n →
  al_cdesc_next_update q (slot q n) =
    (slot q (n + 1), set_comp_ring_id q (rid (q_size q) (n + 1))).
Proof.
  intros W G. destruct (wf_bounds q W) as [B _].
  unfold al_cdesc_next_update. rewrite G, land3 by apply rid_range.
  rewrite rid_next by lia.
  destruct (succ_div_mod n (q_size q) ltac:(lia)) as [(Z0 & L & _)|(Z0 & L & _)].
  - pose proof (proj2 (slot_end q n W) L) as E. rewrite E, Z.eqb_refl, Z0.
    unfold slot. by rewrite Z0, Z.mul_0_l, Z.add_0_r.
  - destruct (Z.eqb_spec (slot q n) (end_cdesc_ptr q)) as [E|E].
    { apply slot_end in E; [lia|done]. }
    rewrite Z0. pose proof (Z.mod_pos_bound n (q_size q)).
    destruct (Z.eqb_spec (n mod q_size q + 1) 0); [lia|]. f_equal.
    + unfold slot. rewrite Z0. lia.
    + rewrite <- G. by destruct q.
Qed.

Lemma idx_to_ptr_slot q n : al_udma_cdesc_idx_to_ptr q (n mod q_size q) = slot q n.
Proof. done. Qed.
End Ring.

(** ** Packets in the completion ring *)

Definition ring_bits (f : Z) : Z :=
  Z.shiftr (Z.land f AL_M2S_DESC_RING_ID_MASK) AL_M2S_DESC_RING_ID_SHIFT.

(** From position [n] on the engine has completed descriptors with the control
    words [l], and no more: the word after them is from an earlier lap. *)
Record pend (m : Words) (q : al_udma_q) (n : Z) (l : list Z) : Prop := mkPend {
  pend_fresh : ∀ i f, l !! i = Some f →
    m !! slot q (n + Z.of_nat i) = Some f ∧ ring_bits f = rid (q_size q) (n + Z.of_nat i);
  pend_stale : ∃ w, m !! slot q (n + len l) = Some w ∧ ring_bits w <> rid (q_size q) (n + len l)
}.

(** What the completions say about the next packet, read from its start: [n]
    descriptors of it are before [l]. *)
Inductive outcome := Partial (n : Z) | Whole (n : Z) | Trimmed (n : Z).

Fixpoint scan (n : Z) (l : list Z) : outcome :=
  match l with
  | [] => Partial n
  | f :: l' =>
      if negb (n =? 0) && cdesc_is_first f then Trimmed n
      else if cdesc_is_last f then Whole (n + 1)
      else scan (n + 1) l'
  end.

(** The ring id after a trimmed packet of which the last descriptor is [n - 1]:
    when [n] is at the start of the ring, the id is advanced twice. *)
Definition trim_rid (size n : Z) : Z :=
  if n mod size =? 0 then (rid size n + 1) mod 4 else rid size n.

Definition mark (m : Words) (p v : Z) : Words :=
  <[p := Z.lor v (Z.lor AL_S2M_DESC_ERR AL_UDMA_CDESC_LAST)]> m.

Definition moved (q : al_udma_q) (r n k : Z) : al_udma_q :=
  set_head (set_comp_ring_id q r) (slot q n) k.

(** What the call does for each outcome. *)
Definition got (q : al_udma_q) (m : Words) (C : Z) (o : outcome) (r : Z * Z * al_udma_q * Words) : Prop :=
  match o with
  | Partial n => r = (0, slot q (C + n), moved q (rid (q_size q) (C + n)) (C + n) n, m)
  | Whole n => r = (n, slot q C, moved q (rid (q_size q) (C + n)) (C + n) 0, m)
  | Trimmed n => ∃ v, m !! slot q (C + n - 1) = Some v ∧
      r = (n, slot q C, moved q (trim_rid (q_size q) (C + n)) (C + n) 0, mark m (slot q (C + n - 1)) v)
  end.

Section Packets.
Implicit Types q : al_udma_q.

Lemma q_wf_rid q r : q_wf q → q_wf (set_comp_ring_id q r).
Proof. intros [A B C D]. by constructor. Qed.

Lemma scan_app n l1 l2 k : scan n l1 = Partial k → scan n (l1 ++ l2) = scan k l2.
Proof.
  revert n. induction l1 as [|f l1 IH]; intros n; simpl; [by intros [= ->]|].
  destruct (_ && _); [done|]. destruct (cdesc_is_last f); [done|]. apply IH.
Qed.

Lemma scan_partial n l k : scan n l = Partial k → k = n + len l.
Proof.
  revert n. induction l as [|f l IH]; intros n; simpl.
  - intros [= <-]. lia.
  - destruct (_ && _); [done|]. destruct (cdesc_is_last f); [done|].
    intros ->%IH. lia.
Qed.

Lemma scan_bounds n l : 0 <= n →
  match scan n l with
  | Partial k => k = n + len l
  | Whole k => n < k <= n + len l
  | Trimmed k => n <= k < n + len l ∧ 0 < k
  end.
Proof.
  revert n. induction l as [|f l IH]; intros n Hn; cbn [scan length]; [lia|].
  destruct (Z.eqb_spec n 0); cbn [negb andb].
  - destruct (cdesc_is_last f); [lia|]. specialize (IH (n + 1) ltac:(lia)).
    destruct (scan (n + 1) l); lia.
  - destruct (cdesc_is_first f); cbn [andb]; [lia|]. destruct (cdesc_is_last f); [lia|].
    specialize (IH (n + 1) ltac:(lia)). destruct (scan (n + 1) l); lia.
Qed.

Lemma scan_trimmed_at n l k : 0 <= n →
  scan n l = Trimmed k → ∃ f, l !! Z.to_nat (k - n) = Some f ∧ cdesc_is_first f = true.
Proof.
  revert n. induction l as [|f l IH]; intros n Hn; simpl; [done|].
  destruct (cdesc_is_first f) eqn:Ff.
  - destruct (negb (n =? 0)); cbn [andb].
    + intros [= <-]. rewrite Z.sub_diag. by exists f.
    + destruct (cdesc_is_last f); [done|]. intros E.
      pose proof (scan_bounds (n + 1) l ltac:(lia)) as B. rewrite E in B.
      destruct (IH (n + 1) ltac:(lia) E) as (g & Eg & Fg). exists g.
      replace (Z.to_nat (k - n)) with (S (Z.to_nat (k - (n + 1)))) by lia. done.
  - rewrite andb_false_r. destruct (cdesc_is_last f); [done|]. intros E.
    pose proof (scan_bounds (n + 1) l ltac:(lia)) as B. rewrite E in B.
    destruct (IH (n + 1) ltac:(lia) E) as (g & Eg & Fg). exists g.
    replace (Z.to_nat (k - n)) with (S (Z.to_nat (k - (n + 1)))) by lia. done.
Qed.

Lemma done_spec q m n C :
  q_wf q → comp_ring_id q = rid (q_size q) (C + n - 1) → next_cdesc_idx q = C mod q_size q →
  packet_done q m (slot q (C + n - 1)) n =
    Some (n, slot q C, moved q (rid (q_size q) (C + n)) (C + n) 0, m).
Proof.
  intros W G A. unfold packet_done. rewrite next_update_spec by done. rewrite A, idx_to_ptr_slot.
  by replace (C + n - 1 + 1) with (C + n) by lia.
Qed.

Lemma trim_spec q m k C v :
  q_wf q → next_cdesc_idx q = C mod q_size q → 0 <= C → 1 <= k <= q_size q →
  comp_ring_id q = rid (q_size q) (C + k) → m !! slot q (C + k - 1) = Some v →
  ('(curr, m) ← packet_trim q m k; packet_done q m curr k) =
    Some (k, slot q C, moved q (trim_rid (q_size q) (C + k)) (C + k) 0,
          mark m (slot q (C + k - 1)) v).
Proof.
  intros W A HC Hk G V. destruct (wf_bounds q W) as [B _].
  unfold packet_trim. pose proof (Z.mod_pos_bound C (q_size q) ltac:(lia)) as MB.
  rewrite A, u32_small, size_mask_mod by (done || lia).
  replace (C mod q_size q + k - 1) with (C mod q_size q + (k - 1)) by lia.
  rewrite Zplus_mod_idemp_l. replace (C + (k - 1)) with (C + k - 1) by lia.
  rewrite idx_to_ptr_slot. unfold ld32, st32. cbn [mbind option_bind]. rewrite V.
  cbn [mbind option_bind]. fold (mark m (slot q (C + k - 1)) v).
  unfold packet_done. rewrite A, idx_to_ptr_slot.
  pose proof (slot_end q (C + k - 1) W) as SE.
  destruct (succ_div_mod (C + k - 1) (q_size q) ltac:(lia)) as [(Z0 & L & _)|(Z0 & L & _)];
    replace (C + k - 1 + 1) with (C + k) in Z0 by lia; unfold al_cdesc_next_update, trim_rid.
  - rewrite (proj2 SE L), Z.eqb_refl, Z0, G, land3 by apply rid_range.
    cbv beta iota. unfold moved. do 4 f_equal. unfold slot. by rewrite Z0, Z.mul_0_l, Z.add_0_r.
  - destruct (Z.eqb_spec (slot q (C + k - 1)) (end_cdesc_ptr q)) as [E|E]; [by apply SE in E|].
    rewrite Z0. pose proof (Z.mod_pos_bound (C + k - 1) (q_size q) ltac:(lia)).
    destruct (Z.eqb_spec ((C + k - 1) mod q_size q + 1) 0); [lia|].
    unfold moved. rewrite <- G.
    assert (set_comp_ring_id q (comp_ring_id q) = q) as -> by by destruct q.
    do 4 f_equal. unfold slot. rewrite Z0. lia.
Qed.

(** The loop, at descriptor [n] of the packet, of which the control word is
    [f]; the completions [l] follow. *)
Lemma packet_loop_spec fuel q m C n f l :
  q_wf q → next_cdesc_idx q = C mod q_size q → 0 <= C → 1 <= n → n + len l <= q_size q →
  (length l < fuel)%nat →
  comp_ring_id q = rid (q_size q) (C + n - 1) → m !! slot q (C + n - 1) = Some f →
  pend m q (C + n) l →
  ∃ r, packet_loop fuel q m (slot q (C + n - 1)) f n = Some r ∧
    got q m C (if cdesc_is_last f then Whole n else scan n l) r.
Proof.
  intros W A HC. revert fuel q n f W A.
  induction l as [|g l IH]; intros fuel q n f W A Hn Hl Hf G V [PF PS];
    destruct fuel as [|fuel]; cbn [length] in *; try lia; cbn [packet_loop scan].
  all: destruct (cdesc_is_last f) eqn:Lf.
  1, 3: rewrite done_spec by done; eexists; split; reflexivity.
  all: rewrite next_update_spec by done; replace (C + n - 1 + 1) with (C + n) by lia;
    cbv beta iota; unfold ld32.
  - destruct PS as (w & Ew & Sw). cbn [length] in Ew, Sw. rewrite Z.add_0_r in Ew, Sw.
    rewrite Ew. cbn [mbind option_bind]. unfold al_udma_new_cdesc. cbn [comp_ring_id set_comp_ring_id].
    fold (ring_bits w). destruct (Z.eqb_spec (ring_bits w) (rid (q_size q) (C + n))); [done|].
    eexists; split; reflexivity.
  - destruct (PF 0%nat g eq_refl) as [Eg Rg]. replace (C + n + Z.of_nat 0) with (C + n) in * by lia.
    rewrite Eg. cbn [mbind option_bind]. unfold al_udma_new_cdesc. cbn [comp_ring_id set_comp_ring_id].
    fold (ring_bits g). rewrite Rg, Z.eqb_refl. cbn [negb].
    destruct (Z.eqb_spec n 0); [lia|]. cbn [negb andb].
    destruct (cdesc_is_first g) eqn:Fg.
    + eexists; split; [|exists f; split; [exact V|reflexivity]].
      pose proof (trim_spec (set_comp_ring_id q (rid (q_size q) (C + n))) m n C f) as T.
      rewrite T; [reflexivity|by apply q_wf_rid|done|done|cbn; lia|done|done].
    + cbn [q_size set_comp_ring_id]. destruct (Z.leb_spec (n + 1) (q_size q)); [|lia].
      destruct (IH fuel (set_comp_ring_id q (rid (q_size q) (C + n))) (n + 1) g) as (r & E & Hr);
        try done; cbn [q_size set_comp_ring_id next_cdesc_idx comp_ring_id]; try lia.
      * by apply q_wf_rid.
      * do 2 f_equal. lia.
      * replace (C + (n + 1) - 1) with (C + n) by lia. done.
      * constructor.
        -- intros i h E. specialize (PF (S i) h E).
           replace (C + (n + 1) + Z.of_nat i) with (C + n + Z.of_nat (S i)) by lia. done.
        -- destruct PS as (w & Ew & Sw). exists w.
           replace (C + (n + 1) + len l) with (C + n + Z.of_nat (S (length l))) by lia. done.
      * replace (C + (n + 1) - 1) with (C + n) in E by lia.
        exists r. split; [exact E|]. exact Hr.
Qed.
Lemma moved_same q C Hd K :
  comp_rep q C Hd K → moved q (rid (q_size q) Hd) Hd K = q.
Proof. intros [_ _ _ E1 E2 E3]. unfold moved. rewrite <- E1, <- E2, <- E3. by destruct q. Qed.

Lemma packet_get_run q m C l1 l2 :
  comp_rep q C (C + len l1) (len l1) → Z.land (q_flags q) AL_UDMA_Q_FLAGS_NO_COMP_UPDATE = 0 →
  scan 0 l1 = Partial (len l1) → pend m q C (l1 ++ l2) → len l1 + len l2 <= q_size q →
  ∃ r, al_udma_cdesc_packet_get q m = Some r ∧ got q m C (scan 0 (l1 ++ l2)) r.
Proof.
  intros R NC S1 P Hl. pose proof R as [W (HC & _ & _) A E1 E2 E3]. pose proof P as [PF PS].
  rewrite (scan_app _ _ l2 _ S1). unfold al_udma_cdesc_packet_get. rewrite NC, E1, E3.
  cbn [negb Z.eqb]. change (negb true) with false. cbv iota.
  rewrite length_app in PS. unfold ld32. destruct l2 as [|f l2]; cbn [scan].
  { destruct PS as (w & Ew & Sw). cbn [length] in Ew, Sw.
    replace (C + Z.of_nat (length l1 + 0)) with (C + len l1) in Ew, Sw by lia.
    rewrite Ew. cbn [mbind option_bind]. unfold al_udma_new_cdesc. fold (ring_bits w).
    rewrite E2. destruct (Z.eqb_spec (ring_bits w) (rid (q_size q) (C + len l1))); [done|].
    eexists; split; [reflexivity|]. cbn [got negb]. by rewrite (moved_same q C _ _ R). }
  destruct (PF (length l1) f) as [Ef Rf].
  { by rewrite lookup_app_r, Nat.sub_diag by lia. }
  rewrite Ef. cbn [mbind option_bind]. unfold al_udma_new_cdesc. fold (ring_bits f).
  rewrite E2, Rf, Z.eqb_refl. cbn [negb length] in *.
  destruct (Z.eqb_spec (len l1) 0) as [Z0|Z0]; cbn [negb andb].
  2: destruct (cdesc_is_first f) eqn:Ff.
  2: { destruct (lookup_lt_is_Some_2 l1 (length l1 - 1)) as [v Ev]; [lia|].
       destruct (PF (length l1 - 1)%nat v) as [V _]; [rewrite lookup_app_l by lia; done|].
       replace (C + Z.of_nat (length l1 - 1)) with (C + len l1 - 1) in V by lia.
       rewrite (trim_spec q m (len l1) C v) by (done || lia).
       eexists; split; [reflexivity|]. exists v. by split. }
  all: rewrite u32_small by (pose proof (wf_bounds q W); lia).
  all: destruct (packet_loop_spec (Z.to_nat (q_size q)) q m C (len l1 + 1) f l2)
        as (r & Er & Gr); try done; try lia.
  1, 5: by replace (C + (len l1 + 1) - 1) with (C + len l1) by lia.
  1, 4: by replace (C + (len l1 + 1) - 1) with (C + len l1) by lia.
  1, 3: constructor;
    [ intros i g Eg; destruct (PF (length l1 + S i)%nat g) as [X Y];
      [ rewrite lookup_app_r by lia; by replace (length l1 + S i - length l1)%nat with (S i) by lia
      | by replace (C + (len l1 + 1) + Z.of_nat i) with (C + Z.of_nat (length l1 + S i)) by lia ]
    | by replace (C + (len l1 + 1) + len l2) with (C + Z.of_nat (length l1 + S (length l2))) by lia ].
  all: exists r; split; [|done].
  all: by replace (C + (len l1 + 1) - 1) with (C + len l1) in Er by lia.
Qed.
End Packets.

(** ** The walk ends *)

(** The completion ring is mapped. *)
Definition cring_mapped (q : al_udma_q) (m : Words) : Prop := ∀ n, is_Some (m !! slot q n).

Section Total.
Implicit Types q : al_udma_q.

Lemma cring_mapped_finite q m :
  0 < q_size q →
  (∀ i, 0 <= i < q_size q → is_Some (m !! (cdesc_base_ptr q + i * cdesc_size q))) → cring_mapped q m.
Proof. intros Hs M n. apply M, Z.mod_pos_bound, Hs. Qed.

(** What a call can change: nothing but words of the completion ring; and it
    never reports more descriptors than the ring has. *)
Definition tame (q : al_udma_q) (m : Words) (r : Z * Z * al_udma_q * Words) : Prop :=
  let '(n, _, _, m') := r in
  0 <= n <= q_size q ∧ ∀ a, (∀ j, a <> slot q j) → m' !! a = m !! a.

Lemma packet_done_tame q m m' curr count :
  0 <= count <= q_size q → (∀ a, (∀ j, a <> slot q j) → m' !! a = m !! a) →
  ∃ r, packet_done q m' curr count = Some r ∧ tame q m r.
Proof.
  intros Hc F. unfold packet_done. destruct (al_cdesc_next_update q curr).
  eexists. split; [reflexivity|]. by split.
Qed.

Lemma packet_trim_tame q m count :
  q_wf q → cring_mapped q m →
  ∃ c m', packet_trim q m count = Some (c, m') ∧ ∀ a, (∀ j, a <> slot q j) → m' !! a = m !! a.
Proof.
  intros W M. unfold packet_trim, ld32, st32.
  rewrite size_mask_mod by done. rewrite idx_to_ptr_slot.
  match goal with |- context [slot q ?x] => set (k := x); destruct (M k) as [v E] end.
  rewrite E. cbn [mbind option_bind]. do 2 eexists. split; [reflexivity|].
  intros a Ha. apply lookup_insert_ne. intros <-. by apply (Ha k).
Qed.

Lemma packet_loop_total fuel q m Hd f0 n f :
  q_wf q → cring_mapped q m → 0 <= Hd →
  m !! slot q Hd = Some f0 → ring_bits f0 = rid (q_size q) Hd →
  1 <= n <= q_size q → q_size q < Z.of_nat fuel + n → comp_ring_id q = rid (q_size q) (Hd + n - 1) →
  ∃ r, packet_loop fuel q m (slot q (Hd + n - 1)) f n = Some r ∧ tame q m r.
Proof.
  intros W M HH E0 R0. revert q n f W M E0 R0.
  induction fuel as [|fuel IH]; intros q n f W M E0 R0 Hn Hf G; [lia|]. cbn [packet_loop].
  destruct (cdesc_is_last f); [apply packet_done_tame; (lia || done)|].
  rewrite next_update_spec by done. replace (Hd + n - 1 + 1) with (Hd + n) by lia. cbv beta iota.
  unfold ld32. destruct (M (Hd + n)) as [g Eg]. rewrite Eg. cbn [mbind option_bind].
  unfold al_udma_new_cdesc. cbn [comp_ring_id set_comp_ring_id]. fold (ring_bits g).
  destruct (Z.eqb_spec (ring_bits g) (rid (q_size q) (Hd + n))) as [Rg|Rg]; cbn [negb].
  2: { eexists. split; [reflexivity|]. split; [lia|done]. }
  destruct (cdesc_is_first g).
  { destruct (packet_trim_tame (set_comp_ring_id q (rid (q_size q) (Hd + n))) m n)
      as (c & m' & -> & F); [by apply q_wf_rid|exact M|].
    cbn [mbind option_bind]. apply (packet_done_tame (set_comp_ring_id q _)); [cbn; lia|exact F]. }
  cbn [q_size set_comp_ring_id]. destruct (decide (n = q_size q)) as [->|Hlt].
  { exfalso. rewrite slot_lap in Eg by done. rewrite Eg in E0. injection E0 as ->.
    destruct (wf_bounds q W). eapply (rid_lap (q_size q) Hd); [lia|]. congruence. }
  destruct (Z.leb_spec (n + 1) (q_size q)); [|lia].
  replace (slot q (Hd + n)) with (slot (set_comp_ring_id q (rid (q_size q) (Hd + n))) (Hd + (n + 1) - 1))
    by (unfold slot; cbn; do 3 f_equal; lia).
  apply (IH (set_comp_ring_id q _)); try done; cbn; try lia; [by apply q_wf_rid|]. f_equal. lia.
Qed.

(** Any position in the ring and any ring id are those of some count. *)
Lemma position_exists q n :
  q_wf q → 0 <= n → 0 <= comp_ring_id q < 4 →
  ∃ Hd, 0 <= Hd ∧ slot q Hd = slot q n ∧ comp_ring_id q = rid (q_size q) Hd.
Proof.
  intros W Hn Hc. destruct (wf_bounds q W) as [B _].
  set (t := (comp_ring_id q - 1 - n / q_size q) mod 4).
  pose proof (Z.mod_pos_bound (comp_ring_id q - 1 - n / q_size q) 4 ltac:(lia)).
  exists (n + t * q_size q). split_and!.
  - subst t. nia.
  - unfold slot. by rewrite Z.mod_add by lia.
  - unfold rid. rewrite Z.div_add by lia. subst t.
    rewrite Z.add_assoc, Zplus_mod_idemp_r.
    replace (1 + n / q_size q + (comp_ring_id q - 1 - n / q_size q)) with (comp_ring_id q) by lia.
    by rewrite Z.mod_small by lia.
Qed.

Lemma packet_get_tame q m n :
  q_wf q → cring_mapped q m → 0 <= n → comp_head_ptr q = slot q n → 0 <= comp_ring_id q < 4 →
  pkt_crnt_descs q = 0 → Z.land (q_flags q) AL_UDMA_Q_FLAGS_NO_COMP_UPDATE = 0 →
  ∃ r, al_udma_cdesc_packet_get q m = Some r ∧ tame q m r.
Proof.
  intros W M Hn Eh Hc K NC. unfold al_udma_cdesc_packet_get. rewrite NC, K.
  destruct (position_exists q n W Hn Hc) as (Hd & HH & ES & ER). rewrite Eh, <- ES. clear n Hn Eh ES.
  change (negb (0 =? 0)) with false. cbn [andb]. cbv iota.
  unfold ld32. destruct (M Hd) as [f Ef]. rewrite Ef. cbn [mbind option_bind].
  destruct (wf_bounds q W) as [B _].
  unfold al_udma_new_cdesc. fold (ring_bits f).
  destruct (Z.eqb_spec (ring_bits f) (comp_ring_id q)) as [Rf|Rf]; cbn [negb].
  2: { eexists. split; [reflexivity|]. split; [lia|done]. }
  rewrite ER in Rf.
  replace Hd with (Hd + 1 - 1) by lia. rewrite (u32_small (0 + 1)) by lia.
  apply packet_loop_total with f; try done; try lia.
  rewrite ER. f_equal. lia.
Qed.
End Total.

(** ** Writing descriptors *)

(** A descriptor as the engine reads it. *)
Record desc := mkDesc {
  d_first : bool; d_last : bool; d_rid : Z; d_len : Z; d_ptr : Z
}.

Definition desc_at (m : Words) (d : Z) : option desc :=
  w ← ld32 m d; p ← ld64 m (d + 8);
  Some (mkDesc (Z.testbit w 26) (Z.testbit w 27) (ring_bits w) (Z.land w 0xffff) p).

(** The submission ring is mapped. *)
Definition dring_mapped (q : al_udma_q) (m : Words) : Prop :=
  ∀ n k, 0 <= k < 4 → is_Some (m !! (dslot q n + 4 * k)).

(** [m'] differs from [m] only inside [lo, hi), and maps what [m] maps. *)
Definition changes_in (lo hi : Z) (m m' : Words) : Prop :=
  (∀ a, a < lo ∨ hi <= a → m' !! a = m !! a) ∧ (∀ a, is_Some (m !! a) ↔ is_Some (m' !! a)).

Lemma changes_in_refl lo hi m : changes_in lo hi m m.
Proof. done. Qed.

Lemma changes_in_trans lo hi m1 m2 m3 :
  changes_in lo hi m1 m2 → changes_in lo hi m2 m3 → changes_in lo hi m1 m3.
Proof.
  intros [A1 B1] [A2 B2]. split.
  - intros a Ha. by rewrite A2, A1.
  - intros a. by rewrite B1, B2.
Qed.

Lemma changes_in_mono lo hi lo' hi' m m' :
  lo' <= lo → hi <= hi' → changes_in lo hi m m' → changes_in lo' hi' m m'.
Proof. intros L U [A B]. split; [|done]. intros a Ha. apply A. lia. Qed.

Lemma st32_spec m a v : is_Some (m !! a) →
  ∃ m', st32 m a v = Some m' ∧ m' !! a = Some v ∧ changes_in a (a + 1) m m'.
Proof.
  intros [w E]. unfold st32. rewrite E. cbn [mbind option_bind].
  eexists; split; [reflexivity|]. split; [apply lookup_insert_eq|]. split.
  - intros b Hb. apply lookup_insert_ne. lia.
  - intros b. destruct (decide (a = b)) as [<-|N].
    + split; intros _; [eexists; apply lookup_insert_eq|eauto].
    + assert ((<[a:=v]> m : Words) !! b = m !! b) as -> by by apply lookup_insert_ne. done.
Qed.

Lemma u32_split v : 0 <= v < 2 ^ 64 → Z.lor (u32 v) (Z.shiftl (u32 (Z.shiftr v 32)) 32) = v.
Proof.
  intros Hv. rewrite lor_shiftl_add by (try apply u32_range; lia).
  rewrite Z.shiftr_div_pow2 by lia. unfold u32.
  rewrite (Z.mod_small (v / 2 ^ 32)).
  - pose proof (Z.div_mod v (2 ^ 32)). lia.
  - split; [apply Z.div_pos; lia|apply Z.div_lt_upper_bound; lia].
Qed.

Lemma st64_spec m a v : is_Some (m !! a) → is_Some (m !! (a + 4)) → 0 <= v < 2 ^ 64 →
  ∃ m', st64 m a v = Some m' ∧ ld64 m' a = Some v ∧ changes_in a (a + 8) m m'.
Proof.
  intros M0 M4 Hv. unfold st64.
  destruct (st32_spec m a (u32 v) M0) as (m1 & -> & E1 & C1). cbn [mbind option_bind].
  destruct (st32_spec m1 (a + 4) (u32 (Z.shiftr v 32))) as (m2 & -> & E2 & C2).
  { by apply C1. }
  exists m2. split; [done|]. split.
  - unfold ld64, ld32. rewrite (proj1 C2 a) by lia. rewrite E1, E2. cbn [mbind option_bind].
    by rewrite u32_split.
  - apply changes_in_trans with m1.
    + apply (changes_in_mono a (a + 1)); [lia|lia|done].
    + apply (changes_in_mono (a + 4) (a + 4 + 1)); [lia|lia|done].
Qed.

Section Descriptors.
Implicit Types q : al_udma_q.

Lemma dslot_range q n : q_wf q →
  desc_base_ptr q <= dslot q n ∧ dslot q n + 16 <= desc_base_ptr q + 16 * q_size q.
Proof.
  intros W. destruct (wf_bounds q W) as [B _]. unfold dslot.
  pose proof (Z.mod_pos_bound n (q_size q) ltac:(lia)). lia.
Qed.

Lemma dslot_apart q a b : q_wf q → a < b < a + q_size q →
  dslot q a + 16 <= dslot q b ∨ dslot q b + 16 <= dslot q a.
Proof.
  intros W Hab. destruct (wf_bounds q W) as [B _]. unfold dslot.
  assert (a mod q_size q <> b mod q_size q); [|lia].
  intros M. pose proof (Z.div_mod a (q_size q) ltac:(lia)).
  pose proof (Z.div_mod b (q_size q) ltac:(lia)).
  assert (b - a = q_size q * (b / q_size q - a / q_size q)) as D by lia.
  destruct (Z_le_gt_dec (b / q_size q - a / q_size q) 0); nia.
Qed.

(** A change elsewhere leaves a descriptor as it was. *)
Lemma desc_at_changes lo hi m m' d :
  changes_in lo hi m m' → d + 16 <= lo ∨ hi <= d → desc_at m' d = desc_at m d.
Proof.
  intros [A _] Hd. unfold desc_at, ld64, ld32. rewrite !A by lia.
  by replace (d + 8 + 4) with (d + 12) by lia.
Qed.

Lemma dring_mapped_changes lo hi q m m' :
  changes_in lo hi m m' → dring_mapped q m → dring_mapped q m'.
Proof. intros [_ B] M n k Hk. by apply B, M. Qed.

Lemma cring_mapped_changes lo hi q m m' :
  changes_in lo hi m m' → cring_mapped q m → cring_mapped q m'.
Proof. intros [_ B] M n. by apply B, M. Qed.

(** The word a descriptor starts with. *)
Definition desc_word (fl r len : Z) (last : bool) : Z :=
  Z.lor (let w := Z.lor fl (Z.shiftl r 24) in if last then Z.lor w AL_M2S_DESC_LAST else w)
        (Z.land len 0xffff).

(** Flags that leave the length, the ring id and the last bit alone. *)
Record fl_ok (fl : Z) (first : bool) : Prop := mkFl {
  fl_low : ∀ n, 0 <= n < 16 → Z.testbit fl n = false;
  fl_24 : Z.testbit fl 24 = false;
  fl_25 : Z.testbit fl 25 = false;
  fl_26 : Z.testbit fl 26 = first;
  fl_27 : Z.testbit fl 27 = false
}.

Lemma testbit_high x n k : 0 <= x < 2 ^ n → n <= k → Z.testbit x k = false.
Proof.
  intros Hx Hk. apply Z.testbit_false; [|].
  - destruct (Z_lt_le_dec n 0); [rewrite Z.pow_neg_r in Hx by lia; lia|lia].
  - rewrite Z.div_small; [done|]. destruct (Z_lt_le_dec n 0); [rewrite Z.pow_neg_r in Hx by lia; lia|].
    pose proof (Z.pow_le_mono_r 2 n k). lia.
Qed.

Lemma land_ffff_high len k : 16 <= k → Z.testbit (Z.land len 0xffff) k = false.
Proof.
  intros Hk. apply testbit_high with 16; [|done].
  change 0xffff with (Z.ones 16). rewrite Z.land_ones by lia. apply Z.mod_pos_bound. lia.
Qed.

Lemma desc_word_bit fl r len last k : 0 <= k →
  Z.testbit (desc_word fl r len last) k =
    Z.testbit fl k || ((24 <=? k) && Z.testbit r (k - 24)) || (last && (k =? 27))
    || Z.testbit (Z.land len 0xffff) k.
Proof.
  intros Hk. unfold desc_word. rewrite Z.lor_spec. f_equal.
  assert (Z.testbit (Z.shiftl r 24) k = (24 <=? k) && Z.testbit r (k - 24)) as E.
  { rewrite Z.shiftl_spec by done. destruct (Z.leb_spec 24 k); [done|]. apply Z.testbit_neg_r. lia. }
  assert (Z.testbit AL_M2S_DESC_LAST k = (k =? 27)) as L.
  { unfold AL_M2S_DESC_LAST, AL_BIT. rewrite Z.shiftl_1_l, Z.pow2_bits_eqb by lia.
    by rewrite Z.eqb_sym. }
  destruct last; rewrite !Z.lor_spec, E; [by rewrite L|by rewrite orb_false_r].
Qed.

Lemma desc_word_decode fl r len last first :
  fl_ok fl first → 0 <= r < 4 →
  Z.testbit (desc_word fl r len last) 26 = first ∧
  Z.testbit (desc_word fl r len last) 27 = last ∧
  ring_bits (desc_word fl r len last) = r ∧
  Z.land (desc_word fl r len last) 0xffff = Z.land len 0xffff.
Proof.
  intros [F0 F24 F25 F26 F27] Hr.
  assert (∀ k, 2 <= k → Z.testbit r k = false) as RH by (intros; by apply testbit_high with 2).
  split_and!.
  - rewrite desc_word_bit, F26, land_ffff_high, RH by lia. by rewrite !andb_false_r, !orb_false_r.
  - rewrite desc_word_bit, F27, land_ffff_high, RH by lia.
    by rewrite andb_false_r, andb_true_r, orb_false_r.
  - unfold ring_bits. apply Z.bits_inj'. intros k Hk.
    change AL_M2S_DESC_RING_ID_SHIFT with 24.
    rewrite Z.shiftr_spec, Z.land_spec, desc_word_bit, land_ffff_high by lia.
    replace (k + 24 - 24) with k by lia.
    destruct (Z.eqb_spec (k + 24) 27) as [K3|K3].
    { replace k with 3 by lia. rewrite (RH 3) by lia. change (3 + 24) with 27. rewrite F27.
      change (Z.testbit AL_M2S_DESC_RING_ID_MASK 27) with false. by rewrite andb_false_r. }
    rewrite andb_false_r, !orb_false_r.
    destruct (decide (k < 2)) as [K2|K2].
    + assert (k = 0 ∨ k = 1) as [-> | ->] by lia; simpl (_ + 24);
        [change (0 + 24) with 24; rewrite F24|change (1 + 24) with 25; rewrite F25];
        cbn [orb]; by rewrite andb_true_r.
    + rewrite (RH k) by lia. rewrite andb_false_r, orb_false_r.
      change AL_M2S_DESC_RING_ID_MASK with 0x3000000.
      rewrite (testbit_high 0x3000000 26) by lia. apply andb_false_r.
  - apply Z.bits_inj'. intros k Hk. rewrite Z.land_spec.
    destruct (decide (k < 16)) as [K|K].
    + rewrite desc_word_bit, F0 by lia. destruct (Z.leb_spec 24 k); [lia|].
      destruct (Z.eqb_spec k 27); [lia|]. rewrite andb_false_r. cbn [orb andb].
      by rewrite Z.land_spec, <- andb_assoc, andb_diag.
    + rewrite land_ffff_high by lia.
      rewrite (testbit_high 0xffff 16) by lia. apply andb_false_r.
Qed.

Lemma AL_BIT_testbit b k : 0 <= b → Z.testbit (AL_BIT b) k = (b =? k).
Proof. intros Hb. unfold AL_BIT. rewrite Z.shiftl_1_l. by apply Z.pow2_bits_eqb. Qed.

(** Flags made of the bits 28, 29 and 31, and 26 for a first descriptor. *)
Lemma fl_ok_bits fl first :
  (∀ k, 0 <= k < 28 → k <> 26 → Z.testbit fl k = false) → Z.testbit fl 26 = first → fl_ok fl first.
Proof. intros L F. constructor; try done; intros; apply L; lia. Qed.

Lemma ld_st_desc m d w v : is_Some (m !! d) → is_Some (m !! (d + 4)) → is_Some (m !! (d + 8)) →
  is_Some (m !! (d + 12)) → 0 <= v < 2 ^ 64 →
  ∃ m', (m ← st32 m d w; st64 m (d + 8) v) = Some m' ∧
    ld32 m' d = Some w ∧ ld64 m' (d + 8) = Some v ∧ changes_in d (d + 16) m m'.
Proof.
  intros M0 M4 M8 M12 Hv.
  destruct (st32_spec m d w M0) as (m1 & -> & E1 & C1). cbn [mbind option_bind].
  destruct (st64_spec m1 (d + 8) v) as (m2 & -> & E2 & C2); [by apply C1| |done|].
  { replace (d + 8 + 4) with (d + 12) by lia. by apply C1. }
  exists m2. split_and!; try done.
  - unfold ld32. rewrite (proj1 C2 d) by lia. done.
  - apply changes_in_trans with m1.
    + apply (changes_in_mono d (d + 1)); [lia|lia|done].
    + apply (changes_in_mono (d + 8) (d + 8 + 8)); [lia|lia|done].
Qed.

Lemma rx_buffer_add_spec q m P C a l :
  sub_rep q P C → P - C < q_size q - AL_UDMA_MAX_NUM_CDESC_PER_CACHE_LINE →
  dring_mapped q m → 0 <= a < 2 ^ 64 →
  ∃ m', al_eth_rx_buffer_add q (mkBuf a l) AL_ETH_RX_FLAGS_INT None m =
      Some (0, set_desc q ((P + 1) mod q_size q) (rid (q_size q) (P + 1)), m') ∧
    sub_rep (set_desc q ((P + 1) mod q_size q) (rid (q_size q) (P + 1))) (P + 1) C ∧
    desc_at m' (dslot q P) = Some (mkDesc false false (rid (q_size q) P) (Z.land l 0xffff) a) ∧
    changes_in (dslot q P) (dslot q P + 16) m m'.
Proof.
  intros S Hlt DM Ha. unfold al_eth_rx_buffer_add. rewrite (available_spec q P C S).
  destruct (Z.ltb_spec (q_size q - AL_UDMA_MAX_NUM_CDESC_PER_CACHE_LINE - (P - C)) 1); [lia|].
  pose proof (desc_alloc q P C S Hlt) as A.
  destruct (al_udma_desc_get q) as [d q1]. destruct (al_udma_ring_id_get q1) as [r q2].
  destruct A as (-> & -> & -> & S2).
  change (Z.land AL_ETH_RX_FLAGS_INT AL_S2M_DESC_DUAL_BUF =? 0) with true.
  change (Z.land AL_ETH_RX_FLAGS_INT (u32 (Z.lnot AL_ETH_RX_FLAGS_TGTID_MASK))) with AL_ETH_RX_FLAGS_INT.
  change (Z.shiftl (Z.land AL_ETH_RX_FLAGS_INT AL_ETH_RX_FLAGS_TGTID_MASK) AL_UDMA_DESC_TGTID_SHIFT) with 0.
  cbn [negb mbind option_bind addr blen]. rewrite Z.lor_0_r.
  set (w := Z.lor _ _).
  assert (w = desc_word AL_ETH_RX_FLAGS_INT (rid (q_size q) P) l false) as Ew by done.
  pose proof (DM P 0 ltac:(lia)) as M0. pose proof (DM P 1 ltac:(lia)) as M4.
  pose proof (DM P 2 ltac:(lia)) as M8. pose proof (DM P 3 ltac:(lia)) as M12.
  rewrite Z.add_0_r in M0.
  destruct (ld_st_desc m (dslot q P) w a) as (m' & E & L0 & L8 & Ch); try done.
  destruct (st32 m (dslot q P) w) as [m1|] eqn:E1; [|done]. cbn [mbind option_bind] in *.
  rewrite E. cbn [mbind option_bind]. exists m'. split_and!; try done.
  unfold desc_at. rewrite L0, L8. cbn [mbind option_bind]. rewrite Ew.
  destruct (desc_word_decode AL_ETH_RX_FLAGS_INT (rid (q_size q) P) l false false)
    as (-> & -> & -> & ->); [|apply rid_range|done].
  apply fl_ok_bits; [|done]. intros k Hk _. unfold AL_ETH_RX_FLAGS_INT, AL_M2S_DESC_INT_EN.
  rewrite AL_BIT_testbit by lia. destruct (Z.eqb_spec 28 k); [lia|done].
Qed.
End Descriptors.

(** ** Preparing a packet *)

(** The descriptors of a packet: one per buffer, the first and the last marked,
    each with its ring id, the low 16 bits of its length, and its address. *)
Definition tx_desc (q : al_udma_q) (P : Z) (pkt : al_eth_pkt) (i : Z) (b : al_buf) : desc :=
  mkDesc (i =? 0) (i =? num_of_bufs pkt - 1) (rid (q_size q) (P + i)) (Z.land (blen b) 0xffff)
    (Z.lor (addr b) (Z.shiftl (tgtid pkt) 48)).

Definition tx_descs_at (q : al_udma_q) (m : Words) (P : Z) (pkt : al_eth_pkt) (i n : Z) : Prop :=
  ∀ j b, i <= j < n → rd (bufs pkt) j = Some b →
    desc_at m (dslot q (P + j)) = Some (tx_desc q P pkt j b).

(** A packet the function can be given. *)
Record pkt_ok (pkt : al_eth_pkt) : Prop := mkPktOk {
  pkt_n : 0 <= num_of_bufs pkt <= len (bufs pkt);
  pkt_addr : Forall (λ b, 0 <= addr b < 2 ^ 64) (bufs pkt);
  pkt_tgtid : 0 <= tgtid pkt < 2 ^ 16;
  pkt_flags : tx_flags_ok pkt = true
}.

(** The flags that go with buffer [i]: of the packet's own flags the first descriptor
    has the interrupt and the cache-snoop bits, the others the cache-snoop bit. *)
Definition tx_flags (pkt : al_eth_pkt) (i : Z) : Z :=
  if i =? 0
  then Z.lor (Z.lor (Z.lor AL_M2S_DESC_FIRST AL_M2S_DESC_CONCAT) (Z.land (flags pkt) AL_ETH_TX_FLAGS_INT))
         (Z.land (flags pkt) AL_ETH_TX_PKT_UDMA_FLAGS)
  else Z.lor (Z.land (flags pkt) AL_ETH_TX_FLAGS_NO_SNOOP) AL_M2S_DESC_CONCAT.

(** From [m] to [m'] exactly the words of the buffers [i] to [n - 1] are written:
    the control word and the two address words of each, the meta word of the
    first. *)
Record tx_written (q : al_udma_q) (P : Z) (pkt : al_eth_pkt) (mc i n : Z) (m m' : Words) : Prop := mkTxWritten {
  tw_words j b : i <= j < n → rd (bufs pkt) j = Some b →
    m' !! dslot q (P + j) =
      Some (desc_word (tx_flags pkt j) (rid (q_size q) (P + j)) (blen b) (j =? num_of_bufs pkt - 1)) ∧
    (j = 0 → m' !! (dslot q (P + j) + 4) = Some mc) ∧
    ld64 m' (dslot q (P + j) + 8) = Some (Z.lor (addr b) (Z.shiftl (tgtid pkt) 48));
  tw_else a : (∀ j, i <= j < n → a <> dslot q (P + j) ∧ (j = 0 → a <> dslot q (P + j) + 4) ∧
                      a <> dslot q (P + j) + 8 ∧ a <> dslot q (P + j) + 12) → m' !! a = m !! a
}.

Section Prepare.
Implicit Types q : al_udma_q.

Lemma words_eq (m : Words) a v : (<[a := v]> m : Words) !! a = Some v.
Proof. apply lookup_insert_eq. Qed.
Lemma words_ne (m : Words) a b v : a <> b → (<[a := v]> m : Words) !! b = m !! b.
Proof. apply lookup_insert_ne. Qed.

Lemma st32_run m a v : is_Some (m !! a) → st32 m a v = Some (<[a := v]> m).
Proof. intros [w E]. unfold st32. by rewrite E. Qed.

Lemma tx_flags_next pkt i : 0 <= i →
  Z.lor (Z.land (tx_flags pkt i) AL_ETH_TX_FLAGS_NO_SNOOP) AL_M2S_DESC_CONCAT = tx_flags pkt (i + 1).
Proof.
  intros Hi. unfold tx_flags. rewrite (proj2 (Z.eqb_neq (i + 1) 0)) by lia. f_equal.
  assert (Z.land AL_M2S_DESC_FIRST AL_ETH_TX_FLAGS_NO_SNOOP = 0) as E1 by (vm_compute; reflexivity).
  assert (Z.land AL_M2S_DESC_CONCAT AL_ETH_TX_FLAGS_NO_SNOOP = 0) as E2 by (vm_compute; reflexivity).
  assert (Z.land AL_ETH_TX_FLAGS_INT AL_ETH_TX_FLAGS_NO_SNOOP = 0) as E3 by (vm_compute; reflexivity).
  assert (Z.land AL_ETH_TX_PKT_UDMA_FLAGS AL_ETH_TX_FLAGS_NO_SNOOP = AL_ETH_TX_FLAGS_NO_SNOOP) as E4
    by (vm_compute; reflexivity).
  assert (Z.land AL_ETH_TX_FLAGS_NO_SNOOP AL_ETH_TX_FLAGS_NO_SNOOP = AL_ETH_TX_FLAGS_NO_SNOOP) as E5
    by (vm_compute; reflexivity).
  destruct (i =? 0); rewrite !Z.land_lor_distr_l, <- !Z.land_assoc, ?E1, E2, ?E3, ?E4, ?E5, ?Z.land_0_r, ?Z.lor_0_r;
    reflexivity.
Qed.

Lemma st32_keeps m a v m' b : st32 m a v = Some m' → is_Some (m !! b) → is_Some (m' !! b).
Proof.
  unfold st32. destruct (m !! a); [|done]. intros [= <-] Hb.
  destruct (decide (a = b)) as [<-|N]; [rewrite words_eq; by eexists|by rewrite words_ne].
Qed.

(** One turn of the loop. *)
Lemma tx_written_one q P pkt mc i b m :
  rd (bufs pkt) i = Some b → 0 <= addr b < 2 ^ 64 → 0 <= tgtid pkt < 2 ^ 16 → dring_mapped q m →
  0 <= Z.lor (addr b) (Z.shiftl (tgtid pkt) 48) < 2 ^ 64 →
  let d := dslot q (P + i) in
  ∃ m1, (m ← st32 m d (desc_word (tx_flags pkt i) (rid (q_size q) (P + i)) (blen b) (i =? num_of_bufs pkt - 1));
         m ← (if i =? 0 then st32 m (d + 4) mc else Some m);
         st64 m (d + 8) (Z.lor (addr b) (Z.shiftl (tgtid pkt) AL_UDMA_DESC_TGTID_SHIFT))) = Some m1 ∧
    tx_written q P pkt mc i (i + 1) m m1.
Proof.
  intros Eb Ha Ht DM Hv d. set (w := desc_word _ _ _ _).
  set (v := Z.lor (addr b) (Z.shiftl (tgtid pkt) 48)) in *.
  change (Z.lor (addr b) (Z.shiftl (tgtid pkt) AL_UDMA_DESC_TGTID_SHIFT)) with v.
  pose proof (DM (P + i) 0 ltac:(lia)) as M0. pose proof (DM (P + i) 1 ltac:(lia)) as M4.
  pose proof (DM (P + i) 2 ltac:(lia)) as M8. pose proof (DM (P + i) 3 ltac:(lia)) as M12.
  rewrite Z.add_0_r in M0. change (4 * 1) with 4 in M4. change (4 * 2) with 8 in M8. change (4 * 3) with 12 in M12.
  fold d in M0, M4, M8, M12.
  rewrite st32_run by done. cbn [mbind option_bind].
  set (m2 := if i =? 0 then <[d + 4 := mc]> (<[d := w]> m) else <[d := w]> m : Words).
  assert ((if i =? 0 then st32 (<[d := w]> m) (d + 4) mc else Some (<[d := w]> m)) = Some m2) as ->.
  { unfold m2. destruct (i =? 0); [|done]. apply st32_run. by rewrite words_ne by lia. }
  cbn [mbind option_bind].
  assert (∀ a, a <> d → a <> d + 4 → m2 !! a = m !! a) as F2.
  { intros a N0 N4. unfold m2. destruct (i =? 0); rewrite !words_ne by lia; done. }
  unfold st64. rewrite st32_run by (rewrite F2 by lia; done). cbn [mbind option_bind].
  rewrite st32_run by (rewrite words_ne, F2 by lia; by replace (d + 8 + 4) with (d + 12) by lia).
  eexists. split; [reflexivity|]. replace (d + 8 + 4) with (d + 12) by lia. split.
  - intros j b' Hj Eb'. assert (j = i) as -> by lia. rewrite Eb in Eb'. injection Eb' as <-. fold d w v. split_and!.
    + rewrite !words_ne by lia. unfold m2.
      destruct (i =? 0); [rewrite words_ne by lia|]; apply words_eq.
    + intros ->. rewrite !words_ne by lia. unfold m2. cbn [Z.eqb]. apply words_eq.
    + unfold ld64, ld32. replace (d + 8 + 4) with (d + 12) by lia.
      rewrite (words_ne _ (d + 12) (d + 8)), !words_eq by lia. cbn [mbind option_bind]. by rewrite u32_split.
  - intros a Na. destruct (Na i ltac:(lia)) as (N0 & N4 & N8 & N12). fold d in N0, N4, N8, N12.
    rewrite !words_ne by lia. unfold m2.
    destruct (Z.eqb_spec i 0) as [E|E]; [specialize (N4 E)|]; rewrite !words_ne by lia; done.
Qed.

Lemma lor_addr_range a t : 0 <= a < 2 ^ 64 → 0 <= t < 2 ^ 16 → 0 <= Z.lor a (Z.shiftl t 48) < 2 ^ 64.
Proof.
  intros Ha Ht. assert (0 <= Z.shiftl t 48 < 2 ^ 64) as Hs by (rewrite Z.shiftl_mul_pow2 by lia; lia).
  split; [apply Z.lor_nonneg; lia|].
  destruct (Z.eq_dec (Z.lor a (Z.shiftl t 48)) 0) as [->|N]; [lia|].
  apply Z.log2_lt_pow2; [pose proof (proj2 (Z.lor_nonneg a (Z.shiftl t 48)) ltac:(lia)); lia|].
  rewrite Z.log2_lor by lia.
  assert (∀ x, 0 <= x < 2 ^ 64 → Z.log2 x < 64) as L.
  { intros x Hx. destruct (Z.eq_dec x 0) as [->|]; [done|]. apply Z.log2_lt_pow2; lia. }
  pose proof (L _ Ha). pose proof (L _ Hs). lia.
Qed.

(** The buffer loop, from buffer [i]; the descriptors of the earlier buffers are
    in place and stay. *)
Lemma tx_bufs_loop_spec n i pkt mc fl q m P C :
  pkt_ok pkt → C <= P → sub_rep q (P + i) C → 0 <= i → i + Z.of_nat n = num_of_bufs pkt →
  P + num_of_bufs pkt - C <= q_size q - AL_UDMA_MAX_NUM_CDESC_PER_CACHE_LINE →
  dring_mapped q m → fl_ok fl (i =? 0) → tx_descs_at q m P pkt 0 i →
  ∃ m', tx_bufs_loop n i pkt mc fl q m =
      Some (set_desc q ((P + num_of_bufs pkt) mod q_size q) (rid (q_size q) (P + num_of_bufs pkt)), m') ∧
    tx_descs_at q m' P pkt 0 (num_of_bufs pkt) ∧
    changes_in (desc_base_ptr q) (desc_base_ptr q + 16 * q_size q) m m'.
Proof.
  intros [PN PA PT _] HCP. revert i q m fl.
  induction n as [|n IH]; intros i q m fl S Hi Hn Hlt DM F D; cbn [tx_bufs_loop].
  { assert (i = num_of_bufs pkt) as -> by lia.
    exists m. split; [|done]. do 2 f_equal. destruct S as [_ _ _ <- <- _]. by destruct q. }
  pose proof S as [W R M _ _ _]. destruct (wf_bounds q W) as [B _].
  unfold AL_UDMA_MAX_NUM_CDESC_PER_CACHE_LINE in *.
  pose proof (desc_alloc q (P + i) C S) as A. unfold AL_UDMA_MAX_NUM_CDESC_PER_CACHE_LINE in A.
  specialize (A ltac:(lia)).
  destruct (al_udma_desc_get q) as [d q1]. destruct (al_udma_ring_id_get q1) as [r q2].
  destruct A as (-> & -> & -> & S2). set (q2 := set_desc q _ _) in *.
  destruct (proj2 (rd_is_Some (bufs pkt) i)) as [b Eb]; [lia|]. rewrite Eb. cbn [mbind option_bind].
  assert (0 <= addr b < 2 ^ 64) as Ha.
  { apply rd_in in Eb. exact (proj1 (list.Forall_forall _ _) PA b Eb). }
  pose proof (lor_addr_range (addr b) (tgtid pkt) Ha PT) as Hv.
  set (d := dslot q (P + i)). set (last := i =? num_of_bufs pkt - 1).
  change (Z.lor _ (Z.land (blen b) AL_M2S_DESC_LEN_MASK))
    with (desc_word fl (rid (q_size q) (P + i)) (blen b) last).
  set (w := desc_word fl _ _ _).
  pose proof (DM (P + i) 0 ltac:(lia)) as M0. pose proof (DM (P + i) 1 ltac:(lia)) as M4.
  pose proof (DM (P + i) 2 ltac:(lia)) as M8. pose proof (DM (P + i) 3 ltac:(lia)) as M12.
  rewrite Z.add_0_r in M0.
  assert (∃ m1, (m ← st32 m d w; m ← (if i =? 0 then st32 m (d + 4) mc else Some m);
                 st64 m (d + 8) (Z.lor (addr b) (Z.shiftl (tgtid pkt) AL_UDMA_DESC_TGTID_SHIFT))) = Some m1 ∧
    desc_at m1 d = Some (tx_desc q P pkt i b) ∧ changes_in d (d + 16) m m1) as (m1 & E1 & D1 & C1).
  { destruct (st32_spec m d w M0) as (m1 & -> & E1 & C1). cbn [mbind option_bind].
    assert (∃ m2, (if i =? 0 then st32 m1 (d + 4) mc else Some m1) = Some m2 ∧
              m2 !! d = Some w ∧ changes_in d (d + 8) m m2) as (m2 & -> & E2 & C2).
    { destruct (i =? 0).
      - destruct (st32_spec m1 (d + 4) mc) as (m2 & -> & _ & C2); [by apply C1|].
        exists m2. rewrite (proj1 C2 d) by lia. split_and!; try done.
        apply changes_in_trans with m1; [apply (changes_in_mono d (d + 1)); (lia || done)|].
        apply (changes_in_mono (d + 4) (d + 4 + 1)); (lia || done).
      - exists m1. split_and!; try done. apply (changes_in_mono d (d + 1)); (lia || done). }
    cbn [mbind option_bind].
    destruct (st64_spec m2 (d + 8) (Z.lor (addr b) (Z.shiftl (tgtid pkt) AL_UDMA_DESC_TGTID_SHIFT)))
      as (m3 & -> & E3 & C3); [by apply C2| |done|].
    { replace (d + 8 + 4) with (d + 12) by lia. by apply C2. }
    exists m3. split_and!; [done| |].
    - unfold desc_at, ld32. rewrite (proj1 C3 d) by lia. rewrite E2, E3. cbn [mbind option_bind]. unfold w.
      destruct (desc_word_decode fl (rid (q_size q) (P + i)) (blen b) last (i =? 0) F)
        as (-> & -> & -> & ->); [apply rid_range|done].
    - apply changes_in_trans with m2; [apply (changes_in_mono d (d + 8)); (lia || done)|].
      apply (changes_in_mono (d + 8) (d + 8 + 8)); (lia || done). }
  assert (changes_in (desc_base_ptr q) (desc_base_ptr q + 16 * q_size q) m m1) as CR.
  { pose proof (dslot_range q (P + i) W). apply (changes_in_mono d (d + 16)); (lia || done). }
  destruct (IH (i + 1) q2 m1 (Z.lor (Z.land fl AL_ETH_TX_FLAGS_NO_SNOOP) AL_M2S_DESC_CONCAT))
    as (m' & Em & Dm & Cm); try done; try lia.
  - by replace (P + (i + 1)) with (P + i + 1) by lia.
  - intros k j Hj. apply C1. apply (DM k j Hj).
  - apply fl_ok_bits; [intros k Hk K26|].
    + rewrite Z.lor_spec, Z.land_spec. unfold AL_ETH_TX_FLAGS_NO_SNOOP, AL_M2S_DESC_NO_SNOOP_H, AL_M2S_DESC_CONCAT.
      rewrite !AL_BIT_testbit by lia. destruct (Z.eqb_spec 29 k); [lia|]. destruct (Z.eqb_spec 31 k); [lia|].
      by rewrite andb_false_r.
    + destruct (Z.eqb_spec (i + 1) 0); [lia|]. rewrite Z.lor_spec, Z.land_spec.
      change (Z.testbit AL_ETH_TX_FLAGS_NO_SNOOP 26) with false. by rewrite andb_false_r.
  - intros j b' Hj Eb'. destruct (decide (j = i)) as [->|Nj].
    + rewrite Eb in Eb'. injection Eb' as <-. exact D1.
    + change (dslot q2 (P + j)) with (dslot q (P + j)).
      rewrite (desc_at_changes d (d + 16) m m1); [apply D; (lia || done)|done|].
      pose proof (dslot_apart q (P + j) (P + i) W ltac:(lia)). subst d. lia.
  - exists m'. split; [|split; [exact Dm|by apply changes_in_trans with m1]].
    destruct (st32 m d w) as [m2|]; [|done]. cbn [mbind option_bind] in E1 |- *.
    destruct (if i =? 0 then _ else _) as [m3|]; [|done]. cbn [mbind option_bind] in E1 |- *.
    rewrite E1. exact Em.
Qed.

(** The whole loop, word by word. *)
Lemma tx_bufs_loop_words n i pkt mc q m P C :
  pkt_ok pkt → C <= P → sub_rep q (P + i) C → 0 <= i → i + Z.of_nat n = num_of_bufs pkt →
  P + num_of_bufs pkt - C <= q_size q - AL_UDMA_MAX_NUM_CDESC_PER_CACHE_LINE → dring_mapped q m →
  ∃ q' m', tx_bufs_loop n i pkt mc (tx_flags pkt i) q m = Some (q', m') ∧
    tx_written q P pkt mc i (num_of_bufs pkt) m m'.
Proof.
  intros [PN PA PT _] HCP. revert i q m.
  induction n as [|n IH]; intros i q m S Hi Hn Hlt DM; cbn [tx_bufs_loop].
  { exists q, m. split; [done|]. split; [lia|done]. }
  pose proof S as [W _ _ _ _ _]. destruct (wf_bounds q W) as [B _].
  unfold AL_UDMA_MAX_NUM_CDESC_PER_CACHE_LINE in *.
  pose proof (desc_alloc q (P + i) C S) as A. unfold AL_UDMA_MAX_NUM_CDESC_PER_CACHE_LINE in A.
  specialize (A ltac:(lia)).
  destruct (al_udma_desc_get q) as [d q1]. destruct (al_udma_ring_id_get q1) as [r q2].
  destruct A as (-> & -> & -> & S2). set (q2 := set_desc q _ _) in *.
  destruct (proj2 (rd_is_Some (bufs pkt) i)) as [b Eb]; [lia|]. rewrite Eb. cbn [mbind option_bind].
  assert (0 <= addr b < 2 ^ 64) as Ha.
  { apply rd_in in Eb. exact (proj1 (list.Forall_forall _ _) PA b Eb). }
  destruct (tx_written_one q P pkt mc i b m Eb Ha PT DM (lor_addr_range _ _ Ha PT)) as (m1 & E1 & [W1 X1]).
  change (Z.lor _ (Z.land (blen b) AL_M2S_DESC_LEN_MASK))
    with (desc_word (tx_flags pkt i) (rid (q_size q) (P + i)) (blen b) (i =? num_of_bufs pkt - 1)).
  rewrite tx_flags_next by done.
  destruct (IH (i + 1) q2 m1) as (q' & m' & Em & [W2 X2]); try done; try lia.
  - by replace (P + (i + 1)) with (P + i + 1) by lia.
  - intros k j Hj. destruct (W1 i b ltac:(lia) Eb) as (_ & _ & _).
    assert (∀ a, is_Some (m !! a) → is_Some (m1 !! a)) as Keep; [|apply Keep, (DM k j Hj)].
    clear -E1. intros a Ha. destruct (st32 m _ _) as [m2|] eqn:S2; [|done]. cbn [mbind option_bind] in E1.
    assert (is_Some (m2 !! a)) as Ha2 by (by eapply st32_keeps).
    destruct (if i =? 0 then _ else _) as [m3|] eqn:S3; [|done]. cbn [mbind option_bind] in E1.
    assert (is_Some (m3 !! a)) as Ha3 by (destruct (i =? 0); [by eapply st32_keeps|by injection S3 as <-]).
    unfold st64 in E1. apply bind_Some in E1 as (m4 & S4 & E1).
    eapply st32_keeps; [exact E1|]. eapply st32_keeps; [exact S4|done].
  - exists q', m'. split.
    { destruct (st32 m _ _) as [m2|]; [|done]. cbn [mbind option_bind] in E1 |- *.
      destruct (if i =? 0 then _ else _) as [m3|]; [|done]. cbn [mbind option_bind] in E1 |- *.
      rewrite E1. exact Em. }
    change (dslot q2) with (dslot q) in *. change (q_size q2) with (q_size q) in *.
    assert (∀ a, dslot q (P + i) <= a < dslot q (P + i) + 16 → m' !! a = m1 !! a) as Own.
    { intros a Hs. apply X2. intros j Hj. pose proof (dslot_apart q (P + i) (P + j) W ltac:(lia)). lia. }
    split.
    + intros j b' Hj Eb'. destruct (decide (j = i)) as [->|Nj]; [|apply W2; (lia || done)].
      destruct (W1 i b' ltac:(lia) Eb') as (Y1 & Y2 & Y3). split_and!.
      * by rewrite Own by lia.
      * intros E0. rewrite Own by lia. by apply Y2.
      * unfold ld64, ld32 in *. by rewrite !Own by lia.
    + intros a Na. rewrite X2 by (intros j Hj; apply Na; lia). apply X1. intros j Hj. apply Na. lia.
Qed.

Lemma tx_pkt_prepare_run pkt q m P C :
  pkt_ok pkt → sub_rep q P C → dring_mapped q m →
  P + num_of_bufs pkt - C <= q_size q - AL_UDMA_MAX_NUM_CDESC_PER_CACHE_LINE →
  ∃ m', al_eth_tx_pkt_prepare q pkt m =
      Some (num_of_bufs pkt,
            set_desc q ((P + num_of_bufs pkt) mod q_size q) (rid (q_size q) (P + num_of_bufs pkt)), m') ∧
    tx_descs_at q m' P pkt 0 (num_of_bufs pkt) ∧
    changes_in (desc_base_ptr q) (desc_base_ptr q + 16 * q_size q) m m'.
Proof.
  intros K S DM Hlt. pose proof K as [PN _ _ FO]. unfold al_eth_tx_pkt_prepare.
  rewrite (available_spec q P C S), FO. cbn [negb].
  destruct (Z.ltb_spec (q_size q - AL_UDMA_MAX_NUM_CDESC_PER_CACHE_LINE - (P - C)) (num_of_bufs pkt)); [lia|].
  destruct (tx_bufs_loop_spec (Z.to_nat (num_of_bufs pkt)) 0 pkt (tx_meta_ctrl q pkt)
    (Z.lor (Z.lor (Z.lor AL_M2S_DESC_FIRST AL_M2S_DESC_CONCAT) (Z.land (flags pkt) AL_ETH_TX_FLAGS_INT))
       (Z.land (flags pkt) AL_ETH_TX_PKT_UDMA_FLAGS)) q m P C K) as (m' & E & D & Ch); try done; try lia.
  - destruct S; lia.
  - by rewrite Z.add_0_r.
  - change (0 =? 0) with true. apply fl_ok_bits.
    + intros k Hk K26. unfold AL_ETH_TX_PKT_UDMA_FLAGS, AL_M2S_DESC_FIRST, AL_M2S_DESC_CONCAT,
        AL_ETH_TX_FLAGS_INT, AL_ETH_TX_FLAGS_NO_SNOOP, AL_M2S_DESC_NO_SNOOP_H, AL_M2S_DESC_INT_EN.
      rewrite !Z.lor_spec, !Z.land_spec, !Z.lor_spec, !AL_BIT_testbit by lia.
      destruct (Z.eqb_spec 26 k); [lia|]. destruct (Z.eqb_spec 31 k); [lia|].
      destruct (Z.eqb_spec 28 k); [lia|]. destruct (Z.eqb_spec 29 k); [lia|].
      by rewrite !andb_false_r.
    + by rewrite !Z.lor_spec.
  - intros j b Hj. lia.
  - rewrite E. cbn [mbind option_bind]. exists m'. by split_and!.
Qed.
Lemma tx_pkt_prepare_words pkt q m P C k q' m' :
  pkt_ok pkt → sub_rep q P C → dring_mapped q m →
  P + num_of_bufs pkt - C <= q_size q - AL_UDMA_MAX_NUM_CDESC_PER_CACHE_LINE →
  al_eth_tx_pkt_prepare q pkt m = Some (k, q', m') →
  tx_written q P pkt (tx_meta_ctrl q pkt) 0 (num_of_bufs pkt) m m'.
Proof.
  intros K S DM Hlt E. pose proof K as [PN _ _ FO]. unfold al_eth_tx_pkt_prepare in E.
  rewrite (available_spec q P C S), FO in E. cbn [negb] in E.
  destruct (Z.ltb_spec (q_size q - AL_UDMA_MAX_NUM_CDESC_PER_CACHE_LINE - (P - C)) (num_of_bufs pkt)); [lia|].
  destruct (tx_bufs_loop_words (Z.to_nat (num_of_bufs pkt)) 0 pkt (tx_meta_ctrl q pkt) q m P C K)
    as (q2 & m2 & E2 & X); try done; try lia; [destruct S; lia|by rewrite Z.add_0_r|].
  change (tx_flags pkt 0) with
    (Z.lor (Z.lor (Z.lor AL_M2S_DESC_FIRST AL_M2S_DESC_CONCAT) (Z.land (flags pkt) AL_ETH_TX_FLAGS_INT))
       (Z.land (flags pkt) AL_ETH_TX_PKT_UDMA_FLAGS)) in E2.
  rewrite E2 in E. by injection E as _ _ <-.
Qed.
End Prepare.

(** ** Receiving a packet of one buffer *)

Section Receive.
Implicit Types q : al_udma_q.

Lemma comp_rep_ack q C Hd K n : comp_rep q C Hd K → 0 <= n → 
  comp_rep (al_udma_cdesc_ack q n) (C + n) Hd K.
Proof.
  intros [W (R1 & R2 & R3) A E1 E2 E3] Hn. constructor; cbn; try done; try lia.
  - destruct W; by constructor.
  - rewrite size_mask_mod, u16_mod, A by done. apply Zplus_mod_idemp_l.
Qed.

Lemma comp_rep_moved q C Hd K n k : comp_rep q C Hd K → 0 <= n → 0 <= k →
  comp_rep (moved q (rid (q_size q) n) n k) C n k.
Proof. intros [W R A E1 E2 E3] Hn Hk. constructor; cbn; try done; try lia. destruct W; by constructor. Qed.

Lemma sub_rep_moved q P C r n k : sub_rep q P C → sub_rep (moved q r n k) P C.
Proof. intros [W R M I G A]. constructor; cbn; try done. destruct W; by constructor. Qed.

Lemma cdesc_next_0 q n : q_wf q → al_cdesc_next q (slot q n) 0 = slot q n.
Proof.
  intros W. destruct (wf_bounds q W) as [B _]. destruct W as [_ _ Hc E].
  unfold al_cdesc_next. rewrite Z.mul_0_l, Z.add_0_r, E. unfold slot.
  pose proof (Z.mod_pos_bound n (q_size q) ltac:(lia)).
  destruct (Z.ltb_spec (cdesc_base_ptr q + (q_size q - 1) * cdesc_size q)
                       (cdesc_base_ptr q + n mod q_size q * cdesc_size q)); [nia|done].
Qed.

(** The length the completion reports for its buffer. *)
Definition rx_len (f l : Z) : Z :=
  if negb (Z.land f AL_UDMA_CDESC_BUF1_USED =? 0) then Z.land l AL_S2M_DESC_LEN_MASK else 0.

Lemma pkt_rx_none q pkt m C :
  comp_rep q C C 0 → Z.land (q_flags q) AL_UDMA_Q_FLAGS_NO_COMP_UPDATE = 0 → pend m q C [] →
  al_eth_pkt_rx q pkt m = Some (0, pkt, q, m).
Proof.
  intros R NC Pe. pose proof (wf_bounds q (comp_wf _ _ _ _ R)) as [B _].
  destruct (packet_get_run q m C [] []) as (r & E & G); try done; cbn; try lia.
  { by rewrite Z.add_0_r. }
  cbn in G. subst r. unfold al_eth_pkt_rx. rewrite E. cbn [mbind option_bind].
  rewrite Z.add_0_r. by rewrite (moved_same q C C 0 R).
Qed.

Lemma pkt_rx_one q pkt b0 bs m P C f l len1 w2 w3 :
  sub_rep q P C → comp_rep q C C 0 → Z.land (q_flags q) AL_UDMA_Q_FLAGS_NO_COMP_UPDATE = 0 →
  C < P → pend m q C (f :: l) → 1 + len l <= q_size q → cdesc_is_last f = true →
  q_rev_id q < AL_ETH_REV_ID_4 → bufs pkt = b0 :: bs →
  m !! (slot q C + 4) = Some len1 → m !! (slot q C + 8) = Some w2 → m !! (slot q C + 12) = Some w3 →
  ∃ pkt', al_eth_pkt_rx q pkt m =
      Some (1, pkt', al_udma_cdesc_ack (moved q (rid (q_size q) (C + 1)) (C + 1) 0) 1, m) ∧
    flags pkt' = f ∧ bufs pkt' = mkBuf (addr b0) (rx_len f len1) :: bs ∧
    sub_rep (al_udma_cdesc_ack (moved q (rid (q_size q) (C + 1)) (C + 1) 0) 1) P (C + 1) ∧
    comp_rep (al_udma_cdesc_ack (moved q (rid (q_size q) (C + 1)) (C + 1) 0) 1) (C + 1) (C + 1) 0.
Proof.
  intros S R NC HP Pe Hl Lf Rev Eb M4 M8 M12.
  pose proof (comp_wf _ _ _ _ R) as W. pose proof (comp_range _ _ _ _ R) as (HC & _).
  destruct (packet_get_run q m C [] (f :: l)) as (r & E & G); try done; cbn [length]; try lia.
  { by rewrite Z.add_0_r. }
  cbn [app scan] in G. change (negb (0 =? 0)) with false in G. cbn [andb] in G.
  rewrite Lf in G. cbn [got] in G. change (0 + 1) with 1 in G. subst r.
  pose proof Pe as [PF _]. destruct (PF 0%nat f eq_refl) as [M0 _].
  change (C + Z.of_nat 0) with (C + 0) in M0. rewrite Z.add_0_r in M0.
  set (q' := moved q (rid (q_size q) (C + 1)) (C + 1) 0) in *.
  assert (q_wf q') as W' by (destruct W; by constructor).
  assert (al_cdesc_next q' (slot q C) 0 = slot q C) as N0 by exact (cdesc_next_0 q' C W').
  unfold al_eth_pkt_rx. rewrite E. cbn [mbind option_bind].
  change (1 =? 0) with false. change (AL_ETH_PKT_MAX_BUFS <? 1) with false. cbv iota.
  change (Z.to_nat 1) with 1%nat. cbn [rx_bufs_loop]. rewrite N0, Eb. unfold ld32.
  rewrite M4. cbn [mbind option_bind]. change (0 =? 0) with true. cbv iota.
  rewrite M8. cbn [mbind option_bind]. rewrite M0. cbn [mbind option_bind rd].
  change (0 =? 0) with true. cbv iota. cbn [mbind option_bind].
  unfold wrn at 1. unfold in_bounds. cbn [length].
  assert ((0 <=? 0) && (0 <=? Z.of_nat 1) && (0 + Z.of_nat 1 <=? Z.of_nat (Datatypes.S (length bs))) = true)
    as -> by (rewrite !andb_true_iff, !Z.leb_le; lia).
  cbn [mbind option_bind]. change (1 - 1) with 0. rewrite N0, M0. cbn [mbind option_bind].
  rewrite M4. cbn [mbind option_bind]. rewrite M8. cbn [mbind option_bind]. rewrite M12.
  cbn [mbind option_bind]. change (q_rev_id q') with (q_rev_id q).
  destruct (Z.eqb_spec (q_rev_id q) AL_ETH_REV_ID_4); [lia|].
  destruct (Z.leb_spec AL_ETH_REV_ID_4 (q_rev_id q)); [lia|]. cbn [andb mbind option_bind].
  eexists. split; [reflexivity|]. split_and!; try done.
  - apply ack_spec; [by apply sub_rep_moved|lia].
  - apply comp_rep_ack; [|lia]. apply (comp_rep_moved q C C 0); [done|lia|lia].
Qed.
End Receive.

(** ** A queue after al_udma_q_init *)

Section Init.
Context {H : Type} `{Mmio H, Timer H}.

Lemma pow2_of_land x : 0 < x → Z.land x (x - 1) = 0 → x = 2 ^ Z.log2 x.
Proof.
  intros Hx L. destruct (Z.log2_spec x Hx) as [Lo Hi].
  destruct (Z.eq_dec x (2 ^ Z.log2 x)) as [|N]; [done|exfalso].
  pose proof (Z.log2_nonneg x).
  assert (Z.log2 (x - 1) = Z.log2 x) as E by (apply Z.log2_unique; lia).
  assert (0 < x - 1) by (pose proof (Z.pow_pos_nonneg 2 (Z.log2 x)); lia).
  assert (Z.testbit (Z.land x (x - 1)) (Z.log2 x) = true) as T.
  { rewrite Z.land_spec, Z.bit_log2 by lia. rewrite <- E. by apply Z.bit_log2. }
  rewrite L, Z.bits_0 in T. done.
Qed.

(** What al_udma_q_init leaves of the structure. *)
Lemma q_init_result u id p (h : H) u' h' :
  al_udma_q_init u id p h = Some (0, u', h') →
  ∃ old fl, id < num_of_queues u ∧ rd (udma_q u) id = Some old ∧ q_status old <> AL_QUEUE_ENABLED ∧
    AL_UDMA_MIN_Q_SIZE <= p_size p <= AL_UDMA_MAX_Q_SIZE ∧ Z.land (p_size p) (p_size p - 1) = 0 ∧
    fl = (if p_cdesc_base p =? 0 then AL_UDMA_Q_FLAGS_NO_COMP_UPDATE else 0) ∧
    wrn (udma_q u) id [set_status (q_init_fields old id p) fl AL_QUEUE_ENABLED] = Some (udma_q u') ∧
    udma_type u' = udma_type u ∧ num_of_queues u' = num_of_queues u ∧ udma_regs u' = udma_regs u.
Proof.
  unfold al_udma_q_init. destruct (Z.leb_spec (num_of_queues u) id); [by intros [= ? _ _]|].
  destruct (rd (udma_q u) id) as [old|] eqn:Eo; [|done]. cbn [mbind option_bind].
  destruct (bool_decide (q_status old = AL_QUEUE_ENABLED)) eqn:Eb; [by intros [= ? _ _]|].
  apply bool_decide_eq_false_1 in Eb.
  destruct (Z.ltb_spec (p_size p) AL_UDMA_MIN_Q_SIZE); [by intros [= ? _ _]|].
  destruct (Z.ltb_spec AL_UDMA_MAX_Q_SIZE (p_size p)); [by intros [= ? _ _]|].
  destruct (Z.eqb_spec (Z.land (p_size p) (p_size p - 1)) 0); cbn [negb]; [|by intros [= ? _ _]].
  unfold al_udma_q_set_pointers, al_udma_q_enable. cbn [cdesc_base_ptr q_init_fields].
  destruct (_ =? 0); [|done].
  destruct (p_cdesc_base p =? 0) eqn:Ec.
  - cbn [mbind option_bind]. destruct (MmioRead32 _ _) as [v h1].
    cbn [mbind option_bind]. destruct (wrn _ _ _) as [qs|] eqn:Ew; [|done].
    cbn [mbind option_bind]. intros [= <- <-]. exists old, AL_UDMA_Q_FLAGS_NO_COMP_UPDATE.
    split_and!; try done.
  - destruct (Z.land (AL_ADDR_LOW (cdesc_phy_base _)) _ =? 0); [|done].
    cbn [mbind option_bind]. destruct (MmioRead32 _ _) as [v h1].
    cbn [mbind option_bind]. destruct (wrn _ _ _) as [qs|] eqn:Ew; [|done].
    cbn [mbind option_bind]. intros [= <- <-]. exists old, 0.
    split_and!; try done.
Qed.

Lemma init_fields_rep old id p fl st :
  AL_UDMA_MIN_Q_SIZE <= p_size p <= AL_UDMA_MAX_Q_SIZE → Z.land (p_size p) (p_size p - 1) = 0 →
  0 < p_cdesc_size p →
  sub_rep (set_status (q_init_fields old id p) fl st) 0 0 ∧
  comp_rep (set_status (q_init_fields old id p) fl st) 0 0 0.
Proof.
  unfold AL_UDMA_MIN_Q_SIZE, AL_UDMA_MAX_Q_SIZE. rewrite Z.shiftl_1_l. intros Hs Hp Hc.
  assert (q_wf (set_status (q_init_fields old id p) fl st)) as W.
  { constructor; cbn; try done.
    - exists (Z.log2 (p_size p)). pose proof (pow2_of_land (p_size p) ltac:(lia) Hp) as E.
      split; [|done]. split; [apply Z.log2_le_pow2; lia|].
      destruct (Z_le_gt_dec (Z.log2 (p_size p)) 16); [done|].
      pose proof (Z.pow_le_mono_r 2 17 (Z.log2 (p_size p))). lia.
    - by rewrite u16_small by lia. }
  assert (0 < p_size p) by lia.
  split; constructor; cbn; try done; try lia.
  - unfold AL_UDMA_MAX_NUM_CDESC_PER_CACHE_LINE. lia.
  - unfold slot. cbn. rewrite Zmod_0_l. lia.
Qed.
End Init.

(** ** Properties *)

(** C31: Reading a packet in pieces gives what reading it at once gives: whatever
    part [l1] of the completions earlier calls have seen, the answer of
    al_udma_cdesc_packet_get is that of the scan of all of them from the packet's
    first descriptor, and the queue is left at the descriptor after the packet
    (or at the end of an incomplete one). *)
Theorem packet_get_resumes q m C l1 l2
    (Hq : comp_rep q C (C + len l1) (len l1))
    (Hupd : Z.land (q_flags q) AL_UDMA_Q_FLAGS_NO_COMP_UPDATE = 0)
    (Hseen : scan 0 l1 = Partial (len l1))
    (Hring : pend m q C (l1 ++ l2))
    (Hlap : len l1 + len l2 <= q_size q) :
  ∃ n cdesc q' m', al_udma_cdesc_packet_get q m = Some (n, cdesc, q', m') ∧
  match scan 0 (l1 ++ l2) with
  | Partial k => n = 0 ∧ k = len (l1 ++ l2) ∧ m' = m ∧ comp_rep q' C (C + k) k
  | Whole k => n = k ∧ cdesc = slot q C ∧ m' = m ∧ comp_rep q' C (C + k) 0
  | Trimmed k => n = k ∧ cdesc = slot q C ∧
      (∀ a, a <> slot q (C + k - 1) → m' !! a = m !! a) ∧
      (∃ v, m' !! slot q (C + k - 1) = Some v ∧ cdesc_is_last v = true) ∧
      ((C + k) mod q_size q <> 0 → comp_rep q' C (C + k) 0)
  end.
Proof.
  destruct (packet_get_run q m C l1 l2) as (r & E & G); try done.
  pose proof (scan_bounds 0 (l1 ++ l2) ltac:(lia)) as B.
  pose proof (comp_range _ _ _ _ Hq) as (HC & _).
  assert (0 <= len (l1 ++ l2)) by lia.
  destruct (scan 0 (l1 ++ l2)) as [k|k|k]; cbn [got] in G.
  - subst r. do 4 eexists. split; [exact E|]. split_and!; try done; try lia.
    eapply comp_rep_moved; [exact Hq|lia|lia].
  - subst r. do 4 eexists. split; [exact E|]. split_and!; try done; try lia.
    eapply comp_rep_moved; [exact Hq|lia|lia].
  - destruct G as (v & Ev & ->). do 4 eexists. split; [exact E|]. split_and!; try done.
    + intros a Ha. by apply lookup_insert_ne.
    + eexists. split; [apply lookup_insert_eq|]. unfold cdesc_is_last.
      rewrite Z.land_comm, !Z.land_lor_distr_r.
      change (Z.land AL_UDMA_CDESC_LAST AL_UDMA_CDESC_LAST) with AL_UDMA_CDESC_LAST.
      apply negb_true_iff, Z.eqb_neq. intros Z0. apply Z.lor_eq_0_iff in Z0 as [_ Z0].
      by apply Z.lor_eq_0_iff in Z0 as [_ Z0].
    + intros Hk. unfold trim_rid. destruct (Z.eqb_spec ((C + k) mod q_size q) 0); [done|].
      eapply comp_rep_moved; [exact Hq|lia|lia].
Qed.

(** Whatever the completion ring holds, al_udma_cdesc_packet_get returns: its
    loop, which has no bound of its own, meets a word of an earlier lap within
    one turn of the ring. It reads only the ring, reports at most the ring's
    descriptors, and writes to nothing but the ring. *)
Theorem packet_get_terminates q m n
    (Hq : q_wf q) (Hmap : cring_mapped q m) (Hn : 0 <= n) (Hhead : comp_head_ptr q = slot q n)
    (Hrid : 0 <= comp_ring_id q < 4) (Hnew : pkt_crnt_descs q = 0)
    (Hupd : Z.land (q_flags q) AL_UDMA_Q_FLAGS_NO_COMP_UPDATE = 0) :
  ∃ count cdesc q' m', al_udma_cdesc_packet_get q m = Some (count, cdesc, q', m') ∧
    0 <= count <= q_size q ∧ ∀ a, (∀ j, a <> slot q j) → m' !! a = m !! a.
Proof.
  destruct (packet_get_tame q m n Hq Hmap Hn Hhead Hrid Hnew Hupd) as ([[[c d] q'] m'] & E & T).
  by exists c, d, q', m'.
Qed.

(** A packet that the engine cut short is closed at its last descriptor. When
    that descriptor is the last of the ring, the ring id is advanced twice, and
    the next call does not see the packet that follows, although the engine has
    written it. *)
Theorem packet_get_trim_wraps q m C l1 l2 k
    (Hq : comp_rep q C (C + len l1) (len l1))
    (Hupd : Z.land (q_flags q) AL_UDMA_Q_FLAGS_NO_COMP_UPDATE = 0)
    (Hseen : scan 0 l1 = Partial (len l1))
    (Hring : pend m q C (l1 ++ l2))
    (Hlap : len l1 + len l2 <= q_size q)
    (Htrim : scan 0 (l1 ++ l2) = Trimmed k)
    (Hend : (C + k) mod q_size q = 0) :
  ∃ cdesc q' m' f cdesc', al_udma_cdesc_packet_get q m = Some (k, cdesc, q', m') ∧
    m' !! slot q (C + k) = Some f ∧ cdesc_is_first f = true ∧ ring_bits f = rid (q_size q) (C + k) ∧
    al_udma_cdesc_packet_get (al_udma_cdesc_ack q' k) m' = Some (0, cdesc', al_udma_cdesc_ack q' k, m').
Proof.
  destruct (packet_get_run q m C l1 l2) as (r & E & G); try done.
  rewrite Htrim in G. destruct G as (v & Ev & ->).
  destruct (scan_trimmed_at _ _ _ (Z.le_refl 0) Htrim) as (f & Ef & Ff).
  pose proof (comp_wf _ _ _ _ Hq) as W. destruct (wf_bounds q W) as [B _].
  pose proof Hring as [PF _]. destruct (PF _ _ Ef) as [Mf Rf].
  pose proof (scan_bounds 0 (l1 ++ l2) ltac:(lia)) as Bk. rewrite Htrim in Bk.
  replace (C + Z.of_nat (Z.to_nat (k - 0))) with (C + k) in * by lia.
  assert (mark m (slot q (C + k - 1)) v !! slot q (C + k) = Some f) as Mf'.
  { unfold mark. etransitivity; [apply lookup_insert_ne|exact Mf]. apply slot_inj; [done|lia]. }
  do 5 eexists. split; [exact E|]. split_and!; try done.
  unfold al_udma_cdesc_packet_get. cbn [q_flags al_udma_cdesc_ack set_next_cdesc moved set_head set_comp_ring_id].
  rewrite Hupd. change (negb (0 =? 0)) with false. cbv iota.
  unfold ld32. change (comp_head_ptr _) with (slot q (C + k)). rewrite Mf'. cbn [mbind option_bind].
  unfold al_udma_new_cdesc. change (comp_ring_id _) with (trim_rid (q_size q) (C + k)).
  fold (ring_bits f). rewrite Rf. unfold trim_rid. rewrite Hend. change (0 =? 0) with true. cbv iota.
  pose proof (rid_range (q_size q) (C + k)) as RR.
  destruct (Z.eqb_spec (rid (q_size q) (C + k)) ((rid (q_size q) (C + k) + 1) mod 4)) as [Q|Q]; [|done].
  exfalso. destruct (decide (rid (q_size q) (C + k) = 3)) as [T|T]; [by rewrite T in Q|].
  rewrite Z.mod_small in Q; lia.
Qed.

(** C32: al_eth_tx_pkt_prepare with room for the packet, word by word: one descriptor
    per buffer from the next free one on, around the end of the ring. The control
    word of each has first and last marked, the ring id of the lap, the low 16 bits
    of the length and the flags of [tx_flags] (the interrupt flag on the first
    only), the meta word of the first is [tx_meta_ctrl], the two address words are
    the buffer's address with the target id; and no other word of memory changes,
    neither in another descriptor of the ring nor the meta word of a descriptor
    after the first. The queue moves on by the packet's descriptors and is
    otherwise the same. Without room nothing happens. *)
Theorem tx_pkt_prepare_exact pkt q m P C
    (Hpkt : pkt_ok pkt) (Hq : sub_rep q P C) (Hmap : dring_mapped q m) :
  (q_size q - AL_UDMA_MAX_NUM_CDESC_PER_CACHE_LINE < P - C + num_of_bufs pkt ∧
   al_eth_tx_pkt_prepare q pkt m = Some (0, q, m))
  ∨ let q' := set_desc q ((P + num_of_bufs pkt) mod q_size q) (rid (q_size q) (P + num_of_bufs pkt)) in
    ∃ m', al_eth_tx_pkt_prepare q pkt m = Some (num_of_bufs pkt, q', m') ∧
      sub_rep q' (P + num_of_bufs pkt) C ∧
      tx_descs_at q m' P pkt 0 (num_of_bufs pkt) ∧
      tx_written q P pkt (tx_meta_ctrl q pkt) 0 (num_of_bufs pkt) m m'.
Proof.
  destruct (Z_lt_le_dec (q_size q - AL_UDMA_MAX_NUM_CDESC_PER_CACHE_LINE) (P - C + num_of_bufs pkt)).
  - left. split; [done|]. unfold al_eth_tx_pkt_prepare. rewrite (available_spec q P C Hq).
    by destruct (Z.ltb_spec (q_size q - AL_UDMA_MAX_NUM_CDESC_PER_CACHE_LINE - (P - C)) (num_of_bufs pkt));
      [|lia].
  - right. destruct (tx_pkt_prepare_run pkt q m P C) as (m' & E & D & _); try done; [lia|].
    exists m'. split; [exact E|]. split_and!; [|done|eapply (tx_pkt_prepare_words pkt q m P C); try done; lia].
    destruct Hq as [W R M I G A], Hpkt as [PN _ _ _]. constructor; cbn; try done; try lia.
    destruct W; by constructor.
Qed.

(** A queue that al_udma_q_init accepts is an empty ring, on both sides, with
    as many entries as asked for, a power of two between 32 and 65536; it was
    not enabled before and it is now. *)
Theorem q_init_empty {H} `{Mmio H, Timer H} u id p (h : H) u' h'
    (Hid : 0 <= id) (Hsize : 0 < p_cdesc_size p)
    (Hrun : al_udma_q_init u id p h = Some (0, u', h')) :
  ∃ old q, rd (udma_q u) id = Some old ∧ q_status old <> AL_QUEUE_ENABLED ∧
    rd (udma_q u') id = Some q ∧ q_status q = AL_QUEUE_ENABLED ∧
    q_size q = p_size p ∧ sub_rep q 0 0 ∧ comp_rep q 0 0 0 ∧
    al_udma_available_get q = p_size p - AL_UDMA_MAX_NUM_CDESC_PER_CACHE_LINE ∧
    al_udma_is_empty q = true.
Proof.
  destruct (q_init_result u id p h u' h' Hrun) as (old & fl & _ & Eo & No & Sz & Pw & _ & Ew & _).
  set (q := set_status (q_init_fields old id p) fl AL_QUEUE_ENABLED) in *.
  destruct (init_fields_rep old id p fl AL_QUEUE_ENABLED Sz Pw Hsize) as [S R].
  exists old, q. split_and!; try done.
  - destruct (wrn_1 (udma_q u) id q (rd_Some _ _ _ Eo)) as (l' & El & _ & Rl).
    rewrite El in Ew. injection Ew as <-. by rewrite Rl, Z.eqb_refl.
  - rewrite (available_spec q 0 0 S). cbn. lia.
Qed.

(** ** Witnesses *)

(** [n] cleared words from [a] on. *)
Definition zero_words (a : Z) (n : nat) (m : Words) : Words :=
  foldr (λ i m, <[a + 4 * Z.of_nat i := 0]> m) m (seq 0 n).

(** A ring of 32 at 0x1000 and 0x2000, at position [n] on both sides. *)
Definition demo_q (n K : Z) : al_udma_q :=
  mkQ 31 0xFE000000 0x1000 (n mod 32) (rid 32 n) 0x2000 16 (n mod 32) (0x2000 + 31 * 16) 0
    (0x2000 + ((n + K) mod 32) * 16) K (rid 32 (n + K)) 0x1000 0x2000 0 32 AL_QUEUE_ENABLED 0 2.

Definition demo_m (ws : list (Z * Z)) : Words :=
  foldr (λ x m, <[x.1 := x.2]> m) (zero_words 0x1000 128 (zero_words 0x2000 128 ∅)) ws.

Definition cw (r b : Z) : Z := Z.lor (Z.shiftl r 24) b.

Definition pendb (m : Words) (q : al_udma_q) (n : Z) (l : list Z) : bool :=
  forallb (λ i, bool_decide (m !! slot q (n + Z.of_nat i) = l !! i) &&
                match l !! i with Some f => ring_bits f =? rid (q_size q) (n + Z.of_nat i) | None => false end)
    (seq 0 (length l)) &&
  match m !! slot q (n + len l) with
  | Some w => negb (ring_bits w =? rid (q_size q) (n + len l))
  | None => false
  end.

Lemma pendb_spec m q n l : pendb m q n l = true → pend m q n l.
Proof.
  unfold pendb. intros [F S]%andb_true_iff. constructor.
  - intros i f E. rewrite forallb_forall in F. pose proof (lookup_lt_Some _ _ _ E).
    specialize (F i ltac:(apply in_seq; lia)). rewrite E in F.
    apply andb_true_iff in F as [F1 F2]. apply bool_decide_eq_true_1 in F1. by apply Z.eqb_eq in F2.
  - destruct (m !! slot q (n + len l)) as [w|]; [|done]. exists w. split; [done|].
    by apply negb_true_iff, Z.eqb_neq in S.
Qed.

Lemma demo_wf n K : q_wf (demo_q n K).
Proof. constructor; try done. by exists 5. Qed.

Lemma demo_comp n K : 0 <= n → 0 <= K → comp_rep (demo_q n K) n (n + K) K.
Proof. intros Hn HK. constructor; try done; [apply demo_wf|lia]. Qed.

Lemma demo_sub n : 0 <= n → sub_rep (demo_q n 0) n n.
Proof.
  intros Hn. constructor; try done; try apply demo_wf;
    cbn; unfold AL_UDMA_MAX_NUM_CDESC_PER_CACHE_LINE; lia.
Qed.

(** A packet of three descriptors around the end of the ring, one seen before. *)
Definition demo_split : Words :=
  demo_m [(0x21E0, cw 1 AL_UDMA_CDESC_FIRST); (0x21F0, cw 1 0); (0x2000, cw 2 AL_UDMA_CDESC_LAST)].

Lemma packet_get_resumes_witness :
  ∃ q', al_udma_cdesc_packet_get (demo_q 30 1) demo_split = Some (3, slot (demo_q 30 1) 30, q', demo_split)
    ∧ comp_rep q' 30 33 0.
Proof.
  destruct (packet_get_resumes (demo_q 30 1) demo_split 30 [cw 1 AL_UDMA_CDESC_FIRST]
              [cw 1 0; cw 2 AL_UDMA_CDESC_LAST]) as (n & c & q' & m' & E & R).
  - by apply (demo_comp 30 1).
  - reflexivity.
  - reflexivity.
  - apply pendb_spec. vm_compute. reflexivity.
  - cbn. lia.
  - change (scan 0 _) with (Whole 3) in R. destruct R as (-> & -> & -> & R). by exists q'.
Defined.

Lemma packet_get_terminates_witness :
  ∃ count cdesc q' m', al_udma_cdesc_packet_get (demo_q 30 0) demo_split = Some (count, cdesc, q', m') ∧
    0 <= count <= 32 ∧ ∀ a, (∀ j, a <> slot (demo_q 30 0) j) → m' !! a = demo_split !! a.
Proof.
  apply (packet_get_terminates (demo_q 30 0) demo_split 30).
  - apply demo_wf.
  - apply cring_mapped_finite; [cbn; lia|]. intros i Hi. cbn in Hi |- *.
    assert (forallb (λ i, bool_decide (is_Some (demo_split !! (0x2000 + Z.of_nat i * 16)))) (seq 0 32) = true)
      as F by (vm_compute; reflexivity).
    rewrite forallb_forall in F. specialize (F (Z.to_nat i) ltac:(apply in_seq; lia)).
    apply bool_decide_eq_true_1 in F. by rewrite Z2Nat.id in F by lia.
  - lia.
  - reflexivity.
  - cbn. apply rid_range.
  - reflexivity.
  - reflexivity.
Defined.

(** A first descriptor at the end of the ring, and the next packet. *)
Definition demo_cut : Words :=
  demo_m [(0x21F0, cw 1 AL_UDMA_CDESC_FIRST);
          (0x2000, cw 2 (Z.lor AL_UDMA_CDESC_FIRST AL_UDMA_CDESC_LAST))].

Lemma packet_get_trim_wraps_witness :
  ∃ cdesc q' m' f cdesc', al_udma_cdesc_packet_get (demo_q 31 0) demo_cut = Some (1, cdesc, q', m') ∧
    m' !! slot (demo_q 31 0) 32 = Some f ∧ cdesc_is_first f = true ∧ ring_bits f = rid 32 32 ∧
    al_udma_cdesc_packet_get (al_udma_cdesc_ack q' 1) m' = Some (0, cdesc', al_udma_cdesc_ack q' 1, m').
Proof.
  apply (packet_get_trim_wraps (demo_q 31 0) demo_cut 31 [] [cw 1 AL_UDMA_CDESC_FIRST;
           cw 2 (Z.lor AL_UDMA_CDESC_FIRST AL_UDMA_CDESC_LAST)] 1).
  - by apply (demo_comp 31 0).
  - reflexivity.
  - reflexivity.
  - apply pendb_spec. vm_compute. reflexivity.
  - cbn. lia.
  - reflexivity.
  - reflexivity.
Defined.

Definition demo_pkt : al_eth_pkt :=
  mkPkt 0 0 0 0 0 0 0 0 0 0 0 0 0 0 0 0 0 0 2 [mkBuf 0x40000 60; mkBuf 0x50000 1500].

Lemma tx_pkt_prepare_exact_witness :
  (16 < 2 ∧ al_eth_tx_pkt_prepare (demo_q 31 0) demo_pkt (demo_m []) = Some (0, demo_q 31 0, demo_m []))
  ∨ let q' := set_desc (demo_q 31 0) 1 (rid 32 33) in
    ∃ m', al_eth_tx_pkt_prepare (demo_q 31 0) demo_pkt (demo_m []) = Some (2, q', m') ∧
      sub_rep q' 33 31 ∧ tx_descs_at (demo_q 31 0) m' 31 demo_pkt 0 2 ∧
      tx_written (demo_q 31 0) 31 demo_pkt (tx_meta_ctrl (demo_q 31 0) demo_pkt) 0 2 (demo_m []) m'.
Proof.
  apply (tx_pkt_prepare_exact demo_pkt (demo_q 31 0) (demo_m []) 31 31).
  - constructor; cbn; try lia; [|reflexivity]. repeat constructor; cbn; lia.
  - by apply (demo_sub 31).
  - intros n k Hk. unfold dslot. cbn [desc_base_ptr q_size demo_q].
    pose proof (Z.mod_pos_bound n 32 ltac:(lia)) as B.
    assert (forallb (λ i, bool_decide (is_Some (demo_m [] !! (0x1000 + 4 * Z.of_nat i)))) (seq 0 128) = true)
      as F by (vm_compute; reflexivity).
    rewrite forallb_forall in F.
    specialize (F (Z.to_nat (4 * (n mod 32) + k)) ltac:(apply in_seq; lia)).
    apply bool_decide_eq_true_1 in F. rewrite Z2Nat.id in F by lia.
    by replace (0x1000 + 16 * (n mod 32) + 4 * k) with (0x1000 + 4 * (4 * (n mod 32) + k)) by lia.
Defined.

(** Registers that read 0. *)
Definition null_mmio : Mmio unit := {| MmioRead32 _ h := (0, h); MmioWrite32 _ _ h := h |}.
Definition null_timer : Timer unit := {| us_delay _ h := h |}.

Definition demo_udma : al_udma :=
  mkUdma UDMA_RX 1 0xFE010000 [mkQ 0 0xFE011000 0 0 0 0 0 0 0 0 0 0 0 0 0 0 0 AL_QUEUE_DISABLED 0 0].

Lemma q_init_empty_witness :
  ∃ u', al_udma_q_init (H0 := null_mmio) demo_udma 0 (mkQParams 64 0x1000 0x1000 0x2000 0x2000 16 2) tt
    = Some (0, u', tt) ∧
  ∃ old q, rd (udma_q demo_udma) 0 = Some old ∧ q_status old <> AL_QUEUE_ENABLED ∧
    rd (udma_q u') 0 = Some q ∧ q_status q = AL_QUEUE_ENABLED ∧
    q_size q = 64 ∧ sub_rep q 0 0 ∧ comp_rep q 0 0 0 ∧
    al_udma_available_get q = 48 ∧ al_udma_is_empty q = true.
Proof.
  eexists. split; [vm_compute; reflexivity|].
  eapply (q_init_empty (H0 := null_mmio) (H1 := null_timer) demo_udma 0
            (mkQParams 64 0x1000 0x1000 0x2000 0x2000 16 2) tt _ tt); [lia|cbn; lia|].
  vm_compute. reflexivity.
Defined.
