(* ===== verification/Eth.v ===== *)
(** * The Ethernet driver

    Drivers/AlEthNextDxe: the Simple Network Protocol over the Alpine Ethernet
    controller. Its queues are those of [Udma]; the rest of the HAL (adapter, MAC
    and MDIO bring-up), the caches and the page attributes are operations of the
    class [EthHw] on the hardware's state. The memory that the driver shares with
    the controller is explicit: the words of the descriptor rings and the pages it
    has allocated. *)

From S2P Require Import Prelude Efi Udma.

(** ** Constants (AlEthNextDxe.h) *)

Definition AL_ETH_VENDOR_ID : Z := 0x1C36.
Definition AL_ETH_DEVICE_ID : Z := 0x0001.
Definition AL_ETH_NUM_RX_DESC : Z := 32.
Definition AL_ETH_RX_BUF_SIZE : Z := 2048.
Definition AL_ETH_MAX_PKT_SIZE : Z := 1518.
Definition AL_ETH_CDESC_SIZE : Z := 16.
Definition AL_ETH_DESC_SIZE : Z := 16.
Definition AL_ETH_DESCS_PER_Q : Z := 64.
Definition AL_ETH_Q_DESCS_SIZE : Z := AL_ETH_DESCS_PER_Q * AL_ETH_DESC_SIZE.
Definition TX_SDESC_OFFSET : Z := 0 * AL_ETH_Q_DESCS_SIZE.
Definition TX_CDESC_OFFSET : Z := 1 * AL_ETH_Q_DESCS_SIZE.
Definition RX_SDESC_OFFSET : Z := 2 * AL_ETH_Q_DESCS_SIZE.
Definition RX_CDESC_OFFSET : Z := 3 * AL_ETH_Q_DESCS_SIZE.
Definition TOTAL_DESC_SIZE : Z := 4 * AL_ETH_Q_DESCS_SIZE.
Definition MAC_GEN_RGMII_STAT : Z := 0x91C.
Definition RGMII_STAT_LINK : Z := 0x10.
Definition MAC_1G_CMD_CFG : Z := 0x008.
Definition MAC_1G_CMD_PROMIS_EN : Z := 0x10.
Definition EFI_PAGE_SIZE : Z := 4096.
Definition EFI_SIZE_TO_PAGES (n : Z) : Z := (n + (EFI_PAGE_SIZE - 1)) / EFI_PAGE_SIZE.
Definition EFI_PAGES_TO_SIZE (n : Z) : Z := n * EFI_PAGE_SIZE.
Definition EFI_SIMPLE_NETWORK_RECEIVE_UNICAST : Z := 0x01.
Definition EFI_SIMPLE_NETWORK_RECEIVE_BROADCAST : Z := 0x04.
Definition EFI_SIMPLE_NETWORK_RECEIVE_PROMISCUOUS : Z := 0x08.
Definition NET_ETHER_ADDR_LEN : Z := 6.
Definition NET_IFTYPE_ETHERNET : Z := 1.
(** sizeof (EFI_MAC_ADDRESS), and the number of UINT64 counters of
    EFI_NETWORK_STATISTICS with the two that the driver counts. *)
Definition SIZEOF_EFI_MAC_ADDRESS : Z := 32.
Definition STATS_COUNT : Z := 26.
Definition SIZEOF_EFI_NETWORK_STATISTICS : Z := 8 * STATS_COUNT.
Definition RxGoodFrames : Z := 1.
Definition TxGoodFrames : Z := 11.

(** ** State *)

(** The state of struct al_hal_eth_adapter that the driver uses. *)
Record al_hal_eth_adapter := mkAdapter {
  a_rev_id : Z;
  ec_regs_base : Z;
  tx_udma : al_udma;
  rx_udma : al_udma
}.

(** ZeroMem of an adapter. *)
Definition zero_adapter : al_hal_eth_adapter :=
  mkAdapter 0 0 (mkUdma UDMA_TX 0 0 []) (mkUdma UDMA_TX 0 0 []).

Inductive EFI_SIMPLE_NETWORK_STATE :=
  | EfiSimpleNetworkStopped
  | EfiSimpleNetworkStarted
  | EfiSimpleNetworkInitialized
  | EfiSimpleNetworkMaxState.
#[export] Instance EFI_SIMPLE_NETWORK_STATE_eq_dec : EqDecision EFI_SIMPLE_NETWORK_STATE.
Proof. solve_decision. Defined.

Record EFI_SIMPLE_NETWORK_MODE := mkMode {
  State : EFI_SIMPLE_NETWORK_STATE;
  HwAddressSize : Z;
  MediaHeaderSize : Z;
  MaxPacketSize : Z;
  ReceiveFilterMask : Z;
  ReceiveFilterSetting : Z;
  CurrentAddress : list Z;
  BroadcastAddress : list Z;
  PermanentAddress : list Z;
  IfType : Z;
  MacAddressChangeable : bool;
  MultipleTxSupported : bool;
  MediaPresentSupported : bool;
  MediaPresent : bool
}.

Definition set_State (m : EFI_SIMPLE_NETWORK_MODE) (s : EFI_SIMPLE_NETWORK_STATE) : EFI_SIMPLE_NETWORK_MODE :=
  mkMode s (HwAddressSize m) (MediaHeaderSize m) (MaxPacketSize m) (ReceiveFilterMask m)
    (ReceiveFilterSetting m) (CurrentAddress m) (BroadcastAddress m) (PermanentAddress m) (IfType m)
    (MacAddressChangeable m) (MultipleTxSupported m) (MediaPresentSupported m) (MediaPresent m).
Definition set_filter (m : EFI_SIMPLE_NETWORK_MODE) (f : Z) : EFI_SIMPLE_NETWORK_MODE :=
  mkMode (State m) (HwAddressSize m) (MediaHeaderSize m) (MaxPacketSize m) (ReceiveFilterMask m)
    f (CurrentAddress m) (BroadcastAddress m) (PermanentAddress m) (IfType m)
    (MacAddressChangeable m) (MultipleTxSupported m) (MediaPresentSupported m) (MediaPresent m).
Definition set_address (m : EFI_SIMPLE_NETWORK_MODE) (a : list Z) : EFI_SIMPLE_NETWORK_MODE :=
  mkMode (State m) (HwAddressSize m) (MediaHeaderSize m) (MaxPacketSize m) (ReceiveFilterMask m)
    (ReceiveFilterSetting m) a (BroadcastAddress m) (PermanentAddress m) (IfType m)
    (MacAddressChangeable m) (MultipleTxSupported m) (MediaPresentSupported m) (MediaPresent m).
Definition set_media (m : EFI_SIMPLE_NETWORK_MODE) (b : bool) : EFI_SIMPLE_NETWORK_MODE :=
  mkMode (State m) (HwAddressSize m) (MediaHeaderSize m) (MaxPacketSize m) (ReceiveFilterMask m)
    (ReceiveFilterSetting m) (CurrentAddress m) (BroadcastAddress m) (PermanentAddress m) (IfType m)
    (MacAddressChangeable m) (MultipleTxSupported m) (MediaPresentSupported m) b.

(** The context without the handles, which the driver binding below keeps. A
    queue handle is the queue's index in its engine; NULL pointers are [None] or
    0. *)
Record AL_ETH_NEXT_CONTEXT := mkEthCtx {
  UdmaBase : Z;
  MacBase : Z;
  EcBase : Z;
  HalAdapter : al_hal_eth_adapter;
  TxDmaQ : option Z;
  RxDmaQ : option Z;
  DescRingBase : Z;
  DescRingPhys : Z;
  RxBuffers : list Z;
  RxBuffersPhys : list Z;
  RxBufTailIdx : Z;
  TxBufInFlight : Z;
  PhyAddr : Z;
  SnpMode : EFI_SIMPLE_NETWORK_MODE;
  Stats : list Z
}.

Definition set_HalAdapter (c : AL_ETH_NEXT_CONTEXT) (a : al_hal_eth_adapter) : AL_ETH_NEXT_CONTEXT :=
  mkEthCtx (UdmaBase c) (MacBase c) (EcBase c) a (TxDmaQ c) (RxDmaQ c) (DescRingBase c)
    (DescRingPhys c) (RxBuffers c) (RxBuffersPhys c) (RxBufTailIdx c) (TxBufInFlight c) (PhyAddr c)
    (SnpMode c) (Stats c).
Definition set_queues (c : AL_ETH_NEXT_CONTEXT) (tx rx : option Z) : AL_ETH_NEXT_CONTEXT :=
  mkEthCtx (UdmaBase c) (MacBase c) (EcBase c) (HalAdapter c) tx rx (DescRingBase c)
    (DescRingPhys c) (RxBuffers c) (RxBuffersPhys c) (RxBufTailIdx c) (TxBufInFlight c) (PhyAddr c)
    (SnpMode c) (Stats c).
Definition set_DescRing (c : AL_ETH_NEXT_CONTEXT) (base phys : Z) : AL_ETH_NEXT_CONTEXT :=
  mkEthCtx (UdmaBase c) (MacBase c) (EcBase c) (HalAdapter c) (TxDmaQ c) (RxDmaQ c) base
    phys (RxBuffers c) (RxBuffersPhys c) (RxBufTailIdx c) (TxBufInFlight c) (PhyAddr c)
    (SnpMode c) (Stats c).
Definition set_RxBuffers (c : AL_ETH_NEXT_CONTEXT) (bs phys : list Z) : AL_ETH_NEXT_CONTEXT :=
  mkEthCtx (UdmaBase c) (MacBase c) (EcBase c) (HalAdapter c) (TxDmaQ c) (RxDmaQ c) (DescRingBase c)
    (DescRingPhys c) bs phys (RxBufTailIdx c) (TxBufInFlight c) (PhyAddr c)
    (SnpMode c) (Stats c).
Definition set_RxBufTailIdx (c : AL_ETH_NEXT_CONTEXT) (i : Z) : AL_ETH_NEXT_CONTEXT :=
  mkEthCtx (UdmaBase c) (MacBase c) (EcBase c) (HalAdapter c) (TxDmaQ c) (RxDmaQ c) (DescRingBase c)
    (DescRingPhys c) (RxBuffers c) (RxBuffersPhys c) i (TxBufInFlight c) (PhyAddr c)
    (SnpMode c) (Stats c).
Definition set_TxBufInFlight (c : AL_ETH_NEXT_CONTEXT) (b : Z) : AL_ETH_NEXT_CONTEXT :=
  mkEthCtx (UdmaBase c) (MacBase c) (EcBase c) (HalAdapter c) (TxDmaQ c) (RxDmaQ c) (DescRingBase c)
    (DescRingPhys c) (RxBuffers c) (RxBuffersPhys c) (RxBufTailIdx c) b (PhyAddr c)
    (SnpMode c) (Stats c).
Definition set_PhyAddr (c : AL_ETH_NEXT_CONTEXT) (a : Z) : AL_ETH_NEXT_CONTEXT :=
  mkEthCtx (UdmaBase c) (MacBase c) (EcBase c) (HalAdapter c) (TxDmaQ c) (RxDmaQ c) (DescRingBase c)
    (DescRingPhys c) (RxBuffers c) (RxBuffersPhys c) (RxBufTailIdx c) (TxBufInFlight c) a
    (SnpMode c) (Stats c).
Definition set_SnpMode (c : AL_ETH_NEXT_CONTEXT) (m : EFI_SIMPLE_NETWORK_MODE) : AL_ETH_NEXT_CONTEXT :=
  mkEthCtx (UdmaBase c) (MacBase c) (EcBase c) (HalAdapter c) (TxDmaQ c) (RxDmaQ c) (DescRingBase c)
    (DescRingPhys c) (RxBuffers c) (RxBuffersPhys c) (RxBufTailIdx c) (TxBufInFlight c) (PhyAddr c)
    m (Stats c).
Definition set_Stats (c : AL_ETH_NEXT_CONTEXT) (s : list Z) : AL_ETH_NEXT_CONTEXT :=
  mkEthCtx (UdmaBase c) (MacBase c) (EcBase c) (HalAdapter c) (TxDmaQ c) (RxDmaQ c) (DescRingBase c)
    (DescRingPhys c) (RxBuffers c) (RxBuffersPhys c) (RxBufTailIdx c) (TxBufInFlight c) (PhyAddr c)
    (SnpMode c) s.

(** The driver and what it shares with the machine: the hardware, the words of
    the descriptor rings, the allocated pages by address, and the answers of the
    next page allocations with what the pages hold; when they are used up,
    memory is. *)
Record ETH (H : Type) := mkEth {
  ctx : AL_ETH_NEXT_CONTEXT;
  hw : H;
  words : Words;
  pages : gmap Z (list Z);
  pg_script : list (option (Z * list Z))
}.
Arguments mkEth {H}.
Arguments ctx {H}.
Arguments hw {H}.
Arguments words {H}.
Arguments pages {H}.
Arguments pg_script {H}.

(** The hardware, as far as the code reaches it through the HAL and the
    platform. A HAL function that can fail returns its error code. *)
Class EthHw (H : Type) := {
  eth_mmio :: Mmio H;
  eth_timer :: Timer H;
  al_eth_adapter_init : Z → Z → Z → H → Z * al_hal_eth_adapter * H;
  al_eth_adapter_stop : al_hal_eth_adapter → H → H;
  al_eth_mac_start : al_hal_eth_adapter → H → H;
  al_eth_mac_stop : al_hal_eth_adapter → H → H;
  al_eth_mac_config : al_hal_eth_adapter → H → Z * H;
  al_eth_rx_pkt_limit_config : al_hal_eth_adapter → Z → Z → H → H;
  al_eth_mdio_config : al_hal_eth_adapter → Z → H → Z * H;
  al_eth_mdio_read : al_hal_eth_adapter → Z → Z → H → Z * Z * H;
  al_eth_mdio_write : al_hal_eth_adapter → Z → Z → Z → H → H;
  WriteBackInvalidateDataCacheRange : Z → Z → H → H;
  InvalidateDataCacheRange : Z → Z → H → H;
  SetMemoryAttributes_UC : Z → Z → H → H
}.

Section Code.
Context {H : Type} `{EthHw H}.

(** Computations of the driver; [None] is a fault. *)
Definition Eth (A : Type) : Type := ETH H → option (A * ETH H).

#[global] Instance Eth_ret : MRet Eth := λ A a s, Some (a, s).
#[global] Instance Eth_bind : MBind Eth := λ A B f m s,
  match m s with Some (a, s') => f a s' | None => None end.

Definition get_ctx : Eth AL_ETH_NEXT_CONTEXT := λ s, Some (ctx s, s).
Definition set_ctx (c : AL_ETH_NEXT_CONTEXT) : Eth unit := λ s,
  Some (tt, mkEth c (hw s) (words s) (pages s) (pg_script s)).
Definition on_hw (f : H → H) : Eth unit := λ s,
  Some (tt, mkEth (ctx s) (f (hw s)) (words s) (pages s) (pg_script s)).
Definition from_hw {A} (f : H → A * H) : Eth A := λ s,
  let '(a, h) := f (hw s) in Some (a, mkEth (ctx s) h (words s) (pages s) (pg_script s)).
Definition lift {A} (o : option A) : Eth A := λ s, match o with Some a => Some (a, s) | None => None end.
Definition set_words (m : Words) : Eth unit := λ s,
  Some (tt, mkEth (ctx s) (hw s) m (pages s) (pg_script s)).
Definition get_words : Eth Words := λ s, Some (words s, s).
Definition get_page (a : Z) : Eth (list Z) := λ s,
  match pages s !! a with Some p => Some (p, s) | None => None end.

Definition MmioR (a : Z) : Eth Z := from_hw (MmioRead32 a).
Definition MmioW (a v : Z) : Eth unit := on_hw (MmioWrite32 a v).
Definition MacRead32 (Off : Z) : Eth Z := c ← get_ctx; MmioR (MacBase c + Off).
Definition MacWrite32 (Off Val : Z) : Eth unit := c ← get_ctx; MmioW (MacBase c + Off) Val.
Definition MicroSecondDelay (us : Z) : Eth unit := on_hw (us_delay us).

(** gBS->AllocatePages (AllocateMaxAddress) of one page, and FreePages. *)
Definition AllocatePages : Eth (EFI_STATUS * Z) := λ s,
  match pg_script s with
  | Some (a, p) :: sc => Some ((EFI_SUCCESS, a), mkEth (ctx s) (hw s) (words s) (<[a := p]> (pages s)) sc)
  | None :: sc => Some ((EFI_OUT_OF_RESOURCES, 0), mkEth (ctx s) (hw s) (words s) (pages s) sc)
  | [] => Some ((EFI_OUT_OF_RESOURCES, 0), s)
  end.

(** The words of a page. *)
Definition drop_words (a : Z) (m : Words) : Words :=
  filter (λ x, x.1 < a ∨ a + EFI_PAGE_SIZE <= x.1) m.

Definition FreePages (a : Z) : Eth unit := λ s,
  Some (tt, mkEth (ctx s) (hw s) (drop_words a (words s)) (delete a (pages s)) (pg_script s)).

(** ** HAL functions over the adapter *)

(** al_eth_queue_config; [is_tx] is [type == UDMA_TX]. *)
Definition al_eth_queue_config (is_tx : bool) (qid : Z) (p : al_udma_q_params) : Eth Z := λ s,
  let a := HalAdapter (ctx s) in
  let u := if is_tx then tx_udma a else rx_udma a in
  let p := mkQParams (p_size p) (p_desc_base p) (p_desc_phy_base p) (p_cdesc_base p)
             (p_cdesc_phy_base p) (p_cdesc_size p) (a_rev_id a) in
  '(rc, u, h) ← al_udma_q_init u qid p (hw s);
  let a := if is_tx then mkAdapter (a_rev_id a) (ec_regs_base a) u (rx_udma a)
           else mkAdapter (a_rev_id a) (ec_regs_base a) (tx_udma a) u in
  let ret (rc : Z) (h : H) :=
    Some (rc, mkEth (set_HalAdapter (ctx s) a) h (words s) (pages s) (pg_script s)) in
  if negb (rc =? 0) then ret rc h
  else if is_tx then ret rc h
  else
    q ← rd (udma_q u) qid;
    let '(rc, h) := al_udma_s2m_q_compl_coal_config q true 200 h in
    if negb (p_cdesc_size p <=? 32) then None
    else if 16 <? p_cdesc_size p then
      let out_cfg := ec_regs_base a + 0x700 + 0x58 in
      let '(temp, h) := MmioRead32 out_cfg h in
      ret rc (MmioWrite32 out_cfg (Z.lor (Z.land temp (u32 (Z.lnot 0x3))) (Z.land 2 0x3)) h)
    else ret rc h.

(** al_eth_mac_addr_store and al_eth_mac_addr_read, entry 0 of the table. *)
Definition fwd_mac_data_l : Z := 0x868.
Definition fwd_mac_data_h : Z := 0x868 + 4.

Definition al_eth_mac_addr_store (ec_base : Z) (mac : list Z) : Eth unit :=
  a0 ← lift (rd mac 0); a1 ← lift (rd mac 1); a2 ← lift (rd mac 2);
  a3 ← lift (rd mac 3); a4 ← lift (rd mac 4); a5 ← lift (rd mac 5);
  _ ← MmioW (ec_base + fwd_mac_data_l)
        (Z.lor (Z.lor (Z.lor (Z.shiftl a2 24) (Z.shiftl a3 16)) (Z.shiftl a4 8)) a5);
  MmioW (ec_base + fwd_mac_data_h) (Z.lor (Z.shiftl a0 8) a1).

Definition al_eth_mac_addr_read (ec_base : Z) (h : H) : list Z * H :=
  let '(addr_lo, h) := MmioRead32 (ec_base + fwd_mac_data_l) h in
  let '(addr_hi, h) := MmioRead32 (ec_base + fwd_mac_data_h) h in
  let addr_hi := u16 addr_hi in
  ([Z.land (Z.shiftr addr_hi 8) 0xff; Z.land addr_hi 0xff; Z.land (Z.shiftr addr_lo 24) 0xff;
    Z.land (Z.shiftr addr_lo 16) 0xff; Z.land (Z.shiftr addr_lo 8) 0xff; Z.land addr_lo 0xff], h).

(** al_udma_q_reset through a handle into an adapter. *)
Definition q_reset_in (a : al_hal_eth_adapter) (is_tx : bool) (id : Z) : Eth al_hal_eth_adapter := λ s,
  let u := if is_tx then tx_udma a else rx_udma a in
  q ← rd (udma_q u) id;
  let '(_, q, h) := al_udma_q_reset (udma_type u) q (hw s) in
  qs ← wrn (udma_q u) id [q];
  let u := mkUdma (udma_type u) (num_of_queues u) (udma_regs u) qs in
  Some (if is_tx then mkAdapter (a_rev_id a) (ec_regs_base a) u (rx_udma a)
        else mkAdapter (a_rev_id a) (ec_regs_base a) (tx_udma a) u,
        mkEth (ctx s) h (words s) (pages s) (pg_script s)).

(** The queue behind [Ctx->TxDmaQ] or [Ctx->RxDmaQ], and storing it back. *)
Definition get_q (is_tx : bool) : Eth al_udma_q :=
  c ← get_ctx;
  id ← lift (if is_tx then TxDmaQ c else RxDmaQ c);
  lift (rd (udma_q (if is_tx then tx_udma (HalAdapter c) else rx_udma (HalAdapter c))) id).

Definition put_q (is_tx : bool) (q : al_udma_q) : Eth unit :=
  c ← get_ctx;
  id ← lift (if is_tx then TxDmaQ c else RxDmaQ c);
  let a := HalAdapter c in
  let u := if is_tx then tx_udma a else rx_udma a in
  qs ← lift (wrn (udma_q u) id [q]);
  let u := mkUdma (udma_type u) (num_of_queues u) (udma_regs u) qs in
  set_ctx (set_HalAdapter c
    (if is_tx then mkAdapter (a_rev_id a) (ec_regs_base a) u (rx_udma a)
     else mkAdapter (a_rev_id a) (ec_regs_base a) (tx_udma a) u)).

(** The data path of the HAL on the driver's queues. *)
Definition tx_prepare (pkt : al_eth_pkt) : Eth Z :=
  q ← get_q true; m ← get_words;
  '(n, q, m) ← lift (al_eth_tx_pkt_prepare q pkt m);
  _ ← put_q true q; _ ← set_words m; mret n.

Definition tx_action (n : Z) : Eth unit := λ s,
  match get_q true s with
  | Some (q, s) => h ← al_eth_tx_dma_action q n (hw s);
                   Some (tt, mkEth (ctx s) h (words s) (pages s) (pg_script s))
  | None => None
  end.

Definition comp_tx_get : Eth Z :=
  q ← get_q true;
  '(n, q) ← from_hw (λ h, let '(n, q, h) := al_eth_comp_tx_get q h in (n, q, h));
  _ ← put_q true q; mret n.

Definition rx_add (a l : Z) : Eth Z :=
  q ← get_q false; m ← get_words;
  '(err, q, m) ← lift (al_eth_rx_buffer_add q (mkBuf a l) AL_ETH_RX_FLAGS_INT None m);
  _ ← put_q false q; _ ← set_words m; mret err.

Definition rx_action (n : Z) : Eth unit := λ s,
  match get_q false s with
  | Some (q, s) => h ← al_eth_rx_buffer_action q n (hw s);
                   Some (tt, mkEth (ctx s) h (words s) (pages s) (pg_script s))
  | None => None
  end.

Definition pkt_rx (pkt : al_eth_pkt) : Eth (Z * al_eth_pkt) :=
  q ← get_q false; m ← get_words;
  '(n, pkt, q, m) ← lift (al_eth_pkt_rx q pkt m);
  _ ← put_q false q; _ ← set_words m; mret (n, pkt).

(** ZeroMem of struct al_eth_pkt. *)
Definition zero_pkt : al_eth_pkt :=
  mkPkt 0 0 0 0 0 0 0 0 0 0 0 0 0 0 0 0 0 0 0 (repeat (mkBuf 0 0) (Z.to_nat AL_ETH_PKT_MAX_BUFS)).
End Code.

(** ** PHY *)

Section Phy.
Context {H : Type} `{EthHw H}.
Abbreviation Eth := (Eth (H := H)).

Definition mdio_read (reg : Z) : Eth (Z * Z) :=
  c ← get_ctx;
  from_hw (λ h, let '(e, v, h) := al_eth_mdio_read (HalAdapter c) (PhyAddr c) reg h in (e, v, h)).
Definition mdio_write (reg v : Z) : Eth unit :=
  c ← get_ctx; on_hw (al_eth_mdio_write (HalAdapter c) (PhyAddr c) reg v).

(** The scan of the 32 addresses: [n] are left, from [Addr]. *)
Fixpoint phy_scan (n : nat) (Addr : Z) : Eth unit :=
  match n with
  | O => mret tt
  | S n' =>
      c ← get_ctx;
      let rd_id reg := from_hw (λ h, let '(e, v, h) := al_eth_mdio_read (HalAdapter c) Addr reg h in (e, v, h)) in
      '(Err, PhyId1) ← rd_id 2;
      if negb (Err =? 0) then phy_scan n' (Addr + 1)
      else
        '(Err, PhyId2) ← rd_id 3;
        if negb (Err =? 0) then phy_scan n' (Addr + 1)
        else if negb (PhyId1 =? 0xFFFF) && negb (PhyId2 =? 0xFFFF) && negb (PhyId1 =? 0)
        then set_ctx (set_PhyAddr c Addr)
        else phy_scan n' (Addr + 1)
  end.

(** The dump of [n] registers from [reg]. *)
Fixpoint phy_dump (n : nat) (reg : Z) : Eth unit :=
  match n with
  | O => mret tt
  | S n' => _ ← mdio_read reg; phy_dump n' (reg + 1)
  end.

(** The dump of the indirect registers. *)
Fixpoint phy_dump_debug (regs : list Z) : Eth unit :=
  match regs with
  | [] => mret tt
  | r :: regs => _ ← mdio_write 0x1D r; _ ← mdio_read 0x1E; phy_dump_debug regs
  end.

(** The wait for the software reset; [true] is the timeout. *)
Fixpoint phy_reset_wait (n : nat) : Eth bool :=
  match n with
  | O => mret true
  | S n' =>
      _ ← MicroSecondDelay 1000;
      '(_, Bmcr) ← mdio_read 0;
      if Z.land Bmcr 0x8000 =? 0 then mret false else phy_reset_wait n'
  end.

Definition AlEthPhyInit : Eth EFI_STATUS :=
  c ← get_ctx;
  _ ← set_ctx (set_PhyAddr c 0xFF);
  _ ← phy_scan 32 0;
  c ← get_ctx;
  if PhyAddr c =? 0xFF then mret EFI_NOT_FOUND
  else
    _ ← phy_dump 32 0;
    _ ← phy_dump_debug [0x00; 0x05; 0x0B; 0x1F];
    _ ← mdio_write 0x1D 0x0005;
    '(_, DbgVal) ← mdio_read 0x1E;
    _ ← mdio_write 0x1E (Z.lor DbgVal 0x100);
    _ ← mdio_write 0 0x8000;
    timeout ← phy_reset_wait 1000;
    if timeout : bool then mret EFI_TIMEOUT
    else
      _ ← mdio_write 4 0x01E1;
      _ ← mdio_write 9 0x0200;
      _ ← mdio_write 0 0x1200;
      mret EFI_SUCCESS.
End Phy.

(** ** Bring-up and shutdown *)

Section HwInit.
Context {H : Type} `{EthHw H}.
Abbreviation Eth := (Eth (H := H)).

(** Step 1: the descriptor rings. *)
Definition alloc_rings : Eth EFI_STATUS :=
  let NumPages := EFI_SIZE_TO_PAGES TOTAL_DESC_SIZE in
  '(Status, DescPages) ← AllocatePages;
  if EFI_ERROR Status then mret Status
  else
    c ← get_ctx;
    _ ← set_ctx (set_DescRing c DescPages DescPages);
    m ← get_words;
    _ ← set_words (zero_words DescPages (Z.to_nat (TOTAL_DESC_SIZE / 4)) m);
    _ ← on_hw (WriteBackInvalidateDataCacheRange DescPages TOTAL_DESC_SIZE);
    _ ← on_hw (SetMemoryAttributes_UC DescPages (EFI_PAGES_TO_SIZE NumPages));
    mret EFI_SUCCESS.

(** ZeroMem of a receive buffer. *)
Definition zero_page (a n : Z) : Eth unit := λ s,
  p ← pages s !! a;
  p ← wrn p 0 (repeat 0 (Z.to_nat n));
  Some (tt, mkEth (ctx s) (hw s) (words s) (<[a := p]> (pages s)) (pg_script s)).

(** Step 2: the receive buffers; [n] are left, from [Idx]. *)
Fixpoint alloc_rx (n : nat) (Idx : Z) : Eth EFI_STATUS :=
  match n with
  | O => mret EFI_SUCCESS
  | S n' =>
      '(Status, BufPages) ← AllocatePages;
      if EFI_ERROR Status then mret Status
      else
        c ← get_ctx;
        bs ← lift (wrn (RxBuffers c) Idx [BufPages]);
        phys ← lift (wrn (RxBuffersPhys c) Idx [BufPages]);
        _ ← set_ctx (set_RxBuffers c bs phys);
        _ ← zero_page BufPages AL_ETH_RX_BUF_SIZE;
        _ ← on_hw (WriteBackInvalidateDataCacheRange BufPages AL_ETH_RX_BUF_SIZE);
        _ ← on_hw (SetMemoryAttributes_UC BufPages (EFI_PAGES_TO_SIZE (EFI_SIZE_TO_PAGES AL_ETH_RX_BUF_SIZE)));
        alloc_rx n' (Idx + 1)
  end.

(** Step 3a: an adapter handle of its own, to halt what the boot loader left
    running. The handle variable [TmpQ] is not initialized: using it before a
    call set it is a fault. *)
Definition halt_stale : Eth unit :=
  c ← get_ctx;
  '(_, TmpAdapter) ← from_hw (λ h,
     let '(e, a, h) := al_eth_adapter_init (UdmaBase c) (EcBase c) (MacBase c) h in (e, a, h));
  _ ← on_hw (al_eth_mac_stop TmpAdapter);
  _ ← MicroSecondDelay 10;
  let TmpQ := match al_udma_q_handle_get (tx_udma TmpAdapter) 0 with
              | (_, Some id) => Some (true, id) | (_, None) => None end in
  '(is_tx, id) ← lift TmpQ;
  TmpAdapter ← q_reset_in TmpAdapter is_tx id;
  let TmpQ := match al_udma_q_handle_get (rx_udma TmpAdapter) 0 with
              | (_, Some id) => Some (false, id) | (_, None) => TmpQ end in
  '(is_tx, id) ← lift TmpQ;
  TmpAdapter ← q_reset_in TmpAdapter is_tx id;
  on_hw (al_eth_adapter_stop TmpAdapter).

(** The parameters of a queue, steps 4 and 5. *)
Definition ring_params (c : AL_ETH_NEXT_CONTEXT) (sdesc cdesc : Z) : al_udma_q_params :=
  mkQParams AL_ETH_DESCS_PER_Q (DescRingBase c + sdesc) (DescRingPhys c + sdesc)
    (DescRingBase c + cdesc) (DescRingPhys c + cdesc) AL_ETH_CDESC_SIZE 0.

(** Step 13: the receive ring; [n] buffers are left, from [Idx]. *)
Fixpoint fill_rx (n : nat) (Idx : Z) : Eth EFI_STATUS :=
  match n with
  | O => mret EFI_SUCCESS
  | S n' =>
      c ← get_ctx;
      a ← lift (rd (RxBuffersPhys c) Idx);
      Err ← rx_add a AL_ETH_RX_BUF_SIZE;
      if negb (Err =? 0) then mret EFI_DEVICE_ERROR else fill_rx n' (Idx + 1)
  end.

(** Steps 3 to 9: adapter, queues, MAC. *)
Definition adapter_up : Eth EFI_STATUS :=
  c ← get_ctx;
  _ ← set_ctx (set_HalAdapter c zero_adapter);
  '(Err, a) ← from_hw (λ h,
     let '(e, a, h) := al_eth_adapter_init (UdmaBase c) (EcBase c) (MacBase c) h in (e, a, h));
  c ← get_ctx;
  _ ← set_ctx (set_HalAdapter c a);
  if negb (Err =? 0) then mret EFI_DEVICE_ERROR
  else
    c ← get_ctx;
    Err ← al_eth_queue_config true 0 (ring_params c TX_SDESC_OFFSET TX_CDESC_OFFSET);
    if negb (Err =? 0) then mret EFI_DEVICE_ERROR
    else
      c ← get_ctx;
      Err ← al_eth_queue_config false 0 (ring_params c RX_SDESC_OFFSET RX_CDESC_OFFSET);
      if negb (Err =? 0) then mret EFI_DEVICE_ERROR
      else
        c ← get_ctx;
        let handle u old := match al_udma_q_handle_get u 0 with (_, Some id) => Some id | (_, None) => old end in
        _ ← set_ctx (set_queues c (handle (tx_udma (HalAdapter c)) (TxDmaQ c))
                                  (handle (rx_udma (HalAdapter c)) (RxDmaQ c)));
        Err ← from_hw (al_eth_mac_config (HalAdapter c));
        if negb (Err =? 0) then mret EFI_DEVICE_ERROR
        else
          _ ← on_hw (al_eth_rx_pkt_limit_config (HalAdapter c) 30 AL_ETH_MAX_PKT_SIZE);
          Err ← from_hw (al_eth_mdio_config (HalAdapter c) 1000);
          if negb (Err =? 0) then mret EFI_DEVICE_ERROR else mret EFI_SUCCESS.

Definition link_up (RgmiiStat : Z) : bool := negb (Z.land RgmiiStat RGMII_STAT_LINK =? 0).

Definition AlEthHwInitialize : Eth EFI_STATUS :=
  Status ← alloc_rings;
  if EFI_ERROR Status then mret Status
  else
    Status ← alloc_rx (Z.to_nat AL_ETH_NUM_RX_DESC) 0;
    if EFI_ERROR Status then mret Status
    else
      _ ← halt_stale;
      Status ← adapter_up;
      if EFI_ERROR Status then mret Status
      else
        _ ← AlEthPhyInit;
        c ← get_ctx;
        _ ← al_eth_mac_addr_store (EcBase c) (CurrentAddress (SnpMode c));
        Status ← fill_rx (Z.to_nat AL_ETH_NUM_RX_DESC) 0;
        if EFI_ERROR Status then mret Status
        else
          c ← get_ctx;
          _ ← set_ctx (set_RxBufTailIdx c 0);
          _ ← rx_action AL_ETH_NUM_RX_DESC;
          c ← get_ctx;
          _ ← on_hw (al_eth_mac_start (HalAdapter c));
          RgmiiStat ← MacRead32 MAC_GEN_RGMII_STAT;
          c ← get_ctx;
          let c := set_SnpMode c (set_media (SnpMode c) (link_up RgmiiStat)) in
          _ ← set_ctx (set_TxBufInFlight c 0);
          mret EFI_SUCCESS.

(** A reset through a handle that may be NULL. *)
Definition q_reset_opt (is_tx : bool) : Eth unit :=
  c ← get_ctx;
  match (if is_tx then TxDmaQ c else RxDmaQ c) with
  | None => mret tt
  | Some id =>
      a ← q_reset_in (HalAdapter c) is_tx id;
      c ← get_ctx; set_ctx (set_HalAdapter c a)
  end.

(** The loop over the receive buffers; [n] are left, from [Idx]. *)
Fixpoint free_rx (n : nat) (Idx : Z) : Eth unit :=
  match n with
  | O => mret tt
  | S n' =>
      c ← get_ctx;
      b ← lift (rd (RxBuffers c) Idx);
      _ ← (if b =? 0 then mret tt
           else
             phys ← lift (rd (RxBuffersPhys c) Idx);
             _ ← FreePages phys;
             bs ← lift (wrn (RxBuffers c) Idx [0]);
             set_ctx (set_RxBuffers c bs (RxBuffersPhys c)));
      free_rx n' (Idx + 1)
  end.

Definition AlEthHwShutdown : Eth unit :=
  c ← get_ctx;
  _ ← on_hw (al_eth_mac_stop (HalAdapter c));
  _ ← MicroSecondDelay 10;
  _ ← q_reset_opt true;
  _ ← q_reset_opt false;
  c ← get_ctx;
  _ ← on_hw (al_eth_adapter_stop (HalAdapter c));
  _ ← MicroSecondDelay 100;
  _ ← free_rx (Z.to_nat AL_ETH_NUM_RX_DESC) 0;
  c ← get_ctx;
  if DescRingBase c =? 0 then mret tt
  else
    _ ← FreePages (DescRingPhys c);
    set_ctx (set_DescRing c 0 (DescRingPhys c)).

Definition AlEthNextExitBootServices : Eth unit :=
  c ← get_ctx;
  _ ← on_hw (al_eth_mac_stop (HalAdapter c));
  on_hw (al_eth_adapter_stop (HalAdapter c)).
End HwInit.

(** ** The Simple Network Protocol *)

Section Snp.
Context {H : Type} `{EthHw H}.
Abbreviation Eth := (Eth (H := H)).

Definition get_state : Eth EFI_SIMPLE_NETWORK_STATE := c ← get_ctx; mret (State (SnpMode c)).
Definition put_state (s : EFI_SIMPLE_NETWORK_STATE) : Eth unit :=
  c ← get_ctx; set_ctx (set_SnpMode c (set_State (SnpMode c) s)).

(** What the entry points that need an initialized interface return without one. *)
Definition not_initialized (s : EFI_SIMPLE_NETWORK_STATE) : EFI_STATUS :=
  if bool_decide (s = EfiSimpleNetworkStopped) then EFI_NOT_STARTED else EFI_DEVICE_ERROR.

Definition AlEthNextSnpStart : Eth EFI_STATUS :=
  s ← get_state;
  if bool_decide (s = EfiSimpleNetworkStarted) || bool_decide (s = EfiSimpleNetworkInitialized)
  then mret EFI_ALREADY_STARTED
  else if negb (bool_decide (s = EfiSimpleNetworkStopped)) then mret EFI_DEVICE_ERROR
  else _ ← put_state EfiSimpleNetworkStarted; mret EFI_SUCCESS.

Definition AlEthNextSnpStop : Eth EFI_STATUS :=
  s ← get_state;
  if bool_decide (s = EfiSimpleNetworkStopped) then mret EFI_NOT_STARTED
  else _ ← put_state EfiSimpleNetworkStopped; mret EFI_SUCCESS.

Definition AlEthNextSnpInitialize : Eth EFI_STATUS :=
  s ← get_state;
  if bool_decide (s = EfiSimpleNetworkStopped) then mret EFI_NOT_STARTED
  else if bool_decide (s = EfiSimpleNetworkInitialized) then mret EFI_SUCCESS
  else
    Status ← AlEthHwInitialize;
    if EFI_ERROR Status then mret Status
    else _ ← put_state EfiSimpleNetworkInitialized; mret EFI_SUCCESS.

Definition AlEthNextSnpReset : Eth EFI_STATUS :=
  s ← get_state;
  if bool_decide (s = EfiSimpleNetworkStopped) then mret EFI_NOT_STARTED
  else if negb (bool_decide (s = EfiSimpleNetworkInitialized)) then mret EFI_DEVICE_ERROR
  else
    _ ← AlEthHwShutdown;
    Status ← AlEthHwInitialize;
    if EFI_ERROR Status then _ ← put_state EfiSimpleNetworkStarted; mret Status
    else mret EFI_SUCCESS.

Definition AlEthNextSnpShutdown : Eth EFI_STATUS :=
  s ← get_state;
  if bool_decide (s = EfiSimpleNetworkStopped) then mret EFI_NOT_STARTED
  else
    _ ← (if bool_decide (s = EfiSimpleNetworkInitialized) then AlEthHwShutdown else mret tt);
    _ ← put_state EfiSimpleNetworkStarted;
    mret EFI_SUCCESS.

Definition AlEthNextSnpReceiveFilters (Enable Disable : Z) : Eth EFI_STATUS :=
  s ← get_state;
  if negb (bool_decide (s = EfiSimpleNetworkInitialized)) then mret (not_initialized s)
  else
    c ← get_ctx;
    let f := Z.land (Z.lor (ReceiveFilterSetting (SnpMode c)) Enable) (u32 (Z.lnot Disable)) in
    _ ← set_ctx (set_SnpMode c (set_filter (SnpMode c) f));
    CmdCfg ← MacRead32 MAC_1G_CMD_CFG;
    let CmdCfg :=
      if negb (Z.land f EFI_SIMPLE_NETWORK_RECEIVE_PROMISCUOUS =? 0)
      then Z.lor CmdCfg MAC_1G_CMD_PROMIS_EN
      else Z.land CmdCfg (u32 (Z.lnot MAC_1G_CMD_PROMIS_EN)) in
    _ ← MacWrite32 MAC_1G_CMD_CFG CmdCfg;
    mret EFI_SUCCESS.

(** [New] is the address behind the pointer, when there is one. *)
Definition AlEthNextSnpStationAddress (Reset : bool) (New : option (list Z)) : Eth EFI_STATUS :=
  s ← get_state;
  if negb (bool_decide (s = EfiSimpleNetworkInitialized)) then mret (not_initialized s)
  else
    c ← get_ctx;
    a ← lift (if Reset then Some (PermanentAddress (SnpMode c))
              else match New with
                   | Some n => rdn n 0 SIZEOF_EFI_MAC_ADDRESS
                   | None => Some (CurrentAddress (SnpMode c)) end);
    _ ← set_ctx (set_SnpMode c (set_address (SnpMode c) a));
    _ ← al_eth_mac_addr_store (EcBase c) a;
    mret EFI_SUCCESS.

(** [StatisticsSize] and [StatisticsTable] are what the pointers refer to, when
    they are not NULL; the result has what is behind them afterwards. *)
Definition AlEthNextSnpStatistics (Reset : bool) (StatisticsSize : option Z) (StatisticsTable : option (list Z))
    : Eth (EFI_STATUS * option Z * option (list Z)) :=
  s ← get_state;
  if negb (bool_decide (s = EfiSimpleNetworkInitialized))
  then mret (not_initialized s, StatisticsSize, StatisticsTable)
  else
    c ← get_ctx;
    _ ← (if Reset then set_ctx (set_Stats c (repeat 0 (Z.to_nat STATS_COUNT))) else mret tt);
    match StatisticsSize, StatisticsTable with
    | Some n, Some t =>
        if n <? SIZEOF_EFI_NETWORK_STATISTICS
        then mret (EFI_BUFFER_TOO_SMALL, Some SIZEOF_EFI_NETWORK_STATISTICS, Some t)
        else
          c ← get_ctx;
          t ← lift (wrn t 0 (Stats c));
          mret (EFI_SUCCESS, Some SIZEOF_EFI_NETWORK_STATISTICS, Some t)
    | _, _ => mret (EFI_SUCCESS, StatisticsSize, StatisticsTable)
    end.

(** [IP] is the 16-byte union, [MAC] the address written into. *)
Definition AlEthNextSnpMCastIpToMac (IPv6 : bool) (IP MAC : list Z) : option (EFI_STATUS * list Z) :=
  if IPv6 then
    a ← rd IP 12; b ← rd IP 13; c ← rd IP 14; d ← rd IP 15;
    MAC ← wrn MAC 0 [0x33; 0x33; a; b; c; d];
    Some (EFI_SUCCESS, MAC)
  else
    b ← rd IP 1; c ← rd IP 2; d ← rd IP 3;
    MAC ← wrn MAC 0 [0x01; 0x00; 0x5E; Z.land b 0x7F; c; d];
    Some (EFI_SUCCESS, MAC).

Definition AlEthNextSnpNvData : EFI_STATUS := EFI_UNSUPPORTED.

(** The results are the status, the interrupt status and the recycled buffer,
    for the pointers that are given. *)
Definition AlEthNextSnpGetStatus (InterruptStatus TxBuf : bool)
    : Eth (EFI_STATUS * option Z * option Z) :=
  s ← get_state;
  if negb (bool_decide (s = EfiSimpleNetworkInitialized)) then mret (not_initialized s, None, None)
  else
    let irq := if InterruptStatus then Some 0 else None in
    buf ← (if TxBuf then
             c ← get_ctx;
             if negb (TxBufInFlight c =? 0) then
               CompDescs ← comp_tx_get;
               if 0 <? CompDescs then
                 c ← get_ctx;
                 _ ← set_ctx (set_TxBufInFlight c 0);
                 mret (Some (TxBufInFlight c))
               else mret (Some 0)
             else mret (Some 0)
           else mret None);
    RgmiiStat ← MacRead32 MAC_GEN_RGMII_STAT;
    c ← get_ctx;
    _ ← set_ctx (set_SnpMode c (set_media (SnpMode c) (link_up RgmiiStat)));
    mret (EFI_SUCCESS, irq, buf).

(** The header that Transmit writes into the caller's buffer [data]; [cur] is the
    current address. *)
Definition tx_header (cur : list Z) (HeaderSize : Z) (SrcAddr DestAddr : option (list Z)) (Protocol : option Z)
    (data : list Z) : option (list Z) :=
  if HeaderSize =? 0 then Some data
  else
    dst ← DestAddr; pr ← Protocol;
    dst ← rdn dst 0 6;
    src ← rdn (default cur SrcAddr) 0 6;
    wrn data 0 (dst ++ src ++ [u8 (Z.shiftr pr 8); Z.land pr 0xFF])%list.

(** Transmit, once the queue is free: the header, the descriptor, the doorbell.
    A header is written into the caller's buffer, of which [data] is the
    contents. *)
Definition tx_build (HeaderSize BufferSize addr : Z) (data : list Z) (SrcAddr DestAddr : option (list Z))
    (Protocol : option Z) : Eth (EFI_STATUS * option (list Z)) :=
  c ← get_ctx;
  if negb (HeaderSize =? 0) && negb (HeaderSize =? MediaHeaderSize (SnpMode c))
  then mret (EFI_INVALID_PARAMETER, Some data)
  else if negb (HeaderSize =? 0) && (bool_decide (DestAddr = None) || bool_decide (Protocol = None))
  then mret (EFI_INVALID_PARAMETER, Some data)
  else
    data ← lift (tx_header (CurrentAddress (SnpMode c)) HeaderSize SrcAddr DestAddr Protocol data);
    _ ← on_hw (WriteBackInvalidateDataCacheRange addr BufferSize);
    NumDescs ← tx_prepare
      (mkPkt 0 0 0 0 0 0 0 0 0 0 0 0 0 0 0 0 0 0 1
         (mkBuf addr (u32 BufferSize) :: repeat (mkBuf 0 0) (Z.to_nat AL_ETH_PKT_MAX_BUFS - 1)));
    if NumDescs =? 0 then mret (EFI_DEVICE_ERROR, Some data)
    else
      _ ← tx_action (u32 NumDescs);
      c ← get_ctx;
      n ← lift (rd (Stats c) TxGoodFrames);
      st ← lift (wrn (Stats c) TxGoodFrames [n +u64 1]);
      _ ← set_ctx (set_Stats (set_TxBufInFlight c addr) st);
      mret (EFI_SUCCESS, Some data).

(** Reclaiming a buffer in flight: is it still? *)
Definition tx_reclaim : Eth bool :=
  c ← get_ctx;
  if negb (TxBufInFlight c =? 0) then
    Comp ← comp_tx_get;
    if 0 <? Comp then c ← get_ctx; _ ← set_ctx (set_TxBufInFlight c 0); mret false
    else mret true
  else mret false.

(** [Buffer] is the caller's buffer, its address and contents, when it is not
    NULL; the result has the contents afterwards. *)
Definition AlEthNextSnpTransmit (HeaderSize BufferSize : Z) (Buffer : option (Z * list Z))
    (SrcAddr DestAddr : option (list Z)) (Protocol : option Z) : Eth (EFI_STATUS * option (list Z)) :=
  s ← get_state;
  if negb (bool_decide (s = EfiSimpleNetworkInitialized))
  then mret (not_initialized s, option_map snd Buffer)
  else
    match Buffer with
    | None => mret (EFI_INVALID_PARAMETER, None)
    | Some (addr, data) =>
        c ← get_ctx;
        if BufferSize <? MediaHeaderSize (SnpMode c) then mret (EFI_BUFFER_TOO_SMALL, Some data)
        else
          busy ← tx_reclaim;
          if busy : bool then mret (EFI_NOT_READY, Some data)
          else tx_build HeaderSize BufferSize addr data SrcAddr DestAddr Protocol
    end.

(** What Receive leaves behind its pointers. *)
Record RxOut := mkRxOut {
  o_HeaderSize : option Z;
  o_BufferSize : option Z;
  o_Buffer : option (list Z);
  o_SrcAddr : option (list Z);
  o_DestAddr : option (list Z);
  o_Protocol : option Z
}.

(** Both ReSubmit labels: the buffer goes back to the ring and the tail moves
    on, whether it was accepted or not. *)
Definition resubmit : Eth unit :=
  c ← get_ctx;
  a ← lift (rd (RxBuffersPhys c) (RxBufTailIdx c));
  Err ← rx_add a AL_ETH_RX_BUF_SIZE;
  _ ← (if Err =? 0 then rx_action 1 else mret tt);
  c ← get_ctx;
  set_ctx (set_RxBufTailIdx c ((RxBufTailIdx c +u32 1) mod AL_ETH_NUM_RX_DESC)).

Definition rx_error (f : Z) : bool := negb (Z.land f (Z.lor AL_ETH_RX_ERROR AL_UDMA_CDESC_ERROR) =? 0).

(** Copying the packet out and the header fields. *)
Definition rx_copy (p : RxOut) (PktLen : Z) : Eth RxOut :=
  c ← get_ctx;
  a ← lift (rd (RxBuffers c) (RxBufTailIdx c));
  _ ← on_hw (InvalidateDataCacheRange a PktLen);
  page ← get_page a;
  pkt ← lift (rdn page 0 PktLen);
  dst ← lift (b ← o_Buffer p; wrn b 0 pkt);
  let put (o : option (list Z)) off : Eth (option (list Z)) :=
    match o with
    | Some m => x ← lift (rdn page off 6); m ← lift (wrn m 0 x); mret (Some m)
    | None => mret None
    end in
  da ← put (o_DestAddr p) 0;
  sa ← put (o_SrcAddr p) 6;
  pr ← (match o_Protocol p with
        | Some _ => h ← lift (rd page 12); l ← lift (rd page 13); mret (Some (u16 (Z.lor (Z.shiftl h 8) l)))
        | None => mret None end);
  n ← lift (rd (Stats c) RxGoodFrames);
  st ← lift (wrn (Stats c) RxGoodFrames [n +u64 1]);
  _ ← set_ctx (set_Stats c st);
  mret (mkRxOut (match o_HeaderSize p with Some _ => Some (MediaHeaderSize (SnpMode c)) | None => None end)
          (Some PktLen) (Some dst) sa da pr).

(** [p] holds what is behind the caller's pointers, [None] for NULL. *)
Definition AlEthNextSnpReceive (p : RxOut) : Eth (EFI_STATUS * RxOut) :=
  s ← get_state;
  if negb (bool_decide (s = EfiSimpleNetworkInitialized)) then mret (not_initialized s, p)
  else
    match o_Buffer p, o_BufferSize p with
    | Some _, Some BufferSize =>
        '(NumDescs, RxPkt) ← pkt_rx zero_pkt;
        if NumDescs =? 0 then mret (EFI_NOT_READY, p)
        else
          let done (p : RxOut) : Eth (EFI_STATUS * RxOut) :=
            _ ← resubmit;
            mret (if negb (NumDescs =? 0) && negb (rx_error (flags RxPkt)) then EFI_SUCCESS else EFI_NOT_READY, p) in
          if rx_error (flags RxPkt) then done p
          else
            b ← lift (rd (bufs RxPkt) 0);
            let PktLen := blen b in
            if (PktLen <? 14) || (AL_ETH_RX_BUF_SIZE <? PktLen) then done p
            else if BufferSize <? PktLen then
              _ ← resubmit;
              mret (EFI_BUFFER_TOO_SMALL,
                    mkRxOut (o_HeaderSize p) (Some PktLen) (o_Buffer p) (o_SrcAddr p) (o_DestAddr p) (o_Protocol p))
            else
              p ← rx_copy p PktLen;
              done p
    | _, _ => mret (EFI_INVALID_PARAMETER, p)
    end.

(** The wait notification: does it signal the event? *)
Definition AlEthNextWaitForPacket : Eth bool :=
  s ← get_state;
  if negb (bool_decide (s = EfiSimpleNetworkInitialized)) then mret false
  else
    c ← get_ctx;
    match RxDmaQ c with
    | None => mret false
    | Some _ =>
        q ← get_q false; m ← get_words;
        Flags ← lift (ld32 m (al_udma_cdesc_idx_to_ptr q (next_cdesc_idx q)));
        mret (al_udma_new_cdesc q Flags)
    end.
End Snp.

(** * Theorems *)

(** ** What the receive side is

    [C] frames were taken so far. The 32 buffers are all posted, in ring order
    from the tail; the controller has completed the first of them with the
    frames [fs], which wait in the completion ring. *)

Record frame := mkFrame { f_ctrl : Z; f_word1 : Z; f_word2 : Z; f_word3 : Z; f_data : list Z }.

Definition f_len (f : frame) : Z := rx_len (f_ctrl f) (f_word1 f).

(** The part of the context that the receive side is about, and the part that
    the transmit side is about. *)
Record rxv := mkRxv {
  v_rx : option Z; v_rxq : option al_udma_q; v_base : Z; v_bufs : list Z; v_phys : list Z; v_tail : Z
}.
Definition rx_view (c : AL_ETH_NEXT_CONTEXT) : rxv :=
  mkRxv (RxDmaQ c) (head (udma_q (rx_udma (HalAdapter c)))) (DescRingBase c) (RxBuffers c)
    (RxBuffersPhys c) (RxBufTailIdx c).

Record txv := mkTxv { v_tx : option Z; v_txq : option al_udma_q; v_tbase : Z; v_flight : Z }.
Definition tx_view (c : AL_ETH_NEXT_CONTEXT) : txv :=
  mkTxv (TxDmaQ c) (head (udma_q (tx_udma (HalAdapter c)))) (DescRingBase c) (TxBufInFlight c).

(** The queue of a side: its place in the descriptor page, its size, and the
    settings the HAL looks at. *)
Record q_cfg (q : al_udma_q) (base : Z) : Prop := mkCfg {
  cfg_size : q_size q = AL_ETH_DESCS_PER_Q;
  cfg_cdesc : cdesc_size q = AL_ETH_CDESC_SIZE;
  cfg_upd : Z.land (q_flags q) AL_UDMA_Q_FLAGS_NO_COMP_UPDATE = 0;
  cfg_rev : q_rev_id q = AL_ETH_REV_ID_2;
  cfg_desc : desc_base_ptr q = base;
  cfg_comp : cdesc_base_ptr q = base + AL_ETH_Q_DESCS_SIZE
}.

Record bufs_ok (v : rxv) (pg : gmap Z (list Z)) : Prop := mkBufs {
  bo_same : v_bufs v = v_phys v;
  bo_len : length (v_phys v) = Z.to_nat AL_ETH_NUM_RX_DESC;
  bo_nodup : NoDup (v_phys v);
  bo_page : ∀ a, a ∈ v_phys v → 0 < a < 2 ^ 32 ∧ ∃ p, pg !! a = Some p ∧ len p = EFI_PAGE_SIZE
}.

(** The words of the completion of frame [f] at position [n], and its bytes in
    the buffer of that position. *)
Record completed (v : rxv) (q : al_udma_q) (m : Words) (pg : gmap Z (list Z)) (n : Z) (f : frame) : Prop := mkDone {
  co_ctrl : m !! slot q n = Some (f_ctrl f);
  co_w1 : m !! (slot q n + 4) = Some (f_word1 f);
  co_w2 : m !! (slot q n + 8) = Some (f_word2 f);
  co_w3 : m !! (slot q n + 12) = Some (f_word3 f);
  co_rid : ring_bits (f_ctrl f) = rid AL_ETH_DESCS_PER_Q n;
  co_last : cdesc_is_last (f_ctrl f) = true;
  co_data : len (f_data f) = Z.min (f_len f) AL_ETH_RX_BUF_SIZE;
  co_page : ∃ a p, rd (v_phys v) (n mod AL_ETH_NUM_RX_DESC) = Some a ∧ pg !! a = Some p ∧
    rdn p 0 (len (f_data f)) = Some (f_data f)
}.

(** The descriptor at position [j] offers the buffer of that position. *)
Definition posted (v : rxv) (q : al_udma_q) (m : Words) (j : Z) : Prop :=
  ∃ a, rd (v_phys v) (j mod AL_ETH_NUM_RX_DESC) = Some a ∧
    desc_at m (dslot q j) = Some (mkDesc false false (rid AL_ETH_DESCS_PER_Q j) AL_ETH_RX_BUF_SIZE a).

Record rx_rep (v : rxv) (m : Words) (pg : gmap Z (list Z)) (q : al_udma_q) (C : Z) (fs : list frame) : Prop := mkRxRep {
  rr_q : v_rx v = Some 0 ∧ v_rxq v = Some q;
  rr_cfg : q_cfg q (v_base v + RX_SDESC_OFFSET);
  rr_sub : sub_rep q (C + AL_ETH_NUM_RX_DESC) C;
  rr_comp : comp_rep q C C 0;
  rr_tail : v_tail v = C mod AL_ETH_NUM_RX_DESC;
  rr_bufs : bufs_ok v pg;
  rr_posted : ∀ j, C <= j < C + AL_ETH_NUM_RX_DESC → posted v q m j;
  rr_few : len fs <= AL_ETH_NUM_RX_DESC;
  rr_done : ∀ i f, fs !! i = Some f → completed v q m pg (C + Z.of_nat i) f;
  rr_stale : ∀ j, C + len fs <= j < C + AL_ETH_DESCS_PER_Q →
    ∃ w, m !! slot q j = Some w ∧ ring_bits w <> rid AL_ETH_DESCS_PER_Q j;
  rr_dmap : dring_mapped q m;
  rr_cmap : ∀ n k, 0 <= k < 4 → is_Some (m !! (slot q n + 4 * k))
}.

(** The transmit side: [P] descriptors were submitted and [C] acknowledged, one
    more when a buffer is in flight. *)
Record tx_rep (v : txv) (m : Words) (q : al_udma_q) (P C : Z) : Prop := mkTxRep {
  tr_q : v_tx v = Some 0 ∧ v_txq v = Some q;
  tr_cfg : q_cfg q (v_tbase v + TX_SDESC_OFFSET);
  tr_sub : sub_rep q P C;
  tr_flight : P - C = if v_flight v =? 0 then 0 else 1;
  tr_dmap : dring_mapped q m
}.

Section Views.
Implicit Types q : al_udma_q.

Lemma cfg_slot q base n : q_cfg q base → q_wf q →
  base + 1024 <= slot q n ∧ slot q n + 16 <= base + 2048.
Proof.
  intros [E1 E2 _ _ _ E6] W. unfold slot. rewrite E1, E2, E6. unfold AL_ETH_DESCS_PER_Q, AL_ETH_CDESC_SIZE.
  change AL_ETH_Q_DESCS_SIZE with 1024. pose proof (Z.mod_pos_bound n 64 ltac:(lia)). lia.
Qed.

Lemma cfg_dslot q base n : q_cfg q base → q_wf q → base <= dslot q n ∧ dslot q n + 16 <= base + 1024.
Proof.
  intros [E1 _ _ _ E5 _] W. pose proof (dslot_range q n W) as R. rewrite E1, E5 in R.
  unfold AL_ETH_DESCS_PER_Q in R. lia.
Qed.

(** A change of the words outside the receive rings is not seen. *)
Lemma rx_rep_words v m m' pg q C fs :
  rx_rep v m pg q C fs →
  (∀ a, v_base v + 2048 <= a < v_base v + 4096 → m' !! a = m !! a) →
  (∀ a, is_Some (m !! a) → is_Some (m' !! a)) → rx_rep v m' pg q C fs.
Proof.
  intros [Q F S R T B P L D St Dm Cm] A M. pose proof (sub_wf _ _ _ S) as W.
  change RX_SDESC_OFFSET with 2048 in F.
  assert (∀ n k, 0 <= k <= 12 → m' !! (slot q n + k) = m !! (slot q n + k)) as As.
  { intros n k Hk. apply A. pose proof (cfg_slot q _ n F W). lia. }
  assert (∀ n, m' !! slot q n = m !! slot q n) as As0.
  { intros n. specialize (As n 0 ltac:(lia)). by rewrite Z.add_0_r in As. }
  constructor; try done.
  - intros j Hj. destruct (P j Hj) as (a & Ea & Da). exists a. split; [done|]. rewrite <- Da.
    pose proof (cfg_dslot q _ j F W).
    unfold desc_at, ld64, ld32. by rewrite !A by lia.
  - intros i f E. destruct (D i f E). constructor; try done; rewrite ?As0, ?As by lia; done.
  - intros j Hj. destruct (St j Hj) as (w & E & N). exists w. by rewrite As0.
  - intros n k Hk. by apply M, Dm.
  - intros n k Hk. by apply M, Cm.
Qed.
End Views.

Section Pop.
Implicit Types q : al_udma_q.

Lemma tail_next C : 0 <= C → (C mod AL_ETH_NUM_RX_DESC +u32 1) mod AL_ETH_NUM_RX_DESC = (C + 1) mod AL_ETH_NUM_RX_DESC.
Proof.
  intros HC. unfold AL_ETH_NUM_RX_DESC. pose proof (Z.mod_pos_bound C 32 ltac:(lia)).
  rewrite u32_small by lia. apply Zplus_mod_idemp_l.
Qed.

Lemma add_ring n : (n + AL_ETH_NUM_RX_DESC) mod AL_ETH_NUM_RX_DESC = n mod AL_ETH_NUM_RX_DESC.
Proof.
  unfold AL_ETH_NUM_RX_DESC. replace (n + 32) with (n + 1 * 32) by lia. by rewrite Z.mod_add by lia.
Qed.

(** The queue after one packet is taken, and after its buffer is back. *)
Definition took q (C : Z) : al_udma_q :=
  al_udma_cdesc_ack (moved q (rid (q_size q) (C + 1)) (C + 1) 0) 1.
Definition gave q (P : Z) : al_udma_q :=
  set_desc q ((P + 1) mod q_size q) (rid (q_size q) (P + 1)).

Lemma comp_rep_desc q C Hd K i r : comp_rep q C Hd K → comp_rep (set_desc q i r) C Hd K.
Proof. intros [W R A E1 E2 E3]. constructor; cbn; try done. destruct W; by constructor. Qed.

(** Taking the first frame and posting its buffer again. *)
Lemma rx_rep_pop v m pg q C f fs a m' :
  rx_rep v m pg q C (f :: fs) → rd (v_phys v) (v_tail v) = Some a →
  sub_rep (gave (took q C) (C + AL_ETH_NUM_RX_DESC)) (C + AL_ETH_NUM_RX_DESC + 1) (C + 1) →
  comp_rep (took q C) (C + 1) (C + 1) 0 →
  desc_at m' (dslot q (C + AL_ETH_NUM_RX_DESC)) =
    Some (mkDesc false false (rid (q_size q) (C + AL_ETH_NUM_RX_DESC)) AL_ETH_RX_BUF_SIZE a) →
  changes_in (dslot q (C + AL_ETH_NUM_RX_DESC)) (dslot q (C + AL_ETH_NUM_RX_DESC) + 16) m m' →
  rx_rep (mkRxv (v_rx v) (Some (gave (took q C) (C + AL_ETH_NUM_RX_DESC))) (v_base v) (v_bufs v) (v_phys v)
            ((v_tail v +u32 1) mod AL_ETH_NUM_RX_DESC))
    m' pg (gave (took q C) (C + AL_ETH_NUM_RX_DESC)) (C + 1) fs.
Proof.
  intros [Q F S R T B P L D St Dm Cm] Ea S2 R2 Dn Ch.
  pose proof (sub_wf _ _ _ S) as W. pose proof (sub_range _ _ _ S) as HC. cbn [length] in L, St.
  pose proof (cfg_size _ _ F) as Sz. unfold AL_ETH_DESCS_PER_Q, AL_ETH_NUM_RX_DESC in *.
  assert (∀ n k, 0 <= k <= 12 → m' !! (slot q n + k) = m !! (slot q n + k)) as As.
  { intros n k Hk. apply (proj1 Ch). pose proof (cfg_slot q _ n F W). pose proof (cfg_dslot q _ (C + 32) F W). lia. }
  assert (∀ n, m' !! slot q n = m !! slot q n) as As0.
  { intros n. specialize (As n 0 ltac:(lia)). by rewrite Z.add_0_r in As. }
  constructor; cbn [v_rx v_rxq v_base v_bufs v_phys v_tail]; try done.
  - by destruct Q.
  - destruct F. by constructor.
  - by replace (C + 1 + AL_ETH_NUM_RX_DESC) with (C + 32 + 1) by (unfold AL_ETH_NUM_RX_DESC; lia).
  - by apply comp_rep_desc.
  - rewrite T. apply (tail_next C). lia.
  - by destruct B.
  - intros j Hj. unfold posted. cbn [v_phys]. change (dslot (gave (took q C) (C + 32)) j) with (dslot q j).
    unfold AL_ETH_NUM_RX_DESC in Hj. destruct (decide (j = C + 32)) as [->|Nj].
    + exists a. rewrite add_ring. unfold AL_ETH_NUM_RX_DESC. rewrite <- T. split; [done|].
      rewrite Dn. unfold AL_ETH_DESCS_PER_Q. by rewrite Sz.
    + destruct (P j ltac:(lia)) as (b & Eb & Db). exists b. split; [done|].
      rewrite (desc_at_changes (dslot q (C + 32)) (dslot q (C + 32) + 16) m m'); [done|done|].
      pose proof (dslot_apart q j (C + 32) W ltac:(lia)). lia.
  - unfold AL_ETH_NUM_RX_DESC. lia.
  - intros i g E. specialize (D (Datatypes.S i) g E). replace (C + Z.of_nat (Datatypes.S i)) with (C + 1 + Z.of_nat i) in D by lia.
    destruct D. constructor; try done;
      change (slot (gave (took q C) (C + 32)) (C + 1 + Z.of_nat i)) with (slot q (C + 1 + Z.of_nat i));
      rewrite ?As0, ?As by lia; done.
  - intros j Hj. change (slot (gave (took q C) (C + 32)) j) with (slot q j). rewrite As0.
    unfold AL_ETH_DESCS_PER_Q in Hj. destruct (decide (j = C + 64)) as [->|Nj]; [|apply St; lia].
    destruct (D 0%nat f eq_refl) as [Ec _ _ _ Er _ _ _].
    replace (C + Z.of_nat 0) with C in * by lia.
    exists (f_ctrl f). rewrite <- Sz. rewrite slot_lap by done. split; [done|].
    rewrite Er. unfold AL_ETH_DESCS_PER_Q. rewrite Sz. intros X. symmetry in X.
    by apply (rid_lap 64 C ltac:(lia)).
  - intros n k Hk. change (dslot (gave (took q C) (C + 32)) n) with (dslot q n).
    apply (proj2 Ch). by apply Dm.
  - intros n k Hk. change (slot (gave (took q C) (C + 32)) n) with (slot q n).
    apply (proj2 Ch). by apply Cm.
Qed.
End Pop.

(** ** The data path on the driver's queues *)

Definition with_rxq (c : AL_ETH_NEXT_CONTEXT) (q : al_udma_q) : AL_ETH_NEXT_CONTEXT :=
  let a := HalAdapter c in
  let u := rx_udma a in
  set_HalAdapter c (mkAdapter (a_rev_id a) (ec_regs_base a) (tx_udma a)
    (mkUdma (udma_type u) (num_of_queues u) (Udma.udma_regs u) (q :: tail (udma_q u)))).
Definition with_txq (c : AL_ETH_NEXT_CONTEXT) (q : al_udma_q) : AL_ETH_NEXT_CONTEXT :=
  let a := HalAdapter c in
  let u := tx_udma a in
  set_HalAdapter c (mkAdapter (a_rev_id a) (ec_regs_base a)
    (mkUdma (udma_type u) (num_of_queues u) (Udma.udma_regs u) (q :: tail (udma_q u))) (rx_udma a)).

Section Runs.
Context {H : Type} `{EthHw H}.
Implicit Types s : ETH H.

Definition with_ctx s (c : AL_ETH_NEXT_CONTEXT) : ETH H := mkEth c (hw s) (words s) (pages s) (pg_script s).
Definition with_words s (m : Words) : ETH H := mkEth (ctx s) (hw s) m (pages s) (pg_script s).
Definition with_hw s (h : H) : ETH H := mkEth (ctx s) h (words s) (pages s) (pg_script s).

Lemma bind_lift {A B} (a : A) (f : A → Eth B) s : (lift (Some a) ≫= f) s = f a s.
Proof. done. Qed.
Lemma bind_run {A B} (m : Eth A) (f : A → Eth B) s a s' : m s = Some (a, s') → (m ≫= f) s = f a s'.
Proof. unfold mbind, Eth_bind. by intros ->. Qed.

Lemma wrn_head {A} (x y : A) l : wrn (x :: l) 0 [y] = Some (y :: l).
Proof.
  unfold wrn, in_bounds. cbn [length].
  assert ((0 <=? 0) && (0 <=? Z.of_nat 1) && (0 + Z.of_nat 1 <=? Z.of_nat (Datatypes.S (length l))) = true)
    as -> by (rewrite !andb_true_iff, !Z.leb_le; lia).
  done.
Qed.

Lemma get_q_rx s q : RxDmaQ (ctx s) = Some 0 → head (udma_q (rx_udma (HalAdapter (ctx s)))) = Some q →
  get_q false s = Some (q, s).
Proof.
  intros E Q. unfold get_q, get_ctx, lift, mbind, Eth_bind. rewrite E.
  destruct (udma_q (rx_udma (HalAdapter (ctx s)))) as [|q0 l]; [done|]. cbn in Q |- *. by injection Q as ->.
Qed.

Lemma get_q_tx s q : TxDmaQ (ctx s) = Some 0 → head (udma_q (tx_udma (HalAdapter (ctx s)))) = Some q →
  get_q true s = Some (q, s).
Proof.
  intros E Q. unfold get_q, get_ctx, lift, mbind, Eth_bind. rewrite E.
  destruct (udma_q (tx_udma (HalAdapter (ctx s)))) as [|q0 l]; [done|]. cbn in Q |- *. by injection Q as ->.
Qed.

Lemma put_q_rx s q q' : RxDmaQ (ctx s) = Some 0 → head (udma_q (rx_udma (HalAdapter (ctx s)))) = Some q →
  put_q false q' s = Some (tt, with_ctx s (with_rxq (ctx s) q')).
Proof.
  intros E Q. unfold put_q, get_ctx, lift, mbind, Eth_bind. rewrite E. unfold with_rxq.
  destruct (udma_q (rx_udma (HalAdapter (ctx s)))) as [|q0 l]; [done|].
  rewrite wrn_head. reflexivity.
Qed.

Lemma put_q_tx s q q' : TxDmaQ (ctx s) = Some 0 → head (udma_q (tx_udma (HalAdapter (ctx s)))) = Some q →
  put_q true q' s = Some (tt, with_ctx s (with_txq (ctx s) q')).
Proof.
  intros E Q. unfold put_q, get_ctx, lift, mbind, Eth_bind. rewrite E. unfold with_txq.
  destruct (udma_q (tx_udma (HalAdapter (ctx s)))) as [|q0 l]; [done|].
  rewrite wrn_head. reflexivity.
Qed.

Lemma pkt_rx_run s q pkt r pkt' q' m' :
  RxDmaQ (ctx s) = Some 0 → head (udma_q (rx_udma (HalAdapter (ctx s)))) = Some q →
  al_eth_pkt_rx q pkt (words s) = Some (r, pkt', q', m') →
  pkt_rx pkt s = Some ((r, pkt'), with_words (with_ctx s (with_rxq (ctx s) q')) m').
Proof.
  intros E Q R. unfold pkt_rx. unfold mbind at 1, Eth_bind at 1. rewrite (get_q_rx s q E Q).
  unfold get_words, lift, mbind, Eth_bind. rewrite R. by rewrite (put_q_rx s q q' E Q).
Qed.

Lemma rx_add_run s q a l r q' m' :
  RxDmaQ (ctx s) = Some 0 → head (udma_q (rx_udma (HalAdapter (ctx s)))) = Some q →
  al_eth_rx_buffer_add q (mkBuf a l) AL_ETH_RX_FLAGS_INT None (words s) = Some (r, q', m') →
  rx_add a l s = Some (r, with_words (with_ctx s (with_rxq (ctx s) q')) m').
Proof.
  intros E Q R. unfold rx_add. unfold mbind at 1, Eth_bind at 1. rewrite (get_q_rx s q E Q).
  unfold get_words, lift, mbind, Eth_bind. rewrite R. by rewrite (put_q_rx s q q' E Q).
Qed.

Lemma rx_action_run s q n :
  RxDmaQ (ctx s) = Some 0 → head (udma_q (rx_udma (HalAdapter (ctx s)))) = Some q →
  0 < n <= q_size q →
  rx_action n s = Some (tt, with_hw s (MmioWrite32 (q_regs q + rings_drtp_inc) n (hw s))).
Proof.
  intros E Q Hn. unfold rx_action. rewrite (get_q_rx s q E Q).
  unfold al_eth_rx_buffer_action, al_udma_desc_action_add.
  destruct (Z.ltb_spec 0 n); [|lia]. destruct (Z.leb_spec n (q_size q)); [|lia]. done.
Qed.

Lemma tx_prepare_run s q pkt n q' m' :
  TxDmaQ (ctx s) = Some 0 → head (udma_q (tx_udma (HalAdapter (ctx s)))) = Some q →
  al_eth_tx_pkt_prepare q pkt (words s) = Some (n, q', m') →
  tx_prepare pkt s = Some (n, with_words (with_ctx s (with_txq (ctx s) q')) m').
Proof.
  intros E Q R. unfold tx_prepare. unfold mbind at 1, Eth_bind at 1. rewrite (get_q_tx s q E Q).
  unfold get_words, lift, mbind, Eth_bind. rewrite R. by rewrite (put_q_tx s q q' E Q).
Qed.

Lemma tx_action_run s q n :
  TxDmaQ (ctx s) = Some 0 → head (udma_q (tx_udma (HalAdapter (ctx s)))) = Some q →
  0 < n <= q_size q →
  tx_action n s = Some (tt, with_hw s (MmioWrite32 (q_regs q + rings_drtp_inc) n (hw s))).
Proof.
  intros E Q Hn. unfold tx_action. rewrite (get_q_tx s q E Q).
  unfold al_eth_tx_dma_action, al_udma_desc_action_add.
  destruct (Z.ltb_spec 0 n); [|lia]. destruct (Z.leb_spec n (q_size q)); [|lia]. done.
Qed.

Lemma comp_tx_get_run s q n q' h' :
  TxDmaQ (ctx s) = Some 0 → head (udma_q (tx_udma (HalAdapter (ctx s)))) = Some q →
  al_eth_comp_tx_get q (hw s) = (n, q', h') →
  comp_tx_get s = Some (n, with_hw (with_ctx s (with_txq (ctx s) q')) h').
Proof.
  intros E Q R. unfold comp_tx_get. unfold mbind at 1, Eth_bind at 1. rewrite (get_q_tx s q E Q).
  unfold from_hw, mbind, Eth_bind. rewrite R. cbn. by rewrite (put_q_tx _ q q').
Qed.
End Runs.

(** ** Receive, on one frame *)

(** What Receive puts behind the caller's pointers for a delivered frame. *)
Definition rx_fill (hdr : Z) (p : RxOut) (f : frame) : RxOut :=
  let d := f_data f in
  mkRxOut (option_map (λ _, hdr) (o_HeaderSize p)) (Some (f_len f))
    (option_map (λ b, d ++ drop (length d) b)%list (o_Buffer p))
    (option_map (λ m, take 6 (drop 6 d) ++ drop 6 m)%list (o_SrcAddr p))
    (option_map (λ m, take 6 d ++ drop 6 m)%list (o_DestAddr p))
    (option_map (λ _, u16 (Z.lor (Z.shiftl (nth 12 d 0) 8) (nth 13 d 0))) (o_Protocol p)).

Definition bad_len (f : frame) : bool := (f_len f <? 14) || (AL_ETH_RX_BUF_SIZE <? f_len f).

(** The answer of Receive for the first waiting frame; [n] is the size of the
    caller's buffer. *)
Definition rx_answer (hdr n : Z) (p : RxOut) (f : frame) : EFI_STATUS * RxOut :=
  if rx_error (f_ctrl f) then (EFI_NOT_READY, p)
  else if bad_len f then (EFI_SUCCESS, p)
  else if n <? f_len f then
    (EFI_BUFFER_TOO_SMALL,
     mkRxOut (o_HeaderSize p) (Some (f_len f)) (o_Buffer p) (o_SrcAddr p) (o_DestAddr p) (o_Protocol p))
  else (EFI_SUCCESS, rx_fill hdr p f).

Definition delivered (n : Z) (f : frame) : bool :=
  negb (rx_error (f_ctrl f)) && negb (bad_len f) && (f_len f <=? n).

(** A call that keeps its promises: the buffer has the size it says, and the
    addresses have room for six bytes. *)
Record rx_call (p : RxOut) (n : Z) : Prop := mkCall {
  rc_size : o_BufferSize p = Some n;
  rc_buffer : ∃ b, o_Buffer p = Some b ∧ n <= len b;
  rc_src : ∀ m, o_SrcAddr p = Some m → 6 <= len m;
  rc_dst : ∀ m, o_DestAddr p = Some m → 6 <= len m
}.

Definition bump (i : nat) (l : list Z) : list Z := <[i := nth i l 0 +u64 1]> l.

Lemma rdn_app_l {A} (l1 l2 : list A) off n :
  0 <= off → 0 <= n → off + n <= len l1 →
  rdn (l1 ++ l2) off n = Some (take (Z.to_nat n) (drop (Z.to_nat off) l1)).
Proof.
  intros. rewrite rdn_eq by (rewrite ?length_app; lia).
  rewrite drop_app_le by lia. rewrite take_app_le; [done|]. rewrite length_drop. lia.
Qed.

Lemma wrn_bump l (i : nat) n : l !! i = Some n → wrn l (Z.of_nat i) [n +u64 1] = Some (bump i l).
Proof.
  intros E. pose proof (lookup_lt_Some _ _ _ E). rewrite wrn_eq by (cbn; lia).
  rewrite Nat2Z.id. cbn [length]. unfold bump.
  rewrite insert_take_drop, (nth_lookup_Some l i 0 n E) by lia. by rewrite Nat.add_1_r.
Qed.

Section Receive.
Context {H : Type} `{EthHw H}.
Implicit Types s : ETH H.

(** The state after a call that took a frame. *)
Record rx_after s s' (q : al_udma_q) (C : Z) (fs : list frame) (st : list Z) : Prop := mkAfter {
  ra_rep : rx_rep (rx_view (ctx s')) (words s') (pages s') (gave (took q C) (C + AL_ETH_NUM_RX_DESC)) (C + 1) fs;
  ra_pages : pages s' = pages s;
  ra_script : pg_script s' = pg_script s;
  ra_tx : tx_view (ctx s') = tx_view (ctx s);
  ra_words : changes_in (v_base (rx_view (ctx s)) + 2048) (v_base (rx_view (ctx s)) + 4096) (words s) (words s');
  ra_mode : SnpMode (ctx s') = SnpMode (ctx s);
  ra_stats : Stats (ctx s') = st;
  ra_bases : MacBase (ctx s') = MacBase (ctx s) ∧ EcBase (ctx s') = EcBase (ctx s) ∧ UdmaBase (ctx s') = UdmaBase (ctx s)
    ∧ DescRingPhys (ctx s') = DescRingPhys (ctx s);
  ra_phys : RxBuffersPhys (ctx s') = RxBuffersPhys (ctx s)
}.

(** A state in which al_eth_pkt_rx took the frame [f] from what [s0] holds. *)
Record taken s0 s (q : al_udma_q) (C : Z) (f : frame) (fs : list frame) : Prop := mkTaken {
  tk_rep : rx_rep (rx_view (ctx s0)) (words s0) (pages s0) q C (f :: fs);
  tk_view : rx_view (ctx s) = mkRxv (Some 0) (Some (took q C)) (v_base (rx_view (ctx s0)))
              (v_bufs (rx_view (ctx s0))) (v_phys (rx_view (ctx s0))) (v_tail (rx_view (ctx s0)));
  tk_sub : sub_rep (took q C) (C + AL_ETH_NUM_RX_DESC) (C + 1);
  tk_comp : comp_rep (took q C) (C + 1) (C + 1) 0;
  tk_words : words s = words s0;
  tk_pages : pages s = pages s0;
  tk_script : pg_script s = pg_script s0;
  tk_tx : tx_view (ctx s) = tx_view (ctx s0);
  tk_mode : SnpMode (ctx s) = SnpMode (ctx s0);
  tk_bases : MacBase (ctx s) = MacBase (ctx s0) ∧ EcBase (ctx s) = EcBase (ctx s0) ∧ UdmaBase (ctx s) = UdmaBase (ctx s0)
    ∧ DescRingPhys (ctx s) = DescRingPhys (ctx s0)
}.

Lemma resubmit_run s0 s q C f fs :
  taken s0 s q C f fs →
  ∃ s', resubmit s = Some (tt, s') ∧
    hw s' = MmioWrite32 (q_regs q + rings_drtp_inc) 1 (hw s) ∧
    rx_after s0 s' q C fs (Stats (ctx s)).
Proof.
  intros [R V S2 R2 Ew Ep Es Et Em Eb].
  pose proof R as [_ F S _ T B _ _ _ _ Dm _]. pose proof (sub_wf _ _ _ S) as W.
  pose proof (sub_range _ _ _ S) as HC. pose proof (cfg_size _ _ F) as Sz.
  assert (RxDmaQ (ctx s) = Some 0) as E0 by exact (f_equal v_rx V).
  assert (head (udma_q (rx_udma (HalAdapter (ctx s)))) = Some (took q C)) as Q0 by exact (f_equal v_rxq V).
  assert (RxBufTailIdx (ctx s) = RxBufTailIdx (ctx s0)) as T0 by exact (f_equal v_tail V).
  assert (RxBuffersPhys (ctx s) = RxBuffersPhys (ctx s0)) as P0 by exact (f_equal v_phys V).
  assert (RxBuffers (ctx s) = RxBuffers (ctx s0)) as B0 by exact (f_equal v_bufs V).
  assert (DescRingBase (ctx s) = DescRingBase (ctx s0)) as D0 by exact (f_equal v_base V).
  cbn [rx_view v_tail] in T.
  destruct (proj2 (rd_is_Some (RxBuffersPhys (ctx s0)) (RxBufTailIdx (ctx s0)))) as [a Ea].
  { pose proof (bo_len _ _ B) as L. cbn in L. unfold AL_ETH_NUM_RX_DESC in *. rewrite T.
    pose proof (Z.mod_pos_bound C 32). lia. }
  pose proof (bo_page _ _ B a (rd_in _ _ _ Ea)) as (Ha & _).
  assert (dring_mapped (took q C) (words s)) as Dm' by (rewrite Ew; exact Dm).
  assert (C + AL_ETH_NUM_RX_DESC - (C + 1) < q_size (took q C) - AL_UDMA_MAX_NUM_CDESC_PER_CACHE_LINE) as Hr.
  { change (q_size (took q C)) with (q_size q). rewrite Sz. unfold AL_ETH_NUM_RX_DESC, AL_ETH_DESCS_PER_Q, AL_UDMA_MAX_NUM_CDESC_PER_CACHE_LINE. lia. }
  destruct (rx_buffer_add_spec (took q C) (words s) (C + AL_ETH_NUM_RX_DESC) (C + 1) a AL_ETH_RX_BUF_SIZE
              S2 Hr Dm' ltac:(lia)) as (m' & Ea' & S3 & Dn & Ch).
  unfold resubmit. unfold mbind at 1, Eth_bind at 1. unfold get_ctx at 1.
  unfold lift at 1, mbind at 1, Eth_bind at 1. rewrite P0, T0, Ea.
  unfold mbind at 1, Eth_bind at 1. rewrite (rx_add_run s _ _ _ _ _ _ E0 Q0 Ea').
  change (0 =? 0) with true. cbv iota.
  set (q2 := set_desc (took q C) _ _) in *.
  unfold mbind at 1, Eth_bind at 1. rewrite (rx_action_run _ q2 1); [|done|done|].
  2: { change (q_size q2) with (q_size q). rewrite Sz. done. }
  unfold get_ctx, mbind, Eth_bind. eexists. split; [reflexivity|]. split; [reflexivity|].
  constructor; cbn; try done.
  - pose proof (rx_rep_pop _ _ _ _ _ _ _ a m' R Ea S3 R2) as X.
    cbn [v_rx v_base v_bufs v_phys v_tail rx_view] in X. rewrite Ew in Ch. specialize (X Dn Ch).
    rewrite Ep. unfold rx_view. cbn. rewrite D0, B0, P0, E0. unfold with_rxq. cbn.
    rewrite T0. pose proof (proj1 (rr_q _ _ _ _ _ _ R)) as X0. cbn in X0. rewrite X0 in X. exact X.
  - rewrite Ew in Ch. pose proof (cfg_dslot q _ (C + AL_ETH_NUM_RX_DESC) F W) as Rg.
    change RX_SDESC_OFFSET with 2048 in Rg. cbn in Rg.
    change (dslot (took q C)) with (dslot q) in Ch.
    eapply changes_in_mono; [| |exact Ch]; lia.
Qed.

Lemma rx_copy_run s0 s q C f fs p n :
  taken s0 s q C f fs → rx_call p n → bad_len f = false → f_len f <= n →
  length (Stats (ctx s)) = Z.to_nat STATS_COUNT →
  ∃ a s', rx_copy p (f_len f) s = Some (rx_fill (MediaHeaderSize (SnpMode (ctx s))) p f, s') ∧
    rd (RxBuffers (ctx s0)) (RxBufTailIdx (ctx s0)) = Some a ∧
    hw s' = InvalidateDataCacheRange a (f_len f) (hw s) ∧
    Stats (ctx s') = bump 1 (Stats (ctx s)) ∧ taken s0 s' q C f fs.
Proof.
  intros [R V S2 R2 Ew Ep Es Et Em Eb] [PS (b & Eb0 & Lb) Psrc Pdst] BL Hn HS.
  pose proof R as [_ _ _ _ T B _ _ D _ _ _].
  assert (RxBufTailIdx (ctx s) = RxBufTailIdx (ctx s0)) as T0 by exact (f_equal v_tail V).
  assert (RxBuffers (ctx s) = RxBuffers (ctx s0)) as B0 by exact (f_equal v_bufs V).
  destruct (D 0%nat f eq_refl) as [_ _ _ _ _ _ Ld (a & pg & Ea & Epg & Edata)].
  rewrite Z.add_0_r in Ea. unfold bad_len in BL. apply orb_false_iff in BL as [L1 L2].
  apply Z.ltb_ge in L1, L2. unfold AL_ETH_RX_BUF_SIZE in *.
  assert (len (f_data f) = f_len f) as Lf by lia.
  cbn [rx_view v_tail] in T. pose proof (bo_same _ _ B) as Sm. cbn in Sm.
  assert (rd (RxBuffers (ctx s0)) (RxBufTailIdx (ctx s0)) = Some a) as Ea0 by (rewrite Sm, T; exact Ea).
  assert (∃ rest, pg = f_data f ++ rest)%list as [rest ->].
  { apply rdn_Some in Edata as (_ & _ & _ & _ & E). change (Z.to_nat 0) with 0%nat in E. rewrite drop_0 in E.
    exists (drop (Z.to_nat (len (f_data f))) pg). rewrite E at 1. by rewrite take_drop. }
  exists a.
  unfold rx_copy. unfold mbind at 1, Eth_bind at 1. unfold get_ctx at 1.
  unfold mbind at 1, Eth_bind at 1. rewrite B0, T0, Ea0. unfold lift at 1.
  unfold mbind at 1, Eth_bind at 1. unfold on_hw at 1.
  unfold mbind at 1, Eth_bind at 1. unfold get_page at 1. cbn [pages]. rewrite Ep, Epg.
  unfold mbind at 1, Eth_bind at 1. unfold lift at 1.
  rewrite (rdn_app_l _ _ 0 (f_len f)) by lia.
  change (Z.to_nat 0) with 0%nat. rewrite drop_0, (take_ge (f_data f)) by lia.
  unfold mbind at 1, Eth_bind at 1. unfold lift at 1. rewrite Eb0. cbn [mbind option_bind].
  rewrite wrn_0 by lia.
  set (s1 := mkEth _ _ _ _ _).
  assert (∀ o off, (∀ m, o = Some m → 6 <= len m) → 0 <= off <= 8 →
    (match o with
     | Some m => x ← lift (rdn (f_data f ++ rest) off 6); m ← lift (wrn m 0 x); mret (Some m)
     | None => mret None end : Eth (option (list Z))) s1
    = Some (option_map (λ m, take 6 (drop (Z.to_nat off) (f_data f)) ++ drop 6 m)%list o, s1)) as Put.
  { intros [m|] off Hm Ho; [|done]. unfold mbind, Eth_bind, lift.
    rewrite rdn_app_l by lia. specialize (Hm m eq_refl).
    assert (length (take (Z.to_nat 6) (drop (Z.to_nat off) (f_data f))) = 6%nat) as L6
      by (rewrite length_take, length_drop; lia).
    rewrite wrn_0 by lia. rewrite L6. done. }
  cbv zeta. unfold mbind at 1, Eth_bind at 1. rewrite (Put (o_DestAddr p) 0 Pdst) by lia.
  unfold mbind at 1, Eth_bind at 1. rewrite (Put (o_SrcAddr p) 6 Psrc) by lia.
  unfold mbind at 1, Eth_bind at 1.
  assert ((match o_Protocol p with
           | Some _ => h ← lift (rd (f_data f ++ rest) 12); l ← lift (rd (f_data f ++ rest) 13);
                       mret (Some (u16 (Z.lor (Z.shiftl h 8) l)))
           | None => mret None end : Eth (option Z)) s1
    = Some (option_map (λ _, u16 (Z.lor (Z.shiftl (nth 12 (f_data f) 0) 8) (nth 13 (f_data f) 0))) (o_Protocol p), s1)) as ->.
  { destruct (o_Protocol p); [|done]. unfold mbind, Eth_bind, lift. rewrite !rd_app_l by lia.
    rewrite !rd_lookup by lia.
    destruct (lookup_lt_is_Some_2 (f_data f) 12) as [x Ex]; [lia|].
    destruct (lookup_lt_is_Some_2 (f_data f) 13) as [y Ey]; [lia|].
    change (Z.to_nat 12) with 12%nat. change (Z.to_nat 13) with 13%nat.
    rewrite Ex, Ey, (nth_lookup_Some _ 12 0 x Ex), (nth_lookup_Some _ 13 0 y Ey). done. }
  destruct (lookup_lt_is_Some_2 (Stats (ctx s)) 1) as [g Eg].
  { rewrite HS. change (Z.to_nat STATS_COUNT) with 26%nat. lia. }
  unfold mbind at 1, Eth_bind at 1. unfold lift at 1.
  rewrite rd_lookup by done. change (Z.to_nat RxGoodFrames) with 1%nat. rewrite Eg.
  unfold mbind at 1, Eth_bind at 1. unfold lift at 1.
  change RxGoodFrames with (Z.of_nat 1). rewrite (wrn_bump _ _ _ Eg).
  unfold mbind at 1, Eth_bind at 1. unfold set_ctx at 1, mret, Eth_ret.
  eexists. split.
  { do 2 f_equal. unfold rx_fill. rewrite Eb0. change (Z.to_nat 0) with 0%nat. rewrite drop_0.
    by destruct (o_HeaderSize p). }
  split_and!; try done.
Qed.

Lemma receive_step p n s q C f fs :
  State (SnpMode (ctx s)) = EfiSimpleNetworkInitialized →
  rx_rep (rx_view (ctx s)) (words s) (pages s) q C (f :: fs) →
  rx_call p n → length (Stats (ctx s)) = Z.to_nat STATS_COUNT →
  ∃ s', AlEthNextSnpReceive p s =
      Some (rx_answer (MediaHeaderSize (SnpMode (ctx s))) n p f, s') ∧
    rx_after s s' q C fs (if delivered n f then bump 1 (Stats (ctx s)) else Stats (ctx s)) ∧
    ∃ h, (h = hw s ∨ ∃ a, delivered n f = true ∧ rd (RxBuffers (ctx s)) (RxBufTailIdx (ctx s)) = Some a ∧
            h = InvalidateDataCacheRange a (f_len f) (hw s)) ∧
      hw s' = MmioWrite32 (q_regs q + rings_drtp_inc) 1 h.
Proof.
  intros St R P HS. pose proof R as [[E0 Q0] F S Rc T B _ L D Sl _ _].
  pose proof (sub_range _ _ _ S) as HC. pose proof (cfg_size _ _ F) as Sz.
  destruct (D 0%nat f eq_refl) as [D0 D1 D2 D3 Dr Dl _ _]. rewrite Z.add_0_r in *.
  pose proof P as [PS (b & Eb & _) _ _].
  cbn [rx_view v_rx v_rxq] in E0, Q0.
  destruct (pkt_rx_one q zero_pkt (mkBuf 0 0) (repeat (mkBuf 0 0) 18) (words s) (C + AL_ETH_NUM_RX_DESC) C
              (f_ctrl f) (map f_ctrl fs) (f_word1 f) (f_word2 f) (f_word3 f))
    as (pkt' & Er & Ef & Ebs & S2 & R2); try done.
  - apply (cfg_upd _ _ F).
  - unfold AL_ETH_NUM_RX_DESC. lia.
  - constructor.
    + intros i g E. change (f_ctrl f :: map f_ctrl fs) with (map f_ctrl (f :: fs)) in E.
      rewrite list_lookup_fmap in E. destruct ((f :: fs) !! i) as [x|] eqn:Ex; [|done].
      injection E as <-. destruct (D i x Ex) as [X0 _ _ _ Xr _ _ _]. split; [done|].
      by rewrite Sz.
    + cbn [length] in Sl |- *. rewrite length_map. rewrite Sz. apply Sl.
      unfold AL_ETH_DESCS_PER_Q, AL_ETH_NUM_RX_DESC in *. cbn [length] in L. lia.
  - rewrite length_map, Sz. unfold AL_ETH_DESCS_PER_Q, AL_ETH_NUM_RX_DESC in *. cbn [length] in L. lia.
  - rewrite (cfg_rev _ _ F). done.
  - change (al_udma_cdesc_ack _ 1) with (took q C) in *.
    set (s1 := with_words (with_ctx s (with_rxq (ctx s) (took q C))) (words s)).
    assert (taken s s1 q C f fs) as Tk.
    { constructor; try done. unfold s1, rx_view, with_rxq. cbn. by rewrite E0. }
    unfold AlEthNextSnpReceive. unfold mbind at 1, Eth_bind at 1. unfold get_state, get_ctx at 1.
    unfold mbind at 1, Eth_bind at 1, mret, Eth_ret. rewrite St. cbn [bool_decide negb].
    change (bool_decide (EfiSimpleNetworkInitialized = EfiSimpleNetworkInitialized)) with true. cbn [negb].
    rewrite Eb, PS. unfold mbind at 1, Eth_bind at 1.
    rewrite (pkt_rx_run s q zero_pkt 1 pkt' (took q C) (words s) E0 Q0 Er). fold s1.
    change (1 =? 0) with false. cbv iota. cbn [negb andb]. cbv zeta. rewrite Ef.
    unfold rx_answer, delivered.
    assert (∀ (p' : RxOut) s2, taken s s2 q C f fs → ∃ s', 
      match resubmit s2 with
      | Some (_, s') => Some ((if negb (rx_error (f_ctrl f)) then EFI_SUCCESS else EFI_NOT_READY, p'), s')
      | None => None
      end = Some ((if negb (rx_error (f_ctrl f)) then EFI_SUCCESS else EFI_NOT_READY, p'), s') ∧
      rx_after s s' q C fs (Stats (ctx s2)) ∧ hw s' = MmioWrite32 (q_regs q + rings_drtp_inc) 1 (hw s2)) as Done.
    { intros p' s2 T2. destruct (resubmit_run s s2 q C f fs T2) as (s' & Es & Eh & A).
      exists s'. rewrite Es. by split_and!. }
    destruct (rx_error (f_ctrl f)) eqn:Ee; cbn [negb andb] in *.
    { destruct (Done p s1 Tk) as (s' & Es & A & Eh). exists s'. split; [exact Es|]. split; [exact A|].
      exists (hw s). split; [by left|exact Eh]. }
    rewrite Ebs. unfold mbind at 1, Eth_bind at 1. unfold lift at 1. cbn [rd].
    change (0 =? 0) with true. cbv iota. cbn [blen]. fold (f_len f).
    change ((f_len f <? 14) || (AL_ETH_RX_BUF_SIZE <? f_len f)) with (bad_len f).
    destruct (bad_len f) eqn:EB; cbn [negb andb].
    { destruct (Done p s1 Tk) as (s' & Es & A & Eh). exists s'. split; [exact Es|]. split; [exact A|].
      exists (hw s). split; [by left|exact Eh]. }
    destruct (Z.ltb_spec n (f_len f)) as [Hn|Hn].
    { destruct (Z.leb_spec (f_len f) n); [lia|].
      destruct (resubmit_run s s1 q C f fs Tk) as (s' & Es & Eh & A).
      exists s'. unfold mbind, Eth_bind. rewrite Es, Eb. split; [done|]. split; [exact A|].
      exists (hw s). split; [by left|exact Eh]. }
    destruct (Z.leb_spec (f_len f) n); [|lia].
    destruct (rx_copy_run s s1 q C f fs p n Tk P EB Hn HS) as (a & s2 & Ec & Ea & Eh2 & Es2 & Tk2).
    unfold mbind at 1, Eth_bind at 1. rewrite Ec. 
    destruct (Done (rx_fill (MediaHeaderSize (SnpMode (ctx s))) p f) s2 Tk2) as (s' & Es & A & Eh).
    exists s'. split; [exact Es|]. rewrite Es2 in A. split; [exact A|].
    exists (hw s2). split; [|exact Eh]. right. exists a. by rewrite Eh2.
Qed.

Lemma receive_empty p n s q C :
  State (SnpMode (ctx s)) = EfiSimpleNetworkInitialized →
  rx_rep (rx_view (ctx s)) (words s) (pages s) q C [] → rx_call p n →
  ∃ s', AlEthNextSnpReceive p s = Some ((EFI_NOT_READY, p), s') ∧
    rx_view (ctx s') = rx_view (ctx s) ∧ tx_view (ctx s') = tx_view (ctx s) ∧ hw s' = hw s ∧
    words s' = words s ∧ pages s' = pages s ∧ pg_script s' = pg_script s ∧
    SnpMode (ctx s') = SnpMode (ctx s) ∧ Stats (ctx s') = Stats (ctx s) ∧
    MacBase (ctx s') = MacBase (ctx s) ∧ EcBase (ctx s') = EcBase (ctx s) ∧ UdmaBase (ctx s') = UdmaBase (ctx s) ∧
    DescRingPhys (ctx s') = DescRingPhys (ctx s).
Proof.
  intros St R P. pose proof R as [[E0 Q0] F S Rc T B _ L D Sl _ _].
  pose proof (cfg_size _ _ F) as Sz. pose proof P as [PS (b & Eb & _) _ _].
  cbn [rx_view v_rx v_rxq] in E0, Q0.
  assert (al_eth_pkt_rx q zero_pkt (words s) = Some (0, zero_pkt, q, words s)) as Er.
  { apply (pkt_rx_none q zero_pkt (words s) C Rc (cfg_upd _ _ F)). constructor; [done|].
    rewrite Sz. apply Sl. cbn. unfold AL_ETH_DESCS_PER_Q. lia. }
  unfold AlEthNextSnpReceive. unfold mbind at 1, Eth_bind at 1. unfold get_state, get_ctx at 1.
  unfold mbind at 1, Eth_bind at 1, mret, Eth_ret. rewrite St.
  change (bool_decide (EfiSimpleNetworkInitialized = EfiSimpleNetworkInitialized)) with true. cbn [negb].
  rewrite Eb, PS. unfold mbind at 1, Eth_bind at 1. rewrite (pkt_rx_run s q zero_pkt 0 zero_pkt q (words s) E0 Q0 Er).
  change (0 =? 0) with true. cbv iota. eexists. split; [reflexivity|].
  split_and!; try done. unfold rx_view, with_rxq. cbn. by rewrite Q0.
Qed.
End Receive.

(** ** The transmit side *)

(** The completion head that the controller reports lies between what was
    acknowledged and what was submitted. *)
Definition crhp_ok {H} `{EthHw H} (q : al_udma_q) (h : H) (P C : Z) : Prop :=
  ∃ n, 0 <= n <= P - C ∧
    Z.land (fst (MmioRead32 (q_regs q + rings_crhp) h)) 0xFFFF = (C + n) mod q_size q.

Section Transmit.
Context {H : Type} `{EthHw H}.
Implicit Types s : ETH H.

(** What an operation of the transmit side leaves alone. *)
Record tx_same s s' : Prop := mkTxSame {
  ts_rx : rx_view (ctx s') = rx_view (ctx s);
  ts_words : changes_in (DescRingBase (ctx s)) (DescRingBase (ctx s) + 1024) (words s) (words s');
  ts_pages : pages s' = pages s;
  ts_script : pg_script s' = pg_script s;
  ts_bases : MacBase (ctx s') = MacBase (ctx s) ∧ EcBase (ctx s') = EcBase (ctx s) ∧ UdmaBase (ctx s') = UdmaBase (ctx s)
    ∧ DescRingPhys (ctx s') = DescRingPhys (ctx s)
}.

Lemma tx_same_refl s : tx_same s s.
Proof. done. Qed.

Lemma tx_same_trans s1 s2 s3 : tx_same s1 s2 → tx_same s2 s3 → tx_same s1 s3.
Proof.
  intros [A1 B1 C1 D1 (E1 & F1 & G1 & I1)] [A2 B2 C2 D2 (E2 & F2 & G2 & I2)].
  constructor; [congruence| |congruence|congruence|split_and!; congruence].
  eapply changes_in_trans; [exact B1|].
  assert (DescRingBase (ctx s2) = DescRingBase (ctx s1)) as <- by exact (f_equal v_base A1). exact B2.
Qed.

(** Fetching completions: the queue [q'] has [n] descriptors fewer in use. *)
Lemma comp_get_spec q (h : H) P C :
  sub_rep q P C → crhp_ok q h P C →
  ∃ n q' h', al_eth_comp_tx_get q h = (n, q', h') ∧ h' = snd (MmioRead32 (q_regs q + rings_crhp) h) ∧
    0 <= n <= P - C ∧ Z.land (fst (MmioRead32 (q_regs q + rings_crhp) h)) 0xFFFF = (C + n) mod q_size q ∧
    sub_rep q' P (C + n) ∧
    ∃ i j, q' = set_next_cdesc (set_comp_head_idx q i) j.
Proof.
  intros S (n & Hn & Ev). destruct (MmioRead32 (q_regs q + rings_crhp) h) as [v h'] eqn:E. cbn in Ev.
  pose proof (get_all_spec q P C n h v h' S Hn E Ev) as G.
  unfold al_eth_comp_tx_get. rewrite G. exists n.
  pose proof (sub_rep_comp_head q P C ((C + n) mod q_size q) S) as S1.
  destruct (Z.eqb_spec n 0) as [->|Nn]; cbn [negb].
  - do 2 eexists. split; [reflexivity|]. split_and!; try done; [lia| |].
    + rewrite Z.add_0_r in S1 |- *. exact S1.
    + by eexists _, (next_cdesc_idx q).
  - do 2 eexists. split; [reflexivity|]. split_and!; try done; [lia|lia| |].
    + by apply ack_spec.
    + by do 2 eexists.
Qed.

Lemma q_cfg_comp q base i j : q_cfg q base → q_cfg (set_next_cdesc (set_comp_head_idx q i) j) base.
Proof. intros []. by constructor. Qed.

(** The start of Transmit, and the inner part of GetStatus: a buffer in flight is
    given up when its descriptor has completed. *)
Lemma reclaim_run s q P C :
  tx_rep (tx_view (ctx s)) (words s) q P C → TxBufInFlight (ctx s) <> 0 → crhp_ok q (hw s) P C →
  ∃ n s', comp_tx_get s = Some (n, s') ∧ n = (if 0 <? n then 1 else 0) ∧
    Z.land (fst (MmioRead32 (q_regs q + rings_crhp) (hw s))) 0xFFFF = (C + n) mod q_size q ∧
    hw s' = snd (MmioRead32 (q_regs q + rings_crhp) (hw s)) ∧
    tx_same s s' ∧ words s' = words s ∧ SnpMode (ctx s') = SnpMode (ctx s) ∧ Stats (ctx s') = Stats (ctx s) ∧
    TxBufInFlight (ctx s') = TxBufInFlight (ctx s) ∧
    ∃ q', (∀ m, dslot q' m = dslot q m) ∧ q_regs q' = q_regs q ∧
      ∀ b, P - (C + n) = (if b =? 0 then 0 else 1) →
        tx_rep (tx_view (set_TxBufInFlight (ctx s') b)) (words s') q' P (C + n).
Proof.
  intros [[E0 Q0] F S Fl Dm] NB CR. cbn [tx_view v_tx v_txq v_flight v_tbase] in *.
  destruct (Z.eqb_spec (TxBufInFlight (ctx s)) 0) as [Z0|_]; [by rewrite Z0 in NB|].
  destruct (comp_get_spec q (hw s) P C S CR) as (n & q' & h' & G & Eh & Hn & Ev & S' & (i & j & Eq)).
  exists n. eexists. split; [by apply (comp_tx_get_run s q n q' h')|].
  split; [destruct (Z.ltb_spec 0 n); lia|]. split; [done|]. split; [done|].
  split; [done|]. split; [done|]. split; [done|]. split; [done|]. split; [done|].
  exists q'. split; [by subst q'|]. split; [by subst q'|]. intros b Hb.
  constructor; cbn; try done.
  - subst q'. by apply q_cfg_comp.
  - subst q'. exact Dm.
Qed.

(** A packet of one buffer, as Transmit builds it. *)
Definition one_buf (a n : Z) : al_eth_pkt :=
  mkPkt 0 0 0 0 0 0 0 0 0 0 0 0 0 0 0 0 0 0 1
    (mkBuf a (u32 n) :: repeat (mkBuf 0 0) (Z.to_nat AL_ETH_PKT_MAX_BUFS - 1)).

Lemma one_buf_ok a n : 0 <= a < 2 ^ 64 → pkt_ok (one_buf a n).
Proof.
  intros Ha. constructor; cbn; try lia; [|done].
  constructor; [done|]. repeat (constructor; [cbn; lia|]). constructor.
Qed.

Definition sent q (P : Z) : al_udma_q := set_desc q ((P + 1) mod q_size q) (rid (q_size q) (P + 1)).

Lemma send_run s q P C a n :
  tx_rep (tx_view (ctx s)) (words s) q P C → TxBufInFlight (ctx s) = 0 → 0 < a < 2 ^ 64 →
  ∃ m', tx_prepare (one_buf a n) s = Some (1, with_words (with_ctx s (with_txq (ctx s) (sent q P))) m') ∧
    desc_at m' (dslot q P) = Some (mkDesc true true (rid (q_size q) P) (Z.land n 0xffff) a) ∧
    changes_in (DescRingBase (ctx s)) (DescRingBase (ctx s) + 1024) (words s) m' ∧
    (∀ c, tx_view c = mkTxv (Some 0) (Some (sent q P)) (DescRingBase (ctx s)) a →
       tx_rep (tx_view c) m' (sent q P) (P + 1) C).
Proof.
  intros [[E0 Q0] F S Fl Dm] NB Ha. cbn [tx_view v_tx v_txq v_flight v_tbase] in *.
  rewrite NB in Fl. change (0 =? 0) with true in Fl. cbv iota in Fl.
  pose proof (cfg_size _ _ F) as Sz. pose proof (sub_wf _ _ _ S) as W. pose proof (sub_range _ _ _ S).
  assert (P + 1 - C <= q_size q - AL_UDMA_MAX_NUM_CDESC_PER_CACHE_LINE) as Hr.
  { rewrite Sz. unfold AL_ETH_DESCS_PER_Q, AL_UDMA_MAX_NUM_CDESC_PER_CACHE_LINE. lia. }
  destruct (tx_pkt_prepare_run (one_buf a n) q (words s) P C) as (m' & E & D & Ch); try done.
  { apply one_buf_ok. lia. }
  exists m'. split; [by apply (tx_prepare_run s q)|]. split_and!.
  - specialize (D 0 (mkBuf a (u32 n)) ltac:(cbn; lia) eq_refl). rewrite Z.add_0_r in D. rewrite D.
    unfold tx_desc. cbn [num_of_bufs one_buf blen addr tgtid]. rewrite Z.add_0_r, Z.shiftl_0_l, Z.lor_0_r.
    do 2 f_equal. change 0xffff with (Z.ones 16). rewrite !Z.land_ones by lia. unfold u32.
    apply Z.mod_mod_divide. by exists (2 ^ 16).
  - rewrite (cfg_desc _ _ F), Sz in Ch. change TX_SDESC_OFFSET with 0 in Ch. rewrite Z.add_0_r in Ch. exact Ch.
  - intros c ->. constructor; cbn [v_tx v_txq v_tbase v_flight]; try done.
    + destruct F. by constructor.
    + destruct S as [_ R M I G A]. constructor; cbn; try done; try lia. destruct W; by constructor.
    + destruct (Z.eqb_spec a 0); lia.
    + by apply (dring_mapped_changes _ _ q _ _ Ch).
Qed.

Definition tx_header_ok (hdr HeaderSize : Z) (DestAddr : option (list Z)) (Protocol : option Z) : bool :=
  (HeaderSize =? 0) ||
  ((HeaderSize =? hdr) && negb (bool_decide (DestAddr = None)) && negb (bool_decide (Protocol = None))).

(** The bytes that go out. *)
Definition tx_bytes (cur : list Z) (HeaderSize : Z) (SrcAddr DestAddr : option (list Z)) (Protocol : option Z)
    (data : list Z) : list Z :=
  if HeaderSize =? 0 then data
  else (take 6 (default [] DestAddr) ++ take 6 (default cur SrcAddr) ++
        [u8 (Z.shiftr (default 0 Protocol) 8); Z.land (default 0 Protocol) 0xFF] ++ drop 14 data)%list.

(** A call that keeps its promises. *)
Record tx_call (addr : Z) (data : list Z) (SrcAddr DestAddr : option (list Z)) : Prop := mkTxCall {
  xc_addr : 0 < addr < 2 ^ 64;
  xc_data : 14 <= len data;
  xc_src : ∀ m, SrcAddr = Some m → 6 <= len m;
  xc_dst : ∀ m, DestAddr = Some m → 6 <= len m
}.

Lemma build_run s q P C HeaderSize BufferSize addr data SrcAddr DestAddr Protocol :
  tx_rep (tx_view (ctx s)) (words s) q P C → TxBufInFlight (ctx s) = 0 →
  tx_call addr data SrcAddr DestAddr → 6 <= len (CurrentAddress (SnpMode (ctx s))) →
  length (Stats (ctx s)) = Z.to_nat STATS_COUNT →
  (tx_header_ok (MediaHeaderSize (SnpMode (ctx s))) HeaderSize DestAddr Protocol = false ∧
   tx_build HeaderSize BufferSize addr data SrcAddr DestAddr Protocol s =
     Some ((EFI_INVALID_PARAMETER, Some data), s))
  ∨ (tx_header_ok (MediaHeaderSize (SnpMode (ctx s))) HeaderSize DestAddr Protocol = true ∧
     ∃ s', tx_build HeaderSize BufferSize addr data SrcAddr DestAddr Protocol s =
       Some ((EFI_SUCCESS, Some (tx_bytes (CurrentAddress (SnpMode (ctx s))) HeaderSize SrcAddr DestAddr Protocol data)), s') ∧
     desc_at (words s') (dslot q P) = Some (mkDesc true true (rid (q_size q) P) (Z.land BufferSize 0xffff) addr) ∧
     hw s' = MmioWrite32 (q_regs q + rings_drtp_inc) 1 (WriteBackInvalidateDataCacheRange addr BufferSize (hw s)) ∧
     tx_same s s' ∧ TxBufInFlight (ctx s') = addr ∧ SnpMode (ctx s') = SnpMode (ctx s) ∧
     Stats (ctx s') = bump 11 (Stats (ctx s)) ∧
     tx_rep (tx_view (ctx s')) (words s') (sent q P) (P + 1) C).
Proof.
  intros R NB [XA XD XS XT] HC HS. unfold tx_build. rewrite (bind_run get_ctx _ s _ s eq_refl).
  set (hdr := MediaHeaderSize (SnpMode (ctx s))).
  assert (negb (HeaderSize =? 0) && negb (HeaderSize =? hdr)
          || (negb (HeaderSize =? 0) && (bool_decide (DestAddr = None) || bool_decide (Protocol = None)))
          = negb (tx_header_ok hdr HeaderSize DestAddr Protocol)) as Chk.
  { unfold tx_header_ok. destruct (HeaderSize =? 0), (HeaderSize =? hdr), (bool_decide (DestAddr = None)),
      (bool_decide (Protocol = None)); done. }
  destruct (negb (HeaderSize =? 0) && negb (HeaderSize =? hdr)).
  { left. cbn [orb] in Chk. split; [|done]. by apply negb_true_iff. }
  cbn [orb] in Chk. rewrite Chk.
  destruct (tx_header_ok hdr HeaderSize DestAddr Protocol) eqn:OK; cbn [negb]; [right; split; [done|]|by left].
  set (out := tx_bytes _ _ _ _ _ _).
  assert (tx_header (CurrentAddress (SnpMode (ctx s))) HeaderSize SrcAddr DestAddr Protocol data = Some out) as Eo.
  { unfold out, tx_bytes, tx_header. destruct (HeaderSize =? 0) eqn:E0; [done|].
    unfold tx_header_ok in OK. rewrite E0 in OK. cbn [orb] in OK.
    apply andb_true_iff in OK as [OK O3]. apply andb_true_iff in OK as [_ O2].
    apply negb_true_iff, bool_decide_eq_false_1 in O2, O3.
    destruct DestAddr as [d|]; [|done]. destruct Protocol as [pr|]; [|done]. cbn [mbind option_bind default].
    specialize (XT d eq_refl). rewrite (rdn_eq d) by lia. cbn [mbind option_bind].
    assert (6 <= len (default (CurrentAddress (SnpMode (ctx s))) SrcAddr)) as LS.
    { destruct SrcAddr as [m|]; [by apply XS|done]. }
    rewrite rdn_eq by lia. cbn [mbind option_bind]. change (Z.to_nat 0) with 0%nat. rewrite !drop_0.
    change (Z.to_nat 6) with 6%nat.
    set (h := (take 6 d ++ take 6 _ ++ _)%list).
    assert (length h = 14%nat) as Lh by (unfold h; rewrite !length_app, !length_take; cbn [length]; lia).
    rewrite wrn_0 by lia. rewrite Lh. unfold h. by rewrite <- !app_assoc. }
  rewrite Eo, bind_lift.
  set (s1 := with_hw s (WriteBackInvalidateDataCacheRange addr BufferSize (hw s))).
  erewrite bind_run by reflexivity. fold s1.
  destruct (send_run s1 q P C addr BufferSize) as (m' & Ep & D & Ch & R'); [done|done|done|].
  fold (one_buf addr BufferSize). rewrite (bind_run _ _ _ _ _ Ep).
  change (1 =? 0) with false. cbv iota.
  pose proof R as [[E0 Q0] F _ _ _]. cbn in E0, Q0. change (u32 1) with 1.
  erewrite bind_run.
  2: { apply (tx_action_run _ (sent q P) 1); [done|done|].
       change (q_size (sent q P)) with (q_size q). rewrite (cfg_size _ _ F). done. }
  erewrite bind_run by reflexivity.
  destruct (lookup_lt_is_Some_2 (Stats (ctx s)) 11) as [g Eg].
  { rewrite HS. change (Z.to_nat STATS_COUNT) with 26%nat. lia. }
  match goal with |- ∃ _, (_ ≫= _) ?x = _ ∧ _ => set (s2 := x) end.
  assert (Stats (ctx s2) = Stats (ctx s)) as -> by done.
  change TxGoodFrames with (Z.of_nat 11).
  assert (rd (Stats (ctx s)) (Z.of_nat 11) = Some g) as -> by (rewrite rd_lookup by done; exact Eg).
  rewrite bind_lift, (wrn_bump _ _ _ Eg), bind_lift.
  unfold mbind, Eth_bind, set_ctx, mret, Eth_ret.
  eexists. split; [reflexivity|]. split; [exact D|]. split; [reflexivity|].
  split; [by constructor|]. split; [reflexivity|]. split; [reflexivity|]. split; [reflexivity|].
  apply R'. unfold tx_view. f_equal. exact E0.
Qed.
End Transmit.
