(* ===== verification/EthUp.v ===== *)
(** * Bringing the Ethernet interface up and down

    What AlEthHwInitialize and AlEthHwShutdown of [Eth] do to the driver's memory:
    when Initialize succeeds, both rings are empty queues on a page of their own and
    32 buffers are posted; when it fails, what it allocated stays allocated;
    Shutdown gives back the 33 pages. The HAL's promises are the class
    [EthHwLaws], those of AllocatePages [script_ok]. *)

From S2P Require Import Prelude Efi Udma Eth.

(** ** Operations that only touch the hardware *)

Section Keeps.
Context {H : Type} `{EthHw H}.
Implicit Types s : ETH H.

(** [s'] differs from [s] in the hardware and the PHY's address. *)
Record phy_only s s' : Prop := mkPhyOnly {
  po_ctx : ∃ a, ctx s' = set_PhyAddr (ctx s) a;
  po_words : words s' = words s;
  po_pages : pages s' = pages s;
  po_script : pg_script s' = pg_script s
}.

(** [m] does not fault and keeps all but the hardware and the PHY's address. *)
Definition keeps {A} (m : Eth (H := H) A) : Prop := ∀ s, ∃ a s', m s = Some (a, s') ∧ phy_only s s'.

Lemma phy_only_refl s : phy_only s s.
Proof. constructor; try done. exists (PhyAddr (ctx s)). cbn. by destruct (ctx s). Qed.

Lemma phy_only_trans s1 s2 s3 : phy_only s1 s2 → phy_only s2 s3 → phy_only s1 s3.
Proof.
  intros [[a Ea] ? ? ?] [[b Eb] ? ? ?]. constructor; try congruence.
  exists b. rewrite Eb, Ea. done.
Qed.

Lemma phy_only_hw s h : phy_only s (with_hw s h).
Proof. constructor; try done. exists (PhyAddr (ctx s)). cbn. by destruct (ctx s). Qed.

Lemma phy_keeps_ret {A} (a : A) : keeps (mret a).
Proof. intros s. exists a, s. split; [done|]. apply phy_only_refl. Qed.

Lemma phy_keeps_bind {A B} (m : Eth A) (f : A → Eth B) : keeps m → (∀ a, keeps (f a)) → keeps (m ≫= f).
Proof.
  intros Km Kf s. destruct (Km s) as (a & s1 & E1 & P1). destruct (Kf a s1) as (b & s2 & E2 & P2).
  exists b, s2. rewrite (bind_run _ _ _ _ _ E1). split; [done|]. by eapply phy_only_trans.
Qed.

Lemma keeps_on_hw f : keeps (on_hw f).
Proof. intros s. do 2 eexists. split; [reflexivity|]. constructor; try done. exists (PhyAddr (ctx s)). cbn. by destruct (ctx s). Qed.

Lemma keeps_from_hw {A} (f : H → A * H) : keeps (from_hw f).
Proof.
  intros s. unfold from_hw. destruct (f (hw s)) as [a h]. do 2 eexists. split; [reflexivity|].
  constructor; try done. exists (PhyAddr (ctx s)). cbn. by destruct (ctx s).
Qed.

Lemma keeps_get_ctx : keeps get_ctx.
Proof. intros s. exists (ctx s), s. split; [done|]. apply phy_only_refl. Qed.

Lemma keeps_if {A} (b : bool) (m1 m2 : Eth A) : keeps m1 → keeps m2 → keeps (if b then m1 else m2).
Proof. by destruct b. Qed.

Lemma keeps_lift {A} (o : option A) : is_Some o → keeps (lift o).
Proof. intros [a ->] s. exists a, s. split; [done|]. apply phy_only_refl. Qed.

(** A bind that stores the PHY's address into what was just read. *)
Lemma keeps_set_phy {B} a (f : unit → Eth B) : (∀ u, keeps (f u)) → keeps (c ← get_ctx; set_ctx (set_PhyAddr c a) ≫= f).
Proof.
  intros Kf s. rewrite (bind_run get_ctx _ s _ s eq_refl).
  set (s1 := mkEth (set_PhyAddr (ctx s) a) (hw s) (words s) (pages s) (pg_script s)).
  rewrite (bind_run (set_ctx _) _ s tt s1 eq_refl).
  destruct (Kf tt s1) as (b & s2 & E2 & P2). exists b, s2. split; [done|].
  eapply phy_only_trans; [|exact P2]. by constructor; [exists a|..].
Qed.
End Keeps.

Lemma keeps_delay {H} `{EthHw H} (us : Z) : keeps (H := H) (MicroSecondDelay us).
Proof. apply keeps_on_hw. Qed.

Lemma keeps_MmioR {H} `{EthHw H} (a : Z) : keeps (H := H) (MmioR a).
Proof. apply keeps_from_hw. Qed.
Lemma keeps_MmioW {H} `{EthHw H} (a v : Z) : keeps (H := H) (MmioW a v).
Proof. apply keeps_on_hw. Qed.

Create HintDb keeps.
#[export] Hint Resolve phy_keeps_ret keeps_on_hw keeps_from_hw keeps_get_ctx keeps_delay keeps_MmioR keeps_MmioW : keeps.

(** Decomposes a computation into the operations above. *)
Ltac keeps :=
  repeat first
    [ solve [auto with keeps]
    | apply phy_keeps_bind; [|intros ?]
    | apply keeps_if
    | match goal with |- keeps (let '(_, _) := ?x in _) => destruct x end ].

Section Phy.
Context {H : Type} `{EthHw H}.

Lemma keeps_mdio_read reg : keeps (mdio_read reg).
Proof. unfold mdio_read. keeps. Qed.
Lemma keeps_mdio_write reg v : keeps (mdio_write reg v).
Proof. unfold mdio_write. keeps. Qed.
#[local] Hint Resolve keeps_mdio_read keeps_mdio_write : keeps.

Lemma keeps_phy_scan n : ∀ Addr, keeps (phy_scan n Addr).
Proof.
  induction n as [|n IH]; intros Addr s; cbn [phy_scan]; [apply phy_keeps_ret|].
  rewrite (bind_run get_ctx _ s _ s eq_refl).
  assert (∀ h, ∃ u s', phy_scan n (Addr + 1) (with_hw s h) = Some (u, s') ∧ phy_only s s') as Next.
  { intros h. destruct (IH (Addr + 1) (with_hw s h)) as (u & s' & E & P). exists u, s'. split; [done|].
    eapply phy_only_trans; [|exact P]. apply (phy_only_hw s h). }
  unfold mbind at 1, Eth_bind at 1. unfold from_hw at 1.
  destruct (al_eth_mdio_read _ _ 2 _) as [[Err PhyId1] h1].
  destruct (negb (Err =? 0)); [apply (Next h1)|].
  unfold mbind at 1, Eth_bind at 1. unfold from_hw at 1. cbn [hw].
  destruct (al_eth_mdio_read _ _ 3 _) as [[Err' PhyId2] h2].
  destruct (negb (Err' =? 0)); [apply (Next h2)|].
  destruct (_ && _ && _); [|apply (Next h2)].
  do 2 eexists. split; [reflexivity|]. constructor; try done. by exists Addr.
Qed.
#[local] Hint Resolve keeps_phy_scan : keeps.

Lemma keeps_phy_dump n : ∀ r, keeps (phy_dump n r).
Proof. induction n as [|n IH]; intros r; cbn [phy_dump]; keeps. Qed.
Lemma keeps_phy_dump_debug rs : keeps (phy_dump_debug rs).
Proof. induction rs as [|r rs IH]; cbn [phy_dump_debug]; keeps. Qed.
Lemma keeps_phy_reset_wait n : keeps (phy_reset_wait n).
Proof. induction n as [|n IH]; cbn [phy_reset_wait]; keeps. Qed.
#[local] Hint Resolve keeps_phy_dump keeps_phy_dump_debug keeps_phy_reset_wait : keeps.

Lemma keeps_AlEthPhyInit : keeps AlEthPhyInit.
Proof. unfold AlEthPhyInit. apply keeps_set_phy. intros _. keeps. Qed.

Lemma keeps_mac_addr_store ec mac : 6 <= len mac → keeps (al_eth_mac_addr_store ec mac).
Proof.
  intros L. assert (∀ i, 0 <= i < 6 → keeps (lift (H := H) (rd mac i))) as R.
  { intros i Hi. apply keeps_lift, rd_is_Some. lia. }
  unfold al_eth_mac_addr_store. repeat (apply phy_keeps_bind; [apply R; lia|intros ?]). keeps.
Qed.

Lemma keeps_MacRead32 off : keeps (MacRead32 off).
Proof. unfold MacRead32. keeps. Qed.
Lemma keeps_MacWrite32 off v : keeps (MacWrite32 off v).
Proof. unfold MacWrite32. keeps. Qed.
End Phy.
#[export] Hint Resolve keeps_mdio_read keeps_mdio_write keeps_AlEthPhyInit keeps_MacRead32 keeps_MacWrite32 : keeps.

(** ** Bring-up *)

Definition side (is_tx : bool) (a : al_hal_eth_adapter) : al_udma := if is_tx then tx_udma a else rx_udma a.
Definition set_side (is_tx : bool) (a : al_hal_eth_adapter) (u : al_udma) : al_hal_eth_adapter :=
  if is_tx then mkAdapter (a_rev_id a) (ec_regs_base a) u (rx_udma a)
  else mkAdapter (a_rev_id a) (ec_regs_base a) (tx_udma a) u.

(** What al_eth_adapter_init leaves: the transmit engine's queues exist whatever
    it returns; when it succeeds, those of both engines do, none is enabled, and
    the adapter has the revision that the driver gave. *)
Class EthHwLaws (H : Type) `{EthHw H} : Prop := {
  adapter_init_tx : ∀ ub eb mb (h : H) e a h', al_eth_adapter_init ub eb mb h = (e, a, h') →
    0 < num_of_queues (tx_udma a) ∧ is_Some (head (udma_q (tx_udma a)));
  adapter_init_rx : ∀ ub eb mb (h : H) e a h', al_eth_adapter_init ub eb mb h = (e, a, h') →
    0 < num_of_queues (rx_udma a) → is_Some (head (udma_q (rx_udma a)));
  adapter_init_ok : ∀ ub eb mb (h : H) a h', al_eth_adapter_init ub eb mb h = (0, a, h') →
    a_rev_id a = AL_ETH_REV_ID_2 ∧ 0 < num_of_queues (rx_udma a) ∧
    ∀ is_tx q, head (udma_q (side is_tx a)) = Some q → q_status q = AL_QUEUE_DISABLED
}.

(** The queue that al_udma_q_init makes of [old]. *)
Definition fresh_q (rev : Z) (old : al_udma_q) (p : al_udma_q_params) : al_udma_q :=
  set_status (q_init_fields old 0 (mkQParams (p_size p) (p_desc_base p) (p_desc_phy_base p)
    (p_cdesc_base p) (p_cdesc_phy_base p) (p_cdesc_size p) rev)) 0 AL_QUEUE_ENABLED.

Section BringUp.
Context {H : Type} `{EthHw H}.
Implicit Types s : ETH H.

Lemma bind_get {B} (k : AL_ETH_NEXT_CONTEXT → Eth B) s : (get_ctx ≫= k) s = k (ctx s) s.
Proof. done. Qed.
Lemma bind_set {B} c (k : unit → Eth B) s : (set_ctx c ≫= k) s = k tt (with_ctx s c).
Proof. done. Qed.
Lemma bind_hw {B} f (k : unit → Eth B) s : (on_hw f ≫= k) s = k tt (with_hw s (f (hw s))).
Proof. done. Qed.
Lemma bind_delay {B} us (k : unit → Eth B) s : (MicroSecondDelay us ≫= k) s = k tt (with_hw s (us_delay us (hw s))).
Proof. done. Qed.
Lemma bind_from {A B} (f : H → A * H) (k : A → Eth B) s :
  (from_hw f ≫= k) s = k (fst (f (hw s))) (with_hw s (snd (f (hw s)))).
Proof. unfold from_hw, mbind, Eth_bind. by destruct (f (hw s)). Qed.
Lemma bind_mac {B} off (k : Z → Eth B) s :
  (MacRead32 off ≫= k) s = k (fst (MmioRead32 (MacBase (ctx s) + off) (hw s)))
    (with_hw s (snd (MmioRead32 (MacBase (ctx s) + off) (hw s)))).
Proof. unfold MacRead32, MmioR, from_hw, mbind, Eth_bind, get_ctx. by destruct (MmioRead32 _ _). Qed.
Lemma bind_ret {A B} (a : A) (k : A → Eth B) s : (mret a ≫= k) s = k a s.
Proof. done. Qed.

Lemma low_aligned x : (64 | x) → Z.land (AL_ADDR_LOW x) (u32 (Z.lnot 0xFFFFFFC0)) = 0.
Proof.
  intros [k ->]. change (u32 (Z.lnot 0xFFFFFFC0)) with (Z.ones 6). rewrite Z.land_ones by lia.
  unfold AL_ADDR_LOW, u32. rewrite Z.mod_mod_divide by (by exists (2 ^ 26)).
  change (2 ^ 6) with 64. by apply Z.mod_mul.
Qed.

Lemma q_init_run u p (h : H) old :
  0 < num_of_queues u → head (udma_q u) = Some old → q_status old <> AL_QUEUE_ENABLED →
  p_size p = AL_ETH_DESCS_PER_Q → (64 | p_desc_phy_base p) → (64 | p_cdesc_phy_base p) → p_cdesc_base p <> 0 →
  ∃ h', al_udma_q_init u 0 p h =
    Some (0, mkUdma (udma_type u) (num_of_queues u) (udma_regs u)
               (set_status (q_init_fields old 0 p) 0 AL_QUEUE_ENABLED :: tail (udma_q u)), h').
Proof.
  intros N Q D Sz A1 A2 C0. unfold al_udma_q_init. destruct (Z.leb_spec (num_of_queues u) 0); [lia|].
  destruct (udma_q u) as [|q0 l] eqn:Eu; [done|]. injection Q as ->. cbn [rd]. change (0 =? 0) with true. cbv iota.
  cbn [mbind option_bind]. rewrite bool_decide_eq_false_2 by done. rewrite Sz.
  change (AL_ETH_DESCS_PER_Q <? AL_UDMA_MIN_Q_SIZE) with false.
  change (AL_UDMA_MAX_Q_SIZE <? AL_ETH_DESCS_PER_Q) with false.
  change (negb (Z.land AL_ETH_DESCS_PER_Q (AL_ETH_DESCS_PER_Q - 1) =? 0)) with false. cbv iota zeta.
  unfold al_udma_q_set_pointers. cbn [desc_phy_base cdesc_base_ptr cdesc_phy_base q_init_fields].
  unfold UDMA_M2S_Q_TDRBP_LOW_ADDR_MASK, UDMA_M2S_Q_TCRBP_LOW_ADDR_MASK.
  rewrite (low_aligned _ A1), (low_aligned _ A2). change (0 =? 0) with true. cbv iota.
  destruct (Z.eqb_spec (p_cdesc_base p) 0); [done|]. cbn [mbind option_bind].
  unfold al_udma_q_enable. destruct (MmioRead32 _ _) as [r h1]. rewrite wrn_head. cbn [mbind option_bind].
  eexists. reflexivity.
Qed.

Lemma queue_config_run is_tx p s old (u := side is_tx (HalAdapter (ctx s))) :
  0 < num_of_queues u → head (udma_q u) = Some old → q_status old <> AL_QUEUE_ENABLED →
  p_size p = AL_ETH_DESCS_PER_Q → (64 | p_desc_phy_base p) → (64 | p_cdesc_phy_base p) → p_cdesc_base p <> 0 →
  p_cdesc_size p = AL_ETH_CDESC_SIZE →
  ∃ h', al_eth_queue_config is_tx 0 p s = Some (0, with_hw (with_ctx s (set_HalAdapter (ctx s)
      (set_side is_tx (HalAdapter (ctx s)) (mkUdma (udma_type u) (num_of_queues u) (udma_regs u)
         (fresh_q (a_rev_id (HalAdapter (ctx s))) old p :: tail (udma_q u)))))) h').
Proof.
  intros N Q D Sz A1 A2 C0 Cs. unfold al_eth_queue_config. fold (side is_tx (HalAdapter (ctx s))). fold u.
  set (p' := mkQParams _ _ _ _ _ _ _).
  destruct (q_init_run u p' (hw s) old N Q D Sz A1 A2 C0) as (h1 & E). rewrite E. cbn [mbind option_bind].
  change (negb (0 =? 0)) with false. cbv iota. destruct is_tx; cbn [udma_q].
  - by exists h1.
  - cbn [rd]. change (0 =? 0) with true. cbv iota. cbn [mbind option_bind].
    unfold al_udma_s2m_q_compl_coal_config. destruct (MmioRead32 _ _) as [r h2].
    cbn [p_cdesc_size p']. rewrite Cs. change (AL_ETH_CDESC_SIZE <=? 32) with true.
    change (16 <? AL_ETH_CDESC_SIZE) with false. cbn [negb]. by eexists.
Qed.

(** Halting what the boot loader left running touches only the hardware. *)
Lemma q_reset_in_run a is_tx s :
  is_Some (head (udma_q (side is_tx a))) →
  ∃ u' h', q_reset_in a is_tx 0 s = Some (set_side is_tx a u', with_hw s h') ∧
    num_of_queues u' = num_of_queues (side is_tx a) ∧ is_Some (head (udma_q u')).
Proof.
  intros [q Eq]. unfold q_reset_in. fold (side is_tx a).
  destruct (udma_q (side is_tx a)) as [|q0 l] eqn:Eu; [done|]. cbn [rd]. change (0 =? 0) with true. cbv iota.
  cbn [mbind option_bind]. destruct (al_udma_q_reset _ _ _) as [[rc q1] h1]. rewrite wrn_head.
  cbn [mbind option_bind].
  exists (mkUdma (udma_type (side is_tx a)) (num_of_queues (side is_tx a)) (Udma.udma_regs (side is_tx a)) (q1 :: l)), h1.
  by destruct is_tx.
Qed.

Lemma halt_stale_run `{!EthHwLaws H} s : ∃ h', halt_stale s = Some (tt, with_hw s h').
Proof.
  unfold halt_stale. rewrite bind_get.
  destruct (al_eth_adapter_init (UdmaBase (ctx s)) (EcBase (ctx s)) (MacBase (ctx s)) (hw s)) as [[e a] h1] eqn:Ea.
  rewrite (bind_run (from_hw _) _ s (e, a) (with_hw s h1)) by (unfold from_hw; by rewrite Ea).
  destruct (adapter_init_tx _ _ _ _ _ _ _ Ea) as [N1 Q1].
  rewrite bind_hw, bind_delay. cbn [hw with_hw].
  unfold al_udma_q_handle_get. destruct (Z.leb_spec (num_of_queues (tx_udma a)) 0); [lia|].
  rewrite bind_lift.
  destruct (q_reset_in_run a true (with_hw s (us_delay 10 (al_eth_mac_stop a h1))) Q1) as (u' & h2 & E2 & N2 & Q2).
  rewrite (bind_run _ _ _ _ _ E2). cbn [set_side rx_udma].
  destruct (Z.leb_spec (num_of_queues (rx_udma a)) 0) as [L|L]; rewrite bind_lift.
  - destruct (q_reset_in_run (set_side true a u') true (with_hw s h2) Q2) as (u2 & h3 & E3 & _).
    rewrite (bind_run _ _ _ _ _ E3). by eexists.
  - destruct (q_reset_in_run (set_side true a u') false (with_hw s h2)) as (u2 & h3 & E3 & _).
    { by apply (adapter_init_rx _ _ _ _ _ _ _ Ea). }
    rewrite (bind_run _ _ _ _ _ E3). by eexists.
Qed.
End BringUp.

(** A queue as al_udma_q_init leaves it, at [base] of the descriptor page. *)
Definition new_queue (q : al_udma_q) (base : Z) : Prop := q_cfg q base ∧ sub_rep q 0 0 ∧ comp_rep q 0 0 0.

Lemma fresh_q_new old c sdesc cdesc :
  cdesc = sdesc + AL_ETH_Q_DESCS_SIZE → DescRingPhys c = DescRingBase c →
  new_queue (fresh_q AL_ETH_REV_ID_2 old (ring_params c sdesc cdesc)) (DescRingBase c + sdesc).
Proof.
  intros -> E. unfold new_queue. split.
  - constructor; try done. cbn. lia.
  - apply init_fields_rep; done.
Qed.

(** The part of the context that bring-up does not touch but for the media state. *)
Record core_same (c c' : AL_ETH_NEXT_CONTEXT) : Prop := mkCore {
  cs_mode : SnpMode c' = SnpMode c;
  cs_stats : Stats c' = Stats c;
  cs_bases : MacBase c' = MacBase c ∧ EcBase c' = EcBase c ∧ UdmaBase c' = UdmaBase c
}.

Lemma core_same_refl c : core_same c c.
Proof. done. Qed.
Lemma core_same_trans c1 c2 c3 : core_same c1 c2 → core_same c2 c3 → core_same c1 c3.
Proof. intros [? ? (? & ? & ?)] [? ? (? & ? & ?)]. constructor; [congruence..|split_and!; congruence]. Qed.

Section AdapterUp.
Context {H : Type} `{EthHw H}.
Implicit Types s : ETH H.

(** Memory untouched. *)
Definition mem_same s s' : Prop := words s' = words s ∧ pages s' = pages s ∧ pg_script s' = pg_script s.

Lemma mem_same_trans s1 s2 s3 : mem_same s1 s2 → mem_same s2 s3 → mem_same s1 s3.
Proof. unfold mem_same. intros (? & ? & ?) (? & ? & ?). split_and!; congruence. Qed.

Lemma phy_only_mem s s' : phy_only s s' → mem_same s s'.
Proof. by intros []. Qed.

(** What the queue setup leaves: the page's rings, and empty queues on them. *)
Definition queues_up c (qt qr : al_udma_q) : Prop :=
  TxDmaQ c = Some 0 ∧ head (udma_q (tx_udma (HalAdapter c))) = Some qt ∧
  RxDmaQ c = Some 0 ∧ head (udma_q (rx_udma (HalAdapter c))) = Some qr ∧
  new_queue qt (DescRingBase c + TX_SDESC_OFFSET) ∧ new_queue qr (DescRingBase c + RX_SDESC_OFFSET).

Definition same_rings (c c' : AL_ETH_NEXT_CONTEXT) : Prop :=
  DescRingBase c' = DescRingBase c ∧ DescRingPhys c' = DescRingPhys c ∧ RxBuffers c' = RxBuffers c ∧
  RxBuffersPhys c' = RxBuffersPhys c.

Lemma adapter_up_run `{!EthHwLaws H} s :
  (4096 | DescRingBase (ctx s)) → 0 < DescRingBase (ctx s) → DescRingPhys (ctx s) = DescRingBase (ctx s) →
  ∃ st s', adapter_up s = Some (st, s') ∧ mem_same s s' ∧ core_same (ctx s) (ctx s') ∧
    same_rings (ctx s) (ctx s') ∧
    ((st = EFI_DEVICE_ERROR) ∨ (st = EFI_SUCCESS ∧ ∃ qt qr, queues_up (ctx s') qt qr)).
Proof.
  intros [k Al] Pos Ph. unfold adapter_up. rewrite bind_get, bind_set.
  set (s0 := with_ctx s _).
  change (UdmaBase (ctx s)) with (UdmaBase (ctx s0)). change (EcBase (ctx s)) with (EcBase (ctx s0)).
  change (MacBase (ctx s)) with (MacBase (ctx s0)).
  destruct (al_eth_adapter_init (UdmaBase (ctx s0)) (EcBase (ctx s0)) (MacBase (ctx s0)) (hw s0)) as [[e a] h1] eqn:Ea.
  rewrite (bind_run (from_hw _) _ s0 (e, a) (with_hw s0 h1)) by (unfold from_hw; by rewrite Ea).
  rewrite bind_get, bind_set.
  assert (∀ d, (64 | d) → (64 | k * 4096 + d)) as Al64.
  { intros d [j ->]. exists (k * 64 + j). lia. }
  destruct (Z.eqb_spec e 0) as [->|Ne]; cbn [negb].
  2: { do 2 eexists. split; [reflexivity|]. split_and!; try done. by left. }
  destruct (adapter_init_ok _ _ _ _ _ _ Ea) as (Rv & N2 & Dis).
  destruct (adapter_init_tx _ _ _ _ _ _ _ Ea) as (N1 & [q1 Q1]).
  destruct (adapter_init_rx _ _ _ _ _ _ _ Ea N2) as [q2 Q2].
  rewrite bind_get. set (s1 := with_ctx _ _).
  destruct (queue_config_run true (ring_params (ctx s1) TX_SDESC_OFFSET TX_CDESC_OFFSET) s1 q1) as (h2 & E2);
    try done.
  { cbn. rewrite (Dis true q1 Q1). done. }
  { cbn. rewrite Ph, Al. apply Al64. by exists 0. }
  { cbn. rewrite Ph, Al. apply Al64. by exists 16. }
  { cbn. change TX_CDESC_OFFSET with 1024. lia. }
  rewrite (bind_run _ _ _ _ _ E2). change (negb (0 =? 0)) with false. cbv iota. clear E2. rewrite bind_get.
  set (s2 := with_hw _ _).
  destruct (queue_config_run false (ring_params (ctx s2) RX_SDESC_OFFSET RX_CDESC_OFFSET) s2 q2) as (h3 & E3);
    try done.
  { cbn. rewrite (Dis false q2 Q2). done. }
  { cbn. rewrite Ph, Al. apply Al64. by exists 32. }
  { cbn. rewrite Ph, Al. apply Al64. by exists 48. }
  { cbn. change RX_CDESC_OFFSET with 3072. lia. }
  rewrite (bind_run _ _ _ _ _ E3). change (negb (0 =? 0)) with false. cbv iota. clear E3. rewrite bind_get.
  set (s3 := with_hw _ _). cbv zeta. rewrite bind_set.
  unfold al_udma_q_handle_get. cbn [side set_side num_of_queues HalAdapter ctx with_hw with_ctx set_HalAdapter tx_udma rx_udma s3 s2 s1].
  destruct (Z.leb_spec (num_of_queues (tx_udma a)) 0); [lia|].
  destruct (Z.leb_spec (num_of_queues (rx_udma a)) 0); [lia|].
  set (s4 := with_ctx _ _).
  assert (∃ qt qr, queues_up (ctx s4) qt qr) as QU.
  { do 2 eexists. split; [reflexivity|]. split; [reflexivity|]. split; [reflexivity|]. split; [reflexivity|].
    split.
    - change (new_queue (fresh_q (a_rev_id a) q1 (ring_params (ctx s1) TX_SDESC_OFFSET TX_CDESC_OFFSET))
                (DescRingBase (ctx s1) + TX_SDESC_OFFSET)).
      rewrite Rv. by apply fresh_q_new.
    - change (new_queue (fresh_q (a_rev_id a) q2 (ring_params (ctx s2) RX_SDESC_OFFSET RX_CDESC_OFFSET))
                (DescRingBase (ctx s2) + RX_SDESC_OFFSET)).
      rewrite Rv. by apply fresh_q_new. }
  assert (mem_same s s4 ∧ core_same (ctx s) (ctx s4) ∧ same_rings (ctx s) (ctx s4)) as (M & Co & Sr) by done.
  clearbody s4. revert QU M Co Sr. clear. intros QU M Co Sr.
  rewrite bind_from. destruct (negb (_ =? 0)); [by do 2 eexists; split; [reflexivity|]; split_and!; try done; left|].
  rewrite bind_hw, bind_from.
  destruct (negb (_ =? 0)); do 2 eexists; (split; [reflexivity|]); split_and!; try done; [by left|by right].
Qed.
End AdapterUp.

(** ** Memory for the rings and the buffers *)

(** What AllocatePages answers: pages of 4096 bytes, aligned, below 4 GB, and not
    allocated already. *)
Fixpoint script_ok (pg : gmap Z (list Z)) (sc : list (option (Z * list Z))) : Prop :=
  match sc with
  | [] => True
  | None :: sc => script_ok pg sc
  | Some (a, p) :: sc =>
      pg !! a = None ∧ (EFI_PAGE_SIZE | a) ∧ 0 < a < 2 ^ 32 ∧ len p = EFI_PAGE_SIZE ∧ script_ok (<[a := p]> pg) sc
  end.

Lemma script_ok_dom sc : ∀ pg pg', (∀ a, pg !! a = None ↔ pg' !! a = None) → script_ok pg sc → script_ok pg' sc.
Proof.
  induction sc as [|[[a p]|] sc IH]; intros pg pg' D; cbn; [done| |by apply IH].
  intros (N & A & R & L & S). split_and!; try done; [by apply D|lia|lia|].
  revert S. apply IH. intros b. destruct (decide (a = b)) as [->|Ne].
  - by rewrite !lookup_insert_eq.
  - by rewrite !lookup_insert_ne.
Qed.

Lemma zero_words_in a n m i : 0 <= i < Z.of_nat n → zero_words a n m !! (a + 4 * i) = Some 0.
Proof.
  unfold zero_words. intros Hi. assert (Z.to_nat i ∈ seq 0 n) as E by (apply elem_of_seq; lia).
  revert E. induction (seq 0 n) as [|j l IH]; intros E; [by apply not_elem_of_nil in E|].
  cbn [foldr]. apply elem_of_cons in E as [<-|E].
  - rewrite Z2Nat.id by lia. apply lookup_insert_eq.
  - destruct (decide (a + 4 * Z.of_nat j = a + 4 * i)) as [->|Ne]; [apply lookup_insert_eq|].
    etransitivity; [by apply lookup_insert_ne|]. by apply IH.
Qed.

Lemma zero_words_mono a n m b : is_Some (m !! b) → is_Some (zero_words a n m !! b).
Proof.
  unfold zero_words. induction (seq 0 n) as [|j l IH]; [done|]. intros E. cbn [foldr].
  destruct (decide (a + 4 * Z.of_nat j = b)) as [<-|Ne].
  - exists 0. apply lookup_insert_eq.
  - destruct (IH E) as [v Ev]. exists v. etransitivity; [by apply lookup_insert_ne|done].
Qed.

Section Alloc.
Context {H : Type} `{EthHw H}.
Implicit Types s : ETH H.

Lemma alloc_run s : script_ok (pages s) (pg_script s) →
  (∃ s', AllocatePages s = Some ((EFI_OUT_OF_RESOURCES, 0), s') ∧ ctx s' = ctx s ∧ hw s' = hw s ∧
     words s' = words s ∧ pages s' = pages s ∧ script_ok (pages s') (pg_script s')) ∨
  (∃ a p s', AllocatePages s = Some ((EFI_SUCCESS, a), s') ∧ ctx s' = ctx s ∧ hw s' = hw s ∧
     words s' = words s ∧ pages s' = <[a := p]> (pages s) ∧ script_ok (pages s') (pg_script s') ∧
     pages s !! a = None ∧ (EFI_PAGE_SIZE | a) ∧ 0 < a < 2 ^ 32 ∧ len p = EFI_PAGE_SIZE).
Proof.
  unfold AllocatePages. destruct (pg_script s) as [|[[a p]|] sc] eqn:E; cbn; intros S.
  - left. eexists. split; [reflexivity|]. rewrite E. done.
  - right. destruct S as (N & A & R & L & S). do 3 eexists. split; [reflexivity|]. cbn. split_and!; try done; lia.
  - left. eexists. split; [reflexivity|]. done.
Qed.

Lemma alloc_rings_run s : script_ok (pages s) (pg_script s) →
  (∃ s', alloc_rings s = Some (EFI_OUT_OF_RESOURCES, s') ∧ ctx s' = ctx s ∧ words s' = words s ∧
     pages s' = pages s ∧ script_ok (pages s') (pg_script s')) ∨
  (∃ a p s', alloc_rings s = Some (EFI_SUCCESS, s') ∧ ctx s' = set_DescRing (ctx s) a a ∧
     words s' = zero_words a 1024 (words s) ∧ pages s' = <[a := p]> (pages s) ∧
     script_ok (pages s') (pg_script s') ∧ pages s !! a = None ∧ (EFI_PAGE_SIZE | a) ∧ 0 < a < 2 ^ 32).
Proof.
  intros S. unfold alloc_rings. cbv zeta.
  destruct (alloc_run s S) as [(s' & E & Ec & Eh & Ew & Ep & S')|(a & p & s' & E & Ec & Eh & Ew & Ep & S' & N & A & R & L)];
    rewrite (bind_run _ _ _ _ _ E).
  - left. exists s'. split; [done|]. done.
  - right. change (EFI_ERROR EFI_SUCCESS) with false. cbv iota.
    exists a, p. eexists. split; [reflexivity|]. cbn. rewrite Ec, Ew. split_and!; try done; lia.
Qed.

(** After [Idx] buffers: the first entries of both arrays are distinct pages. *)
Record bufs_upto (c : AL_ETH_NEXT_CONTEXT) (pg : gmap Z (list Z)) (Idx : Z) : Prop := mkUpto {
  bu_len : length (RxBuffers c) = Z.to_nat AL_ETH_NUM_RX_DESC;
  bu_len_phys : length (RxBuffersPhys c) = Z.to_nat AL_ETH_NUM_RX_DESC;
  bu_same : take (Z.to_nat Idx) (RxBuffers c) = take (Z.to_nat Idx) (RxBuffersPhys c);
  bu_nodup : NoDup (take (Z.to_nat Idx) (RxBuffersPhys c));
  bu_page : ∀ a, a ∈ take (Z.to_nat Idx) (RxBuffersPhys c) →
    0 < a < 2 ^ 32 ∧ ∃ p, pg !! a = Some p ∧ len p = EFI_PAGE_SIZE
}.

Lemma wrn_take {A} (l : list A) i x :
  0 <= i < len l → ∃ l', wrn l i [x] = Some l' ∧ length l' = length l ∧
    take (Z.to_nat (i + 1)) l' = (take (Z.to_nat i) l ++ [x])%list.
Proof.
  intros Hi. rewrite wrn_eq by (cbn; lia). eexists. split; [reflexivity|]. split.
  - rewrite !length_app, length_take, length_drop. cbn. lia.
  - rewrite app_assoc, take_app_le.
    + apply take_ge. rewrite length_app, length_take. cbn. lia.
    + rewrite length_app, length_take. cbn. lia.
Qed.

Lemma alloc_rx_run n : ∀ s Idx,
  0 <= Idx → Idx + Z.of_nat n = AL_ETH_NUM_RX_DESC →
  script_ok (pages s) (pg_script s) → bufs_upto (ctx s) (pages s) Idx →
  ∃ st s', alloc_rx n Idx s = Some (st, s') ∧ words s' = words s ∧
    script_ok (pages s') (pg_script s') ∧
    (∃ bs ph, ctx s' = set_RxBuffers (ctx s) bs ph ∧ length bs = Z.to_nat AL_ETH_NUM_RX_DESC ∧
       length ph = Z.to_nat AL_ETH_NUM_RX_DESC) ∧
    (∀ a, is_Some (pages s !! a) → is_Some (pages s' !! a)) ∧
    (size (pages s) <= size (pages s') <= size (pages s) + n)%nat ∧
    ((st = EFI_OUT_OF_RESOURCES) ∨
     (st = EFI_SUCCESS ∧ bufs_ok (rx_view (ctx s')) (pages s') ∧ size (pages s') = (size (pages s) + n)%nat ∧
      ∀ a, is_Some (pages s !! a) → a ∈ RxBuffersPhys (ctx s') → a ∈ take (Z.to_nat Idx) (RxBuffersPhys (ctx s)))).
Proof.
  induction n as [|n IH]; intros s Idx HI Hn S B; cbn [alloc_rx].
  { destruct B as [L1 L2 Sm Nd Pg]. assert (Idx = AL_ETH_NUM_RX_DESC) as -> by lia.
    rewrite take_ge in Sm by lia. rewrite !take_ge in * by lia.
    do 2 eexists. split; [reflexivity|]. split_and!; try done.
    - exists (RxBuffers (ctx s)), (RxBuffersPhys (ctx s)). split_and!; try done. by destruct (ctx s).
    - lia.
    - right. by split_and!. }
  destruct (alloc_run s S) as [(s1 & E & Ec & Eh & Ew & Ep & S')|(a & p & s1 & E & Ec & Eh & Ew & Ep & S' & N & A & R & L)];
    rewrite (bind_run _ _ _ _ _ E); clear E.
  { do 2 eexists. split; [reflexivity|]. rewrite Ec, Ep. destruct B. split_and!; try done; [by rewrite <- Ep| |lia|by left].
    exists (RxBuffers (ctx s)), (RxBuffersPhys (ctx s)). split_and!; try done. by destruct (ctx s). }
  change (EFI_ERROR EFI_SUCCESS) with false. cbv iota. rewrite bind_get. rewrite Ec.
  destruct B as [L1 L2 Sm Nd Pg]. unfold AL_ETH_NUM_RX_DESC in *.
  destruct (wrn_take (RxBuffers (ctx s)) Idx a) as (bs & E1 & L1' & T1); [lia|].
  destruct (wrn_take (RxBuffersPhys (ctx s)) Idx a) as (ph & E2 & L2' & T2); [lia|].
  rewrite E1, bind_lift, E2, bind_lift, bind_set.
  set (s2 := with_ctx _ _).
  assert (∃ p', len p' = EFI_PAGE_SIZE ∧ zero_page a AL_ETH_RX_BUF_SIZE s2 =
     Some (tt, mkEth (ctx s2) (hw s2) (words s2) (<[a := p']> (pages s2)) (pg_script s2))) as (p' & Lp' & Ez).
  { unfold zero_page. cbn [pages s2 with_ctx]. rewrite Ep, lookup_insert_eq. cbn [mbind option_bind].
    unfold EFI_PAGE_SIZE in *. rewrite wrn_0.
    2: { rewrite repeat_length. unfold AL_ETH_RX_BUF_SIZE. lia. }
    cbn [mbind option_bind]. eexists. split; [|reflexivity].
    rewrite length_app, length_drop, !repeat_length. unfold AL_ETH_RX_BUF_SIZE. lia. }
  rewrite (bind_run _ _ _ _ _ Ez). rewrite !bind_hw.
  match goal with |- ∃ _ _, alloc_rx n _ ?x = _ ∧ _ => set (s3 := x) end.
  destruct (IH s3 (Idx + 1)) as (st & s' & E & Ew' & S3 & (bs' & ph' & Ec' & Lb & Lp) & Mo & Si & Out); try lia.
  - cbn. revert S'. apply script_ok_dom. intros b. rewrite Ep.
    destruct (decide (a = b)) as [->|Ne]; [by rewrite !lookup_insert_eq|].
    rewrite (lookup_insert_ne _ a b) by done. by rewrite (lookup_insert_ne (<[a:=p]> _) a b), lookup_insert_ne.
  - constructor; cbn; rewrite ?Ep.
    + unfold AL_ETH_NUM_RX_DESC. lia.
    + unfold AL_ETH_NUM_RX_DESC. lia.
    + rewrite T1, T2, Sm. done.
    + rewrite T2. apply list.NoDup_app. split_and!; [done| |apply list.NoDup_singleton].
      intros b Hb. rewrite list_elem_of_singleton. intros ->. destruct (Pg a Hb) as (_ & q & Eq & _). congruence.
    + rewrite T2. intros b. rewrite elem_of_app, list_elem_of_singleton. intros [Hb| ->].
      * destruct (Pg b Hb) as (Rb & q & Eq & Lq). split; [done|]. exists q. split; [|done].
        assert (a <> b) by (intros ->; congruence). by rewrite !lookup_insert_ne.
      * split; [done|]. exists p'. by rewrite lookup_insert_eq.
  - assert (size (pages s3) = Datatypes.S (size (pages s))) as Sz3.
    { cbn. rewrite Ep, insert_insert_eq. by apply map_size_insert_None. }
    assert (∀ b, is_Some (pages s !! b) → is_Some (pages s3 !! b) ∧ a <> b) as Mo3.
    { intros b [x Ex]. assert (a <> b) by (intros ->; congruence). split; [|done].
      cbn. rewrite Ep, insert_insert_eq, lookup_insert_ne by done. by exists x. }
    exists st, s'. split; [exact E|]. rewrite Ew'. split_and!; try done.
    + exists bs', ph'. split_and!; try done.
    + intros b Hb. by apply Mo, Mo3.
    + lia.
    + lia.
    + destruct Out as [->|(-> & B' & Sz' & Fr)]; [by left|right]. split_and!; try done; [lia|].
      intros b Hb Hin. destruct (Mo3 b Hb) as [Hb3 Ne]. specialize (Fr b Hb3 Hin).
      change (RxBuffersPhys (ctx s3)) with ph in Fr. rewrite T2 in Fr.
      apply elem_of_app in Fr as [Fr|Fr]; [done|]. by apply list_elem_of_singleton in Fr as ->.
Qed.
End Alloc.

(** ** Initialize *)

Section Init.
Context {H : Type} `{EthHw H}.
Implicit Types s : ETH H.

(** The receive ring with [Idx] buffers posted. *)
Record filled (s0 s : ETH H) (Idx : Z) : Prop := mkFilled {
  fl_q : ∃ q, RxDmaQ (ctx s) = Some 0 ∧ head (udma_q (rx_udma (HalAdapter (ctx s)))) = Some q ∧
    q_cfg q (DescRingBase (ctx s) + RX_SDESC_OFFSET) ∧ sub_rep q Idx 0 ∧ comp_rep q 0 0 0 ∧
    ∀ j, 0 <= j < Idx → posted (rx_view (ctx s)) q (words s) j;
  fl_words : changes_in (DescRingBase (ctx s0) + 2048) (DescRingBase (ctx s0) + 3072) (words s0) (words s);
  fl_tx : tx_view (ctx s) = tx_view (ctx s0);
  fl_core : core_same (ctx s0) (ctx s);
  fl_rings : same_rings (ctx s0) (ctx s);
  fl_pages : pages s = pages s0;
  fl_script : pg_script s = pg_script s0
}.

(** The words of a page. *)
Definition page_mapped (base : Z) (m : Words) : Prop := ∀ i, 0 <= i < 1024 → is_Some (m !! (base + 4 * i)).

Lemma page_dring base m q d : page_mapped base m → q_cfg q (base + d) → q_wf q → d = 0 ∨ d = 2048 → dring_mapped q m.
Proof.
  intros M F W Hd n k Hk. unfold dslot. rewrite (cfg_desc _ _ F), (cfg_size _ _ F).
  pose proof (Z.mod_pos_bound n AL_ETH_DESCS_PER_Q ltac:(done)). unfold AL_ETH_DESCS_PER_Q in *.
  replace (base + d + 16 * (n mod 64) + 4 * k) with (base + 4 * (d / 4 + 4 * (n mod 64) + k)).
  - apply M. destruct Hd as [->| ->]; [change (0 / 4) with 0|change (2048 / 4) with 512]; lia.
  - destruct Hd as [->| ->]; [change (0 / 4) with 0|change (2048 / 4) with 512]; lia.
Qed.

Lemma page_cring base m q d n k : page_mapped base m → q_cfg q (base + d) → d = 0 ∨ d = 2048 → 0 <= k < 4 →
  ∃ i, 0 <= i < 1024 ∧ slot q n + 4 * k = base + 4 * i.
Proof.
  intros M F Hd Hk. unfold slot. rewrite (cfg_comp _ _ F), (cfg_size _ _ F), (cfg_cdesc _ _ F).
  pose proof (Z.mod_pos_bound n AL_ETH_DESCS_PER_Q ltac:(done)). unfold AL_ETH_DESCS_PER_Q, AL_ETH_CDESC_SIZE in *.
  change AL_ETH_Q_DESCS_SIZE with 1024. exists (d / 4 + 256 + 4 * (n mod 64) + k).
  destruct Hd as [->| ->]; [change (0 / 4) with 0|change (2048 / 4) with 512]; lia.
Qed.

Lemma fill_rx_run s0 n : ∀ s Idx,
  0 <= Idx → Idx + Z.of_nat n = AL_ETH_NUM_RX_DESC →
  bufs_ok (rx_view (ctx s0)) (pages s0) → page_mapped (DescRingBase (ctx s0)) (words s0) → filled s0 s Idx →
  ∃ s', fill_rx n Idx s = Some (EFI_SUCCESS, s') ∧ filled s0 s' AL_ETH_NUM_RX_DESC.
Proof.
  induction n as [|n IH]; intros s Idx HI Hn B M F; cbn [fill_rx].
  { assert (Idx = AL_ETH_NUM_RX_DESC) as -> by lia. by exists s. }
  pose proof F as [(q & E0 & Q0 & Fq & S & R & P) Ch Et Co (D1 & D2 & D3 & D4) Ep Es].
  rewrite bind_get. pose proof (bo_len _ _ B) as L. cbn in L. unfold AL_ETH_NUM_RX_DESC in *.
  destruct (proj2 (rd_is_Some (RxBuffersPhys (ctx s0)) Idx)) as [a Ea]; [lia|].
  rewrite D4, Ea, bind_lift. destruct (bo_page _ _ B a (rd_in _ _ _ Ea)) as [Ra _].
  pose proof (cfg_size _ _ Fq) as Sz. pose proof (sub_wf _ _ _ S) as W.
  assert (dring_mapped q (words s)) as Dm.
  { intros i k Hk. apply (proj2 Ch). rewrite D1 in Fq.
    by apply (page_dring (DescRingBase (ctx s0)) (words s0) q RX_SDESC_OFFSET M Fq W ltac:(right; done) i k). }
  destruct (rx_buffer_add_spec q (words s) Idx 0 a AL_ETH_RX_BUF_SIZE S) as (m' & Ea' & S2 & Dn & Ch2);
    [|done|lia|].
  { rewrite Sz. unfold AL_ETH_DESCS_PER_Q, AL_UDMA_MAX_NUM_CDESC_PER_CACHE_LINE. lia. }
  rewrite (bind_run _ _ _ _ _ (rx_add_run s q _ _ _ _ _ E0 Q0 Ea')). change (negb (0 =? 0)) with false. cbv iota.
  set (q2 := set_desc q _ _) in *. set (s2 := with_words _ _).
  apply IH; try lia; try done.
  pose proof (cfg_dslot q _ Idx Fq W) as Rg. change RX_SDESC_OFFSET with 2048 in Rg. rewrite D1 in Rg.
  constructor; try done.
  - exists q2. split; [exact E0|]. split; [done|]. split.
    { destruct Fq. by constructor. }
    split; [done|]. split; [by apply comp_rep_desc|].
    intros j Hj. destruct (decide (j = Idx)) as [->|Ne].
    + exists a. cbn. rewrite D4. rewrite Z.mod_small by (unfold AL_ETH_NUM_RX_DESC; lia). split; [done|].
      change (dslot q2 Idx) with (dslot q Idx). rewrite Dn. by rewrite Sz.
    + destruct (P j ltac:(lia)) as (b & Eb & Db). exists b. split; [exact Eb|]. cbn.
      change (dslot q2 j) with (dslot q j).
      rewrite (desc_at_changes (dslot q Idx) (dslot q Idx + 16) (words s) m'); [done|done|].
      pose proof (dslot_apart q j Idx W). rewrite Sz in *. unfold AL_ETH_DESCS_PER_Q in *. lia.
  - cbn. eapply changes_in_trans; [exact Ch|]. eapply changes_in_mono; [| |exact Ch2]; lia.
  - destruct Co. by constructor.
Qed.

(** What Initialize leaves when it succeeds: nothing received, nothing in
    flight, 32 buffers posted. *)
Definition link_up_rep s (fs : list frame) : Prop :=
  ∃ qr C qt P D, rx_rep (rx_view (ctx s)) (words s) (pages s) qr C fs ∧
    tx_rep (tx_view (ctx s)) (words s) qt P D.

(** The context's arrays have their sizes. *)
Record ctx_wf (c : AL_ETH_NEXT_CONTEXT) : Prop := mkCtxWf {
  cw_bufs : length (RxBuffers c) = Z.to_nat AL_ETH_NUM_RX_DESC;
  cw_phys : length (RxBuffersPhys c) = Z.to_nat AL_ETH_NUM_RX_DESC;
  cw_stats : length (Stats c) = Z.to_nat STATS_COUNT;
  cw_cur : len (CurrentAddress (SnpMode c)) = SIZEOF_EFI_MAC_ADDRESS;
  cw_perm : len (PermanentAddress (SnpMode c)) = SIZEOF_EFI_MAC_ADDRESS
}.

Lemma filled_rep base s0 s :
  filled s0 s AL_ETH_NUM_RX_DESC → DescRingBase (ctx s0) = base → page_mapped base (words s0) →
  (∀ i, 512 <= i < 1024 → words s0 !! (base + 4 * i) = Some 0) →
  bufs_ok (rx_view (ctx s0)) (pages s0) → RxBufTailIdx (ctx s) = 0 →
  ∃ q, rx_rep (rx_view (ctx s)) (words s) (pages s) q 0 [] ∧ RxDmaQ (ctx s) = Some 0 ∧
    head (udma_q (rx_udma (HalAdapter (ctx s)))) = Some q.
Proof.
  intros [(q & E0 & Q0 & Fq & S & R & P) Ch Et Co (D1 & D2 & D3 & D4) Ep Es] <- M Z0 B T0.
  exists q. split; [|done]. pose proof (sub_wf _ _ _ S) as W. rewrite D1 in Fq.
  assert (∀ n k, 0 <= k < 4 → words s !! (slot q n + 4 * k) = Some 0) as Sl.
  { intros n k Hk. destruct (page_cring (DescRingBase (ctx s0)) (words s0) q RX_SDESC_OFFSET n k M Fq ltac:(by right) Hk)
      as (i & Hi & Ei).
    pose proof (cfg_slot q _ n Fq W) as Rg. change RX_SDESC_OFFSET with 2048 in Rg. 
    rewrite (proj1 Ch) by lia. rewrite Ei. apply Z0. lia. }
  constructor; cbn [v_rx v_rxq v_base v_bufs v_phys v_tail rx_view]; try done.
  - by rewrite D1.
  - rewrite Ep. destruct B as [B1 B2 B3 B4]. cbn in *. constructor; cbn; rewrite ?D3, ?D4; done.
  - intros j Hj. exists 0. specialize (Sl j 0 ltac:(lia)). rewrite Z.mul_0_r, Z.add_0_r in Sl. split; [done|].
    change (ring_bits 0) with 0. unfold rid, AL_ETH_DESCS_PER_Q in *. cbn [length] in Hj.
    rewrite Z.div_small by lia. done.
  - intros n k Hk. apply (proj2 Ch).
    by apply (page_dring (DescRingBase (ctx s0)) (words s0) q RX_SDESC_OFFSET M Fq W ltac:(right; done) n k).
  - intros n k Hk. rewrite Sl by done. by eexists.
Qed.
End Init.

Section HwInit.
Context {H : Type} `{EthHwLaws H}.
Implicit Types s : ETH H.

Lemma filled_retail s0 s n t : filled s0 s n → filled s0 (with_ctx s (set_RxBufTailIdx (ctx s) t)) n.
Proof.
  intros [Q Ch Et Co Sr Ep Es]. constructor; try done.
  destruct Co. by constructor.
Qed.

(** Steps 11 to 16, from the queues that step 6 has found. *)
Lemma HwInitialize_tail s base qt qr :
  queues_up (ctx s) qt qr → DescRingBase (ctx s) = base → page_mapped base (words s) →
  (∀ i, 512 <= i < 1024 → words s !! (base + 4 * i) = Some 0) →
  bufs_ok (rx_view (ctx s)) (pages s) → ctx_wf (ctx s) →
  ∃ s', (Status ← fill_rx (Z.to_nat AL_ETH_NUM_RX_DESC) 0;
         if EFI_ERROR Status then mret Status
         else
           c ← get_ctx; _ ← set_ctx (set_RxBufTailIdx c 0); _ ← rx_action AL_ETH_NUM_RX_DESC;
           c ← get_ctx; _ ← on_hw (al_eth_mac_start (HalAdapter c));
           RgmiiStat ← MacRead32 MAC_GEN_RGMII_STAT;
           c ← get_ctx;
           let c := set_SnpMode c (set_media (SnpMode c) (link_up RgmiiStat)) in
           _ ← set_ctx (set_TxBufInFlight c 0);
           mret EFI_SUCCESS) s = Some (EFI_SUCCESS, s') ∧
    (∃ q, rx_rep (rx_view (ctx s')) (words s') (pages s') q 0 []) ∧
    (∃ q, tx_rep (tx_view (ctx s')) (words s') q 0 0) ∧
    TxBufInFlight (ctx s') = 0 ∧ pages s' = pages s ∧ pg_script s' = pg_script s ∧
    (∃ b, SnpMode (ctx s') = set_media (SnpMode (ctx s)) b) ∧ Stats (ctx s') = Stats (ctx s) ∧
    RxBuffers (ctx s') = RxBuffers (ctx s) ∧ RxBuffersPhys (ctx s') = RxBuffersPhys (ctx s) ∧
    DescRingBase (ctx s') = DescRingBase (ctx s) ∧ DescRingPhys (ctx s') = DescRingPhys (ctx s).
Proof.
  intros (T0 & TQ & R0 & RQ & [Ft [St Ct]] & [Fr [Sr Cr]]) Eb M Z0 B WF.
  assert (filled s s 0) as F0.
  { constructor; try done. exists qr. split_and!; try done. intros j Hj. lia. }
  rewrite <- Eb in M. 
  destruct (fill_rx_run s (Z.to_nat AL_ETH_NUM_RX_DESC) s 0) as (s1 & E1 & F1); try done.
  rewrite (bind_run _ _ _ _ _ E1). change (EFI_ERROR EFI_SUCCESS) with false. cbv iota.
  rewrite bind_get, bind_set. set (s2 := with_ctx _ _).
  assert (filled s s2 AL_ETH_NUM_RX_DESC) as F2 by by apply filled_retail. rewrite Eb in M.
  destruct (filled_rep base s s2 F2 Eb M Z0 B eq_refl) as (q & Rr & Eq & Qq).
  assert (q_size q = 64) as Sz by apply (cfg_size _ _ (rr_cfg _ _ _ _ _ _ Rr)).
  rewrite (bind_run _ _ _ _ _ (rx_action_run s2 q AL_ETH_NUM_RX_DESC Eq Qq ltac:(rewrite Sz; done))).
  rewrite bind_get, bind_hw, bind_mac, bind_get. cbv zeta. rewrite bind_set. eexists. split; [reflexivity|].
  destruct F2 as [_ Ch Et [Cm Cs _] (D1 & D2 & D3 & D4) Ep Es].
  split; [exists q; exact Rr|]. split.
  { exists qt. 
    pose proof (f_equal v_tx Et) as X1. pose proof (f_equal v_txq Et) as X2. pose proof (f_equal v_tbase Et) as X3.
    cbn in X1, X2, X3. constructor; cbn; try done.
    - split; [by rewrite X1|by rewrite X2].
    - by rewrite X3.
    - intros n k Hk. apply (proj2 Ch). rewrite Eb in Ft.
      by apply (page_dring base (words s) qt TX_SDESC_OFFSET M Ft (sub_wf _ _ _ St) ltac:(left; done) n k). }
  split; [done|]. split; [done|]. split; [done|]. split; [|done].
  eexists. cbn. cbn in Cm. rewrite Cm. reflexivity.
Qed.

(** The page of the rings is allocated, and it is none of the buffers. *)
Record ring_ok s : Prop := mkRingOk {
  ro_phys : DescRingPhys (ctx s) = DescRingBase (ctx s);
  ro_base : DescRingBase (ctx s) <> 0;
  ro_page : is_Some (pages s !! DescRingBase (ctx s));
  ro_apart : DescRingBase (ctx s) ∉ RxBuffersPhys (ctx s)
}.

(** The number of pages that the interface holds when it is initialized. *)
Definition LINK_PAGES : nat := 33.

(** The outcomes of AlEthHwInitialize. *)
Record hw_init_ok s st s' : Prop := mkHwInitOk {
  hi_wf : ctx_wf (ctx s');
  hi_script : script_ok (pages s') (pg_script s');
  hi_stats : Stats (ctx s') = Stats (ctx s);
  hi_out : (st = EFI_SUCCESS ∧ (∃ b, SnpMode (ctx s') = set_media (SnpMode (ctx s)) b) ∧ TxBufInFlight (ctx s') = 0 ∧
              (∃ q, rx_rep (rx_view (ctx s')) (words s') (pages s') q 0 []) ∧
              (∃ q, tx_rep (tx_view (ctx s')) (words s') q 0 0) ∧
              ring_ok s' ∧ size (pages s') = (size (pages s) + LINK_PAGES)%nat) ∨
           ((st = EFI_OUT_OF_RESOURCES ∨ st = EFI_DEVICE_ERROR) ∧ SnpMode (ctx s') = SnpMode (ctx s) ∧
              (size (pages s) <= size (pages s') <= size (pages s) + LINK_PAGES)%nat)
}.

Lemma HwInitialize_run s : ctx_wf (ctx s) → script_ok (pages s) (pg_script s) →
  ∃ st s', AlEthHwInitialize s = Some (st, s') ∧ hw_init_ok s st s'.
Proof.
  intros WF S. unfold AlEthHwInitialize.
  destruct (alloc_rings_run s S) as [(s1 & E & Ec & Ew & Ep & S1)|(base & p & s1 & E & Ec & Ew & Ep & S1 & N1 & A1 & R1)];
    rewrite (bind_run _ _ _ _ _ E); clear E.
  { do 2 eexists. split; [reflexivity|]. constructor; rewrite ?Ec; try done. right. split; [by left|]. split; [done|]. rewrite Ep. lia. }
  assert (size (pages s1) = Datatypes.S (size (pages s))) as Sz1 by (rewrite Ep; by apply map_size_insert_None).
  change (EFI_ERROR EFI_SUCCESS) with false. cbv iota.
  destruct (alloc_rx_run (Z.to_nat AL_ETH_NUM_RX_DESC) s1 0) as (st & s2 & E & Ew2 & S2 & (bs & ph & Ec2 & L1 & L2) & Mo & Si & Out);
    try done.
  { destruct WF. constructor; rewrite ?Ec; try done; [by apply list.NoDup_nil|]. intros a Ha. by apply not_elem_of_nil in Ha. }
  rewrite (bind_run _ _ _ _ _ E). clear E.
  assert (ctx_wf (ctx s2)) as WF2 by (rewrite Ec2, Ec; destruct WF; by constructor).
  assert (core_same (ctx s) (ctx s2)) as C2 by (rewrite Ec2, Ec; done).
  change (Z.to_nat AL_ETH_NUM_RX_DESC) with 32%nat in Si, Out. unfold LINK_PAGES.
  destruct Out as [->|(-> & B2 & Sz2 & Fr2)].
  { do 2 eexists. split; [reflexivity|]. destruct C2. constructor; try done. right. split; [by left|]. split; [done|].
    unfold LINK_PAGES. lia. }
  change (EFI_ERROR EFI_SUCCESS) with false. cbv iota.
  destruct (halt_stale_run s2) as (h & E). rewrite (bind_run _ _ _ _ _ E). clear E.
  set (s3 := with_hw s2 h).
  assert (DescRingBase (ctx s3) = base) as Eb by (cbn; by rewrite Ec2, Ec).
  destruct (adapter_up_run s3) as (st & s4 & E & (M4 & P4 & Sc4) & C4 & (D1 & D2 & D3 & D4) & Out);
    rewrite ?Eb; try done; [lia|by cbn; rewrite Ec2, Ec|].
  rewrite (bind_run _ _ _ _ _ E). clear E.
  assert (core_same (ctx s) (ctx s4)) as C4' by (eapply core_same_trans; [exact C2|exact C4]).
  assert (ctx_wf (ctx s4)) as WF4.
  { destruct WF2, C4. cbn in *. constructor; congruence. }
  destruct Out as [->|[-> (qt & qr & QU)]].
  { do 2 eexists. split; [reflexivity|]. destruct C4'. constructor; try done.
    - rewrite P4, Sc4. done.
    - right. split; [by right|]. split; [done|]. rewrite P4. cbn. unfold LINK_PAGES. lia. }
  change (EFI_ERROR EFI_SUCCESS) with false. cbv iota.
  destruct (keeps_AlEthPhyInit s4) as (st5 & s5 & E & [(a5 & Ec5) Ew5 Ep5 Es5]). rewrite (bind_run _ _ _ _ _ E). clear E.
  rewrite bind_get.
  destruct (keeps_mac_addr_store (EcBase (ctx s5)) (CurrentAddress (SnpMode (ctx s5)))) with (s := s5)
    as ([] & s6 & E & [(a6 & Ec6) Ew6 Ep6 Es6]).
  { rewrite Ec5. pose proof (cw_cur _ WF4) as X. cbn. unfold SIZEOF_EFI_MAC_ADDRESS in X. lia. }
  rewrite (bind_run _ _ _ _ _ E). clear E.
  assert (ctx s6 = set_PhyAddr (ctx s4) a6) as Ec6' by (rewrite Ec6, Ec5; done).
  assert (words s6 = zero_words base 1024 (words s)) as Ew6' by (rewrite Ew6, Ew5, M4; cbn; by rewrite Ew2, Ew).
  destruct (HwInitialize_tail s6 base qt qr) as (s' & E & Rr & Rt & Fl & Ep' & Es' & Md & St' & Bf & Ph & Db & Dp).
  - rewrite Ec6'. exact QU.
  - rewrite Ec6'. cbn. by rewrite D1.
  - rewrite Ew6'. intros i Hi. exists 0. by apply zero_words_in.
  - rewrite Ew6'. intros i Hi. apply zero_words_in. lia.
  - rewrite Ec6'. rewrite Ep6, Ep5, P4. destruct B2. cbn in *. constructor; cbn; rewrite ?D3, ?D4; done.
  - rewrite Ec6'. destruct WF4. by constructor.
  - exists EFI_SUCCESS, s'. split; [exact E|].
    destruct Md as [b Md]. rewrite Ec6' in Md, St', Bf, Ph. cbn in Md, St', Bf, Ph.
    destruct C4' as [X1 X2 X3]. rewrite X1 in Md. rewrite X2 in St'.
    constructor; try done.
    + destruct WF4, WF. constructor; rewrite ?Md, ?Bf, ?Ph, ?St'; try done.
    + rewrite Ep', Es', Ep6, Es6, Ep5, Es5, P4, Sc4. done.
    + rewrite Ec6' in Db, Dp. cbn in Db, Dp. left. split_and!; try done; [by exists b| |].
      * constructor; rewrite ?Db, ?Dp, ?Ph, ?D1, ?D2, ?D4; cbn; rewrite ?Ec2, ?Ec; try done; [cbn; lia|cbn|cbn].
        -- rewrite Ep', Ep6, Ep5, P4. cbn. apply Mo. rewrite Ep, lookup_insert_eq. by eexists.
        -- intros Hin. specialize (Fr2 base). rewrite Ec2 in Fr2. cbn in Fr2.
           assert (base ∈ take 0 (RxBuffersPhys (ctx s1))) as X; [|by apply not_elem_of_nil in X].
           apply Fr2; [rewrite Ep, lookup_insert_eq; by eexists|done].
      * rewrite Ep', Ep6, Ep5, P4. cbn. unfold LINK_PAGES. lia.
Qed.

Lemma shutdown_q_run (is_tx : bool) s :
  (∃ q, (if is_tx then TxDmaQ (ctx s) else RxDmaQ (ctx s)) = Some 0 ∧ head (udma_q (side is_tx (HalAdapter (ctx s)))) = Some q) →
  ∃ u h, q_reset_opt is_tx s = Some (tt, with_hw (with_ctx s (set_HalAdapter (ctx s) (set_side is_tx (HalAdapter (ctx s)) u))) h).
Proof.
  intros (q & E & Q). unfold q_reset_opt. rewrite bind_get, E.
  destruct (q_reset_in_run (HalAdapter (ctx s)) is_tx s (ex_intro _ q Q)) as (u & h & Er & _).
  rewrite (bind_run _ _ _ _ _ Er), bind_get. by exists u, h.
Qed.
End HwInit.

(** ** Shutdown *)

Section HwDown.
Context {H : Type} `{EthHw H}.
Implicit Types s : ETH H.

Lemma drop_rd {A} (l : list A) i x : rd l i = Some x → drop (Z.to_nat i) l = x :: drop (Z.to_nat (i + 1)) l.
Proof.
  intros E. pose proof (rd_Some _ _ _ E). rewrite rd_lookup in E by lia.
  replace (Z.to_nat (i + 1)) with (Datatypes.S (Z.to_nat i)) by lia. by apply drop_S.
Qed.

Lemma free_rx_run n : ∀ s Idx,
  0 <= Idx → Idx + Z.of_nat n = AL_ETH_NUM_RX_DESC →
  length (RxBuffers (ctx s)) = Z.to_nat AL_ETH_NUM_RX_DESC →
  length (RxBuffersPhys (ctx s)) = Z.to_nat AL_ETH_NUM_RX_DESC →
  (∀ i, Idx <= i → rd (RxBuffers (ctx s)) i = rd (RxBuffersPhys (ctx s)) i) →
  NoDup (drop (Z.to_nat Idx) (RxBuffersPhys (ctx s))) →
  (∀ a, a ∈ drop (Z.to_nat Idx) (RxBuffersPhys (ctx s)) → a <> 0 ∧ is_Some (pages s !! a)) →
  ∃ s' bs, free_rx n Idx s = Some (tt, s') ∧ ctx s' = set_RxBuffers (ctx s) bs (RxBuffersPhys (ctx s)) ∧
    length bs = Z.to_nat AL_ETH_NUM_RX_DESC ∧ hw s' = hw s ∧ pg_script s' = pg_script s ∧
    (∀ a, a ∉ drop (Z.to_nat Idx) (RxBuffersPhys (ctx s)) → pages s' !! a = pages s !! a) ∧
    (size (pages s') + n)%nat = size (pages s).
Proof.
  induction n as [|n IH]; intros s Idx HI Hn L1 L2 Sm Nd Pg; cbn [free_rx].
  { exists s, (RxBuffers (ctx s)). split; [done|]. split_and!; try done; first [lia|by destruct (ctx s)]. }
  unfold AL_ETH_NUM_RX_DESC in *. rewrite bind_get.
  destruct (proj2 (rd_is_Some (RxBuffersPhys (ctx s)) Idx)) as [a Ea]; [lia|].
  rewrite (Sm Idx), Ea, bind_lift by lia. pose proof (drop_rd _ _ _ Ea) as Ed. rewrite Ed in Nd, Pg.
  apply list.NoDup_cons in Nd as [Na Nd]. destruct (Pg a ltac:(left)) as [Nz Ia].
  destruct (Z.eqb_spec a 0); [done|].
  destruct (wrn_1 (RxBuffers (ctx s)) Idx 0) as (bs & Ew & Lb & Rb); [lia|].
  erewrite bind_run.
  2: { rewrite bind_lift. rewrite (bind_run (FreePages a) _ s tt _ eq_refl). rewrite Ew, bind_lift. reflexivity. }
  match goal with |- ∃ _ _, free_rx n _ ?x = _ ∧ _ => set (s1 := x) end.
  destruct (IH s1 (Idx + 1)) as (s' & bs' & E & Ec & Lb' & Eh & Es & Ep & Sz); try done; try lia.
  - cbn. unfold AL_ETH_NUM_RX_DESC. lia.
  - cbn. intros i Hi. rewrite Rb. destruct (Z.eqb_spec i Idx); [lia|]. apply Sm. lia.
  - cbn. intros b Hb. destruct (Pg b ltac:(by right)) as [Zb Ib]. split; [done|].
    assert (a <> b) by (intros ->; done). by rewrite lookup_delete_ne.
  - exists s', bs'. split; [exact E|]. rewrite Ec. split_and!; try done.
    + intros b. rewrite Ed. intros Nb. apply not_elem_of_cons in Nb as [N1 N2].
      rewrite (Ep b N2). cbn. by rewrite lookup_delete_ne.
    + destruct Ia as [x Ex]. pose proof (map_size_delete_Some _ _ (mk_is_Some _ _ Ex)) as X.
      assert (size (pages s) <> 0%nat) as Y.
      { intros Z. apply map_size_empty_inv in Z. rewrite Z in Ex. by rewrite lookup_empty in Ex. }
      change (pages s1) with (delete a (pages s)) in Sz. rewrite X in Sz. lia.
Qed.

Lemma HwShutdown_run s q :
  bufs_ok (rx_view (ctx s)) (pages s) → ring_ok s →
  RxDmaQ (ctx s) = Some 0 → is_Some (head (udma_q (rx_udma (HalAdapter (ctx s))))) →
  TxDmaQ (ctx s) = Some 0 → head (udma_q (tx_udma (HalAdapter (ctx s)))) = Some q →
  ∃ s', AlEthHwShutdown s = Some (tt, s') ∧ (size (pages s') + LINK_PAGES)%nat = size (pages s) ∧
    pg_script s' = pg_script s ∧ SnpMode (ctx s') = SnpMode (ctx s) ∧ Stats (ctx s') = Stats (ctx s) ∧
    length (RxBuffers (ctx s')) = Z.to_nat AL_ETH_NUM_RX_DESC ∧
    length (RxBuffersPhys (ctx s')) = Z.to_nat AL_ETH_NUM_RX_DESC ∧
    DescRingBase (ctx s') = 0.
Proof.
  intros [Bs Bl Bn Bp] [Rp Rb Rg Ra] E1 Q1 E2 Q2. cbn in *. unfold AlEthHwShutdown.
  rewrite bind_get, bind_hw, bind_delay.
  match goal with |- ∃ _, (_ ≫= _) ?x = _ ∧ _ => set (s1 := x) end.
  destruct (shutdown_q_run true s1) as (u1 & h1 & Er); [by exists q|].
  rewrite (bind_run _ _ _ _ _ Er). clear Er. set (s2 := with_hw _ h1).
  destruct Q1 as [qr Q1].
  destruct (shutdown_q_run false s2) as (u2 & h2 & Er); [by exists qr|].
  rewrite (bind_run _ _ _ _ _ Er). clear Er. set (s3 := with_hw _ h2).
  rewrite bind_get, bind_hw, bind_delay.
  match goal with |- ∃ _, (_ ≫= _) ?x = _ ∧ _ => set (s4 := x) end.
  destruct (free_rx_run (Z.to_nat AL_ETH_NUM_RX_DESC) s4 0) as (s5 & bs & Er & Ec & Lb & Eh & Es & Ep & Sz); try done; cbn.
  { by rewrite Bs. }
  { intros i Hi. by rewrite Bs. }
  { intros a Ha. destruct (Bp a Ha) as (Pa & p & Epp & _). split; [lia|by exists p]. }
  rewrite (bind_run _ _ _ _ _ Er), bind_get, Ec. clear Er. cbn.
  destruct (Z.eqb_spec (DescRingBase (ctx s)) 0); [done|].
  eexists. split; [reflexivity|]. cbn. split_and!; try done.
  specialize (Ep (DescRingBase (ctx s)) Ra). cbn in Ep. rewrite Rp. destruct Rg as [x Ex]. rewrite Ex in Ep.
  rewrite (map_size_delete_Some _ _ (mk_is_Some _ _ Ep)). cbn in Sz. unfold LINK_PAGES.
  change (Z.to_nat AL_ETH_NUM_RX_DESC) with 32%nat in Sz. cbn in Sz.
  assert (size (pages s5) <> 0%nat) as Y.
  { intros Z. apply map_size_empty_inv in Z. rewrite Z in Ep. by rewrite lookup_empty in Ep. }
  lia.
Qed.
End HwDown.
