(* ===== verification/EthSnp.v ===== *)
(** * The Simple Network Protocol as a state machine

    The entry points of [Eth] as the operations of a transition system whose
    other steps are the controller's arrivals and the hardware's own changes, and
    the specification it refines: a lifecycle state, a queue of frames, a buffer
    in flight and a number of pages, with no rings, descriptors or registers. *)

From S2P Require Import Prelude Efi Udma Eth EthUp.

(** ** Calls *)

Inductive SnpOp :=
  | OpStart
  | OpStop
  | OpInitialize
  | OpReset
  | OpShutdown
  | OpReceiveFilters (Enable Disable : Z)
  | OpStationAddress (Reset : bool) (New : option (list Z))
  | OpStatistics (Reset : bool) (StatisticsSize : option Z) (StatisticsTable : option (list Z))
  | OpGetStatus (InterruptStatus TxBuf : bool)
  | OpTransmit (HeaderSize BufferSize : Z) (Buffer : option (Z * list Z)) (SrcAddr DestAddr : option (list Z))
      (Protocol : option Z)
  | OpReceive (p : RxOut)
  | OpWaitForPacket.

Inductive Reply :=
  | RepStatus (Status : EFI_STATUS)
  | RepStatistics (r : EFI_STATUS * option Z * option (list Z))
  | RepGetStatus (r : EFI_STATUS * option Z * option Z)
  | RepTransmit (r : EFI_STATUS * option (list Z))
  | RepReceive (r : EFI_STATUS * RxOut)
  | RepSignal (signalled : bool).

Section Calls.
Context {H : Type} `{EthHw H}.

Definition reply {A} (f : A → Reply) (m : Eth (H := H) A) : Eth (H := H) Reply := a ← m; mret (f a).

Definition snp_op (op : SnpOp) : Eth (H := H) Reply :=
  match op with
  | OpStart => reply RepStatus AlEthNextSnpStart
  | OpStop => reply RepStatus AlEthNextSnpStop
  | OpInitialize => reply RepStatus AlEthNextSnpInitialize
  | OpReset => reply RepStatus AlEthNextSnpReset
  | OpShutdown => reply RepStatus AlEthNextSnpShutdown
  | OpReceiveFilters e d => reply RepStatus (AlEthNextSnpReceiveFilters e d)
  | OpStationAddress r n => reply RepStatus (AlEthNextSnpStationAddress r n)
  | OpStatistics r n t => reply RepStatistics (AlEthNextSnpStatistics r n t)
  | OpGetStatus i t => reply RepGetStatus (AlEthNextSnpGetStatus i t)
  | OpTransmit hs bs b src dst pr => reply RepTransmit (AlEthNextSnpTransmit hs bs b src dst pr)
  | OpReceive p => reply RepReceive (AlEthNextSnpReceive p)
  | OpWaitForPacket => reply RepSignal AlEthNextWaitForPacket
  end.

(** What a caller promises: the memory behind its pointers. *)
Definition call_ok (op : SnpOp) : Prop :=
  match op with
  | OpStationAddress _ (Some n) => SIZEOF_EFI_MAC_ADDRESS <= len n
  | OpStatistics _ (Some n) (Some t) => n <= 8 * len t
  | OpTransmit _ _ (Some (addr, data)) src dst _ => tx_call addr data src dst
  | OpReceive p => o_Buffer p = None ∨ o_BufferSize p = None ∨ ∃ n, rx_call p n
  | _ => True
  end.

(** What the environment promises at a call: fresh pages where the driver
    allocates, and a controller that reports no more completions than there are
    submissions. *)
Definition env_ok (op : SnpOp) (s : ETH H) : Prop :=
  match op with
  | OpInitialize => script_ok (pages s) (pg_script s)
  | OpReset => ∀ s', AlEthHwShutdown s = Some (tt, s') → script_ok (pages s') (pg_script s')
  | OpGetStatus _ _ | OpTransmit _ _ _ _ _ _ =>
      ∀ q P C, tx_rep (tx_view (ctx s)) (words s) q P C → crhp_ok q (hw s) P C
  | _ => True
  end.

(** The controller completes the first posted buffer that it has not yet
    completed with the frame [f]: the data goes where the descriptor points, the
    completion in the next slot of the ring. *)
Definition put_completion (m : Words) (a : Z) (f : frame) : Words :=
  <[a := f_ctrl f]> (<[a + 4 := f_word1 f]> (<[a + 8 := f_word2 f]> (<[a + 12 := f_word3 f]> m))).

Record arrives (f : frame) (s s' : ETH H) : Prop := mkArrives {
  ar_up : State (SnpMode (ctx s)) = EfiSimpleNetworkInitialized;
  ar_frame : cdesc_is_last (f_ctrl f) = true ∧ len (f_data f) = Z.min (f_len f) AL_ETH_RX_BUF_SIZE;
  ar_ctx : ctx s' = ctx s;
  ar_script : pg_script s' = pg_script s;
  ar_write : ∃ q C fs d p, rx_rep (rx_view (ctx s)) (words s) (pages s) q C fs ∧ len fs < AL_ETH_NUM_RX_DESC ∧
    ring_bits (f_ctrl f) = rid AL_ETH_DESCS_PER_Q (C + len fs) ∧
    desc_at (words s) (dslot q (C + len fs)) = Some d ∧ pages s !! d_ptr d = Some p ∧
    words s' = put_completion (words s) (slot q (C + len fs)) f ∧
    pages s' = <[d_ptr d := (f_data f ++ drop (length (f_data f)) p)%list]> (pages s)
}.

Inductive label :=
  | Call (op : SnpOp) (r : Reply)
  | Arrive (f : frame)
  | Tick.

Inductive snp_step : ETH H → label → ETH H → Prop :=
  | step_call op r s s' : call_ok op → env_ok op s → snp_op op s = Some (r, s') → snp_step s (Call op r) s'
  | step_arrive f s s' : arrives f s s' → snp_step s (Arrive f) s'
  | step_tick h s : snp_step s Tick (with_hw s h).
End Calls.

(** ** The specification *)

Record LINK := mkLink {
  k_mode : EFI_SIMPLE_NETWORK_MODE;
  k_wait : list frame;
  k_flight : Z;
  k_stats : list Z;
  k_pages : nat
}.

(** What the hardware decides at a call: the status of bringing the interface
    up, the pages a failed attempt has taken, the link, and whether the buffer in
    flight has left. *)
Record CHOICE := mkChoice {
  ch_up : EFI_STATUS;
  ch_pages : nat;
  ch_media : bool;
  ch_done : bool
}.

Definition choice_ok (ch : CHOICE) : Prop :=
  (ch_up ch = EFI_SUCCESS ∨ ch_up ch = EFI_OUT_OF_RESOURCES ∨ ch_up ch = EFI_DEVICE_ERROR) ∧
  (ch_pages ch <= LINK_PAGES)%nat.

Definition link_state (k : LINK) : EFI_SIMPLE_NETWORK_STATE := State (k_mode k).
Definition at_state (k : LINK) (s : EFI_SIMPLE_NETWORK_STATE) : LINK :=
  mkLink (set_State (k_mode k) s) [] 0 (k_stats k) (k_pages k).

(** An attempt to bring the interface up, from a state with nothing queued. *)
Definition link_up_try (ch : CHOICE) (k : LINK) : EFI_STATUS * LINK :=
  if EFI_ERROR (ch_up ch) then
    (ch_up ch, mkLink (k_mode k) [] 0 (k_stats k) (k_pages k + ch_pages ch))
  else (EFI_SUCCESS, mkLink (set_media (k_mode k) (ch_media ch)) [] 0 (k_stats k) (k_pages k + LINK_PAGES)).

(** The calls that need an initialized interface. *)
Definition link_io (ch : CHOICE) (op : SnpOp) (k : LINK) : Reply * LINK :=
  let m := k_mode k in
  let busy := negb (k_flight k =? 0) && negb (ch_done ch) in
  match op with
  | OpReceiveFilters e d =>
      let f := Z.land (Z.lor (ReceiveFilterSetting m) e) (u32 (Z.lnot d)) in
      (RepStatus EFI_SUCCESS, mkLink (set_filter m f) (k_wait k) (k_flight k) (k_stats k) (k_pages k))
  | OpStationAddress r n =>
      let a := if r then PermanentAddress m
               else match n with Some n => take (Z.to_nat SIZEOF_EFI_MAC_ADDRESS) n | None => CurrentAddress m end in
      (RepStatus EFI_SUCCESS, mkLink (set_address m a) (k_wait k) (k_flight k) (k_stats k) (k_pages k))
  | OpStatistics r n t =>
      let st := if r then repeat 0 (Z.to_nat STATS_COUNT) else k_stats k in
      (RepStatistics
         match n, t with
         | Some n, Some t =>
             if n <? SIZEOF_EFI_NETWORK_STATISTICS
             then (EFI_BUFFER_TOO_SMALL, Some SIZEOF_EFI_NETWORK_STATISTICS, Some t)
             else (EFI_SUCCESS, Some SIZEOF_EFI_NETWORK_STATISTICS, Some (st ++ drop (length st) t)%list)
         | _, _ => (EFI_SUCCESS, n, t)
         end, mkLink m (k_wait k) (k_flight k) st (k_pages k))
  | OpGetStatus i t =>
      (RepGetStatus (EFI_SUCCESS, if i then Some 0 else None,
         if t then Some (if ch_done ch then k_flight k else 0) else None),
       mkLink (set_media m (ch_media ch)) (k_wait k) (if t && ch_done ch then 0 else k_flight k)
         (k_stats k) (k_pages k))
  | OpTransmit hs bs None src dst pr => (RepTransmit (EFI_INVALID_PARAMETER, None), k)
  | OpTransmit hs bs (Some (addr, data)) src dst pr =>
      if bs <? MediaHeaderSize m then (RepTransmit (EFI_BUFFER_TOO_SMALL, Some data), k)
      else if busy then (RepTransmit (EFI_NOT_READY, Some data), k)
      else if tx_header_ok (MediaHeaderSize m) hs dst pr then
        (RepTransmit (EFI_SUCCESS, Some (tx_bytes (CurrentAddress m) hs src dst pr data)),
         mkLink m (k_wait k) addr (bump 11 (k_stats k)) (k_pages k))
      else (RepTransmit (EFI_INVALID_PARAMETER, Some data), mkLink m (k_wait k) 0 (k_stats k) (k_pages k))
  | OpReceive p =>
      match o_Buffer p, o_BufferSize p, k_wait k with
      | Some _, Some n, f :: fs =>
          (RepReceive (rx_answer (MediaHeaderSize m) n p f),
           mkLink m fs (k_flight k) (if delivered n f then bump 1 (k_stats k) else k_stats k) (k_pages k))
      | Some _, Some n, [] => (RepReceive (EFI_NOT_READY, p), k)
      | _, _, _ => (RepReceive (EFI_INVALID_PARAMETER, p), k)
      end
  | OpWaitForPacket => (RepSignal (negb (bool_decide (k_wait k = []))), k)
  | _ => (RepStatus EFI_SUCCESS, k)
  end.

(** Their answers when the interface is not initialized. *)
Definition link_refuse (op : SnpOp) (st : EFI_STATUS) : Reply :=
  match op with
  | OpStatistics _ n t => RepStatistics (st, n, t)
  | OpGetStatus _ _ => RepGetStatus (st, None, None)
  | OpTransmit _ _ b _ _ _ => RepTransmit (st, option_map snd b)
  | OpReceive p => RepReceive (st, p)
  | OpWaitForPacket => RepSignal false
  | _ => RepStatus st
  end.

Definition link_call (ch : CHOICE) (op : SnpOp) (k : LINK) : Reply * LINK :=
  match op, link_state k with
  | OpStart, EfiSimpleNetworkStopped => (RepStatus EFI_SUCCESS, at_state k EfiSimpleNetworkStarted)
  | OpStart, EfiSimpleNetworkMaxState => (RepStatus EFI_DEVICE_ERROR, k)
  | OpStart, _ => (RepStatus EFI_ALREADY_STARTED, k)
  | OpStop, EfiSimpleNetworkStopped => (RepStatus EFI_NOT_STARTED, k)
  | OpStop, _ => (RepStatus EFI_SUCCESS, at_state k EfiSimpleNetworkStopped)
  | OpInitialize, EfiSimpleNetworkStopped => (RepStatus EFI_NOT_STARTED, k)
  | OpInitialize, EfiSimpleNetworkInitialized => (RepStatus EFI_SUCCESS, k)
  | OpInitialize, _ =>
      let '(st, k) := link_up_try ch k in
      (RepStatus st, if EFI_ERROR st then k else at_state k EfiSimpleNetworkInitialized)
  | OpReset, EfiSimpleNetworkStopped => (RepStatus EFI_NOT_STARTED, k)
  | OpReset, EfiSimpleNetworkInitialized =>
      let '(st, k) := link_up_try ch (mkLink (k_mode k) [] 0 (k_stats k) (k_pages k - LINK_PAGES)) in
      (RepStatus st, if EFI_ERROR st then at_state k EfiSimpleNetworkStarted else k)
  | OpReset, _ => (RepStatus EFI_DEVICE_ERROR, k)
  | OpShutdown, EfiSimpleNetworkStopped => (RepStatus EFI_NOT_STARTED, k)
  | OpShutdown, EfiSimpleNetworkInitialized =>
      (RepStatus EFI_SUCCESS, at_state (mkLink (k_mode k) [] 0 (k_stats k) (k_pages k - LINK_PAGES)) EfiSimpleNetworkStarted)
  | OpShutdown, _ => (RepStatus EFI_SUCCESS, at_state k EfiSimpleNetworkStarted)
  | _, EfiSimpleNetworkInitialized => link_io ch op k
  | _, s => (link_refuse op (not_initialized s), k)
  end.

Inductive link_step : LINK → label → LINK → Prop :=
  | link_step_call ch op k r k' : choice_ok ch → link_call ch op k = (r, k') → link_step k (Call op r) k'
  | link_step_arrive f k : link_state k = EfiSimpleNetworkInitialized → len (k_wait k) < AL_ETH_NUM_RX_DESC →
      link_step k (Arrive f)
        (mkLink (k_mode k) (k_wait k ++ [f])%list (k_flight k) (k_stats k) (k_pages k))
  | link_step_tick k : link_step k Tick k.

(** ** Arrivals *)

Section Arrivals.
Implicit Types q : al_udma_q.

Lemma cfg_slot_apart q base a b : q_cfg q base → q_wf q → a < b < a + AL_ETH_DESCS_PER_Q →
  slot q a + 16 <= slot q b ∨ slot q b + 16 <= slot q a.
Proof.
  intros F W Hab. pose proof (slot_inj q a b W) as N. unfold slot in *.
  rewrite (cfg_size _ _ F), (cfg_cdesc _ _ F) in *. unfold AL_ETH_CDESC_SIZE in *. specialize (N Hab). lia.
Qed.

Lemma w_eq (m : Words) a v : <[a := v]> m !! a = Some v.
Proof. apply lookup_insert_eq. Qed.
Lemma w_ne (m : Words) a b v : a <> b → <[a := v]> m !! b = m !! b.
Proof. apply lookup_insert_ne. Qed.
Lemma w_mapped (m m' : Words) a v :
  (∀ b, is_Some (m !! b) ↔ is_Some (m' !! b)) → is_Some (m !! a) →
  ∀ b, is_Some (m !! b) ↔ is_Some (<[a := v]> m' !! b).
Proof.
  intros E M b. destruct (decide (a = b)) as [<-|N]; [|rewrite w_ne by done; apply E].
  rewrite w_eq. split; [by eexists|done].
Qed.

Lemma put_completion_changes m a f :
  (∀ k, 0 <= k < 4 → is_Some (m !! (a + 4 * k))) → changes_in a (a + 16) m (put_completion m a f).
Proof.
  intros M. unfold put_completion. split.
  - intros b Hb. by rewrite !w_ne by lia.
  - pose proof (M 0 ltac:(lia)) as M0. rewrite Z.add_0_r in M0.
    repeat apply w_mapped; try done; [apply (M 3)|apply (M 2)|apply (M 1)]; lia.
Qed.

Lemma put_completion_at m a f :
  put_completion m a f !! a = Some (f_ctrl f) ∧ put_completion m a f !! (a + 4) = Some (f_word1 f) ∧
  put_completion m a f !! (a + 8) = Some (f_word2 f) ∧ put_completion m a f !! (a + 12) = Some (f_word3 f).
Proof. unfold put_completion. split_and!; rewrite ?w_ne by lia; apply w_eq. Qed.

Lemma rx_rep_arrive v m pg q C fs f d p (n := C + len fs) :
  rx_rep v m pg q C fs → len fs < AL_ETH_NUM_RX_DESC →
  cdesc_is_last (f_ctrl f) = true → len (f_data f) = Z.min (f_len f) AL_ETH_RX_BUF_SIZE →
  ring_bits (f_ctrl f) = rid AL_ETH_DESCS_PER_Q n →
  desc_at m (dslot q n) = Some d → pg !! d_ptr d = Some p →
  rx_rep v (put_completion m (slot q n) f) (<[d_ptr d := (f_data f ++ drop (length (f_data f)) p)%list]> pg) q C
    (fs ++ [f])%list.
Proof.
  intros R Lt La Ld Rf Ed Ep. pose proof R as [Q F S Rc T B P L D St Dm Cm].
  pose proof (sub_wf _ _ _ S) as W. pose proof (sub_range _ _ _ S) as HC.
  pose proof (put_completion_changes m (slot q n) f (Cm n)) as Ch.
  pose proof (cfg_size _ _ F) as Sz. unfold AL_ETH_NUM_RX_DESC, AL_ETH_DESCS_PER_Q, AL_ETH_RX_BUF_SIZE in *.
  pose proof (cfg_slot q _ n F W) as Rn. change RX_SDESC_OFFSET with 2048 in *.
  destruct (P n ltac:(unfold n; lia)) as (a & Ea & Ed'). rewrite Ed in Ed'. injection Ed' as ->. cbn [d_ptr] in *.
  destruct B as [B1 B2 B3 B4]. pose proof (rd_in _ _ _ Ea) as Ia.
  destruct (B4 a Ia) as (Ra & p' & Ep' & Lp). rewrite Ep in Ep'. injection Ep' as <-.
  unfold EFI_PAGE_SIZE in *.
  assert (∀ j k, C <= j < C + 64 → j <> n → 0 <= k <= 12 →
            put_completion m (slot q n) f !! (slot q j + k) = m !! (slot q j + k)) as Sl.
  { intros j k Hj Nj Hk. apply (proj1 Ch).
    assert (slot q j + 16 <= slot q n ∨ slot q n + 16 <= slot q j); [|lia].
    destruct (Z_lt_ge_dec j n).
    - apply (cfg_slot_apart q _ j n F W). unfold AL_ETH_DESCS_PER_Q, n in *. lia.
    - destruct (cfg_slot_apart q _ n j F W); [unfold AL_ETH_DESCS_PER_Q, n in *; lia|lia|lia]. }
  assert (∀ j, C <= j < C + 64 → j <> n → put_completion m (slot q n) f !! slot q j = m !! slot q j) as Sl0.
  { intros j Hj Nj. specialize (Sl j 0 Hj Nj ltac:(lia)). by rewrite Z.add_0_r in Sl. }
  constructor; try done.
  - constructor; try done. intros b Hb. destruct (B4 b Hb) as (Rb & x & Ex & Lx). split; [done|].
    destruct (decide (a = b)) as [->|Ne].
    + eexists. rewrite lookup_insert_eq. split; [done|]. unfold EFI_PAGE_SIZE. rewrite length_app, length_drop. lia.
    + exists x. by rewrite lookup_insert_ne.
  - intros j Hj. destruct (P j Hj) as (b & Eb & Db). exists b. split; [done|]. rewrite <- Db.
    apply (desc_at_changes _ _ m _ _ Ch). pose proof (cfg_dslot q _ j F W). lia.
  - rewrite length_app. cbn [length]. unfold AL_ETH_NUM_RX_DESC. lia.
  - intros i g Eg. apply lookup_app_Some in Eg as [Eg|[Hi Eg]].
    + pose proof (lookup_lt_Some _ _ _ Eg) as Li. destruct (D i g Eg) as [E0 E1 E2 E3 Er El Eld (b & x & Eb & Ex & Erd)].
      constructor; rewrite ?Sl0, ?Sl by (unfold n; lia); try done.
      exists b, x. split; [done|]. split; [|done]. rewrite lookup_insert_ne; [done|]. intros ->.
      revert Ea Eb. unfold AL_ETH_NUM_RX_DESC in *. pose proof (Z.mod_pos_bound n 32 ltac:(lia)) as Y.
      pose proof (Z.mod_pos_bound (C + Z.of_nat i) 32 ltac:(lia)) as X. rewrite !rd_lookup by lia. intros Ea Eb.
      pose proof (NoDup_lookup _ _ _ _ B3 Ea Eb) as E. apply Z2Nat.inj in E; [|lia..].
      pose proof (Z.div_mod n 32 ltac:(lia)). pose proof (Z.div_mod (C + Z.of_nat i) 32 ltac:(lia)).
      unfold n in *. lia.
    + apply list_lookup_singleton_Some in Eg as [Ei <-].
      replace (C + Z.of_nat i) with n by (unfold n; lia).
      destruct (put_completion_at m (slot q n) f) as (W0 & W1 & W2 & W3). constructor; try done.
      exists a. eexists. split; [exact Ea|]. rewrite lookup_insert_eq. split; [done|].
      rewrite rdn_app_l by lia. change (Z.to_nat 0) with 0%nat. rewrite drop_0, take_ge by lia. done.
  - intros j Hj. rewrite length_app in Hj. cbn [length] in Hj. unfold AL_ETH_DESCS_PER_Q in *.
    rewrite Sl0 by (unfold n; lia). apply St. lia.
  - intros i k Hk. apply (proj2 Ch). by apply Dm.
  - intros i k Hk. apply (proj2 Ch). by apply Cm.
Qed.

(** The rings determine the waiting frames, and the position up to a multiple of
    four laps. *)
Lemma rx_rep_lap v m pg q C C' fs fs' :
  rx_rep v m pg q C fs → rx_rep v m pg q C' fs' →
  ∃ t, C' = C + 256 * t ∧ (∀ j, slot q (C' + j) = slot q (C + j)) ∧ (∀ j, dslot q (C' + j) = dslot q (C + j)) ∧
    (∀ j, rid AL_ETH_DESCS_PER_Q (C' + j) = rid AL_ETH_DESCS_PER_Q (C + j)) ∧
    (∀ j, (C' + j) mod AL_ETH_NUM_RX_DESC = (C + j) mod AL_ETH_NUM_RX_DESC).
Proof.
  intros R R'. pose proof (cfg_size _ _ (rr_cfg _ _ _ _ _ _ R)) as Sz.
  pose proof (comp_ack _ _ _ _ (rr_comp _ _ _ _ _ _ R)) as A. pose proof (comp_ack _ _ _ _ (rr_comp _ _ _ _ _ _ R')) as A'.
  pose proof (comp_rid _ _ _ _ (rr_comp _ _ _ _ _ _ R)) as I. pose proof (comp_rid _ _ _ _ (rr_comp _ _ _ _ _ _ R')) as I'.
  unfold slot, dslot, rid, AL_ETH_DESCS_PER_Q, AL_ETH_NUM_RX_DESC in *. rewrite Sz in *.
  assert (∃ t, C' = C + 256 * t) as [t ->].
  { exists ((C' - C) / 256). rewrite A in A'. rewrite I in I'. Z.div_mod_to_equations. lia. }
  exists t. split; [done|].
  assert (∀ j, (C + 256 * t + j) mod 64 = (C + j) mod 64) as M.
  { intros j. replace (C + 256 * t + j) with (C + j + (4 * t) * 64) by lia. by apply Z.mod_add. }
  split_and!; intros j; rewrite ?M; try done.
  - replace (C + 256 * t + j) with (C + j + (4 * t) * 64) by lia. rewrite Z.div_add by lia.
    replace (1 + ((C + j) / 64 + 4 * t)) with (1 + (C + j) / 64 + t * 4) by lia. by apply Z.mod_add.
  - replace (C + 256 * t + j) with (C + j + (8 * t) * 32) by lia. by apply Z.mod_add.
Qed.

Lemma rx_rep_longer v m pg q C C' fs fs' :
  rx_rep v m pg q C fs → rx_rep v m pg q C' fs' → ~ (length fs' < length fs)%nat.
Proof.
  intros R R' Lt. destruct (rx_rep_lap _ _ _ _ _ _ _ _ R R') as (t & _ & Sl & _ & Rd & _).
  destruct (lookup_lt_is_Some_2 fs (length fs') Lt) as [f Ef].
  destruct (rr_done _ _ _ _ _ _ R _ _ Ef) as [E0 _ _ _ Er _ _ _].
  destruct (rr_stale _ _ _ _ _ _ R' (C' + len fs')) as (w & Ew & N).
  { pose proof (rr_few _ _ _ _ _ _ R') as X. unfold AL_ETH_NUM_RX_DESC, AL_ETH_DESCS_PER_Q in *. lia. }
  rewrite Sl in Ew. rewrite Rd in N. rewrite E0 in Ew. injection Ew as <-. done.
Qed.

Lemma rx_rep_unique v m pg q q' C C' fs fs' :
  rx_rep v m pg q C fs → rx_rep v m pg q' C' fs' → q' = q ∧ fs' = fs.
Proof.
  intros R R'. assert (q' = q) as ->.
  { pose proof (proj2 (rr_q _ _ _ _ _ _ R)) as E. pose proof (proj2 (rr_q _ _ _ _ _ _ R')) as E'. congruence. }
  split; [done|]. pose proof (rx_rep_longer _ _ _ _ _ _ _ _ R R') as L1.
  pose proof (rx_rep_longer _ _ _ _ _ _ _ _ R' R) as L2.
  destruct (rx_rep_lap _ _ _ _ _ _ _ _ R R') as (t & _ & Sl & _ & Rd & Md).
  apply list_eq. intros i. destruct (fs !! i) as [f|] eqn:E.
  2: { apply lookup_ge_None in E. apply lookup_ge_None. lia. }
  pose proof (lookup_lt_Some _ _ _ E). destruct (lookup_lt_is_Some_2 fs' i) as [f' E']; [lia|]. rewrite E'. f_equal.
  destruct (rr_done _ _ _ _ _ _ R _ _ E) as [A0 A1 A2 A3 _ _ AL (a & p & Ea & Ep & Ed)].
  destruct (rr_done _ _ _ _ _ _ R' _ _ E') as [B0 B1 B2 B3 _ _ BL (b & r & Eb & Er & Ed')].
  rewrite Sl in B0, B1, B2, B3. rewrite Md in Eb.
  assert (f_ctrl f' = f_ctrl f) as H0 by congruence. assert (f_word1 f' = f_word1 f) as H1 by congruence.
  assert (f_word2 f' = f_word2 f) as H2 by congruence. assert (f_word3 f' = f_word3 f) as H3 by congruence.
  assert (f_data f' = f_data f) as H4.
  { unfold f_len in *. rewrite H0, H1 in BL. rewrite <- AL in BL. rewrite BL in Ed'. congruence. }
  destruct f, f'. cbn in *. congruence.
Qed.
End Arrivals.

(** ** The invariant *)

Section Inv.
Context {H : Type} `{EthHw H}.
Implicit Types s : ETH H.
Implicit Types k : LINK.

Record link_inv s k : Prop := mkInv {
  in_wf : ctx_wf (ctx s);
  in_mode : SnpMode (ctx s) = k_mode k;
  in_stats : Stats (ctx s) = k_stats k;
  in_pages : size (pages s) = k_pages k;
  in_up : link_state k = EfiSimpleNetworkInitialized →
    ring_ok s ∧ (∃ q C, rx_rep (rx_view (ctx s)) (words s) (pages s) q C (k_wait k)) ∧
    (∃ q P C, tx_rep (tx_view (ctx s)) (words s) q P C) ∧ TxBufInFlight (ctx s) = k_flight k;
  in_down : link_state k <> EfiSimpleNetworkInitialized → k_wait k = [] ∧ k_flight k = 0
}.

(** A call that the specification answers. *)
Definition answered op s k : Prop :=
  ∃ ch r s' k', choice_ok ch ∧ snp_op op s = Some (r, s') ∧ link_call ch op k = (r, k') ∧ link_inv s' k'.

Lemma bind_state {B} (f : EFI_SIMPLE_NETWORK_STATE → Eth B) s : (get_state ≫= f) s = f (State (SnpMode (ctx s))) s.
Proof. done. Qed.
Lemma bind_put {B} st (f : unit → Eth B) s :
  (put_state st ≫= f) s = f tt (with_ctx s (set_SnpMode (ctx s) (set_State (SnpMode (ctx s)) st))).
Proof. done. Qed.
Lemma reply_run {A} (f : A → Reply) (m : Eth A) s a s' : m s = Some (a, s') → reply f m s = Some (f a, s').
Proof. unfold reply. intros E. by rewrite (bind_run _ _ _ _ _ E). Qed.

Lemma inv_state s k : link_inv s k → State (SnpMode (ctx s)) = link_state k.
Proof. intros I. by rewrite (in_mode _ _ I). Qed.

(** A change of the mode, the counters and the hardware. *)
Lemma inv_update s k s' k' :
  link_inv s k →
  (∃ m st a, ctx s' = set_PhyAddr (set_Stats (set_SnpMode (ctx s) m) st) a) →
  words s' = words s → pages s' = pages s →
  SnpMode (ctx s') = k_mode k' → Stats (ctx s') = k_stats k' →
  k_wait k' = k_wait k → k_flight k' = k_flight k → k_pages k' = k_pages k → link_state k' = link_state k →
  length (k_stats k') = Z.to_nat STATS_COUNT → len (CurrentAddress (k_mode k')) = SIZEOF_EFI_MAC_ADDRESS →
  len (PermanentAddress (k_mode k')) = SIZEOF_EFI_MAC_ADDRESS → link_inv s' k'.
Proof.
  intros [W M St Pg Up Dn] (m & st & a & Ec) Ew Ep Em Es E1 E2 E3 E4 L1 L2 L3. rewrite Ec in *. cbn in Em, Es.
  constructor; rewrite ?Ec, ?Ew, ?Ep, ?E1, ?E2, ?E3, ?E4; try done.
  - destruct W. constructor; cbn; rewrite ?Em, ?Es; done.
  - intros X. destruct (Up X) as ([R1 R2 R3 R4] & Rr & Rt & Fl). split_and!; try done.
    constructor; rewrite ?Ec, ?Ep; done.
Qed.

(** A change to a state without an interface. *)
Lemma inv_down s s' k st :
  ctx_wf (ctx s') → st <> EfiSimpleNetworkInitialized →
  SnpMode (ctx s') = set_State (k_mode k) st → Stats (ctx s') = k_stats k → size (pages s') = k_pages k →
  link_inv s' (at_state k st).
Proof. intros W N M S P. constructor; done. Qed.

Lemma choice_any b d : choice_ok (mkChoice EFI_SUCCESS 0 b d).
Proof. split; [by left|]. cbn. unfold LINK_PAGES. lia. Qed.

Lemma wf_mode c m : ctx_wf c → CurrentAddress m = CurrentAddress (SnpMode c) →
  PermanentAddress m = PermanentAddress (SnpMode c) → ctx_wf (set_SnpMode c m).
Proof. intros [] E1 E2. constructor; cbn; rewrite ?E1, ?E2; done. Qed.

(** *** Lifecycle *)

Lemma answered_start s k : link_inv s k → answered OpStart s k.
Proof.
  intros I. pose proof (inv_state s k I) as St. unfold answered. exists (mkChoice EFI_SUCCESS 0 false false).
  cbn [snp_op link_call]. destruct (link_state k) eqn:E.
  1: { do 3 eexists. split; [apply choice_any|]. split; [|split; [reflexivity|]].
    - apply reply_run. unfold AlEthNextSnpStart. rewrite bind_state, St. reflexivity.
    - destruct I. apply (inv_down s); try done; [by apply wf_mode|]. cbn. by rewrite in_mode0. }
  all: do 3 eexists; (split; [apply choice_any|]); (split; [|split; [reflexivity|exact I]]);
    apply reply_run; unfold AlEthNextSnpStart; rewrite bind_state, St; reflexivity.
Qed.

Lemma answered_stop s k : link_inv s k → answered OpStop s k.
Proof.
  intros I. pose proof (inv_state s k I) as St. unfold answered. exists (mkChoice EFI_SUCCESS 0 false false).
  cbn [snp_op link_call]. destruct (link_state k) eqn:E.
  1: { do 3 eexists; (split; [apply choice_any|]); (split; [|split; [reflexivity|exact I]]);
    apply reply_run; unfold AlEthNextSnpStop; rewrite bind_state, St; reflexivity. }
  all: do 3 eexists; (split; [apply choice_any|]); (split; [|split; [reflexivity|]]);
    [apply reply_run; unfold AlEthNextSnpStop; rewrite bind_state, St; reflexivity|];
    destruct I; apply (inv_down s); try done; [by apply wf_mode|]; cbn; by rewrite in_mode0.
Qed.

(** The outcome of bringing the interface up, with nothing queued before. *)
Lemma inv_hw_init s k st s' :
  SnpMode (ctx s) = k_mode k → Stats (ctx s) = k_stats k → size (pages s) = k_pages k →
  hw_init_ok s st s' →
  ∃ ch k', choice_ok ch ∧ link_up_try ch k = (st, k') ∧ EFI_ERROR st = EFI_ERROR (ch_up ch) ∧
    ctx_wf (ctx s') ∧ SnpMode (ctx s') = k_mode k' ∧ Stats (ctx s') = k_stats k' ∧ size (pages s') = k_pages k' ∧
    k_wait k' = [] ∧ k_flight k' = 0 ∧ link_state k' = link_state k ∧
    (EFI_ERROR st = false → ring_ok s' ∧ TxBufInFlight (ctx s') = 0 ∧
       (∃ q C, rx_rep (rx_view (ctx s')) (words s') (pages s') q C []) ∧
       (∃ q P C, tx_rep (tx_view (ctx s')) (words s') q P C)).
Proof.
  intros M S P [W _ Es Out].
  destruct Out as [(-> & [b Em] & Fl & [q1 R1] & [q2 R2] & Rg & Sz)|(Est & Em & Sz)].
  - exists (mkChoice EFI_SUCCESS 0 b false). eexists. split; [apply choice_any|]. split; [reflexivity|]. cbn.
    rewrite Em, M. split_and!; try done; [congruence|lia|]. intros _. split; [done|]. split; [done|]. split; [by exists q1, 0|by exists q2, 0, 0].
  - exists (mkChoice st (size (pages s') - size (pages s)) false false). unfold link_up_try. cbn [ch_up ch_pages].
    assert (EFI_ERROR st = true) as E by (destruct Est as [-> | ->]; done). rewrite E. eexists.
    split. { split; [cbn; tauto|cbn; lia]. }
    split; [done|]. cbn. split_and!; try done; try congruence. lia.
Qed.

Lemma answered_initialize `{!EthHwLaws H} s k :
  link_inv s k → script_ok (pages s) (pg_script s) → answered OpInitialize s k.
Proof.
  intros I Sc. pose proof (inv_state s k I) as St. unfold answered. cbn [snp_op link_call].
  destruct (decide (link_state k = EfiSimpleNetworkStopped ∨ link_state k = EfiSimpleNetworkInitialized)) as [D|D].
  { exists (mkChoice EFI_SUCCESS 0 false false).
    destruct D as [D|D]; rewrite D in *; do 3 eexists; (split; [apply choice_any|]);
      (split; [|split; [reflexivity|exact I]]);
      apply reply_run; unfold AlEthNextSnpInitialize; rewrite bind_state, St; reflexivity. }
  destruct (HwInitialize_run s (in_wf _ _ I) Sc) as (st & s1 & E & Ok).
  destruct (inv_hw_init s k st s1) as (ch & k1 & C & Ek & Er & W & M & S & P & Kw & Kf & Ks & Up); try by destruct I.
  exists ch. 
  assert (AlEthNextSnpInitialize s = if EFI_ERROR st then Some (st, s1) else
    Some (EFI_SUCCESS, with_ctx s1 (set_SnpMode (ctx s1) (set_State (SnpMode (ctx s1)) EfiSimpleNetworkInitialized)))) as Ei.
  { unfold AlEthNextSnpInitialize. rewrite bind_state, St.
    rewrite !bool_decide_eq_false_2 by tauto. rewrite (bind_run _ _ _ _ _ E).
    destruct (EFI_ERROR st); [done|]. by rewrite bind_put. }
  assert (link_call ch OpInitialize k =
    (RepStatus st, if EFI_ERROR st then k1 else at_state k1 EfiSimpleNetworkInitialized)) as El.
  { unfold link_call. destruct (link_state k); try tauto; rewrite Ek; done. }
  cbn [link_call] in El. destruct (EFI_ERROR st) eqn:Ee.
  - do 3 eexists. split; [done|]. split; [apply reply_run, Ei|]. split; [exact El|]. constructor; try done.
    intros X. rewrite Ks in X. tauto.
  - assert (st = EFI_SUCCESS) as ->.
    { destruct C as [_ _]. destruct Ok as [_ _ _ [(-> & _)|([-> | ->] & _)]]; done. }
    do 3 eexists. split; [done|]. split; [apply reply_run, Ei|]. split; [exact El|].
    destruct (Up eq_refl) as (R & Fl & Rr & Rt). constructor; cbn; try done.
    + by apply wf_mode.
    + by rewrite M.
    + intros _. split; [by destruct R|]. done.
Qed.

Lemma inv_shutdown s k :
  link_inv s k → link_state k = EfiSimpleNetworkInitialized →
  ∃ s', AlEthHwShutdown s = Some (tt, s') ∧ ctx_wf (ctx s') ∧ SnpMode (ctx s') = k_mode k ∧
    Stats (ctx s') = k_stats k ∧ size (pages s') = (k_pages k - LINK_PAGES)%nat.
Proof.
  intros [W M St Pg Up _] X. destruct (Up X) as (R & (qr & C & Rr) & (qt & P & C' & Rt) & _).
  destruct (rr_q _ _ _ _ _ _ Rr) as [E1 Q1]. destruct (tr_q _ _ _ _ _ Rt) as [E2 Q2]. cbn in E1, Q1, E2, Q2.
  destruct (HwShutdown_run s qt) as (s' & E & Sz & _ & Em & Es & L1 & L2 & _); try done.
  { apply (rr_bufs _ _ _ _ _ _ Rr). }
  exists s'. split; [done|]. split; [|split_and!; [congruence..|lia]].
  destruct W. constructor; rewrite ?Em, ?Es; done.
Qed.

Lemma answered_shutdown s k : link_inv s k → answered OpShutdown s k.
Proof.
  intros I. pose proof (inv_state s k I) as St. unfold answered. exists (mkChoice EFI_SUCCESS 0 false false).
  cbn [snp_op link_call]. destruct (link_state k) eqn:E.
  - do 3 eexists. split; [apply choice_any|]. split; [|split; [reflexivity|exact I]].
    apply reply_run; unfold AlEthNextSnpShutdown; rewrite bind_state, St; reflexivity.
  - do 3 eexists. split; [apply choice_any|]. split; [|split; [reflexivity|]].
    + apply reply_run; unfold AlEthNextSnpShutdown; rewrite bind_state, St; reflexivity.
    + destruct I. apply (inv_down s); try done; [by apply wf_mode|]. cbn. by rewrite in_mode0.
  - destruct (inv_shutdown s k I E) as (s1 & Es & W & M & S & P).
    do 3 eexists. split; [apply choice_any|]. split; [|split; [reflexivity|]].
    + apply reply_run; unfold AlEthNextSnpShutdown; rewrite bind_state, St. cbn [bool_decide].
      rewrite (bool_decide_eq_true_2 (EfiSimpleNetworkInitialized = EfiSimpleNetworkInitialized)) by done.
      rewrite bool_decide_eq_false_2 by done. rewrite (bind_run _ _ _ _ _ Es), bind_put. reflexivity.
    + apply (inv_down s); try done; [by apply wf_mode|]. cbn. by rewrite M.
  - do 3 eexists. split; [apply choice_any|]. split; [|split; [reflexivity|]].
    + apply reply_run; unfold AlEthNextSnpShutdown; rewrite bind_state, St; reflexivity.
    + destruct I. apply (inv_down s); try done; [by apply wf_mode|]. cbn. by rewrite in_mode0.
Qed.

Lemma answered_reset `{!EthHwLaws H} s k : link_inv s k → env_ok OpReset s → answered OpReset s k.
Proof.
  intros I Env. pose proof (inv_state s k I) as St. unfold answered. cbn [snp_op].
  destruct (decide (link_state k = EfiSimpleNetworkInitialized)) as [D|D].
  2: { exists (mkChoice EFI_SUCCESS 0 false false). cbn [link_call].
    destruct (link_state k) eqn:E; try done; do 3 eexists; (split; [apply choice_any|]);
      (split; [|split; [reflexivity|exact I]]);
      apply reply_run; unfold AlEthNextSnpReset; rewrite bind_state, St; reflexivity. }
  destruct (inv_shutdown s k I D) as (s1 & Es1 & W1 & M1 & S1 & P1).
  destruct (HwInitialize_run s1 W1 (Env s1 Es1)) as (st & s2 & E & Ok).
  destruct (inv_hw_init s1 (mkLink (k_mode k) [] 0 (k_stats k) (k_pages k - LINK_PAGES)) st s2)
    as (ch & k1 & C & Ek & Er & W & M & S & P & Kw & Kf & Ks & Up); try done.
  exists ch.
  assert (AlEthNextSnpReset s = if EFI_ERROR st
    then Some (st, with_ctx s2 (set_SnpMode (ctx s2) (set_State (SnpMode (ctx s2)) EfiSimpleNetworkStarted)))
    else Some (EFI_SUCCESS, s2)) as Ei.
  { unfold AlEthNextSnpReset. rewrite bind_state, St, D.
    rewrite bool_decide_eq_false_2 by done. rewrite bool_decide_eq_true_2 by done. cbn [negb].
    rewrite (bind_run _ _ _ _ _ Es1), (bind_run _ _ _ _ _ E). by destruct (EFI_ERROR st). }
  assert (link_call ch OpReset k =
    (RepStatus st, if EFI_ERROR st then at_state k1 EfiSimpleNetworkStarted else k1)) as El.
  { unfold link_call. rewrite D, Ek. done. }
  destruct (EFI_ERROR st) eqn:Ee; do 3 eexists; (split; [done|]); (split; [apply reply_run, Ei|]).
  - split; [exact El|]. apply (inv_down s2); try done; [by apply wf_mode|]. cbn. by rewrite M.
  - assert (st = EFI_SUCCESS) as ->.
    { destruct Ok as [_ _ _ [(-> & _)|([-> | ->] & _)]]; done. }
    split; [exact El|]. destruct (Up eq_refl) as (R & Fl & Rr & Rt). constructor; try done.
    intros _. rewrite Kw, Kf. done.
Qed.

(** *** Calls on an initialized interface *)

(** The calls that are refused otherwise. *)
Definition io_op (op : SnpOp) : bool :=
  match op with OpStart | OpStop | OpInitialize | OpReset | OpShutdown => false | _ => true end.

Lemma answered_refused op s k :
  link_inv s k → io_op op = true → link_state k <> EfiSimpleNetworkInitialized → answered op s k.
Proof.
  intros I Io N. pose proof (inv_state s k I) as St.
  exists (mkChoice EFI_SUCCESS 0 false false), (link_refuse op (not_initialized (link_state k))), s, k.
  split; [apply choice_any|]. split.
  - destruct op; try done; cbn [snp_op link_refuse]; apply reply_run;
      unfold AlEthNextSnpReceiveFilters, AlEthNextSnpStationAddress, AlEthNextSnpStatistics, AlEthNextSnpGetStatus,
        AlEthNextSnpTransmit, AlEthNextSnpReceive, AlEthNextWaitForPacket;
      rewrite bind_state, St, bool_decide_eq_false_2 by done; reflexivity.
  - split; [|done]. unfold link_call. destruct op; try done; destruct (link_state k); done.
Qed.

(** One that is not: it is enough to run it from an initialized interface. *)
Lemma answered_io ch op s k :
  io_op op = true → link_state k = EfiSimpleNetworkInitialized → choice_ok ch →
  (∃ r s' k', snp_op op s = Some (r, s') ∧ link_io ch op k = (r, k') ∧ link_inv s' k') → answered op s k.
Proof.
  intros Io D C (r & s' & k' & E & L & I). exists ch, r, s', k'. split_and!; try done.
  unfold link_call. rewrite D. by destruct op.
Qed.

Ltac initialized I D :=
  rewrite bind_state, (inv_state _ _ I), D;
  rewrite (bool_decide_eq_true_2 (EfiSimpleNetworkInitialized = EfiSimpleNetworkInitialized)) by done;
  cbn [negb].

Lemma answered_filters e d s k :
  link_inv s k → link_state k = EfiSimpleNetworkInitialized → answered (OpReceiveFilters e d) s k.
Proof.
  intros I D. apply (answered_io (mkChoice EFI_SUCCESS 0 false false)); try done; [apply choice_any|].
  do 3 eexists. split; [|split; [reflexivity|]].
  - apply reply_run. unfold AlEthNextSnpReceiveFilters. initialized I D.
    rewrite bind_get, bind_set, bind_mac. unfold MacWrite32. unfold mbind, Eth_bind. reflexivity.
  - pose proof (in_wf _ _ I) as W. destruct W as [_ _ W1 W2 W3].
    apply (inv_update s k); try done; cbn; rewrite <- ?(in_mode _ _ I), <- ?(in_stats _ _ I); try done.
    do 3 eexists. cbn. reflexivity.
Qed.

Lemma answered_station r n s k :
  link_inv s k → link_state k = EfiSimpleNetworkInitialized → call_ok (OpStationAddress r n) →
  answered (OpStationAddress r n) s k.
Proof.
  intros I D P. apply (answered_io (mkChoice EFI_SUCCESS 0 false false)); try done; [apply choice_any|].
  pose proof (in_wf _ _ I) as W. destruct W as [_ _ W1 W2 W3].
  set (a := if r then PermanentAddress (SnpMode (ctx s))
            else match n with Some n => take (Z.to_nat SIZEOF_EFI_MAC_ADDRESS) n | None => CurrentAddress (SnpMode (ctx s)) end).
  assert (len a = SIZEOF_EFI_MAC_ADDRESS) as La.
  { unfold a. destruct r; [done|]. destruct n as [n|]; [|done]. cbn in P. rewrite length_take.
    unfold SIZEOF_EFI_MAC_ADDRESS in *. lia. }
  set (s1 := with_ctx s (set_SnpMode (ctx s) (set_address (SnpMode (ctx s)) a))).
  destruct (keeps_mac_addr_store (EcBase (ctx s)) a) with (s := s1) as ([] & s2 & E & [(x & Ec) Ew Ep _]).
  { unfold SIZEOF_EFI_MAC_ADDRESS in La. lia. }
  do 3 eexists. split; [|split; [reflexivity|]].
  - apply reply_run. unfold AlEthNextSnpStationAddress. initialized I D. rewrite bind_get.
    assert ((if r then Some (PermanentAddress (SnpMode (ctx s)))
             else match n with Some n => rdn n 0 SIZEOF_EFI_MAC_ADDRESS
                             | None => Some (CurrentAddress (SnpMode (ctx s))) end) = Some a) as ->.
    { unfold a. destruct r; [done|]. destruct n as [n|]; [|done]. cbn in P.
      unfold SIZEOF_EFI_MAC_ADDRESS in *. rewrite rdn_eq by lia. done. }
    rewrite bind_lift, bind_set. fold s1. rewrite (bind_run _ _ _ _ _ E). reflexivity.
  - apply (inv_update s k); try done; cbn; rewrite ?Ec, ?Ew, ?Ep, <- ?(in_mode _ _ I), <- ?(in_stats _ _ I); try done.
    eexists _, _, x. reflexivity.
Qed.

Lemma answered_statistics r n t s k :
  link_inv s k → link_state k = EfiSimpleNetworkInitialized → call_ok (OpStatistics r n t) →
  answered (OpStatistics r n t) s k.
Proof.
  intros I D P. apply (answered_io (mkChoice EFI_SUCCESS 0 false false)); try done; [apply choice_any|].
  pose proof (in_wf _ _ I) as W. destruct W as [_ _ W1 W2 W3]. rewrite (in_mode _ _ I) in W2, W3.
  set (st := if r then repeat 0 (Z.to_nat STATS_COUNT) else Stats (ctx s)).
  assert (length st = Z.to_nat STATS_COUNT) as Ls by (unfold st; destruct r; [apply repeat_length|done]).
  set (s1 := with_ctx s (set_Stats (ctx s) st)).
  assert ((if r then set_ctx (set_Stats (ctx s) (repeat 0 (Z.to_nat STATS_COUNT))) else mret tt) s = Some (tt, s1)) as E1.
  { unfold s1, st. destruct r; [done|]. cbn. unfold with_ctx, mret, Eth_ret. do 2 f_equal. destruct s as [c]. by destruct c. }
  assert (link_inv s1 (mkLink (k_mode k) (k_wait k) (k_flight k)
            (if r then repeat 0 (Z.to_nat STATS_COUNT) else k_stats k) (k_pages k))) as I1.
  { apply (inv_update s k); try done; cbn; rewrite <- ?(in_stats _ _ I); try done.
    - exists (SnpMode (ctx s)), st, (PhyAddr (ctx s)). by destruct (ctx s).
    - apply (in_mode _ _ I). }
  do 3 eexists. split; [|split; [reflexivity|exact I1]].
  apply reply_run. unfold AlEthNextSnpStatistics. initialized I D. rewrite bind_get, (bind_run _ _ _ _ _ E1).
  destruct n as [n|]; [|done]. destruct t as [t|]; [|done]. cbn in P.
  destruct (Z.ltb_spec n SIZEOF_EFI_NETWORK_STATISTICS) as [L|L]; [done|].
  rewrite bind_get. change (Stats (ctx s1)) with st. unfold SIZEOF_EFI_NETWORK_STATISTICS, STATS_COUNT in *.
  rewrite wrn_0 by (rewrite Ls; lia). rewrite bind_lift. unfold st. by rewrite (in_stats _ _ I).
Qed.

(** The end of GetStatus, whatever is in flight. *)
Lemma get_status_tail (i : option Z) (u : option Z) s k :
  link_inv s k →
  ∃ m s', (RgmiiStat ← MacRead32 MAC_GEN_RGMII_STAT; c ← get_ctx;
           _ ← set_ctx (set_SnpMode c (set_media (SnpMode c) (link_up RgmiiStat)));
           mret (EFI_SUCCESS, i, u)) s = Some ((EFI_SUCCESS, i, u), s') ∧
    link_inv s' (mkLink (set_media (k_mode k) m) (k_wait k) (k_flight k) (k_stats k) (k_pages k)).
Proof.
  intros I. pose proof (in_wf _ _ I) as W. destruct W as [_ _ W1 W2 W3]. rewrite (in_mode _ _ I) in W2, W3.
  rewrite bind_mac, bind_get, bind_set. do 2 eexists. split; [reflexivity|].
  apply (inv_update s k); try done; cbn; rewrite <- ?(in_stats _ _ I); try done.
  - do 3 eexists. cbn. reflexivity.
  - by rewrite (in_mode _ _ I).
Qed.

(** An operation of the transmit side. *)
Lemma inv_tx s k s' k' :
  link_inv s k → link_state k = EfiSimpleNetworkInitialized → tx_same s s' →
  SnpMode (ctx s') = SnpMode (ctx s) → k_mode k' = k_mode k →
  Stats (ctx s') = k_stats k' → length (k_stats k') = Z.to_nat STATS_COUNT →
  k_wait k' = k_wait k → k_pages k' = k_pages k →
  (∃ q P C, tx_rep (tx_view (ctx s')) (words s') q P C) → TxBufInFlight (ctx s') = k_flight k' → link_inv s' k'.
Proof.
  intros [W M St Pg Up _] D [Vr Ch Ep _ (_ & _ & _ & Dp)] Em Ek Es Ls E1 E2 Rt Fl.
  destruct (Up D) as ([R1 R2 R3 R4] & (q & C & Rr) & _).
  pose proof (f_equal v_base Vr) as Vb. pose proof (f_equal v_bufs Vr) as Vbu. pose proof (f_equal v_phys Vr) as Vp.
  cbn in Vb, Vbu, Vp. constructor.
  - destruct W. constructor; rewrite ?Em, ?Vbu, ?Vp; try done. by rewrite Es.
  - congruence.
  - done.
  - congruence.
  - intros _. split; [|split; [|done]].
    + constructor; rewrite ?Dp, ?Vb, ?Vp, ?Ep; done.
    + exists q, C. rewrite E1, Ep, Vr. apply (rx_rep_words _ (words s)); [done| |].
      * intros a Ha. apply (proj1 Ch). cbn in Ha. lia.
      * intros a. apply (proj2 Ch).
  - intros N. unfold link_state in *. rewrite Ek in N. done.
Qed.

Definition flight_of k (ch : CHOICE) : Z := if ch_done ch then 0 else k_flight k.

(** Reclaiming, when there is something to reclaim. *)
Lemma inv_reclaim s k :
  link_inv s k → link_state k = EfiSimpleNetworkInitialized → k_flight k <> 0 →
  (∀ q P C, tx_rep (tx_view (ctx s)) (words s) q P C → crhp_ok q (hw s) P C) →
  ∃ n s1, comp_tx_get s = Some (n, s1) ∧ TxBufInFlight (ctx s1) = TxBufInFlight (ctx s) ∧
    link_inv (if 0 <? n then with_ctx s1 (set_TxBufInFlight (ctx s1) 0) else s1)
      (mkLink (k_mode k) (k_wait k) (if 0 <? n then 0 else k_flight k) (k_stats k) (k_pages k)).
Proof.
  intros I D NB Env. destruct (in_up _ _ I D) as (_ & _ & (q & P & C & Rt) & Fl).
  assert (length (k_stats k) = Z.to_nat STATS_COUNT) as Ls by (rewrite <- (in_stats _ _ I); apply (in_wf _ _ I)).
  destruct (reclaim_run s q P C Rt) as (n & s1 & E & En & _ & _ & Sm & Ew & Em & Es & Ef & q' & _ & _ & T);
    [by rewrite Fl|by apply Env|].
  pose proof (tr_flight _ _ _ _ _ Rt) as Pf. cbn in Pf. rewrite Fl in Pf.
  destruct (Z.eqb_spec (k_flight k) 0); [done|].
  exists n, s1. split; [done|]. split; [done|]. destruct (Z.ltb_spec 0 n) as [L|L].
  - apply (inv_tx s k); try done.
    + destruct Sm. by constructor.
    + cbn. by rewrite Es, (in_stats _ _ I).
    + do 3 eexists. apply (T 0). change (0 =? 0) with true. cbv iota. lia.
  - apply (inv_tx s k); try done.
    + cbn. by rewrite Es, (in_stats _ _ I).
    + do 3 eexists. assert (set_TxBufInFlight (ctx s1) (k_flight k) = ctx s1) as <-.
      { rewrite <- Fl, <- Ef. by destruct (ctx s1). }
      apply (T (k_flight k)). destruct (Z.eqb_spec (k_flight k) 0); [done|]. lia.
    + cbn. congruence.
Qed.

Lemma answered_get_status i t s k :
  link_inv s k → link_state k = EfiSimpleNetworkInitialized → env_ok (OpGetStatus i t) s →
  answered (OpGetStatus i t) s k.
Proof.
  intros I D Env. cbn in Env. pose proof (in_up _ _ I D) as (_ & _ & _ & Fl).
  destruct (decide (t = true ∧ k_flight k <> 0)) as [[-> NB]|N].
  - destruct (inv_reclaim s k I D NB Env) as (n & s1 & E & Ef & I1).
    set (s2 := if 0 <? n then _ else _) in I1. set (k2 := mkLink _ _ _ _ _) in I1.
    destruct (get_status_tail (if i then Some 0 else None)
                (Some (if 0 <? n then k_flight k else 0)) s2 k2 I1) as (m & s' & E' & I').
    apply (answered_io (mkChoice EFI_SUCCESS 0 m (0 <? n))); try done; [apply choice_any|].
    do 3 eexists. split; [|split; [reflexivity|exact I']].
    apply reply_run. unfold AlEthNextSnpGetStatus. initialized I D. cbv zeta.
    erewrite (bind_run _ _ s (Some (if 0 <? n then k_flight k else 0)) s2); [exact E'|]. rewrite bind_get, Fl.
    destruct (Z.eqb_spec (k_flight k) 0); [done|]. cbn [negb]. rewrite (bind_run _ _ _ _ _ E). unfold s2.
    destruct (0 <? n); [|done]. rewrite bind_get, bind_set, Ef, Fl. reflexivity.
  - destruct (get_status_tail (if i then Some 0 else None) (if t then Some 0 else None) s k I) as (m & s' & E' & I').
    apply (answered_io (mkChoice EFI_SUCCESS 0 m false)); try done; [apply choice_any|].
    do 3 eexists. split; [|split; [reflexivity|]].
    2: { cbn [ch_done ch_media]. rewrite andb_false_r. exact I'. }
    apply reply_run. unfold AlEthNextSnpGetStatus. initialized I D. cbv zeta. cbn [ch_done].
    erewrite (bind_run _ _ s (if t then Some 0 else None) s); [exact E'|]. destruct t; [|done]. rewrite bind_get, Fl.
    destruct (Z.eqb_spec (k_flight k) 0); [done|tauto].
Qed.

Lemma tx_rep_words v m m' q P C :
  tx_rep v m q P C → (∀ a, is_Some (m !! a) ↔ is_Some (m' !! a)) → tx_rep v m' q P C.
Proof. intros [Q F S Fl Dm] M. constructor; try done. intros n k Hk. by apply M, Dm. Qed.

(** The rest of Transmit, with nothing in flight. *)
Lemma inv_build hs bs addr data src dst pr s k :
  link_inv s k → link_state k = EfiSimpleNetworkInitialized → k_flight k = 0 → tx_call addr data src dst →
  ∃ r s' k', tx_build hs bs addr data src dst pr s = Some (r, s') ∧ link_inv s' k' ∧
    (RepTransmit r, k') =
      if tx_header_ok (MediaHeaderSize (k_mode k)) hs dst pr then
        (RepTransmit (EFI_SUCCESS, Some (tx_bytes (CurrentAddress (k_mode k)) hs src dst pr data)),
         mkLink (k_mode k) (k_wait k) addr (bump 11 (k_stats k)) (k_pages k))
      else (RepTransmit (EFI_INVALID_PARAMETER, Some data), k).
Proof.
  intros I D F0 Cl. destruct (in_up _ _ I D) as (_ & _ & (q & P & C & Rt) & Fl). rewrite F0 in Fl.
  pose proof (in_wf _ _ I) as W. pose proof W as [_ _ W1 W2 W3].
  destruct (build_run s q P C hs bs addr data src dst pr Rt Fl Cl) as [(Hk & E)|(Hk & s' & E & _ & _ & Sm & Ef & Em & Es & Rt')];
    [unfold SIZEOF_EFI_MAC_ADDRESS in W2; lia|done| |]; rewrite (in_mode _ _ I) in *; rewrite Hk.
  - by do 3 eexists.
  - do 3 eexists. split; [exact E|]. split; [|reflexivity].
    apply (inv_tx s k); try done.
    + by rewrite Em, (in_mode _ _ I).
    + cbn. by rewrite Es, (in_stats _ _ I).
    + cbn. unfold bump. rewrite length_insert, <- (in_stats _ _ I). done.
    + by do 3 eexists.
Qed.

Lemma answered_transmit hs bs b src dst pr s k :
  link_inv s k → link_state k = EfiSimpleNetworkInitialized →
  call_ok (OpTransmit hs bs b src dst pr) → env_ok (OpTransmit hs bs b src dst pr) s →
  answered (OpTransmit hs bs b src dst pr) s k.
Proof.
  intros I D Cl Env. cbn in Env. destruct b as [[addr data]|].
  2: { apply (answered_io (mkChoice EFI_SUCCESS 0 false false)); try done; [apply choice_any|].
    do 3 eexists. split; [|split; [reflexivity|exact I]].
    apply reply_run. unfold AlEthNextSnpTransmit. initialized I D. reflexivity. }
  cbn in Cl. pose proof (in_up _ _ I D) as (_ & _ & _ & Fl).
  assert (∀ r s', (if bs <? MediaHeaderSize (SnpMode (ctx s)) then mret (EFI_BUFFER_TOO_SMALL, Some data)
    else busy ← tx_reclaim; if busy : bool then mret (EFI_NOT_READY, Some data)
         else tx_build hs bs addr data src dst pr) s = Some (r, s') →
    snp_op (OpTransmit hs bs (Some (addr, data)) src dst pr) s = Some (RepTransmit r, s')) as Run.
  { intros r s' E. apply reply_run. unfold AlEthNextSnpTransmit. initialized I D. by rewrite bind_get. }
  rewrite (in_mode _ _ I) in Run.
  destruct (bs <? MediaHeaderSize (k_mode k)) eqn:Lb.
  { apply (answered_io (mkChoice EFI_SUCCESS 0 false false)); try done; [apply choice_any|].
    do 3 eexists. split; [by apply Run|]. split; [|exact I]. cbn [link_io]. by rewrite Lb. }
  destruct (decide (k_flight k = 0)) as [F0|F0].
  - destruct (inv_build hs bs addr data src dst pr s k I D F0 Cl) as (r & s' & k' & E & I' & Er).
    apply (answered_io (mkChoice EFI_SUCCESS 0 false false)); try done; [apply choice_any|].
    exists (RepTransmit r), s', k'. split; [|split; [|exact I']].
    + apply Run. rewrite (bind_run tx_reclaim _ s false s); [exact E|]. unfold tx_reclaim. rewrite bind_get, Fl, F0. done.
    + cbn [link_io]. rewrite Lb, F0. change (0 =? 0) with true. cbn [negb andb]. rewrite Er.
      destruct (tx_header_ok _ _ _ _); [done|]. do 2 f_equal. destruct k. cbn in F0. by subst.
  - destruct (inv_reclaim s k I D F0 Env) as (n & s1 & E1 & Ef & I1).
    assert (tx_reclaim s = Some (negb (0 <? n), if 0 <? n then with_ctx s1 (set_TxBufInFlight (ctx s1) 0) else s1)) as Et.
    { unfold tx_reclaim. rewrite bind_get, Fl. destruct (Z.eqb_spec (k_flight k) 0); [done|]. cbn [negb].
      rewrite (bind_run _ _ _ _ _ E1). by destruct (0 <? n). }
    apply (answered_io (mkChoice EFI_SUCCESS 0 false (0 <? n))); try done; [apply choice_any|].
    cbn [link_io ch_done]. rewrite Lb. destruct (Z.eqb_spec (k_flight k) 0); [done|]. cbn [negb andb].
    destruct (0 <? n); cbn [negb] in *.
    + match type of I1 with link_inv ?x ?y =>
        destruct (inv_build hs bs addr data src dst pr x y I1 D eq_refl Cl) as (r & s' & k' & E & I' & Er) end.
      exists (RepTransmit r), s', k'. split; [|split; [|exact I']].
      * apply Run. by rewrite (bind_run _ _ _ _ _ Et).
      * rewrite Er. by destruct (tx_header_ok _ _ _ _).
    + do 3 eexists. split; [|split; [reflexivity|]].
      * apply Run. by rewrite (bind_run _ _ _ _ _ Et).
      * revert I1. by destruct k.
Qed.

Lemma answered_receive p s k :
  link_inv s k → link_state k = EfiSimpleNetworkInitialized → call_ok (OpReceive p) → answered (OpReceive p) s k.
Proof.
  intros I D Cl. apply (answered_io (mkChoice EFI_SUCCESS 0 false false)); try done; [apply choice_any|].
  pose proof (inv_state s k I) as St. rewrite D in St.
  destruct (in_up _ _ I D) as (Rg & (q & C & Rr) & (qt & P & C' & Rt) & Fl).
  pose proof (in_wf _ _ I) as W. pose proof W as [W0 W00 W1 W2 W3].
  destruct (decide (o_Buffer p = None ∨ o_BufferSize p = None)) as [N|N].
  { exists (RepReceive (EFI_INVALID_PARAMETER, p)), s, k. split; [|split; [|exact I]].
    - apply reply_run. unfold AlEthNextSnpReceive. initialized I D.
      destruct (o_Buffer p), (o_BufferSize p); try done. by destruct N.
    - cbn [link_io]. destruct (o_Buffer p), (o_BufferSize p), (k_wait k); try done; by destruct N. }
  destruct Cl as [Cl|[Cl|[n Cl]]]; [tauto|tauto|].
  pose proof Cl as [En (b & Eb & _) _ _]. cbn [link_io]. rewrite En, Eb.
  destruct (k_wait k) as [|f fs] eqn:Ew.
  - destruct (receive_empty p n s q C St Rr Cl)
      as (s' & E & Vr & Vt & _ & Ewd & Ep & Esc & Em & Es & Bm & Be & Bu & Dp).
    do 3 eexists. split; [apply reply_run, E|]. split; [reflexivity|].
    apply (inv_tx s k); try done.
    + constructor; try done. by rewrite Ewd.
    + rewrite Es. apply (in_stats _ _ I).
    + by rewrite <- (in_stats _ _ I).
    + rewrite Vt, Ewd. by exists qt, P, C'.
    + rewrite <- Fl. exact (f_equal v_flight Vt).
  - destruct (receive_step p n s q C f fs St Rr Cl W1) as (s' & E & [Rr' Ep _ Vt Ch Em Es (_ & _ & _ & Dp) Vp] & _).
    do 3 eexists. split; [apply reply_run, E|]. rewrite (in_mode _ _ I). split; [reflexivity|].
    rewrite (in_stats _ _ I) in Es.
    pose proof (f_equal v_tbase Vt) as Vb. cbn in Vb.
    pose proof (rr_bufs _ _ _ _ _ _ Rr') as [B1 B2 _ _]. cbn in B1, B2.
    assert (length (k_stats k) = Z.to_nat STATS_COUNT) as Ls by (by rewrite <- (in_stats _ _ I)).
    constructor.
    + constructor; rewrite ?Em, ?Es; try done; [by rewrite B1|]. destruct (delivered n f); [|done].
      unfold bump. by rewrite length_insert.
    + rewrite Em. apply (in_mode _ _ I).
    + exact Es.
    + rewrite Ep. apply (in_pages _ _ I).
    + intros _. split; [|split; [by do 2 eexists|split]].
      * destruct Rg as [G1 G2 G3 G4]. constructor; rewrite ?Dp, ?Vb, ?Ep; try done.
        by rewrite Vp.
      * rewrite Vt. exists qt, P, C'. apply (tx_rep_words _ (words s)); [done|apply (proj2 Ch)].
      * rewrite <- Fl. exact (f_equal v_flight Vt).
    + intros X. by destruct (X D).
Qed.

Lemma answered_wait s k :
  link_inv s k → link_state k = EfiSimpleNetworkInitialized → answered OpWaitForPacket s k.
Proof.
  intros I D. apply (answered_io (mkChoice EFI_SUCCESS 0 false false)); try done; [apply choice_any|].
  destruct (in_up _ _ I D) as (_ & (q & C & Rr) & _).
  pose proof Rr as [[E0 Q0] F S Rc _ _ _ L Dn St _ _]. cbn in E0, Q0.
  exists (RepSignal (negb (bool_decide (k_wait k = [])))), s, k. split; [|split; [done|exact I]].
  apply reply_run. unfold AlEthNextWaitForPacket. initialized I D. rewrite bind_get, E0.
  rewrite (bind_run _ _ _ _ _ (get_q_rx s q E0 Q0)). rewrite (bind_run get_words _ s (words s) s eq_refl).
  assert (al_udma_cdesc_idx_to_ptr q (next_cdesc_idx q) = slot q C) as ->.
  { unfold al_udma_cdesc_idx_to_ptr, slot. by rewrite (comp_ack _ _ _ _ Rc). }
  assert (∀ w, al_udma_new_cdesc q w = (ring_bits w =? rid AL_ETH_DESCS_PER_Q C)) as New.
  { intros w. unfold al_udma_new_cdesc. by rewrite (comp_rid _ _ _ _ Rc), (cfg_size _ _ F). }
  unfold ld32. destruct (k_wait k) as [|f fs] eqn:Ew.
  - destruct (St C) as (w & Eq & N).
    { cbn. unfold AL_ETH_DESCS_PER_Q. lia. }
    rewrite Eq, bind_lift, New. by destruct (Z.eqb_spec (ring_bits w) (rid AL_ETH_DESCS_PER_Q C)).
  - destruct (Dn 0%nat f eq_refl) as [E1 _ _ _ Er _ _ _]. rewrite Z.add_0_r in *.
    rewrite E1, bind_lift, New, Er. by rewrite Z.eqb_refl.
Qed.

Lemma call_answered `{!EthHwLaws H} op s k :
  link_inv s k → call_ok op → env_ok op s → answered op s k.
Proof.
  intros I Cl Env. destruct (io_op op) eqn:Io.
  - destruct (decide (link_state k = EfiSimpleNetworkInitialized)) as [D|N]; [|by apply answered_refused].
    destruct op; try done.
    + by apply answered_filters.
    + by apply answered_station.
    + by apply answered_statistics.
    + by apply answered_get_status.
    + by apply answered_transmit.
    + by apply answered_receive.
    + by apply answered_wait.
  - destruct op; try done.
    + by apply answered_start.
    + by apply answered_stop.
    + by apply answered_initialize.
    + by apply answered_reset.
    + by apply answered_shutdown.
Qed.

Lemma arrive_inv f s k s' :
  link_inv s k → arrives f s s' →
  link_step k (Arrive f) (mkLink (k_mode k) (k_wait k ++ [f])%list (k_flight k) (k_stats k) (k_pages k)) ∧
  link_inv s' (mkLink (k_mode k) (k_wait k ++ [f])%list (k_flight k) (k_stats k) (k_pages k)).
Proof.
  intros I [Up [Fl Fd] Ec Es (q' & C' & fs & d & p & Rr' & Lt & Rb & Ed & Ep & Ew & Epg)].
  rewrite (in_mode _ _ I) in Up. destruct (in_up _ _ I Up) as (Rg & (q & C & Rr) & (qt & P & D & Rt) & Ft).
  destruct (rx_rep_unique _ _ _ _ _ _ _ _ _ Rr Rr') as [-> ->].
  split; [by apply link_step_arrive|].
  pose proof (rx_rep_arrive _ _ _ _ _ _ f d p Rr' Lt Fl Fd Rb Ed Ep) as R2.
  assert (∀ a, is_Some (words s !! a) ↔ is_Some (words s' !! a)) as Mp.
  { rewrite Ew. intros a. apply (put_completion_changes _ _ f). apply (rr_cmap _ _ _ _ _ _ Rr'). }
  constructor; rewrite ?Ec; try apply I.
  - cbn. rewrite Epg, map_size_insert, Ep. cbn. apply (in_pages _ _ I).
  - intros _. split; [|split; [|split; [|done]]].
    + destruct Rg as [G1 G2 G3 G4]. constructor; rewrite ?Ec; try done. rewrite Epg.
      destruct (decide (d_ptr d = DescRingBase (ctx s))) as [->|N]; [by rewrite lookup_insert_eq; eexists|].
      by rewrite lookup_insert_ne.
    + exists q, C'. rewrite Ew, Epg. exact R2.
    + exists qt, P, D. by apply (tx_rep_words _ (words s)).
  - intros N. by destruct (N Up).
Qed.

Lemma tick_inv h s k : link_inv s k → link_inv (with_hw s h) k.
Proof. intros [W M S P Up Dn]. constructor; try done. intros X. destruct (Up X) as ([] & ?). done. Qed.
End Inv.

(** ** Runs *)

Section Runs.
Context {H : Type} `{EthHw H}.

Inductive snp_steps : ETH H → list label → ETH H → Prop :=
  | snp_nil s : snp_steps s [] s
  | snp_cons s l s1 tr s2 : snp_step s l s1 → snp_steps s1 tr s2 → snp_steps s (l :: tr) s2.
End Runs.

Inductive link_steps : LINK → list label → LINK → Prop :=
  | link_nil k : link_steps k [] k
  | link_cons k l k1 tr k2 : link_step k l k1 → link_steps k1 tr k2 → link_steps k (l :: tr) k2.

(** The frames that arrive in a run. *)
Definition arrived (tr : list label) : list frame :=
  omap (λ l, match l with Arrive f => Some f | _ => None end) tr.

(** The Receive calls of a run whose answer is not EFI_NOT_READY, with the
    size of the caller's buffer. *)
Definition receives (tr : list label) : list (Z * RxOut * (EFI_STATUS * RxOut)) :=
  omap (λ l, match l with
             | Call (OpReceive p) (RepReceive r) =>
                 match o_Buffer p, o_BufferSize p with
                 | Some _, Some n => if bool_decide (fst r = EFI_NOT_READY) then None else Some (n, p, r)
                 | _, _ => None
                 end
             | _ => None
             end) tr.

(** A call that transmits the buffer [b], and a GetStatus that reports it. *)
Definition sends (b : Z) (l : label) : bool :=
  match l with
  | Call (OpTransmit _ _ (Some (a, _)) _ _ _) (RepTransmit (st, _)) => (a =? b) && bool_decide (st = EFI_SUCCESS)
  | _ => false
  end.
Definition recycles (b : Z) (l : label) : bool :=
  match l with
  | Call (OpGetStatus _ _) (RepGetStatus (_, _, Some a)) => a =? b
  | _ => false
  end.

(** How often a run does. *)
Fixpoint times (P : label → bool) (tr : list label) : Z :=
  match tr with [] => 0 | l :: tr => (if P l then 1 else 0) + times P tr end.

Section Theorems.
Context {H : Type} `{EthHwLaws H}.
Implicit Types s : ETH H.

Lemma step_sim s k l s' : link_inv s k → snp_step s l s' → ∃ k', link_step k l k' ∧ link_inv s' k'.
Proof.
  intros I St. destruct St as [op r s s' Cl Env E|f s s' A|h s].
  - destruct (call_answered op s k I Cl Env) as (ch & r' & s1 & k1 & C & E' & L & I1).
    rewrite E in E'. injection E' as <- <-. exists k1. split; [|done]. by apply (link_step_call ch).
  - eexists. exact (arrive_inv f s k s' I A).
  - exists k. split; [constructor|]. by apply tick_inv.
Qed.

Lemma steps_sim s k tr s' : link_inv s k → snp_steps s tr s' → ∃ k', link_steps k tr k' ∧ link_inv s' k'.
Proof.
  intros I St. revert k I. induction St as [s|s l s1 tr s2 S1 _ IH]; intros k I.
  - exists k. split; [constructor|done].
  - destruct (step_sim s k l s1 I S1) as (k1 & L1 & I1). destruct (IH k1 I1) as (k2 & L2 & I2).
    exists k2. split; [|done]. by econstructor.
Qed.
End Theorems.

(** *** What the specification does over a run *)

Definition lifecycle (l : label) : bool := match l with Call op _ => negb (io_op op) | _ => false end.

Lemma link_step_fifo k l k' :
  link_state k = EfiSimpleNetworkInitialized → lifecycle l = false → link_step k l k' →
  link_state k' = EfiSimpleNetworkInitialized ∧ MediaHeaderSize (k_mode k') = MediaHeaderSize (k_mode k) ∧
  ∃ ts, (k_wait k ++ arrived [l])%list = (ts ++ k_wait k')%list ∧
    Forall2 (λ x f, snd x = rx_answer (MediaHeaderSize (k_mode k)) (fst (fst x)) (snd (fst x)) f)
      (receives [l]) (filter (λ f, rx_error (f_ctrl f) = false) ts).
Proof.
  intros D Lf St. destruct St as [ch op k r k' C E|f k _ _|k].
  2: { split_and!; try done. exists []. split; [done|constructor]. }
  2: { split_and!; try done. exists []. cbn. by rewrite app_nil_r. }
  unfold link_call in E. rewrite D in E. cbn in Lf. unfold arrived. cbn [omap list_omap]. rewrite app_nil_r.
  destruct op as [| | | | |e d|rs n|rs n t|i t|hs bs [[a data]|] src dst pr|p|]; try done; cbn [link_io] in E.
  all: try (injection E as <- <-; split_and!; try done; exists []; split; [done|constructor]).
  - destruct (bs <? _); [injection E as <- <-; split_and!; try done; exists []; split; [done|constructor]|].
    destruct (_ && _); [injection E as <- <-; split_and!; try done; exists []; split; [done|constructor]|].
    destruct (tx_header_ok _ _ _ _); injection E as <- <-; split_and!; try done; exists []; (split; [done|constructor]).
  - unfold receives. cbn [omap list_omap].
    destruct (o_Buffer p) as [b|]; [|injection E as <- <-; split_and!; try done; exists []; split; [done|constructor]].
    destruct (o_BufferSize p) as [n|]; [|injection E as <- <-; split_and!; try done; exists []; split; [done|constructor]].
    destruct (k_wait k) as [|f fs] eqn:Ew.
    { injection E as <- <-. split_and!; try done. exists []. rewrite Ew. split; [done|constructor]. }
    injection E as <- <-. split_and!; try done. exists [f]. split; [done|].
    unfold rx_answer. destruct (rx_error (f_ctrl f)) eqn:Ee.
    + rewrite filter_cons_False by (rewrite Ee; done). constructor.
    + rewrite filter_cons_True by done. rewrite filter_nil.
      assert (∀ x : EFI_STATUS * RxOut, bool_decide (x.1 = EFI_NOT_READY) = false →
        x = rx_answer (MediaHeaderSize (k_mode k)) n p f →
        Forall2 (λ x f, snd x = rx_answer (MediaHeaderSize (k_mode k)) (fst (fst x)) (snd (fst x)) f)
         (match (if bool_decide (x.1 = EFI_NOT_READY) then None else Some (n, p, x)) with Some y => [y] | None => [] end) [f]) as X.
      { intros x Nx Ex. rewrite Nx. by repeat constructor. }
      unfold rx_answer in X. rewrite Ee in X.
      destruct (bad_len f); [by apply X|]. destruct (n <? f_len f); by apply X.
Qed.

Lemma link_steps_fifo k tr k' :
  link_state k = EfiSimpleNetworkInitialized → forallb (λ l, negb (lifecycle l)) tr = true → link_steps k tr k' →
  ∃ ts, (k_wait k ++ arrived tr)%list = (ts ++ k_wait k')%list ∧
    Forall2 (λ x f, snd x = rx_answer (MediaHeaderSize (k_mode k)) (fst (fst x)) (snd (fst x)) f)
      (receives tr) (filter (λ f, rx_error (f_ctrl f) = false) ts).
Proof.
  intros D Lf St. induction St as [k|k l k1 tr k2 S1 _ IH].
  - exists []. cbn. rewrite app_nil_r. split; [done|constructor].
  - cbn in Lf. apply andb_true_iff in Lf as [L1 L2]. apply negb_true_iff in L1.
    destruct (link_step_fifo k l k1 D L1 S1) as (D1 & Eh & ts1 & E1 & F1).
    destruct (IH D1 L2) as (ts2 & E2 & F2). exists (ts1 ++ ts2)%list.
    assert (arrived (l :: tr) = (arrived [l] ++ arrived tr)%list) as -> by (unfold arrived; by rewrite <- omap_app).
    assert (receives (l :: tr) = (receives [l] ++ receives tr)%list) as -> by (unfold receives; by rewrite <- omap_app).
    split.
    + rewrite app_assoc, E1, <- !app_assoc. by rewrite E2.
    + rewrite list.filter_app. apply Forall2_app; [done|]. by rewrite <- Eh.
Qed.

(** The caller's pointers with the size alone changed. *)
Definition with_size (p : RxOut) (n : Z) : RxOut :=
  mkRxOut (o_HeaderSize p) (Some n) (o_Buffer p) (o_SrcAddr p) (o_DestAddr p) (o_Protocol p).

(** The answers for frames without error flags, by cases. *)
Lemma answers_cases hdr (xs : list (Z * RxOut * (EFI_STATUS * RxOut))) ts :
  Forall2 (λ x f, snd x = rx_answer hdr (fst (fst x)) (snd (fst x)) f) xs
    (filter (λ f, rx_error (f_ctrl f) = false) ts) →
  Forall2 (λ x f, let '(n, p, ans) := x in
      if bad_len f then ans = (EFI_SUCCESS, p)
      else if delivered n f then ans = (EFI_SUCCESS, rx_fill hdr p f)
      else ans = (EFI_BUFFER_TOO_SMALL, with_size p (f_len f)))
    xs (filter (λ f, rx_error (f_ctrl f) = false) ts).
Proof.
  intros F. assert (Forall (λ f, rx_error (f_ctrl f) = false) (filter (λ f, rx_error (f_ctrl f) = false) ts)) as G
    by (apply list.Forall_forall; intros f Hf; by apply list_elem_of_filter in Hf as [? _]).
  revert G. induction F as [|[[n p] ans] f xs fs E F IH]; intros G; constructor;
    apply Forall_cons_1 in G as [Ef G]; [|by apply IH].
  cbn in E. subst ans. unfold rx_answer, delivered. rewrite Ef. destruct (bad_len f); [done|]. cbn [negb andb].
  rewrite Z.leb_antisym. by destruct (n <? f_len f).
Qed.

(** The buffer in flight, as a credit for one report. *)
Definition credit (b : Z) (k : LINK) : Z := if k_flight k =? b then 1 else 0.

Lemma credit_bounds b k : 0 <= credit b k <= 1.
Proof. unfold credit. destruct (k_flight k =? b); lia. Qed.

(** A case for every test left in the goal. *)
Ltac branches := repeat match goal with |- context [if ?c then _ else _] => destruct c end.

Lemma link_step_recycle b k l k' :
  b <> 0 → link_step k l k' →
  (if recycles b l then 1 else 0) + credit b k' <= credit b k + (if sends b l then 1 else 0).
Proof.
  intros Nb St. pose proof (credit_bounds b k) as B. pose proof (credit_bounds b k') as B'.
  assert (∀ x, k_flight x = 0 → credit b x = 0) as Z0.
  { intros x E. unfold credit. rewrite E. by destruct (Z.eqb_spec 0 b). }
  destruct St as [ch op k r k' C E|f k _ _|k]; [|cbn; unfold credit; cbn; lia..].
  destruct (io_op op) eqn:Io.
  2: { assert (k_flight k' = 0 ∨ k' = k) as Dn.
    { unfold link_call, link_up_try in E.
      destruct op, (link_state k), (EFI_ERROR (ch_up ch)) eqn:X; try done; rewrite ?X in E; cbn in E; rewrite ?X in E;
        injection E as <- <-; auto. }
    assert (credit b k' <= credit b k) by (destruct Dn as [Z| ->]; [rewrite (Z0 k' Z)|]; lia).
    destruct op; try done; cbn; lia. }
  destruct (decide (link_state k = EfiSimpleNetworkInitialized)) as [D|N].
  2: { assert (r = link_refuse op (not_initialized (link_state k)) ∧ k' = k) as [-> ->].
    { unfold link_call in E. destruct op; try done; destruct (link_state k); try done; injection E as <- <-; done. }
    destruct op as [| | | | | | | | |hs bs [[a data]|]| |]; try done; cbn; branches; lia. }
  assert (link_io ch op k = (r, k')) as E1 by (unfold link_call in E; rewrite D in E; by destruct op).
  destruct op as [| | | | |e d|rs n|rs n t|i t|hs bs [[a data]|] src dst pr|p|]; try done; cbn [link_io] in E1.
  all: try (injection E1 as <- <-; cbn; unfold credit; cbn; lia).
  - injection E1 as <- <-. cbn. unfold credit. cbn. destruct t; cbn; [|lia].
    destruct (ch_done ch); [destruct (k_flight k =? b), (Z.eqb_spec 0 b); lia|].
    destruct (k_flight k =? b), (Z.eqb_spec 0 b); lia.
  - destruct (bs <? _); [injection E1 as <- <-; cbn; destruct (_ && _); lia|].
    destruct (_ && _); [injection E1 as <- <-; cbn; destruct (_ && _); lia|].
    destruct (tx_header_ok _ _ _ _); injection E1 as <- <-; cbn.
    + unfold credit at 1. cbn. rewrite andb_true_r. destruct (a =? b); lia.
    + match type of B' with _ <= ?x <= _ => assert (x = 0) by by apply Z0 end. branches; lia.
  - destruct (o_Buffer p), (o_BufferSize p), (k_wait k); injection E1 as <- <-; cbn; try lia.
    unfold credit. cbn. lia.
Qed.

Lemma link_steps_recycle b k tr k' :
  b <> 0 → link_steps k tr k' → times (recycles b) tr + credit b k' <= times (sends b) tr + credit b k.
Proof.
  intros Nb St. induction St as [k|k l k1 tr k2 S1 _ IH]; cbn [times]; [lia|].
  pose proof (link_step_recycle b k l k1 Nb S1). lia.
Qed.

(** The calls that end an attempt. *)
Definition teardown (l : label) : bool :=
  match l with Call OpStart _ | Call OpStop _ | Call OpShutdown _ => true | _ => false end.

Lemma link_steps_teardown k tr k' :
  link_state k <> EfiSimpleNetworkInitialized → forallb teardown tr = true → link_steps k tr k' →
  k_pages k' = k_pages k.
Proof.
  intros N Td St. induction St as [k|k l k1 tr k2 S1 _ IH]; [done|].
  cbn in Td. apply andb_true_iff in Td as [T1 T2].
  destruct S1 as [ch op k r k1 C E|f k _ _|k]; [|done..].
  assert (k_pages k1 = k_pages k ∧ link_state k1 <> EfiSimpleNetworkInitialized) as [<- N1]; [|by apply IH].
  unfold link_call in E. destruct op; try done; destruct (link_state k) eqn:D; injection E as <- <-;
    (split; [done|]); try done; by rewrite D.
Qed.

(** Initialize when memory runs out after one page. *)
Lemma initialize_short {H} `{EthHw H} (s : ETH H) k a p sc :
  link_inv s k → link_state k = EfiSimpleNetworkStarted →
  pg_script s = Some (a, p) :: None :: sc → script_ok (pages s) (pg_script s) →
  ∃ s1, snp_op OpInitialize s = Some (RepStatus EFI_OUT_OF_RESOURCES, s1) ∧
    size (pages s1) = Datatypes.S (size (pages s)) ∧ pages s1 !! a = Some p.
Proof.
  intros I D E Sc. pose proof (inv_state s k I) as St. rewrite D in St. rewrite E in Sc. destruct Sc as (N & _).
  eexists. split; [|split].
  - apply reply_run. unfold AlEthNextSnpInitialize. rewrite bind_state, St.
    rewrite !bool_decide_eq_false_2 by done. unfold AlEthHwInitialize, alloc_rings, mbind, Eth_bind, AllocatePages.
    rewrite E. reflexivity.
  - cbn. by apply map_size_insert_None.
  - cbn. apply lookup_insert_eq.
Qed.

(** *** An arrival *)

Section ArriveFirst.
Context {H : Type} `{EthHw H}.
Implicit Types s : ETH H.

(** The controller's next arrival while no frame waits, computed. *)
Definition arrive_first (f : frame) (s : ETH H) : option (ETH H) :=
  q ← head (udma_q (rx_udma (HalAdapter (ctx s))));
  d ← desc_at (words s) (desc_base_ptr q + 16 * next_cdesc_idx q);
  p ← pages s !! d_ptr d;
  Some (mkEth (ctx s) (hw s) (put_completion (words s) (comp_head_ptr q) f)
         (<[d_ptr d := (f_data f ++ drop (length (f_data f)) p)%list]> (pages s)) (pg_script s)).

Lemma arrive_first_ok f s k q s' :
  link_inv s k → link_state k = EfiSimpleNetworkInitialized → k_wait k = [] →
  head (udma_q (rx_udma (HalAdapter (ctx s)))) = Some q → ring_bits (f_ctrl f) = comp_ring_id q →
  cdesc_is_last (f_ctrl f) = true → len (f_data f) = Z.min (f_len f) AL_ETH_RX_BUF_SIZE →
  arrive_first f s = Some s' → arrives f s s'.
Proof.
  intros I D Kw Q Rb La Ld E. pose proof (inv_state s k I) as St. rewrite D in St.
  destruct (in_up _ _ I D) as (_ & (q' & C & Rr) & _). rewrite Kw in Rr.
  pose proof Rr as [[_ Q'] F S Rc _ _ _ _ _ _ _ _]. cbn in Q'. rewrite Q in Q'. injection Q' as <-.
  unfold arrive_first in E. rewrite Q in E. cbn [mbind option_bind] in E.
  assert (dslot q C = desc_base_ptr q + 16 * next_cdesc_idx q) as Ed by (unfold dslot; by rewrite (comp_ack _ _ _ _ Rc)).
  destruct (desc_at (words s) _) as [d|] eqn:Edc; [|done]. cbn [mbind option_bind] in E.
  destruct (pages s !! d_ptr d) as [p|] eqn:Ep; [|done]. cbn [mbind option_bind] in E. injection E as <-.
  constructor; try done. exists q, C, [], d, p. cbn [length]. rewrite Z.add_0_r.
  rewrite Rb, Ed, <- (comp_head _ _ _ _ Rc). split_and!; try done.
  rewrite (comp_rid _ _ _ _ Rc). by rewrite (cfg_size _ _ F).
Qed.
End ArriveFirst.

(** The words that hold an address. *)
Lemma lor2 a b : 0 <= a < 256 → 0 <= b < 256 → Z.lor (Z.shiftl a 8) b = b + a * 2 ^ 8.
Proof. intros Ha Hb. rewrite Z.lor_comm. by apply lor_shiftl_add. Qed.

Lemma lor4 a b c d : 0 <= a < 256 → 0 <= b < 256 → 0 <= c < 256 → 0 <= d < 256 →
  Z.lor (Z.lor (Z.lor (Z.shiftl a 24) (Z.shiftl b 16)) (Z.shiftl c 8)) d =
  d + (c + (b + a * 2 ^ 8) * 2 ^ 8) * 2 ^ 8.
Proof.
  intros Ha Hb Hc Hd. change 24 with (8 + (8 + 8)). change 16 with (8 + 8).
  rewrite <- (Z.shiftl_shiftl a 8 (8 + 8)), <- (Z.shiftl_shiftl (Z.shiftl a 8) 8 8), <- (Z.shiftl_shiftl b 8 8) by lia.
  rewrite <- !Z.shiftl_lor, (lor2 a b) by done.
  rewrite (Z.lor_comm (Z.shiftl _ 8) c), lor_shiftl_add by lia. rewrite Z.lor_comm. by rewrite lor_shiftl_add by lia.
Qed.

(** ** Properties *)

(** C7: The Simple Network Protocol is what its specification says: whatever the
    order of its calls, of the controller's arrivals and of the hardware's
    changes, every call gives the answer that the specification gives, where the
    received frames are a queue, at most one buffer is in flight, and the driver
    holds 33 pages more when the interface is up. *)
Theorem snp_refines {H} `{EthHwLaws H} (s : ETH H) k tr s'
    (Hinv : link_inv s k) (Hrun : snp_steps s tr s') :
  ∃ k', link_steps k tr k' ∧ link_inv s' k'.
Proof. exact (steps_sim s k tr s' Hinv Hrun). Qed.

(** C29: The state stays well formed: from a well-formed state every call of the
    protocol that keeps its promises returns without a fault, whatever the status,
    and leaves a well-formed state: arrays of their sizes, and while the
    interface is initialized rings, buffers and pages that agree. *)
Theorem snp_keeps_type {H} `{EthHwLaws H} op (s : ETH H) k
    (Hinv : link_inv s k) (Hcall : call_ok op) (Henv : env_ok op s) :
  ∃ r s' k', snp_op op s = Some (r, s') ∧ link_inv s' k'.
Proof.
  destruct (call_answered op s k Hinv Hcall Henv) as (ch & r & s' & k' & _ & E & _ & I).
  by exists r, s', k'.
Qed.

(** C8: Every frame is consumed once and in order, whether or not it is
    delivered: over any run on an initialized interface, what waited before and
    what arrived is what was taken followed by what waits now. The answers of
    Receive other than EFI_NOT_READY correspond one to one, in order, to the taken
    frames that the controller did not flag as errors (a flagged frame is consumed
    behind EFI_NOT_READY): a frame that fits the caller's buffer is delivered, with
    its bytes, length and header fields; a frame of a bad length is consumed with
    EFI_SUCCESS and nothing behind the pointers changed; and a frame that does not
    fit is consumed with EFI_BUFFER_TOO_SMALL and its size only, although the
    comment at that branch expects the caller to retry (see
    [small_buffer_loses_frame]). *)
Theorem receive_fifo {H} `{EthHwLaws H} (s : ETH H) k tr s'
    (Hinv : link_inv s k) (Hup : link_state k = EfiSimpleNetworkInitialized)
    (Hrun : snp_steps s tr s') (Hio : forallb (λ l, negb (lifecycle l)) tr = true) :
  ∃ k' taken, link_inv s' k' ∧ (k_wait k ++ arrived tr = taken ++ k_wait k')%list ∧
    Forall2 (λ x f, let '(n, p, ans) := x in
        if bad_len f then ans = (EFI_SUCCESS, p)
        else if delivered n f then ans = (EFI_SUCCESS, rx_fill (MediaHeaderSize (k_mode k)) p f)
        else ans = (EFI_BUFFER_TOO_SMALL, with_size p (f_len f)))
      (receives tr) (filter (λ f, rx_error (f_ctrl f) = false) taken).
Proof.
  destruct (steps_sim s k tr s' Hinv Hrun) as (k' & L & I).
  destruct (link_steps_fifo k tr k' Hup Hio L) as (ts & E & F). exists k', ts. split_and!; [done..|].
  by apply answers_cases.
Qed.

(** The frame that a too small buffer meets is gone: Receive answers
    EFI_BUFFER_TOO_SMALL with the size that is needed, and afterwards the frames
    behind it wait, so that a retry with a larger buffer is answered for the next
    frame. *)
Theorem small_buffer_loses_frame {H} `{EthHwLaws H} (s : ETH H) k p n f fs
    (Hinv : link_inv s k) (Hup : link_state k = EfiSimpleNetworkInitialized) (Hcall : rx_call p n)
    (Hwait : k_wait k = f :: fs) (Hclean : rx_error (f_ctrl f) = false) (Hlen : bad_len f = false)
    (Hsmall : n < f_len f) :
  ∃ s' k', snp_op (OpReceive p) s = Some (RepReceive (EFI_BUFFER_TOO_SMALL, with_size p (f_len f)), s') ∧
    link_inv s' k' ∧ k_wait k' = fs.
Proof.
  destruct (answered_receive p s k Hinv Hup (or_intror (or_intror (ex_intro _ n Hcall)))) as
    (ch & r & s1 & k1 & _ & E & L & I).
  exists s1, k1. unfold link_call in L. rewrite Hup in L. cbn [link_io] in L.
  destruct Hcall as [En (b & Eb & _) _ _]. rewrite Eb, En, Hwait in L. unfold rx_answer in L.
  rewrite Hclean, Hlen, (proj2 (Z.ltb_lt n (f_len f)) Hsmall) in L. injection L as <- <-. done.
Qed.

(** A transmitted buffer is recycled at most once: over any run, GetStatus
    reports an address at most as often as Transmit has accepted it, counting the
    buffer that was in flight at the start, and one time less when it is in
    flight at the end. *)
Theorem recycled_once {H} `{EthHwLaws H} (s : ETH H) k tr s' b
    (Hinv : link_inv s k) (Hb : b <> 0) (Hrun : snp_steps s tr s') :
  ∃ k', link_inv s' k' ∧ times (recycles b) tr + credit b k' <= times (sends b) tr + credit b k.
Proof.
  destruct (steps_sim s k tr s' Hinv Hrun) as (k' & L & I). exists k'. split; [done|].
  by apply link_steps_recycle.
Qed.

(** What a failed Initialize allocated is never given back: when the page of
    the rings is allocated and the first receive buffer is not, Initialize
    returns EFI_OUT_OF_RESOURCES and the page stays allocated after any Start,
    Stop and Shutdown. *)
Theorem initialize_leaks {H} `{EthHwLaws H} (s : ETH H) k a p sc
    (Hinv : link_inv s k) (Hstate : link_state k = EfiSimpleNetworkStarted)
    (Hscript : pg_script s = Some (a, p) :: None :: sc) (Hmem : script_ok (pages s) (pg_script s)) :
  ∃ s1, snp_op OpInitialize s = Some (RepStatus EFI_OUT_OF_RESOURCES, s1) ∧
    ∀ tr s2, snp_steps s1 tr s2 → forallb teardown tr = true →
      size (pages s2) = Datatypes.S (size (pages s)).
Proof.
  destruct (answered_initialize s k Hinv Hmem) as (ch & r & s1 & k1 & _ & E & L & I).
  destruct (initialize_short s k a p sc Hinv Hstate Hscript Hmem) as (s1' & E' & Sz & _).
  rewrite E in E'. injection E' as -> <-. exists s1. split; [done|]. intros tr s2 St Td.
  assert (link_state k1 <> EfiSimpleNetworkInitialized ∧ link_state k1 = link_state k) as [N _].
  { unfold link_call, link_up_try in L. rewrite Hstate in *.
    destruct (EFI_ERROR (ch_up ch)) eqn:X; cbn in L; rewrite ?X in L; injection L as Est <-; [|done].
    unfold link_state in *. cbn. by rewrite Hstate. }
  destruct (steps_sim s1 k1 tr s2 I St) as (k2 & L2 & I2).
  rewrite (in_pages _ _ I2), (link_steps_teardown k1 tr k2 N Td L2), <- (in_pages _ _ I). done.
Qed.

(** The MAC address that the driver stores in the controller is the one read
    back, on registers that hold what is written. *)
Theorem mac_addr_round_trip {H} `{EthHw H} ec (s s' : ETH H) mac
    (Hmac : 6 <= len mac) (Hbytes : Forall (λ b, 0 <= b < 256) mac)
    (Hread : ∀ a v (h : H), fst (MmioRead32 a (MmioWrite32 a v h)) = v)
    (Hother : ∀ a b v (h : H), a <> b → fst (MmioRead32 a (MmioWrite32 b v h)) = fst (MmioRead32 a h))
    (Hpure : ∀ a (h : H), snd (MmioRead32 a h) = h)
    (Hrun : al_eth_mac_addr_store ec mac s = Some (tt, s')) :
  fst (al_eth_mac_addr_read ec (hw s')) = take 6 mac.
Proof.
  assert (∀ i, 0 <= i < 6 → ∃ x, rd mac i = Some x ∧ 0 <= x < 256 ∧ mac !! Z.to_nat i = Some x) as R.
  { intros i Hi. destruct (proj2 (rd_is_Some mac i)) as [x Ex]; [lia|]. exists x. split; [done|].
    rewrite rd_lookup in Ex by lia. split; [|done]. by apply (proj1 (list.Forall_lookup _ _) Hbytes _ _ Ex). }
  destruct (R 0 ltac:(lia)) as (a0 & E0 & B0 & L0). destruct (R 1 ltac:(lia)) as (a1 & E1 & B1 & L1).
  destruct (R 2 ltac:(lia)) as (a2 & E2 & B2 & L2). destruct (R 3 ltac:(lia)) as (a3 & E3 & B3 & L3).
  destruct (R 4 ltac:(lia)) as (a4 & E4 & B4 & L4). destruct (R 5 ltac:(lia)) as (a5 & E5 & B5 & L5).
  unfold al_eth_mac_addr_store in Hrun. rewrite E0, E1, E2, E3, E4, E5, !bind_lift in Hrun.
  unfold MmioW in Hrun. rewrite bind_hw in Hrun. unfold on_hw in Hrun. injection Hrun as <-. cbn [hw with_hw].
  set (lo := Z.lor _ a5). set (hi := Z.lor _ a1). unfold al_eth_mac_addr_read.
  set (h1 := MmioWrite32 (ec + fwd_mac_data_l) lo (hw s)).
  pose proof (Hother (ec + fwd_mac_data_l) (ec + fwd_mac_data_h) hi h1 ltac:(unfold fwd_mac_data_l, fwd_mac_data_h; lia)) as X1.
  pose proof (Hpure (ec + fwd_mac_data_l) (MmioWrite32 (ec + fwd_mac_data_h) hi h1)) as X2.
  pose proof (Hread (ec + fwd_mac_data_h) hi h1) as X3. pose proof (Hread (ec + fwd_mac_data_l) lo (hw s)) as X4.
  destruct (MmioRead32 (ec + fwd_mac_data_l) _) as [v h2]. cbn in X1, X2. subst h2.
  destruct (MmioRead32 (ec + fwd_mac_data_h) _) as [v2 h3]. cbn in X3 |- *. subst v2.
  unfold h1 in X1. rewrite X4 in X1. subst v.
  assert (take 6 mac = [a0; a1; a2; a3; a4; a5]) as ->.
  { apply list_eq. intros i. destruct (decide (i < 6)%nat).
    - rewrite lookup_take_lt by done. destruct i as [|[|[|[|[|[|i]]]]]]; cbn; done || lia.
    - rewrite lookup_take_ge by lia. symmetry. apply lookup_ge_None. cbn. lia. }
  unfold hi, lo. rewrite lor2, lor4 by done. change 0xff with (Z.ones 8). rewrite !Z.land_ones, !Z.shiftr_div_pow2 by lia.
  unfold u16. change (2 ^ 16) with 65536. change (2 ^ 8) with 256. change (2 ^ 24) with 16777216.
  repeat f_equal; Z.div_mod_to_equations; lia.
Qed.

(** ** A concrete controller *)

(** Registers that hold what is written, a PHY at address 0, one queue a side. *)
Definition DemoHw := gmap Z Z.

Definition demo_queue (regs : Z) : al_udma_q :=
  mkQ 0 regs 0 0 0 0 0 0 0 0 0 0 0 0 0 0 0 AL_QUEUE_DISABLED 0 0.
Definition demo_adapter : al_hal_eth_adapter :=
  mkAdapter AL_ETH_REV_ID_2 0xFC000000 (mkUdma UDMA_TX 1 0xFC100000 [demo_queue 0xFC101000])
    (mkUdma UDMA_RX 1 0xFC110000 [demo_queue 0xFC111000]).

#[export] Instance demo_mmio : Mmio DemoHw :=
  {| MmioRead32 a h := (default 0 (h !! a), h); MmioWrite32 a v h := <[a := v]> h |}.
#[export] Instance demo_timer : Timer DemoHw := {| us_delay _ h := h |}.
#[export] Instance demo_hw : EthHw DemoHw := {|
  al_eth_adapter_init _ _ _ h := (0, demo_adapter, h);
  al_eth_adapter_stop _ h := h;
  al_eth_mac_start _ h := h;
  al_eth_mac_stop _ h := h;
  al_eth_mac_config _ h := (0, h);
  al_eth_rx_pkt_limit_config _ _ _ h := h;
  al_eth_mdio_config _ _ h := (0, h);
  al_eth_mdio_read _ _ _ h := (0, 0x22, h);
  al_eth_mdio_write _ _ _ _ h := h;
  WriteBackInvalidateDataCacheRange _ _ h := h;
  InvalidateDataCacheRange _ _ h := h;
  SetMemoryAttributes_UC _ _ h := h |}.

#[export] Instance demo_laws : EthHwLaws DemoHw.
Proof.
  constructor.
  - intros ub eb mb h e a h' [= <- <- <-]. split; [done|by eexists].
  - intros ub eb mb h e a h' [= <- <- <-] _. by eexists.
  - intros ub eb mb h a h' [= <- <-]. split; [done|]. split; [done|]. intros [|] q [= <-]; done.
Qed.

Definition demo_mac : list Z := [0x4C; 0x5E; 0x0C; 1; 2; 3] ++ repeat 0 26.

Definition demo_ctx (st : EFI_SIMPLE_NETWORK_STATE) : AL_ETH_NEXT_CONTEXT :=
  mkEthCtx 0xFC100000 0xFC200000 0xFC000000 zero_adapter None None 0 0 (repeat 0 32) (repeat 0 32) 0 0 0xFF
    (mkMode st 6 14 1500 0x1F 0x05 demo_mac (repeat 0xFF 6 ++ repeat 0 26) demo_mac 1 true false true false)
    (repeat 0 26).

(** The next [n] pages from [a] on. *)
Definition demo_pages (a : Z) (n : nat) : list (option (Z * list Z)) :=
  map (λ i, Some (a + EFI_PAGE_SIZE * Z.of_nat i, repeat 0 (Z.to_nat EFI_PAGE_SIZE))) (seq 0 n).

Definition demo_s (st : EFI_SIMPLE_NETWORK_STATE) (sc : list (option (Z * list Z))) : ETH DemoHw :=
  mkEth (demo_ctx st) ∅ ∅ ∅ sc.
Definition demo_k (st : EFI_SIMPLE_NETWORK_STATE) : LINK :=
  mkLink (SnpMode (demo_ctx st)) [] 0 (repeat 0 26) 0.

Lemma demo_inv st sc : st <> EfiSimpleNetworkInitialized → link_inv (demo_s st sc) (demo_k st).
Proof. intros N. constructor; try done. Qed.

Lemma demo_script pg a n :
  (EFI_PAGE_SIZE | a) → 0 < a → a + EFI_PAGE_SIZE * Z.of_nat n <= 2 ^ 32 → (∀ b, a <= b → pg !! b = None) →
  script_ok pg (demo_pages a n).
Proof.
  intros Da Pa La Np. unfold demo_pages.
  assert (∀ m k pg, (k + m <= n)%nat → (∀ b, a + EFI_PAGE_SIZE * Z.of_nat k <= b → pg !! b = None) →
    script_ok pg (map (λ i, Some (a + EFI_PAGE_SIZE * Z.of_nat i, repeat 0 (Z.to_nat EFI_PAGE_SIZE))) (seq k m))) as X.
  { unfold EFI_PAGE_SIZE in *. intros m. induction m as [|m IH]; intros k pg' Hk Hp; cbn [seq map script_ok]; [done|].
    split_and!; try lia.
    - apply Hp. lia.
    - unfold EFI_PAGE_SIZE. destruct Da as [j ->]. exists (j + Z.of_nat k). lia.
    - by rewrite repeat_length.
    - apply IH; [lia|]. intros b Hb. rewrite lookup_insert_ne by lia. apply Hp. lia. }
  apply X; [lia|]. intros b Hb. apply Np. lia.
Qed.

(** A call of the demonstration, when it returns. *)
Definition run_op (op : SnpOp) (s : ETH DemoHw) : ETH DemoHw := default s (snd <$> snp_op op s).

Lemma run_op_step op r s : call_ok op → env_ok op s → fst <$> snp_op op s = Some r → snp_step s (Call op r) (run_op op s).
Proof.
  intros Cl Env E. constructor; [done..|]. unfold run_op. destruct (snp_op op s) as [[r' s']|]; [|done].
  cbn in E. by injection E as ->.
Qed.

(** The register of the completion head says that [n] buffers have left. *)
Definition demo_head (n : Z) (s : ETH DemoHw) : ETH DemoHw := with_hw s (<[0xFC101000 + rings_crhp := n]> (hw s)).

Definition demo_frame : frame := mkFrame 0x4D000000 60 0 0 (repeat 0xAB 60).
Example demo_frame_len : f_len demo_frame = 60.
Proof. vm_compute. reflexivity. Qed.

Definition demo_call : RxOut :=
  mkRxOut (Some 0) (Some 100) (Some (repeat 0 100)) (Some (repeat 0 32)) (Some (repeat 0 32)) (Some 0).

Definition demo_s1 : ETH DemoHw := run_op OpInitialize (demo_s EfiSimpleNetworkStarted (demo_pages 0x100000 33)).
Definition demo_s2 : ETH DemoHw := default demo_s1 (arrive_first demo_frame demo_s1).

Definition demo_tx : SnpOp := OpTransmit 0 60 (Some (0x300000, repeat 1 60)) None None None.
Definition demo_run : list label :=
  [Call OpInitialize (RepStatus EFI_SUCCESS)].

Lemma demo_up : ∃ k, link_inv demo_s1 k ∧ link_state k = EfiSimpleNetworkInitialized ∧ k_wait k = [] ∧ k_flight k = 0 ∧
  MediaHeaderSize (k_mode k) = 14 ∧
  link_steps (demo_k EfiSimpleNetworkStarted) [Call OpInitialize (RepStatus EFI_SUCCESS)] k.
Proof.
  assert (snp_step (demo_s EfiSimpleNetworkStarted (demo_pages 0x100000 33)) (Call OpInitialize (RepStatus EFI_SUCCESS)) demo_s1) as St.
  { apply run_op_step; [done| |].
    - apply (demo_script ∅ 0x100000 33); try done. by exists 256.
    - vm_compute. reflexivity. }
  destruct (step_sim _ _ _ _ (demo_inv EfiSimpleNetworkStarted _ ltac:(done)) St) as (k & L & I).
  exists k. split; [done|]. assert (link_steps (demo_k EfiSimpleNetworkStarted) [Call OpInitialize (RepStatus EFI_SUCCESS)] k) as Ls.
  { econstructor; [exact L|constructor]. }
  inversion L as [ch op k0 r k1 C E| |]; subst. unfold link_call, link_up_try in E. cbn in E.
  destruct (EFI_ERROR (ch_up ch)) eqn:X; rewrite ?X in E; cbn in E;
    [injection E as E1 _; by rewrite E1 in X|injection E as <-]. done.
Qed.

(** The demonstration: the interface comes up, a frame arrives and is received,
    a buffer is sent, leaves and is reported. *)
Definition demo_s3 : ETH DemoHw := run_op (OpReceive demo_call) demo_s2.
Definition demo_s4 : ETH DemoHw := run_op demo_tx demo_s3.
Definition demo_s5 : ETH DemoHw := demo_head 1 demo_s4.
Definition demo_s6 : ETH DemoHw := run_op (OpGetStatus true true) demo_s5.

Definition demo_received : EFI_STATUS * RxOut :=
  (EFI_SUCCESS, mkRxOut (Some 14) (Some 60) (Some (repeat 0xAB 60 ++ repeat 0 40)%list)
    (Some (repeat 0xAB 6 ++ repeat 0 26)%list) (Some (repeat 0xAB 6 ++ repeat 0 26)%list) (Some 0xABAB)).

Definition demo_trace : list label :=
  [Arrive demo_frame; Call (OpReceive demo_call) (RepReceive demo_received);
   Call demo_tx (RepTransmit (EFI_SUCCESS, Some (repeat 1 60))); Tick;
   Call (OpGetStatus true true) (RepGetStatus (EFI_SUCCESS, Some 0, Some 0x300000))].

(** A decision for the promise about the completion head. *)
Definition head_okb (s : ETH DemoHw) : bool :=
  match head (udma_q (tx_udma (HalAdapter (ctx s)))) with
  | Some q =>
      let v := Z.land (fst (MmioRead32 (q_regs q + rings_crhp) (hw s))) 0xFFFF in
      (v =? next_cdesc_idx q) ||
      (negb (TxBufInFlight (ctx s) =? 0) && (v =? (next_cdesc_idx q + 1) mod 64))
  | None => false
  end.

Lemma head_okb_ok (s : ETH DemoHw) q P C :
  head_okb s = true → tx_rep (tx_view (ctx s)) (words s) q P C → crhp_ok q (hw s) P C.
Proof.
  intros E [[_ Q] F S Fl _]. cbn in Q, Fl. unfold head_okb in E. rewrite Q in E.
  pose proof (sub_ack _ _ _ S) as A. rewrite (cfg_size _ _ F) in A. unfold crhp_ok. rewrite (cfg_size _ _ F).
  unfold AL_ETH_DESCS_PER_Q in *.
  apply orb_true_iff in E as [E|E].
  - exists 0. apply Z.eqb_eq in E. split; [|etransitivity; [exact E|]; by rewrite A, Z.add_0_r].
    destruct (TxBufInFlight (ctx s) =? 0); lia.
  - apply andb_true_iff in E as [E1 E2]. apply negb_true_iff in E1. rewrite E1 in Fl. apply Z.eqb_eq in E2.
    exists 1. split; [lia|]. etransitivity; [exact E2|]. rewrite A. by rewrite Zplus_mod_idemp_l.
Qed.

Lemma demo_steps : snp_steps demo_s1 demo_trace demo_s6.
Proof.
  destruct demo_up as (k & I & D & Kw & _).
  assert (arrives demo_frame demo_s1 demo_s2) as Ar.
  { destruct (head (udma_q (rx_udma (HalAdapter (ctx demo_s1))))) as [q|] eqn:Q; [|by vm_compute in Q].
    assert (comp_ring_id <$> head (udma_q (rx_udma (HalAdapter (ctx demo_s1)))) = Some 1) as X by (vm_compute; reflexivity).
    rewrite Q in X. injection X as X.
    assert (match arrive_first demo_frame demo_s1 with Some _ => true | None => false end = true) as Y
      by (vm_compute; reflexivity).
    unfold demo_s2. destruct (arrive_first demo_frame demo_s1) as [s2|] eqn:E; [|done]. clear Y. cbn [default].
    refine (arrive_first_ok demo_frame demo_s1 k q s2 I D Kw Q _ _ _ E); [rewrite X|..]; vm_compute; reflexivity. }
  refine (snp_cons _ _ _ _ _ (step_arrive _ _ _ Ar) _).
  refine (snp_cons _ _ demo_s3 _ _ _ _).
  { apply run_op_step; [|exact Logic.I|vm_compute; reflexivity]. right. right. exists 100.
    constructor; [done|exists (repeat 0 100); split; [done|vm_compute; discriminate]|intros m [= <-]; vm_compute; discriminate..]. }
  refine (snp_cons _ _ demo_s4 _ _ _ _).
  { apply run_op_step; [constructor; try lia; done| |vm_compute; reflexivity].
    intros q P C. apply head_okb_ok. vm_compute. reflexivity. }
  refine (snp_cons _ _ demo_s5 _ _ (step_tick _ _) _).
  refine (snp_cons _ _ demo_s6 _ _ _ (snp_nil _)).
  apply run_op_step; [exact Logic.I| |vm_compute; reflexivity].
  intros q P C. apply head_okb_ok. vm_compute. reflexivity.
Qed.

(** ** Witnesses *)

Lemma snp_refines_witness :
  ∃ k k', link_state k = EfiSimpleNetworkInitialized ∧ link_inv demo_s1 k ∧
    link_steps k demo_trace k' ∧ link_inv demo_s6 k'.
Proof.
  destruct demo_up as (k & I & D & _). exists k.
  destruct (snp_refines demo_s1 k demo_trace demo_s6 I demo_steps) as (k' & L & I').
  exists k'. exact (conj D (conj I (conj L I'))).
Defined.

Lemma snp_keeps_type_witness :
  ∃ r s' k', snp_op OpInitialize (demo_s EfiSimpleNetworkStarted (demo_pages 0x100000 33)) = Some (r, s') ∧
    link_inv s' k'.
Proof.
  apply (snp_keeps_type OpInitialize (demo_s EfiSimpleNetworkStarted (demo_pages 0x100000 33))
           (demo_k EfiSimpleNetworkStarted)).
  - apply demo_inv. done.
  - exact Logic.I.
  - apply (demo_script ∅ 0x100000 33); try done. by exists 256.
Defined.

Lemma receive_fifo_witness :
  ∃ k' taken, link_inv demo_s6 k' ∧ ([demo_frame] = taken ++ k_wait k')%list ∧
    Forall2 (λ x f, let '(n, p, ans) := x in
        if bad_len f then ans = (EFI_SUCCESS, p)
        else if delivered n f then ans = (EFI_SUCCESS, rx_fill 14 p f)
        else ans = (EFI_BUFFER_TOO_SMALL, with_size p (f_len f)))
      [(100, demo_call, demo_received)] (filter (λ f, rx_error (f_ctrl f) = false) taken).
Proof.
  destruct demo_up as (k & I & D & Kw & _ & Mh & _).
  destruct (receive_fifo demo_s1 k demo_trace demo_s6 I D demo_steps eq_refl) as (k' & ts & I' & E & F).
  exists k', ts. rewrite Kw in E. rewrite Mh in F. exact (conj I' (conj E F)).
Defined.

Lemma recycled_once_witness :
  times (recycles 0x300000) demo_trace = 1 ∧ times (sends 0x300000) demo_trace = 1 ∧
  ∃ k k', link_inv demo_s6 k' ∧
    times (recycles 0x300000) demo_trace + credit 0x300000 k' <= times (sends 0x300000) demo_trace + credit 0x300000 k.
Proof.
  split; [reflexivity|]. split; [reflexivity|]. destruct demo_up as (k & I & _). exists k.
  exact (recycled_once demo_s1 k demo_trace demo_s6 0x300000 I ltac:(done) demo_steps).
Defined.

Definition demo_short : list (option (Z * list Z)) :=
  [Some (0x100000, repeat 0 (Z.to_nat EFI_PAGE_SIZE)); None].

Lemma initialize_leaks_witness :
  ∃ s1, snp_op OpInitialize (demo_s EfiSimpleNetworkStarted demo_short) =
      Some (RepStatus EFI_OUT_OF_RESOURCES, s1) ∧
    ∀ tr s2, snp_steps s1 tr s2 → forallb teardown tr = true → size (pages s2) = 1%nat.
Proof.
  apply (initialize_leaks (demo_s EfiSimpleNetworkStarted demo_short) (demo_k EfiSimpleNetworkStarted)
           0x100000 (repeat 0 (Z.to_nat EFI_PAGE_SIZE)) []).
  - apply demo_inv. done.
  - reflexivity.
  - reflexivity.
  - split; [done|]. split; [by exists 256|]. split; [done|]. split; [|done]. by rewrite repeat_length.
Defined.

Lemma mac_addr_round_trip_witness :
  ∃ s', al_eth_mac_addr_store 0xFC000000 demo_mac (demo_s EfiSimpleNetworkStarted []) = Some (tt, s') ∧
    fst (al_eth_mac_addr_read 0xFC000000 (hw s')) = take 6 demo_mac.
Proof.
  eexists. split; [reflexivity|].
  eapply (mac_addr_round_trip 0xFC000000 (demo_s EfiSimpleNetworkStarted []) _ demo_mac); [| | | | |reflexivity].
  - vm_compute. discriminate.
  - apply list.Forall_forall. intros x Hx. apply (list.Forall_forall (λ b, 0 <= b < 256) demo_mac); [|done].
    unfold demo_mac. cbn. repeat constructor; lia.
  - intros a v h. exact (f_equal (default 0) (lookup_insert_eq (h : gmap Z Z) a v)).
  - intros a b v h Hab. exact (f_equal (default 0) (lookup_insert_ne (h : gmap Z Z) b a v (not_eq_sym Hab))).
  - done.
Defined.
