(* ===== verification/EthBinding.v ===== *)
(** * The Ethernet driver's binding

    The rest of Drivers/AlEthNextDxe/AlEthNextDxe.c: the entry point and the
    driver binding. What the boot services answer is a record of answers, the PCI
    attributes and what the driver holds (open protocols, pool, events, the
    installed child) are the state; Start reads the MAC address from the board
    information of [BoardInfo] or from the controller, and its context is the one
    that the network interface of [EthSnp] starts from. *)

From S2P Require Import Prelude Efi BoardInfo Udma Eth EthUp EthSnp.

(** ** The binding's environment *)

(** What the driver can hold. *)
Inductive RESOURCE :=
  | PciIoByDriver
  | PciIoByChild
  | ContextPool
  | WaitForPacketEvent
  | ExitBootServicesEvent
  | DevicePathPool
  | ChildProtocols.
#[export] Instance RESOURCE_eq_dec : EqDecision RESOURCE.
Proof. solve_decision. Defined.

Record BINDING := mkBinding {
  b_held : list RESOURCE;
  b_attributes : Z
}.

Definition hold (r : RESOURCE) (b : BINDING) : BINDING := mkBinding (r :: b_held b) (b_attributes b).
Definition release (r : RESOURCE) (b : BINDING) : BINDING :=
  mkBinding (filter (λ x, x <> r) (b_held b)) (b_attributes b).
Definition set_attributes (a : Z) (b : BINDING) : BINDING := mkBinding (b_held b) a.

Definition EFI_PCI_IO_ATTRIBUTE_MEMORY : Z := 0x0200.
Definition EFI_PCI_IO_ATTRIBUTE_BUS_MASTER : Z := 0x0400.
Definition AL_ETH_BAR_UDMA : Z := 0.
Definition AL_ETH_BAR_MAC : Z := 2.
Definition AL_ETH_BAR_EC : Z := 4.

(** What an attempt to start meets: the statuses of the boot services' calls, the
    pool's answers, the configuration space, the board information protocol if
    there is one, and the performance counter. *)
Record ANSWERS := mkAnswers {
  an_open_pci : EFI_STATUS;
  an_vendor : Z;
  an_device : Z;
  an_context : bool;
  an_bar : Z → Z;
  an_board : option BOARD_INFO_INSTANCE;
  an_tsc : Z;
  an_wait_event : EFI_STATUS;
  an_exit_event : EFI_STATUS;
  an_open_path : EFI_STATUS;
  an_path : bool;
  an_append : bool;
  an_install : EFI_STATUS
}.

(** ** Supported *)

Definition AlEthNextSupported (an : ANSWERS) (b : BINDING) : EFI_STATUS * BINDING :=
  if EFI_ERROR (an_open_pci an) then (an_open_pci an, b)
  else
    let b := hold PciIoByDriver b in
    let Status := if negb (an_vendor an =? AL_ETH_VENDOR_ID) || negb (an_device an =? AL_ETH_DEVICE_ID)
                  then EFI_UNSUPPORTED else an_open_pci an in
    (Status, release PciIoByDriver b).

(** ** Start *)

(** The loops that look for a byte other than 0 in the first six. *)
Fixpoint mac_is_zero (n : nat) (i : Z) (m : list Z) : option bool :=
  match n with
  | O => Some true
  | S n' => x ← rd m i; if negb (x =? 0) then Some false else mac_is_zero n' (i + 1) m
  end.

Section Start.
Context {H : Type} `{EthHw H}.

(** The MAC address: from the board information, else from the controller, else
    made up. *)
Definition start_mac (an : ANSWERS) (EcBase : Z) (h : H) : option (list Z * H) :=
  let MacAddr := repeat 0 (Z.to_nat SIZEOF_EFI_MAC_ADDRESS) in
  let MacAddr := match an_board an with
                 | Some Instance => default MacAddr (snd (BoardInfoGetMacAddress Instance true))
                 | None => MacAddr
                 end in
  IsZero ← mac_is_zero 6 0 MacAddr;
  if IsZero : bool then
    let '(m, h) := al_eth_mac_addr_read EcBase h in
    MacAddr ← wrn MacAddr 0 m;
    IsZero ← mac_is_zero 6 0 MacAddr;
    if IsZero : bool then
      let Tsc := an_tsc an in
      MacAddr ← wrn MacAddr 0 [0x02; u8 (Z.shiftr Tsc 8); u8 (Z.shiftr Tsc 16); u8 (Z.shiftr Tsc 24);
                               u8 (Z.shiftr Tsc 32); u8 (Z.shiftr Tsc 40)];
      Some (MacAddr, h)
    else Some (MacAddr, h)
  else Some (MacAddr, h).

(** The context after AllocateZeroPool. *)
Definition zero_context : AL_ETH_NEXT_CONTEXT :=
  mkEthCtx 0 0 0 zero_adapter None None 0 0 (repeat 0 (Z.to_nat AL_ETH_NUM_RX_DESC))
    (repeat 0 (Z.to_nat AL_ETH_NUM_RX_DESC)) 0 0 0
    (mkMode EfiSimpleNetworkStopped 0 0 0 0 0 (repeat 0 (Z.to_nat SIZEOF_EFI_MAC_ADDRESS))
       (repeat 0 (Z.to_nat SIZEOF_EFI_MAC_ADDRESS)) (repeat 0 (Z.to_nat SIZEOF_EFI_MAC_ADDRESS)) 0 false false false false)
    (repeat 0 (Z.to_nat STATS_COUNT)).

(** The three bases, from the configuration space. *)
Definition bar_base (bar : Z) : Z := Z.land bar 0xFFFFFFF0.
Definition start_bars (an : ANSWERS) (c : AL_ETH_NEXT_CONTEXT) : AL_ETH_NEXT_CONTEXT :=
  mkEthCtx (bar_base (an_bar an AL_ETH_BAR_UDMA)) (bar_base (an_bar an AL_ETH_BAR_MAC))
    (if negb (an_bar an AL_ETH_BAR_EC =? 0) then bar_base (an_bar an AL_ETH_BAR_EC) else 0)
    (HalAdapter c) (TxDmaQ c) (RxDmaQ c) (DescRingBase c) (DescRingPhys c) (RxBuffers c) (RxBuffersPhys c)
    (RxBufTailIdx c) (TxBufInFlight c) (PhyAddr c) (SnpMode c) (Stats c).

(** The mode that the interface starts with. *)
Definition start_mode (MacAddr : list Z) : EFI_SIMPLE_NETWORK_MODE :=
  mkMode EfiSimpleNetworkStopped NET_ETHER_ADDR_LEN 14 1500
    (Z.lor (Z.lor EFI_SIMPLE_NETWORK_RECEIVE_UNICAST EFI_SIMPLE_NETWORK_RECEIVE_BROADCAST)
       EFI_SIMPLE_NETWORK_RECEIVE_PROMISCUOUS)
    (Z.lor EFI_SIMPLE_NETWORK_RECEIVE_UNICAST EFI_SIMPLE_NETWORK_RECEIVE_BROADCAST)
    MacAddr (repeat 0xFF (Z.to_nat SIZEOF_EFI_MAC_ADDRESS)) MacAddr NET_IFTYPE_ETHERNET true false true false.

(** The labels at the end of Start, from the last to the first. *)
Definition close_protocol (b : BINDING) : BINDING := release PciIoByDriver b.
Definition free_ctx (orig : Z) (b : BINDING) : BINDING :=
  close_protocol (release ContextPool (set_attributes orig b)).
Definition close_wfp_event (orig : Z) (b : BINDING) : BINDING := free_ctx orig (release WaitForPacketEvent b).
Definition close_exit_event (orig : Z) (b : BINDING) : BINDING :=
  close_wfp_event orig (release ExitBootServicesEvent b).

(** The context comes with the attributes it saved; without an answer the code
    has passed NULL to FreePool. *)
Definition AlEthNextStart (an : ANSWERS) (b : BINDING) (h : H)
    : option (EFI_STATUS * option (AL_ETH_NEXT_CONTEXT * Z) * BINDING * H) :=
  if EFI_ERROR (an_open_pci an) then Some (an_open_pci an, None, b, h)
  else
    let b := hold PciIoByDriver b in
    if negb (an_context an) then Some (EFI_OUT_OF_RESOURCES, None, close_protocol b, h)
    else
      let b := hold ContextPool b in
      let orig := b_attributes b in
      let b := set_attributes (Z.lor orig (Z.lor EFI_PCI_IO_ATTRIBUTE_MEMORY EFI_PCI_IO_ATTRIBUTE_BUS_MASTER)) b in
      let c := start_bars an zero_context in
      if EcBase c =? 0 then Some (EFI_DEVICE_ERROR, None, free_ctx orig b, h)
      else
        '(MacAddr, h) ← start_mac an (EcBase c) h;
        let c := set_SnpMode c (start_mode MacAddr) in
        if EFI_ERROR (an_wait_event an) then Some (an_wait_event an, None, free_ctx orig b, h)
        else
          let b := hold WaitForPacketEvent b in
          if EFI_ERROR (an_exit_event an) then Some (an_exit_event an, None, close_wfp_event orig b, h)
          else
            let b := hold ExitBootServicesEvent b in
            if EFI_ERROR (an_open_path an) then Some (an_open_path an, None, close_exit_event orig b, h)
            else if negb (an_path an) then Some (EFI_OUT_OF_RESOURCES, None, close_exit_event orig b, h)
            else
              let b := if an_append an then hold DevicePathPool b else b in
              if EFI_ERROR (an_install an) then
                if an_append an
                then Some (an_install an, None, close_exit_event orig (release DevicePathPool b), h)
                else None
              else
                let b := hold PciIoByChild (hold ChildProtocols b) in
                Some (EFI_SUCCESS, Some (c, orig), b, h).

(** ** Stop *)

(** [an_snp] and [an_uninstall] are the statuses of opening the child's network
    protocol and of uninstalling; [orig] is in the context. *)
Definition AlEthNextStop (NumberOfChildren : Z) (an_snp an_uninstall : EFI_STATUS) (orig : Z) (b : BINDING)
    : Eth (H := H) (EFI_STATUS * BINDING) :=
  if NumberOfChildren =? 0 then mret (EFI_SUCCESS, release PciIoByDriver b)
  else if EFI_ERROR an_snp then mret (an_snp, b)
  else if EFI_ERROR an_uninstall then mret (an_uninstall, b)
  else
    let b := release PciIoByChild (release ChildProtocols b) in
    c ← get_ctx;
    _ ← (if bool_decide (State (SnpMode c) = EfiSimpleNetworkInitialized) then AlEthHwShutdown else mret tt);
    let b := release WaitForPacketEvent (release ExitBootServicesEvent b) in
    let b := set_attributes orig b in
    _ ← lift (if bool_decide (DevicePathPool ∈ b_held b) then Some tt else None);
    let b := release ContextPool (release DevicePathPool b) in
    mret (EFI_SUCCESS, b).

(** ** The entry point *)

(** What the platform does at the entry point: whether the GPIO and the CPU
    protocols are there, and what installing the binding returns; the GPIO's pin
    is driven in the hardware. *)
Class EthPlatform := {
  gpio_protocol : option (Z → bool → H → H);
  cpu_protocol : EFI_STATUS;
  install_binding : EFI_STATUS
}.
Context `{EthPlatform}.

Definition ETH_PHY_RESET_GPIO : Z := 40.

Definition EthPhyReset (h : H) : H :=
  match gpio_protocol with
  | None => h
  | Some Set_ =>
      let h := Set_ ETH_PHY_RESET_GPIO true h in
      let h := us_delay 100000 h in
      let h := Set_ ETH_PHY_RESET_GPIO false h in
      us_delay 100000 h
  end.

Definition AlEthNextDxeEntryPoint (h : H) : EFI_STATUS * H :=
  let h := EthPhyReset h in
  if EFI_ERROR cpu_protocol then (cpu_protocol, h) else (install_binding, h).
End Start.

(** * Theorems *)

Section Binding.
Context {H : Type} `{EthHw H}.

Lemma mac_is_zero_run n : ∀ i m, 0 <= i → i + Z.of_nat n <= len m →
  mac_is_zero n i m = Some (forallb (λ x, x =? 0) (take n (drop (Z.to_nat i) m))).
Proof.
  induction n as [|n IH]; intros i m Hi L; cbn [mac_is_zero]; [done|].
  destruct (proj2 (rd_is_Some m i)) as [x Ex]; [lia|]. rewrite Ex, (drop_rd m i x Ex). cbn [mbind option_bind take forallb].
  destruct (x =? 0); [|done]. cbn [negb andb]. apply IH; lia.
Qed.

(** What the first candidate is. *)
Definition board_mac (an : ANSWERS) : list Z :=
  match an_board an with
  | Some Instance => MacAddress Instance
  | None => repeat 0 (Z.to_nat SIZEOF_EFI_MAC_ADDRESS)
  end.

Definition made_up (an : ANSWERS) : list Z :=
  [0x02; u8 (Z.shiftr (an_tsc an) 8); u8 (Z.shiftr (an_tsc an) 16); u8 (Z.shiftr (an_tsc an) 24);
   u8 (Z.shiftr (an_tsc an) 32); u8 (Z.shiftr (an_tsc an) 40)].

(** The choice as a function: the first of the three that is not zero. *)
Definition mac_zero (m : list Z) : bool := forallb (λ x, x =? 0) (take 6 m).
Definition mac_choice (an : ANSWERS) (EcBase : Z) (h : H) : list Z * H :=
  let m := board_mac an in
  if negb (mac_zero m) then (m, h)
  else
    let '(e, h) := al_eth_mac_addr_read EcBase h in
    ((if mac_zero e then made_up an else e) ++ drop 6 m, h)%list.

Lemma mac_is_zero_spec m : 6 <= len m → mac_is_zero 6 0 m = Some (mac_zero m).
Proof.
  intros L. rewrite mac_is_zero_run by lia. unfold mac_zero. change (Z.to_nat 0) with 0%nat. by rewrite drop_0.
Qed.

Lemma read_len ec h : length (fst (al_eth_mac_addr_read ec h)) = 6%nat.
Proof. unfold al_eth_mac_addr_read. destruct (MmioRead32 _ h) as [v h1]. by destruct (MmioRead32 _ h1). Qed.

Lemma start_mac_run an ec h :
  len (board_mac an) = SIZEOF_EFI_MAC_ADDRESS → start_mac an ec h = Some (mac_choice an ec h).
Proof.
  intros L. unfold SIZEOF_EFI_MAC_ADDRESS in L. unfold start_mac. cbv zeta.
  assert (match an_board an with
          | Some Instance => default (repeat 0 (Z.to_nat SIZEOF_EFI_MAC_ADDRESS)) (snd (BoardInfoGetMacAddress Instance true))
          | None => repeat 0 (Z.to_nat SIZEOF_EFI_MAC_ADDRESS) end = board_mac an) as ->.
  { unfold board_mac. by destruct (an_board an). }
  rewrite mac_is_zero_spec by lia. cbn [mbind option_bind]. unfold mac_choice.
  destruct (mac_zero (board_mac an)); cbn [negb]; [|done].
  pose proof (read_len ec h) as Le. destruct (al_eth_mac_addr_read ec h) as [e h1]. cbn [fst] in Le.
  rewrite wrn_0 by lia. rewrite Le. cbn [mbind option_bind].
  rewrite mac_is_zero_spec by (rewrite length_app, length_drop; lia). cbn [mbind option_bind].
  assert (mac_zero (e ++ drop 6 (board_mac an))%list = mac_zero e) as ->.
  { unfold mac_zero. by rewrite take_app_le, take_ge by lia. }
  destruct (mac_zero e); [|done].
  rewrite wrn_0 by (rewrite length_app; cbn [length]; lia). cbn [mbind option_bind]. unfold made_up. cbn [length].
  do 3 f_equal. rewrite drop_app_ge by lia. rewrite Le. by rewrite Nat.sub_diag, drop_0.
Qed.

Lemma mac_choice_len an ec h : len (board_mac an) = SIZEOF_EFI_MAC_ADDRESS →
  len (fst (mac_choice an ec h)) = SIZEOF_EFI_MAC_ADDRESS.
Proof.
  intros L. unfold mac_choice. destruct (mac_zero (board_mac an)); [|done]. cbn [negb].
  pose proof (read_len ec h) as Le. destruct (al_eth_mac_addr_read ec h) as [e h1]. cbn [fst] in *.
  unfold SIZEOF_EFI_MAC_ADDRESS in *. rewrite length_app, length_drop.
  destruct (mac_zero e); [unfold made_up; cbn [length]|]; lia.
Qed.

Lemma mac_choice_nonzero an ec h : mac_zero (fst (mac_choice an ec h)) = false.
Proof.
  unfold mac_choice. destruct (mac_zero (board_mac an)) eqn:E; cbn [negb]; [|done].
  pose proof (read_len ec h) as Le. destruct (al_eth_mac_addr_read ec h) as [e h1]. cbn [fst] in *.
  destruct (mac_zero e) eqn:E2; [done|]. unfold mac_zero in *. by rewrite take_app_le, take_ge in * by lia.
Qed.
End Binding.

(** ** Starting and stopping *)

(** The pages an interface has in a state: the rings' and the receive buffers'. *)
Definition up_pages (st : EFI_SIMPLE_NETWORK_STATE) : nat :=
  if bool_decide (st = EfiSimpleNetworkInitialized) then LINK_PAGES else 0.

(** The state of the interface after a step, from the call and its answer. *)
Definition next_state (st : EFI_SIMPLE_NETWORK_STATE) (l : label) : EFI_SIMPLE_NETWORK_STATE :=
  match l, st with
  | Call OpStart _, EfiSimpleNetworkStopped => EfiSimpleNetworkStarted
  | Call OpStop _, _ => EfiSimpleNetworkStopped
  | Call OpInitialize (RepStatus r), (EfiSimpleNetworkStarted | EfiSimpleNetworkMaxState) =>
      if EFI_ERROR r then st else EfiSimpleNetworkInitialized
  | Call OpReset (RepStatus r), EfiSimpleNetworkInitialized =>
      if EFI_ERROR r then EfiSimpleNetworkStarted else EfiSimpleNetworkInitialized
  | Call OpShutdown _, (EfiSimpleNetworkStarted | EfiSimpleNetworkInitialized | EfiSimpleNetworkMaxState) =>
      EfiSimpleNetworkStarted
  | _, _ => st
  end.

(** The steps that lose pages: a Stop of the protocol while the interface is
    initialized, which loses all of them, and an attempt to bring the interface
    up that fails, which loses those it had allocated. *)
Definition abandons (st : EFI_SIMPLE_NETWORK_STATE) (l : label) : bool :=
  match l, st with Call OpStop _, EfiSimpleNetworkInitialized => true | _, _ => false end.
Definition fails_up (st : EFI_SIMPLE_NETWORK_STATE) (l : label) : bool :=
  match l, st with
  | Call OpInitialize (RepStatus r), (EfiSimpleNetworkStarted | EfiSimpleNetworkMaxState) => EFI_ERROR r
  | Call OpReset (RepStatus r), EfiSimpleNetworkInitialized => EFI_ERROR r
  | _, _ => false
  end.

(** How often a run does the one or the other. *)
Fixpoint losses (loses : EFI_SIMPLE_NETWORK_STATE → label → bool) (st : EFI_SIMPLE_NETWORK_STATE)
    (tr : list label) : nat :=
  match tr with
  | [] => 0
  | l :: tr => (if loses st l then 1 else 0) + losses loses (next_state st l) tr
  end.

(** [up_pages] of a known state. *)
Ltac pages_of :=
  change (up_pages EfiSimpleNetworkStopped) with 0%nat in *; change (up_pages EfiSimpleNetworkStarted) with 0%nat in *;
  change (up_pages EfiSimpleNetworkMaxState) with 0%nat in *;
  change (up_pages EfiSimpleNetworkInitialized) with LINK_PAGES in *.

(** The pages of the specification over a step. *)
Lemma link_step_pages k l k' : link_step k l k' → (up_pages (link_state k) <= k_pages k)%nat →
  link_state k' = next_state (link_state k) l ∧ (up_pages (link_state k') <= k_pages k')%nat ∧
  ∃ n, (n <= if fails_up (link_state k) l then LINK_PAGES else 0)%nat ∧
    (k_pages k' + up_pages (link_state k) =
     k_pages k + up_pages (link_state k') + (if abandons (link_state k) l then LINK_PAGES else 0) + n)%nat.
Proof.
  intros St Le. destruct St as [ch op k r k' [_ Cp] C|f k Up _|k].
  2-3: split_and!; try done; exists 0%nat; cbn; unfold link_state; cbn; lia.
  assert (∀ k2, k' = k2 → link_state k2 = link_state k → k_pages k2 = k_pages k →
    next_state (link_state k) (Call op r) = link_state k → abandons (link_state k) (Call op r) = false →
    link_state k' = next_state (link_state k) (Call op r) ∧ (up_pages (link_state k') <= k_pages k')%nat ∧
    ∃ n, (n <= if fails_up (link_state k) (Call op r) then LINK_PAGES else 0)%nat ∧
      (k_pages k' + up_pages (link_state k) = k_pages k + up_pages (link_state k') +
        (if abandons (link_state k) (Call op r) then LINK_PAGES else 0) + n)%nat) as Same.
  { intros k2 -> E1 E2 E3 E4. rewrite E1, E2, E3, E4. split_and!; [done..|]. exists 0%nat. lia. }
  unfold link_call in C. destruct op; destruct (link_state k) eqn:D.
  all: try (injection C as <- <-; apply (Same _ eq_refl); (done || by cbn)).
  all: try (apply (Same k'); try done;
    by repeat first [progress cbn in C|progress injection C as <- <-|progress case_match]).
  all: unfold link_up_try in C; cbn [k_mode k_stats k_pages] in C.
  all: try (destruct (EFI_ERROR (ch_up ch)) eqn:X; rewrite ?X in C; cbn [EFI_ERROR] in C).
  all: try (change (EFI_ERROR EFI_SUCCESS) with false in C; cbv iota in C).
  all: injection C as <- <-; unfold at_state, link_state in *; cbn in *; rewrite ?X, ?D in *; cbn in *;
    rewrite ?X in *; (split_and!; [done|pages_of; lia|]).
  all: first [exists (ch_pages ch); pages_of; lia|exists 0%nat; pages_of; lia].
Qed.

Lemma link_steps_pages k tr k' : link_steps k tr k' → (up_pages (link_state k) <= k_pages k)%nat →
  (up_pages (link_state k') <= k_pages k')%nat ∧
  (k_pages k - up_pages (link_state k) + losses abandons (link_state k) tr * LINK_PAGES <=
   k_pages k' - up_pages (link_state k') <=
   k_pages k - up_pages (link_state k) +
     (losses abandons (link_state k) tr + losses fails_up (link_state k) tr) * LINK_PAGES)%nat.
Proof.
  intros St. induction St as [k|k l k1 tr k2 S1 _ IH]; intros Le; [cbn; lia|].
  destruct (link_step_pages k l k1 S1 Le) as (E & Le1 & n & Hn & P). destruct (IH Le1) as (Le2 & L & U).
  split; [done|]. cbn [losses]. rewrite <- E. revert Hn P L U.
  destruct (fails_up _ _), (abandons _ _); generalize LINK_PAGES; intros; nia.
Qed.

Section Life.
Context {H : Type} `{EthHw H}.

(** The board's address has the size of an EFI_MAC_ADDRESS, as [BoardInfo] keeps it. *)
Definition board_ok (an : ANSWERS) : Prop := len (board_mac an) = SIZEOF_EFI_MAC_ADDRESS.

Definition started_ctx (an : ANSWERS) (h : H) : AL_ETH_NEXT_CONTEXT :=
  let c := start_bars an zero_context in set_SnpMode c (start_mode (fst (mac_choice an (EcBase c) h))).

Definition enabled (a : Z) : Z := Z.lor a (Z.lor EFI_PCI_IO_ATTRIBUTE_MEMORY EFI_PCI_IO_ATTRIBUTE_BUS_MASTER).

Definition all_held (an : ANSWERS) : list RESOURCE :=
  ([PciIoByChild; ChildProtocols] ++ (if an_append an then [DevicePathPool] else []) ++
   [ExitBootServicesEvent; WaitForPacketEvent; ContextPool; PciIoByDriver])%list.

(** Start, case by case. *)
Lemma start_run an a h : board_ok an →
  AlEthNextStart an (mkBinding [] a) h =
    match AlEthNextStart an (mkBinding [] a) h with
    | Some (EFI_SUCCESS, Some (c, o), b, h') => Some (EFI_SUCCESS, Some (started_ctx an h, a), mkBinding (all_held an) (enabled a), h')
    | Some (st, _, b, h') => Some (st, None, mkBinding [] a, h')
    | None => None
    end ∧
  (AlEthNextStart an (mkBinding [] a) h = None → an_append an = false ∧ EFI_ERROR (an_install an) = true) ∧
  (∀ st r b h', AlEthNextStart an (mkBinding [] a) h = Some (st, r, b, h') →
     EFI_ERROR st = match r with Some _ => false | None => true end).
Proof.
  intros L. unfold AlEthNextStart.
  destruct (EFI_ERROR (an_open_pci an)) eqn:E1.
  { split_and!; [|done|by intros st r b h' [= <- <- _ _]]. destruct (an_open_pci an); done. }
  destruct (an_context an); cbn [negb]; [|split_and!; try done; by intros st r b h' [= <- <- _ _]].
  cbv zeta. destruct (EcBase (start_bars an zero_context) =? 0) eqn:E0.
  { split_and!; try done; by intros st r b h' [= <- <- _ _]. }
  rewrite (start_mac_run an _ h L). cbn [mbind option_bind].
  destruct (mac_choice an (EcBase (start_bars an zero_context)) h) as [m h1] eqn:Em.
  assert (set_SnpMode (start_bars an zero_context) (start_mode m) = started_ctx an h) as Ec
    by (unfold started_ctx; by rewrite Em).
  destruct (EFI_ERROR (an_wait_event an)) eqn:E2.
  { split_and!; [|done|by intros st r b h' [= <- <- _ _]]. destruct (an_wait_event an); done. }
  destruct (EFI_ERROR (an_exit_event an)) eqn:E3.
  { split_and!; [|done|by intros st r b h' [= <- <- _ _]]. destruct (an_exit_event an); done. }
  destruct (EFI_ERROR (an_open_path an)) eqn:E4.
  { split_and!; [|done|by intros st r b h' [= <- <- _ _]]. destruct (an_open_path an); done. }
  destruct (an_path an); cbn [negb]; [|split_and!; try done; by intros st r b h' [= <- <- _ _]].
  destruct (EFI_ERROR (an_install an)) eqn:E5.
  - destruct (an_append an); [|done].
    split_and!; [|done|by intros st r b h' [= <- <- _ _]]. destruct (an_install an); done.
  - rewrite Ec. split_and!; [|done|by intros st r b h' [= <- <- _ _]].
    unfold all_held. by destruct (an_append an).
Qed.

Lemma start_failed an a h st b h' : board_ok an →
  AlEthNextStart an (mkBinding [] a) h = Some (st, None, b, h') → EFI_ERROR st = true ∧ b = mkBinding [] a.
Proof.
  intros L E. destruct (start_run an a h L) as (R & _ & X). specialize (X _ _ _ _ E). split; [done|].
  rewrite E in R. destruct st; by injection R.
Qed.

Lemma start_succeeded an a h st c o b h' : board_ok an →
  AlEthNextStart an (mkBinding [] a) h = Some (st, Some (c, o), b, h') →
  st = EFI_SUCCESS ∧ c = started_ctx an h ∧ o = a ∧ b = mkBinding (all_held an) (enabled a).
Proof.
  intros L E. destruct (start_run an a h L) as (R & _ & X). specialize (X _ _ _ _ E).
  rewrite E in R. destruct st; try done; by injection R.
Qed.

(** The interface that Start installs satisfies the protocol's invariant. *)
Lemma started_inv an (h h' : H) m pg sc : board_ok an →
  link_inv (mkEth (started_ctx an h) h' m pg sc)
    (mkLink (SnpMode (started_ctx an h)) [] 0 (Stats (started_ctx an h)) (size pg)).
Proof.
  intros L. pose proof (mac_choice_len an (EcBase (start_bars an zero_context)) h L) as Lm.
  constructor; done.
Qed.

Lemma stop_run s k an a : link_inv s k → an_append an = true →
  ∃ s', AlEthNextStop 1 EFI_SUCCESS EFI_SUCCESS a (mkBinding (all_held an) (enabled a)) s =
      Some ((EFI_SUCCESS, mkBinding [PciIoByDriver] a), s') ∧
    size (pages s') = (k_pages k - up_pages (link_state k))%nat.
Proof.
  intros I A. unfold AlEthNextStop, all_held. rewrite A. change (1 =? 0) with false.
  change (EFI_ERROR EFI_SUCCESS) with false. cbv iota zeta. rewrite bind_get, (inv_state s k I).
  rewrite <- (in_pages _ _ I). unfold up_pages. destruct (decide (link_state k = EfiSimpleNetworkInitialized)) as [D|N].
  - rewrite !(bool_decide_eq_true_2 (link_state k = _)) by done. destruct (in_up _ _ I D) as (R & (qr & C & Rr) & (qt & P & C' & Rt) & _).
    destruct (rr_q _ _ _ _ _ _ Rr) as [E1 Q1]. destruct (tr_q _ _ _ _ _ Rt) as [E2 Q2]. cbn in E1, Q1, E2, Q2.
    destruct (HwShutdown_run s qt (rr_bufs _ _ _ _ _ _ Rr) R E1 (mk_is_Some _ _ Q1) E2 Q2) as (s' & E & Sz & _).
    exists s'. split; [|lia]. rewrite (bind_run _ _ _ _ _ E). reflexivity.
  - rewrite !(bool_decide_eq_false_2 (link_state k = _)) by done. exists s. split; [reflexivity|lia].
Qed.

(** Without a device path the first FreePool of Stop is given a null pointer. *)
Lemma stop_no_path s k an a : link_inv s k → an_append an = false →
  AlEthNextStop 1 EFI_SUCCESS EFI_SUCCESS a (mkBinding (all_held an) (enabled a)) s = None.
Proof.
  intros I A. unfold AlEthNextStop, all_held. rewrite A. change (1 =? 0) with false.
  change (EFI_ERROR EFI_SUCCESS) with false. cbv iota zeta. rewrite bind_get, (inv_state s k I).
  destruct (decide (link_state k = EfiSimpleNetworkInitialized)) as [D|N].
  - rewrite !(bool_decide_eq_true_2 (link_state k = _)) by done. destruct (in_up _ _ I D) as (R & (qr & C & Rr) & (qt & P & C' & Rt) & _).
    destruct (rr_q _ _ _ _ _ _ Rr) as [E1 Q1]. destruct (tr_q _ _ _ _ _ Rt) as [E2 Q2]. cbn in E1, Q1, E2, Q2.
    destruct (HwShutdown_run s qt (rr_bufs _ _ _ _ _ _ Rr) R E1 (mk_is_Some _ _ Q1) E2 Q2) as (s' & E & _).
    rewrite (bind_run _ _ _ _ _ E). reflexivity.
  - by rewrite !(bool_decide_eq_false_2 (link_state k = _)) by done.
Qed.
End Life.

(** ** Properties *)

(** C30: Start is all or nothing: it either installs the interface, holding what
    it needs, with the context of [started_ctx] and a MAC address that is not
    zero, or it returns an error with nothing held and the PCI attributes as they
    were; only when the device path cannot be built and the installation then
    fails does it do neither, and free a null pointer. *)
Theorem AlEthNextStart_all_or_nothing {H} `{EthHw H} an a (h : H) (Hboard : board_ok an) :
  match AlEthNextStart an (mkBinding [] a) h with
  | Some (st, None, b, _) => EFI_ERROR st = true ∧ b = mkBinding [] a
  | Some (st, Some (c, orig), b, _) =>
      st = EFI_SUCCESS ∧ c = started_ctx an h ∧ orig = a ∧ b = mkBinding (all_held an) (enabled a) ∧
      mac_zero (CurrentAddress (SnpMode c)) = false
  | None => an_append an = false ∧ EFI_ERROR (an_install an) = true
  end.
Proof.
  destruct (AlEthNextStart an (mkBinding [] a) h) as [[[[st [[c o]|]] b] h']|] eqn:E.
  - destruct (start_succeeded _ _ _ _ _ _ _ _ Hboard E) as (-> & -> & -> & ->). split_and!; try done.
    apply mac_choice_nonzero.
  - by apply (start_failed an a h st b h').
  - by apply (start_run an a h Hboard).
Qed.

(** C9: What the driver's life leaves behind, exactly. After a Start that
    succeeded, any run of the network protocol and of the controller, and the two
    Stops of the driver binding, with the child and without, when the child's
    protocols open and uninstall: the driver holds no protocol, event or pool
    allocation, the PCI attributes are what they were before Start, and the pages
    are those from before Start together with 33 for every time the protocol's
    Stop was called on an initialized interface, which the driver never gives back
    (and whose hardware it leaves running), and at most 33 for every Initialize or
    Reset that failed halfway; so that without these two nothing is left. When the
    device path could not be extended at Start, the binding's Stop frees a null
    pointer instead. *)
Theorem driver_life {H} `{EthHwLaws H} an a (h : H) st c orig b h' m pg sc tr s
    (Hboard : board_ok an)
    (Hstart : AlEthNextStart an (mkBinding [] a) h = Some (st, Some (c, orig), b, h'))
    (Hrun : snp_steps (mkEth c h' m pg sc) tr s) :
  if an_append an then
    ∃ b1 s1, AlEthNextStop 1 EFI_SUCCESS EFI_SUCCESS orig b s = Some ((EFI_SUCCESS, b1), s1) ∧
      AlEthNextStop 0 EFI_SUCCESS EFI_SUCCESS orig b1 s1 = Some ((EFI_SUCCESS, mkBinding [] a), s1) ∧
      let abandoned := losses abandons EfiSimpleNetworkStopped tr in
      let failed := losses fails_up EfiSimpleNetworkStopped tr in
      (size pg + abandoned * LINK_PAGES <= size (pages s1) <= size pg + (abandoned + failed) * LINK_PAGES)%nat
  else AlEthNextStop 1 EFI_SUCCESS EFI_SUCCESS orig b s = None.
Proof.
  destruct (start_succeeded _ _ _ _ _ _ _ _ Hboard Hstart) as (-> & -> & -> & ->).
  destruct (steps_sim _ _ tr s (started_inv an h h' m pg sc Hboard) Hrun) as (k & L & I).
  destruct (an_append an) eqn:A; [|by eapply stop_no_path].
  destruct (stop_run s k an a I A) as (s1 & E & Sz).
  destruct (link_steps_pages _ tr k L (Nat.le_0_l _)) as (_ & Lo & Hi).
  do 2 eexists. split; [exact E|]. split; [reflexivity|]. rewrite Sz.
  change (up_pages (link_state (mkLink _ _ _ _ _))) with 0%nat in Lo, Hi.
  change (link_state (mkLink _ _ _ _ _)) with EfiSimpleNetworkStopped in Lo, Hi. cbn [k_pages] in Lo, Hi.
  rewrite Nat.sub_0_r in Lo, Hi. cbv zeta. done.
Qed.

(** ** Witnesses *)

Definition demo_answers : ANSWERS :=
  mkAnswers EFI_SUCCESS AL_ETH_VENDOR_ID AL_ETH_DEVICE_ID true (λ i, 0xFC000000 + i * 0x10000) None 0x112233445566
    EFI_SUCCESS EFI_SUCCESS EFI_SUCCESS true true EFI_SUCCESS.

Lemma AlEthNextStart_all_or_nothing_witness :
  match AlEthNextStart (H := DemoHw) demo_answers (mkBinding [] 7) ∅ with
  | Some (st, None, b, _) => EFI_ERROR st = true ∧ b = mkBinding [] 7
  | Some (st, Some (c, orig), b, _) =>
      st = EFI_SUCCESS ∧ c = started_ctx (H := DemoHw) demo_answers ∅ ∧ orig = 7 ∧
      b = mkBinding (all_held demo_answers) (enabled 7) ∧ mac_zero (CurrentAddress (SnpMode c)) = false
  | None => an_append demo_answers = false ∧ EFI_ERROR (an_install demo_answers) = true
  end.
Proof. apply (AlEthNextStart_all_or_nothing (H := DemoHw) demo_answers 7 ∅). reflexivity. Defined.

(** Started and initialized, with the 33 pages there; then stopped, once with the
    interface up and once after the protocol's Stop. *)
Definition demo_c : AL_ETH_NEXT_CONTEXT := started_ctx (H := DemoHw) demo_answers ∅.
Definition demo_b : BINDING := mkBinding (all_held demo_answers) (enabled 7).
Definition demo_e : ETH DemoHw := mkEth demo_c ∅ ∅ ∅ (demo_pages 0x100000 33).
Definition demo_e1 : ETH DemoHw := run_op OpInitialize (run_op OpStart demo_e).
Definition demo_e2 : ETH DemoHw := run_op OpStop demo_e1.
Definition demo_life1 : list label := [Call OpStart (RepStatus EFI_SUCCESS); Call OpInitialize (RepStatus EFI_SUCCESS)].
Definition demo_life2 : list label := (demo_life1 ++ [Call OpStop (RepStatus EFI_SUCCESS)])%list.

Lemma demo_initialize : snp_step (run_op OpStart demo_e) (Call OpInitialize (RepStatus EFI_SUCCESS)) demo_e1.
Proof.
  apply run_op_step; [exact Logic.I| |vm_compute; reflexivity].
  refine (demo_script ∅ 0x100000 33 _ _ _ _); try done. by exists 256.
Qed.

Lemma demo_life2_steps : snp_steps demo_e demo_life2 demo_e2.
Proof.
  refine (snp_cons _ _ (run_op OpStart demo_e) _ _ _ (snp_cons _ _ _ _ _ demo_initialize (snp_cons _ _ _ _ _ _ (snp_nil _))));
    (apply run_op_step; [exact Logic.I..|vm_compute; reflexivity]).
Qed.

Lemma demo_life1_steps : snp_steps demo_e demo_life1 demo_e1.
Proof.
  refine (snp_cons _ _ (run_op OpStart demo_e) _ _ _ (snp_cons _ _ _ _ _ demo_initialize (snp_nil _))).
  apply run_op_step; [exact Logic.I..|vm_compute; reflexivity].
Qed.

Lemma demo_start_binding :
  AlEthNextStart (H := DemoHw) demo_answers (mkBinding [] 7) ∅ = Some (EFI_SUCCESS, Some (demo_c, 7), demo_b, ∅).
Proof. vm_compute. reflexivity. Qed.

Lemma driver_life_witness :
  State (SnpMode (ctx demo_e1)) = EfiSimpleNetworkInitialized ∧ size (pages demo_e1) = 33%nat ∧
  (∃ b1 s1, AlEthNextStop 1 EFI_SUCCESS EFI_SUCCESS 7 demo_b demo_e1 = Some ((EFI_SUCCESS, b1), s1) ∧
    AlEthNextStop 0 EFI_SUCCESS EFI_SUCCESS 7 b1 s1 = Some ((EFI_SUCCESS, mkBinding [] 7), s1) ∧
    (0 <= size (pages s1) <= 0)%nat) ∧
  (∃ b1 s1, AlEthNextStop 1 EFI_SUCCESS EFI_SUCCESS 7 demo_b demo_e2 = Some ((EFI_SUCCESS, b1), s1) ∧
    AlEthNextStop 0 EFI_SUCCESS EFI_SUCCESS 7 b1 s1 = Some ((EFI_SUCCESS, mkBinding [] 7), s1) ∧
    (33 <= size (pages s1) <= 33)%nat).
Proof.
  split; [vm_compute; reflexivity|]. split; [vm_compute; reflexivity|]. split.
  - exact (driver_life demo_answers 7 ∅ EFI_SUCCESS demo_c 7 demo_b ∅ ∅ ∅ (demo_pages 0x100000 33) demo_life1 demo_e1
             eq_refl demo_start_binding demo_life1_steps).
  - exact (driver_life demo_answers 7 ∅ EFI_SUCCESS demo_c 7 demo_b ∅ ∅ ∅ (demo_pages 0x100000 33) demo_life2 demo_e2
             eq_refl demo_start_binding demo_life2_steps).
Defined.
