(* ===== verification/Format.v ===== *)
(** * The block formatting application

    Application/FormatBlockApp/FormatBlockApp.c: a protective MBR, a GPT with one
    partition and a FAT16 or FAT32 volume in it, on a block device or a RAM disk.

    The block device is a parameter, the class [BlockIo]. A buffer is the list of
    its bytes; a field of a packed structure is a store of its little-endian bytes
    at the field's offset. [CalculateCrc32] is a parameter: the theorems hold for
    any function of the bytes. *)

From S2P Require Import Prelude Efi.

(** ** The environment *)

Record EFI_BLOCK_IO_MEDIA := mkMedia { ReadOnly : bool; BlockSize : Z; LastBlock : Z }.

(** [EFI_BLOCK_IO_PROTOCOL]; every write of the program is of one block. *)
Class BlockIo (D : Type) := {
  Media : D → EFI_BLOCK_IO_MEDIA;
  WriteBlocks : Z → list Z → D → EFI_STATUS * D;
  FlushBlocks : D → EFI_STATUS * D
}.

Inductive EVENT := DisconnectController | ConnectController | RamDiskRegister (Base Size : Z).

Record ENV (D : Type) := mkEnv {
  pool : Pool;
  dev : D;
  live_pages : Z;          (* pages allocated and not freed *)
  events : list EVENT      (* latest first *)
}.
Arguments mkEnv {D} _ _ _ _.
Arguments pool {D} _.
Arguments dev {D} _.
Arguments live_pages {D} _.
Arguments events {D} _.

Section Code.
Context {D : Type} `{BlockIo D} (crc32 : list Z → Z).

Definition App (A : Type) : Type := ENV D → option (A * ENV D).

#[global] Instance App_ret : MRet App := λ A a e, Some (a, e).
#[global] Instance App_bind : MBind App := λ A B f m e,
  match m e with Some (a, e') => f a e' | None => None end.

Definition lift {A} (o : option A) : App A := λ e, match o with Some a => Some (a, e) | None => None end.

Definition AllocateZeroPool (n : Z) : App (option (list Z)) := λ e,
  let '(ok, p) := AllocatePool (pool e) in
  Some (if ok then Some (replicate (Z.to_nat n) 0) else None, mkEnv p (dev e) (live_pages e) (events e)).
Definition Free : App unit := λ e, Some (tt, mkEnv (FreePool (pool e)) (dev e) (live_pages e) (events e)).
Definition WriteBlock (Lba : Z) (Buffer : list Z) : App EFI_STATUS := λ e,
  let '(Status, d) := WriteBlocks Lba Buffer (dev e) in
  Some (Status, mkEnv (pool e) d (live_pages e) (events e)).
Definition event (v : EVENT) : App unit := λ e,
  Some (tt, mkEnv (pool e) (dev e) (live_pages e) (v :: events e)).

(** Stores at offsets of a buffer, in order. *)
Fixpoint stores (l : list (Z * list Z)) (b : list Z) : option (list Z) :=
  match l with
  | [] => Some b
  | (off, data) :: l => b ← wrn b off data; stores l b
  end.

(** ** Constants and structures *)

Definition guid_bytes (g : EFI_GUID) : list Z :=
  le_bytes 4 (Data1 g) ++ le_bytes 2 (Data2 g) ++ le_bytes 2 (Data3 g) ++ Data4 g.

Definition mEspTypeGuid : EFI_GUID :=
  mkGuid 0xC12A7328 0xF81F 0x11D2 [0xBA; 0x4B; 0x00; 0xA0; 0xC9; 0x3E; 0xC9; 0x3B].
Definition mDiskGuid : EFI_GUID :=
  mkGuid 0xA0A1A2A3 0xB0B1 0xC0C1 [0xD0; 0xD1; 0xD2; 0xD3; 0xD4; 0xD5; 0xD6; 0xD7].
Definition mPartGuid : EFI_GUID :=
  mkGuid 0xE0E1E2E3 0xF0F1 0x0001 [0x10; 0x11; 0x12; 0x13; 0x14; 0x15; 0x16; 0x17].

Definition GPT_ENTRY_COUNT : Z := 128.
Definition GPT_ENTRY_SIZE : Z := 128.
Definition GPT_ENTRIES_LBAS (BlkSz : Z) : Z := (GPT_ENTRY_COUNT * GPT_ENTRY_SIZE +u32 BlkSz -u32 1) / BlkSz.
Definition FAT16_ROOT_ENTRY_COUNT : Z := 512.
Definition FAT16_ROOT_DIR_SECTORS (BlkSz : Z) : Z := (FAT16_ROOT_ENTRY_COUNT * 32 +u32 BlkSz -u32 1) / BlkSz.

(** From the UEFI headers. *)
Definition EFI_PTAB_HEADER_ID : Z := 0x5452415020494645.
Definition PRIMARY_PART_HEADER_LBA : Z := 1.
Definition SIZEOF_EFI_PARTITION_TABLE_HEADER : Z := 92.

(** Offsets of fields: MASTER_BOOT_RECORD and its first MBR_PARTITION_RECORD, *)
Definition Mbr_Partition0 : Z := 446.
Definition Mbr_BootIndicator : Z := Mbr_Partition0 + 0.
Definition Mbr_StartHead : Z := Mbr_Partition0 + 1.
Definition Mbr_StartSector : Z := Mbr_Partition0 + 2.
Definition Mbr_StartTrack : Z := Mbr_Partition0 + 3.
Definition Mbr_OSIndicator : Z := Mbr_Partition0 + 4.
Definition Mbr_EndHead : Z := Mbr_Partition0 + 5.
Definition Mbr_EndSector : Z := Mbr_Partition0 + 6.
Definition Mbr_EndTrack : Z := Mbr_Partition0 + 7.
Definition Mbr_StartingLBA : Z := Mbr_Partition0 + 8.
Definition Mbr_SizeInLBA : Z := Mbr_Partition0 + 12.
Definition Mbr_Signature : Z := 510.

(** EFI_PARTITION_TABLE_HEADER and EFI_PARTITION_ENTRY, *)
Definition Hdr_Signature : Z := 0.
Definition Hdr_Revision : Z := 8.
Definition Hdr_HeaderSize : Z := 12.
Definition Hdr_CRC32 : Z := 16.
Definition Hdr_Reserved : Z := 20.
Definition Hdr_MyLBA : Z := 24.
Definition Hdr_AlternateLBA : Z := 32.
Definition Hdr_FirstUsableLBA : Z := 40.
Definition Hdr_LastUsableLBA : Z := 48.
Definition Hdr_DiskGUID : Z := 56.
Definition Hdr_PartitionEntryLBA : Z := 72.
Definition Hdr_NumberOfPartitionEntries : Z := 80.
Definition Hdr_SizeOfPartitionEntry : Z := 84.
Definition Hdr_PartitionEntryArrayCRC32 : Z := 88.
Definition Entry_PartitionTypeGUID : Z := 0.
Definition Entry_UniquePartitionGUID : Z := 16.
Definition Entry_StartingLBA : Z := 32.
Definition Entry_EndingLBA : Z := 40.
Definition Entry_Attributes : Z := 48.
Definition Entry_PartitionName : Z := 56.

(** the part that FAT16_BOOT_SECTOR and FAT32_BOOT_SECTOR share, *)
Definition Bpb_JmpBoot : Z := 0.
Definition Bpb_OEMName : Z := 3.
Definition Bpb_BytsPerSec : Z := 11.
Definition Bpb_SecPerClus : Z := 13.
Definition Bpb_RsvdSecCnt : Z := 14.
Definition Bpb_NumFATs : Z := 16.
Definition Bpb_RootEntCnt : Z := 17.
Definition Bpb_TotSec16 : Z := 19.
Definition Bpb_Media : Z := 21.
Definition Bpb_FATSz16 : Z := 22.
Definition Bpb_SecPerTrk : Z := 24.
Definition Bpb_NumHeads : Z := 26.
Definition Bpb_HiddSec : Z := 28.
Definition Bpb_TotSec32 : Z := 32.
Definition Bpb_Signature : Z := 510.
(** the rest of the one and of the other, *)
Definition Fat16_DrvNum16 : Z := 36.
Definition Fat16_BootSig16 : Z := 38.
Definition Fat16_VolID16 : Z := 39.
Definition Fat16_VolLab16 : Z := 43.
Definition Fat16_FilSysType16 : Z := 54.
Definition Fat32_FATSz32 : Z := 36.
Definition Fat32_ExtFlags : Z := 40.
Definition Fat32_FSVer : Z := 42.
Definition Fat32_RootClus : Z := 44.
Definition Fat32_FSInfo : Z := 48.
Definition Fat32_BkBootSec : Z := 50.
Definition Fat32_DrvNum : Z := 64.
Definition Fat32_BootSig : Z := 66.
Definition Fat32_VolID : Z := 67.
Definition Fat32_VolLab : Z := 71.
Definition Fat32_FilSysType : Z := 82.
(** and FAT32_FSINFO. *)
Definition FsInfo_LeadSig : Z := 0.
Definition FsInfo_StrucSig : Z := 484.
Definition FsInfo_Free_Count : Z := 488.
Definition FsInfo_Nxt_Free : Z := 492.
Definition FsInfo_TrailSig : Z := 508.

(** "MTIKUEFI", "EFI SYSTEM ", "FAT16   ", "FAT32   ", and L"EFI System" with its
    terminator. *)
Definition oem_name : list Z := [77; 84; 73; 75; 85; 69; 70; 73].
Definition vol_label : list Z := [69; 70; 73; 32; 83; 89; 83; 84; 69; 77; 32].
Definition fat16_name : list Z := [70; 65; 84; 49; 54; 32; 32; 32].
Definition fat32_name : list Z := [70; 65; 84; 51; 50; 32; 32; 32].
Definition part_name : list Z :=
  [69; 0; 70; 0; 73; 0; 32; 0; 83; 0; 121; 0; 115; 0; 116; 0; 101; 0; 109; 0; 0; 0].

(** ** Protective MBR *)

Definition mbr_end (TotalBlocks : Z) : Z :=
  if 0xFFFFFFFF <? TotalBlocks -u64 1 then 0xFFFFFFFF else u32 (TotalBlocks -u64 1).

Definition mbr_fields (TotalBlocks : Z) : list (Z * list Z) :=
  [(Mbr_BootIndicator, [0x00]); (Mbr_OSIndicator, [0xEE]); (Mbr_StartHead, [0x00]);
   (Mbr_StartSector, [0x02]); (Mbr_StartTrack, [0x00]); (Mbr_EndHead, [0xFF]);
   (Mbr_EndSector, [0xFF]); (Mbr_EndTrack, [0xFF]); (Mbr_StartingLBA, le_bytes 4 1);
   (Mbr_SizeInLBA, le_bytes 4 (mbr_end TotalBlocks)); (Mbr_Signature, le_bytes 2 0xAA55)].

Definition WriteProtectiveMbr (BlockSize TotalBlocks : Z) : App EFI_STATUS :=
  Mbr ← AllocateZeroPool BlockSize;
  match Mbr with
  | None => mret EFI_OUT_OF_RESOURCES
  | Some Mbr =>
      Mbr ← lift (stores (mbr_fields TotalBlocks) Mbr);
      Status ← WriteBlock 0 Mbr;
      _ ← Free;
      mret Status
  end.

(** ** GPT *)

Definition gpt_entry0 (FirstUsable LastUsable : Z) : list (Z * list Z) :=
  [(Entry_PartitionTypeGUID, guid_bytes mEspTypeGuid);
   (Entry_UniquePartitionGUID, guid_bytes mPartGuid);
   (Entry_StartingLBA, le_bytes 8 FirstUsable); (Entry_EndingLBA, le_bytes 8 LastUsable);
   (Entry_Attributes, le_bytes 8 0); (Entry_PartitionName, part_name)].

Definition gpt_primary (FirstUsable LastUsable BackupHdrLba EntriesCrc : Z) : list (Z * list Z) :=
  [(Hdr_Signature, le_bytes 8 EFI_PTAB_HEADER_ID); (Hdr_Revision, le_bytes 4 0x00010000);
   (Hdr_HeaderSize, le_bytes 4 SIZEOF_EFI_PARTITION_TABLE_HEADER); (Hdr_CRC32, le_bytes 4 0);
   (Hdr_Reserved, le_bytes 4 0); (Hdr_MyLBA, le_bytes 8 PRIMARY_PART_HEADER_LBA);
   (Hdr_AlternateLBA, le_bytes 8 BackupHdrLba); (Hdr_FirstUsableLBA, le_bytes 8 FirstUsable);
   (Hdr_LastUsableLBA, le_bytes 8 LastUsable); (Hdr_DiskGUID, guid_bytes mDiskGuid);
   (Hdr_PartitionEntryLBA, le_bytes 8 2); (Hdr_NumberOfPartitionEntries, le_bytes 4 GPT_ENTRY_COUNT);
   (Hdr_SizeOfPartitionEntry, le_bytes 4 GPT_ENTRY_SIZE);
   (Hdr_PartitionEntryArrayCRC32, le_bytes 4 EntriesCrc)].

Definition gpt_backup (BackupHdrLba BackupEntriesLba : Z) : list (Z * list Z) :=
  [(Hdr_MyLBA, le_bytes 8 BackupHdrLba); (Hdr_AlternateLBA, le_bytes 8 PRIMARY_PART_HEADER_LBA);
   (Hdr_PartitionEntryLBA, le_bytes 8 BackupEntriesLba)].

(** The header's CRC, over its first HeaderSize bytes with the field cleared. *)
Definition crc_header (Hdr : list Z) : option (list Z) :=
  Hdr ← wrn Hdr Hdr_CRC32 (le_bytes 4 0);
  n ← le32 Hdr Hdr_HeaderSize;
  bytes ← rdn Hdr 0 n;
  wrn Hdr Hdr_CRC32 (le_bytes 4 (crc32 bytes)).

(** The loop that writes the entries block by block; [Ptr] is what is left of
    them. A turn takes at least a byte. *)
Fixpoint entries_loop (fuel : nat) (BlockSize Remaining Lba : Z) (Ptr : list Z) (Status : EFI_STATUS)
    : App EFI_STATUS :=
  if 0 <? Remaining then
    match fuel with
    | O => λ _, None
    | S fuel' =>
        let ChunkSize := if BlockSize <? Remaining then BlockSize else Remaining in
        LbaBlock ← lift (data ← rdn Ptr 0 ChunkSize; wrn (replicate (Z.to_nat BlockSize) 0) 0 data);
        Status ← WriteBlock Lba LbaBlock;
        if EFI_ERROR Status then mret Status
        else entries_loop fuel' BlockSize (Remaining -u32 ChunkSize) (Lba +u64 1)
               (drop (Z.to_nat ChunkSize) Ptr) Status
    end
  else mret Status.

Definition write_entries (BlockSize EntriesBytes Lba : Z) (Entries : list Z) (Status : EFI_STATUS)
    : App EFI_STATUS :=
  LbaBlock ← AllocateZeroPool BlockSize;
  match LbaBlock with
  | None => mret EFI_OUT_OF_RESOURCES
  | Some _ =>
      Status ← entries_loop (Z.to_nat EntriesBytes) BlockSize EntriesBytes Lba Entries Status;
      _ ← Free;
      mret Status
  end.

Definition WriteGpt (BlockSize TotalBlocks : Z) : App EFI_STATUS :=
  let EntriesLbas := GPT_ENTRIES_LBAS BlockSize in
  let EntriesBytes := GPT_ENTRY_COUNT * GPT_ENTRY_SIZE in
  let FirstUsable := 2 +u32 EntriesLbas in
  let LastUsable := TotalBlocks -u64 2 -u64 EntriesLbas in
  let BackupHdrLba := TotalBlocks -u64 1 in
  let BackupEntriesLba := LastUsable +u64 1 in
  if LastUsable <=? FirstUsable then mret EFI_VOLUME_FULL
  else
    Entries ← AllocateZeroPool EntriesBytes;
    match Entries with
    | None => mret EFI_OUT_OF_RESOURCES
    | Some Entries =>
        Entries ← lift (stores (gpt_entry0 FirstUsable LastUsable) Entries);
        Hdr ← AllocateZeroPool BlockSize;
        match Hdr with
        | None => _ ← Free; mret EFI_OUT_OF_RESOURCES
        | Some Hdr =>
            Hdr ← lift (stores (gpt_primary FirstUsable LastUsable BackupHdrLba (crc32 Entries)) Hdr);
            Hdr ← lift (crc_header Hdr);
            Status ← WriteBlock 1 Hdr;
            Status ←
              (if EFI_ERROR Status then mret Status
               else
                 Status ← write_entries BlockSize EntriesBytes 2 Entries Status;
                 if EFI_ERROR Status then mret Status
                 else
                   Status ← write_entries BlockSize EntriesBytes BackupEntriesLba Entries Status;
                   if EFI_ERROR Status then mret Status
                   else
                     Hdr ← lift (stores (gpt_backup BackupHdrLba BackupEntriesLba) Hdr);
                     Hdr ← lift (crc_header Hdr);
                     WriteBlock BackupHdrLba Hdr);
            _ ← Free;
            _ ← Free;
            mret Status
        end
    end.

(** ** The FAT volume *)

Record GEOMETRY := mkGeo {
  UseFat32 : bool;
  SecPerClus : Z;
  RsvdSecCnt : Z;
  RootDirSectors : Z;
  FatSz : Z;
  TotalClusters : Z
}.

(** The search for a FAT16 cluster size, from 2^i sectors, [n] sizes left: cluster
    size, FAT size and clusters. *)
Fixpoint try_fat16 (n : nat) (i BlockSize PartSectors RsvdSecCnt RootDirSectors : Z)
    : option (Z * Z * Z) :=
  match n with
  | O => None
  | S n' =>
      let TryClus := Z.shiftl 1 i in
      let TryClusters := u32 ((PartSectors -u64 RsvdSecCnt -u64 RootDirSectors) / TryClus) in
      let TryFatSz := ((TryClusters +u32 2) *u32 2 +u32 BlockSize -u32 1) / BlockSize in
      let DataSectors := u32 PartSectors -u32 RsvdSecCnt -u32 2 *u32 TryFatSz -u32 RootDirSectors in
      let TryClusters := DataSectors / TryClus in
      if (4085 <=? TryClusters) && (TryClusters <=? 65524) then Some (TryClus, TryFatSz, TryClusters)
      else try_fat16 n' (i + 1) BlockSize PartSectors RsvdSecCnt RootDirSectors
  end.

Definition fat32_geometry (BlockSize PartSectors : Z) : GEOMETRY :=
  let RsvdSecCnt := 32 in
  let SecPerClus := if 32768 <=? BlockSize then 1 else 32768 / BlockSize in
  let SecPerClus := if 128 <? SecPerClus then 128 else SecPerClus in
  let fat_size T := ((T +u32 2) *u32 4 +u32 BlockSize -u32 1) / BlockSize in
  let TotalClusters := u32 ((PartSectors -u64 RsvdSecCnt) / SecPerClus) in
  let FatSz := fat_size TotalClusters in
  let TotalClusters := u32 ((PartSectors -u64 RsvdSecCnt -u64 2 *u32 FatSz) / SecPerClus) in
  mkGeo true SecPerClus RsvdSecCnt 0 (fat_size TotalClusters) TotalClusters.

Definition fat_geometry (BlockSize PartSectors : Z) : GEOMETRY :=
  let RootDirSectors := FAT16_ROOT_DIR_SECTORS BlockSize in
  let RsvdSecCnt := 1 in
  match try_fat16 7 0 BlockSize PartSectors RsvdSecCnt RootDirSectors with
  | Some (SecPerClus, FatSz, TotalClusters) =>
      mkGeo false SecPerClus RsvdSecCnt RootDirSectors FatSz TotalClusters
  | None => fat32_geometry BlockSize PartSectors
  end.

Definition fat32_fields (BlockSize FirstUsable PartSectors : Z) (g : GEOMETRY) : list (Z * list Z) :=
  [(Bpb_JmpBoot + 0, [0xEB]); (Bpb_JmpBoot + 1, [0x58]); (Bpb_JmpBoot + 2, [0x90]);
   (Bpb_OEMName, oem_name); (Bpb_BytsPerSec, le_bytes 2 (u16 BlockSize));
   (Bpb_SecPerClus, [u8 (SecPerClus g)]); (Bpb_RsvdSecCnt, le_bytes 2 (u16 (RsvdSecCnt g)));
   (Bpb_NumFATs, [2]); (Bpb_RootEntCnt, le_bytes 2 0); (Bpb_TotSec16, le_bytes 2 0);
   (Bpb_Media, [0xF8]); (Bpb_FATSz16, le_bytes 2 0); (Bpb_SecPerTrk, le_bytes 2 63);
   (Bpb_NumHeads, le_bytes 2 255); (Bpb_HiddSec, le_bytes 4 (u32 FirstUsable));
   (Bpb_TotSec32, le_bytes 4 (u32 PartSectors)); (Fat32_FATSz32, le_bytes 4 (FatSz g));
   (Fat32_ExtFlags, le_bytes 2 0); (Fat32_FSVer, le_bytes 2 0); (Fat32_RootClus, le_bytes 4 2);
   (Fat32_FSInfo, le_bytes 2 1); (Fat32_BkBootSec, le_bytes 2 6); (Fat32_DrvNum, [0x80]);
   (Fat32_BootSig, [0x29]); (Fat32_VolID, le_bytes 4 0xDEADBEEF); (Fat32_VolLab, vol_label);
   (Fat32_FilSysType, fat32_name); (Bpb_Signature, le_bytes 2 0xAA55)].

Definition fat16_fields (BlockSize FirstUsable PartSectors : Z) (g : GEOMETRY) : list (Z * list Z) :=
  [(Bpb_JmpBoot + 0, [0xEB]); (Bpb_JmpBoot + 1, [0x3C]); (Bpb_JmpBoot + 2, [0x90]);
   (Bpb_OEMName, oem_name); (Bpb_BytsPerSec, le_bytes 2 (u16 BlockSize));
   (Bpb_SecPerClus, [u8 (SecPerClus g)]); (Bpb_RsvdSecCnt, le_bytes 2 (u16 (RsvdSecCnt g)));
   (Bpb_NumFATs, [2]); (Bpb_RootEntCnt, le_bytes 2 FAT16_ROOT_ENTRY_COUNT);
   (Bpb_Media, [0xF8]); (Bpb_FATSz16, le_bytes 2 (u16 (FatSz g))); (Bpb_SecPerTrk, le_bytes 2 63);
   (Bpb_NumHeads, le_bytes 2 255); (Bpb_HiddSec, le_bytes 4 (u32 FirstUsable));
   (Bpb_TotSec16, le_bytes 2 (if PartSectors <=? 0xFFFF then u16 PartSectors else 0));
   (Bpb_TotSec32, le_bytes 4 (if PartSectors <=? 0xFFFF then 0 else u32 PartSectors));
   (Fat16_DrvNum16, [0x80]); (Fat16_BootSig16, [0x29]); (Fat16_VolID16, le_bytes 4 0xDEADBEEF);
   (Fat16_VolLab16, vol_label); (Fat16_FilSysType16, fat16_name); (Bpb_Signature, le_bytes 2 0xAA55)].

Definition fsinfo_fields (g : GEOMETRY) : list (Z * list Z) :=
  [(FsInfo_LeadSig, le_bytes 4 0x41615252); (FsInfo_StrucSig, le_bytes 4 0x61417272);
   (FsInfo_Free_Count, le_bytes 4 (TotalClusters g -u32 1)); (FsInfo_Nxt_Free, le_bytes 4 3);
   (FsInfo_TrailSig, le_bytes 4 0xAA550000)].

Definition fat_head (g : GEOMETRY) : list (Z * list Z) :=
  if UseFat32 g
  then [(0, le_bytes 4 0x0FFFFFF8); (4, le_bytes 4 0x0FFFFFFF); (8, le_bytes 4 0x0FFFFFFF)]
  else [(0, le_bytes 2 0xFFF8); (2, le_bytes 2 0xFFFF)].

(** The loop that clears the rest of both FATs, from sector [i] of them. *)
Fixpoint clear_fats (n : nat) (i FatStartLba Fat2StartLba : Z) (Sector : list Z) : App unit :=
  match n with
  | O => mret tt
  | S n' =>
      _ ← WriteBlock (FatStartLba +u64 i) Sector;
      _ ← WriteBlock (Fat2StartLba +u64 i) Sector;
      clear_fats n' (i + 1) FatStartLba Fat2StartLba Sector
  end.

(** The loops that clear the root directory. *)
Fixpoint clear_root (n : nat) (i Lba : Z) (Sector : list Z) : App unit :=
  match n with
  | O => mret tt
  | S n' => _ ← WriteBlock (Lba +u64 i) Sector; clear_root n' (i + 1) Lba Sector
  end.

(** The boot sector, and its backup on FAT32. *)
Definition write_boot (BlockSize FirstUsable PartSectors : Z) (g : GEOMETRY) : App EFI_STATUS :=
  Sector ← AllocateZeroPool BlockSize;
  match Sector with
  | None => mret EFI_OUT_OF_RESOURCES
  | Some Sector =>
      Sector ← lift (stores (if UseFat32 g then fat32_fields BlockSize FirstUsable PartSectors g
                             else fat16_fields BlockSize FirstUsable PartSectors g) Sector);
      Status ← WriteBlock FirstUsable Sector;
      if EFI_ERROR Status then _ ← Free; mret Status
      else
        Status ← (if UseFat32 g then WriteBlock (FirstUsable +u64 6) Sector else mret Status);
        _ ← Free;
        mret Status
  end.

Definition write_fsinfo (BlockSize FirstUsable : Z) (g : GEOMETRY) : App EFI_STATUS :=
  if UseFat32 g then
    FsInfo ← AllocateZeroPool BlockSize;
    match FsInfo with
    | None => mret EFI_OUT_OF_RESOURCES
    | Some FsInfo =>
        FsInfo ← lift (stores (fsinfo_fields g) FsInfo);
        _ ← WriteBlock (FirstUsable +u64 1) FsInfo;
        _ ← WriteBlock (FirstUsable +u64 7) FsInfo;
        _ ← Free;
        mret EFI_SUCCESS
    end
  else mret EFI_SUCCESS.

Definition write_tables (BlockSize FirstUsable : Z) (g : GEOMETRY) : App EFI_STATUS :=
  let FatStartLba := FirstUsable +u64 RsvdSecCnt g in
  let Fat2StartLba := FatStartLba +u64 FatSz g in
  let RootDirLba := Fat2StartLba +u64 FatSz g in
  let DataStartLba := RootDirLba +u64 RootDirSectors g in
  Sector ← AllocateZeroPool BlockSize;
  match Sector with
  | None => mret EFI_OUT_OF_RESOURCES
  | Some Sector =>
      Sector ← lift (stores (fat_head g) Sector);
      _ ← WriteBlock FatStartLba Sector;
      _ ← WriteBlock Fat2StartLba Sector;
      let Sector := replicate (Z.to_nat BlockSize) 0 in
      _ ← clear_fats (Z.to_nat (FatSz g - 1)) 1 FatStartLba Fat2StartLba Sector;
      _ ← (if UseFat32 g then clear_root (Z.to_nat (SecPerClus g)) 0 DataStartLba Sector
           else clear_root (Z.to_nat (RootDirSectors g)) 0 RootDirLba Sector);
      _ ← Free;
      mret EFI_SUCCESS
  end.

Definition FormatFat (BlockSize TotalBlocks : Z) : App EFI_STATUS :=
  let EntriesLbas := GPT_ENTRIES_LBAS BlockSize in
  let FirstUsable := 2 +u32 EntriesLbas in
  let LastUsable := TotalBlocks -u64 2 -u64 EntriesLbas in
  let PartSectors := LastUsable -u64 FirstUsable +u64 1 in
  let g := fat_geometry BlockSize PartSectors in
  Status ← write_boot BlockSize FirstUsable PartSectors g;
  if EFI_ERROR Status then mret Status
  else
    Status ← write_fsinfo BlockSize FirstUsable g;
    if EFI_ERROR Status then mret Status
    else write_tables BlockSize FirstUsable g.

(** ** The application *)

Definition FormatBlockDevice (an_open : EFI_STATUS) : App EFI_STATUS := λ e,
  let m := Media (dev e) in
  (if EFI_ERROR an_open then mret an_open
   else if ReadOnly m then mret EFI_WRITE_PROTECTED
   else
     let TotalBlocks := LastBlock m +u64 1 in
     if BlockSize m <? 512 then mret EFI_UNSUPPORTED
     else
       Status ← WriteProtectiveMbr (BlockSize m) TotalBlocks;
       if EFI_ERROR Status then mret Status
       else
         Status ← WriteGpt (BlockSize m) TotalBlocks;
         if EFI_ERROR Status then mret Status
         else
           Status ← FormatFat (BlockSize m) TotalBlocks;
           if EFI_ERROR Status then mret Status
           else
             _ ← (λ e, let '(_, d) := FlushBlocks (dev e) in
                       Some (tt, mkEnv (pool e) d (live_pages e) (events e)));
             _ ← event DisconnectController;
             _ ← event ConnectController;
             mret EFI_SUCCESS) e.

(** What the boot services answer to [CreateAndFormatRamDisk]; [an_disk] is the
    device that the RAM disk driver makes of the memory. *)
Record ANSWERS := mkAnswers {
  an_locate : EFI_STATUS;
  an_pages : EFI_STATUS;
  an_base : Z;
  an_register : EFI_STATUS;
  an_path : EFI_STATUS;
  an_disk : D;
  an_open : EFI_STATUS
}.

Definition pages (f : Z → Z) : App unit := λ e,
  Some (tt, mkEnv (pool e) (dev e) (f (live_pages e)) (events e)).

Definition CreateAndFormatRamDisk (an : ANSWERS) (SizeMB : Z) : App EFI_STATUS :=
  if SizeMB <? 34 then mret EFI_INVALID_PARAMETER
  else if EFI_ERROR (an_locate an) then mret (an_locate an)
  else
    let RamSize := SizeMB *u64 1024 *u64 1024 in
    let NumPages := RamSize / 4096 + (if Z.land RamSize 4095 =? 0 then 0 else 1) in
    if EFI_ERROR (an_pages an) then mret (an_pages an)
    else
      _ ← pages (λ n, n + NumPages);
      if EFI_ERROR (an_register an) then _ ← pages (λ n, n - NumPages); mret (an_register an)
      else
        _ ← event (RamDiskRegister (an_base an) RamSize);
        if EFI_ERROR (an_path an) then mret (an_path an)
        else
          _ ← (λ e, Some (tt, mkEnv (pool e) (an_disk an) (live_pages e) (events e)));
          Status ← FormatBlockDevice (an_open an);
          if EFI_ERROR Status then mret Status else mret EFI_SUCCESS.

(** The arguments, NUL-terminated strings of UTF-16 units without the NUL, and
    what BaseLib's conversions return for them. *)
Class ShellStrings := {
  StrDecimalToUintnS : list Z → EFI_STATUS * Z;
  StrHexToUintnS : list Z → EFI_STATUS * Z
}.

(** L"ramdisk" *)
Definition ramdisk_word : list Z := [114; 97; 109; 100; 105; 115; 107].

Definition FormatBlockAppEntry `{ShellStrings} (an_shell : EFI_STATUS) (Argv : list (list Z))
    (an : ANSWERS) : App EFI_STATUS :=
  if EFI_ERROR an_shell then mret an_shell
  else
    let Argc := len Argv in
    if Argc <? 2 then mret EFI_INVALID_PARAMETER
    else
      arg1 ← lift (rd Argv 1);
      if decide (arg1 = ramdisk_word) then
        if negb (Argc =? 3) then mret EFI_INVALID_PARAMETER
        else
          arg2 ← lift (rd Argv 2);
          let '(Status, SizeMB) := StrDecimalToUintnS arg2 in
          if EFI_ERROR Status || (SizeMB =? 0) then mret EFI_INVALID_PARAMETER
          else CreateAndFormatRamDisk an SizeMB
      else
        let '(Status, HandleValue) := StrHexToUintnS arg1 in
        if EFI_ERROR Status || (HandleValue =? 0) then mret EFI_INVALID_PARAMETER
        else
          Status ← FormatBlockDevice (an_open an);
          if EFI_ERROR Status then mret Status else mret EFI_SUCCESS.
End Code.
Arguments ANSWERS : clear implicits.
Arguments mkAnswers {D} _ _ _ _ _ _ _.

(** ** Stores and fields *)

Section Stores.
Implicit Types (b d : list Z) (l : list (Z * list Z)).

Definition store_fits (n : Z) (s : Z * list Z) : bool := (0 <=? fst s) && (fst s + len (snd s) <=? n).

Lemma stores_run l b : forallb (store_fits (len b)) l = true →
  ∃ b', stores l b = Some b' ∧ length b' = length b.
Proof.
  revert b. induction l as [|[o d] l IH]; intros b F; [by exists b|].
  cbn [forallb] in F. apply andb_true_iff in F as [F1 F2]. unfold store_fits in F1. cbn in F1. b2p.
  cbn [stores]. rewrite wrn_eq by lia. cbn [mbind option_bind].
  set (b1 := take _ _ ++ _).
  assert (length b1 = length b) as L.
  { unfold b1. rewrite !length_app, length_take, length_drop. lia. }
  destruct (IH b1) as (b' & E & L'); [by rewrite L|]. exists b'. by rewrite L', L.
Qed.

Lemma stores_length l b b' : stores l b = Some b' → length b' = length b.
Proof.
  revert b. induction l as [|[o d] l IH]; intros b E; [by injection E as <-|].
  cbn [stores] in E. destruct (wrn b o d) as [b1|] eqn:W; [|done].
  by rewrite (IH b1 E), (wrn_length _ _ _ _ W).
Qed.

Lemma stores_app l1 l2 b : stores (l1 ++ l2) b = b1 ← stores l1 b; stores l2 b1.
Proof.
  revert b. induction l1 as [|[o d] l1 IH]; intros b; [done|].
  cbn [app stores]. destruct (wrn b o d); [|done]. apply IH.
Qed.

(** Byte [i] after the stores, [x] before. *)
Fixpoint peek l (x : option Z) (i : Z) : option Z :=
  match l with
  | [] => x
  | (o, d) :: l => peek l (if zbetween o i (o + len d - 1) then rd d (i - o) else x) i
  end.

Lemma wrn_rd b o d b' i : wrn b o d = Some b' →
  rd b' i = if zbetween o i (o + len d - 1) then rd d (i - o) else rd b i.
Proof.
  intros W. unfold wrn in W. destruct (in_bounds b o (len d)) eqn:B; [|done].
  apply in_bounds_spec in B as (B0 & _ & B1). injection W as <-.
  destruct (Z_lt_le_dec i 0) as [N|N].
  { rewrite !(rd_neg _ i) by lia. unfold zbetween. by destruct (Z.leb_spec o i); [lia|]. }
  assert (len (take (Z.to_nat o) b) = o) as Lt by (rewrite length_take; lia).
  unfold zbetween. destruct (Z.leb_spec o i), (Z.leb_spec i (o + len d - 1)); cbn [andb].
  - rewrite rd_app_r, rd_app_l by lia. by rewrite Lt.
  - rewrite !rd_app_r by lia. rewrite Lt.
    replace (Z.to_nat o + length d)%nat with (Z.to_nat (o + len d)) by lia.
    rewrite rd_drop by lia. f_equal. lia.
  - rewrite rd_app_l by lia. by apply rd_take.
  - rewrite rd_app_l by lia. by apply rd_take.
Qed.

Lemma stores_rd l b b' i : stores l b = Some b' → rd b' i = peek l (rd b i) i.
Proof.
  revert b. induction l as [|[o d] l IH]; intros b E; [by injection E as <-|].
  cbn [stores] in E. destruct (wrn b o d) as [b1|] eqn:W; [|done].
  cbn [peek]. rewrite (IH b1 E). by rewrite (wrn_rd b o d b1 i W).
Qed.

(** The data at a field's offset: the store to it, when no later one overlaps. *)
Definition apart (o n : Z) (s : Z * list Z) : bool := (o + n <=? fst s) || (fst s + len (snd s) <=? o).

Fixpoint field l (o : Z) : option (list Z) :=
  match l with
  | [] => None
  | (o', d) :: l => if (o' =? o) && forallb (apart o (len d)) l then Some d else field l o
  end.

Lemma rdn_ext b b' o n : 0 <= o → 0 <= n → o + n <= len b → len b = len b' →
  (∀ i, o <= i < o + n → rd b' i = rd b i) → rdn b' o n = rdn b o n.
Proof.
  intros Ho Hn Hb L E. rewrite !rdn_eq by lia. f_equal. apply list_eq. intros i.
  destruct (decide (i < Z.to_nat n)%nat).
  - rewrite !lookup_take_lt, !lookup_drop by done. specialize (E (o + Z.of_nat i) ltac:(lia)).
    rewrite !rd_lookup in E by lia. by replace (Z.to_nat o + i)%nat with (Z.to_nat (o + Z.of_nat i)) by lia.
  - by rewrite !lookup_take_ge by lia.
Qed.

Lemma stores_apart l b b' o n : stores l b = Some b' → forallb (apart o n) l = true →
  0 <= o → 0 <= n → o + n <= len b → rdn b' o n = rdn b o n.
Proof.
  intros E A Ho Hn Hb. apply rdn_ext; try done; [by rewrite (stores_length _ _ _ E)|].
  intros i Hi. rewrite (stores_rd _ _ _ i E). clear E. generalize (rd b i). induction l as [|[o' d] l IH]; [done|].
  intros x. cbn [forallb peek] in *. apply andb_true_iff in A as [A1 A2].
  unfold zbetween. replace ((o' <=? i) && (i <=? o' + len d - 1)) with false; [by apply IH|].
  symmetry. apply andb_false_iff. unfold apart in A1. cbn in A1. apply orb_true_iff in A1. b2p.
  rewrite !Z.leb_gt. destruct A1 as [A1|A1]; apply Z.leb_le in A1; lia.
Qed.

Lemma stores_field l b b' o d : stores l b = Some b' → field l o = Some d → rdn b' o (len d) = Some d.
Proof.
  revert b. induction l as [|[o' d'] l IH]; intros b E F; [done|].
  cbn [stores] in E. destruct (wrn b o' d') as [b1|] eqn:W; [|done]. cbn [field] in F.
  destruct ((o' =? o) && forallb (apart o (len d')) l) eqn:T; [|by apply (IH b1)].
  injection F as ->. apply andb_true_iff in T as [T A]. apply Z.eqb_eq in T as ->.
  pose proof (wrn_length _ _ _ _ W) as L. unfold wrn in W.
  destruct (in_bounds b o (len d)) eqn:B; [|done]. apply in_bounds_spec in B as (B0 & B1 & B2).
  cbn in W. injection W as W.
  rewrite (stores_apart l b1 b' o (len d) E A) by lia. subst b1.
  rewrite rdn_app_r by (rewrite length_take; lia).
  replace (o - len (take (Z.to_nat o) b)) with 0 by (rewrite length_take; lia).
  rewrite rdn_app_0 by lia. by rewrite Nat2Z.id, firstn_all.
Qed.

Lemma rdn_split b o n d : rdn b o n = Some d → ∃ pre post, b = (pre ++ d ++ post)%list ∧ o = len pre.
Proof.
  intros E. destruct (rdn_Some _ _ _ _ E) as (B0 & B & B1 & _ & ->).
  exists (take (Z.to_nat o) b), (drop (Z.to_nat n) (drop (Z.to_nat o) b)).
  rewrite !take_drop, length_take. split; [done|lia].
Qed.

Lemma rdn_le32 b o v : rdn b o 4 = Some (le_bytes 4 v) → 0 <= v < 2 ^ 32 → le32 b o = Some v.
Proof. intros E Hv. destruct (rdn_split _ _ _ _ E) as (pre & post & -> & ->). by apply le32_encode. Qed.

Lemma rdn_le64 b o v : rdn b o 8 = Some (le_bytes 8 v) → 0 <= v < 2 ^ 64 → le64 b o = Some v.
Proof. intros E Hv. destruct (rdn_split _ _ _ _ E) as (pre & post & -> & ->). by apply le64_encode. Qed.

Lemma rdn_le16 b o v : rdn b o 2 = Some (le_bytes 2 v) → 0 <= v < 2 ^ 16 → le16 b o = Some v.
Proof. intros E Hv. destruct (rdn_split _ _ _ _ E) as (pre & post & -> & ->). by apply le16_encode. Qed.

Lemma rdn_byte b o v : rdn b o 1 = Some [v] → rd b o = Some v.
Proof.
  intros E. destruct (rdn_split _ _ _ _ E) as (pre & post & -> & ->).
  by rewrite rd_app_r, Z.sub_diag by lia.
Qed.
End Stores.

(** ** The geometry of the volume *)

(** What a reader computes: the clusters that the sectors after the reserved
    ones, the FATs and the root directory make. *)
Definition data_sectors (PartSectors : Z) (g : GEOMETRY) : Z :=
  PartSectors - RsvdSecCnt g - 2 * FatSz g - RootDirSectors g.
Definition clusters (PartSectors : Z) (g : GEOMETRY) : Z := data_sectors PartSectors g / SecPerClus g.

(** The count of clusters is in the range of the type, which readers decide by
    it: the comment of FormatFat says 4085-65524 and 65525 or more. *)
Definition type_ok (PartSectors : Z) (g : GEOMETRY) : bool :=
  if UseFat32 g then 65525 <=? clusters PartSectors g else zbetween 4085 (clusters PartSectors g) 65524.

(** What is written is inside the partition: reserved sectors, FATs, and the
    cleared root directory, a cluster on FAT32. *)
Record volume_fits (PartSectors : Z) (g : GEOMETRY) : Prop := mkFits {
  vf_clus : 1 <= SecPerClus g <= 128;
  vf_fat : 1 <= FatSz g < if UseFat32 g then 2 ^ 31 else 2 ^ 16;
  vf_root : if UseFat32 g then RootDirSectors g = 0 else 0 <= RootDirSectors g;
  vf_rsvd : RsvdSecCnt g = if UseFat32 g then 32 else 1;
  vf_data : (if UseFat32 g then SecPerClus g else 0) <= data_sectors PartSectors g
}.

Lemma root_sectors bs : 512 <= bs < 2 ^ 16 →
  FAT16_ROOT_DIR_SECTORS bs = (16383 + bs) / bs ∧ 1 <= FAT16_ROOT_DIR_SECTORS bs <= 32.
Proof.
  intros B. unfold FAT16_ROOT_DIR_SECTORS, FAT16_ROOT_ENTRY_COUNT. rewrite !u32_small by (rewrite ?u32_small; lia).
  replace (512 * 32 + bs - 1) with (16383 + bs) by lia. split; [done|].
  split; [apply Z.div_le_lower_bound; lia|]. apply Z.lt_succ_r, Z.div_lt_upper_bound; lia.
Qed.

Lemma u32_chain a b c d : u32 (u32 (u32 (u32 a - b) - u32 c) - d) = u32 (a - b - c - d).
Proof.
  assert (∀ x y, u32 (u32 x - y) = u32 (x - y)) as L by (intros; apply Zminus_mod_idemp_l).
  assert (∀ x y, u32 (x - u32 y) = u32 (x - y)) as R by (intros; apply Zminus_mod_idemp_r).
  rewrite L. replace (u32 (u32 a - b) - u32 c - d) with (u32 (u32 a - b) - (u32 c + d)) by lia.
  rewrite L. replace (u32 a - b - (u32 c + d)) with (u32 a - (b + d + u32 c)) by lia.
  rewrite L. replace (a - (b + d + u32 c)) with (a - b - d - u32 c) by lia. rewrite R. f_equal. lia.
Qed.

Record fat16_choice (bs P R c f T : Z) : Prop := mkChoice {
  fc_clus : 1 <= c <= 64;
  fc_fat : 1 <= f < 2 ^ 16;
  fc_size : f = (((P - 1 - R) / c + 2) * 2 + bs - 1) / bs;
  fc_data : 0 <= P - 1 - 2 * f - R;
  fc_count : T = (P - 1 - 2 * f - R) / c;
  fc_range : 4085 <= T <= 65524;
  fc_room : (T + 2) * 2 <= f * bs
}.

(** One turn of the search that takes its cluster size. *)
Lemma fat16_step bs P R c f T0 T :
  512 <= bs < 2 ^ 16 → 0 <= P < 2 ^ 32 → 0 <= R <= 32 → 1 <= c <= 64 →
  T0 = u32 ((P -u64 1 -u64 R) / c) → f = ((T0 +u32 2) *u32 2 +u32 bs -u32 1) / bs →
  T = u32 (P - 1 - 2 * f - R) / c → 4085 <= T <= 65524 → fat16_choice bs P R c f T.
Proof.
  intros B HP HR HC E0 Ef ET RT. set (X := (T0 +u32 2) *u32 2 +u32 bs -u32 1) in *.
  assert (0 <= X < 2 ^ 32) as HX by apply u32_range.
  pose proof (Z.div_mod X bs ltac:(lia)) as DX. pose proof (Z.mod_pos_bound X bs ltac:(lia)) as MX.
  rewrite <- Ef in DX. assert (0 <= f) as F0 by (rewrite Ef; apply Z.div_pos; lia).
  assert (f < 2 ^ 23) as F1 by nia.
  set (V := u32 (P - 1 - 2 * f - R)) in *. pose proof (u32_range (P - 1 - 2 * f - R)) as HV. fold V in HV.
  pose proof (Z.div_mod V c ltac:(lia)) as DV. pose proof (Z.mod_pos_bound V c ltac:(lia)) as MV. rewrite <- ET in DV.
  assert (V < 2 ^ 23) as V1 by nia.
  assert (V = P - 1 - 2 * f - R) as EV.
  { unfold V, u32 in *. destruct (Z_lt_le_dec (P - 1 - 2 * f - R) 0); [|rewrite Z.mod_small; lia].
    rewrite <- (Z_mod_plus_full _ 1), Z.mod_small in V1 by lia. lia. }
  set (Y := (P - 1 - R) / c). assert (0 <= Y <= P - 1 - R) as HY.
  { split; [apply Z.div_pos; lia|]. apply Z.div_le_upper_bound; nia. }
  assert (T0 = Y) as ->.
  { rewrite E0, (u64_small (P - 1)) by lia. rewrite u64_small by lia. apply u32_small. fold Y. lia. }
  assert (X = (Y + 2) * 2 + bs - 1) as EX.
  { unfold X. rewrite (u32_small (Y + 2)), (u32_small ((Y + 2) * 2)) by lia. rewrite (u32_small (_ + bs)) by lia.
    apply u32_small. lia. }
  assert (T <= Y) as TY by (rewrite ET, EV; apply Z.div_le_mono; lia).
  pose proof (Z.div_mod (P - 1 - R) c ltac:(lia)) as DY. pose proof (Z.mod_pos_bound (P - 1 - R) c ltac:(lia)) as MY.
  fold Y in DY. assert (Y < T + 1 + 2 * f) as Y1.
  { apply (Z.mul_lt_mono_pos_l c); [lia|]. assert (1 * f <= c * f) by (apply Z.mul_le_mono_nonneg_r; lia).
    replace (c * (T + 1 + 2 * f)) with (c * T + c + 2 * (c * f)) by ring. lia. }
  assert (512 * (f - 1) <= bs * (f - 1) ∨ f = 0) as F2.
  { destruct (Z.eq_dec f 0); [by right|left]. apply Z.mul_le_mono_nonneg_r; lia. }
  rewrite Z.mul_sub_distr_l in F2.
  constructor; try done; try lia; [by rewrite Ef, EX|by rewrite ET, EV].
Qed.

Lemma try_fat16_spec bs P R n i c f T :
  512 <= bs < 2 ^ 16 → 0 <= P < 2 ^ 32 → 0 <= R <= 32 → 0 <= i → i + Z.of_nat n = 7 →
  try_fat16 n i bs P 1 R = Some (c, f, T) →
  fat16_choice bs P R c f T ∧ c ∈ [1; 2; 4; 8; 16; 32; 64].
Proof.
  intros B HP HR. revert i. induction n as [|n IH]; intros i Hi Hn E; [done|]. cbn [try_fat16] in E.
  destruct (_ && _) eqn:G in E; [|apply (IH (i + 1)); (lia || done)].
  injection E as <- <- <-. apply andb_true_iff in G as [G1 G2]. b2p.
  rewrite u32_chain in *. set (f := (_ / bs)) in *. set (T0 := u32 (_ / _)) in *.
  assert (1 <= Z.shiftl 1 i <= 64) as HC.
  { rewrite Z.shiftl_1_l. pose proof (Z.pow_le_mono_r 2 0 i ltac:(lia) ltac:(lia)).
    pose proof (Z.pow_le_mono_r 2 i 6 ltac:(lia) ltac:(lia)). lia. }
  split; [eapply (fat16_step bs P R _ f T0); (done || lia || reflexivity)|].
  assert (i = 0 ∨ i = 1 ∨ i = 2 ∨ i = 3 ∨ i = 4 ∨ i = 5 ∨ i = 6) as C by lia.
  apply list_elem_of_In. repeat (destruct C as [->|C]; [cbn; tauto|]). subst i. cbn. tauto.
Qed.

(** When no size is taken, none is in range. *)
Lemma try_fat16_None bs P R n i j : i <= j < i + Z.of_nat n → try_fat16 n i bs P 1 R = None →
  let f := (u32 ((P -u64 1 -u64 R) / 2 ^ j) +u32 2) *u32 2 +u32 bs -u32 1 in
  zbetween 4085 (u32 (P - 1 - 2 * (f / bs) - R) / 2 ^ j) 65524 = false.
Proof.
  revert i. induction n as [|n IH]; intros i Hj E; [lia|]. cbn [try_fat16] in E.
  destruct (_ && _) eqn:G in E; [done|]. destruct (decide (j = i)) as [->|N].
  - rewrite u32_chain, Z.shiftl_1_l in G. exact G.
  - apply (IH (i + 1)); [lia|done].
Qed.

(** A device of 512-byte blocks. *)
Lemma fat16_512_taken P : 4152 <= P <= 4194144 → UseFat32 (fat_geometry 512 P) = false.
Proof.
  intros HP. unfold fat_geometry. change (FAT16_ROOT_DIR_SECTORS 512) with 32.
  destruct (try_fat16 7 0 512 P 1 32) as [[[c f] T]|] eqn:E; [done|exfalso].
  assert (∃ j, 0 <= j < 7 ∧ zbetween 4085 ((P - 33 - 2 * ((((P - 33) / 2 ^ j + 2) * 2 + 511) / 512)) / 2 ^ j) 65524 = true)
    as (j & Hj & G).
  { assert (P <= 65000 ∨ 65000 < P <= 130000 ∨ 130000 < P <= 260000 ∨ 260000 < P <= 520000 ∨
            520000 < P <= 1040000 ∨ 1040000 < P <= 2080000 ∨ 2080000 < P) as C by lia.
    destruct C as [C|[C|[C|[C|[C|[C|C]]]]]];
      [exists 0|exists 1|exists 2|exists 3|exists 4|exists 5|exists 6]; (split; [lia|]);
      apply zbetween_spec; cbn [Z.pow Z.pow_pos Pos.iter Z.mul Pos.mul]; Z.div_mod_to_equations; lia. }
  pose proof (try_fat16_None 512 P 32 7 0 j ltac:(lia) E) as N. cbv zeta in N.
  set (Y := (P - 33) / 2 ^ j) in *. assert (0 <= Y < 2 ^ 23) as HY.
  { pose proof (Z.pow_pos_nonneg 2 j ltac:(lia) ltac:(lia)).
    split; [apply Z.div_pos; lia|]. apply Z.div_lt_upper_bound; [lia|]. nia. }
  rewrite (u64_small (P - 1)), (u64_small (P - 1 - 32)) in N by lia.
  replace (P - 1 - 32) with (P - 33) in N by lia. fold Y in N.
  rewrite (u32_small Y), (u32_small (Y + 2)), (u32_small ((Y + 2) * 2)), (u32_small (_ + 512)), (u32_small (_ - 1)) in N by lia.
  replace ((Y + 2) * 2 + 512 - 1) with ((Y + 2) * 2 + 511) in N by lia.
  rewrite u32_small in N.
  - replace (P - 1 - 2 * (((Y + 2) * 2 + 511) / 512) - 32) with (P - 33 - 2 * (((Y + 2) * 2 + 511) / 512)) in N by lia.
    by rewrite G in N.
  - assert (Y <= P - 33) by (apply Z.div_le_upper_bound; pose proof (Z.pow_pos_nonneg 2 j ltac:(lia) ltac:(lia)); nia).
    Z.div_mod_to_equations. lia.
Qed.

Lemma fat16_512_bounds P : 0 <= P < 2 ^ 32 → UseFat32 (fat_geometry 512 P) = false → 4152 <= P <= 4194144.
Proof.
  intros HP. unfold fat_geometry. change (FAT16_ROOT_DIR_SECTORS 512) with 32.
  destruct (try_fat16 7 0 512 P 1 32) as [[[c f] T]|] eqn:E; [intros _|done].
  destruct (try_fat16_spec 512 P 32 7 0 c f T) as [[_ F S D C R _] I]; (lia || done || idtac).
  repeat (apply elem_of_cons in I as [->|I]; [Z.div_mod_to_equations; lia|]). by apply not_elem_of_nil in I.
Qed.

(** *** FAT32 *)

Lemma fat32_clus bs : 512 <= bs < 2 ^ 16 →
  let s := if 32768 <=? bs then 1 else 32768 / bs in 1 <= s <= 64 ∧ (if 128 <? s then 128 else s) = s ∧ s * bs <= 65536.
Proof.
  intros B. cbv zeta. assert (1 <= (if 32768 <=? bs then 1 else 32768 / bs) <= 64) as S.
  { destruct (Z.leb_spec 32768 bs); [lia|]. split; [apply Z.div_le_lower_bound; lia|].
    apply Z.lt_succ_r, Z.div_lt_upper_bound; lia. }
  split; [done|]. split; [destruct (Z.ltb_spec 128 (if 32768 <=? bs then 1 else 32768 / bs)); lia|].
  destruct (Z.leb_spec 32768 bs); [lia|]. pose proof (Z.mul_div_le 32768 bs). lia.
Qed.

Definition fat32_size (bs T : Z) : Z := ((T + 2) * 4 + bs - 1) / bs.

(** Without wrap-around. *)
Lemma fat32_geometry_eq bs P : 512 <= bs < 2 ^ 16 →
  let s := if 32768 <=? bs then 1 else 32768 / bs in
  let f1 := fat32_size bs ((P - 32) / s) in
  32 <= P < 2 ^ 32 → 4 * P < s * 2 ^ 31 → 0 <= P - 32 - 2 * f1 →
  fat32_geometry bs P =
    mkGeo true s 32 0 (fat32_size bs ((P - 32 - 2 * f1) / s)) ((P - 32 - 2 * f1) / s).
Proof.
  intros B s f1 HP HW N. unfold fat32_geometry.
  destruct (fat32_clus bs B) as (S & -> & _). fold s in S |- *.
  assert (∀ x, 0 <= x <= P → 0 <= x / s < 2 ^ 29) as D.
  { intros x Hx. split; [apply Z.div_pos; lia|]. apply Z.div_lt_upper_bound; lia. }
  assert (∀ T, 0 <= T < 2 ^ 29 → ((T +u32 2) *u32 4 +u32 bs -u32 1) / bs = fat32_size bs T) as Z1.
  { intros T HT. unfold fat32_size.
    by rewrite (u32_small (T + 2)), (u32_small ((T + 2) * 4)), (u32_small (_ + bs)), (u32_small (_ - 1)) by lia. }
  assert (∀ T, 0 <= T < 2 ^ 29 → 0 <= fat32_size bs T < 2 ^ 23) as Z2.
  { intros T HT. unfold fat32_size. split; [apply Z.div_pos; lia|]. apply Z.div_lt_upper_bound; lia. }
  cbv zeta. rewrite (u64_small (P - 32)) by lia.
  pose proof (D (P - 32) ltac:(lia)) as D1. rewrite (u32_small ((P - 32) / s)) by lia.
  rewrite !(Z1 ((P - 32) / s)) by lia. fold f1. pose proof (Z2 _ D1) as F1. fold f1 in F1.
  rewrite (u32_small (2 * f1)), (u64_small (P - 32 - 2 * f1)) by lia.
  pose proof (D (P - 32 - 2 * f1) ltac:(lia)) as D2.
  by rewrite (u32_small ((P - 32 - 2 * f1) / s)), !Z1 by lia.
Qed.

Lemma fat32_512 P : 34 <= P < 2 ^ 32 →
  let f1 := (((P - 32) / 64 + 2) * 4 + 511) / 512 in
  let T := (P - 32 - 2 * f1) / 64 in
  fat32_geometry 512 P = mkGeo true 64 32 0 (((T + 2) * 4 + 511) / 512) T ∧ 0 <= P - 32 - 2 * f1.
Proof.
  intros HP f1 T. assert (0 <= P - 32 - 2 * f1) as N by (unfold f1; Z.div_mod_to_equations; lia).
  split; [|done]. rewrite (fat32_geometry_eq 512 P); try lia.
  - change (if 32768 <=? 512 then 1 else 32768 / 512) with 64. unfold fat32_size.
    replace (((P - 32) / 64 + 2) * 4 + 512 - 1) with (((P - 32) / 64 + 2) * 4 + 511) by lia. fold f1. fold T.
    by replace ((T + 2) * 4 + 512 - 1) with ((T + 2) * 4 + 511) by lia.
  - change (if 32768 <=? 512 then 1 else 32768 / 512) with 64. lia.
  - change (if 32768 <=? 512 then 1 else 32768 / 512) with 64. unfold fat32_size.
    replace (((P - 32) / 64 + 2) * 4 + 512 - 1) with (((P - 32) / 64 + 2) * 4 + 511) by lia. fold f1. lia.
Qed.

Lemma type_ok_512 P : 34 <= P < 2 ^ 32 →
  type_ok P (fat_geometry 512 P) = zbetween 4152 P 4194144 || (4194656 <=? P).
Proof.
  intros HP. destruct (UseFat32 (fat_geometry 512 P)) eqn:U.
  - assert (zbetween 4152 P 4194144 = false) as ->.
    { destruct (zbetween 4152 P 4194144) eqn:Z; [|done]. apply zbetween_spec in Z.
      by rewrite (fat16_512_taken P Z) in U. }
    unfold type_ok. rewrite U. cbn [orb].
    assert (fat_geometry 512 P = fat32_geometry 512 P) as ->.
    { unfold fat_geometry in *. change (FAT16_ROOT_DIR_SECTORS 512) with 32 in *.
      by destruct (try_fat16 7 0 512 P 1 32) as [[[c f] T]|]. }
    destruct (fat32_512 P HP) as [-> N]. unfold clusters, data_sectors. cbn.
    set (f1 := (_ + 511) / 512) in *. set (T := (P - 32 - 2 * f1) / 64).
    set (f2 := ((T + 2) * 4 + 511) / 512). apply Bool.eq_iff_eq_true. rewrite !Z.leb_le.
    unfold f2, T, f1. clear. split; intros; Z.div_mod_to_equations; lia.
  - pose proof (fat16_512_bounds P ltac:(lia) U) as B.
    replace (zbetween 4152 P 4194144) with true by (symmetry; by apply zbetween_spec). cbn [orb].
    unfold type_ok. rewrite U. unfold fat_geometry in *. change (FAT16_ROOT_DIR_SECTORS 512) with 32 in *.
    destruct (try_fat16 7 0 512 P 1 32) as [[[c f] T]|] eqn:E; [|done].
    destruct (try_fat16_spec 512 P 32 7 0 c f T) as [[_ _ _ _ C R _] _]; (lia || done || idtac).
    apply zbetween_spec. unfold clusters, data_sectors. cbn.
    replace (P - 1 - 2 * f - 32) with (P - 1 - 2 * f - 32) in C by lia. by rewrite <- C.
Qed.

Lemma fat16_volume bs P : 512 <= bs < 2 ^ 16 → 0 <= P < 2 ^ 32 → UseFat32 (fat_geometry bs P) = false →
  let g := fat_geometry bs P in
  volume_fits P g ∧ type_ok P g = true ∧ clusters P g = TotalClusters g ∧ (clusters P g + 2) * 2 <= FatSz g * bs.
Proof.
  intros B HP U. cbv zeta. unfold fat_geometry in *.
  pose proof (root_sectors bs B) as [_ R]. set (r := FAT16_ROOT_DIR_SECTORS bs) in *.
  destruct (try_fat16 7 0 bs P 1 r) as [[[c f] T]|] eqn:E.
  - destruct (try_fat16_spec bs P r 7 0 c f T) as [[C F S Dt Co Ra Ro] _]; try (lia || done).
    assert (clusters P (mkGeo false c 1 r f T) = T) as -> by (unfold clusters, data_sectors; cbn; by rewrite Co).
    split_and!; try done.
    + constructor; unfold data_sectors; cbn; lia.
    + unfold type_ok. cbn. apply zbetween_spec. unfold clusters, data_sectors. cbn. by rewrite <- Co.
  - by destruct (fat32_clus bs B).
Qed.

(** Whatever the partition, the numbers are small enough for the addresses not to
    wrap. *)
Record geo_ok (g : GEOMETRY) : Prop := mkGeoOk {
  go_clus : 1 <= SecPerClus g <= 64;
  go_fat : 0 <= FatSz g < 2 ^ 23;
  go_root : if UseFat32 g then RootDirSectors g = 0 else 1 <= RootDirSectors g <= 32;
  go_rsvd : RsvdSecCnt g = if UseFat32 g then 32 else 1
}.

Lemma u32_div bs x : 512 <= bs → 0 <= u32 x / bs < 2 ^ 23.
Proof.
  intros B. pose proof (u32_range x). split; [apply Z.div_pos; lia|]. apply Z.div_lt_upper_bound; lia.
Qed.

Lemma fat_geometry_ok bs P : 512 <= bs < 2 ^ 16 → geo_ok (fat_geometry bs P).
Proof.
  intros B. unfold fat_geometry. pose proof (root_sectors bs B) as [_ R]. set (r := FAT16_ROOT_DIR_SECTORS bs) in *.
  destruct (try_fat16 7 0 bs P 1 r) as [[[c f] T]|] eqn:E.
  - assert (1 <= c <= 64 ∧ 0 <= f < 2 ^ 23) as [C F]; [|by constructor].
    assert (∀ n i, 0 <= i → i + Z.of_nat n = 7 → try_fat16 n i bs P 1 r = Some (c, f, T) →
              1 <= c <= 64 ∧ 0 <= f < 2 ^ 23) as X; [|by apply (X 7%nat 0)].
    clear E. intros n. induction n as [|n IH]; intros i Hi Hn E; [done|]. cbn [try_fat16] in E.
    destruct (_ && _) in E; [|apply (IH (i + 1)); (lia || done)]. injection E as <- <- _.
    split; [|apply u32_div; lia]. rewrite Z.shiftl_1_l.
    pose proof (Z.pow_le_mono_r 2 0 i ltac:(lia) ltac:(lia)). pose proof (Z.pow_le_mono_r 2 i 6 ltac:(lia) ltac:(lia)). lia.
  - destruct (fat32_clus bs B) as (S & ES & _). unfold fat32_geometry. cbv zeta. rewrite ES.
    constructor; cbn; try done. apply u32_div; lia.
Qed.

