(* ===== verification/FormatDisk.v ===== *)
(** * The formatted disk

    What the formatting application ([Format]) leaves on a device: the blocks it
    writes as an overlay of what was there, the partition table and the volume
    read back from them, and the runs on devices that fail. *)

From S2P Require Import Prelude Efi Format.

(** ** What a device promises *)

(** [block] is what a device holds. A write that is not refused stores its block;
    a refused one leaves the others. On a [steady] device a write inside it
    succeeds; one beyond its end is refused, as the UEFI specification asks. *)
Class BlockIoLaws (D : Type) `{BlockIo D} := {
  block : D → Z → list Z;
  steady : D → Prop;
  wb_media l b d : Media (snd (WriteBlocks l b d)) = Media d;
  wb_ok l b d : EFI_ERROR (fst (WriteBlocks l b d)) = false → block (snd (WriteBlocks l b d)) l = b;
  wb_other l l' b d : l' <> l → block (snd (WriteBlocks l b d)) l' = block d l';
  wb_range l b d : LastBlock (Media d) < l → WriteBlocks l b d = (EFI_INVALID_PARAMETER, d);
  wb_steady l b d : steady d → steady (snd (WriteBlocks l b d));
  wb_succeeds l b d : steady d → 0 <= l <= LastBlock (Media d) → len b = BlockSize (Media d) →
    fst (WriteBlocks l b d) = EFI_SUCCESS;
  fl_media d : Media (snd (FlushBlocks d)) = Media d;
  fl_block l d : block (snd (FlushBlocks d)) l = block d l
}.

(** ** Runs on a steady device *)

(** What a run writes: the block it leaves at an address, if any. *)
Definition Overlay := Z → option (list Z).
Definition none : Overlay := λ _, None.
Definition one (l : Z) (b : list Z) : Overlay := λ l', if l' =? l then Some b else None.
Definition span (lo n : Z) (f : Z → list Z) : Overlay := λ l,
  if zbetween lo l (lo + n - 1) then Some (f (l - lo)) else None.
Definition after (W1 W2 : Overlay) : Overlay := λ l,
  match W2 l with Some b => Some b | None => W1 l end.

(** Overlays are compared point by point; [after] is their composition. *)
#[export] Instance overlay_equiv : Equiv Overlay := λ W1 W2, ∀ l, W1 l = W2 l.
#[export] Instance overlay_equivalence : Equivalence (≡@{Overlay}).
Proof.
  split; [by intros W l|by intros W1 W2 E l; rewrite E|].
  intros W1 W2 W3 E1 E2 l. by rewrite E1, E2.
Qed.
#[export] Instance after_proper : Proper ((≡) ==> (≡) ==> (≡)) after.
Proof. intros W1 W1' E1 W2 W2' E2 l. unfold after. by rewrite E1, E2. Qed.
#[export] Instance after_left_id : LeftId (≡) none after.
Proof. intros W l. unfold after, none. by destruct (W l). Qed.
#[export] Instance after_right_id : RightId (≡) none after.
Proof. by intros W l. Qed.
#[export] Instance after_assoc : Assoc (≡) after.
Proof. intros W1 W2 W3 l. unfold after. by destruct (W3 l). Qed.

(** What is left of an overlay on a device whose last block is [n]. *)
Definition cut (n : Z) (W : Overlay) : Overlay := λ l, if l <=? n then W l else None.

#[export] Instance cut_proper n : Proper ((≡) ==> (≡)) (cut n).
Proof. intros W W' E l. unfold cut. by rewrite E. Qed.
Lemma cut_after n W1 W2 : cut n (after W1 W2) ≡ after (cut n W1) (cut n W2).
Proof. intros l. unfold cut, after. by destruct (l <=? n). Qed.
Lemma cut_none n : cut n none ≡ none.
Proof. intros l. unfold cut. by destruct (l <=? n). Qed.
Lemma cut_one n l b : l <= n → cut n (one l b) ≡ one l b.
Proof.
  intros L l'. unfold cut, one. destruct (Z.leb_spec l' n); [done|]. by destruct (Z.eqb_spec l' l); [lia|].
Qed.
Lemma span_neg lo n f : n <= 0 → span lo n f ≡ none.
Proof.
  intros N l. unfold span, none. destruct (zbetween lo l (lo + n - 1)) eqn:Z; [|done]. apply zbetween_spec in Z. lia.
Qed.
Lemma span_to_nat lo n f : span lo (Z.of_nat (Z.to_nat n)) f ≡ span lo n f.
Proof.
  destruct (Z_le_gt_dec 0 n); [by rewrite Z2Nat.id by done|].
  by rewrite (span_neg lo n), span_neg by lia.
Qed.

Section Runs.
Context {D : Type} `{BlockIoLaws D}.
Implicit Types e : ENV D.

(** [k] pool blocks more are live. *)
Record effect (k : Z) (W : Overlay) e e' : Prop := mkEffect {
  ef_block l : block (dev e') l = default (block (dev e) l) (W l);
  ef_media : Media (dev e') = Media (dev e);
  ef_pool : pool_live (pool e') = pool_live (pool e) + k;
  ef_pages : live_pages e' = live_pages e;
  ef_events : events e' = events e
}.

Record ready e : Prop := mkReady { rd_steady : steady (dev e); rd_plenty : pool_plenty (pool e) }.

(** [m] runs to [a], writing [W]. *)
Definition does {A} (m : App A) (a : A) (k : Z) (W : Overlay) e : Prop :=
  ∃ e', m e = Some (a, e') ∧ effect k W e e' ∧ ready e'.

Lemma effect_refl e : effect 0 none e e.
Proof. constructor; try done. lia. Qed.

Lemma effect_trans k1 k2 W1 W2 e1 e2 e3 :
  effect k1 W1 e1 e2 → effect k2 W2 e2 e3 → effect (k1 + k2) (after W1 W2) e1 e3.
Proof.
  intros [A1 B1 C1 D1 E1] [A2 B2 C2 D2 E2]. constructor; try congruence; [|lia].
  intros l. rewrite A2, A1. unfold after. by destruct (W2 l).
Qed.

Lemma does_ext {A} (m : App A) a k k' W W' e :
  does m a k W e → k = k' → W ≡ W' → does m a k' W' e.
Proof.
  intros (e' & E & [X1 X2 X3 X4 X5] & R) -> X. exists e'. split_and!; try done.
  constructor; try done. intros l. by rewrite X1, X.
Qed.

Lemma does_ret {A} (a : A) e : ready e → does (mret a) a 0 none e.
Proof. intros R. exists e. by split_and!; [|apply effect_refl|]. Qed.

Lemma does_bind {A B} (m : App A) (f : A → App B) a b k1 k2 W1 W2 e :
  does m a k1 W1 e → (∀ e', Media (dev e') = Media (dev e) → ready e' → does (f a) b k2 W2 e') →
  does (m ≫= f) b (k1 + k2) (after W1 W2) e.
Proof.
  intros (e1 & E1 & F1 & R1) K. destruct (K e1 (ef_media _ _ _ _ F1) R1) as (e2 & E2 & F2 & R2).
  exists e2. split_and!; [|by eapply effect_trans|done].
  unfold mbind, App_bind. by rewrite E1.
Qed.

Lemma app_run {A B} (m : App A) (f : A → App B) a e e' :
  m e = Some (a, e') → (m ≫= f) e = f a e'.
Proof. intros E. unfold mbind, App_bind. by rewrite E. Qed.

Lemma does_lift {A B} (o : option A) (f : A → App B) a b k W e :
  o = Some a → does (f a) b k W e → does (lift o ≫= f) b k W e.
Proof. intros ->. done. Qed.

Lemma does_WriteBlock l b e :
  ready e → 0 <= l <= LastBlock (Media (dev e)) → len b = BlockSize (Media (dev e)) →
  does (WriteBlock l b) EFI_SUCCESS 0 (one l b) e.
Proof.
  intros [St Pl] R L. unfold does, WriteBlock.
  pose proof (wb_succeeds l b (dev e) St R L) as S. pose proof (wb_ok l b (dev e)) as O.
  assert (∀ l', l' <> l → block (snd (WriteBlocks l b (dev e))) l' = block (dev e) l') as O2 by (intros; by apply wb_other).
  pose proof (wb_media l b (dev e)) as M. pose proof (wb_steady l b (dev e) St) as S2.
  destruct (WriteBlocks l b (dev e)) as [st d]. cbn in *. subst st. eexists. split_and!; [done| |by constructor].
  constructor; try done; [|cbn; lia]. intros l'. cbn. unfold one.
  destruct (Z.eqb_spec l' l) as [->|N]; cbn; [by apply O|by apply O2].
Qed.

(** A write whose status is ignored. *)
Lemma does_ignored {B} N l b (k : App B) r kp W e :
  ready e → N = LastBlock (Media (dev e)) → 0 <= l → len b = BlockSize (Media (dev e)) →
  (∀ e', Media (dev e') = Media (dev e) → ready e' → does k r kp W e') →
  does (WriteBlock l b ≫= λ _, k) r (0 + kp) (after (cut N (one l b)) W) e.
Proof.
  intros R EN Hl L K. destruct (Z_le_gt_dec l N) as [C|C].
  - eapply does_ext; [eapply does_bind; [apply (does_WriteBlock l b); (done || lia)|exact K]|done|].
    by rewrite cut_one by done.
  - assert (LastBlock (Media (dev e)) < l) as C' by lia. pose proof (wb_range l b (dev e) C') as E.
    destruct (K e eq_refl R) as (e' & E' & F & R').
    exists e'. split_and!; [|..].
    + unfold mbind, App_bind, WriteBlock. rewrite E. by destruct e.
    + destruct F as [X1 X2 X3 X4 X5]. constructor; try done. intros l'. rewrite X1. unfold after, cut, one.
      destruct (W l'); [done|]. destruct (Z.leb_spec l' N); [|done].
      by destruct (Z.eqb_spec l' l); [lia|].
    + done.
Qed.

Lemma does_alloc n e : ready e → does (AllocateZeroPool n) (Some (replicate (Z.to_nat n) 0)) 1 none e.
Proof.
  intros [St Pl]. unfold does, AllocateZeroPool. rewrite (AllocatePool_plenty _ Pl).
  eexists. split_and!; [done|by constructor|by constructor].
Qed.

Lemma does_Free e : ready e → does Free tt (-1) none e.
Proof. intros [St Pl]. eexists. split_and!; [done|by constructor|by constructor]. Qed.
End Runs.

(** ** The blocks that are written *)

Definition zeros (n : Z) : list Z := replicate (Z.to_nat n) 0.
Definition filled (n : Z) (l : list (Z * list Z)) : list Z := default [] (stores l (zeros n)).

Lemma len_zeros n : 0 <= n → len (zeros n) = n.
Proof. intros. unfold zeros. rewrite length_replicate. lia. Qed.

(** Stores that fit 512 bytes fit a block. *)
Lemma stores_filled l bs : 512 <= bs → forallb (store_fits 512) l = true →
  stores l (zeros bs) = Some (filled bs l) ∧ len (filled bs l) = bs.
Proof.
  intros B F. destruct (stores_run l (zeros bs)) as (b & E & L).
  { rewrite len_zeros by lia. apply forallb_forall. intros x I.
    rewrite forallb_forall in F. specialize (F x I). unfold store_fits in *. b2p. lia. }
  unfold filled. rewrite E. cbn. split; [done|]. rewrite L. apply len_zeros. lia.
Qed.

(** Block [k] of the entries. *)
Definition chunk (bs : Z) (E : list Z) (k : Z) : list Z :=
  let c := take (Z.to_nat bs) (drop (Z.to_nat (k * bs)) E) in c ++ replicate (Z.to_nat (bs - len c)) 0.

Lemma len_chunk bs E k : 0 <= bs → len (chunk bs E k) = bs.
Proof. intros. unfold chunk. rewrite length_app, length_replicate, length_take. lia. Qed.

Lemma chunk_drop bs E k : 0 <= bs → 0 <= k → chunk bs (drop (Z.to_nat bs) E) k = chunk bs E (k + 1).
Proof.
  intros. unfold chunk. rewrite drop_drop.
  by replace (Z.to_nat bs + Z.to_nat (k * bs))%nat with (Z.to_nat ((k + 1) * bs)) by lia.
Qed.

(** The blocks make up the entries. *)
Lemma chunks_concat bs n E : 0 < bs → len E <= Z.of_nat n * bs →
  take (length E) (concat (map (λ k, chunk bs E (Z.of_nat k)) (seq 0 n))) = E.
Proof.
  intros B. revert E. induction n as [|n IH]; intros E HE.
  { by destruct E; [|cbn in HE; lia]. }
  cbn [seq map concat]. rewrite <- seq_shift, map_map.
  rewrite (map_ext _ (λ k, chunk bs (drop (Z.to_nat bs) E) (Z.of_nat k))).
  2:{ intros k. rewrite chunk_drop by lia. f_equal. lia. }
  change (Z.of_nat 0) with 0.
  unfold chunk at 1. change (Z.to_nat (0 * bs)) with O. rewrite drop_0.
  destruct (Z_le_gt_dec (len E) bs).
  - rewrite (take_ge E) by lia. rewrite <- app_assoc. rewrite take_app_le by lia. by rewrite take_ge.
  - rewrite length_take. replace (bs - Z.of_nat (Z.to_nat bs `min` length E)) with 0 by lia.
    rewrite app_nil_r. rewrite take_app_ge by (rewrite length_take; lia).
    rewrite length_take. replace (length E - Z.to_nat bs `min` length E)%nat with (length (drop (Z.to_nat bs) E))
      by (rewrite length_drop; lia).
    rewrite IH by (rewrite length_drop; lia). apply take_drop.
Qed.

(** *** The GPT *)

Definition gpt_lbas (bs : Z) : Z := (16383 + bs) / bs.
Definition first_usable (bs : Z) : Z := 2 + gpt_lbas bs.
Definition last_usable (bs T : Z) : Z := T - 2 - gpt_lbas bs.
Definition part_sectors (bs T : Z) : Z := last_usable bs T - first_usable bs + 1.

Lemma gpt_lbas_range bs : 512 <= bs < 2 ^ 16 → 1 <= gpt_lbas bs <= 32.
Proof.
  intros B. unfold gpt_lbas. split; [apply Z.div_le_lower_bound; lia|].
  apply Z.lt_succ_r, Z.div_lt_upper_bound; lia.
Qed.

Lemma GPT_ENTRIES_LBAS_eq bs : 512 <= bs < 2 ^ 16 → GPT_ENTRIES_LBAS bs = gpt_lbas bs.
Proof.
  intros B. unfold GPT_ENTRIES_LBAS, GPT_ENTRY_COUNT, GPT_ENTRY_SIZE.
  rewrite (u32_small (_ + bs)), u32_small by lia. unfold gpt_lbas. f_equal. lia.
Qed.

(** A device whose blocks the program takes and that is large enough. *)
Record sizes_ok (bs T : Z) : Prop := mkSizes {
  so_bs : 512 <= bs < 2 ^ 16;
  so_room : first_usable bs < last_usable bs T;
  so_total : T < 2 ^ 64
}.

Lemma sizes_lbas bs T : sizes_ok bs T →
  2 +u32 GPT_ENTRIES_LBAS bs = first_usable bs ∧
  T -u64 2 -u64 GPT_ENTRIES_LBAS bs = last_usable bs T ∧
  T -u64 1 = T - 1 ∧ last_usable bs T +u64 1 = last_usable bs T + 1 ∧
  last_usable bs T -u64 first_usable bs +u64 1 = part_sectors bs T.
Proof.
  intros [B R T2]. rewrite GPT_ENTRIES_LBAS_eq by done. pose proof (gpt_lbas_range bs B).
  unfold first_usable, last_usable, part_sectors in *.
  split_and!; rewrite ?(u64_small (T - 2)) by lia; rewrite ?u32_small, ?u64_small by lia; try done.
  unfold first_usable, last_usable. rewrite (u64_small (T - 2 - gpt_lbas bs - (2 + gpt_lbas bs))) by lia.
  by rewrite u64_small by lia.
Qed.

Definition entries_image (bs T : Z) : list Z :=
  filled 16384 (gpt_entry0 (first_usable bs) (last_usable bs T)).

Lemma entries_stored bs T :
  stores (gpt_entry0 (first_usable bs) (last_usable bs T)) (zeros 16384) = Some (entries_image bs T) ∧
  len (entries_image bs T) = 16384.
Proof. unfold entries_image. apply stores_filled; [lia|reflexivity]. Qed.

Section GptImage.
Context (crc32 : list Z → Z) (bs T : Z).

(** The CRC of a header block, its field cleared. *)
Definition header_crc (h : list Z) : Z :=
  crc32 (default [] (z ← wrn h Hdr_CRC32 (le_bytes 4 0); rdn z 0 SIZEOF_EFI_PARTITION_TABLE_HEADER)).

Definition primary_fields : list (Z * list Z) :=
  gpt_primary (first_usable bs) (last_usable bs T) (T - 1) (crc32 (entries_image bs T)).
Definition sealed (l : list (Z * list Z)) : list (Z * list Z) :=
  l ++ [(Hdr_CRC32, le_bytes 4 0); (Hdr_CRC32, le_bytes 4 (header_crc (filled bs l)))].
Definition backup_fields : list (Z * list Z) :=
  sealed primary_fields ++ gpt_backup (T - 1) (last_usable bs T + 1).

Definition primary_block : list Z := filled bs (sealed primary_fields).
Definition backup_block : list Z := filled bs (sealed backup_fields).

Definition gpt_overlay : Overlay :=
  after (one 1 primary_block)
    (after (span 2 (gpt_lbas bs) (chunk bs (entries_image bs T)))
       (after (span (last_usable bs T + 1) (gpt_lbas bs) (chunk bs (entries_image bs T)))
          (one (T - 1) backup_block))).

Lemma crc_header_sealed l : 512 <= bs → forallb (store_fits 512) l = true →
  field l Hdr_HeaderSize = Some (le_bytes 4 SIZEOF_EFI_PARTITION_TABLE_HEADER) →
  crc_header crc32 (filled bs l) = Some (filled bs (sealed l)).
Proof.
  intros B F FS. destruct (stores_filled l bs B F) as [E L]. unfold crc_header.
  destruct (stores_filled (l ++ [(Hdr_CRC32, le_bytes 4 0)]) bs B) as [E1 L1].
  { rewrite forallb_app, F. reflexivity. }
  pose proof E1 as E2. rewrite stores_app, E in E2. cbn [mbind option_bind stores] in E2.
  destruct (wrn (filled bs l) Hdr_CRC32 (le_bytes 4 0)) as [z|] eqn:W; [|done].
  cbn [mbind option_bind] in E2 |- *. injection E2 as ->. set (z := filled bs (l ++ _)) in *.
  assert (le32 z Hdr_HeaderSize = Some SIZEOF_EFI_PARTITION_TABLE_HEADER) as ->.
  { apply rdn_le32; [|unfold SIZEOF_EFI_PARTITION_TABLE_HEADER; lia].
    rewrite (stores_apart [(Hdr_CRC32, le_bytes 4 0)] (filled bs l) z Hdr_HeaderSize 4); try done.
    - change 4 with (len (le_bytes 4 SIZEOF_EFI_PARTITION_TABLE_HEADER)). by apply (stores_field l (zeros bs)).
    - cbn [stores]. by rewrite W.
    - unfold Hdr_HeaderSize. lia. }
  cbn [mbind option_bind].
  destruct (rdn z 0 SIZEOF_EFI_PARTITION_TABLE_HEADER) as [by92|] eqn:R.
  2:{ rewrite rdn_eq in R; [done|lia|unfold SIZEOF_EFI_PARTITION_TABLE_HEADER; lia..]. }
  cbn [mbind option_bind].
  assert (header_crc (filled bs l) = crc32 by92) as <- by (unfold header_crc; rewrite W; cbn [mbind option_bind]; by rewrite R).
  destruct (stores_filled (sealed l) bs B) as [E3 _].
  { unfold sealed. rewrite forallb_app, F. reflexivity. }
  rewrite <- E3. unfold sealed.
  change [(Hdr_CRC32, le_bytes 4 0); (Hdr_CRC32, le_bytes 4 (header_crc (filled bs l)))] with
    ([(Hdr_CRC32, le_bytes 4 0)] ++ [(Hdr_CRC32, le_bytes 4 (header_crc (filled bs l)))])%list.
  rewrite app_assoc, stores_app, E1. cbn [mbind option_bind stores].
  by destruct (wrn z _ _).
Qed.
End GptImage.

(** *** The volume *)

Definition boot_fields (bs F P : Z) (g : GEOMETRY) : list (Z * list Z) :=
  if UseFat32 g then fat32_fields bs F P g else fat16_fields bs F P g.
Definition root_len (g : GEOMETRY) : Z := if UseFat32 g then SecPerClus g else RootDirSectors g.
Definition fat_start (F : Z) (g : GEOMETRY) : Z := F + RsvdSecCnt g.
Definition root_start (F : Z) (g : GEOMETRY) : Z := fat_start F g + 2 * FatSz g.

(** What FormatFat writes for a volume of [P] sectors from [F] on. *)
Definition boot_overlay (bs F P : Z) (g : GEOMETRY) : Overlay :=
  after (one F (filled bs (boot_fields bs F P g)))
    (if UseFat32 g then one (F + 6) (filled bs (boot_fields bs F P g)) else none).
Definition fsinfo_overlay (bs F : Z) (g : GEOMETRY) : Overlay :=
  if UseFat32 g then after (one (F + 1) (filled bs (fsinfo_fields g))) (one (F + 7) (filled bs (fsinfo_fields g)))
  else none.
Definition tables_overlay (bs F : Z) (g : GEOMETRY) : Overlay :=
  after (one (fat_start F g) (filled bs (fat_head g)))
    (after (one (fat_start F g + FatSz g) (filled bs (fat_head g)))
       (after (after (span (fat_start F g + 1) (FatSz g - 1) (λ _, zeros bs))
                     (span (fat_start F g + FatSz g + 1) (FatSz g - 1) (λ _, zeros bs)))
          (span (root_start F g) (root_len g) (λ _, zeros bs)))).
Definition fat_overlay (bs F P : Z) (g : GEOMETRY) : Overlay :=
  after (boot_overlay bs F P g) (after (fsinfo_overlay bs F g) (tables_overlay bs F g)).

Lemma boot_fields_fit bs F P g : forallb (store_fits 512) (boot_fields bs F P g) = true.
Proof. unfold boot_fields. by destruct (UseFat32 g). Qed.
Lemma fat_head_fit g : forallb (store_fits 512) (fat_head g) = true.
Proof. unfold fat_head. by destruct (UseFat32 g). Qed.


Section Steps.
Context {D : Type} `{BlockIoLaws D} (crc32 : list Z → Z).
Implicit Types e : ENV D.

Ltac next := eapply does_bind; [|intros ?e ?M ?R].
Ltac overlay := rewrite ?(left_id none after), ?(right_id none after), <- ?(assoc after); reflexivity.

Lemma does_mbr bs total e : ready e → 512 <= bs → bs = BlockSize (Media (dev e)) → 0 <= LastBlock (Media (dev e)) →
  does (WriteProtectiveMbr bs total) EFI_SUCCESS 0 (one 0 (filled bs (mbr_fields total))) e.
Proof.
  intros R B EB L. destruct (stores_filled (mbr_fields total) bs B eq_refl) as [E Ln].
  unfold WriteProtectiveMbr. eapply does_ext.
  - next; [by apply does_alloc|]. eapply does_lift; [exact E|].
    next; [apply does_WriteBlock; [done|rewrite M; lia|congruence]|].
    next; [by apply does_Free|by apply does_ret].
  - lia.
  - overlay.
Qed.

(** The entries from address [Lba] on, as many blocks as they take. *)
Lemma does_entries_loop fuel bs Lba E st e :
  ready e → 512 <= bs → bs = BlockSize (Media (dev e)) → len E < 2 ^ 32 → (length E <= fuel)%nat → 0 <= Lba →
  let n := (len E + bs - 1) / bs in
  Lba + n - 1 <= LastBlock (Media (dev e)) → LastBlock (Media (dev e)) < 2 ^ 64 - 1 →
  does (entries_loop fuel bs (len E) Lba E st) (if 0 <? len E then EFI_SUCCESS else st) 0
    (span Lba n (chunk bs E)) e.
Proof.
  intros R B EB LE. revert E Lba st e R EB LE. induction fuel as [|fuel IH]; intros E Lba st e R EB LE F HL n HN HM.
  { destruct E; [|cbn in F; lia]. cbn [entries_loop length]. change (Z.of_nat 0) with 0 in *. cbn [Z.ltb Z.compare].
    eapply does_ext; [by apply does_ret|done|]. intros l. unfold span.
    assert (n = 0) as -> by (unfold n; apply Z.div_small; lia). unfold zbetween.
    destruct (Z.leb_spec Lba l), (Z.leb_spec l (Lba + 0 - 1)); cbn; done || lia. }
  cbn [entries_loop]. destruct (Z.ltb_spec 0 (len E)) as [P|P].
  2:{ eapply does_ext; [by apply does_ret|done|]. intros l. unfold span.
    assert (n = 0) as -> by (unfold n; apply Z.div_small; lia). unfold zbetween.
    destruct (Z.leb_spec Lba l), (Z.leb_spec l (Lba + 0 - 1)); cbn; done || lia. }
  set (c := if bs <? len E then bs else len E).
  assert (0 < c <= len E ∧ c <= bs) as (C1 & C2).
  { unfold c. destruct (Z.ltb_spec bs (len E)); lia. }
  assert (1 <= n) as N1 by (apply Z.div_le_lower_bound; lia).
  assert (c = bs ∨ c = len E ∧ len E <= bs) as C3 by (unfold c; destruct (Z.ltb_spec bs (len E)); lia).
  assert (rdn E 0 c ≫= (λ data, wrn (replicate (Z.to_nat bs) 0) 0 data) = Some (chunk bs E 0)) as EC.
  { rewrite rdn_eq by lia. cbn [mbind option_bind]. change (Z.to_nat 0) with O. rewrite drop_0.
    rewrite wrn_0 by (rewrite length_take, length_replicate; lia). unfold chunk. cbn [Z.mul].
    change (Z.to_nat 0) with O. rewrite drop_0, drop_replicate.
    assert (take (Z.to_nat c) E = take (Z.to_nat bs) E) as ->.
    { destruct C3 as [->|[-> ?]]; [done|]. rewrite Nat2Z.id, firstn_all, take_ge by lia. done. }
    do 2 f_equal. f_equal. lia. }
  eapply does_ext.
  - eapply does_lift; [exact EC|].
    next; [apply does_WriteBlock; [done|lia|by rewrite len_chunk by lia]|].
    change (EFI_ERROR EFI_SUCCESS) with false. cbv iota.
    rewrite (u64_small (Lba + 1)) by lia.
    assert (len (drop (Z.to_nat c) E) = len E - c) as LD by (rewrite length_drop; lia).
    rewrite (u32_small (len E - c)), <- LD by lia.
    assert ((len E - c + bs - 1) / bs = n - 1) as ND.
    { unfold n. destruct C3 as [->|[-> ?]].
      - replace (len E + bs - 1) with (len E - bs + bs - 1 + 1 * bs) by lia. rewrite Z.div_add by lia. lia.
      - rewrite Z.div_small by lia. replace (len E + bs - 1) with (len E - 1 + 1 * bs) by lia.
        rewrite Z.div_add, Z.div_small by lia. lia. }
    assert (does (entries_loop fuel bs (len (drop (Z.to_nat c) E)) (Lba + 1) (drop (Z.to_nat c) E) EFI_SUCCESS)
      EFI_SUCCESS 0 (span (Lba + 1) (n - 1) (chunk bs (drop (Z.to_nat c) E))) e0) as X; [|exact X].
    rewrite <- ND, <- LD. replace EFI_SUCCESS with
      (if 0 <? len (drop (Z.to_nat c) E) then EFI_SUCCESS else EFI_SUCCESS) at 2 by (by destruct (0 <? _)).
    apply IH; try done; rewrite ?M; try lia; try congruence. rewrite LD, ND. lia.
  - lia.
  - intros l. unfold after, one, span, zbetween.
    destruct C3 as [->|[-> C3]].
    + destruct (Z.leb_spec (Lba + 1) l), (Z.leb_spec l (Lba + 1 + (n - 1) - 1)),
        (Z.leb_spec Lba l), (Z.leb_spec l (Lba + n - 1)), (Z.eqb_spec l Lba); cbn; try done; try lia;
        rewrite ?chunk_drop by lia; do 2 f_equal; lia.
    + assert (n = 1) as -> by (symmetry; apply Z.div_unique with (len E - 1); lia).
      destruct (Z.leb_spec (Lba + 1) l), (Z.leb_spec l (Lba + 1 + (1 - 1) - 1)),
        (Z.leb_spec Lba l), (Z.leb_spec l (Lba + 1 - 1)), (Z.eqb_spec l Lba); cbn; try done; try lia;
        do 2 f_equal; lia.
Qed.

Lemma does_write_entries bs Lba E st e :
  ready e → 512 <= bs → bs = BlockSize (Media (dev e)) → 0 < len E < 2 ^ 32 → 0 <= Lba →
  let n := (len E + bs - 1) / bs in
  Lba + n - 1 <= LastBlock (Media (dev e)) → LastBlock (Media (dev e)) < 2 ^ 64 - 1 →
  does (write_entries bs (len E) Lba E st) EFI_SUCCESS 0 (span Lba n (chunk bs E)) e.
Proof.
  intros R B EB LE HL n HN HM. unfold write_entries. eapply does_ext.
  - next; [by apply does_alloc|].
    next; [apply (does_entries_loop _ bs Lba E st e0); (done || lia || (rewrite M; assumption) || congruence)|].
    next; [by apply does_Free|]. replace (if 0 <? len E then EFI_SUCCESS else st) with EFI_SUCCESS; [by apply does_ret|].
    destruct (Z.ltb_spec 0 (len E)); [done|lia].
  - lia.
  - unfold n. overlay.
Qed.

Lemma does_gpt bs T e : sizes_ok bs T → ready e → bs = BlockSize (Media (dev e)) → T = LastBlock (Media (dev e)) + 1 →
  does (WriteGpt crc32 bs T) EFI_SUCCESS 0 (gpt_overlay crc32 bs T) e.
Proof.
  intros SO R EB ET. pose proof (sizes_lbas bs T SO) as (S1 & S2 & S3 & S4 & _). pose proof SO as [B Rm T64].
  pose proof (gpt_lbas_range bs B) as N. unfold WriteGpt. rewrite S1, S2, S3, S4.
  destruct (Z.leb_spec (last_usable bs T) (first_usable bs)) as [X|_]; [lia|].
  destruct (entries_stored bs T) as [EE LE]. remember (entries_image bs T) as E eqn:HE in EE, LE |- *.
  destruct (stores_filled (primary_fields crc32 bs T) bs ltac:(lia) eq_refl) as [E1 _].
  pose proof (crc_header_sealed crc32 bs (primary_fields crc32 bs T) ltac:(lia) eq_refl eq_refl) as E2.
  destruct (stores_filled (sealed crc32 bs (primary_fields crc32 bs T)) bs ltac:(lia) eq_refl) as [E3 L3].
  destruct (stores_filled (backup_fields crc32 bs T) bs ltac:(lia) eq_refl) as [E4 _].
  pose proof (crc_header_sealed crc32 bs (backup_fields crc32 bs T) ltac:(lia) eq_refl eq_refl) as E5.
  destruct (stores_filled (sealed crc32 bs (backup_fields crc32 bs T)) bs ltac:(lia) eq_refl) as [_ L5].
  unfold backup_fields at 1 in E4. rewrite stores_app, E3 in E4. cbn [mbind option_bind] in E4.
  assert ((len E + bs - 1) / bs = gpt_lbas bs) as EN by (rewrite LE; unfold gpt_lbas; f_equal; lia).
  unfold primary_fields at 1 in E1. rewrite <- HE in E1. unfold first_usable, last_usable in *. eapply does_ext.
  - next; [by apply does_alloc|]. eapply does_lift; [exact EE|].
    next; [by apply does_alloc|]. eapply does_lift; [exact E1|]. eapply does_lift; [exact E2|].
    next; [apply does_WriteBlock; [done|rewrite M0, M; lia|rewrite L3; congruence]|].
    next.
    { change (EFI_ERROR EFI_SUCCESS) with false. cbv iota.
      change (GPT_ENTRY_COUNT * GPT_ENTRY_SIZE) with 16384. rewrite <- LE.
      next; [apply (does_write_entries bs 2 E); [exact R2|lia|congruence|lia|lia|rewrite EN, M1, M0, M; lia|rewrite M1, M0, M; lia]|].
      change (EFI_ERROR EFI_SUCCESS) with false. cbv iota.
      next; [apply (does_write_entries bs (T - 2 - gpt_lbas bs + 1) E); [exact R3|lia|congruence|lia|lia|rewrite EN, M2, M1, M0, M; lia|rewrite M2, M1, M0, M; lia]|].
      change (EFI_ERROR EFI_SUCCESS) with false. cbv iota.
      eapply does_lift; [exact E4|]. eapply does_lift; [exact E5|].
      apply does_WriteBlock; [done|rewrite M3, M2, M1, M0, M; lia|rewrite L5; congruence]. }
    next; [by apply does_Free|]. next; [by apply does_Free|]. by apply does_ret.
  - lia.
  - rewrite EN. unfold gpt_overlay. rewrite <- HE. unfold last_usable. overlay.
Qed.

(** From here on the device may end before the volume: what does not fit is
    refused, and the program goes on. *)
Definition media (bs N : Z) e : Prop := bs = BlockSize (Media (dev e)) ∧ N = LastBlock (Media (dev e)).

Lemma media_step bs N e e' : Media (dev e') = Media (dev e) → media bs N e → media bs N e'.
Proof. intros M [A B]. split; by rewrite M. Qed.

Ltac spread :=
  intros ?l; unfold cut, after, span, one, none, zbetween;
  repeat match goal with
         | |- context [?x <=? ?y] => destruct (Z.leb_spec x y)
         | |- context [?x =? ?y] => destruct (Z.eqb_spec x y)
         end; cbn; done || lia.

Lemma does_clear_fats bs N n i S1 S2 e :
  ready e → media bs N e → 0 <= bs → 0 <= i → 0 <= S1 → 0 <= S2 →
  S1 + i + Z.of_nat n < 2 ^ 64 → S2 + i + Z.of_nat n < 2 ^ 64 →
  does (clear_fats n i S1 S2 (zeros bs)) tt 0
    (cut N (after (span (S1 + i) (Z.of_nat n) (λ _, zeros bs)) (span (S2 + i) (Z.of_nat n) (λ _, zeros bs)))) e.
Proof.
  intros R Md B. revert i e R Md. induction n as [|n IH]; intros i e R Md Hi H1 H2 L1 L2; cbn [clear_fats].
  - eapply does_ext; [by apply does_ret|done|spread].
  - eapply does_ext.
    + rewrite (u64_small (S1 + i)), (u64_small (S2 + i)) by lia. pose proof Md as [EB EN].
      apply (does_ignored N); [done|done|lia|by rewrite len_zeros by lia|]. intros e1 M1 R1.
      apply (does_ignored N); [done|by rewrite M1|lia|by rewrite len_zeros, M1 by lia|]. intros e2 M2 R2.
      apply IH; try done; try lia. apply (media_step bs N e); [congruence|done].
    + lia.
    + spread.
Qed.

Lemma does_clear_root bs N n i Lba e :
  ready e → media bs N e → 0 <= bs → 0 <= i → 0 <= Lba → Lba + i + Z.of_nat n < 2 ^ 64 →
  does (clear_root n i Lba (zeros bs)) tt 0 (cut N (span (Lba + i) (Z.of_nat n) (λ _, zeros bs))) e.
Proof.
  intros R Md B. revert i e R Md. induction n as [|n IH]; intros i e R Md Hi H1 L1; cbn [clear_root].
  - eapply does_ext; [by apply does_ret|done|spread].
  - eapply does_ext.
    + rewrite (u64_small (Lba + i)) by lia. pose proof Md as [EB EN].
      apply (does_ignored N); [done|done|lia|by rewrite len_zeros by lia|]. intros e1 M1 R1.
      apply IH; try done; try lia. by apply (media_step bs N e).
    + lia.
    + spread.
Qed.

Lemma does_boot bs N F P g e : ready e → media bs N e → 512 <= bs → 0 <= F <= 64 → F + 7 <= N →
  does (write_boot bs F P g) EFI_SUCCESS 0 (cut N (boot_overlay bs F P g)) e.
Proof.
  intros R [EB EN] B HF HN.
  destruct (stores_filled (boot_fields bs F P g) bs B (boot_fields_fit bs F P g)) as [E L].
  unfold write_boot, boot_overlay. eapply does_ext.
  - next; [by apply does_alloc|]. eapply does_lift; [exact E|].
    next; [apply does_WriteBlock; [done|rewrite M; lia|congruence]|].
    change (EFI_ERROR EFI_SUCCESS) with false. cbv iota.
    apply (does_bind _ _ EFI_SUCCESS _ 0 (-1 + 0) (if UseFat32 g then one (F + 6) (filled bs (boot_fields bs F P g)) else none) (after none none)).
    + destruct (UseFat32 g); [|by apply does_ret]. rewrite u64_small by lia.
      apply does_WriteBlock; [done|rewrite M0, M; lia|congruence].
    + intros e2 M2 R2. next; [by apply does_Free|by apply does_ret].
  - lia.
  - rewrite cut_after. destruct (UseFat32 g); rewrite ?cut_none, !cut_one by lia; overlay.
Qed.

Lemma does_fsinfo bs N F g e : ready e → media bs N e → 512 <= bs → 0 <= F <= 64 → F + 7 <= N →
  does (write_fsinfo bs F g) EFI_SUCCESS 0 (cut N (fsinfo_overlay bs F g)) e.
Proof.
  intros R [EB EN] B HF HN. unfold write_fsinfo, fsinfo_overlay.
  destruct (UseFat32 g); [|eapply does_ext; [by apply does_ret|done|by rewrite cut_none]].
  destruct (stores_filled (fsinfo_fields g) bs B eq_refl) as [E L]. eapply does_ext.
  - next; [by apply does_alloc|]. eapply does_lift; [exact E|]. rewrite !u64_small by lia.
    next; [apply does_WriteBlock; [done|rewrite M; lia|congruence]|].
    next; [apply does_WriteBlock; [done|rewrite M0, M; lia|congruence]|].
    next; [by apply does_Free|by apply does_ret].
  - lia.
  - rewrite cut_after, !cut_one by lia. overlay.
Qed.

Lemma does_tables bs N F g e : ready e → media bs N e → 512 <= bs → 0 <= F <= 64 → geo_ok g →
  does (write_tables bs F g) EFI_SUCCESS 0 (cut N (tables_overlay bs F g)) e.
Proof.
  intros R Md B HF [C Ft Rt Rv]. pose proof Md as [EB EN].
  destruct (stores_filled (fat_head g) bs B (fat_head_fit g)) as [E L].
  assert (1 <= RsvdSecCnt g <= 32 ∧ 0 <= RootDirSectors g <= 32) as [Rr Rd] by (destruct (UseFat32 g); lia).
  unfold write_tables, tables_overlay, root_start, fat_start. eapply does_ext.
  - next; [by apply does_alloc|]. eapply does_lift; [exact E|].
    rewrite (u64_small (F + RsvdSecCnt g)), (u64_small (F + RsvdSecCnt g + FatSz g)), (u64_small (F + RsvdSecCnt g + FatSz g + FatSz g)),
      (u64_small (F + RsvdSecCnt g + FatSz g + FatSz g + RootDirSectors g)) by lia.
    apply (does_ignored N); [done|by rewrite M|lia|congruence|]. intros e1 M1 R1.
    apply (does_ignored N); [done|by rewrite M1, M|lia|congruence|]. intros e2 M2 R2.
    next; [apply (does_clear_fats bs N _ 1 (F + RsvdSecCnt g) (F + RsvdSecCnt g + FatSz g));
             [done|apply (media_step bs N e); [congruence|done]|lia..]|].
    apply (does_bind _ _ tt _ 0 (-1 + 0) (cut N (span (F + RsvdSecCnt g + 2 * FatSz g) (root_len g) (λ _, zeros bs))) (after none none)).
    + assert (media bs N e3) as Md3 by (apply (media_step bs N e); [congruence|done]).
      unfold root_len. destruct (UseFat32 g) eqn:U.
      * rewrite Rt. eapply does_ext; [apply (does_clear_root bs N _ 0 (F + RsvdSecCnt g + FatSz g + FatSz g + 0)); (done || lia)|done|].
        rewrite span_to_nat. by replace (F + RsvdSecCnt g + FatSz g + FatSz g + 0 + 0) with (F + RsvdSecCnt g + 2 * FatSz g) by lia.
      * eapply does_ext; [apply (does_clear_root bs N _ 0 (F + RsvdSecCnt g + FatSz g + FatSz g)); (done || lia)|done|].
        rewrite span_to_nat. by replace (F + RsvdSecCnt g + FatSz g + FatSz g + 0) with (F + RsvdSecCnt g + 2 * FatSz g) by lia.
    + intros e4 M4 R4. next; [by apply does_Free|by apply does_ret].
  - lia.
  - rewrite !span_to_nat, !cut_after. overlay.
Qed.
Lemma does_FormatFat bs T e : sizes_ok bs T → first_usable bs + 8 <= T → ready e → media bs (T - 1) e →
  let P := part_sectors bs T in let g := fat_geometry bs P in
  does (FormatFat bs T) EFI_SUCCESS 0 (cut (T - 1) (fat_overlay bs (first_usable bs) P g)) e.
Proof.
  intros SO Tl R Md P g. pose proof (sizes_lbas bs T SO) as (S1 & S2 & _ & _ & S5). pose proof SO as [B Rm T64].
  pose proof (gpt_lbas_range bs B) as N. unfold FormatFat. rewrite S1, S2, S5. fold P. fold g.
  pose proof (fat_geometry_ok bs P B : geo_ok g) as Go.
  assert (0 <= first_usable bs <= 64) as HF by (unfold first_usable; lia).
  eapply does_ext.
  - next; [apply (does_boot bs (T - 1)); (done || lia)|]. change (EFI_ERROR EFI_SUCCESS) with false. cbv iota.
    next; [apply (does_fsinfo bs (T - 1)); [done|by apply (media_step bs (T - 1) e)|lia..]|].
    change (EFI_ERROR EFI_SUCCESS) with false. cbv iota.
    apply (does_tables bs (T - 1)); [done|apply (media_step bs (T - 1) e); [congruence|done]|lia|lia|done].
  - lia.
  - unfold fat_overlay. rewrite !cut_after. overlay.
Qed.
End Steps.

(** ** The formatted disk *)

Definition disk_overlay (crc32 : list Z → Z) (bs T : Z) : Overlay :=
  let P := part_sectors bs T in
  after (one 0 (filled bs (mbr_fields T)))
    (after (gpt_overlay crc32 bs T)
       (cut (T - 1) (fat_overlay bs (first_usable bs) P (fat_geometry bs P)))).

Lemma format_run {D} `{BlockIoLaws D} crc32 (e : ENV D) :
  let m := Media (dev e) in let bs := BlockSize m in let T := LastBlock m + 1 in
  ready e → ReadOnly m = false → sizes_ok bs T → first_usable bs + 8 <= T →
  ∃ e', FormatBlockDevice crc32 EFI_SUCCESS e = Some (EFI_SUCCESS, e') ∧
    (∀ l, block (dev e') l = default (block (dev e) l) (disk_overlay crc32 bs T l)) ∧
    pool_live (pool e') = pool_live (pool e) ∧ live_pages e' = live_pages e ∧
    events e' = ConnectController :: DisconnectController :: events e.
Proof.
  intros m bs T R RO SO Tl. pose proof SO as [B Rm T64]. pose proof (gpt_lbas_range bs B) as N.
  unfold first_usable, last_usable in Rm.
  assert (LastBlock m +u64 1 = T) as ET by (apply u64_small; unfold T in *; lia).
  destruct (does_mbr bs T e R ltac:(lia) eq_refl ltac:(fold m; unfold T in *; lia)) as (e1 & E1 & F1 & R1).
  destruct (does_gpt crc32 bs T e1 SO R1) as (e2 & E2 & F2 & R2);
    [by rewrite (ef_media _ _ _ _ F1)|by rewrite (ef_media _ _ _ _ F1)|].
  assert (Media (dev e2) = m) as M2 by (by rewrite (ef_media _ _ _ _ F2), (ef_media _ _ _ _ F1)).
  destruct (does_FormatFat bs T e2 SO Tl R2) as (e3 & E3 & F3 & R3).
  { split; rewrite M2; [done|unfold T; lia]. }
  unfold FormatBlockDevice. fold m. change (EFI_ERROR EFI_SUCCESS) with false. rewrite RO. cbv iota zeta.
  rewrite ET. fold bs. destruct (Z.ltb_spec bs 512); [lia|].
  rewrite (app_run _ _ _ _ _ E1). change (EFI_ERROR EFI_SUCCESS) with false. cbv iota.
  rewrite (app_run _ _ _ _ _ E2). change (EFI_ERROR EFI_SUCCESS) with false. cbv iota.
  rewrite (app_run _ _ _ _ _ E3). change (EFI_ERROR EFI_SUCCESS) with false. cbv iota.
  unfold mbind, App_bind.
  pose proof (λ l, fl_block l (dev e3)) as FB. destruct (FlushBlocks (dev e3)) as [st d]. cbn in FB.
  eexists. split; [reflexivity|]. cbn.
  pose proof (effect_trans _ _ _ _ _ _ _ F1 (effect_trans _ _ _ _ _ _ _ F2 F3)) as [X1 _ X3 X4 X5].
  split_and!; [|lia|done|by rewrite X5]. intros l. rewrite FB. apply X1.
Qed.

(** ** Reading the disk back *)

(** What a reader of the partition table takes from the header at [lba]: the place
    of the other header, the usable blocks and the entries, when the signature,
    the address and both checksums are right. *)
Record TABLE := mkTable {
  t_alternate : Z;
  t_first : Z;
  t_last : Z;
  t_entries : list Z
}.

Definition read_blocks (f : Z → list Z) (bs lba n : Z) : list Z :=
  take (Z.to_nat n) (concat (map (λ k, f (lba + Z.of_nat k)) (seq 0 (Z.to_nat ((n + bs - 1) / bs))))).

Definition read_gpt (crc32 : list Z → Z) (f : Z → list Z) (bs lba : Z) : option TABLE :=
  let h := f lba in
  sig ← le64 h Hdr_Signature;
  size ← le32 h Hdr_HeaderSize;
  crc ← le32 h Hdr_CRC32;
  z ← wrn h Hdr_CRC32 (le_bytes 4 0);
  bytes ← rdn z 0 size;
  my ← le64 h Hdr_MyLBA;
  alternate ← le64 h Hdr_AlternateLBA;
  first ← le64 h Hdr_FirstUsableLBA;
  last ← le64 h Hdr_LastUsableLBA;
  entries_lba ← le64 h Hdr_PartitionEntryLBA;
  count ← le32 h Hdr_NumberOfPartitionEntries;
  size ← le32 h Hdr_SizeOfPartitionEntry;
  entries_crc ← le32 h Hdr_PartitionEntryArrayCRC32;
  let E := read_blocks f bs entries_lba (count * size) in
  if (sig =? EFI_PTAB_HEADER_ID) && (my =? lba) && (crc32 bytes =? crc) && (crc32 E =? entries_crc)
  then Some (mkTable alternate first last E) else None.

(** Entry [i]: its type, first and last block. *)
Definition read_entry (E : list Z) (i : Z) : option (list Z * Z * Z) :=
  ty ← rdn E (i * GPT_ENTRY_SIZE + Entry_PartitionTypeGUID) 16;
  first ← le64 E (i * GPT_ENTRY_SIZE + Entry_StartingLBA);
  last ← le64 E (i * GPT_ENTRY_SIZE + Entry_EndingLBA);
  Some (ty, first, last).

Lemma rd_ext (a b : list Z) : (∀ i, rd a i = rd b i) → a = b.
Proof.
  intros E. apply list_eq. intros i. specialize (E (Z.of_nat i)). rewrite !rd_lookup, Nat2Z.id in E by lia. done.
Qed.

(** Stores to a field that is then stored over do not matter. *)
Lemma stores_over h h' o d1 d2 d : stores [(o, d1); (o, d2)] h = Some h' →
  length d1 = length d → length d2 = length d → wrn h' o d = wrn h o d.
Proof.
  intros E L1 L2. pose proof (stores_length _ _ _ E) as L.
  destruct (wrn h o d) as [x|] eqn:X.
  - assert (is_Some (wrn h' o d)) as [y Y].
    { unfold wrn in *. destruct (in_bounds h o (len d)) eqn:B; [|done]. apply in_bounds_spec in B.
      rewrite (proj2 (in_bounds_spec h' o (len d))) by lia. done. }
    rewrite Y. f_equal. apply rd_ext. intros i. rewrite (wrn_rd _ _ _ _ i Y), (wrn_rd _ _ _ _ i X).
    rewrite (stores_rd _ _ _ i E). cbn [peek]. rewrite L1, L2. by destruct (zbetween o i (o + len d - 1)).
  - cbn [stores] in E. unfold wrn in *. rewrite L1 in E.
    destruct (in_bounds h o (len d)) eqn:B; [done|]. cbn in E. discriminate.
Qed.

Section ReadBack.
Context (crc32 : list Z → Z) (bs T : Z).
Hypothesis Hcrc : ∀ l, 0 <= crc32 l < 2 ^ 32.
Hypothesis Hbs : 512 <= bs < 2 ^ 16.

(** A header block of the right fields reads back. *)
Lemma read_header l lba alt first last elba (f : Z → list Z) E :
  forallb (store_fits 512) l = true →
  f lba = filled bs (sealed crc32 bs l) →
  field (sealed crc32 bs l) Hdr_Signature = Some (le_bytes 8 EFI_PTAB_HEADER_ID) →
  field (sealed crc32 bs l) Hdr_HeaderSize = Some (le_bytes 4 SIZEOF_EFI_PARTITION_TABLE_HEADER) →
  field (sealed crc32 bs l) Hdr_CRC32 = Some (le_bytes 4 (header_crc crc32 (filled bs l))) →
  field (sealed crc32 bs l) Hdr_MyLBA = Some (le_bytes 8 lba) →
  field (sealed crc32 bs l) Hdr_AlternateLBA = Some (le_bytes 8 alt) →
  field (sealed crc32 bs l) Hdr_FirstUsableLBA = Some (le_bytes 8 first) →
  field (sealed crc32 bs l) Hdr_LastUsableLBA = Some (le_bytes 8 last) →
  field (sealed crc32 bs l) Hdr_PartitionEntryLBA = Some (le_bytes 8 elba) →
  field (sealed crc32 bs l) Hdr_NumberOfPartitionEntries = Some (le_bytes 4 GPT_ENTRY_COUNT) →
  field (sealed crc32 bs l) Hdr_SizeOfPartitionEntry = Some (le_bytes 4 GPT_ENTRY_SIZE) →
  field (sealed crc32 bs l) Hdr_PartitionEntryArrayCRC32 = Some (le_bytes 4 (crc32 E)) →
  0 <= lba < 2 ^ 64 → 0 <= alt < 2 ^ 64 → 0 <= first < 2 ^ 64 → 0 <= last < 2 ^ 64 → 0 <= elba < 2 ^ 64 →
  read_blocks f bs elba (GPT_ENTRY_COUNT * GPT_ENTRY_SIZE) = E →
  read_gpt crc32 f bs lba = Some (mkTable alt first last E).
Proof.
  intros F FL F1 F2 F3 F4 F5 F6 F7 F8 F9 F10 F11 R1 R2 R3 R4 R5 EE.
  destruct (stores_filled l bs ltac:(lia) F) as [S0 L0].
  destruct (stores_filled (sealed crc32 bs l) bs ltac:(lia)) as [S1 L1].
  { unfold sealed. rewrite forallb_app, F. reflexivity. }
  unfold read_gpt. rewrite FL. set (h := filled bs (sealed crc32 bs l)) in *.
  assert (∀ o d, field (sealed crc32 bs l) o = Some d → rdn h o (len d) = Some d) as G
    by (intros o d; apply (stores_field _ (zeros bs)); exact S1).
  assert (∀ o v, field (sealed crc32 bs l) o = Some (le_bytes 8 v) → 0 <= v < 2 ^ 64 → le64 h o = Some v) as G8.
  { intros o v Fo Hv. apply rdn_le64; [|done]. by apply (G o (le_bytes 8 v)). }
  assert (∀ o v, field (sealed crc32 bs l) o = Some (le_bytes 4 v) → 0 <= v < 2 ^ 32 → le32 h o = Some v) as G4.
  { intros o v Fo Hv. apply rdn_le32; [|done]. by apply (G o (le_bytes 4 v)). }
  rewrite (G8 _ _ F1) by (unfold EFI_PTAB_HEADER_ID; lia).
  rewrite (G4 _ _ F2) by (unfold SIZEOF_EFI_PARTITION_TABLE_HEADER; lia).
  rewrite (G4 _ _ F3) by apply Hcrc. cbn [mbind option_bind].
  pose proof S1 as S2. unfold sealed in S2. rewrite stores_app, S0 in S2. cbn [mbind option_bind] in S2.
  rewrite (stores_over _ _ _ _ _ (le_bytes 4 0) S2) by (by rewrite !length_le_bytes).
  assert (∃ z bytes, wrn (filled bs l) Hdr_CRC32 (le_bytes 4 0) = Some z ∧
            rdn z 0 SIZEOF_EFI_PARTITION_TABLE_HEADER = Some bytes ∧ header_crc crc32 (filled bs l) = crc32 bytes)
    as (z & bytes & W & Rz & HC).
  { unfold header_crc. destruct (wrn (filled bs l) Hdr_CRC32 (le_bytes 4 0)) as [z|] eqn:W.
    - pose proof (wrn_length _ _ _ _ W) as Lz. cbn [mbind option_bind].
      destruct (rdn z 0 SIZEOF_EFI_PARTITION_TABLE_HEADER) as [bytes|] eqn:Rz; [by exists z, bytes|].
      rewrite rdn_eq in Rz; [done|lia|unfold SIZEOF_EFI_PARTITION_TABLE_HEADER; lia..].
    - rewrite wrn_eq in W; [done|unfold Hdr_CRC32; lia|unfold Hdr_CRC32; rewrite length_le_bytes; lia]. }
  rewrite W. cbn [mbind option_bind]. rewrite Rz. cbn [mbind option_bind].
  rewrite (G8 _ _ F4), (G8 _ _ F5), (G8 _ _ F6), (G8 _ _ F7), (G8 _ _ F8) by done.
  rewrite (G4 _ _ F9) by (unfold GPT_ENTRY_COUNT; lia). rewrite (G4 _ _ F10) by (unfold GPT_ENTRY_SIZE; lia).
  rewrite (G4 _ _ F11) by apply Hcrc. cbn [mbind option_bind]. rewrite EE, HC, !Z.eqb_refl. done.
Qed.

(** Where the overlays are. *)
Lemma one_hit l b : one l b l = Some b.
Proof. unfold one. by rewrite Z.eqb_refl. Qed.
Lemma one_miss l b l' : l' <> l → one l b l' = None.
Proof. unfold one. by destruct (Z.eqb_spec l' l). Qed.
Lemma span_hit lo n g l : lo <= l < lo + n → span lo n g l = Some (g (l - lo)).
Proof. intros. unfold span. by rewrite (proj2 (zbetween_spec _ _ _)) by lia. Qed.
Lemma span_miss lo n g l : l < lo ∨ lo + n <= l → span lo n g l = None.
Proof.
  intros. unfold span. destruct (zbetween lo l (lo + n - 1)) eqn:Z; [|done]. apply zbetween_spec in Z. lia.
Qed.

Lemma fat_outside F P g l : volume_fits P g → l < F ∨ F + P <= l → fat_overlay bs F P g l = None.
Proof.
  intros [C Ft Rt Rv Dt] O. unfold data_sectors in Dt.
  unfold fat_overlay, boot_overlay, fsinfo_overlay, tables_overlay, root_start, fat_start, root_len, after.
  destruct (UseFat32 g); rewrite ?span_miss, ?one_miss by lia; done.
Qed.

Hypothesis Hroom : first_usable bs < last_usable bs T.
Hypothesis Htotal : T < 2 ^ 64.
Context (old : Z → list Z).

(** The disk after the run. *)
Definition image : Z → list Z := λ l, default (old l) (disk_overlay crc32 bs T l).

Lemma image_gpt l : volume_fits (part_sectors bs T) (fat_geometry bs (part_sectors bs T)) →
  0 < l → l < first_usable bs ∨ last_usable bs T < l → image l = default (old l) (gpt_overlay crc32 bs T l).
Proof.
  intros V L O. unfold image, disk_overlay, after.
  replace (cut (T - 1) _ l) with (@None (list Z))
    by (unfold cut; rewrite fat_outside by (done || (unfold part_sectors; lia)); by destruct (l <=? T - 1)).
  destruct (gpt_overlay crc32 bs T l); [done|]. by rewrite one_miss by lia.
Qed.

Lemma image_fat l : first_usable bs <= l <= last_usable bs T →
  image l = default (old l) (fat_overlay bs (first_usable bs) (part_sectors bs T) (fat_geometry bs (part_sectors bs T)) l).
Proof.
  intros L. pose proof (gpt_lbas_range bs Hbs) as N. unfold image, disk_overlay, after, cut.
  destruct (Z.leb_spec l (T - 1)) as [_|X]; [|unfold last_usable in L; lia].
  destruct (fat_overlay _ _ _ _ l); [done|]. unfold gpt_overlay, after, first_usable, last_usable in *.
  by rewrite !span_miss, !one_miss by lia.
Qed.

Lemma image_entries lba : volume_fits (part_sectors bs T) (fat_geometry bs (part_sectors bs T)) →
  lba = 2 ∨ lba = last_usable bs T + 1 →
  read_blocks image bs lba (GPT_ENTRY_COUNT * GPT_ENTRY_SIZE) = entries_image bs T.
Proof.
  intros V HL. pose proof (gpt_lbas_range bs Hbs) as N. unfold read_blocks.
  change (GPT_ENTRY_COUNT * GPT_ENTRY_SIZE) with 16384.
  replace ((16384 + bs - 1) / bs) with (gpt_lbas bs) by (unfold gpt_lbas; f_equal; lia).
  destruct (entries_stored bs T) as [_ LE].
  rewrite (map_ext_in _ (λ k, chunk bs (entries_image bs T) (Z.of_nat k))).
  - replace (Z.to_nat 16384) with (length (entries_image bs T)) by lia. apply chunks_concat; [lia|].
    rewrite LE, Z2Nat.id by lia. unfold gpt_lbas. Z.div_mod_to_equations. nia.
  - intros k Hk. apply in_seq in Hk. unfold first_usable, last_usable in *.
    assert (gpt_overlay crc32 bs T (lba + Z.of_nat k) = Some (chunk bs (entries_image bs T) (Z.of_nat k))) as EG.
    { unfold gpt_overlay, after. unfold last_usable. rewrite (one_miss (T - 1)) by lia. destruct HL as [->| ->].
      - rewrite (span_miss (T - 2 - gpt_lbas bs + 1)), span_hit by lia. f_equal. f_equal. lia.
      - rewrite span_hit by lia. f_equal. f_equal. lia. }
    rewrite image_gpt; [by rewrite EG|done|lia|]. unfold first_usable, last_usable. lia.
Qed.

Lemma image_read_gpt : volume_fits (part_sectors bs T) (fat_geometry bs (part_sectors bs T)) →
  read_gpt crc32 image bs 1 =
    Some (mkTable (T - 1) (first_usable bs) (last_usable bs T) (entries_image bs T)) ∧
  read_gpt crc32 image bs (T - 1) =
    Some (mkTable 1 (first_usable bs) (last_usable bs T) (entries_image bs T)).
Proof.
  intros V. pose proof (gpt_lbas_range bs Hbs) as N.
  pose proof (image_entries 2 V (or_introl eq_refl)) as B1.
  pose proof (image_entries _ V (or_intror eq_refl)) as B2.
  unfold first_usable, last_usable in *. split.
  - apply (read_header (primary_fields crc32 bs T) 1 _ _ _ 2); try reflexivity; try lia; [|exact B1].
    rewrite image_gpt; [|done|lia|unfold first_usable; lia].
    unfold gpt_overlay, after, last_usable. by rewrite (one_miss (T - 1)), !span_miss, one_hit by lia.
  - apply (read_header (backup_fields crc32 bs T) (T - 1) _ _ _ (T - 2 - gpt_lbas bs + 1)); try reflexivity; try lia; [|exact B2].
    rewrite image_gpt; [|done|lia|unfold last_usable; lia].
    unfold gpt_overlay, after, last_usable. by rewrite one_hit.
Qed.

(** The first entry is the partition, the others are unused. *)
Lemma read_entry_0 :
  read_entry (entries_image bs T) 0 = Some (guid_bytes mEspTypeGuid, first_usable bs, last_usable bs T).
Proof.
  pose proof (gpt_lbas_range bs Hbs) as N.
  destruct (entries_stored bs T) as [E _].
  pose proof (stores_field _ _ _ Entry_PartitionTypeGUID (guid_bytes mEspTypeGuid) E eq_refl) as X0.
  pose proof (stores_field _ _ _ Entry_StartingLBA (le_bytes 8 (first_usable bs)) E eq_refl) as X1.
  pose proof (stores_field _ _ _ Entry_EndingLBA (le_bytes 8 (last_usable bs T)) E eq_refl) as X2.
  apply rdn_le64 in X1; [|unfold first_usable; lia].
  apply rdn_le64 in X2; [|unfold first_usable, last_usable in *; lia].
  unfold read_entry. change (0 * GPT_ENTRY_SIZE) with 0. rewrite !Z.add_0_l.
  change 16 with (len (guid_bytes mEspTypeGuid)). by rewrite X0, X1, X2.
Qed.

Lemma read_entry_free i : 1 <= i < GPT_ENTRY_COUNT →
  read_entry (entries_image bs T) i = Some (zeros 16, 0, 0).
Proof.
  intros Hi. unfold GPT_ENTRY_COUNT in Hi.
  destruct (entries_stored bs T) as [E L].
  assert (∀ o n, 128 <= o → 0 <= n → o + n <= 16384 → rdn (entries_image bs T) o n = Some (zeros n)) as Z0.
  { intros o n Ho Hn Hb. rewrite (stores_apart _ _ _ o n E); try lia; [|..|by rewrite len_zeros by lia].
    - rewrite rdn_eq by (rewrite ?len_zeros; lia). unfold zeros. by rewrite drop_replicate, take_replicate,
        Nat.min_l by lia.
    - apply forallb_forall. intros x Hx. cbn in Hx.
      destruct Hx as [<-|[<-|[<-|[<-|[<-|[<-|[]]]]]]];
        (apply orb_true_iff; right; apply Z.leb_le; apply Z.le_trans with 128; [|exact Ho]; by apply Z.leb_le). }
  unfold read_entry, GPT_ENTRY_SIZE, Entry_PartitionTypeGUID, Entry_StartingLBA, Entry_EndingLBA.
  rewrite Z0 by lia. cbn [mbind option_bind].
  assert (∀ o, 128 <= o → o + 8 <= 16384 → le64 (entries_image bs T) o = Some 0) as Z8.
  { intros o Ho Hb. apply rdn_le64; [|lia]. by rewrite (Z0 o 8) by lia. }
  rewrite !Z8 by lia. done.
Qed.

Lemma image_0 : image 0 = filled bs (mbr_fields T).
Proof.
  pose proof (gpt_lbas_range bs Hbs) as N. pose proof (fat_geometry_ok bs (part_sectors bs T) Hbs) as [C Ft Rt Rv].
  unfold image, disk_overlay, after, cut, gpt_overlay, after, fat_overlay, boot_overlay, fsinfo_overlay,
    tables_overlay, root_start, fat_start, root_len, after, first_usable, last_usable in *.
  destruct (Z.leb_spec 0 (T - 1)) as [_|]; [|lia].
  destruct (UseFat32 (fat_geometry bs (part_sectors bs T)));
    rewrite ?span_miss, ?(one_miss (T - 1)), ?(one_miss 1) by lia; rewrite ?one_miss by lia; by rewrite one_hit.
Qed.
End ReadBack.

(** What a reader takes from a boot sector with the right signature: the 16-bit
    counts, or the 32-bit ones where those are zero. *)
Record BPB := mkBpb {
  b_bytes : Z;
  b_clus : Z;
  b_rsvd : Z;
  b_fats : Z;
  b_root : Z;
  b_total : Z;
  b_fatsz : Z
}.

Definition read_bpb (s : list Z) : option BPB :=
  sig ← le16 s Bpb_Signature;
  bytes ← le16 s Bpb_BytsPerSec;
  clus ← rd s Bpb_SecPerClus;
  rsvd ← le16 s Bpb_RsvdSecCnt;
  fats ← rd s Bpb_NumFATs;
  root ← le16 s Bpb_RootEntCnt;
  total16 ← le16 s Bpb_TotSec16;
  fatsz16 ← le16 s Bpb_FATSz16;
  total32 ← le32 s Bpb_TotSec32;
  fatsz32 ← le32 s Fat32_FATSz32;
  if sig =? 0xAA55 then
    Some (mkBpb bytes clus rsvd fats root (if total16 =? 0 then total32 else total16)
            (if fatsz16 =? 0 then fatsz32 else fatsz16))
  else None.

(** The type of a volume, by its count of clusters, as the comment in FormatFat
    has it. *)
Inductive FAT := FAT12 | FAT16 | FAT32.

Definition bpb_clusters (b : BPB) : Z :=
  (b_total b - b_rsvd b - b_fats b * b_fatsz b - (b_root b * 32 + b_bytes b - 1) / b_bytes b) / b_clus b.
Definition fat_type (b : BPB) : FAT :=
  if bpb_clusters b <? 4085 then FAT12 else if bpb_clusters b <? 65525 then FAT16 else FAT32.

Definition volume_bpb (bs P : Z) (g : GEOMETRY) : BPB :=
  mkBpb bs (SecPerClus g) (RsvdSecCnt g) 2 (if UseFat32 g then 0 else FAT16_ROOT_ENTRY_COUNT) P (FatSz g).

Lemma read_boot bs F P g : 512 <= bs < 2 ^ 16 → 1 <= P < 2 ^ 32 → volume_fits P g →
  read_bpb (filled bs (boot_fields bs F P g)) = Some (volume_bpb bs P g).
Proof.
  intros B HP [C Ft Rt Rv _].
  destruct (stores_filled (boot_fields bs F P g) bs ltac:(lia) (boot_fields_fit bs F P g)) as [E L].
  set (s := filled bs (boot_fields bs F P g)) in *.
  assert (∀ o v, field (boot_fields bs F P g) o = Some (le_bytes 2 v) → 0 <= v < 2 ^ 16 → le16 s o = Some v) as G2.
  { intros o v Fo Hv. apply rdn_le16; [|done]. by apply (stores_field _ _ _ _ (le_bytes 2 v) E). }
  assert (∀ o v, field (boot_fields bs F P g) o = Some (le_bytes 4 v) → 0 <= v < 2 ^ 32 → le32 s o = Some v) as G4.
  { intros o v Fo Hv. apply rdn_le32; [|done]. by apply (stores_field _ _ _ _ (le_bytes 4 v) E). }
  assert (∀ o v, field (boot_fields bs F P g) o = Some [v] → rd s o = Some v) as G1.
  { intros o v Fo. apply rdn_byte. by apply (stores_field _ _ _ _ [v] E). }
  clearbody s. clear E. unfold boot_fields in *. unfold read_bpb, volume_bpb. destruct (UseFat32 g) eqn:U.
  - rewrite (G2 Bpb_Signature 0xAA55), (G2 Bpb_BytsPerSec (u16 bs)), (G2 Bpb_RsvdSecCnt (u16 (RsvdSecCnt g))),
      (G2 Bpb_RootEntCnt 0), (G2 Bpb_TotSec16 0), (G2 Bpb_FATSz16 0)
      by (reflexivity || lia || apply u16_range).
    rewrite (G1 Bpb_SecPerClus (u8 (SecPerClus g))), (G1 Bpb_NumFATs 2) by reflexivity.
    rewrite (G4 Bpb_TotSec32 (u32 P)), (G4 Fat32_FATSz32 (FatSz g)) by (reflexivity || lia || apply u32_range).
    cbn [mbind option_bind]. change (43605 =? 43605) with true. change (0 =? 0) with true. cbv iota.
    by rewrite !u16_small, u8_small, u32_small by lia.
  - destruct (le32_is_Some s Fat32_FATSz32) as [x Ex]; [unfold Fat32_FATSz32; lia|unfold Fat32_FATSz32; lia|].
    rewrite (G2 Bpb_Signature 0xAA55), (G2 Bpb_BytsPerSec (u16 bs)), (G2 Bpb_RsvdSecCnt (u16 (RsvdSecCnt g))),
      (G2 Bpb_RootEntCnt FAT16_ROOT_ENTRY_COUNT), (G2 Bpb_FATSz16 (u16 (FatSz g)))
      by (reflexivity || (unfold FAT16_ROOT_ENTRY_COUNT; lia) || apply u16_range).
    rewrite (G1 Bpb_SecPerClus (u8 (SecPerClus g))), (G1 Bpb_NumFATs 2) by reflexivity.
    rewrite Ex.
    rewrite (G2 Bpb_TotSec16 (if P <=? 0xFFFF then u16 P else 0))
      by (reflexivity || (destruct (P <=? 0xFFFF); [apply u16_range|lia])).
    rewrite (G4 Bpb_TotSec32 (if P <=? 0xFFFF then 0 else u32 P))
      by (reflexivity || (destruct (P <=? 0xFFFF); [lia|apply u32_range])).
    cbn [mbind option_bind]. change (43605 =? 43605) with true. cbv iota.
    rewrite (u16_small (FatSz g)), (u16_small bs), (u16_small (RsvdSecCnt g)), u8_small, (u32_small P) by lia.
    destruct (Z.eqb_spec (FatSz g) 0); [lia|].
    destruct (Z.leb_spec P 0xFFFF); [rewrite u16_small by lia; by destruct (Z.eqb_spec P 0); [lia|]|done].
Qed.

(** The reader's clusters are those of the geometry. *)
Lemma volume_clusters bs P : 512 <= bs < 2 ^ 16 →
  bpb_clusters (volume_bpb bs P (fat_geometry bs P)) = clusters P (fat_geometry bs P).
Proof.
  intros B. unfold bpb_clusters, volume_bpb, clusters, data_sectors. cbn. f_equal.
  assert ((if UseFat32 (fat_geometry bs P) then 0 else FAT16_ROOT_ENTRY_COUNT) * 32 + bs - 1 =
          if UseFat32 (fat_geometry bs P) then bs - 1 else 16383 + bs) as ->.
  { unfold FAT16_ROOT_ENTRY_COUNT. destruct (UseFat32 _); lia. }
  pose proof (fat_geometry_ok bs P B) as [_ _ Rt _]. destruct (UseFat32 (fat_geometry bs P)) eqn:U.
  - rewrite Rt, Z.div_small by lia. lia.
  - pose proof (root_sectors bs B) as [Er _]. rewrite <- Er.
    enough (RootDirSectors (fat_geometry bs P) = FAT16_ROOT_DIR_SECTORS bs) by lia.
    unfold fat_geometry in *. destruct (try_fat16 _ _ _ _ _ _) as [[[c f] T]|]; [done|].
    unfold fat32_geometry in U. cbv zeta in U. done.
Qed.

Lemma volume_type bs P : 512 <= bs < 2 ^ 16 → type_ok P (fat_geometry bs P) = true →
  fat_type (volume_bpb bs P (fat_geometry bs P)) = if UseFat32 (fat_geometry bs P) then FAT32 else FAT16.
Proof.
  intros B. unfold fat_type, type_ok. rewrite volume_clusters by done.
  destruct (UseFat32 _); intros Ty.
  - b2p. destruct (Z.ltb_spec (clusters P (fat_geometry bs P)) 4085); [lia|].
    by destruct (Z.ltb_spec (clusters P (fat_geometry bs P)) 65525); [lia|].
  - apply zbetween_spec in Ty. destruct (Z.ltb_spec (clusters P (fat_geometry bs P)) 4085); [lia|].
    by destruct (Z.ltb_spec (clusters P (fat_geometry bs P)) 65525); [|lia].
Qed.

(** The tables and the root directory. *)
Record tables_on (f : Z → list Z) (bs F : Z) (g : GEOMETRY) : Prop := mkTables {
  to_head : f (fat_start F g) = filled bs (fat_head g);
  to_head2 : f (fat_start F g + FatSz g) = filled bs (fat_head g);
  to_rest k : 1 <= k < FatSz g → f (fat_start F g + k) = zeros bs ∧ f (fat_start F g + FatSz g + k) = zeros bs;
  to_root k : 0 <= k < root_len g → f (root_start F g + k) = zeros bs
}.

Lemma overlay_volume f bs F P g :
  volume_fits P g → (UseFat32 g = false → 1 <= RootDirSectors g) →
  (∀ l b, F <= l <= F + P - 1 → fat_overlay bs F P g l = Some b → f l = b) →
  f F = filled bs (boot_fields bs F P g) ∧ tables_on f bs F g.
Proof.
  intros [C Ft Rt Rv Dt] Rt' I. unfold data_sectors in Dt.
  split; [|constructor; unfold root_start, fat_start, root_len; try (intros k Hk; split); try intros k Hk]; apply I.
  all: unfold fat_overlay, boot_overlay, fsinfo_overlay, tables_overlay, root_start, fat_start, root_len, after.
  all: destruct (UseFat32 g); try specialize (Rt' eq_refl); try lia.
  all: repeat match goal with
         | |- context [span ?lo ?n ?h ?l] =>
             first [rewrite (span_hit lo n h l) by lia | rewrite (span_miss lo n h l) by lia]
         | |- context [one ?l ?b ?l'] =>
             first [rewrite (one_miss l b l') by lia | replace l' with l by lia; rewrite (one_hit l b)]
         end; reflexivity.
Qed.

Lemma image_volume crc32 bs T old :
  let F := first_usable bs in let P := part_sectors bs T in let g := fat_geometry bs P in
  512 <= bs < 2 ^ 16 → F < last_usable bs T → T < 2 ^ 64 → volume_fits P g →
  image crc32 bs T old F = filled bs (boot_fields bs F P g) ∧ tables_on (image crc32 bs T old) bs F g.
Proof.
  intros F P g B Rm Tt V. apply overlay_volume; [done|..].
  - intros U. pose proof (fat_geometry_ok bs P B) as [_ _ R _]. fold g in R. rewrite U in R. apply R.
  - intros l b Hl E. rewrite image_fat by (unfold P, part_sectors in Hl; unfold F in *; lia || done).
    fold F P g. by rewrite E.
Qed.

Lemma read_gpt_ext crc32 f f' bs lba : (∀ l, f l = f' l) → read_gpt crc32 f bs lba = read_gpt crc32 f' bs lba.
Proof.
  intros E. unfold read_gpt, read_blocks. rewrite E.
  assert (∀ a n, map (λ k, f (a + Z.of_nat k)) (seq 0 n) = map (λ k, f' (a + Z.of_nat k)) (seq 0 n)) as M
    by (intros; apply map_ext; intros; apply E).
  repeat match goal with |- ?m ≫= _ = _ => destruct m; cbn [mbind option_bind]; [|done] end. by rewrite M.
Qed.

(** ** Runs that do not go well *)

Section Any.
Context {D : Type} `{BlockIo D} (crc32 : list Z → Z).

(** [m] returns, whatever the device and the pool answer, with [k] pool blocks
    and [n] pages more. *)
Definition safe {A} (k n : Z) (m : App (D := D) A) : Prop := ∀ e : ENV D, ∃ a e', m e = Some (a, e') ∧
  pool_live (pool e') = pool_live (pool e) + k ∧ live_pages e' = live_pages e + n.

Lemma safe_ret {A} (a : A) : safe 0 0 (mret a).
Proof. intros e. exists a, e. split; [done|lia]. Qed.

Lemma safe_bind {A B} (m : App A) (f : A → App B) k1 k2 n1 n2 :
  safe k1 n1 m → (∀ a, safe k2 n2 (f a)) → safe (k1 + k2) (n1 + n2) (m ≫= f).
Proof.
  intros S K e. destruct (S e) as (a & e1 & E1 & P1 & N1). destruct (K a e1) as (b & e2 & E2 & P2 & N2).
  exists b, e2. unfold mbind, App_bind. rewrite E1. split; [done|lia].
Qed.

Lemma safe_lift {A B} (o : option A) (f : A → App B) a k n : o = Some a → safe k n (f a) → safe k n (lift o ≫= f).
Proof. by intros ->. Qed.

Lemma safe_write l b : safe 0 0 (WriteBlock l b).
Proof.
  intros e. unfold WriteBlock. destruct (WriteBlocks l b (dev e)) as [st d]. eexists _, _. split; [done|cbn; lia].
Qed.

Lemma safe_Free : safe (-1) 0 Free.
Proof. intros e. eexists _, _. split; [done|cbn; lia]. Qed.

Lemma safe_event v : safe 0 0 (event v).
Proof. intros e. eexists _, _. split; [done|cbn; lia]. Qed.

Lemma safe_pages f k : (∀ n, f n = n + k) → safe 0 k (pages f).
Proof. intros E e. eexists _, _. split; [done|cbn]. rewrite E. lia. Qed.

Lemma safe_alloc {B} n (f : option (list Z) → App B) k j :
  safe k j (f None) → safe (k - 1) j (f (Some (zeros n))) → safe k j (AllocateZeroPool n ≫= f).
Proof.
  intros S0 S1 e. unfold mbind, App_bind, AllocateZeroPool.
  destruct (AllocatePool (pool e)) as [ok p] eqn:E. pose proof (AllocatePool_live _ _ _ E) as L.
  destruct ok; [destruct (S1 (mkEnv p (dev e) (live_pages e) (events e))) as (a & e' & E' & X & Y)
               |destruct (S0 (mkEnv p (dev e) (live_pages e) (events e))) as (a & e' & E' & X & Y)];
    exists a, e'; (split; [exact E'|cbn in X, Y; lia]).
Qed.

Lemma safe_if {A} (b : bool) (m1 m2 : App A) k n : safe k n m1 → safe k n m2 → safe k n (if b then m1 else m2).
Proof. by destruct b. Qed.

Lemma safe_eq {A} (m : App A) k k' n n' : safe k n m → k = k' → n = n' → safe k' n' m.
Proof. by intros S -> ->. Qed.

Lemma safe_then {A B} (m : App A) (f : A → App B) k n : safe 0 0 m → (∀ a, safe k n (f a)) → safe k n (m ≫= f).
Proof. intros S K. eapply safe_eq; [by eapply safe_bind|lia..]. Qed.

Lemma safe_free_then {B} (f : unit → App B) k n : safe (k + 1) n (f tt) → safe k n (Free ≫= f).
Proof. intros S. eapply safe_eq; [eapply safe_bind; [apply safe_Free|intros []; exact S]|lia..]. Qed.

Lemma safe_mbr bs T : 512 <= bs → safe 0 0 (WriteProtectiveMbr bs T).
Proof.
  intros B. destruct (stores_filled (mbr_fields T) bs B eq_refl) as [E _].
  apply safe_alloc; [apply safe_ret|]. eapply safe_lift; [exact E|].
  apply safe_then; [apply safe_write|]. intros st. apply safe_free_then, safe_ret.
Qed.

Lemma safe_entries_loop fuel bs Rem Lba E st : 512 <= bs → len E = Rem → Rem < 2 ^ 32 → (length E <= fuel)%nat →
  safe 0 0 (entries_loop fuel bs Rem Lba E st).
Proof.
  intros B. revert Rem Lba E st. induction fuel as [|fuel IH]; intros Rem Lba E st <- R F; cbn [entries_loop].
  { destruct (Z.ltb_spec 0 (len E)); [lia|]. apply safe_ret. }
  destruct (Z.ltb_spec 0 (len E)) as [P|P]; [|apply safe_ret].
  set (c := if bs <? len E then bs else len E).
  assert (0 < c <= len E ∧ c <= bs) as [C1 C2] by (unfold c; destruct (Z.ltb_spec bs (len E)); lia).
  assert (is_Some (rdn E 0 c ≫= wrn (replicate (Z.to_nat bs) 0) 0)) as [b Eb].
  { rewrite rdn_eq by lia. cbn [mbind option_bind]. rewrite wrn_eq; [done|lia|].
    rewrite length_take, length_replicate. lia. }
  eapply safe_lift; [exact Eb|]. apply safe_then; [apply safe_write|]. intros st'.
  apply safe_if; [apply safe_ret|]. apply IH; rewrite ?length_drop, ?u32_small by lia; lia.
Qed.

Lemma safe_write_entries bs Lba E st : 512 <= bs → len E < 2 ^ 32 → safe 0 0 (write_entries bs (len E) Lba E st).
Proof.
  intros B L. apply safe_alloc; [apply safe_ret|]. apply safe_then; [apply safe_entries_loop; lia|].
  intros st'. apply safe_free_then, safe_ret.
Qed.

Lemma safe_gpt bs T : 512 <= bs → safe 0 0 (WriteGpt crc32 bs T).
Proof.
  intros B. unfold WriteGpt. set (F := 2 +u32 _). set (L := T -u64 2 -u64 _).
  apply safe_if; [apply safe_ret|]. apply safe_alloc; [apply safe_ret|].
  destruct (stores_filled (gpt_entry0 F L) 16384 ltac:(lia) (eq_refl true)) as [EE LE].
  eapply safe_lift; [exact EE|]. remember (filled 16384 (gpt_entry0 F L)) as E eqn:HE. clear HE EE.
  apply safe_alloc; [apply safe_free_then, safe_ret|].
  set (l := gpt_primary F L (T -u64 1) (crc32 E)).
  destruct (stores_filled l bs B eq_refl) as [E1 _].
  pose proof (crc_header_sealed crc32 bs l B eq_refl eq_refl) as E2.
  set (l2 := (sealed crc32 bs l ++ gpt_backup (T -u64 1) (L +u64 1))%list).
  destruct (stores_filled (sealed crc32 bs l) bs B eq_refl) as [E3 _].
  destruct (stores_filled l2 bs B eq_refl) as [E4 _]. unfold l2 at 1 in E4.
  rewrite stores_app, E3 in E4. cbn [mbind option_bind] in E4.
  pose proof (crc_header_sealed crc32 bs l2 B eq_refl eq_refl) as E5.
  eapply safe_lift; [exact E1|]. eapply safe_lift; [exact E2|].
  apply safe_then; [apply safe_write|]. intros st. apply safe_then.
  - apply safe_if; [apply safe_ret|]. change (GPT_ENTRY_COUNT * GPT_ENTRY_SIZE) with 16384. rewrite <- LE.
    apply safe_then; [apply safe_write_entries; lia|]. intros st1. apply safe_if; [apply safe_ret|].
    apply safe_then; [apply safe_write_entries; lia|]. intros st2. apply safe_if; [apply safe_ret|].
    eapply safe_lift; [exact E4|]. eapply safe_lift; [exact E5|]. apply safe_write.
  - intros st'. apply safe_free_then, safe_free_then, safe_ret.
Qed.

Lemma safe_clear_fats n i S1 S2 b : safe 0 0 (clear_fats n i S1 S2 b).
Proof.
  revert i. induction n as [|n IH]; intros i; [apply safe_ret|]. cbn [clear_fats].
  apply safe_then; [apply safe_write|]. intros _. apply safe_then; [apply safe_write|]. intros _. apply IH.
Qed.

Lemma safe_clear_root n i Lba b : safe 0 0 (clear_root n i Lba b).
Proof.
  revert i. induction n as [|n IH]; intros i; [apply safe_ret|]. cbn [clear_root].
  apply safe_then; [apply safe_write|]. intros _. apply IH.
Qed.

Lemma safe_boot bs F P g : 512 <= bs → safe 0 0 (write_boot bs F P g).
Proof.
  intros B. apply safe_alloc; [apply safe_ret|].
  eapply safe_lift; [exact (proj1 (stores_filled _ bs B (boot_fields_fit bs F P g)))|].
  apply safe_then; [apply safe_write|]. intros st. apply safe_if; [apply safe_free_then, safe_ret|].
  apply safe_then; [apply safe_if; [apply safe_write|apply safe_ret]|]. intros st'. apply safe_free_then, safe_ret.
Qed.

Lemma safe_fsinfo bs F g : 512 <= bs → safe 0 0 (write_fsinfo bs F g).
Proof.
  intros B. apply safe_if; [|apply safe_ret]. apply safe_alloc; [apply safe_ret|].
  eapply safe_lift; [exact (proj1 (stores_filled (fsinfo_fields g) bs B eq_refl))|].
  apply safe_then; [apply safe_write|]. intros _. apply safe_then; [apply safe_write|]. intros _.
  apply safe_free_then, safe_ret.
Qed.

Lemma safe_tables bs F g : 512 <= bs → safe 0 0 (write_tables bs F g).
Proof.
  intros B. apply safe_alloc; [apply safe_ret|].
  eapply safe_lift; [exact (proj1 (stores_filled (fat_head g) bs B (fat_head_fit g)))|].
  apply safe_then; [apply safe_write|]. intros _. apply safe_then; [apply safe_write|]. intros _.
  apply safe_then; [apply safe_clear_fats|]. intros _. apply safe_then.
  - apply safe_if; apply safe_clear_root.
  - intros _. apply safe_free_then, safe_ret.
Qed.

Lemma safe_flush : safe 0 0 (λ e, let '(_, d) := FlushBlocks (dev e) in
  Some (tt, mkEnv (pool e) d (live_pages e) (events e))).
Proof. intros e. destruct (FlushBlocks (dev e)) as [st d]. eexists _, _. split; [done|cbn; lia]. Qed.

Lemma safe_FormatFat bs T : 512 <= bs → safe 0 0 (FormatFat bs T).
Proof.
  intros B. unfold FormatFat. apply safe_then; [by apply safe_boot|]. intros st. apply safe_if; [apply safe_ret|].
  apply safe_then; [by apply safe_fsinfo|]. intros st'. apply safe_if; [apply safe_ret|by apply safe_tables].
Qed.

Lemma safe_format an_open : safe 0 0 (FormatBlockDevice crc32 an_open).
Proof.
  intros e. unfold FormatBlockDevice. set (m := Media (dev e)). cbv zeta.
  match goal with |- ∃ a e', ?b e = _ ∧ _ => enough (safe 0 0 b) as S by exact (S e) end.
  apply safe_if; [apply safe_ret|]. apply safe_if; [apply safe_ret|].
  destruct (Z.ltb_spec (BlockSize m) 512) as [|B]; [apply safe_ret|].
  apply safe_then; [by apply safe_mbr|]. intros st1. apply safe_if; [apply safe_ret|].
  apply safe_then; [by apply safe_gpt|]. intros st2. apply safe_if; [apply safe_ret|].
  apply safe_then; [by apply safe_FormatFat|]. intros st3. apply safe_if; [apply safe_ret|].
  apply safe_then; [apply safe_flush|]. intros []. apply safe_then; [apply safe_event|]. intros [].
  apply safe_then; [apply safe_event|]. intros []. apply safe_ret.
Qed.

(** The pages that a run for a RAM disk keeps. *)
Definition kept_pages (an : ANSWERS D) (SizeMB : Z) : Z :=
  let RamSize := SizeMB *u64 1024 *u64 1024 in
  if (SizeMB <? 34) || EFI_ERROR (an_locate an) || EFI_ERROR (an_pages an) || EFI_ERROR (an_register an) then 0
  else RamSize / 4096 + (if Z.land RamSize 4095 =? 0 then 0 else 1).

Lemma safe_ramdisk an SizeMB : safe 0 (kept_pages an SizeMB) (CreateAndFormatRamDisk crc32 an SizeMB).
Proof.
  unfold kept_pages, CreateAndFormatRamDisk. cbv zeta. set (n := _ / 4096 + _).
  destruct (SizeMB <? 34); [apply safe_ret|]. cbn [orb].
  destruct (EFI_ERROR (an_locate an)); [apply safe_ret|]. cbn [orb].
  destruct (EFI_ERROR (an_pages an)); [apply safe_ret|]. cbn [orb].
  destruct (EFI_ERROR (an_register an)).
  - eapply safe_eq; [eapply (safe_bind _ _ 0 0 n); [by apply safe_pages|]|done|].
    + intros []. eapply (safe_bind _ _ 0 0 (- n) 0); [apply safe_pages; lia|]. intros []. apply safe_ret.
    + lia.
  - eapply safe_eq; [eapply (safe_bind _ _ 0 0 n 0); [by apply safe_pages|]|done|lia].
    intros []. apply safe_then; [apply safe_event|]. intros []. apply safe_if; [apply safe_ret|].
    apply safe_then; [|intros []; apply safe_then; [apply safe_format|intros st; by apply safe_if; apply safe_ret]].
    intros e. eexists _, _. split; [done|cbn; lia].
Qed.
End Any.

Section Entry.
Context {D : Type} `{BlockIo D, ShellStrings} (crc32 : list Z → Z).

Definition entry_pages (Argv : list (list Z)) (an : ANSWERS D) : Z :=
  match Argv with
  | [_; arg1; arg2] =>
      let '(Status, SizeMB) := StrDecimalToUintnS arg2 in
      if bool_decide (arg1 = ramdisk_word) && negb (EFI_ERROR Status || (SizeMB =? 0)) then kept_pages an SizeMB else 0
  | _ => 0
  end.

Lemma safe_entry an_shell Argv an :
  safe 0 (if EFI_ERROR an_shell then 0 else entry_pages Argv an) (FormatBlockAppEntry crc32 an_shell Argv an).
Proof.
  unfold FormatBlockAppEntry. destruct (EFI_ERROR an_shell); [apply safe_ret|].
  destruct Argv as [|a0 [|arg1 Argv]]; [apply safe_ret|apply safe_ret|].
  destruct (Z.ltb_spec (len (a0 :: arg1 :: Argv)) 2) as [X|_]; [cbn in X; lia|].
  eapply safe_lift; [reflexivity|]. destruct (decide (arg1 = ramdisk_word)) as [E|N].
  - destruct Argv as [|arg2 [|a3 Argv]]; cbn [entry_pages].
    + apply safe_ret.
    + change (negb (len [a0; arg1; arg2] =? 3)) with false. cbv iota. eapply safe_lift; [reflexivity|].
      destruct (StrDecimalToUintnS arg2) as [st n]. rewrite bool_decide_eq_true_2 by done. cbn [andb].
      destruct (EFI_ERROR st || (n =? 0)); [apply safe_ret|apply safe_ramdisk].
    + destruct (Z.eqb_spec (len (a0 :: arg1 :: arg2 :: a3 :: Argv)) 3) as [X|_]; [cbn in X; lia|]. apply safe_ret.
  - assert (entry_pages (a0 :: arg1 :: Argv) an = 0) as ->.
    { destruct Argv as [|arg2 [|a3 Argv]]; try done. cbn. destruct (StrDecimalToUintnS arg2).
      by rewrite bool_decide_eq_false_2. }
    destruct (StrHexToUintnS arg1) as [st n]. apply safe_if; [apply safe_ret|].
    apply safe_then; [apply safe_format|]. intros st'. apply safe_if; apply safe_ret.
Qed.
End Entry.

(** A device of 512-byte blocks whose volume is 2 to 65 sectors. *)
Lemma small_geometry P : 2 <= P <= 65 →
  let g := fat_geometry 512 P in
  UseFat32 g = true ∧ FatSz g = 1 ∧ SecPerClus g = 64 ∧ RsvdSecCnt g = 32.
Proof.
  intros HP. assert (forallb (λ k, let g := fat_geometry 512 (2 + Z.of_nat k) in
    UseFat32 g && (FatSz g =? 1) && (SecPerClus g =? 64) && (RsvdSecCnt g =? 32)) (seq 0 64) = true) as F
    by (vm_compute; reflexivity).
  rewrite forallb_forall in F. specialize (F (Z.to_nat (P - 2)) ltac:(apply in_seq; lia)).
  rewrite Z2Nat.id in F by lia. replace (2 + (P - 2)) with P in F by lia. cbv zeta in *.
  apply andb_true_iff in F as [F F4]. apply andb_true_iff in F as [F F3]. apply andb_true_iff in F as [F1 F2].
  b2p. done.
Qed.

Lemma read_gpt_zeros crc32 f bs lba : 512 <= bs → f lba = zeros bs → read_gpt crc32 f bs lba = None.
Proof.
  intros B E. unfold read_gpt. rewrite E.
  assert (le64 (zeros bs) Hdr_Signature = Some 0) as ->.
  { apply rdn_le64; [|lia]. unfold Hdr_Signature. rewrite rdn_eq by (rewrite ?len_zeros; lia).
    unfold zeros. by rewrite drop_replicate, take_replicate, Nat.min_l by lia. }
  cbn [mbind option_bind].
  repeat match goal with |- ?m ≫= _ = None => destruct m; cbn [mbind option_bind]; [|done] end. done.
Qed.

(** ** A device in memory *)

Record RAMDEV := mkRam { r_media : EFI_BLOCK_IO_MEDIA; r_blocks : gmap Z (list Z) }.

#[export] Instance ram_io : BlockIo RAMDEV := {|
  Media := r_media;
  WriteBlocks l b d :=
    if LastBlock (r_media d) <? l then (EFI_INVALID_PARAMETER, d)
    else (EFI_SUCCESS, mkRam (r_media d) (<[l := b]> (r_blocks d)));
  FlushBlocks d := (EFI_SUCCESS, d)
|}.

#[export] Instance ram_laws : BlockIoLaws RAMDEV.
Proof.
  refine {| block d l := default [] (r_blocks d !! l); steady _ := True |}; cbn.
  - intros l b d. by destruct (LastBlock (r_media d) <? l).
  - intros l b d. destruct (LastBlock (r_media d) <? l); [done|]. cbn. by rewrite lookup_insert_eq.
  - intros l l' b d N. destruct (LastBlock (r_media d) <? l); [done|]. cbn. by rewrite lookup_insert_ne.
  - intros l b d L. by destruct (Z.ltb_spec (LastBlock (r_media d)) l); [|lia].
  - done.
  - intros l b d _ [_ L] _. by destruct (Z.ltb_spec (LastBlock (r_media d)) l); [lia|].
  - done.
  - done.
Defined.

Definition ram (blocks : Z) : ENV RAMDEV :=
  mkEnv (mkPool [] 0) (mkRam (mkMedia false 512 (blocks - 1)) ∅) 0 [].

(** What is read from blocks that hold the image. *)
Lemma image_reads crc32 bs T old f :
  let F := first_usable bs in let P := part_sectors bs T in let g := fat_geometry bs P in
  (∀ l, 0 <= crc32 l < 2 ^ 32) → 512 <= bs < 2 ^ 16 → F < last_usable bs T → T < 2 ^ 64 → 1 <= P < 2 ^ 32 →
  volume_fits P g → (∀ l, f l = image crc32 bs T old l) →
  read_gpt crc32 f bs 1 = Some (mkTable (T - 1) F (last_usable bs T) (entries_image bs T)) ∧
  read_gpt crc32 f bs (T - 1) = Some (mkTable 1 F (last_usable bs T) (entries_image bs T)) ∧
  read_bpb (f F) = Some (volume_bpb bs P g) ∧ tables_on f bs F g.
Proof.
  intros F P g Hcrc B Rm Tt HP V I.
  destruct (image_read_gpt crc32 bs T Hcrc B Rm Tt old V) as [G1 G2].
  destruct (image_volume crc32 bs T old B Rm Tt V) as [V1 [T1 T2 T3 T4]].
  split_and!; [etrans; [exact (read_gpt_ext _ _ _ _ _ I)|exact G1]|etrans; [exact (read_gpt_ext _ _ _ _ _ I)|exact G2]|..].
  - rewrite I. etrans; [apply f_equal, V1|]. exact (read_boot bs F P g B HP V).
  - constructor; intros; rewrite !I; auto.
Qed.

(** A volume of its type has thousands of sectors. *)
Lemma type_ok_sectors P g : volume_fits P g → type_ok P g = true → 4085 <= P.
Proof.
  intros [C Ft Rt Rv Dt] Ty.
  assert (4085 <= clusters P g) as K.
  { unfold type_ok in Ty. destruct (UseFat32 g); [apply Z.leb_le in Ty|apply zbetween_spec in Ty]; lia. }
  unfold clusters in K.
  assert (0 <= data_sectors P g <= P) as D by (unfold data_sectors in *; destruct (UseFat32 g); lia).
  assert (data_sectors P g / SecPerClus g <= data_sectors P g) by (apply Z.div_le_upper_bound; nia). lia.
Qed.

(** ** Properties *)

(** C33: On a device whose writes do not fail, with memory, FormatBlockDevice
    succeeds and the device holds exactly what it held, overlaid with the
    protective MBR, both copies of the partition table and, as far as the device
    reaches, the volume; the pool is as before, and the drivers are reconnected. *)
Theorem format_image {D} `{BlockIoLaws D} crc32 (e : ENV D)
    (Hready : ready e) (Hrw : ReadOnly (Media (dev e)) = false)
    (Hsizes : sizes_ok (BlockSize (Media (dev e))) (LastBlock (Media (dev e)) + 1))
    (Hroom : first_usable (BlockSize (Media (dev e))) + 8 <= LastBlock (Media (dev e)) + 1) :
  ∃ e', FormatBlockDevice crc32 EFI_SUCCESS e = Some (EFI_SUCCESS, e') ∧
    (∀ l, block (dev e') l =
       default (block (dev e) l) (disk_overlay crc32 (BlockSize (Media (dev e))) (LastBlock (Media (dev e)) + 1) l)) ∧
    pool_live (pool e') = pool_live (pool e) ∧ live_pages e' = live_pages e ∧
    events e' = ConnectController :: DisconnectController :: events e.
Proof. by apply format_run. Qed.

(** C34: The formatted disk reads back: when the volume fits the partition with a
    count of clusters in the range of its type, a reader of either copy of the
    partition table finds valid checksums, one partition over all usable blocks
    and 127 unused entries; a reader of the boot sector finds the volume's
    parameters and, by its clusters, its type; both FATs hold their first entries
    and are clear otherwise, and so is the root directory. Both conditions are needed:
    [type_right_512] gives the sizes that end up with the wrong type, and
    [small_device_loses_backup] a device on which the volume destroys the backup
    table. *)
Theorem format_readable {D} `{BlockIoLaws D} crc32 (e : ENV D) bs T
    (Hcrc : ∀ l, 0 <= crc32 l < 2 ^ 32)
    (Hready : ready e) (Hmedia : Media (dev e) = mkMedia false bs (T - 1)) (Hsizes : sizes_ok bs T)
    (Hpart : part_sectors bs T < 2 ^ 32)
    (Hfits : volume_fits (part_sectors bs T) (fat_geometry bs (part_sectors bs T)))
    (Htype : type_ok (part_sectors bs T) (fat_geometry bs (part_sectors bs T)) = true) :
  let F := first_usable bs in let P := part_sectors bs T in let g := fat_geometry bs P in
  ∃ e' E, FormatBlockDevice crc32 EFI_SUCCESS e = Some (EFI_SUCCESS, e') ∧
    read_gpt crc32 (block (dev e')) bs 1 = Some (mkTable (T - 1) F (last_usable bs T) E) ∧
    read_gpt crc32 (block (dev e')) bs (T - 1) = Some (mkTable 1 F (last_usable bs T) E) ∧
    read_entry E 0 = Some (guid_bytes mEspTypeGuid, F, last_usable bs T) ∧
    (∀ i, 1 <= i < GPT_ENTRY_COUNT → read_entry E i = Some (zeros 16, 0, 0)) ∧
    read_bpb (block (dev e') F) = Some (volume_bpb bs P g) ∧
    fat_type (volume_bpb bs P g) = (if UseFat32 g then FAT32 else FAT16) ∧
    tables_on (block (dev e')) bs F g.
Proof.
  intros F P g. pose proof Hsizes as [B Rm Tt]. pose proof (gpt_lbas_range bs B) as N.
  assert (1 <= P < 2 ^ 32) as HP by (unfold P, part_sectors in *; lia).
  assert (first_usable bs + 8 <= T) as Tl.
  { pose proof (type_ok_sectors _ _ Hfits Htype) as K. unfold part_sectors, last_usable in K. lia. }
  destruct (format_run crc32 e) as (e' & E & I & _); rewrite ?Hmedia; cbn [BlockSize LastBlock ReadOnly];
    try (replace (T - 1 + 1) with T by lia); try done.
  rewrite Hmedia in I. cbn [BlockSize LastBlock] in I. replace (T - 1 + 1) with T in I by lia.
  destruct (image_reads crc32 bs T (block (dev e)) (block (dev e')) Hcrc B Rm Tt HP Hfits I) as (G1 & G2 & V & Tb).
  exists e', (entries_image bs T). split_and!; [exact E|exact G1|exact G2|..|exact V| |exact Tb].
  - by apply read_entry_0.
  - intros i Hi. by apply read_entry_free.
  - exact (volume_type bs P B Htype).
Qed.

(** C35: On 512-byte blocks the volume's type is the one a reader takes it for,
    for partitions from 34 to 2^32-1 sectors, exactly when the partition has
    4152 to 4194144 sectors (FAT16) or at least 4194656 (FAT32): below, and in a
    gap of 511 sizes with that of a 2 GiB disk in it, the volume is formatted as
    FAT32 with too few clusters for it. *)
Theorem type_right_512 P (HP : 34 <= P < 2 ^ 32) :
  fat_type (volume_bpb 512 P (fat_geometry 512 P)) =
    (if UseFat32 (fat_geometry 512 P) then FAT32 else FAT16) ↔
  4152 <= P <= 4194144 ∨ 4194656 <= P.
Proof.
  pose proof (type_ok_512 P HP) as E. destruct (type_ok P (fat_geometry 512 P)) eqn:Ty.
  - rewrite (volume_type 512 P ltac:(lia) Ty). split; [intros _|done].
    symmetry in E. apply orb_true_iff in E as [E|E]; [left; by apply zbetween_spec|right; by apply Z.leb_le].
  - symmetry in E. apply orb_false_iff in E as [E1 E2]. split.
    + unfold fat_type. rewrite volume_clusters by lia. unfold type_ok in Ty. destruct (UseFat32 _).
      * b2p. destruct (Z.ltb_spec (clusters P (fat_geometry 512 P)) 4085); [done|].
        by destruct (Z.ltb_spec (clusters P (fat_geometry 512 P)) 65525); [|lia].
      * unfold zbetween in Ty. destruct (Z.ltb_spec (clusters P (fat_geometry 512 P)) 4085); [done|].
        destruct (Z.ltb_spec (clusters P (fat_geometry 512 P)) 65525); [|done].
        destruct (Z.leb_spec 4085 (clusters P (fat_geometry 512 P))),
          (Z.leb_spec (clusters P (fat_geometry 512 P)) 65524); done || lia.
    + intros [R|R]; [apply zbetween_spec in R; by rewrite R in E1|]. apply Z.leb_le in R. by rewrite R in E2.
Qed.

(** Formatting a device of 69 to 132 blocks of 512 bytes succeeds and destroys
    its own backup: the root directory's cluster is cleared past the end of the
    partition, and the backup header in the last block is gone. *)
Theorem small_device_loses_backup {D} `{BlockIoLaws D} crc32 (e : ENV D) T
    (HT : 69 <= T <= 132) (Hready : ready e) (Hmedia : Media (dev e) = mkMedia false 512 (T - 1)) :
  ∃ e', FormatBlockDevice crc32 EFI_SUCCESS e = Some (EFI_SUCCESS, e') ∧
    block (dev e') (T - 1) = zeros 512 ∧ read_gpt crc32 (block (dev e')) 512 (T - 1) = None.
Proof.
  assert (gpt_lbas 512 = 32) as G by reflexivity.
  destruct (format_run crc32 e) as (e' & E & I & _); rewrite ?Hmedia; cbn [BlockSize LastBlock ReadOnly];
    try done; try (unfold first_usable; rewrite G; lia).
  { constructor; unfold first_usable, last_usable; rewrite ?G; lia. }
  rewrite Hmedia in I. cbn [BlockSize LastBlock] in I. replace (T - 1 + 1) with T in I by lia.
  assert (block (dev e') (T - 1) = zeros 512) as Z0.
  { rewrite I. set (P := part_sectors 512 T).
    assert (P = T - 67) as EP by (unfold P, part_sectors, last_usable, first_usable; rewrite G; lia).
    destruct (small_geometry P ltac:(lia)) as (U & F1 & S1 & R1). unfold disk_overlay. fold P.
    set (g := fat_geometry 512 P) in *. unfold after, cut. rewrite Z.leb_refl.
    replace (fat_overlay 512 (first_usable 512) P g (T - 1)) with (Some (zeros 512)); [done|].
    unfold fat_overlay, tables_overlay, after, root_start, fat_start, root_len, first_usable. rewrite U, F1, S1, R1, G.
    by rewrite span_hit by lia. }
  exists e'. split_and!; try done. apply read_gpt_zeros; [lia|done].
Qed.

(** C36: Whatever the device, the pool and the boot services answer, the
    application ends without a fault and gives back every pool block; the pages
    of a RAM disk are kept exactly when it was registered, also when what follows
    fails and the program returns an error. *)
Theorem format_safe {D} `{BlockIo D, ShellStrings} crc32 an_shell Argv (an : ANSWERS D) (e : ENV D) :
  ∃ st e', FormatBlockAppEntry crc32 an_shell Argv an e = Some (st, e') ∧
    pool_live (pool e') = pool_live (pool e) ∧
    live_pages e' = live_pages e + (if EFI_ERROR an_shell then 0 else entry_pages Argv an).
Proof.
  destruct (safe_entry crc32 an_shell Argv an e) as (st & e' & E & P & N). exists st, e'. split_and!; [done|lia|done].
Qed.

(** ** Witnesses *)

Lemma sizes_512 T : 69 <= T < 2 ^ 64 → sizes_ok 512 T.
Proof. intros HT. constructor; unfold first_usable, last_usable; change (gpt_lbas 512) with 32; lia. Qed.

Lemma ram_ready n : ready (ram n).
Proof. by constructor. Qed.

Lemma format_image_witness :
  ∃ e', FormatBlockDevice (λ _, 0) EFI_SUCCESS (ram 4096) = Some (EFI_SUCCESS, e') ∧
    (∀ l, block (dev e') l = default (block (dev (ram 4096)) l) (disk_overlay (λ _, 0) 512 4096 l)) ∧
    pool_live (pool e') = 0 ∧ live_pages e' = 0 ∧ events e' = [ConnectController; DisconnectController].
Proof.
  refine (format_image (λ _, 0) (ram 4096) (ram_ready _) eq_refl (sizes_512 4096 _) _); [lia|].
  vm_compute. discriminate.
Defined.

Lemma format_readable_witness :
  ∃ e' E, FormatBlockDevice (λ _, 0) EFI_SUCCESS (ram 10000) = Some (EFI_SUCCESS, e') ∧
    read_gpt (λ _, 0) (block (dev e')) 512 1 = Some (mkTable 9999 34 9966 E) ∧
    read_gpt (λ _, 0) (block (dev e')) 512 9999 = Some (mkTable 1 34 9966 E) ∧
    read_bpb (block (dev e') 34) = Some (volume_bpb 512 9933 (fat_geometry 512 9933)) ∧
    fat_type (volume_bpb 512 9933 (fat_geometry 512 9933)) = FAT16.
Proof.
  destruct (format_readable (λ _, 0) (ram 10000) 512 10000 ltac:(intros; lia) (ram_ready _) eq_refl
    (sizes_512 10000 ltac:(lia)) ltac:(vm_compute; reflexivity)
    ltac:(constructor; vm_compute; repeat split; discriminate) ltac:(vm_compute; reflexivity))
    as (e' & E & H1 & H2 & H3 & H4 & H5 & H6 & H7 & H8).
  exists e', E. exact (conj H1 (conj H2 (conj H3 (conj H6 H7)))).
Defined.

(** The partition of a 2 GiB disk. *)
Lemma type_right_512_witness : part_sectors 512 4194304 = 4194237 ∧
  (fat_type (volume_bpb 512 4194237 (fat_geometry 512 4194237)) =
    (if UseFat32 (fat_geometry 512 4194237) then FAT32 else FAT16) ↔
  4152 <= 4194237 <= 4194144 ∨ 4194656 <= 4194237).
Proof. split; [reflexivity|]. apply (type_right_512 4194237). lia. Defined.

Lemma small_device_loses_backup_witness :
  ∃ e', FormatBlockDevice (λ _, 0) EFI_SUCCESS (ram 80) = Some (EFI_SUCCESS, e') ∧
    block (dev e') 79 = zeros 512 ∧ read_gpt (λ _, 0) (block (dev e')) 512 79 = None.
Proof. refine (small_device_loses_backup (λ _, 0) (ram 80) 80 _ (ram_ready _) eq_refl). lia. Defined.
