(* ===== verification/FlashApp.v ===== *)
(** * The flash application

    Application/FlashApp/FlashApp.c: writes an ELF image to one of the two
    firmware slots of the boot flash, or any file at an offset, sector by sector
    over the SPI NOR driver ([SpiNor]), and reads it back.

    The shell is a parameter: [SHELL_FILE] holds what ShellLib answers for a file.
    What the program prints is left out. *)

From S2P Require Import Prelude Efi Spi SpiNor.

Definition FLASH_SLOT0_OFFSET : Z := 0x00800000.
Definition FLASH_SLOT1_OFFSET : Z := 0x00C00000.
Definition FLASH_SLOT_SIZE : Z := 0x00400000.
Definition FLASH_SECTOR_SIZE : Z := 0x1000.
Definition FLASH_SIZE : Z := 16 * 1024 * 1024.
Definition FLASH_MAX_IMAGE_SIZE : Z := FLASH_SLOT_SIZE - 0x10000.
Definition ELF_MAGIC : Z := 0x464C457F.
Definition ELF_CLASS64 : Z := 2.
Definition ELF_DATA_LSB : Z := 1.
Definition ELF_MACHINE_AARCH64 : Z := 183.

(** ELF64_EHDR_SHORT, packed. *)
Definition sizeof_ELF64_EHDR_SHORT : Z := 32.
Definition Ehdr_e_ident : Z := 0.
Definition Ehdr_e_machine : Z := 18.

(** ** Arguments *)

(** An argument is the list of its UTF-16 units, without the NUL. *)
Definition hex_digit (C : Z) : option Z :=
  if zbetween 48 C 57 then Some (C - 48)
  else if zbetween 97 C 102 then Some (C - 97 + 10)
  else if zbetween 65 C 70 then Some (C - 65 + 10)
  else None.

Fixpoint hex_loop (Str : list Z) (Val : Z) : Z :=
  match Str with
  | [] => Val
  | C :: Str' =>
      if C =? 0 then Val
      else
        let Val := u64 (Z.shiftl Val 4) in
        match hex_digit C with Some d => hex_loop Str' (Z.lor Val d) | None => Val end
  end.

Definition HexStrToUintn (Str : list Z) : Z :=
  match Str with
  | 48 :: C :: Str' => if (C =? 120) || (C =? 88) then hex_loop Str' 0 else hex_loop Str 0
  | _ => hex_loop Str 0
  end.

(** L"-raw", L"-slot", L"0" and L"1". *)
Definition raw_word : list Z := [45; 114; 97; 119].
Definition slot_word : list Z := [45; 115; 108; 111; 116].
Definition word_0 : list Z := [48].
Definition word_1 : list Z := [49].

(** ** The environment *)

Record SHELL_FILE := mkFile {
  sh_open : EFI_STATUS;               (* ShellOpenFileByName *)
  sh_info : option Z;                 (* ShellGetFileInfo: the FileSize *)
  sh_read : EFI_STATUS * list Z       (* ShellReadFile: what it stores *)
}.

Record ENV (H : Type) := mkEnv { flash : H; pool : Pool; open_files : Z }.
Arguments mkEnv {H} _ _ _.
Arguments flash {H} _.
Arguments pool {H} _.
Arguments open_files {H} _.

Section Code.
Context {H : Type} `{SpiHal H}.

Definition App (A : Type) : Type := ENV H → option (A * ENV H).

#[global] Instance App_ret : MRet App := λ A a e, Some (a, e).
#[global] Instance App_bind : MBind App := λ A B f m e,
  match m e with Some (a, e') => f a e' | None => None end.

Definition lift {A} (o : option A) : App A := λ e, match o with Some a => Some (a, e) | None => None end.
Definition Allocate : App bool := λ e,
  let '(ok, p) := AllocatePool (pool e) in Some (ok, mkEnv (flash e) p (open_files e)).
Definition Free : App unit := λ e, Some (tt, mkEnv (flash e) (FreePool (pool e)) (open_files e)).
Definition files (n : Z) : App unit := λ e, Some (tt, mkEnv (flash e) (pool e) (open_files e + n)).
(** A method of the flash protocol. *)
Definition nor {A} (m : H → option (A * H)) : App A := λ e,
  match m (flash e) with Some (a, h) => Some (a, mkEnv h (pool e) (open_files e)) | None => None end.

(** ** ReadFile *)

(** ShellGetFileInfo allocates the block that it returns. *)
Definition ShellGetFileInfo (f : SHELL_FILE) : App (option Z) := λ e,
  Some (sh_info f,
    match sh_info f with
    | Some _ => mkEnv (flash e) (mkPool (pool_script (pool e)) (pool_live (pool e) + 1)) (open_files e)
    | None => e
    end).

Definition ReadFile (f : SHELL_FILE) : App (EFI_STATUS * list Z) :=
  if EFI_ERROR (sh_open f) then mret (sh_open f, [])
  else
    _ ← files 1;
    Info ← ShellGetFileInfo f;
    match Info with
    | None => _ ← files (-1); mret (EFI_DEVICE_ERROR, [])
    | Some Size =>
        _ ← Free;
        ok ← Allocate;
        if negb ok then _ ← files (-1); mret (EFI_OUT_OF_RESOURCES, [])
        else
          let '(Status, Data) := sh_read f in
          _ ← files (-1);
          if EFI_ERROR Status || negb (len Data =? Size)
          then _ ← Free; mret (if EFI_ERROR Status then Status else EFI_DEVICE_ERROR, [])
          else mret (EFI_SUCCESS, Data)
    end.

(** ** FlashWriteVerify *)

(** The erase loop, from sector [Idx], [n] sectors left. *)
Fixpoint erase_loop (n : nat) (Idx FlashOffset : Z) : App EFI_STATUS :=
  match n with
  | O => mret EFI_SUCCESS
  | S n' =>
      Status ← nor (SpiNorErase (FlashOffset +u32 Idx *u32 FLASH_SECTOR_SIZE) 1);
      if EFI_ERROR Status then mret Status else erase_loop n' (Idx + 1) FlashOffset
  end.

(** The loop that programs and verifies. Comparing bytes that the read did not
    store is a fault. A turn takes a sector but for the last. *)
Fixpoint program_loop (fuel : nat) (FlashOffset : Z) (Data : list Z) (DataSize Offset : Z) : App EFI_STATUS :=
  if Offset <? DataSize then
    match fuel with
    | O => λ _, None
    | S fuel' =>
        let Chunk := DataSize -u32 Offset in
        let Chunk := if FLASH_SECTOR_SIZE <? Chunk then FLASH_SECTOR_SIZE else Chunk in
        bytes ← lift (rdn Data Offset Chunk);
        Status ← nor (SpiNorWriteData (FlashOffset +u32 Offset) Chunk bytes);
        if EFI_ERROR Status then mret Status
        else
          '(Status, VerifyBuf) ← nor (SpiNorReadData (FlashOffset +u32 Offset) Chunk);
          if EFI_ERROR Status then mret EFI_DEVICE_ERROR
          else
            Verify ← lift (rdn VerifyBuf 0 Chunk);
            if decide (bytes = Verify)
            then program_loop fuel' FlashOffset Data DataSize (Offset +u32 Chunk)
            else mret EFI_DEVICE_ERROR
    end
  else mret EFI_SUCCESS.

Definition FlashWriteVerify (FlashOffset : Z) (Data : list Z) (DataSize : Z) : App EFI_STATUS :=
  let EraseSize := Z.land (DataSize +u32 FLASH_SECTOR_SIZE -u32 1) (u32 (Z.lnot (FLASH_SECTOR_SIZE - 1))) in
  let SectorsToErase := EraseSize / FLASH_SECTOR_SIZE in
  Status ← erase_loop (Z.to_nat SectorsToErase) 0 FlashOffset;
  if EFI_ERROR Status then mret Status
  else
    ok ← Allocate;
    if negb ok then mret EFI_OUT_OF_RESOURCES
    else
      Status ← program_loop (S (Z.to_nat (DataSize / FLASH_SECTOR_SIZE))) FlashOffset Data DataSize 0;
      _ ← Free;
      mret Status.

(** ** The entry point *)

Definition raw_mode (FlashOffset : Z) (f : SHELL_FILE) : App EFI_STATUS :=
  '(Status, FileData) ← ReadFile f;
  if EFI_ERROR Status then mret Status
  else
    let FileSize := len FileData in
    if FLASH_SIZE <? FlashOffset +u32 u32 FileSize then _ ← Free; mret EFI_INVALID_PARAMETER
    else if negb (Z.land FlashOffset (FLASH_SECTOR_SIZE - 1) =? 0) then _ ← Free; mret EFI_INVALID_PARAMETER
    else
      Status ← FlashWriteVerify FlashOffset FileData (u32 FileSize);
      _ ← Free;
      mret Status.

(** The checks of the header and of the size. *)
Definition elf_check (FileData : list Z) : option EFI_STATUS :=
  let FileSize := len FileData in
  if FileSize <? sizeof_ELF64_EHDR_SHORT then Some EFI_INVALID_PARAMETER
  else
    magic ← le32 FileData Ehdr_e_ident;
    if negb (magic =? ELF_MAGIC) then Some EFI_INVALID_PARAMETER
    else
      class ← rd FileData (Ehdr_e_ident + 4);
      data ← rd FileData (Ehdr_e_ident + 5);
      if negb (class =? ELF_CLASS64) || negb (data =? ELF_DATA_LSB) then Some EFI_INVALID_PARAMETER
      else
        machine ← le16 FileData Ehdr_e_machine;
        if negb (machine =? ELF_MACHINE_AARCH64) then Some EFI_INVALID_PARAMETER
        else if FLASH_MAX_IMAGE_SIZE <=? FileSize then Some EFI_INVALID_PARAMETER
        else Some EFI_SUCCESS.

Definition elf_mode (FlashOffset : Z) (f : SHELL_FILE) : App EFI_STATUS :=
  '(Status, FileData) ← ReadFile f;
  if EFI_ERROR Status then mret Status
  else
    Status ← lift (elf_check FileData);
    if EFI_ERROR Status then _ ← Free; mret Status
    else
      Status ← FlashWriteVerify FlashOffset FileData (u32 (len FileData));
      _ ← Free;
      mret Status.

(** [an_params] and [an_flash] are what HandleProtocol and LocateProtocol answer,
    [fs] what the shell has under a name. *)
Definition FlashAppEntry (an_params : EFI_STATUS) (Argv : list (list Z)) (an_flash : EFI_STATUS)
    (fs : list Z → SHELL_FILE) : App EFI_STATUS :=
  let Argc := len Argv in
  if EFI_ERROR an_params || (Argc <? 2) then mret EFI_INVALID_PARAMETER
  else if EFI_ERROR an_flash then mret an_flash
  else
    arg1 ← lift (rd Argv 1);
    if decide (arg1 = raw_word) then
      if Argc <? 4 then mret EFI_INVALID_PARAMETER
      else
        arg2 ← lift (rd Argv 2);
        arg3 ← lift (rd Argv 3);
        raw_mode (u32 (HexStrToUintn arg2)) (fs arg3)
    else if (4 <=? Argc) && bool_decide (arg1 = slot_word) then
      arg2 ← lift (rd Argv 2);
      arg3 ← lift (rd Argv 3);
      if decide (arg2 = word_1) then elf_mode FLASH_SLOT1_OFFSET (fs arg3)
      else if decide (arg2 = word_0) then elf_mode FLASH_SLOT0_OFFSET (fs arg3)
      else mret EFI_INVALID_PARAMETER
    else elf_mode FLASH_SLOT0_OFFSET (fs arg1).
End Code.

(** ** A sector's requests to the driver *)

Lemma Cmd_mod op FA : 0 <= FA → Cmd op (FA mod NOR_SIZE) = Cmd op FA.
Proof.
  intros HF. unfold Cmd, NOR_SIZE, u8. rewrite !Z.shiftr_div_pow2 by lia.
  do 2 f_equal; [|f_equal; [|f_equal]]; Z.div_mod_to_equations; lia.
Qed.

Section Sectors.
Context {H : Type} `{NorLaws H}.
Implicit Types h : H.

Lemma write_pages_0 fuel FA B h : write_pages fuel FA 0 B h = Some (EFI_SUCCESS, h).
Proof. by destruct fuel. Qed.

(** Addresses are taken modulo the size of the chip. *)
Lemma write_pages_mod fuel FA L B h :
  0 <= FA → 0 <= L → FA mod NOR_SIZE + L <= NOR_SIZE → FA + L <= 2 ^ 32 →
  write_pages fuel FA L B h = write_pages fuel (FA mod NOR_SIZE) L B h.
Proof.
  unfold NOR_SIZE. revert FA L B h. induction fuel as [|fuel IH]; intros FA L B h HF HL HM HW; [done|].
  cbn [write_pages]. destruct (Z.ltb_spec 0 L) as [Hp|]; [|done].
  pose proof (Z.mod_pos_bound FA (2 ^ 24) ltac:(lia)). rewrite !page_offset by lia.
  replace ((FA mod 2 ^ 24) mod 256) with (FA mod 256) by (Z.div_mod_to_equations; lia).
  set (C := if L <? _ then L else _).
  assert (0 < C <= L ∧ C <= 256) as [HC HC2].
  { pose proof (Z.mod_pos_bound FA 256 ltac:(lia)). unfold C.
    change (FLASH_PAGE_SIZE -u32 FA mod 256) with (u32 (256 - FA mod 256)).
    rewrite (u32_small (256 - FA mod 256)) by lia. case_b; b2p; lia. }
  clearbody C. destruct (FlashWriteEnable h) as [[st h1]|]; [|done]. cbn [mbind option_bind].
  destruct (EFI_ERROR st); [done|]. destruct (rdn B 0 C) as [data|]; [|done]. cbn [mbind option_bind].
  pose proof (Cmd_mod CMD_PAGE_PROGRAM FA HF) as EC. unfold NOR_SIZE in EC. rewrite EC.
  destruct (HalWrite _ data h1) as [st2 h2]. destruct (EFI_ERROR st2); [done|].
  destruct (FlashWaitReady h2) as [[st3 h3]|]; [|done]. cbn [mbind option_bind].
  destruct (EFI_ERROR st3); [done|].
  rewrite (u32_small (L - C)), (u32_small (FA mod 2 ^ 24 + C)) by lia.
  destruct (Z.eq_dec C L) as [->|]; [by rewrite Z.sub_diag, !write_pages_0|].
  rewrite u32_small by lia. rewrite (IH (FA + C)) by (Z.div_mod_to_equations; lia).
  f_equal. Z.div_mod_to_equations. lia.
Qed.

(** Sector-aligned, in 32 bits. *)
Definition sector_at (FA : Z) : Prop := 0 <= FA < 2 ^ 32 ∧ FA mod 4096 = 0.

Lemma sector_at_base FA : sector_at FA →
  0 <= FA mod NOR_SIZE ∧ FA mod NOR_SIZE + 4096 <= NOR_SIZE ∧ (FA mod NOR_SIZE) mod 4096 = 0 ∧ FA + 4096 <= 2 ^ 32.
Proof. unfold sector_at, NOR_SIZE. intros []. Z.div_mod_to_equations. lia. Qed.

(** The driver returns no warnings. *)
Definition settled (st : EFI_STATUS) : Prop := st = EFI_SUCCESS ∨ EFI_ERROR st = true.

Lemma hal_status_settled Err : settled (hal_status Err).
Proof. unfold hal_status. by case_b; [left|right]. Qed.

Lemma erase_one_settled FA Idx h st h' : erase_sectors 1 FA Idx h = Some (st, h') → settled st.
Proof.
  cbn [erase_sectors]. destruct (WriteEnable_spec h) as (st1 & h1 & -> & _ & _ & _ & S1 & _).
  cbn [mbind option_bind]. destruct (EFI_ERROR st1) eqn:E1; [intros [= <- _]; by right|].
  unfold HalCmdOnly. destruct (al_spi_write _ _ h1) as [Err h2].
  pose proof (hal_status_settled Err) as S2. destruct (EFI_ERROR (hal_status Err)) eqn:E2; [intros [= <- _]; by right|].
  destruct (WaitReady_spec h2) as (st3 & h3 & -> & _ & _ & S3 & _). cbn [mbind option_bind].
  destruct (EFI_ERROR st3) eqn:E3; intros [= <- _]; [by right|by left].
Qed.

Lemma write_pages_settled fuel FA L B h st h' : write_pages fuel FA L B h = Some (st, h') → settled st.
Proof.
  revert FA L B h. induction fuel as [|fuel IH]; intros FA L B h; cbn [write_pages];
    (destruct (0 <? L); [|intros [= <- _]; by left]); [done|].
  destruct (WriteEnable_spec h) as (st1 & h1 & -> & _ & _ & _ & S1 & _).
  cbn [mbind option_bind]. destruct (EFI_ERROR st1) eqn:E1; [intros [= <- _]; by right|].
  destruct (rdn B 0 _) as [data|]; [|done]. cbn [mbind option_bind].
  unfold HalWrite. destruct (al_spi_write _ _ h1) as [Err h2].
  destruct (EFI_ERROR (hal_status Err)) eqn:E2; [intros [= <- _]; by right|].
  destruct (WaitReady_spec h2) as (st3 & h3 & -> & _ & _ & S3 & _). cbn [mbind option_bind].
  destruct (EFI_ERROR st3) eqn:E3; [intros [= <- _]; by right|apply IH].
Qed.

Lemma Erase_one FA h : sector_at FA → nor_ready h = true →
  ∃ st h', SpiNorErase FA 1 h = Some (st, h') ∧ settled st ∧
    (st = EFI_SUCCESS → nor_ready h' = true ∧ ∀ x, 0 <= x < NOR_SIZE →
       nor_mem h' x = if x / 4096 =? FA mod NOR_SIZE / 4096 then 0xFF else nor_mem h x) ∧
    (FA +u32 4096 <= FLASH_SIZE → flawless (H := H) → st = EFI_SUCCESS).
Proof.
  intros [HF HA] R. unfold SpiNorErase.
  change (SpiNor.FLASH_SECTOR_SIZE - 1) with (Z.ones 12). rewrite Z.land_ones by lia. change (2 ^ 12) with 4096.
  rewrite HA. cbn [Z.eqb negb]. change (1 *u32 SpiNor.FLASH_SECTOR_SIZE) with 4096.
  change SpiNor.FLASH_SIZE with FLASH_SIZE. destruct (Z.ltb_spec FLASH_SIZE (FA +u32 4096)).
  { eexists _, _. split_and!; [done|by right|done|lia]. }
  change (Z.to_nat 1) with 1%nat.
  destruct (erase_sectors_spec 1 FA 0 h R) as (st & h' & E & M & Fl); [lia..|].
  exists st, h'. rewrite E. split_and!; [done|by eapply erase_one_settled| |auto].
  intros S. destruct (M S) as [R' M']. split; [done|]. intros x Hx. destruct (M' x Hx) as [Hin Hout].
  change (Z.of_nat 1) with 1 in *. rewrite hit_iff in Hin, Hout.
  destruct (Z.eqb_spec (x / 4096) (FA mod NOR_SIZE / 4096)) as [Eq|N].
  - apply Hin. exists 0. split; [lia|]. by rewrite Z.mul_0_l, Z.add_0_r.
  - apply Hout. intros (j & Hj & Ej). replace j with 0 in Ej by lia. rewrite Z.mul_0_l, Z.add_0_r in Ej. lia.
Qed.

Lemma Write_one FA B h : sector_at FA → nor_ready h = true → 0 < len B <= 4096 →
  ∃ st h', SpiNorWriteData FA (len B) B h = Some (st, h') ∧ settled st ∧
    (st = EFI_SUCCESS → nor_ready h' = true ∧ ∀ x, 0 <= x < NOR_SIZE →
       nor_mem h' x = programmed (nor_mem h) (FA mod NOR_SIZE) B x) ∧
    (FA +u32 len B <= FLASH_SIZE → flawless (H := H) → st = EFI_SUCCESS).
Proof.
  intros S R L. destruct (sector_at_base FA S) as (B1 & B2 & B3 & B4). destruct S as [HF HA].
  unfold SpiNorWriteData. change SpiNor.FLASH_SIZE with FLASH_SIZE.
  destruct (Z.ltb_spec FLASH_SIZE (FA +u32 len B)); [eexists _, _; split_and!; [done|by right|done|lia]|].
  rewrite write_pages_mod by lia.
  destruct (write_pages_spec (S (length B)) (FA mod NOR_SIZE) (len B) B h R B1) as (st & h' & E & M & Fl);
    [lia|change SpiNor.FLASH_SIZE with NOR_SIZE; lia|done|lia|].
  exists st, h'. split_and!; [done|by eapply write_pages_settled|done|auto].
Qed.

Lemma Read_one FA n h : sector_at FA → nor_ready h = true → 0 < n <= 4096 →
  ∃ st bytes h', SpiNorReadData FA n h = Some (st, bytes, h') ∧ settled st ∧ same_mem h h' ∧ nor_ready h' = true ∧
    (st = EFI_SUCCESS → bytes = nor_bytes (nor_mem h) (FA mod NOR_SIZE) (Z.to_nat n)) ∧
    (FA +u32 n <= FLASH_SIZE → flawless (H := H) → st = EFI_SUCCESS).
Proof.
  intros S R L. destruct (sector_at_base FA S) as (B1 & B2 & B3 & B4). destruct S as [HF HA].
  unfold SpiNorReadData. change SpiNor.FLASH_SIZE with FLASH_SIZE.
  destruct (Z.ltb_spec FLASH_SIZE (FA +u32 n)); [eexists _, _, _; split_and!; [done|by right|done..|lia]|].
  cbn [read_chunks]. rewrite (proj2 (Z.ltb_lt 0 n)) by lia.
  rewrite (u32_small (n - 0)), Z.sub_0_r, (u32_small (FA + 0)), Z.add_0_r by lia.
  change SpiNor.FLASH_SECTOR_SIZE with 4096. rewrite (proj2 (Z.ltb_ge 4096 n)) by lia.
  unfold HalRead. destruct (al_spi_read _ n h) as [[Err buf] h1] eqn:E.
  pose proof E as E2. apply read_data_spec in E2 as (M & R' & D); [|lia].
  unfold hal_status. destruct (Z.eqb_spec Err 0) as [->|N]; cbn [EFI_ERROR].
  - rewrite u32_small by lia. rewrite Z.add_0_l.
    replace (read_chunks _ FA n n h1) with (Some (EFI_SUCCESS, @nil Z, h1))
      by (destruct (Z.to_nat (n / 4096)); cbn [read_chunks]; by rewrite Z.ltb_irrefl).
    cbn [mbind option_bind]. rewrite app_nil_r.
    exists EFI_SUCCESS, buf, h1. split_and!; [done|by left|done|auto|auto|done].
  - exists EFI_DEVICE_ERROR, buf, h1. split_and!; [done|by right|done|auto|done|].
    intros _ (polls & Rel). pose proof (rel_read H polls Rel (Cmd CMD_READ_DATA FA) n h) as Hz.
    by rewrite E in Hz.
Qed.

(** ** The transfer *)

(** Where in a transfer to [off] the byte at [x] of the chip comes from. *)
Definition pos (off x : Z) : Z := (x - off) mod NOR_SIZE.

(** The chip once [esz] bytes from [off] on are erased and [n] bytes of [Data]
    are programmed there. *)
Definition image (old : Z → Z) (off : Z) (Data : list Z) (n esz x : Z) : Z :=
  if pos off x <? n then default 0 (rd Data (pos off x))
  else if pos off x <? esz then 0xFF else old x.

Lemma pos_sector off k x : sector_at off → 0 <= k < 4096 → 0 <= x < NOR_SIZE →
  x / 4096 = (off +u32 k *u32 4096) mod NOR_SIZE / 4096 ↔ pos off x / 4096 = k.
Proof.
  unfold sector_at, pos, NOR_SIZE, u32. intros [HF HA] Hk Hx.
  rewrite Z.add_mod_idemp_r by lia. split; intros; Z.div_mod_to_equations; lia.
Qed.

Lemma pos_base off o x : sector_at off → 0 <= o → o mod 4096 = 0 → o + 4096 <= NOR_SIZE → 0 <= x < NOR_SIZE →
  let b := (off +u32 o) mod NOR_SIZE in
  if zbetween o (pos off x) (o + 4095) then x - b = pos off x - o else ~ (0 <= x - b < 4096).
Proof.
  unfold sector_at, pos, NOR_SIZE, u32. intros [HF HA] Ho Hm Hle Hx. cbv zeta.
  destruct (zbetween _ _ _) eqn:Z.
  - apply zbetween_spec in Z. Z.div_mod_to_equations. lia.
  - unfold zbetween in Z. apply andb_false_iff in Z. rewrite !Z.leb_gt in Z. Z.div_mod_to_equations. lia.
Qed.

(** *** The loops *)

Implicit Types e : ENV H.

(** Only the flash changes. *)
Definition only_flash e e' : Prop := pool e' = pool e ∧ open_files e' = open_files e.

Lemma nor_run {A} (m : H → option (A * H)) a h' e :
  m (flash e) = Some (a, h') → nor m e = Some (a, mkEnv h' (pool e) (open_files e)).
Proof. unfold nor. by intros ->. Qed.

Lemma run_step {A B} (m : App A) (f : A → App B) a e e' : m e = Some (a, e') → (m ≫= f) e = f a e'.
Proof. intros E. unfold mbind, App_bind. by rewrite E. Qed.

(** The driver takes the addresses of a transfer of [n] bytes. *)
Definition reaches (off n : Z) : Prop :=
  ∀ o, 0 <= o < n → o mod 4096 = 0 → off +u32 o +u32 4096 <= FLASH_SIZE ∧
    off +u32 o +u32 Z.min 4096 (n - o) <= FLASH_SIZE.

Lemma sector_at_add off o : sector_at off → 0 <= o → o mod 4096 = 0 → sector_at (off +u32 o).
Proof. unfold sector_at, u32. intros [] Ho Hm. Z.div_mod_to_equations. lia. Qed.

Lemma zbetween_cons lo y hi : lo <= hi → zbetween lo y hi = (y =? lo) || zbetween (lo + 1) y hi.
Proof.
  intros. apply Bool.eq_iff_eq_true. rewrite orb_true_iff, !zbetween_spec, Z.eqb_eq. lia.
Qed.

Lemma erase_loop_spec n k off e :
  sector_at off → 0 <= k → k + Z.of_nat n <= 2 ^ 20 → nor_ready (flash e) = true →
  ∃ st e', erase_loop n k off e = Some (st, e') ∧ settled st ∧ only_flash e e' ∧
    (st = EFI_SUCCESS → nor_ready (flash e') = true ∧
       (k + Z.of_nat n <= 4096 → ∀ x, 0 <= x < NOR_SIZE →
          nor_mem (flash e') x = if zbetween k (pos off x / 4096) (k + Z.of_nat n - 1) then 0xFF
                                 else nor_mem (flash e) x)) ∧
    ((∀ j, k <= j < k + Z.of_nat n → off +u32 j *u32 4096 +u32 4096 <= FLASH_SIZE) →
     flawless (H := H) → st = EFI_SUCCESS).
Proof.
  intros S. revert k e. induction n as [|n IH]; intros k e Hk Hn R; cbn [erase_loop].
  { exists EFI_SUCCESS, e. split_and!; try done; [by left|]. intros _. split; [done|]. intros _ x Hx.
    destruct (zbetween k (pos off x / 4096) (k + Z.of_nat 0 - 1)) eqn:Z; [apply zbetween_spec in Z; lia|done]. }
  change FLASH_SECTOR_SIZE with 4096. set (FA := off +u32 k *u32 4096).
  assert (sector_at FA) as SF.
  { apply sector_at_add; [done|apply u32_range|]. unfold u32. Z.div_mod_to_equations. lia. }
  destruct (Erase_one FA (flash e) SF R) as (st & h1 & E1 & S1 & M1 & F1).
  rewrite (run_step _ _ _ _ _ (nor_run _ _ _ _ E1)). destruct S1 as [->|ER]; cbn [EFI_ERROR].
  2:{ rewrite ER. eexists _, _. split_and!; [done|by right|done|by intros ->|].
      intros Re Fl. apply F1; [|done]. apply Re. lia. }
  destruct (M1 eq_refl) as [R1 M1']. set (e1 := mkEnv h1 (pool e) (open_files e)).
  destruct (IH (k + 1) e1) as (st2 & e2 & E2 & S2 & O2 & M2 & F2); [lia|lia|done|].
  exists st2, e2. split_and!; [done|done|done| |].
  - intros Ok. destruct (M2 Ok) as [R2 M2']. split; [done|]. intros L x Hx.
    rewrite M2' by lia. cbn [flash e1]. rewrite M1' by done.
    replace (k + Z.of_nat (Datatypes.S n) - 1) with (k + 1 + Z.of_nat n - 1) by lia.
    rewrite (zbetween_cons k) by lia. pose proof (pos_sector off k x S ltac:(lia) Hx) as P. fold FA in P.
    replace (x / 4096 =? FA mod NOR_SIZE / 4096) with (pos off x / 4096 =? k)
      by (apply Bool.eq_iff_eq_true; rewrite !Z.eqb_eq; tauto).
    by destruct (pos off x / 4096 =? k), (zbetween _ _ _).
  - intros Re Fl. apply F2; [|done]. intros j Hj. apply Re. lia.
Qed.

(** A chunk programmed over erased bytes. *)
Lemma image_step old off Data o L esz mem x :
  sector_at off → 0 <= o → o mod 4096 = 0 → 0 < L <= 4096 → o + L <= esz → o + L <= len Data →
  o + 4096 <= NOR_SIZE → Forall byte_ok Data → 0 <= x < NOR_SIZE → mem x = image old off Data o esz x →
  programmed mem ((off +u32 o) mod NOR_SIZE) (take (Z.to_nat L) (drop (Z.to_nat o) Data)) x =
    image old off Data (o + L) esz x.
Proof.
  intros S Ho Hm HL He HD HN B Hx M. pose proof (pos_base off o x S Ho Hm HN Hx) as P. cbv zeta in P.
  unfold programmed. set (c := take _ _). assert (len c = L) as Lc by (unfold c; rewrite length_take, length_drop; lia).
  assert (∀ i, 0 <= i < L → rd c i = rd Data (o + i)) as RC.
  { intros i Hi. unfold c. by rewrite rd_take, rd_drop by lia. }
  unfold image in *. set (y := pos off x) in *. destruct (zbetween o y (o + 4095)) eqn:Z.
  - apply zbetween_spec in Z. rewrite P. destruct (Z.ltb_spec y (o + L)).
    + rewrite RC by lia. replace (o + (y - o)) with y by lia.
      destruct (rd Data y) as [v|] eqn:E; [|assert (is_Some (rd Data y)) as [? ?] by (apply rd_is_Some; lia); congruence].
      rewrite M. rewrite (proj2 (Z.ltb_ge y o)), (proj2 (Z.ltb_lt y esz)) by lia. cbn [default].
      apply land_255. apply rd_in in E. rewrite list.Forall_forall in B. by apply B.
    + rewrite (rd_None c) by lia. rewrite M. by rewrite (proj2 (Z.ltb_ge y o)) by lia.
  - rewrite (rd_None c) by lia. rewrite M.
    assert (0 <= y) by apply Z.mod_pos_bound, eq_refl.
    unfold zbetween in Z. apply andb_false_iff in Z. rewrite !Z.leb_gt in Z.
    destruct (Z.ltb_spec y o), (Z.ltb_spec y (o + L)); try lia; done.
Qed.

(** What the chip holds of a chunk. *)
Lemma image_chunk old off Data o L esz mem :
  sector_at off → 0 <= o → o mod 4096 = 0 → 0 < L <= 4096 → o + L <= len Data → o + 4096 <= NOR_SIZE →
  (∀ x, 0 <= x < NOR_SIZE → mem x = image old off Data (o + L) esz x) →
  nor_bytes mem ((off +u32 o) mod NOR_SIZE) (Z.to_nat L) = take (Z.to_nat L) (drop (Z.to_nat o) Data).
Proof.
  intros S Ho Hm HL HD HN M. pose proof (sector_at_base _ (sector_at_add off o S Ho Hm)) as (B1 & B2 & _).
  set (b := (off +u32 o) mod NOR_SIZE) in *. apply list_eq. intros i. unfold nor_bytes. rewrite list_lookup_fmap.
  destruct (decide (i < Z.to_nat L)%nat) as [Hi|Hi].
  2:{ rewrite lookup_seqZ_ge by lia. rewrite lookup_ge_None_2; [done|]. rewrite length_take. lia. }
  rewrite lookup_seqZ_lt by lia. cbn [fmap option_fmap option_map].
  rewrite (Z.mod_small (b + _)) by lia. rewrite lookup_take_lt, lookup_drop by done.
  rewrite M by lia. pose proof (pos_base off o (b + Z.of_nat i) S Ho Hm HN ltac:(lia)) as P. cbv zeta in P. fold b in P.
  destruct (zbetween _ _ _) eqn:Z; [|lia]. unfold image.
  replace (pos off (b + Z.of_nat i)) with (o + Z.of_nat i) by lia.
  rewrite (proj2 (Z.ltb_lt _ _)) by lia. rewrite rd_lookup by lia.
  replace (Z.to_nat (o + Z.of_nat i)) with (Z.to_nat o + i)%nat by lia.
  destruct (lookup_lt_is_Some_2 Data (Z.to_nat o + i)) as [v ->]; [lia|done].
Qed.

(** The chip of [e] during the transfer, [o] bytes programmed. *)
Definition holds (old : Z → Z) off Data esz o e : Prop :=
  ∀ x, 0 <= x < NOR_SIZE → nor_mem (flash e) x = image old off Data o esz x.

Lemma program_loop_spec old off Data n esz fuel o e :
  sector_at off → 0 <= o <= n → n <= len Data → n < 2 ^ 32 → o mod 4096 = 0 ∨ o = n →
  n - o <= Z.of_nat fuel * 4096 → nor_ready (flash e) = true →
  ∃ st e', program_loop fuel off Data n o e = Some (st, e') ∧ settled st ∧ only_flash e e' ∧
    (st = EFI_SUCCESS → nor_ready (flash e') = true ∧
       (n <= NOR_SIZE → n <= esz → Forall byte_ok Data → holds old off Data esz o e →
        holds old off Data esz n e')) ∧
    (reaches off n → n <= NOR_SIZE → n <= esz → Forall byte_ok Data → holds old off Data esz o e →
     flawless (H := H) → st = EFI_SUCCESS).
Proof.
  intros S. revert o e. induction fuel as [|fuel IH]; intros o e Ho HD Hn Hm Hf R; cbn [program_loop];
    (destruct (Z.ltb_spec o n); [|replace o with n by lia; exists EFI_SUCCESS, e; split_and!; try done; by left]); [lia|].
  destruct Hm as [Hm|]; [|lia]. rewrite (u32_small (n - o)) by lia. change FLASH_SECTOR_SIZE with 4096.
  set (L := if 4096 <? n - o then 4096 else n - o).
  assert (L = Z.min 4096 (n - o)) as EL by (unfold L; case_b; b2p; lia). clearbody L.
  rewrite rdn_eq by lia. cbn [lift]. set (c := take _ _).
  assert (len c = L) as Lc by (unfold c; rewrite length_take, length_drop; lia).
  erewrite run_step by reflexivity. set (FA := off +u32 o).
  assert (reaches off n → FA +u32 L <= FLASH_SIZE) as RL by (intros Re; rewrite EL; by apply (Re o ltac:(lia))). pose proof (sector_at_add off o S ltac:(lia) Hm) as SF.
  fold FA in SF. destruct (Write_one FA c (flash e) SF R ltac:(lia)) as (st1 & h1 & E1 & S1 & M1 & F1).
  rewrite Lc in E1, F1. rewrite (run_step _ _ _ _ _ (nor_run _ _ _ _ E1)).
  destruct S1 as [->|ER]; cbn [EFI_ERROR].
  2:{ rewrite ER. eexists _, _. split_and!; [done|by right|done|by intros ->|]. intros Re _ _ _ _ Fl.
      auto. }
  destruct (M1 eq_refl) as [R1 M1']. set (e1 := mkEnv h1 (pool e) (open_files e)).
  destruct (Read_one FA L h1 SF R1 ltac:(lia)) as (st2 & v & h2 & E2 & S2 & M2 & R2 & D2 & F2).
  rewrite (run_step _ _ _ _ _ (nor_run _ (st2, v) h2 e1 E2)).
  destruct S2 as [->|ER]; cbn [EFI_ERROR].
  2:{ rewrite ER. eexists _, _. split_and!; [done|by right|done|done|]. intros Re _ _ _ _ Fl.
      assert (st2 = EFI_SUCCESS) as -> by auto. done. }
  rewrite (D2 eq_refl). set (w := nor_bytes _ _ _).
  assert (len w = L) as Lw by (unfold w, nor_bytes; rewrite length_map, length_seqZ; lia).
  rewrite rdn_eq by lia. change (Z.to_nat 0) with O. rewrite drop_0, take_ge by lia. cbn [lift].
  erewrite run_step by reflexivity. set (e2 := mkEnv h2 (pool e) (open_files e)).
  assert (n <= NOR_SIZE → n <= esz → Forall byte_ok Data → holds old off Data esz o e → holds old off Data esz (o + L) e2) as M3.
  { intros HN He B Ho' x Hx. cbn [flash e2]. rewrite M2, M1' by done.
    apply image_step; try done; try lia; [unfold NOR_SIZE in *; Z.div_mod_to_equations; lia|by apply Ho']. }
  rewrite (u32_small (o + L)) by lia. destruct (decide (c = w)) as [Ec|Nc].
  - destruct (IH (o + L) e2) as (st & e' & E & Sx & O & M & F); try done; try lia.
    { destruct (Z.eq_dec (o + L) n); [by right|left]. Z.div_mod_to_equations. lia. }
    exists st, e'. split_and!; [done|done|done| |].
    + intros Ok. destruct (M Ok) as [Rx Mx]. split; [done|]. intros HN He B Ho'. apply Mx; auto.
    + intros. apply F; auto.
  - exists EFI_DEVICE_ERROR, e2. split_and!; [done|by right|done|done|].
    intros Re HN He B Ho' Fl. exfalso. apply Nc. unfold c, w. symmetry. rewrite <- (nor_bytes_same h1 h2) by done.
    eapply (image_chunk old off Data o L esz); try done; try lia.
    + unfold NOR_SIZE in *. Z.div_mod_to_equations. lia.
    + apply (M3 HN He B Ho').
Qed.

(** The bytes erased for [n]. *)
Definition erase_size (n : Z) : Z := u32 (n + 4095) / 4096 * 4096.

Lemma EraseSize_eq n : 0 <= n < 2 ^ 32 →
  Z.land (n +u32 FLASH_SECTOR_SIZE -u32 1) (u32 (Z.lnot (FLASH_SECTOR_SIZE - 1))) = erase_size n.
Proof.
  intros Hn. unfold erase_size. replace (n +u32 FLASH_SECTOR_SIZE -u32 1) with (u32 (n + 4095))
    by (unfold FLASH_SECTOR_SIZE, u32; Z.div_mod_to_equations; lia).
  set (y := u32 (n + 4095)). assert (0 <= y < 2 ^ 32) as Y by apply u32_range.
  change (u32 (Z.lnot (FLASH_SECTOR_SIZE - 1))) with (Z.land (Z.ones 32) (Z.lnot (Z.ones 12))).
  rewrite Z.land_assoc, Z.land_ones, (Z.mod_small y) by lia. rewrite <- Z.ldiff_land, Z.ldiff_ones_r by lia.
  rewrite Z.shiftl_mul_pow2, Z.shiftr_div_pow2 by lia. done.
Qed.

Lemma erase_size_fits n : 0 <= n <= NOR_SIZE →
  n <= erase_size n <= NOR_SIZE ∧ erase_size n mod 4096 = 0 ∧ erase_size n < n + 4096.
Proof. unfold erase_size, NOR_SIZE. intros Hn. rewrite u32_small by lia. Z.div_mod_to_equations. lia. Qed.

Lemma FlashWriteVerify_run off Data n e :
  sector_at off → 0 <= n < 2 ^ 32 → n <= len Data → nor_ready (flash e) = true →
  ∃ st e', FlashWriteVerify off Data n e = Some (st, e') ∧ settled st ∧
    pool_live (pool e') = pool_live (pool e) ∧ open_files e' = open_files e ∧
    (st = EFI_SUCCESS → nor_ready (flash e') = true ∧
       (n <= NOR_SIZE → Forall byte_ok Data → holds (nor_mem (flash e)) off Data (erase_size n) n e')) ∧
    (reaches off n → n <= NOR_SIZE → Forall byte_ok Data → flawless (H := H) → pool_plenty (pool e) →
     st = EFI_SUCCESS).
Proof.
  intros S Hn HD R. unfold FlashWriteVerify. rewrite EraseSize_eq by done. cbv zeta.
  change FLASH_SECTOR_SIZE with 4096. set (k := erase_size n / 4096).
  assert (0 <= k <= 2 ^ 20 ∧ k * 4096 = erase_size n) as [Hk Ek].
  { unfold k, erase_size. rewrite Z.div_mul by done. pose proof (u32_range (n + 4095)). Z.div_mod_to_equations. lia. }
  destruct (erase_loop_spec (Z.to_nat k) 0 off e) as (st & e1 & E & Sx & [O1 O2] & M & F); try done; try lia.
  rewrite (run_step _ _ _ _ _ E). rewrite Z2Nat.id in M, F by lia. cbn [Z.add] in M, F.
  assert (∀ j, reaches off n → n <= NOR_SIZE → 0 <= j < 0 + k → off +u32 j *u32 4096 +u32 4096 <= FLASH_SIZE) as RE.
  { intros j Re HN Hj. pose proof (erase_size_fits n ltac:(lia)). unfold NOR_SIZE in *. rewrite (u32_small (j * 4096)) by lia.
    apply (Re (j * 4096)); [lia|]. by rewrite Z.mod_mul by done. }
  destruct Sx as [->|ER]; cbn [EFI_ERROR].
  2:{ rewrite ER. eexists _, _. split_and!; [done|by right|congruence|done|by intros ->|]. auto. }
  destruct (M eq_refl) as [R1 M1]. unfold Allocate. destruct (AllocatePool (pool e1)) as [ok p] eqn:A.
  pose proof (AllocatePool_live _ _ _ A) as PL. erewrite run_step by (rewrite A; reflexivity).
  destruct ok; cbn [negb].
  2:{ eexists _, _. split_and!; [done|by right|cbn; rewrite O1 in PL; lia|done|done|].
      intros _ _ _ _ Pl. rewrite <- O1 in Pl. rewrite (AllocatePool_plenty _ Pl) in A. congruence. }
  set (e2 := mkEnv (flash e1) p (open_files e1)).
  destruct (program_loop_spec (nor_mem (flash e)) off Data n (erase_size n)
              (Datatypes.S (Z.to_nat (n / 4096))) 0 e2) as (st & e3 & E3 & S3 & [O3 O4] & M3 & F3);
    try done; try lia; [by left|Z.div_mod_to_equations; lia|].
  rewrite (run_step _ _ _ _ _ E3). erewrite run_step by reflexivity.
  assert (n <= NOR_SIZE → holds (nor_mem (flash e)) off Data (erase_size n) 0 e2) as HZ.
  { intros HN x Hx. pose proof (erase_size_fits n ltac:(lia)). cbn [flash e2]. unfold NOR_SIZE in *. rewrite M1 by lia.
    unfold image. assert (0 <= pos off x) by apply Z.mod_pos_bound, eq_refl.
    rewrite (proj2 (Z.ltb_ge _ 0)) by lia.
    replace (zbetween 0 (pos off x / 4096) (0 + k - 1)) with (pos off x <? erase_size n); [done|].
    apply Bool.eq_iff_eq_true. rewrite Z.ltb_lt, zbetween_spec. Z.div_mod_to_equations. lia. }
  exists st. eexists. split_and!; [done|done|cbn; rewrite O3; cbn; rewrite O1 in PL; lia|cbn in *; congruence| |].
  - intros Ok. destruct (M3 Ok) as [R3 M3']. split; [done|]. intros HN B x Hx. cbn [flash].
    apply M3'; auto. by destruct (erase_size_fits n ltac:(lia)) as [[] _].
  - intros Re HN B Fl Pl. apply F3; auto. by destruct (erase_size_fits n ltac:(lia)) as [[] _].
Qed.
End Sectors.

(** ** What is asked for and what is accepted *)

(** What a file gives: its bytes, or why not. *)
Definition contents (f : SHELL_FILE) : EFI_STATUS + list Z :=
  if EFI_ERROR (sh_open f) then inl (sh_open f)
  else match sh_info f with
       | None => inl EFI_DEVICE_ERROR
       | Some Size =>
           if EFI_ERROR (fst (sh_read f)) then inl (fst (sh_read f))
           else if len (snd (sh_read f)) =? Size then inr (snd (sh_read f)) else inl EFI_DEVICE_ERROR
       end.

(** A 64-bit little-endian ELF header for AArch64, and a file smaller than a slot. *)
Definition elf_bytes : list (Z * Z) :=
  [(0, 0x7F); (1, 0x45); (2, 0x4C); (3, 0x46); (4, 2); (5, 1); (18, 183); (19, 0)].
Definition elf_accepts (_ : Z) (Data : list Z) : bool :=
  (32 <=? len Data) && forallb (λ '(i, v), bool_decide (rd Data i = Some v)) elf_bytes &&
  (len Data <? 0x3F0000).

(** Aligned, and its end in 32 bits is inside the flash. *)
Definition raw_accepts (FlashOffset : Z) (Data : list Z) : bool :=
  (FlashOffset +u32 u32 (len Data) <=? 2 ^ 24) && (FlashOffset mod 4096 =? 0).

Definition request (accepts : Z → list Z → bool) (FlashOffset : Z) (f : SHELL_FILE) : EFI_STATUS + Z * list Z :=
  match contents f with
  | inl Status => inl Status
  | inr Data => if accepts FlashOffset Data then inr (FlashOffset, Data) else inl EFI_INVALID_PARAMETER
  end.

(** What a command line asks for: nothing, with a status, or a file at an offset. *)
Definition decision (an_params : EFI_STATUS) (Argv : list (list Z)) (an_flash : EFI_STATUS)
    (fs : list Z → SHELL_FILE) : EFI_STATUS + Z * list Z :=
  if EFI_ERROR an_params then inl EFI_INVALID_PARAMETER
  else match Argv with
  | _ :: arg1 :: rest =>
      if EFI_ERROR an_flash then inl an_flash
      else if decide (arg1 = raw_word) then
        match rest with
        | arg2 :: arg3 :: _ => request raw_accepts (u32 (HexStrToUintn arg2)) (fs arg3)
        | _ => inl EFI_INVALID_PARAMETER
        end
      else match rest with
        | arg2 :: arg3 :: _ =>
            if decide (arg1 = slot_word) then
              if decide (arg2 = word_1) then request elf_accepts 0xC00000 (fs arg3)
              else if decide (arg2 = word_0) then request elf_accepts 0x800000 (fs arg3)
              else inl EFI_INVALID_PARAMETER
            else request elf_accepts 0x800000 (fs arg1)
        | _ => request elf_accepts 0x800000 (fs arg1)
        end
  | _ => inl EFI_INVALID_PARAMETER
  end.

Lemma elf_check_exact Data : Forall byte_ok Data →
  elf_check Data = Some (if elf_accepts 0 Data then EFI_SUCCESS else EFI_INVALID_PARAMETER).
Proof.
  intros B. unfold elf_check, elf_accepts. change sizeof_ELF64_EHDR_SHORT with 32.
  change FLASH_MAX_IMAGE_SIZE with 0x3F0000.
  destruct (Z.ltb_spec (len Data) 32) as [L|L]; [by rewrite (proj2 (Z.leb_gt _ _)) by lia|].
  rewrite (proj2 (Z.leb_le 32 _)) by lia. cbn [andb elf_bytes forallb].
  unfold le32, le16, Ehdr_e_ident, Ehdr_e_machine.
  change (0 + 1) with 1; change (0 + 2) with 2; change (0 + 3) with 3; change (0 + 4) with 4;
    change (0 + 5) with 5; change (18 + 1) with 19.
  repeat match goal with
  | |- context [rd Data ?i] =>
      let b := fresh "b" in let E := fresh "E" in
      destruct (rd_in_range Data i ltac:(lia)) as [b E]; pose proof (rd_byte_ok _ _ _ B E); rewrite !E
  end.
  cbn [mbind option_bind]. rewrite !lor32, !lor16 by done.
  repeat match goal with |- context [bool_decide (Some ?x = Some ?y)] =>
    replace (bool_decide (Some x = Some y)) with (x =? y)
      by (apply Bool.eq_iff_eq_true; rewrite bool_decide_eq_true, Z.eqb_eq; split; congruence)
  end.
  unfold ELF_MAGIC, ELF_CLASS64, ELF_DATA_LSB, ELF_MACHINE_AARCH64, byte_ok in *.
  rewrite (Z.leb_antisym (len Data)).
  repeat match goal with |- context [?x =? ?y] => destruct (Z.eqb_spec x y); cbn [negb orb andb] end;
    try done; try lia; by destruct (len Data <? 4128768).
Qed.

(** ** Runs of the application *)

Section Entry.
Context {H : Type} `{NorLaws H}.
Implicit Types e : ENV H.

Lemma contents_error f st : contents f = inl st → EFI_ERROR st = true.
Proof.
  unfold contents. repeat case_match; intros [= <-]; done.
Qed.

Lemma ReadFile_run f e :
  ∃ r e', ReadFile f e = Some (r, e') ∧ flash e' = flash e ∧ open_files e' = open_files e ∧
    (r = (EFI_OUT_OF_RESOURCES, []) ∨ r = match contents f with inl st => (st, []) | inr D => (EFI_SUCCESS, D) end) ∧
    pool_live (pool e') = pool_live (pool e) + (if EFI_ERROR (fst r) then 0 else 1) ∧
    (pool_plenty (pool e) → pool_plenty (pool e') ∧
       r = match contents f with inl st => (st, []) | inr D => (EFI_SUCCESS, D) end).
Proof.
  unfold ReadFile, contents. destruct (EFI_ERROR (sh_open f)) eqn:E1.
  { eexists _, _. split_and!; [done|done|done|by right|cbn; rewrite E1; lia|done]. }
  unfold files, ShellGetFileInfo, Free, Allocate, mret, App_ret, mbind, App_bind. cbn.
  destruct (sh_info f) as [Size|]; cbn.
  2:{ eexists _, _. split_and!; [done|done|cbn; lia|by right|cbn; lia|done]. }
  destruct e as [h [sc n] k]; cbn. unfold AllocatePool. cbn.
  destruct sc as [|[] sc]; cbn.
  1,2: destruct (sh_read f) as [st D]; cbn; destruct (EFI_ERROR st) eqn:E2; cbn;
    [|destruct (len D =? Size); cbn]; eexists _, _;
    (split_and!; [done|done|cbn; lia|by right|cbn; rewrite ?E2; lia|done]).
  eexists _, _. split_and!; [done|done|cbn; lia|by left|cbn; lia|done].
Qed.

(** A run that reads a file, checks it, writes it and frees it. *)
Definition outcome_of (d : EFI_STATUS + Z * list Z) (e : ENV H) (st : EFI_STATUS) (e' : ENV H) : Prop :=
  pool_live (pool e') = pool_live (pool e) ∧ open_files e' = open_files e ∧
  match d with
  | inl r => flash e' = flash e ∧ (st = r ∨ st = EFI_OUT_OF_RESOURCES) ∧ (pool_plenty (pool e) → st = r)
  | inr (off, Data) =>
      let n := u32 (len Data) in
      (st = EFI_SUCCESS → nor_ready (flash e') = true ∧
         (n <= NOR_SIZE → Forall byte_ok Data → holds (nor_mem (flash e)) off Data (erase_size n) n e')) ∧
      (reaches off n → n <= NOR_SIZE → Forall byte_ok Data → flawless (H := H) → pool_plenty (pool e) →
       st = EFI_SUCCESS)
  end.

Definition mode_run (check : list Z → App (H := H) EFI_STATUS) (off : Z) (f : SHELL_FILE) : App (H := H) EFI_STATUS :=
  '(Status, FileData) ← ReadFile f;
  if EFI_ERROR Status then mret Status
  else
    Status ← check FileData;
    if EFI_ERROR Status then _ ← Free; mret Status
    else
      Status ← FlashWriteVerify off FileData (u32 (len FileData));
      _ ← Free;
      mret Status.

Lemma mode_run_outcome (accepts : Z → list Z → bool) check off f e :
  nor_ready (flash e) = true →
  (∀ D e1, contents f = inr D → check D e1 = Some (if accepts off D then EFI_SUCCESS else EFI_INVALID_PARAMETER, e1)) →
  (∀ D, accepts off D = true → sector_at off) →
  ∃ st e', mode_run check off f e = Some (st, e') ∧ outcome_of (request accepts off f) e st e'.
Proof.
  intros R C A. unfold mode_run, outcome_of, request.
  destruct (ReadFile_run f e) as (r & e1 & E & F1 & O1 & D1 & P1 & Pl1). rewrite (run_step _ _ _ _ _ E).
  destruct (contents f) as [st|D] eqn:EC.
  { pose proof (contents_error _ _ EC) as ES.
    assert (∃ st', r = (st', []) ∧ EFI_ERROR st' = true ∧ (st' = st ∨ st' = EFI_OUT_OF_RESOURCES) ∧
              (pool_plenty (pool e) → st' = st)) as (st' & -> & ES' & HS & HP).
    { destruct D1 as [->| ->]; eexists; (split_and!; [done|done|tauto|]); [|done].
      intros Pl. destruct (Pl1 Pl) as [_ X]. congruence. }
    rewrite ES'. cbn in P1. rewrite ES' in P1. eexists _, _. split_and!; [done|lia|done..]. }
  destruct D1 as [->| ->]; cbn [fst EFI_ERROR] in *.
  { eexists _, _. split; [done|]. split_and!; [lia|done|].
    assert (pool_plenty (pool e) → False) as NP by (intros Pl; by destruct (Pl1 Pl)).
    destruct (accepts off D); [split; [done|by intros _ _ _ _ ?%NP]|].
    split_and!; [done|by right|by intros ?%NP]. }
  erewrite run_step by (by apply C). destruct (accepts off D) eqn:EA; cbn [EFI_ERROR].
  2:{ eexists _, _. split; [reflexivity|]. cbn. split_and!; [lia|done|done|by left|done]. }
  destruct (FlashWriteVerify_run off D (u32 (len D)) e1) as (st & e2 & E2 & S2 & P2 & O2 & M2 & F2);
    [by eapply A|apply u32_range| |by rewrite F1|].
  { unfold u32. Z.div_mod_to_equations. lia. }
  rewrite (run_step _ _ _ _ _ E2). eexists _, _. split; [reflexivity|]. cbn. rewrite F1 in M2.
  split_and!; [lia|congruence|exact M2|]. intros. apply F2; try done. by apply Pl1.
Qed.

Lemma elf_mode_eq off f e : elf_mode off f e = mode_run (λ D, lift (elf_check D)) off f e.
Proof. done. Qed.

Lemma raw_mode_eq off f e : 0 <= off →
  raw_mode off f e =
    mode_run (λ D, mret (if raw_accepts off D then EFI_SUCCESS else EFI_INVALID_PARAMETER)) off f e.
Proof.
  intros Ho. unfold raw_mode, mode_run, raw_accepts, mbind, App_bind.
  destruct (ReadFile f e) as [[[st D] e1]|]; [|done]. destruct (EFI_ERROR st); [done|]. cbn [mret App_ret].
  change (FLASH_SECTOR_SIZE - 1) with (Z.ones 12). rewrite Z.land_ones by lia. change (2 ^ 12) with 4096.
  rewrite Z.leb_antisym. change FLASH_SIZE with (2 ^ 24).
  destruct (2 ^ 24 <? _); cbn [negb andb]; [done|]. by destruct (off mod 4096 =? 0).
Qed.

Lemma entry_outcome an_params Argv an_flash fs e :
  nor_ready (flash e) = true → (∀ name, Forall byte_ok (snd (sh_read (fs name)))) →
  ∃ st e', FlashAppEntry an_params Argv an_flash fs e = Some (st, e') ∧
    outcome_of (decision an_params Argv an_flash fs) e st e'.
Proof.
  intros R B.
  assert (∀ st, ∃ st' e', mret (M := App (H := H)) st e = Some (st', e') ∧ outcome_of (inl st) e st' e') as RET.
  { intros st. exists st, e. split; [done|]. split_and!; try done. by left. }
  assert (∀ off f, off = 0xC00000 ∨ off = 0x800000 → (∃ name, f = fs name) →
            ∃ st e', elf_mode off f e = Some (st, e') ∧ outcome_of (request elf_accepts off f) e st e') as ELF.
  { intros off f Ho [name ->]. rewrite elf_mode_eq. apply mode_run_outcome; [done|..].
    - intros D e1 C. rewrite elf_check_exact; [done|]. unfold contents in C. repeat case_match; try done.
      injection C as <-. apply B.
    - intros D _. unfold sector_at. by destruct Ho as [->| ->]. }
  assert (∀ off f, 0 <= off < 2 ^ 32 →
            ∃ st e', raw_mode off f e = Some (st, e') ∧ outcome_of (request raw_accepts off f) e st e') as RAW.
  { intros off f Ho. rewrite raw_mode_eq by lia. apply mode_run_outcome; [done|done|].
    intros D A. unfold raw_accepts in A. b2p. by split. }
  unfold FlashAppEntry, decision. destruct (EFI_ERROR an_params); [apply RET|]. cbn [orb].
  destruct Argv as [|a0 [|arg1 rest]]; [apply RET|apply RET|].
  rewrite (proj2 (Z.ltb_ge (len _) 2)) by (cbn [length]; lia). destruct (EFI_ERROR an_flash); [apply RET|].
  change (rd (a0 :: arg1 :: rest) 1) with (Some arg1). cbn [lift]. erewrite run_step by reflexivity.
  destruct rest as [|arg2 [|arg3 rest]].
  - change (len [a0; arg1]) with 2. cbn [Z.ltb Z.leb Z.compare Pos.compare Pos.compare_cont andb].
    destruct (decide (arg1 = raw_word)); [apply RET|apply ELF; eauto].
  - change (len [a0; arg1; arg2]) with 3. cbn [Z.ltb Z.leb Z.compare Pos.compare Pos.compare_cont andb].
    destruct (decide (arg1 = raw_word)); [apply RET|apply ELF; eauto].
  - rewrite (proj2 (Z.ltb_ge (len _) 4)), (proj2 (Z.leb_le 4 (len _))) by (cbn [length]; lia). cbn [andb].
    change (rd (a0 :: arg1 :: arg2 :: arg3 :: rest) 2) with (Some arg2).
    change (rd (a0 :: arg1 :: arg2 :: arg3 :: rest) 3) with (Some arg3). cbn [lift].
    destruct (decide (arg1 = raw_word)).
    { do 2 erewrite run_step by reflexivity. apply RAW, u32_range. }
    destruct (decide (arg1 = slot_word)) as [->|N].
    + rewrite bool_decide_eq_true_2 by done. do 2 erewrite run_step by reflexivity.
      destruct (decide (arg2 = word_1)); [apply ELF; eauto|].
      destruct (decide (arg2 = word_0)); [apply ELF; eauto|apply RET].
    + rewrite bool_decide_eq_false_2 by done. apply ELF; eauto.
Qed.

(** What is accepted is a file of bytes for an aligned offset. *)
Lemma decision_inr an_params Argv an_flash fs : (∀ name, Forall byte_ok (snd (sh_read (fs name)))) →
  ∀ off Data, decision an_params Argv an_flash fs = inr (off, Data) → sector_at off ∧ Forall byte_ok Data.
Proof.
  intros B off Data.
  assert (∀ acc o name, request acc o (fs name) = inr (off, Data) →
            o = off ∧ acc off Data = true ∧ Forall byte_ok Data) as RQ.
  { intros acc o name. unfold request, contents. repeat case_match; try done; intros [= <- <-]; try done.
    match goal with X : inr _ = inr _ |- _ => injection X as <- end. split_and!; [done|done|apply B]. }
  assert (∀ o name, o = 0xC00000 ∨ o = 0x800000 → request elf_accepts o (fs name) = inr (off, Data) →
            sector_at off ∧ Forall byte_ok Data) as ELF.
  { intros o name Ho X. destruct (RQ _ _ _ X) as (<- & _ & BD). split; [|done]. unfold sector_at.
    by destruct Ho as [->| ->]. }
  unfold decision. destruct (EFI_ERROR an_params); [done|].
  destruct Argv as [|a0 [|arg1 rest]]; [done..|]. destruct (EFI_ERROR an_flash); [done|].
  destruct rest as [|arg2 [|arg3 rest]].
  1,2: destruct (decide (arg1 = raw_word)); [done|]; apply ELF; auto.
  destruct (decide (arg1 = raw_word)).
  { intros X. destruct (RQ _ _ _ X) as (<- & A & BD). split; [|done]. unfold raw_accepts in A. b2p.
    split; [apply u32_range|done]. }
  destruct (decide (arg1 = slot_word)); [|apply ELF; auto].
  destruct (decide (arg2 = word_1)); [apply ELF; auto|].
  destruct (decide (arg2 = word_0)); [apply ELF; auto|done].
Qed.

(** A transfer inside the flash. *)
Definition updated (old : Z → Z) (off : Z) (Data : list Z) (x : Z) : Z :=
  match rd Data (x - off) with
  | Some v => v
  | None => if zbetween off x (off + (len Data + 4095) / 4096 * 4096 - 1) then 0xFF else old x
  end.

Lemma image_updated old off Data x :
  sector_at off → off + len Data <= NOR_SIZE → 0 <= x < NOR_SIZE →
  image old off Data (len Data) (erase_size (len Data)) x = updated old off Data x.
Proof.
  intros [Ho Ha] L Hx. unfold image, updated. unfold erase_size. unfold NOR_SIZE in *. rewrite u32_small by lia.
  set (E := (len Data + 4095) / 4096 * 4096).
  assert (0 <= E ∧ off + E <= 2 ^ 24) as HE by (unfold E; Z.div_mod_to_equations; lia).
  assert (pos off x = if off <=? x then x - off else x - off + 2 ^ 24) as ->.
  { unfold pos, NOR_SIZE. destruct (Z.leb_spec off x); [by rewrite Z.mod_small by lia|].
    rewrite <- (Z_mod_plus_full _ 1), Z.mod_small by lia. lia. }
  destruct (Z.leb_spec off x) as [Le|Lt].
  - destruct (Z.ltb_spec (x - off) (len Data)) as [In|Out].
    + destruct (rd_in_range Data (x - off)) as [v ->]; [lia|done].
    + rewrite (rd_None Data) by lia. unfold zbetween. rewrite (proj2 (Z.leb_le off x)) by lia.
      destruct (Z.ltb_spec (x - off) E), (Z.leb_spec x (off + E - 1)); try lia; done.
  - rewrite (rd_None Data (x - off)) by lia. rewrite (proj2 (Z.ltb_ge _ (len Data))), (proj2 (Z.ltb_ge _ E)) by lia.
    unfold zbetween. by rewrite (proj2 (Z.leb_gt off x)) by lia.
Qed.

Lemma reaches_inside off n : sector_at off → 0 <= n → off + n <= NOR_SIZE → reaches off n.
Proof.
  unfold sector_at, NOR_SIZE. intros [Ho Ha] Hn L o Hr Hm. unfold FLASH_SIZE.
  rewrite (u32_small (off + o)) by lia. rewrite !u32_small by lia.
  split; [|lia]. Z.div_mod_to_equations. lia.
Qed.

(** The last sector's address in 32 bits: what follows wraps to the first. *)
Lemma reaches_wrap n : 4096 <= n <= NOR_SIZE → reaches 0xFFFFF000 n.
Proof.
  unfold NOR_SIZE. intros Hn o Hr Hm. unfold FLASH_SIZE, u32. Z.div_mod_to_equations. lia.
Qed.
End Entry.

(** ** Hexadecimal numbers *)

Definition hex_number (ds : list Z) (v : Z) : Z := foldl (λ v d, v * 16 + d) v ds.

Lemma hex_digit_range c d : hex_digit c = Some d → 0 <= d < 16 ∧ c <> 0.
Proof.
  unfold hex_digit. repeat case_b; intros [= <-]; apply zbetween_spec in E || idtac;
    try (apply zbetween_spec in E0); try (apply zbetween_spec in E1); lia.
Qed.

Lemma hex_loop_digits Str ds tail v :
  Forall2 (λ c d, hex_digit c = Some d) Str ds →
  hex_loop (Str ++ tail) (u64 v) = hex_loop tail (u64 (hex_number ds v)).
Proof.
  intros F. revert v. induction F as [|c d Str ds E F IH]; intros v; [done|].
  destruct (hex_digit_range c d E) as [Hd Hc]. cbn [app hex_loop]. rewrite (proj2 (Z.eqb_neq c 0)) by done.
  cbv zeta. rewrite E.
  assert (Z.lor (u64 (Z.shiftl (u64 v) 4)) d = u64 (v * 16 + d)) as ->; [|apply IH].
  rewrite Z.shiftl_mul_pow2 by lia. unfold u64. rewrite Z.mul_mod_idemp_l by lia.
  replace ((v * 2 ^ 4) mod 2 ^ 64) with (Z.shiftl ((v mod 2 ^ 60)) 4)
    by (rewrite Z.shiftl_mul_pow2 by lia; Z.div_mod_to_equations; lia).
  rewrite Z.lor_comm, lor_shiftl_add by lia. Z.div_mod_to_equations. lia.
Qed.

(** A number with its prefix is read modulo 2^64; a character that is no digit
    ends it, but shifts it by one digit first. *)
Theorem HexStrToUintn_exact x Str ds tail :
  x = 120 ∨ x = 88 → Forall2 (λ c d, hex_digit c = Some d) Str ds →
  (tail = [] → HexStrToUintn (48 :: x :: Str ++ tail) = u64 (hex_number ds 0)) ∧
  (∀ c t, tail = c :: t → c <> 0 → hex_digit c = None →
     HexStrToUintn (48 :: x :: Str ++ tail) = u64 (hex_number ds 0 * 16)).
Proof.
  intros Hx F. unfold HexStrToUintn.
  replace ((x =? 120) || (x =? 88)) with true by (by destruct Hx as [->| ->]).
  pose proof (hex_loop_digits Str ds tail 0 F) as L. change (u64 0) with 0 in L. rewrite L.
  split; [by intros ->|].
  intros c t -> Hc E. cbn [hex_loop]. rewrite (proj2 (Z.eqb_neq c 0)) by done. cbv zeta. rewrite E.
  rewrite Z.shiftl_mul_pow2 by lia. unfold u64. by rewrite Z.mul_mod_idemp_l by lia.
Qed.

(** ** Properties *)


(** The check of the end is in 32 bits, and so is the driver's: at offset
    0xFFFFF000 a file of 4 KiB to 16 MiB passes both, its first sector replaces the
    last of the flash, the rest the flash from its first byte on, where the loader
    is, and the program reports success. *)
Theorem FlashApp_raw_wraps {H} `{NorLaws H} (e : ENV H) app name fs Data :
  nor_ready (flash e) = true → flawless (H := H) → pool_plenty (pool e) →
  (∀ name, Forall byte_ok (snd (sh_read (fs name)))) → contents (fs name) = inr Data →
  4096 <= len Data <= NOR_SIZE →
  ∃ e', FlashAppEntry EFI_SUCCESS [app; raw_word; [102; 102; 102; 102; 102; 48; 48; 48]; name] EFI_SUCCESS fs e =
      Some (EFI_SUCCESS, e') ∧
    (∀ i, 0 <= i < 4096 → nor_mem (flash e') (0xFFF000 + i) = default 0 (rd Data i)) ∧
    (∀ i, 4096 <= i < len Data → nor_mem (flash e') (i - 4096) = default 0 (rd Data i)).
Proof.
  intros R Fl Pl B C L.
  set (Argv := [app; raw_word; [102; 102; 102; 102; 102; 48; 48; 48]; name]).
  assert (decision EFI_SUCCESS Argv EFI_SUCCESS fs = inr (0xFFFFF000, Data)) as D.
  { unfold decision, Argv. cbn [EFI_ERROR]. rewrite decide_True by done.
    change (u32 (HexStrToUintn _)) with 0xFFFFF000. unfold request. rewrite C. unfold raw_accepts.
    unfold NOR_SIZE in *. rewrite (u32_small (len Data)) by lia. change (0xFFFFF000 mod 4096 =? 0) with true.
    replace (u32 (0xFFFFF000 + len Data)) with (len Data - 4096) by (unfold u32; Z.div_mod_to_equations; lia).
    by rewrite (proj2 (Z.leb_le _ _)) by lia. }
  destruct (entry_outcome EFI_SUCCESS Argv EFI_SUCCESS fs e R B) as (st & e' & E & _ & _ & O).
  destruct (decision_inr _ _ _ _ B _ _ D) as [S BD]. rewrite D in O. cbv zeta in O.
  rewrite (u32_small (len Data)) in O by (unfold NOR_SIZE in *; lia). destruct O as [O1 O2].
  assert (st = EFI_SUCCESS) as -> by (apply O2; try done; [by apply reaches_wrap|lia]).
  destruct (O1 eq_refl) as [_ I]. specialize (I ltac:(lia) BD).
  assert (∀ x i, 0 <= x < NOR_SIZE → 0 <= i < len Data → pos 0xFFFFF000 x = i →
            nor_mem (flash e') x = default 0 (rd Data i)) as X.
  { intros x i Hx Hi Ep. rewrite I by done. unfold image. rewrite Ep. by rewrite (proj2 (Z.ltb_lt _ _)) by lia. }
  exists e'. split_and!; [exact E|..]; intros i Hi; apply X; unfold pos, NOR_SIZE in *;
    try lia; Z.div_mod_to_equations; lia.
Qed.

(** ** Witnesses, on the simulated chip *)

Definition demo_file (Data : list Z) : SHELL_FILE := mkFile EFI_SUCCESS (Some (len Data)) (EFI_SUCCESS, Data).
Definition demo_env : ENV (Nor unit) := mkEnv demo_chip (mkPool [] 0) 0.
Definition demo_elf : list Z :=
  [0x7F; 0x45; 0x4C; 0x46; 2; 1; 1; 0; 0; 0; 0; 0; 0; 0; 0; 0; 2; 0; 183; 0] ++ replicate 20 0.

(** L"FlashApp", L"-slot", L"1" and a name. *)
Definition demo_args : list (list Z) := [[70]; slot_word; word_1; [102]].


Lemma FlashApp_raw_wraps_witness :
  let Data := replicate 5000 0x5A in
  ∃ e', FlashAppEntry EFI_SUCCESS [[70]; raw_word; [102; 102; 102; 102; 102; 48; 48; 48]; [102]] EFI_SUCCESS
      (λ _, demo_file Data) demo_env = Some (EFI_SUCCESS, e') ∧
    (∀ i, 0 <= i < 4096 → nor_mem (flash e') (0xFFF000 + i) = default 0 (rd Data i)) ∧
    (∀ i, 4096 <= i < len Data → nor_mem (flash e') (i - 4096) = default 0 (rd Data i)).
Proof.
  refine (FlashApp_raw_wraps demo_env [70] [102] (λ _, demo_file (replicate 5000 0x5A)) (replicate 5000 0x5A)
    eq_refl sim_flawless eq_refl (λ _, bytes_okb_spec (replicate 5000 0x5A) eq_refl) eq_refl _).
  vm_compute. split; discriminate.
Defined.
