(* ===== verification/FlashBoot.v ===== *)
(** * From the flash application to the loader

    What [FlashApp] writes to slot 0 is what [SpiLoader] starts: the two agree on
    the slot's address and on what an image is. *)

From S2P Require Import Prelude Efi Spi SpiNor SpiLoader FlashApp.

(** The flash as a file sees it: its bytes in slot 0. *)
Definition file_nor (F : list Z) (x : Z) : Z := default 0xFF (rd F (x - CCR2004_SPI_FLASH_OFFSET)).

(** A file the loader accepts and that holds all of its headers and segments. *)
Record bootable `{Platform} (F : list Z) : Prop := mkBootable {
  bt_bytes : Forall byte_ok F;
  bt_header : 64 <= len F;
  bt_accepted : accepted (file_nor F);
  bt_phdrs : e_phoff (image_header (file_nor F)) + e_phnum (image_header (file_nor F)) * 56 <= len F;
  bt_segments : Forall (λ p, p_type p = PT_LOAD → p_offset p + p_filesz p <= len F)
                  (image_phdrs (file_nor F))
}.

Section Slot.
Context `{Platform} (F : list Z) (nor : Z → Z).
Context (Hb : bootable F).
Context (Hn : ∀ i, 0 <= i < len F → nor (CCR2004_SPI_FLASH_OFFSET + i) = file_nor F (CCR2004_SPI_FLASH_OFFSET + i)).

Lemma file_nor_ok x : byte_ok (file_nor F x).
Proof.
  unfold file_nor. destruct (rd F _) as [v|] eqn:E; cbn [default]; [|unfold byte_ok; lia].
  eapply rd_byte_ok; [apply bt_bytes, Hb|exact E].
Qed.

Lemma slot_header : image_header nor = image_header (file_nor F).
Proof.
  apply ehdr_at_ext. intros i Hi. apply Hn. pose proof (bt_header F Hb). lia.
Qed.

Lemma slot_phdrs : image_phdrs nor = image_phdrs (file_nor F).
Proof.
  unfold image_phdrs. rewrite slot_header. apply map_ext_in. intros j Hj.
  apply list_elem_of_In, elem_of_seqZ in Hj. unfold image_phdr, phdr_nth. rewrite slot_header.
  destruct (image_header_range (file_nor F) file_nor_ok) as (Ho & _ & _).
  apply phdr_at_ext. intros i Hi. unfold sizeof_ELF64_PHDR. pose proof (bt_phdrs F Hb).
  rewrite <- !Z.add_assoc. apply Hn. lia.
Qed.

Lemma slot_accepted : accepted nor.
Proof. unfold accepted. rewrite slot_header, slot_phdrs. apply (bt_accepted F Hb). Qed.

Lemma slot_placed m x : placed nor (image_phdrs nor) m x = placed (file_nor F) (image_phdrs (file_nor F)) m x.
Proof.
  rewrite slot_phdrs. unfold placed. pose proof (bt_segments F Hb) as S.
  assert (Forall phdr_ok (image_phdrs (file_nor F))) as O.
  { apply list.Forall_forall. intros p Hp. unfold image_phdrs in Hp. apply list_elem_of_fmap in Hp as (j & -> & _).
    apply (image_header_range (file_nor F) file_nor_ok). }
  generalize (m x). induction (image_phdrs (file_nor F)) as [|p ps IH]; intros b; [done|]. cbn [foldl].
  apply Forall_cons_1 in S as [Sp S]. apply Forall_cons_1 in O as [Op O]. rewrite IH by done. f_equal.
  destruct (decide (p_type p = PT_LOAD ∧ seg p x)) as [[Ht Hx]|]; [|done].
  unfold seg_val. destruct (Z.ltb_spec x (Target p + p_filesz p)); [|done].
  rewrite <- !Z.add_assoc. apply Hn. specialize (Sp Ht). unfold seg, span in Hx. destruct Op. lia.
Qed.
End Slot.

(** C4: From the shell to the next boot: on a flawless flash the application
    writes a bootable file to slot 0 and reports success; the loader, started
    later on that flash with any memory, console and CPU state, leaves for the
    file's entry point with the file's segments in memory. *)
Theorem flash_then_boot {H} `{UartLaws H, !PlatformLaws} (e : ENV H) Argv fs F :
  nor_ready (flash e) = true → flawless (H := H) → pool_plenty (FlashApp.pool e) →
  (∀ name, Forall byte_ok (snd (sh_read (fs name)))) →
  decision EFI_SUCCESS Argv EFI_SUCCESS fs = inr (FLASH_SLOT0_OFFSET, F) →
  len F <= FLASH_SLOT_SIZE → bootable F →
  ∃ e', FlashAppEntry EFI_SUCCESS Argv EFI_SUCCESS fs e = Some (EFI_SUCCESS, e') ∧
    ∀ (s : Machine H) cpu, nor_ready (dev s) = true → same_mem (flash e') (dev s) →
      ∃ cpu' s', SpiloaderMain cpu s = Some (Done cpu', s') ∧
        pc cpu' = e_entry (image_header (file_nor F)) ∧ x0_x3 cpu' = [0; 0; 0; 0] ∧
        ∀ x, ~ objects x → mem s' x = placed (file_nor F) (image_phdrs (file_nor F)) (mem s) x.
Proof.
  intros R Fl Pl B D LF Hb. unfold FLASH_SLOT0_OFFSET, FLASH_SLOT_SIZE in *.
  destruct (entry_outcome EFI_SUCCESS Argv EFI_SUCCESS fs e R B) as (st & e' & E & _ & _ & O).
  rewrite D in O. cbv zeta in O. rewrite (u32_small (len F)) in O by lia. destruct O as [O1 O2].
  assert (sector_at 0x800000) as S by done.
  assert (st = EFI_SUCCESS) as ->.
  { apply O2; try done; [apply reaches_inside; (done || unfold NOR_SIZE; lia)|unfold NOR_SIZE; lia|apply bt_bytes, Hb]. }
  destruct (O1 eq_refl) as [_ I]. specialize (I ltac:(unfold NOR_SIZE; lia) (bt_bytes F Hb)).
  exists e'. split; [exact E|]. intros s cpu Rs Sm.
  assert (∀ i, 0 <= i < len F → nor_mem (dev s) (CCR2004_SPI_FLASH_OFFSET + i) =
            file_nor F (CCR2004_SPI_FLASH_OFFSET + i)) as N.
  { intros i Hi. unfold CCR2004_SPI_FLASH_OFFSET. rewrite Sm, I by (unfold NOR_SIZE; lia).
    rewrite image_updated by (done || unfold NOR_SIZE; lia). unfold updated, file_nor, CCR2004_SPI_FLASH_OFFSET.
    destruct (rd_in_range F (0x800000 + i - 0x800000)) as [v ->]; [lia|done]. }
  destruct (SpiloaderMain_run s cpu Rs) as (o & s' & E' & _ & Ok & Fin).
  specialize (Fin Fl). rewrite decide_True in Fin by (by eapply slot_accepted). destruct Fin as [cpu' ->].
  destruct (Ok cpu' eq_refl) as (_ & Hpc & Hx & _ & Hp & _). exists cpu', s'. split_and!; [done|..|done|].
  - rewrite Hpc. by rewrite (slot_header F).
  - intros x Hx'. rewrite Hp by done. by apply slot_placed.
Qed.

(** ** Witness, on the simulated machine *)

Lemma demo_bootable : bootable (demo_image 0x80000000).
Proof.
  split; [by apply bytes_okb_spec|vm_compute; discriminate|apply (bool_decide_unpack _); vm_compute; exact I|
    vm_compute; discriminate|].
  apply (bool_decide_unpack _). vm_compute. exact I.
Qed.

Lemma flash_then_boot_witness :
  let F := demo_image 0x80000000 in
  let e := mkEnv (mkChip (λ x, x) false false (mkUart [] 3 0 0)) (mkPool [] 0) 0 in
  ∃ e', FlashAppEntry EFI_SUCCESS [[70]; [102]] EFI_SUCCESS (λ _, demo_file F) e = Some (EFI_SUCCESS, e') ∧
    ∀ (s : Machine (Nor Uart16550)) cpu, nor_ready (dev s) = true → same_mem (flash e') (dev s) →
      ∃ cpu' s', SpiloaderMain cpu s = Some (Done cpu', s') ∧
        pc cpu' = e_entry (image_header (file_nor F)) ∧ x0_x3 cpu' = [0; 0; 0; 0] ∧
        ∀ x, ~ objects x → mem s' x = placed (file_nor F) (image_phdrs (file_nor F)) (mem s) x.
Proof.
  refine (flash_then_boot (mkEnv (mkChip (λ x, x) false false (mkUart [] 3 0 0)) (mkPool [] 0) 0)
    [[70]; [102]] (λ _, demo_file (demo_image 0x80000000)) (demo_image 0x80000000)
    eq_refl sim_flawless eq_refl (λ _, bytes_okb_spec (demo_image 0x80000000) eq_refl) _ _ demo_bootable).
  - vm_compute. reflexivity.
  - vm_compute. discriminate.
Defined.
