(* ===== verification/Jitter.v ===== *)
(** * The entropy library

    Library/JitterArmTrngLib/JitterArmTrngLib.c: bytes mixed from the timing of a
    small workload. The performance counter is a parameter: a class of one
    operation on the state of the machine, whatever it returns. *)

From S2P Require Import Prelude Efi.

Class Counter (H : Type) := { GetPerformanceCounter : H → Z * H }.

Definition SAMPLES_PER_BYTE : Z := 64.
Definition JITTER_BUF_SIZE : Z := 512.

(** (Acc << n) | (Acc >> (64 - n)) *)
Definition rotate (n Acc : Z) : Z := Z.lor (u64 (Z.shiftl Acc n)) (Z.shiftr Acc (64 - n)).

(** ** The workload *)

(** The loop over the scratch buffer from [i] on, [n] turns left. *)
Fixpoint jitter_loop (n : nat) (i Acc : Z) (mJitterBuf : list Z) : option (Z * list Z) :=
  match n with
  | O => Some (Acc, mJitterBuf)
  | S n' =>
      mJitterBuf ← wrn mJitterBuf i [u8 (Z.lxor Acc i)];
      b ← rd mJitterBuf i;
      let Acc := rotate 7 (Acc +u64 b) in
      c ← rd mJitterBuf ((i + 33) mod JITTER_BUF_SIZE);
      jitter_loop n' (i + 64) (Z.lxor Acc c) mJitterBuf
  end.

Definition JitterRound (Seed : Z) (mJitterBuf : list Z) : option (Z * list Z) :=
  jitter_loop (Z.to_nat (JITTER_BUF_SIZE / 64)) 0 Seed mJitterBuf.

Section Code.
Context {H : Type} `{Counter H}.

(** The mixing of a sample. *)
Definition mix (Acc Delta : Z) : Z := rotate 3 (Z.lxor Acc Delta) +u64 Z.land Delta 0xFF.

Fixpoint sample_loop (n : nat) (Acc : Z) (mJitterBuf : list Z) (h : H) : option (Z * list Z * H) :=
  match n with
  | O => Some (Acc, mJitterBuf, h)
  | S n' =>
      let '(T0, h) := GetPerformanceCounter h in
      '(Acc, mJitterBuf) ← JitterRound Acc mJitterBuf;
      let '(T1, h) := GetPerformanceCounter h in
      sample_loop n' (mix Acc (T1 -u64 T0)) mJitterBuf h
  end.

(** The eight bytes of the accumulator, folded. *)
Definition fold_byte (Acc : Z) : Z :=
  u8 (Z.lxor (Z.lxor (Z.lxor (Z.lxor (Z.lxor (Z.lxor (Z.lxor Acc (Z.shiftr Acc 8)) (Z.shiftr Acc 16))
    (Z.shiftr Acc 24)) (Z.shiftr Acc 32)) (Z.shiftr Acc 40)) (Z.shiftr Acc 48)) (Z.shiftr Acc 56)).

Definition CollectJitterByte (mJitterBuf : list Z) (h : H) : option (Z * list Z * H) :=
  let '(Acc, h) := GetPerformanceCounter h in
  '(Acc, mJitterBuf, h) ← sample_loop (Z.to_nat SAMPLES_PER_BYTE) Acc mJitterBuf h;
  Some (fold_byte Acc, mJitterBuf, h).

(** ** The interface *)

(** A pointer argument that may be NULL is [None]; a result stored through a
    pointer is returned. *)
Definition GetArmTrngVersion (MajorRevision MinorRevision : option Z) : EFI_STATUS * option (Z * Z) :=
  match MajorRevision, MinorRevision with
  | Some _, Some _ => (EFI_SUCCESS, Some (1, 0))
  | _, _ => (EFI_INVALID_PARAMETER, None)
  end.

Definition GetArmTrngUuid : EFI_STATUS := EFI_UNSUPPORTED.
Definition GetArmTrngMaxSupportedEntropyBits : Z := 256.

Fixpoint entropy_loop (n : nat) (i : Z) (Buffer mJitterBuf : list Z) (h : H)
    : option (list Z * list Z * H) :=
  match n with
  | O => Some (Buffer, mJitterBuf, h)
  | S n' =>
      '(b, mJitterBuf, h) ← CollectJitterByte mJitterBuf h;
      Buffer ← wrn Buffer i [b];
      entropy_loop n' (i + 1) Buffer mJitterBuf h
  end.

Definition GetArmTrngEntropy (EntropyBits BufferSize : Z) (Buffer : option (list Z)) (mJitterBuf : list Z) (h : H)
    : option (EFI_STATUS * option (list Z) * list Z * H) :=
  match Buffer with
  | None => Some (EFI_INVALID_PARAMETER, None, mJitterBuf, h)
  | Some Buffer =>
      let BytesNeeded := (EntropyBits +u64 7) / 8 in
      if BufferSize <? BytesNeeded then Some (EFI_BAD_BUFFER_SIZE, Some Buffer, mJitterBuf, h)
      else if GetArmTrngMaxSupportedEntropyBits <? EntropyBits
      then Some (EFI_UNSUPPORTED, Some Buffer, mJitterBuf, h)
      else
        Buffer ← wrn Buffer 0 (replicate (Z.to_nat BufferSize) 0);
        '(Buffer, mJitterBuf, h) ← entropy_loop (Z.to_nat BytesNeeded) 0 Buffer mJitterBuf h;
        Some (EFI_SUCCESS, Some Buffer, mJitterBuf, h)
  end.
End Code.

(** ** The workload without its buffer *)

(** The byte that a turn mixes back in, at [i + 33], is never written: the scratch
    buffer starts as zeroes and only multiples of 64 are stored to. *)
Record scratch (b : list Z) : Prop := mkScratch {
  sc_len : len b = 512;
  sc_bytes : Forall byte_ok b;
  sc_zero j : 0 <= j < 512 → j mod 64 <> 0 → rd b j = Some 0
}.

Fixpoint pure_loop (n : nat) (i Acc : Z) : Z :=
  match n with
  | O => Acc
  | S n' => pure_loop n' (i + 64) (rotate 7 (Acc +u64 u8 (Z.lxor Acc i)))
  end.
Definition pure_round (Seed : Z) : Z := pure_loop 8 0 Seed.

Lemma scratch_zero : scratch (replicate 512 0).
Proof.
  constructor; [done|by apply bytes_okb_spec|]. intros j Hj _. rewrite rd_lookup by lia.
  apply lookup_replicate. split; [done|lia].
Qed.

Lemma scratch_store b i v : scratch b → 0 <= i < 512 → i mod 64 = 0 → byte_ok v →
  ∃ b', wrn b i [v] = Some b' ∧ scratch b' ∧ rd b' i = Some v.
Proof.
  intros [L B Z] Hi Hm Hv. rewrite wrn_eq by (cbn; lia). eexists. split; [done|].
  set (b' := take _ _ ++ _).
  assert (∀ j, 0 <= j → rd b' j = if j =? i then Some v else rd b j) as R.
  { intros j Hj. unfold b'. destruct (Z.ltb_spec j i) as [Lt|Ge].
    - rewrite rd_app_l by (rewrite length_take; lia). rewrite rd_take by done. by destruct (Z.eqb_spec j i); [lia|].
    - rewrite rd_app_r by (rewrite length_take; lia). rewrite length_take.
      replace (j - Z.of_nat (Z.to_nat i `min` length b)) with (j - i) by lia. cbn [app rd].
      destruct (Z.eqb_spec (j - i) 0), (Z.eqb_spec j i); try lia; [done|].
      change (length [v]) with 1%nat. replace (Z.to_nat i + 1)%nat with (Z.to_nat (i + 1)) by lia. rewrite rd_drop by lia. f_equal. lia. }
  split; [|by rewrite R, Z.eqb_refl by lia]. constructor.
  - unfold b'. rewrite !length_app, length_take, length_drop. cbn. lia.
  - unfold b'. apply Forall_app. split; [by apply Forall_take|]. apply Forall_app. split; [by constructor|by apply Forall_drop].
  - intros j Hj Hn. rewrite R by lia. destruct (Z.eqb_spec j i) as [->|]; [done|by apply Z].
Qed.

Lemma jitter_loop_pure n i Acc b : scratch b → 0 <= i → i mod 64 = 0 → i + 64 * Z.of_nat n <= 512 →
  ∃ b', jitter_loop n i Acc b = Some (pure_loop n i Acc, b') ∧ scratch b'.
Proof.
  revert i Acc b. induction n as [|n IH]; intros i Acc b S Hi Hm Hn; [by exists b|]. cbn [jitter_loop pure_loop].
  destruct (scratch_store b i (u8 (Z.lxor Acc i)) S ltac:(lia) Hm (u8_range _)) as (b' & -> & S' & E).
  cbn [mbind option_bind]. rewrite E. cbn [mbind option_bind].
  unfold JITTER_BUF_SIZE. rewrite (sc_zero _ S') by (Z.div_mod_to_equations; lia). cbn [mbind option_bind].
  rewrite Z.lxor_0_r. apply IH; try done; try lia. Z.div_mod_to_equations. lia.
Qed.

Lemma JitterRound_pure Seed b : scratch b →
  ∃ b', JitterRound Seed b = Some (pure_round Seed, b') ∧ scratch b'.
Proof. intros S. by apply (jitter_loop_pure 8 0). Qed.

(** ** Bytes as a function of the counter *)

Section Readings.
Context {H : Type} `{Counter H}.

(** [readings n h cs h']: the next [n] readings are [cs]. *)
Fixpoint readings (n : nat) (h : H) : list Z * H :=
  match n with
  | O => ([], h)
  | Datatypes.S n' =>
      let '(c, h) := GetPerformanceCounter h in
      let '(cs, h) := readings n' h in (c :: cs, h)
  end.

(** The mixing of pairs of readings. *)
Fixpoint mix_readings (Acc : Z) (cs : list Z) {struct cs} : Z :=
  match cs with
  | T0 :: T1 :: cs => mix_readings (mix (pure_round Acc) (T1 -u64 T0)) cs
  | _ => Acc
  end.

Definition byte_of (cs : list Z) : Z :=
  match cs with [] => 0 | c :: cs => fold_byte (mix_readings c cs) end.

Lemma sample_loop_pure n Acc b h : scratch b →
  ∃ b', sample_loop n Acc b h =
      Some (mix_readings Acc (fst (readings (n * 2) h)), b', snd (readings (n * 2) h)) ∧ scratch b'.
Proof.
  revert Acc b h. induction n as [|n IH]; intros Acc b h S; [by exists b|].
  cbn [Nat.mul Nat.add sample_loop readings]. destruct (GetPerformanceCounter h) as [T0 h1].
  destruct (JitterRound_pure Acc b S) as (b1 & -> & S1). cbn [mbind option_bind].
  destruct (GetPerformanceCounter h1) as [T1 h2].
  destruct (IH (mix (pure_round Acc) (T1 -u64 T0)) b1 h2 S1) as (b' & E & S'). exists b'.
  destruct (readings (n * 2) h2) as [cs h3]. cbn [fst snd mix_readings] in E |- *. split; [exact E|exact S'].
Qed.

(** A byte takes 129 readings. *)
Lemma CollectJitterByte_pure b h : scratch b →
  ∃ b', CollectJitterByte b h = Some (byte_of (fst (readings 129 h)), b', snd (readings 129 h)) ∧ scratch b'.
Proof.
  intros S. unfold CollectJitterByte. change 129%nat with (Datatypes.S (64 * 2)). cbn [readings].
  destruct (GetPerformanceCounter h) as [c h1]. change (Z.to_nat SAMPLES_PER_BYTE) with 64%nat.
  destruct (sample_loop_pure 64 c b h1 S) as (b' & -> & S'). exists b'. cbn [mbind option_bind].
  by destruct (readings (64 * 2) h1) as [cs h2].
Qed.

(** The bytes of a request. *)
Fixpoint bytes_of (n : nat) (h : H) : list Z * H :=
  match n with
  | O => ([], h)
  | Datatypes.S n' =>
      let '(cs, h) := readings 129 h in
      let '(bs, h) := bytes_of n' h in (byte_of cs :: bs, h)
  end.

Lemma length_bytes_of n h : length (fst (bytes_of n h)) = n.
Proof.
  revert h. induction n as [|n IH]; intros h; [done|]. cbn [bytes_of]. destruct (readings 129 h) as [cs h1].
  specialize (IH h1). destruct (bytes_of n h1) as [bs h2]. cbn in *. by rewrite IH.
Qed.

Lemma entropy_loop_pure n pre post b h : scratch b → (n <= length post)%nat →
  ∃ b', entropy_loop n (len pre) (pre ++ post) b h =
      Some (pre ++ fst (bytes_of n h) ++ drop n post, b', snd (bytes_of n h)) ∧ scratch b'.
Proof.
  revert pre post b h. induction n as [|n IH]; intros pre post b h S L; [by exists b|].
  destruct post as [|x post]; [cbn in L; lia|]. cbn [entropy_loop bytes_of].
  destruct (CollectJitterByte_pure b h S) as (b1 & -> & S1). cbn [mbind option_bind].
  destruct (readings 129 h) as [cs h1]. cbn [fst snd].
  assert (wrn (pre ++ x :: post) (len pre) [byte_of cs] = Some ((pre ++ [byte_of cs]) ++ post)) as ->.
  { rewrite wrn_eq by (rewrite ?length_app; cbn; lia). rewrite Nat2Z.id, take_app_length.
    rewrite drop_app_ge by (cbn; lia). change (length [byte_of cs]) with 1%nat.
    replace (length pre + 1 - length pre)%nat with 1%nat by lia. by rewrite <- app_assoc. }
  cbn [mbind option_bind].
  destruct (IH (pre ++ [byte_of cs]) post b1 h1 S1 ltac:(cbn in L; lia)) as (b' & E & S').
  rewrite length_app in E. cbn [length] in E. replace (len pre + 1) with (Z.of_nat (length pre + 1)) by lia.
  exists b'. rewrite E. destruct (bytes_of n h1) as [bs h2]. cbn. by rewrite <- !app_assoc.
Qed.
End Readings.

(** ** Properties *)

(** C38: A request for entropy, whatever the counter returns: it never faults;
    NULL, a buffer too small and more than 256 bits are refused with the buffer
    as it was; otherwise the first bytes are a function of 129 readings of the
    counter each (the memory workload adds nothing to them), and the rest of
    the buffer is cleared. *)
Theorem GetArmTrngEntropy_exact {H} `{Counter H} (h : H) EntropyBits BufferSize Buffer mJitterBuf :
  0 <= EntropyBits < 2 ^ 64 → scratch mJitterBuf →
  (∀ B, Buffer = Some B → BufferSize = len B) →
  ∃ st out b' h', GetArmTrngEntropy EntropyBits BufferSize Buffer mJitterBuf h = Some (st, out, b', h') ∧
    scratch b' ∧
    let need := Z.to_nat ((EntropyBits + 7) / 8) in
    match Buffer with
    | None => st = EFI_INVALID_PARAMETER ∧ out = None ∧ h' = h
    | Some B =>
        if (EntropyBits <=? 256) && (Z.of_nat need <=? BufferSize) then
          st = EFI_SUCCESS ∧ h' = snd (bytes_of need h) ∧
          out = Some (fst (bytes_of need h) ++ replicate (length B - need) 0)
        else
          st = (if zbetween 1 EntropyBits (2 ^ 64 - 8) && (BufferSize <? Z.of_nat need) then EFI_BAD_BUFFER_SIZE
                else EFI_UNSUPPORTED) ∧ out = Some B ∧ h' = h
    end.
Proof.
  intros HE S HB. cbv zeta. unfold GetArmTrngEntropy. destruct Buffer as [B|].
  2:{ eexists _, _, _, _. split_and!; done. }
  specialize (HB B eq_refl). subst BufferSize. change GetArmTrngMaxSupportedEntropyBits with 256.
  destruct (Z_le_gt_dec EntropyBits (2 ^ 64 - 8)) as [Le|Gt].
  - rewrite u64_small by lia. set (N := (EntropyBits + 7) / 8).
    assert (0 <= N) as HN by (unfold N; apply Z.div_pos; lia). rewrite Z2Nat.id by done.
    destruct (Z.ltb_spec (len B) N) as [Sm|Fit].
    { replace ((EntropyBits <=? 256) && (N <=? len B)) with false
        by (rewrite (proj2 (Z.leb_gt N _)) by lia; by destruct (_ <=? _)).
      assert (1 <= EntropyBits) by (unfold N in Sm; Z.div_mod_to_equations; lia).
      replace (zbetween 1 EntropyBits (2 ^ 64 - 8)) with true by (symmetry; apply zbetween_spec; lia).
      eexists _, _, _, _. split_and!; done. }
    rewrite (proj2 (Z.leb_le N _)) by lia. rewrite Z.ltb_antisym.
    destruct (Z.leb_spec EntropyBits 256) as [Ok|Big]; cbn [negb andb].
    2:{ eexists _, _, _, _. rewrite andb_false_r. split_and!; done. }
    rewrite wrn_eq by (rewrite ?length_replicate; lia).
    change (take (Z.to_nat 0) B) with (@nil Z). cbn [app mbind option_bind].
    rewrite length_replicate, Nat2Z.id. change (Z.to_nat 0 + length B)%nat with (length B). rewrite drop_all, app_nil_r.
    destruct (entropy_loop_pure (Z.to_nat N) [] (replicate (length B) 0) mJitterBuf h S) as (b' & E & S');
      [rewrite length_replicate; lia|].
    change (len []) with 0 in E. cbn [app] in E. rewrite E. cbn [mbind option_bind].
    eexists _, _, _, _. split_and!; [done|done|done|done|]. by rewrite drop_replicate.
  - replace (EntropyBits +u64 7) with (EntropyBits + 7 - 2 ^ 64) by (unfold u64; Z.div_mod_to_equations; lia).
    assert ((EntropyBits + 7 - 2 ^ 64) / 8 = 0) as -> by (Z.div_mod_to_equations; lia).
    rewrite (proj2 (Z.ltb_ge (len B) 0)), (proj2 (Z.ltb_lt 256 _)) by lia.
    rewrite (proj2 (Z.leb_gt EntropyBits 256)) by lia. cbn [andb].
    unfold zbetween. rewrite (proj2 (Z.leb_gt EntropyBits (2 ^ 64 - 8))), andb_false_r by lia.
    eexists _, _, _, _. split_and!; done.
Qed.

(** A 64-bit rotation is reversible, a turn of the workload is not: two seeds with
    the same outcome. *)
Lemma pure_round_collides : pure_round 128 = pure_round 256.
Proof. vm_compute. reflexivity. Qed.

(** ** Witness: a counter that advances by 5 *)

#[export] Instance tick_counter : Counter Z := { GetPerformanceCounter h := (h, h + 5) }.

Lemma GetArmTrngEntropy_exact_witness :
  ∃ st out b' h', GetArmTrngEntropy 12 4 (Some [9; 9; 9; 9]) (replicate 512 0) 1000 = Some (st, out, b', h') ∧
    scratch b' ∧ st = EFI_SUCCESS ∧ h' = 2290 ∧
    out = Some (fst (bytes_of (H := Z) 2 1000) ++ [0; 0]).
Proof.
  destruct (GetArmTrngEntropy_exact (1000 : Z) 12 4 (Some [9; 9; 9; 9]) (replicate 512 0) ltac:(lia) scratch_zero
    ltac:(intros B [= <-]; reflexivity)) as (st & out & b' & h' & E & S & X1 & X2 & X3).
  exists st, out, b', h'. split; [exact E|]. split; [exact S|]. split; [exact X1|]. split; [|exact X3].
  rewrite X2. vm_compute. reflexivity.
Defined.
