(* ===== verification/Platform.v ===== *)
(** * The platform library

    Library/PlatformLib: what runs before the drivers, pin multiplexing and the
    GPIO expander, over arbitrary hardware whose accesses are logged; and the
    static descriptions that the drivers rely on: the memory map
    (PlatformLibMem.c), the root bridge (Library/PciHostBridgeLib) and the GPIO
    controllers (Drivers/PlatformGpioDxe). *)

From Stdlib Require Import Strings.String Strings.Ascii.
From S2P Require Import Prelude Efi AlNand Spi SpiNor SpiLoader I2c DwI2c FlashApp.

(** ** Registers *)

Definition AL_PBS_BASE : Z := 0xFD8A8000.
Definition PBS_MUX_SEL_0 : Z := 0x138.
Definition PBS_MUX_SEL_1 : Z := 0x13C.
Definition PBS_MUX_SEL_2 : Z := 0x140.
Definition PBS_MUX_SEL_3 : Z := 0x144.
Definition PBS_MUX_SEL_4 : Z := 0x220.
Definition PBS_MUX_SEL_5 : Z := 0x224.
Definition PBS_MUX_SEL_6 : Z := 0x244.
Definition I2C_PLD_BASE : Z := 0xFD880000.
Definition IC_CON : Z := 0x00.
Definition IC_TAR : Z := 0x04.
Definition IC_DATA_CMD : Z := 0x10.
Definition IC_SS_SCL_HCNT : Z := 0x14.
Definition IC_SS_SCL_LCNT : Z := 0x18.
Definition IC_INTR_MASK : Z := 0x30.
Definition IC_RAW_INTR_STAT : Z := 0x34.
Definition IC_CLR_INTR : Z := 0x40.
Definition IC_CLR_TX_ABRT : Z := 0x54.
Definition IC_ENABLE : Z := 0x6C.
Definition IC_STATUS : Z := 0x70.
Definition IC_ENABLE_STATUS : Z := 0x9C.
Definition IC_CON_MASTER : Z := Z.shiftl 1 0.
Definition IC_CON_SPEED_STD : Z := Z.shiftl 1 1.
Definition IC_CON_RESTART_EN : Z := Z.shiftl 1 5.
Definition IC_CON_SLAVE_DISABLE : Z := Z.shiftl 1 6.
Definition IC_DATA_CMD_STOP : Z := Z.shiftl 1 9.
Definition IC_STATUS_TFNF : Z := Z.shiftl 1 1.
Definition IC_STATUS_TFE : Z := Z.shiftl 1 2.
Definition IC_INTR_TX_ABRT : Z := Z.shiftl 1 6.
Definition PCA9555_ADDR : Z := 0x20.
Definition PCA9555_OUTPUT_0 : Z := 0x02.
Definition PCA9555_OUTPUT_1 : Z := 0x03.
Definition PCA9555_CONFIG_0 : Z := 0x06.
Definition PCA9555_CONFIG_1 : Z := 0x07.
Definition SS_SCL_HCNT_VAL : Z := 2500.
Definition SS_SCL_LCNT_VAL : Z := 2500.
Definition I2C_TIMEOUT_US : Z := 100000.
Definition I2C_POLL_US : Z := 10.

(** ** State *)

Inductive maccess := MRd (Address Value : Z) | MWr (Address Value : Z).

(** The hardware, the accesses so far and the text sent to the serial port. *)
Record Sec (H : Type) := mkSec { shw : H; accesses : list maccess; serial : list Z }.
Arguments mkSec {H}.
Arguments shw {H}.
Arguments accesses {H}.
Arguments serial {H}.

(** A string literal that ends in "\n\r". *)
Definition text_line (s : string) : list Z := chars s ++ [10; 13].

Section Code.
Context {H : Type} `{Mmio H, Timer H}.

Definition P (A : Type) : Type := Sec H → option (A * Sec H).

#[global] Instance P_ret : MRet P := λ A a s, Some (a, s).
#[global] Instance P_bind : MBind P := λ A B f m s,
  match m s with Some (a, s') => f a s' | None => None end.

Definition MmioRead (Address : Z) : P Z := λ s,
  let '(v, h) := MmioRead32 Address (shw s) in
  Some (v, mkSec h (accesses s ++ [MRd Address v]) (serial s)).
Definition MmioWrite (Address Value : Z) : P unit := λ s,
  Some (tt, mkSec (MmioWrite32 Address Value (shw s)) (accesses s ++ [MWr Address Value]) (serial s)).
Definition MicroSecondDelay (us : Z) : P unit := λ s,
  Some (tt, mkSec (us_delay us (shw s)) (accesses s) (serial s)).

(** [SerialPortWrite (Buffer, n)]. *)
Definition SerialPortWrite (Buffer : list Z) (n : Z) : P unit := λ s,
  bytes ← rdn Buffer 0 n; Some (tt, mkSec (shw s) (accesses s) (serial s ++ bytes)).

(** ** Pin multiplexing *)

Definition Hex : list Z := chars "0123456789ABCDEF".

Fixpoint hex_chars (n : nat) (i Val : Z) : option (list Z) :=
  match n with
  | O => Some []
  | S n' =>
      c ← rd Hex (Z.land (Z.shiftr Val (28 - i * 4)) 0xF);
      rest ← hex_chars n' (i + 1) Val;
      Some (c :: rest)
  end.

Definition SerialPutHex32 (Val : Z) : P unit := λ s,
  match hex_chars 8 0 Val with
  | Some digits => SerialPortWrite ([48; 120] ++ digits ++ [0]) 10 s
  | None => None
  end.

Definition DumpMuxReg (Name : list Z) (Offset : Z) : P unit :=
  _ ← SerialPortWrite (chars "  ") 2;
  _ ← SerialPortWrite Name (len Name);
  _ ← SerialPortWrite (chars " = ") 3;
  v ← MmioRead (AL_PBS_BASE + Offset);
  _ ← SerialPutHex32 v;
  SerialPortWrite [10; 13] 2.

Definition AlpineMuioMuxInit : P unit :=
  _ ← SerialPortWrite (text_line "SEC: PBS MUX SEL before config:") 32;
  _ ← DumpMuxReg (chars "mux_sel_0") PBS_MUX_SEL_0;
  _ ← DumpMuxReg (chars "mux_sel_1") PBS_MUX_SEL_1;
  _ ← DumpMuxReg (chars "mux_sel_2") PBS_MUX_SEL_2;
  _ ← DumpMuxReg (chars "mux_sel_3") PBS_MUX_SEL_3;
  _ ← DumpMuxReg (chars "mux_sel_4") PBS_MUX_SEL_4;
  _ ← DumpMuxReg (chars "mux_sel_5") PBS_MUX_SEL_5;
  _ ← DumpMuxReg (chars "mux_sel_6") PBS_MUX_SEL_6;
  _ ← MmioWrite (AL_PBS_BASE + PBS_MUX_SEL_0) 0x33000000;
  _ ← MmioWrite (AL_PBS_BASE + PBS_MUX_SEL_1) 0x33333333;
  _ ← MmioWrite (AL_PBS_BASE + PBS_MUX_SEL_2) 0x00223333;
  _ ← MmioWrite (AL_PBS_BASE + PBS_MUX_SEL_3) 0x22000000;
  _ ← MmioWrite (AL_PBS_BASE + PBS_MUX_SEL_4) 0;
  _ ← MmioWrite (AL_PBS_BASE + PBS_MUX_SEL_5) 0;
  MmioWrite (AL_PBS_BASE + PBS_MUX_SEL_6) 0.

(** ** The GPIO expander *)

(** The polling loops: [E] goes up to the timeout by the interval. *)
Definition I2C_TURNS : nat := Z.to_nat (I2C_TIMEOUT_US / I2C_POLL_US).

Fixpoint wait_tfnf (n : nat) : P bool :=
  match n with
  | O => mret false
  | S n' =>
      v ← MmioRead (I2C_PLD_BASE + IC_STATUS);
      if negb (Z.land v IC_STATUS_TFNF =? 0) then mret true
      else _ ← MicroSecondDelay I2C_POLL_US; wait_tfnf n'
  end.
Definition I2cWaitTfnf : P bool := wait_tfnf I2C_TURNS.

Fixpoint wait_tfe (n : nat) : P bool :=
  match n with
  | O => mret false
  | S n' =>
      v ← MmioRead (I2C_PLD_BASE + IC_STATUS);
      if negb (Z.land v IC_STATUS_TFE =? 0) then mret true
      else
        v ← MmioRead (I2C_PLD_BASE + IC_RAW_INTR_STAT);
        if negb (Z.land v IC_INTR_TX_ABRT =? 0)
        then _ ← MmioRead (I2C_PLD_BASE + IC_CLR_TX_ABRT); mret false
        else _ ← MicroSecondDelay I2C_POLL_US; wait_tfe n'
  end.
Definition I2cWaitTfe : P bool := wait_tfe I2C_TURNS.

Definition Pca9555WriteReg (Reg Value : Z) : P bool :=
  ok ← I2cWaitTfnf;
  if negb ok then mret false
  else
    _ ← MmioWrite (I2C_PLD_BASE + IC_DATA_CMD) Reg;
    ok ← I2cWaitTfnf;
    if negb ok then mret false
    else
      _ ← MmioWrite (I2C_PLD_BASE + IC_DATA_CMD) (Z.lor Value IC_DATA_CMD_STOP);
      I2cWaitTfe.

(** The wait for the controller to be disabled has no bound in the code. *)
Fixpoint wait_disabled (fuel : nat) : P unit :=
  match fuel with
  | O => λ _, None
  | S fuel' =>
      v ← MmioRead (I2C_PLD_BASE + IC_ENABLE_STATUS);
      if Z.land v 1 =? 0 then mret tt else wait_disabled fuel'
  end.

Definition Pca9555Init (fuel : nat) : P unit :=
  _ ← MmioWrite (I2C_PLD_BASE + IC_ENABLE) 0;
  _ ← wait_disabled fuel;
  _ ← MmioWrite (I2C_PLD_BASE + IC_CON)
        (Z.lor (Z.lor (Z.lor IC_CON_MASTER IC_CON_SPEED_STD) IC_CON_RESTART_EN) IC_CON_SLAVE_DISABLE);
  _ ← MmioWrite (I2C_PLD_BASE + IC_SS_SCL_HCNT) SS_SCL_HCNT_VAL;
  _ ← MmioWrite (I2C_PLD_BASE + IC_SS_SCL_LCNT) SS_SCL_LCNT_VAL;
  _ ← MmioWrite (I2C_PLD_BASE + IC_INTR_MASK) 0;
  _ ← MmioWrite (I2C_PLD_BASE + IC_TAR) PCA9555_ADDR;
  _ ← MmioRead (I2C_PLD_BASE + IC_CLR_INTR);
  _ ← MmioWrite (I2C_PLD_BASE + IC_ENABLE) 1;
  _ ← Pca9555WriteReg PCA9555_OUTPUT_0 0xFF;
  _ ← Pca9555WriteReg PCA9555_OUTPUT_1 0xDB;
  _ ← Pca9555WriteReg PCA9555_CONFIG_0 0xFF;
  _ ← Pca9555WriteReg PCA9555_CONFIG_1 0xDB;
  _ ← MmioWrite (I2C_PLD_BASE + IC_ENABLE) 0;
  wait_disabled fuel.

Definition ArmPlatformInitialize (fuel : nat) : P EFI_STATUS :=
  _ ← AlpineMuioMuxInit;
  _ ← SerialPortWrite (text_line "SEC: PBS MUIO mux configured") 30;
  _ ← Pca9555Init fuel;
  _ ← SerialPortWrite (text_line "SEC: PCA9555 GPIO expander configured") 39;
  mret EFI_SUCCESS.
End Code.

(** ** Static descriptions *)

(** The MPIDR of each core. *)
Definition mCoreInfoTable : list Z := [0x000; 0x001; 0x002; 0x003].
Definition GetMpCoreInfo : EFI_STATUS * Z * list Z := (EFI_SUCCESS, len mCoreInfoTable, mCoreInfoTable).

Inductive ARM_MEMORY_REGION_ATTRIBUTES :=
  ARM_MEMORY_REGION_ATTRIBUTE_UNCACHED_UNBUFFERED | ARM_MEMORY_REGION_ATTRIBUTE_WRITE_BACK |
  ARM_MEMORY_REGION_ATTRIBUTE_DEVICE.
Record ARM_MEMORY_REGION_DESCRIPTOR := mkRegion {
  PhysicalBase : Z;
  VirtualBase : Z;
  Length : Z;
  Attributes : ARM_MEMORY_REGION_ATTRIBUTES
}.

Definition CCR2004_DRAM_PRIMARY_BASE : Z := 0x00000000.
Definition CCR2004_DRAM_PRIMARY_SIZE : Z := 0x80000000.
Definition CCR2004_DRAM_SECONDARY_BASE : Z := 0x80000000.
Definition CCR2004_DRAM_SECONDARY_SIZE : Z := 0x40000000.
Definition CCR2004_PERIPH_BASE : Z := 0xF0000000.
Definition CCR2004_PERIPH_SIZE : Z := 0x10000000.

(** The table, its sentinel last (attribute 0); [None] when the allocation fails
    and the caller's pointer is left as it was. *)
Definition ArmPlatformGetVirtualMemoryMap (p : Pool) : option (list ARM_MEMORY_REGION_DESCRIPTOR) * Pool :=
  let '(ok, p) := AllocatePool p in
  if negb ok then (None, p)
  else
    (Some [mkRegion CCR2004_DRAM_PRIMARY_BASE CCR2004_DRAM_PRIMARY_BASE CCR2004_DRAM_PRIMARY_SIZE
             ARM_MEMORY_REGION_ATTRIBUTE_WRITE_BACK;
           mkRegion CCR2004_DRAM_SECONDARY_BASE CCR2004_DRAM_SECONDARY_BASE CCR2004_DRAM_SECONDARY_SIZE
             ARM_MEMORY_REGION_ATTRIBUTE_WRITE_BACK;
           mkRegion CCR2004_PERIPH_BASE CCR2004_PERIPH_BASE CCR2004_PERIPH_SIZE
             ARM_MEMORY_REGION_ATTRIBUTE_DEVICE;
           mkRegion 0 0 0 ARM_MEMORY_REGION_ATTRIBUTE_UNCACHED_UNBUFFERED], p).

(** [mPciRootBridge]: an aperture is its base and its limit, empty when the limit
    is below the base. The device path is left out. *)
Record PCI_ROOT_BRIDGE := mkBridge {
  Segment : Z;
  Supports : Z;
  BridgeAttributes : Z;
  DmaAbove4G : bool;
  NoExtendedConfigSpace : bool;
  ResourceAssigned : bool;
  CombineMemPMem : bool;
  Bus : Z * Z;
  Io : Z * Z;
  Mem : Z * Z;
  MemAbove4G : Z * Z;
  PMem : Z * Z;
  PMemAbove4G : Z * Z
}.
Definition mPciRootBridge : PCI_ROOT_BRIDGE :=
  mkBridge 0 0 0 true false false true
    (0, 0) (MAX_UINT64, 0) (0xFE000000, 0xFEFFFFFF) (MAX_UINT64, 0) (MAX_UINT64, 0) (MAX_UINT64, 0).
Definition PciHostBridgeGetRootBridges : list PCI_ROOT_BRIDGE := [mPciRootBridge].

Record GPIO_CONTROLLER := mkGpio { RegisterBase : Z; GpioIndex : Z; InternalGpioCount : Z }.
Definition AL_GPIO_CONTROLLER_COUNT : Z := 6.
Definition AL_GPIO_PINS_PER_CTRL : Z := 8.
Definition AL_GPIO_TOTAL_PINS : Z := AL_GPIO_CONTROLLER_COUNT * AL_GPIO_PINS_PER_CTRL.
Definition mGpioControllers : list GPIO_CONTROLLER :=
  [mkGpio 0xFD887000 0x00 AL_GPIO_PINS_PER_CTRL; mkGpio 0xFD888000 0x08 AL_GPIO_PINS_PER_CTRL;
   mkGpio 0xFD889000 0x10 AL_GPIO_PINS_PER_CTRL; mkGpio 0xFD88A000 0x18 AL_GPIO_PINS_PER_CTRL;
   mkGpio 0xFD88B000 0x20 AL_GPIO_PINS_PER_CTRL; mkGpio 0xFD897000 0x28 AL_GPIO_PINS_PER_CTRL].

(** What PlatformGpioDxe installs: the number of pins, of controllers, and the
    controllers. *)
Definition mPlatformGpioController : Z * Z * list GPIO_CONTROLLER :=
  (AL_GPIO_TOTAL_PINS, AL_GPIO_CONTROLLER_COUNT, mGpioControllers).
Definition PlatformGpioDxeInitialize (InstallStatus : EFI_STATUS) : EFI_STATUS * option (Z * Z * list GPIO_CONTROLLER) :=
  (InstallStatus, if EFI_ERROR InstallStatus then None else Some mPlatformGpioController).

(** The boot mode, 0 in PiBootMode.h. *)
Definition BOOT_WITH_FULL_CONFIGURATION : Z := 0.
Definition ArmPlatformGetBootMode : Z := BOOT_WITH_FULL_CONFIGURATION.

(** ** Runs *)

Definition write_of (a : maccess) : option (Z * Z) := match a with MWr o v => Some (o, v) | MRd _ _ => None end.
Definition writes (l : list maccess) : list (Z * Z) := omap write_of l.

Lemma writes_app l1 l2 : writes (l1 ++ l2) = writes l1 ++ writes l2.
Proof. apply omap_app. Qed.

Section Runs.
Context {H : Type} `{Mmio H, Timer H}.
Implicit Types (s : Sec H) (h : H).

(** [m] runs from [s] to a result, making writes and sending text. *)
Definition runs {A} (m : P A) (Q : A → list (Z * Z) → list Z → Prop) s : Prop :=
  ∃ a l t h, m s = Some (a, mkSec h (accesses s ++ l) (serial s ++ t)) ∧ Q a (writes l) t.

Lemma runs_mono {A} (m : P A) (Q R : A → list (Z * Z) → list Z → Prop) s :
  runs m Q s → (∀ a W t, Q a W t → R a W t) → runs m R s.
Proof. intros (a & l & t & h & E & HQ) M. exists a, l, t, h. auto. Qed.

Lemma runs_ret {A} (a : A) (Q : A → list (Z * Z) → list Z → Prop) s : Q a [] [] → runs (mret a) Q s.
Proof. intros HQ. exists a, [], [], (shw s). rewrite !app_nil_r. split; [by destruct s|done]. Qed.

Lemma runs_bind {A B} (m : P A) (f : A → P B) (R : A → list (Z * Z) → list Z → Prop)
    (Q : B → list (Z * Z) → list Z → Prop) s :
  runs m R s → (∀ a W t s', R a W t → runs (f a) (λ b W' t', Q b (W ++ W') (t ++ t')) s') → runs (m ≫= f) Q s.
Proof.
  intros (a & l & t & h & E & HR) K.
  destruct (K a (writes l) t (mkSec h (accesses s ++ l) (serial s ++ t)) HR) as (b & l' & t' & h' & E' & HQ).
  exists b, (l ++ l'), (t ++ t'), h'. rewrite writes_app. split; [|done].
  unfold mbind, P_bind. rewrite E, E'. cbn. by rewrite <- !app_assoc.
Qed.

Lemma runs_read a s : runs (MmioRead a) (λ v W t, v = fst (MmioRead32 a (shw s)) ∧ W = [] ∧ t = []) s.
Proof.
  unfold runs, MmioRead. destruct (MmioRead32 a (shw s)) as [v h]. exists v, [MRd a v], [], h.
  by rewrite app_nil_r.
Qed.

Lemma runs_write a v s : runs (MmioWrite a v) (λ _ W t, W = [(a, v)] ∧ t = []) s.
Proof. eexists tt, [MWr a v], [], _. by rewrite app_nil_r. Qed.

Lemma runs_delay us s : runs (MicroSecondDelay us) (λ _ W t, W = [] ∧ t = []) s.
Proof. eexists tt, [], [], _. by rewrite !app_nil_r. Qed.

Lemma runs_serial b n s : 0 <= n <= len b → runs (SerialPortWrite b n) (λ _ W t, W = [] ∧ t = take (Z.to_nat n) b) s.
Proof.
  intros Hn. exists tt, [], (take (Z.to_nat n) b), (shw s). rewrite app_nil_r. split; [|done].
  unfold SerialPortWrite. by rewrite rdn_eq by lia.
Qed.

(** A hexadecimal number. *)
Definition hex_text (v : Z) : list Z := [48; 120] ++ default [] (hex_chars 8 0 v).

Lemma hex_chars_len n i v : ∃ l, hex_chars n i v = Some l ∧ length l = n.
Proof.
  revert i. induction n as [|n IH]; intros i; [by exists []|]. cbn [hex_chars].
  assert (0 <= Z.land (Z.shiftr v (28 - i * 4)) 0xF < 16) as R.
  { change 0xF with (Z.ones 4). rewrite Z.land_ones by lia. apply Z.mod_pos_bound. lia. }
  destruct (rd_in_range Hex (Z.land (Z.shiftr v (28 - i * 4)) 0xF)) as [c ->]; [exact R|].
  destruct (IH (i + 1)) as (l & -> & L). exists (c :: l). cbn. by rewrite L.
Qed.

Lemma runs_hex v s : runs (SerialPutHex32 v) (λ _ W t, W = [] ∧ t = hex_text v) s.
Proof.
  unfold SerialPutHex32, hex_text, runs. destruct (hex_chars_len 8 0 v) as (l & E & L). rewrite E. cbn [default].
  destruct (runs_serial ([48; 120] ++ l ++ [0]) 10 s) as (a & l' & t & h & E' & W & T).
  { rewrite !length_app, L. cbn. lia. }
  exists a, l', t, h. split_and!; [exact E'|done|]. rewrite T. cbn [app].
  change (Z.to_nat 10) with (S (S 8)). cbn [take]. by rewrite take_app_le, take_ge by lia.
Qed.

(** *** Pin multiplexing *)

Definition mux_writes : list (Z * Z) :=
  [(AL_PBS_BASE + PBS_MUX_SEL_0, 0x33000000); (AL_PBS_BASE + PBS_MUX_SEL_1, 0x33333333);
   (AL_PBS_BASE + PBS_MUX_SEL_2, 0x00223333); (AL_PBS_BASE + PBS_MUX_SEL_3, 0x22000000);
   (AL_PBS_BASE + PBS_MUX_SEL_4, 0); (AL_PBS_BASE + PBS_MUX_SEL_5, 0); (AL_PBS_BASE + PBS_MUX_SEL_6, 0)].
Definition mux_names : list string :=
  ["mux_sel_0"; "mux_sel_1"; "mux_sel_2"; "mux_sel_3"; "mux_sel_4"; "mux_sel_5"; "mux_sel_6"]%string.
Definition mux_line (n : string) (v : Z) : list Z := chars "  " ++ chars n ++ chars " = " ++ hex_text v ++ [10; 13].

Lemma runs_step {A B} (m : P A) (f : A → P B) (R : A → Prop) W1 t1 (Q : B → list (Z * Z) → list Z → Prop) s :
  runs m (λ a W t, R a ∧ W = W1 ∧ t = t1) s →
  (∀ a s', R a → runs (f a) (λ b W' t', Q b (W1 ++ W') (t1 ++ t')) s') → runs (m ≫= f) Q s.
Proof. intros E K. eapply runs_bind; [exact E|]. intros a W t s' (HR & -> & ->). by apply K. Qed.

(** A step with a known effect, whatever it returns. *)
Lemma runs_seq {A B} (m : P A) (f : A → P B) W1 t1 (Q : B → list (Z * Z) → list Z → Prop) s :
  runs m (λ a W t, W = W1 ∧ t = t1) s →
  (∀ a s', runs (f a) (λ b W' t', Q b (W1 ++ W') (t1 ++ t')) s') → runs (m ≫= f) Q s.
Proof. intros E K. eapply runs_bind; [exact E|]. intros a W t s' (-> & ->). by apply K. Qed.

Lemma runs_any {A} (m : P A) v W1 t1 s :
  runs m (λ a W t, a = v ∧ W = W1 ∧ t = t1) s → runs m (λ a W t, W = W1 ∧ t = t1) s.
Proof. intros E. eapply runs_mono; [exact E|]. by intros ? ? ? (_ & -> & ->). Qed.

Lemma runs_DumpMuxReg n o s :
  runs (DumpMuxReg (chars n) o) (λ _ W t, W = [] ∧ ∃ v, t = mux_line n v) s.
Proof.
  unfold DumpMuxReg.
  eapply runs_seq; [by apply runs_serial|intros _ s1]. eapply runs_seq; [apply runs_serial; lia|intros _ s2].
  eapply runs_seq; [by apply runs_serial|intros _ s3]. eapply runs_seq; [eapply runs_any, runs_read|intros v s4].
  eapply runs_seq; [apply runs_hex|intros _ s5]. eapply runs_mono; [by apply runs_serial|].
  intros _ W t (-> & ->). split; [done|]. exists v. unfold mux_line. rewrite Nat2Z.id, (take_ge (chars n)) by done.
  change (take (Z.to_nat 2) (chars "  ")) with (chars "  "). change (take (Z.to_nat 3) (chars " = ")) with (chars " = ").
  by rewrite <- ?app_assoc.
Qed.

(** The banner is written without its last byte. *)
Lemma runs_Mux s :
  runs AlpineMuioMuxInit (λ _ W t, W = mux_writes ∧ ∃ vs, length vs = 7%nat ∧
    t = take 32 (text_line "SEC: PBS MUX SEL before config:") ++ concat (zip_with mux_line mux_names vs)) s.
Proof.
  unfold AlpineMuioMuxInit.
  eapply runs_seq; [by apply runs_serial|intros _ s0].
  assert (∀ A n o (k : unit → P A) (Q : A → list (Z * Z) → list Z → Prop) s,
            (∀ v s', runs (k tt) (λ a W t, Q a W (mux_line n v ++ t)) s') →
            runs (DumpMuxReg (chars n) o ≫= k) Q s) as DUMP.
  { intros A n o k Q s' K. eapply runs_bind; [apply runs_DumpMuxReg|]. intros [] W t s1 (-> & v & ->). apply K. }
  apply DUMP; intros v0 s1. apply DUMP; intros v1 s2. apply DUMP; intros v2 s3. apply DUMP; intros v3 s4.
  apply DUMP; intros v4 s5. apply DUMP; intros v5 s6. apply DUMP; intros v6 s7.
  do 6 (eapply runs_seq; [apply runs_write|intros _ ?]).
  eapply runs_mono; [apply runs_write|]. intros _ W t (-> & ->). split; [done|].
  exists [v0; v1; v2; v3; v4; v5; v6]. split; [done|].
  cbn [zip_with mux_names concat]. rewrite !app_nil_r. by rewrite ?app_nil_l.
Qed.

(** *** The GPIO expander *)

(** The two commands of one register write. *)
Definition frame (r v : Z) : list (Z * Z) :=
  [(I2C_PLD_BASE + IC_DATA_CMD, r); (I2C_PLD_BASE + IC_DATA_CMD, Z.lor v IC_DATA_CMD_STOP)].

Definition silent {A} (R : A → Prop) : A → list (Z * Z) → list Z → Prop := λ a W t, R a ∧ W = [] ∧ t = [].

(** The waits only read. They succeed at once when [fast] holds. *)
Lemma runs_wait_tfnf (fast : Prop) n s :
  (fast → 0 < Z.of_nat n ∧ ∀ h, Z.land (fst (MmioRead32 (I2C_PLD_BASE + IC_STATUS) h)) IC_STATUS_TFNF ≠ 0) →
  runs (wait_tfnf n) (silent (λ ok, fast → ok = true)) s.
Proof.
  revert s. induction n as [|n IH]; intros s F; cbn [wait_tfnf].
  - apply runs_ret. split_and!; [|done..]. intros Hf. destruct (F Hf). lia.
  - eapply runs_bind; [apply runs_read|]. intros v W t s1 (-> & -> & ->).
    destruct (Z.eqb_spec (Z.land (fst (MmioRead32 (I2C_PLD_BASE + IC_STATUS) (shw s))) IC_STATUS_TFNF) 0) as [E|E]; cbn [negb].
    + eapply runs_seq; [apply runs_delay|intros _ s2]. apply IH. intros Hf. destruct (F Hf) as [_ K]. by destruct (K (shw s)).
    + apply runs_ret. by split_and!.
Qed.

Lemma runs_wait_tfe (fast : Prop) n s :
  (fast → 0 < Z.of_nat n ∧ ∀ h, Z.land (fst (MmioRead32 (I2C_PLD_BASE + IC_STATUS) h)) IC_STATUS_TFE ≠ 0) →
  runs (wait_tfe n) (silent (λ ok, fast → ok = true)) s.
Proof.
  revert s. induction n as [|n IH]; intros s F; cbn [wait_tfe].
  - apply runs_ret. split_and!; [|done..]. intros Hf. destruct (F Hf). lia.
  - eapply runs_bind; [apply runs_read|]. intros v W t s1 (-> & -> & ->).
    destruct (Z.eqb_spec (Z.land (fst (MmioRead32 (I2C_PLD_BASE + IC_STATUS) (shw s))) IC_STATUS_TFE) 0) as [E|E]; cbn [negb].
    + assert (¬ fast) as NF by (intros Hf; destruct (F Hf) as [_ K]; by destruct (K (shw s))).
      eapply runs_bind; [apply runs_read|]. intros v W t s2 (_ & -> & ->). destruct (negb _).
      * eapply runs_seq; [eapply runs_any, runs_read|intros _ s3]. apply runs_ret. by split_and!.
      * eapply runs_seq; [apply runs_delay|intros _ s3]. by apply IH.
    + apply runs_ret. by split_and!.
Qed.

(** A controller that always has room and drains at once. *)
Definition keeps_up : Prop := ∀ h,
  let v := fst (MmioRead32 (I2C_PLD_BASE + IC_STATUS) h) in
  Z.land v IC_STATUS_TFNF ≠ 0 ∧ Z.land v IC_STATUS_TFE ≠ 0.

(** A register write sends the first commands of its frame; all of them when it
    reports success, which it does when the controller keeps up. *)
Lemma runs_Pca9555WriteReg r v s :
  runs (Pca9555WriteReg r v)
    (λ ok W t, W `prefix_of` frame r v ∧ (ok = true → W = frame r v) ∧ (keeps_up → ok = true) ∧ t = []) s.
Proof.
  assert (∀ s, runs I2cWaitTfnf (silent (λ ok, keeps_up → ok = true)) s) as W1.
  { intros s'. apply runs_wait_tfnf. intros K. split; [reflexivity|]. intros h. by destruct (K h). }
  unfold Pca9555WriteReg, frame.
  eapply runs_bind; [apply W1|]. intros ok W t s1 (K1 & -> & ->). destruct ok; cbn [negb].
  2: { apply runs_ret. split_and!; [apply prefix_nil|done|done|done]. }
  eapply runs_seq; [apply runs_write|intros _ s2].
  eapply runs_bind; [apply W1|]. intros ok W t s3 (K2 & -> & ->). destruct ok; cbn [negb].
  2: { apply runs_ret. cbn [app]. split_and!; [apply prefix_cons, prefix_nil|done|done|done]. }
  eapply runs_seq; [apply runs_write|intros _ s4].
  eapply runs_mono.
  { apply (runs_wait_tfe keeps_up). intros K. split; [reflexivity|]. intros h. by destruct (K h). }
  intros ok W t (K3 & -> & ->). by split_and!.
Qed.

(** *** The whole initialisation *)

(** How long the controller still reports that it is enabled. *)
Class SecLaws := {
  busy : H → nat;
  busy_limit : nat;
  busy_bounded h : (busy h < busy_limit)%nat;
  busy_read h :
    Z.land (fst (MmioRead32 (I2C_PLD_BASE + IC_ENABLE_STATUS) h)) 1 ≠ 0 →
    (busy (snd (MmioRead32 (I2C_PLD_BASE + IC_ENABLE_STATUS) h)) < busy h)%nat
}.

Definition setup_writes : list (Z * Z) :=
  [(I2C_PLD_BASE + IC_ENABLE, 0); (I2C_PLD_BASE + IC_CON, 0x63);
   (I2C_PLD_BASE + IC_SS_SCL_HCNT, SS_SCL_HCNT_VAL); (I2C_PLD_BASE + IC_SS_SCL_LCNT, SS_SCL_LCNT_VAL);
   (I2C_PLD_BASE + IC_INTR_MASK, 0); (I2C_PLD_BASE + IC_TAR, PCA9555_ADDR); (I2C_PLD_BASE + IC_ENABLE, 1)].

(** Output latches first, so that no pin is driven with an old value. *)
Definition expander : list (Z * Z) :=
  [(PCA9555_OUTPUT_0, 0xFF); (PCA9555_OUTPUT_1, 0xDB); (PCA9555_CONFIG_0, 0xFF); (PCA9555_CONFIG_1, 0xDB)].

Definition expander_frames : list (list (Z * Z)) := List.map (λ '(r, v), frame r v) expander.

Context {L : SecLaws}.

(** A read, keeping the state that it leaves. *)
Lemma runs_bind_read {B} a (f : Z → P B) Q s :
  runs (f (fst (MmioRead32 a (shw s)))) Q
    (mkSec (snd (MmioRead32 a (shw s))) (accesses s ++ [MRd a (fst (MmioRead32 a (shw s)))]) (serial s)) →
  runs (MmioRead a ≫= f) Q s.
Proof.
  unfold runs, mbind, P_bind, MmioRead. destruct (MmioRead32 a (shw s)) as [v h]. cbn [fst snd].
  intros (b & l & t & h' & E & HQ). exists b, (MRd a v :: l), t, h'. cbn [accesses serial] in E.
  by rewrite E, <- app_assoc.
Qed.

Lemma runs_wait_disabled fuel s : (busy_limit <= fuel)%nat → runs (wait_disabled fuel) (λ _ W t, W = [] ∧ t = []) s.
Proof.
  intros Hf. assert (busy (shw s) < fuel)%nat as B by (pose proof (busy_bounded (shw s)); lia). clear Hf.
  revert s B. induction fuel as [|fuel IH]; intros s B; [lia|]. cbn [wait_disabled].
  apply runs_bind_read. destruct (Z.eqb_spec (Z.land (fst (MmioRead32 (I2C_PLD_BASE + IC_ENABLE_STATUS) (shw s))) 1) 0) as [E|E].
  - by apply runs_ret.
  - apply IH. pose proof (busy_read (shw s) E). cbn [shw]. lia.
Qed.

Lemma runs_frame {B} r v (f : bool → P B) (Q : B → list (Z * Z) → list Z → Prop) s :
  (∀ W ok s', W `prefix_of` frame r v → (keeps_up → W = frame r v) → runs (f ok) (λ b W' t', Q b (W ++ W') t') s') →
  runs (Pca9555WriteReg r v ≫= f) Q s.
Proof.
  intros K. eapply runs_bind; [apply runs_Pca9555WriteReg|]. intros ok W t s' (PW & F & U & ->).
  apply (K W ok s' PW). auto.
Qed.

Lemma runs_Pca9555Init fuel s :
  (busy_limit <= fuel)%nat →
  runs (Pca9555Init fuel) (λ _ W t, t = [] ∧ ∃ fs, W = setup_writes ++ concat fs ++ [(I2C_PLD_BASE + IC_ENABLE, 0)] ∧
    Forall2 prefix fs expander_frames ∧ (keeps_up → fs = expander_frames)) s.
Proof.
  intros Hf. unfold Pca9555Init.
  eapply runs_seq; [apply runs_write|intros _ s0]. eapply runs_seq; [by apply runs_wait_disabled|intros _ s1].
  do 5 (eapply runs_seq; [apply runs_write|intros _ ?]).
  eapply runs_seq; [eapply runs_any, runs_read|intros _ s2]. eapply runs_seq; [apply runs_write|intros _ s3].
  apply runs_frame; intros F0 _ s4 P0 K0. apply runs_frame; intros F1 _ s5 P1 K1.
  apply runs_frame; intros F2 _ s6 P2 K2. apply runs_frame; intros F3 _ s7 P3 K3.
  eapply runs_seq; [apply runs_write|intros _ s8]. eapply runs_mono; [by apply runs_wait_disabled|].
  intros _ W t (-> & ->). split; [done|]. exists [F0; F1; F2; F3]. split_and!.
  - cbn [concat]. rewrite !app_nil_r, <- !app_assoc. reflexivity.
  - by repeat constructor.
  - intros K. by rewrite K0, K1, K2, K3.
Qed.

(** The text that goes out on the serial port. *)
Definition sec_text (vs : list Z) : list Z :=
  take 32 (text_line "SEC: PBS MUX SEL before config:") ++ concat (zip_with mux_line mux_names vs) ++
  text_line "SEC: PBS MUIO mux configured" ++ text_line "SEC: PCA9555 GPIO expander configured".

Lemma ArmPlatformInitialize_run fuel s :
  (busy_limit <= fuel)%nat →
  runs (ArmPlatformInitialize fuel) (λ st W t, st = EFI_SUCCESS ∧
    (∃ fs, W = mux_writes ++ setup_writes ++ concat fs ++ [(I2C_PLD_BASE + IC_ENABLE, 0)] ∧
      Forall2 prefix fs expander_frames ∧ (keeps_up → fs = expander_frames)) ∧
    ∃ vs, length vs = 7%nat ∧ t = sec_text vs) s.
Proof.
  intros Hf. unfold ArmPlatformInitialize.
  eapply runs_bind; [apply runs_Mux|]. intros [] W t s1 (-> & vs & Lv & ->).
  eapply runs_seq; [by apply runs_serial|intros _ s2].
  eapply runs_bind; [by apply runs_Pca9555Init|]. intros [] W t s3 (-> & fs & -> & PF & K).
  eapply runs_seq; [by apply runs_serial|intros _ s4]. apply runs_ret.
  split_and!; [done|exists fs; rewrite app_nil_r|exists vs; split; [done|]].
  - by split_and!.
  - unfold sec_text. rewrite !app_nil_r, <- !app_assoc. reflexivity.
Qed.

(** C40: the initialisation ends, on any controller that reports itself disabled
    within a bounded number of reads, with EFI_SUCCESS: the multiplexer registers
    are written, the controller is set up, each register of the expander is sent
    its command as far as the controller takes it, whole when it keeps up, and
    the controller is disabled again. The text is fixed but for the values dumped. *)
Theorem ArmPlatformInitialize_exact fuel s (Hfuel : (busy_limit <= fuel)%nat) :
  ∃ log out h, ArmPlatformInitialize fuel s = Some (EFI_SUCCESS, mkSec h (accesses s ++ log) (serial s ++ out)) ∧
    (∃ fs, writes log = mux_writes ++ setup_writes ++ concat fs ++ [(I2C_PLD_BASE + IC_ENABLE, 0)] ∧
      Forall2 prefix fs expander_frames ∧ (keeps_up → fs = expander_frames)) ∧
    ∃ vs, length vs = 7%nat ∧ out = sec_text vs.
Proof.
  destruct (ArmPlatformInitialize_run fuel s Hfuel) as (st & log & out & h & E & -> & W & T).
  by exists log, out, h.
Qed.
End Runs.

(** ** What the expander receives *)

(** The commands, as the decoder of the driver's own transfers reads them. *)
Definition bus_view (W : list (Z * Z)) : list access := List.map (λ '(a, v), Wr (a - I2C_PLD_BASE) v) W.

(** A whole frame is one write of the register and its value. *)
Lemma frame_decodes r v : byte_ok r → byte_ok v → decode (bus_view (frame r v)) = Some [(false, false, [r; v])].
Proof.
  intros Hr Hv. assert (∀ r v, (0 <= r < 256) → 0 <= v < 256 →
    let ok := bool_decide (decode (bus_view (frame r v)) = Some [(false, false, [r; v])]) in ok = true) as K.
  { clear. intros r v Hr Hv.
    assert (forallb (λ r, forallb (λ v, bool_decide
      (decode (bus_view (frame (Z.of_nat r) (Z.of_nat v))) = Some [(false, false, [Z.of_nat r; Z.of_nat v])]))
      (seq 0 256)) (seq 0 256) = true) as F by (vm_compute; reflexivity).
    rewrite forallb_forall in F. specialize (F (Z.to_nat r) ltac:(apply in_seq; lia)). cbv beta in F.
    rewrite forallb_forall in F. specialize (F (Z.to_nat v) ltac:(apply in_seq; lia)). cbv beta in F.
    by rewrite !Z2Nat.id in F by lia. }
  specialize (K r v Hr Hv). cbv zeta in K. by apply bool_decide_eq_true in K.
Qed.

(** When the controller has no room for the value, the register's byte stays in
    the transfer, and the next call's two bytes become values of this register. *)
Lemma abandoned_frame_joins :
  decode (bus_view (take 1 (frame PCA9555_OUTPUT_0 0xFF) ++ frame PCA9555_OUTPUT_1 0xDB)) =
    Some [(false, false, [PCA9555_OUTPUT_0; PCA9555_OUTPUT_1; 0xDB])].
Proof. reflexivity. Qed.

(** ** What the registers mean *)

(** The function that the written registers give to a pin: four bits a pin. *)
Definition pin_function (pin : Z) : Z :=
  match mux_writes !! Z.to_nat (pin / 8) with
  | Some (_, v) => Z.land (Z.shiftr v (4 * (pin mod 8))) 0xF
  | None => 0
  end.

(** NAND on pins 6 to 19, the console on 20 and 21, the I2C bus on 30 and 31, and
    GPIO elsewhere. *)
Lemma pin_functions pin :
  0 <= pin < 56 →
  pin_function pin =
    if zbetween 6 pin 19 then 3 else if zbetween 20 pin 21 || zbetween 30 pin 31 then 2 else 0.
Proof.
  intros R. assert (forallb (λ n, let pin := Z.of_nat n in pin_function pin =?
    if zbetween 6 pin 19 then 3 else if zbetween 20 pin 21 || zbetween 30 pin 31 then 2 else 0) (seq 0 56) = true) as F
    by (vm_compute; reflexivity).
  rewrite forallb_forall in F. specialize (F (Z.to_nat pin) ltac:(apply in_seq; lia)). cbv beta zeta in F.
  rewrite Z2Nat.id in F by lia. by apply Z.eqb_eq.
Qed.

(** The expander's lines 2 and 5 of port 1 are outputs driven low; all others are
    inputs (a configuration bit of one is an input). *)
Definition expander_low (port line : Z) : Prop :=
  ∃ o c, (PCA9555_OUTPUT_0 + port, o) ∈ expander ∧ (PCA9555_CONFIG_0 + port, c) ∈ expander ∧
    Z.testbit c line = false ∧ Z.testbit o line = false.

Lemma expander_lines port line :
  0 <= port < 2 → 0 <= line < 8 → expander_low port line ↔ port = 1 ∧ (line = 2 ∨ line = 5).
Proof.
  intros Hp Hl. assert (port = 0 ∨ port = 1) as [->| ->] by lia.
  - split; [|lia]. intros (o & c & Ho & Hc & _ & T).
    assert (o = 0xFF) as ->.
    { unfold expander in Ho. repeat (apply elem_of_cons in Ho as [[=]|Ho]; try lia). by apply elem_of_nil in Ho. }
    assert (line ∈ [0; 1; 2; 3; 4; 5; 6; 7]) as E by (rewrite !elem_of_cons; lia).
    exfalso. repeat (apply elem_of_cons in E as [->|E]; [discriminate T|]). by apply elem_of_nil in E.
  - assert (line ∈ [0; 1; 2; 3; 4; 5; 6; 7]) as E by (rewrite !elem_of_cons; lia).
    assert (∀ o, (PCA9555_OUTPUT_0 + 1, o) ∈ expander ↔ o = 0xDB) as Ho.
    { intros o. unfold expander. rewrite !elem_of_cons, elem_of_nil. split; [|intros ->; auto].
      intros [[=]|[[=]|[[=]|[[=]|[]]]]]; done. }
    assert (∀ c, (PCA9555_CONFIG_0 + 1, c) ∈ expander ↔ c = 0xDB) as Hc.
    { intros o. unfold expander. rewrite !elem_of_cons, elem_of_nil. split; [|intros ->; auto].
      intros [[=]|[[=]|[[=]|[[=]|[]]]]]; done. }
    unfold expander_low. setoid_rewrite Ho. setoid_rewrite Hc.
    repeat (apply elem_of_cons in E as [->|E]; [split; [intros (? & ? & -> & -> & T & _); (discriminate T || lia)
      |intros [_ T]; (lia || by eexists _, _)]|]).
    by apply elem_of_nil in E.
Qed.

(** ** The memory map *)

Definition region_end (r : ARM_MEMORY_REGION_DESCRIPTOR) : Z := PhysicalBase r + Length r.
Definition inside (r : ARM_MEMORY_REGION_DESCRIPTOR) (base size : Z) : Prop :=
  PhysicalBase r <= base ∧ base + size <= region_end r.

(** What a page table built from a map, up to its sentinel, says of an address. *)
Fixpoint attribute_of (l : list ARM_MEMORY_REGION_DESCRIPTOR) (a : Z) : option ARM_MEMORY_REGION_ATTRIBUTES :=
  match l with
  | [] => None
  | r :: l' =>
      if Length r =? 0 then None
      else if (PhysicalBase r <=? a) && (a <? region_end r) then Some (Attributes r) else attribute_of l' a
  end.

(** The table when the allocation succeeds: identity mapped, in order, disjoint,
    closed by its sentinel. *)
Lemma memory_map_shape p l p' :
  ArmPlatformGetVirtualMemoryMap p = (Some l, p') →
  ∃ rs, l = rs ++ [mkRegion 0 0 0 ARM_MEMORY_REGION_ATTRIBUTE_UNCACHED_UNBUFFERED] ∧
    Forall (λ r, PhysicalBase r = VirtualBase r ∧ 0 < Length r ∧ region_end r <= 2 ^ 32) rs ∧
    ∀ i j r1 r2, rs !! i = Some r1 → rs !! j = Some r2 → (i < j)%nat → region_end r1 <= PhysicalBase r2.
Proof.
  unfold ArmPlatformGetVirtualMemoryMap. destruct (AllocatePool p) as [[] p1]; cbn [negb]; intros [= <- <-].
  eexists [_; _; _]. split; [reflexivity|]. split; [repeat constructor; vm_compute; congruence|].
  intros [|[|[|i]]] [|[|[|j]]] r1 r2; cbn; intros [= <-] [= <-] Hij; try lia; vm_compute; congruence.
Qed.

(** The attribute of every address of the 32-bit space. *)
Lemma memory_map_attributes p l p' a :
  ArmPlatformGetVirtualMemoryMap p = (Some l, p') → 0 <= a →
  attribute_of l a =
    if a <? 0xC0000000 then Some ARM_MEMORY_REGION_ATTRIBUTE_WRITE_BACK
    else if (0xF0000000 <=? a) && (a <? 0x100000000) then Some ARM_MEMORY_REGION_ATTRIBUTE_DEVICE else None.
Proof.
  unfold ArmPlatformGetVirtualMemoryMap. destruct (AllocatePool p) as [[] p1]; cbn [negb]; intros [= <- <-] Ha.
  unfold CCR2004_DRAM_PRIMARY_BASE, CCR2004_DRAM_PRIMARY_SIZE, CCR2004_DRAM_SECONDARY_BASE,
    CCR2004_DRAM_SECONDARY_SIZE, CCR2004_PERIPH_BASE, CCR2004_PERIPH_SIZE.
  unfold attribute_of, region_end. cbn [PhysicalBase Length Attributes].
  repeat match goal with |- context [?x =? ?y] => destruct (Z.eqb_spec x y); [lia|] end.
  repeat match goal with
    | |- context [?x <=? ?y] => destruct (Z.leb_spec x y)
    | |- context [?x <? ?y] => destruct (Z.ltb_spec x y)
    end; cbn [andb]; first [reflexivity|lia].
Qed.

(** The windows of the devices that the drivers access: base and size. *)
Definition device_windows : list (Z * Z) :=
  [(AL_PBS_BASE, 0x1000); (I2C_PLD_BASE, 0x1000); (CCR2004_UART0_BASE, 0x1000); (AL_SPI_BASE, 0x1000);
   (AL_NAND_BASE, 0x10000); (0xFBC00000, 0x100000); (0xFE000000, 0x1000000)] ++
  List.map (λ b, (b, 0x1000)) mDwI2cBase ++ List.map (λ g, (RegisterBase g, 0x1000)) mGpioControllers.

(** Every one of them is device memory, and so is the aperture of every root
    bridge. *)
Lemma memory_map_devices p l p' a :
  ArmPlatformGetVirtualMemoryMap p = (Some l, p') →
  (∃ w, w ∈ device_windows ∧ w.1 <= a < w.1 + w.2) ∨
  (∃ b, b ∈ PciHostBridgeGetRootBridges ∧ (Mem b).1 <= a <= (Mem b).2) →
  attribute_of l a = Some ARM_MEMORY_REGION_ATTRIBUTE_DEVICE.
Proof.
  intros E HW. assert (0xF0000000 <= a < 0x100000000) as R.
  { destruct HW as [(w & Hw & R)|(b & Hb & R)].
    - assert (Forall (λ w, 0xF0000000 <= w.1 ∧ w.1 + w.2 <= 0x100000000) device_windows) as F
        by (repeat constructor; vm_compute; congruence).
      rewrite list.Forall_forall in F. specialize (F w Hw). lia.
    - apply list_elem_of_singleton in Hb as ->. cbn in R. lia. }
  rewrite (memory_map_attributes _ _ _ _ E) by lia.
  destruct (Z.ltb_spec a 0xC0000000); [lia|].
  by rewrite (proj2 (Z.leb_le 0xF0000000 a)), (proj2 (Z.ltb_lt a 0x100000000)) by lia.
Qed.

(** Some element of a literal list. *)
Ltac pick_elem := apply list_elem_of_here + (apply list_elem_of_further; pick_elem).

(** The GPIO controllers number their pins without gaps or overlaps. *)
Lemma gpio_pins pin :
  0 <= pin < AL_GPIO_TOTAL_PINS ↔ ∃ g, g ∈ mGpioControllers ∧ GpioIndex g <= pin < GpioIndex g + InternalGpioCount g.
Proof.
  unfold AL_GPIO_TOTAL_PINS, AL_GPIO_CONTROLLER_COUNT, mGpioControllers, AL_GPIO_PINS_PER_CTRL. split.
  - intros R.
    assert (pin < 8 ∨ 8 <= pin < 16 ∨ 16 <= pin < 24 ∨ 24 <= pin < 32 ∨ 32 <= pin < 40 ∨ 40 <= pin < 48) as K by lia.
    destruct K as [K|[K|[K|[K|[K|K]]]]]; eexists; (split; [pick_elem|cbn; lia]).
  - intros (g & Hg & R). repeat (apply elem_of_cons in Hg as [->|Hg]; [cbn in R; lia|]). by apply elem_of_nil in Hg.
Qed.

(** The description counts what it lists. *)
Lemma gpio_counts : len mGpioControllers = AL_GPIO_CONTROLLER_COUNT ∧
  foldr (λ g n, InternalGpioCount g + n) 0 mGpioControllers = AL_GPIO_TOTAL_PINS.
Proof. done. Qed.

(** ** Numbers on the console *)

Lemma hex_char d : 0 <= d < 16 → ∃ c, rd Hex d = Some c ∧ hex_digit c = Some d.
Proof.
  intros R. assert (Forall (λ d, ∃ c, rd Hex d = Some c ∧ hex_digit c = Some d) (List.map Z.of_nat (seq 0 16))) as F
    by (repeat constructor; eexists; split; reflexivity).
  rewrite list.Forall_forall in F. apply F. apply list_elem_of_In, in_map_iff. exists (Z.to_nat d).
  split; [lia|]. apply in_seq. lia.
Qed.

Lemma hex_chars_digits n i v :
  0 <= v → 0 <= i → i + Z.of_nat n = 8 →
  ∃ l ds, hex_chars n i v = Some l ∧ Forall2 (λ c d, hex_digit c = Some d) l ds ∧
    hex_number ds (Z.shiftr v (32 - 4 * i)) = v.
Proof.
  intros Hv. revert i. induction n as [|n IH]; intros i Hi Hn.
  - exists [], []. split_and!; [done|constructor|]. replace (32 - 4 * i) with 0 by lia. apply Z.shiftr_0_r.
  - cbn [hex_chars]. set (d := Z.land (Z.shiftr v (28 - i * 4)) 0xF).
    assert (d = Z.shiftr v (28 - i * 4) mod 16) as Ed.
    { unfold d. change 0xF with (Z.ones 4). by rewrite Z.land_ones by lia. }
    destruct (hex_char d) as (c & Ec & Hc); [rewrite Ed; apply Z.mod_pos_bound; lia|]. rewrite Ec.
    destruct (IH (i + 1)) as (l & ds & El & F & N); [lia..|]. rewrite El.
    exists (c :: l), (d :: ds). split_and!; [done|by constructor|]. rewrite <- N at 2.
    unfold hex_number. cbn [foldl]. f_equal. rewrite Ed. replace (32 - 4 * i) with ((28 - i * 4) + 4) by lia. rewrite <- Z.shiftr_shiftr by lia.
    replace (32 - 4 * (i + 1)) with (28 - i * 4) by lia. rewrite (Z.shiftr_div_pow2 _ 4) by lia.
    change (2 ^ 4) with 16. rewrite Z.mul_comm. symmetry. by apply Z.div_mod.
Qed.

(** What the dump prints for a register is its value, as the flash application
    reads an offset on its command line. *)
Lemma hex_text_reads v : 0 <= v < 2 ^ 32 → HexStrToUintn (hex_text v) = v.
Proof.
  intros R. destruct (hex_chars_digits 8 0 v) as (l & ds & E & F & N); [lia..|].
  unfold hex_text. rewrite E. cbn [default id app]. change (HexStrToUintn (48 :: 120 :: l)) with (hex_loop l 0).
  pose proof (hex_loop_digits l ds [] 0 F) as D. change (u64 0) with 0 in D. rewrite app_nil_r in D.
  rewrite D. cbn [hex_loop].
  change (32 - 4 * 0) with 32 in N. rewrite (Z.shiftr_div_pow2 v 32), Z.div_small in N by lia.
  rewrite N. unfold u64. apply Z.mod_small. lia.
Qed.

(** ** A controller for the examples *)

(** It takes two reads to report that it is disabled, always has room and is
    always drained. *)
Definition SecSim : Type := nat.
#[export] Instance secsim_mmio : Mmio SecSim := {
  MmioRead32 a h :=
    if a =? I2C_PLD_BASE + IC_ENABLE_STATUS then match h with O => (0, O) | S h' => (1, Nat.min h' 1) end
    else if a =? I2C_PLD_BASE + IC_STATUS then (0x6, h) else (0, h);
  MmioWrite32 a v h := if (a =? I2C_PLD_BASE + IC_ENABLE) && (v =? 0) then 2%nat else h
}.
#[export] Instance secsim_timer : Timer SecSim := {| us_delay _ h := h |}.

Lemma secsim_keeps_up : @keeps_up SecSim _.
Proof. intros h. by cbn. Qed.

#[export] Program Instance secsim_laws : SecLaws (H := SecSim) := {| busy h := Nat.min h 2; busy_limit := 3 |}.
Next Obligation. intros h. apply (Nat.le_lt_trans _ 2); [apply Nat.le_min_r|lia]. Qed.
Next Obligation. intros [|[|[|h]]] K; cbn in *; [by destruct K|repeat constructor..]. Qed.

(** Twenty-three writes, of which the expander's four frames. *)
Lemma ArmPlatformInitialize_exact_witness :
  ∃ log out h, ArmPlatformInitialize 3 (mkSec (2%nat : SecSim) [] []) = Some (EFI_SUCCESS, mkSec h log out) ∧
    writes log = mux_writes ++ setup_writes ++ concat expander_frames ++ [(I2C_PLD_BASE + IC_ENABLE, 0)] ∧
    length (writes log) = 23%nat ∧ ∃ vs, length vs = 7%nat ∧ out = sec_text vs.
Proof.
  destruct (ArmPlatformInitialize_exact (H := SecSim) (L := secsim_laws) 3 (mkSec (2%nat : SecSim) [] []) (Nat.le_refl 3))
    as (log & out & h & E & (fs & W & _ & K) & V).
  rewrite (K secsim_keeps_up) in W. exists log, out, h. split; [exact E|]. split; [exact W|]. split; [|exact V].
  rewrite W. reflexivity.
Defined.
