(* ===== verification/Smbios.v ===== *)
(** * The SMBIOS driver

    Drivers/SmbiosPlatformDxe: the fifteen static tables that describe the board,
    their packed strings, and the entry point, which hands the tables to the
    SMBIOS protocol and then replaces names by those of the board information
    driver. The layout of the tables (MdePkg) and the protocol (MdeModulePkg) are
    parameters with their documented laws; a small protocol is the instance. *)

From Stdlib Require Import Strings.String.
From S2P Require Import Prelude Efi Spi SpiNor SpiLoader BoardInfo.

(** ** Data *)

Definition SMBIOS_HANDLE_PI_RESERVED : Z := 0xFFFE.
Definition SMBIOS_HANDLE_L1I : Z := 0x1000.
Definition SMBIOS_HANDLE_L1D : Z := 0x1001.
Definition SMBIOS_HANDLE_L2 : Z := 0x1002.
Definition SMBIOS_HANDLE_MOTHERBOARD : Z := 0x1003.
Definition SMBIOS_HANDLE_CHASSIS : Z := 0x1004.
Definition SMBIOS_HANDLE_PROCESSOR : Z := 0x1005.
Definition SMBIOS_HANDLE_MEMORY : Z := 0x1006.
Definition SMBIOS_HANDLE_DIMM : Z := 0x1007.

Definition EFI_SMBIOS_TYPE_BIOS_INFORMATION : Z := 0.
Definition EFI_SMBIOS_TYPE_SYSTEM_INFORMATION : Z := 1.
Definition EFI_SMBIOS_TYPE_BASEBOARD_INFORMATION : Z := 2.
Definition EFI_SMBIOS_TYPE_SYSTEM_ENCLOSURE : Z := 3.
Definition EFI_SMBIOS_TYPE_PROCESSOR_INFORMATION : Z := 4.
Definition EFI_SMBIOS_TYPE_CACHE_INFORMATION : Z := 7.
Definition EFI_SMBIOS_TYPE_PORT_CONNECTOR_INFORMATION : Z := 8.
Definition EFI_SMBIOS_TYPE_PHYSICAL_MEMORY_ARRAY : Z := 16.
Definition EFI_SMBIOS_TYPE_MEMORY_DEVICE : Z := 17.
Definition EFI_SMBIOS_TYPE_MEMORY_ARRAY_MAPPED_ADDRESS : Z := 19.
Definition EFI_SMBIOS_TYPE_SYSTEM_BOOT_INFORMATION : Z := 32.

(** One value of an initializer: a number, the number of a string of the table,
    the handle of a table, a symbol of SmBios.h, or a nested initializer. *)
Inductive FIELD :=
  | Num (v : Z)
  | Str (n : Z)
  | Hnd (h : Z)
  | Sym (name : string)
  | Sub (fs : list FIELD).

(** A table: its header's type and handle, the values after the header, and the
    array that holds its strings. *)
Record TABLE := mkTable { Type_ : Z; Handle : Z; Base : list FIELD; Strings : list Z }.

(** The nth number as a list of fields. *)
Definition Nums (l : list Z) : FIELD := Sub (List.map Num l).

(** An array initialized by a literal: the implicit NUL is its last byte. *)
Definition array (literal : list Z) : list Z := literal ++ [0].

Section Tables.
(** __DATE__, as the compiler expands it. *)
Variable DATE : list Z.

Definition TYPE0_STRINGS : list Z := lit "MikroTik" ++ lit "2026.325.2012" ++ (DATE ++ [0]).
Definition TYPE1_STRINGS : list Z :=
  lit "MikroTik" ++ lit "CCR2004-1G-2XS-PCIe" ++ lit "1.0" ++ lit "Not Set" ++ lit "CCR2004-1G-2XS-PCIe" ++
  lit "Cloud Core Router".
Definition TYPE2_STRINGS : list Z :=
  lit "MikroTik" ++ lit "CCR2004-1G-2XS-PCIe" ++ lit "1.0" ++ lit "Not Set" ++ lit "Not Set" ++ lit "PCIe Slot".
Definition TYPE3_STRINGS : list Z := lit "MikroTik" ++ lit "1.0" ++ lit "Not Set" ++ lit "Not Set".
Definition TYPE4_STRINGS : list Z :=
  lit "SoC" ++ lit "Annapurna Labs" ++ lit "Alpine V2 AL52400" ++ lit "Not Set" ++ lit "Not Set" ++ lit "AL52400".
Definition TYPE7_L1I_STRINGS : list Z := lit "L1 Instruction Cache".
Definition TYPE7_L1D_STRINGS : list Z := lit "L1 Data Cache".
Definition TYPE7_L2_STRINGS : list Z := lit "L2 Cache".
Definition TYPE8_ETH_STRINGS : list Z := lit "Ethernet 1GbE" ++ lit "1GbE RJ45".
Definition TYPE8_SFP1_STRINGS : list Z := lit "SFP28 Port 1" ++ lit "25GbE SFP28".
Definition TYPE8_SFP2_STRINGS : list Z := lit "SFP28 Port 2" ++ lit "25GbE SFP28".
Definition TYPE16_STRINGS : list Z := [0].
Definition TYPE17_STRINGS : list Z :=
  lit "Onboard" ++ lit "Bank 0" ++ lit "Not Set" ++ lit "Not Set" ++ lit "Not Set" ++ lit "Not Set".
Definition TYPE19_STRINGS : list Z := [0].
Definition TYPE32_STRINGS : list Z := [0].

Definition mType0 : TABLE :=
  mkTable EFI_SMBIOS_TYPE_BIOS_INFORMATION SMBIOS_HANDLE_PI_RESERVED
    [Str 1; Str 2; Num 0; Str 3; Num 0;
     Nums [0; 0; 0; 0; 0; 0; 0; 1; 0; 0; 0; 1; 0; 0; 0; 0; 1; 0; 0; 0; 0; 0; 0; 0; 0; 0; 0; 0; 0; 0; 0];
     Nums [0x01; 0x0C]; Num 0; Num 1; Num 0xFF; Num 0xFF] (array TYPE0_STRINGS).

Definition mType1 : TABLE :=
  mkTable EFI_SMBIOS_TYPE_SYSTEM_INFORMATION SMBIOS_HANDLE_PI_RESERVED
    [Str 1; Str 2; Str 3; Str 4;
     Sub [Num 0xCC200400; Num 0x1A2B; Num 0x3C4D; Nums [0x4D; 0x69; 0x6B; 0x72; 0x6F; 0x54; 0x69; 0x6B]];
     Sym "SystemWakeupTypePowerSwitch"; Str 5; Str 6] (array TYPE1_STRINGS).

Definition mType2 : TABLE :=
  mkTable EFI_SMBIOS_TYPE_BASEBOARD_INFORMATION SMBIOS_HANDLE_MOTHERBOARD
    [Str 1; Str 2; Str 3; Str 4; Str 5; Nums [1; 0; 0; 0; 0; 0]; Str 6; Hnd SMBIOS_HANDLE_CHASSIS;
     Sym "BaseBoardTypeProcessorMemoryModule"; Num 0; Nums [0]] (array TYPE2_STRINGS).

Definition mType3 : TABLE :=
  mkTable EFI_SMBIOS_TYPE_SYSTEM_ENCLOSURE SMBIOS_HANDLE_CHASSIS
    [Str 1; Sym "MiscChassisTypeOther"; Str 2; Str 3; Str 4; Sym "ChassisStateSafe"; Sym "ChassisStateSafe";
     Sym "ChassisStateSafe"; Sym "ChassisSecurityStatusNone"; Nums [0; 0; 0; 0]; Num 0; Num 0; Num 0; Num 0;
     Sub [Nums [0; 0; 0]]] (array TYPE3_STRINGS).

Definition mType4 : TABLE :=
  mkTable EFI_SMBIOS_TYPE_PROCESSOR_INFORMATION SMBIOS_HANDLE_PROCESSOR
    [Str 1; Sym "CentralProcessor"; Sym "ProcessorFamilyIndicatorFamily2"; Str 2; Nums [0; 0; 0; 0]; Str 3;
     Nums [0; 0; 0; 0; 0; 0]; Num 0; Num 1500; Num 1500; Num 0x41; Sym "ProcessorUpgradeNone";
     Hnd SMBIOS_HANDLE_L1D; Hnd SMBIOS_HANDLE_L1I; Hnd SMBIOS_HANDLE_L2; Str 4; Str 5; Str 6;
     Num 4; Num 4; Num 4; Num 0x00EC; Sym "ProcessorFamilyARMv8"; Num 4; Num 4; Num 4] (array TYPE4_STRINGS).

Definition mType7L1I : TABLE :=
  mkTable EFI_SMBIOS_TYPE_CACHE_INFORMATION SMBIOS_HANDLE_L1I
    [Str 1; Num 0x0180; Nums [48; 0]; Nums [48; 0]; Nums [0; 0; 0; 0; 0; 1; 0; 0]; Nums [0; 0; 0; 0; 0; 1; 0; 0];
     Num 0; Sym "CacheErrorParity"; Sym "CacheTypeInstruction"; Sym "CacheAssociativity4Way"] (array TYPE7_L1I_STRINGS).

Definition mType7L1D : TABLE :=
  mkTable EFI_SMBIOS_TYPE_CACHE_INFORMATION SMBIOS_HANDLE_L1D
    [Str 1; Num 0x0180; Nums [32; 0]; Nums [32; 0]; Nums [0; 0; 0; 0; 0; 1; 0; 0]; Nums [0; 0; 0; 0; 0; 1; 0; 0];
     Num 0; Sym "CacheErrorSingleBit"; Sym "CacheTypeData"; Sym "CacheAssociativity2Way"] (array TYPE7_L1D_STRINGS).

Definition mType7L2 : TABLE :=
  mkTable EFI_SMBIOS_TYPE_CACHE_INFORMATION SMBIOS_HANDLE_L2
    [Str 1; Num 0x0281; Nums [1024; 0]; Nums [1024; 0]; Nums [0; 0; 0; 0; 0; 1; 0; 0]; Nums [0; 0; 0; 0; 0; 1; 0; 0];
     Num 0; Sym "CacheErrorSingleBit"; Sym "CacheTypeUnified"; Sym "CacheAssociativity16Way"] (array TYPE7_L2_STRINGS).

Definition mType8Eth : TABLE :=
  mkTable EFI_SMBIOS_TYPE_PORT_CONNECTOR_INFORMATION SMBIOS_HANDLE_PI_RESERVED
    [Str 1; Sym "PortConnectorTypeNone"; Str 2; Sym "PortConnectorTypeRJ45"; Sym "PortTypeNetworkPort"]
    (array TYPE8_ETH_STRINGS).

Definition mType8Sfp1 : TABLE :=
  mkTable EFI_SMBIOS_TYPE_PORT_CONNECTOR_INFORMATION SMBIOS_HANDLE_PI_RESERVED
    [Str 1; Sym "PortConnectorTypeNone"; Str 2; Sym "PortConnectorTypeOther"; Sym "PortTypeNetworkPort"]
    (array TYPE8_SFP1_STRINGS).

Definition mType8Sfp2 : TABLE :=
  mkTable EFI_SMBIOS_TYPE_PORT_CONNECTOR_INFORMATION SMBIOS_HANDLE_PI_RESERVED
    [Str 1; Sym "PortConnectorTypeNone"; Str 2; Sym "PortConnectorTypeOther"; Sym "PortTypeNetworkPort"]
    (array TYPE8_SFP2_STRINGS).

Definition mType16 : TABLE :=
  mkTable EFI_SMBIOS_TYPE_PHYSICAL_MEMORY_ARRAY SMBIOS_HANDLE_MEMORY
    [Sym "MemoryArrayLocationSystemBoard"; Sym "MemoryArrayUseSystemMemory"; Sym "MemoryErrorCorrectionSingleBitEcc";
     Num 0x400000; Num 0xFFFE; Num 1] (array TYPE16_STRINGS).

Definition mType17 : TABLE :=
  mkTable EFI_SMBIOS_TYPE_MEMORY_DEVICE SMBIOS_HANDLE_DIMM
    [Hnd SMBIOS_HANDLE_MEMORY; Num 0xFFFE; Num 72; Num 64; Num 0x1000; Sym "MemoryFormFactorChip"; Num 0;
     Str 1; Str 2; Sym "MemoryTypeDdr4"; Nums [0; 0; 0; 0; 0; 0; 0; 0; 0; 0; 0; 0; 0; 0; 0; 0]; Num 2400;
     Str 3; Str 4; Str 5; Str 6; Num 0; Num 0x1000; Num 2400; Num 1200; Num 1200; Num 1200] (array TYPE17_STRINGS).

Definition mType19 : TABLE :=
  mkTable EFI_SMBIOS_TYPE_MEMORY_ARRAY_MAPPED_ADDRESS SMBIOS_HANDLE_PI_RESERVED
    [Num 0x00000000; Num 0x003FFFFF; Hnd SMBIOS_HANDLE_MEMORY; Num 1; Num 0; Num 0] (array TYPE19_STRINGS).

Definition mType32 : TABLE :=
  mkTable EFI_SMBIOS_TYPE_SYSTEM_BOOT_INFORMATION SMBIOS_HANDLE_PI_RESERVED
    [Nums [0; 0; 0; 0; 0; 0]; Sym "BootInformationStatusNoError"] (array TYPE32_STRINGS).

(** The list, without the NULL that ends it. *)
Definition mSmbiosTables : list TABLE :=
  [mType0; mType1; mType2; mType3; mType4; mType7L1I; mType7L1D; mType7L2; mType8Eth; mType8Sfp1; mType8Sfp2;
   mType16; mType17; mType19; mType32].
End Tables.

(** ** A table in memory *)

(** SMBIOS_TABLE_TYPEn of SmBios.h: its size, and the bytes that an initializer
    gives to what follows the header. *)
Class SmBiosLayout := {
  sizeof_table : Z → Z;
  image : Z → list FIELD → list Z;
  sizeof_fits ty : 4 <= sizeof_table ty < 256;
  image_size ty fs : len (image ty fs) = sizeof_table ty - 4
}.

(** EFI_SMBIOS_TABLE_HEADER, the rest of the structure, and the strings. *)
Definition raw `{SmBiosLayout} (t : TABLE) : list Z :=
  [Type_ t; sizeof_table (Type_ t)] ++ le_bytes 2 (Handle t) ++ image (Type_ t) (Base t) ++ Strings t.

(** What a reader of the tables finds: the strings up to the empty one, which
    stands twice when there is none. *)
Fixpoint strings_from (cur l : list Z) {struct l} : option (list (list Z) * list Z) :=
  match l with
  | [] => None
  | c :: l' =>
      if c =? 0 then
        match cur with
        | [] => Some ([], l')
        | _ => '(ss, r) ← strings_from [] l'; Some (cur :: ss, r)
        end
      else strings_from (cur ++ [c]) l'
  end.

Definition parse_string_set (l : list Z) : option (list (list Z) * list Z) :=
  match l with
  | 0 :: 0 :: r => Some ([], r)
  | 0 :: _ => None
  | _ => strings_from [] l
  end.

(** The type, the bytes after the header, and the strings with what follows them. *)
Definition parse_raw (b : list Z) : option (Z * list Z * (list (list Z) * list Z)) :=
  ty ← rd b 0;
  n ← rd b 1;
  body ← rdn b 4 (n - 4);
  set ← parse_string_set (drop (Z.to_nat n) b);
  Some (ty, body, set).

(** ** The entry point *)

(** EFI_SMBIOS_PROTOCOL: [Add] takes the handle asked for and gives the one that
    the record has; [UpdateString] takes a handle, a string's number and a string. *)
Class SmbiosProtocol (T : Type) := {
  Add : Z → list Z → T → EFI_STATUS * Z * T;
  UpdateString : Z → Z → list Z → T → EFI_STATUS * T
}.

(** [AsciiStrCpyS] into an array on the stack: the string that the array then
    holds. A source that does not fit leaves the array as it was, uninitialized,
    and what uses it faults. *)
Definition AsciiStrCpyS (DestMax : Z) (Source : list Z) : option (list Z) :=
  n ← AsciiStrLen Source;
  if n <? DestMax then rdn Source 0 n else None.

Section Entry.
Context {T : Type} `{SmBiosLayout, SmbiosProtocol T}.
Variable DATE : list Z.

(** The loop over the tables, with Type1Handle and Type2Handle. *)
Fixpoint add_loop (tables : list TABLE) (Type1Handle Type2Handle : Z) (t : T) : Z * Z * T :=
  match tables with
  | [] => (Type1Handle, Type2Handle, t)
  | tb :: rest =>
      let '(Status, SmbiosHandle, t) := Add (Handle tb) (raw tb) t in
      if EFI_ERROR Status then (Type1Handle, Type2Handle, t)
      else if Type_ tb =? EFI_SMBIOS_TYPE_SYSTEM_INFORMATION then add_loop rest SmbiosHandle Type2Handle t
      else if Type_ tb =? EFI_SMBIOS_TYPE_BASEBOARD_INFORMATION then add_loop rest Type1Handle SmbiosHandle t
      else add_loop rest Type1Handle Type2Handle t
  end.

(** The updates of one record's strings, whose results are not looked at. *)
Definition update_strings (Handle : Z) (l : list (Z * list Z)) (t : T) : T :=
  if negb (Handle =? SMBIOS_HANDLE_PI_RESERVED)
  then foldl (λ t '(n, s), snd (UpdateString Handle n s t)) t l
  else t.

Definition SmbiosPlatformDxeEntry (Located : EFI_STATUS) (Board : EFI_STATUS * BOARD_INFO_INSTANCE) (t : T)
    : option (EFI_STATUS * T) :=
  if EFI_ERROR Located then Some (Located, t)
  else
    let '(Type1Handle, Type2Handle, t) :=
      add_loop (mSmbiosTables DATE) SMBIOS_HANDLE_PI_RESERVED SMBIOS_HANDLE_PI_RESERVED t in
    let '(Status, BoardInfo) := Board in
    if negb (EFI_ERROR Status) then
      Name ← snd (BoardInfoGetBoardName BoardInfo true);
      Serial ← snd (BoardInfoGetSerial BoardInfo true);
      NameBuf ← AsciiStrCpyS 64 Name;
      SerialBuf ← AsciiStrCpyS 32 Serial;
      let t := update_strings Type1Handle [(2, NameBuf); (4, SerialBuf); (5, NameBuf)] t in
      let t := update_strings Type2Handle [(2, NameBuf); (4, SerialBuf)] t in
      Some (EFI_SUCCESS, t)
    else Some (EFI_SUCCESS, t).
End Entry.

(** ** The string sets *)

Definition string_ok (s : list Z) : Prop := s ≠ [] ∧ Forall (λ c, c ≠ 0) s.

(** A string set as the format wants it. *)
Definition pack (ss : list (list Z)) : list Z :=
  match ss with
  | [] => [0; 0]
  | _ => concat (List.map (λ s, s ++ [0]) ss) ++ [0]
  end.

Lemma strings_from_string cur s l :
  Forall (λ c, c ≠ 0) s → strings_from cur (s ++ l) = strings_from (cur ++ s) l.
Proof.
  intros F. revert cur. induction F as [|c s Hc F IH]; intros cur; [by rewrite app_nil_r|].
  cbn [app strings_from]. rewrite (proj2 (Z.eqb_neq c 0)) by done. by rewrite IH, <- app_assoc.
Qed.

Lemma strings_from_concat ss r :
  Forall string_ok ss → strings_from [] (concat (List.map (λ s, s ++ [0]) ss) ++ 0 :: r) = Some (ss, r).
Proof.
  induction 1 as [|s ss [Hs F] _ IH]; [done|]. cbn [List.map concat]. rewrite <- !app_assoc.
  rewrite strings_from_string by done. cbn [app strings_from]. cbn [Z.eqb]. destruct s as [|c s]; [done|].
  by rewrite IH.
Qed.

(** Reading back a packed set. *)
Lemma pack_parse ss r : Forall string_ok ss → parse_string_set (pack ss ++ r) = Some (ss, r).
Proof.
  intros F. destruct ss as [|s ss]; [done|]. pose proof (strings_from_concat (s :: ss) r F) as E.
  unfold pack. rewrite <- app_assoc. cbn [app]. inversion F as [|? ? [Hs Fs] _]; subst.
  destruct s as [|c s]; [done|]. inversion Fs; subst. cbn [List.map concat app] in E |- *.
  unfold parse_string_set. destruct c; [done|exact E..].
Qed.

Fixpoint field_refs (f : FIELD) : list Z :=
  match f with Str n => [n] | Sub fs => flat_map field_refs fs | _ => [] end.
Fixpoint field_handles (f : FIELD) : list Z :=
  match f with Hnd h => [h] | Sub fs => flat_map field_handles fs | _ => [] end.

(** A table is sound: its array is one string set, and its fields name the strings
    1, 2, 3 and so on, each once. *)
Definition table_ok (t : TABLE) (ss : list (list Z)) : Prop :=
  0 <= Type_ t < 256 ∧ Forall string_ok ss ∧ Strings t = pack ss ∧
  flat_map field_refs (Base t) = List.map Z.of_nat (seq 1 (length ss)).

(** The strings of the tables. *)
Definition board_strings (DATE : list Z) : list (list (list Z)) :=
  let w := List.map chars in
  [[chars "MikroTik"; chars "2026.325.2012"; DATE];
   w ["MikroTik"; "CCR2004-1G-2XS-PCIe"; "1.0"; "Not Set"; "CCR2004-1G-2XS-PCIe"; "Cloud Core Router"]%string;
   w ["MikroTik"; "CCR2004-1G-2XS-PCIe"; "1.0"; "Not Set"; "Not Set"; "PCIe Slot"]%string;
   w ["MikroTik"; "1.0"; "Not Set"; "Not Set"]%string;
   w ["SoC"; "Annapurna Labs"; "Alpine V2 AL52400"; "Not Set"; "Not Set"; "AL52400"]%string;
   w ["L1 Instruction Cache"]%string; w ["L1 Data Cache"]%string; w ["L2 Cache"]%string;
   w ["Ethernet 1GbE"; "1GbE RJ45"]%string; w ["SFP28 Port 1"; "25GbE SFP28"]%string;
   w ["SFP28 Port 2"; "25GbE SFP28"]%string; [];
   w ["Onboard"; "Bank 0"; "Not Set"; "Not Set"; "Not Set"; "Not Set"]%string; []; []].

Definition string_okb (s : list Z) : bool := bool_decide (s ≠ []) && forallb (λ c, negb (c =? 0)) s.

Lemma string_okb_spec s : string_okb s = true → string_ok s.
Proof.
  intros [E F]%andb_prop. split; [by apply bool_decide_eq_true in E|]. rewrite forallb_forall in F.
  apply list.Forall_forall. intros c Hc. apply list_elem_of_In, F in Hc. by destruct (Z.eqb_spec c 0).
Qed.

Lemma strings_okb_spec ss : forallb string_okb ss = true → Forall string_ok ss.
Proof.
  intros F. rewrite forallb_forall in F. apply list.Forall_forall. intros s Hs.
  by apply string_okb_spec, F, list_elem_of_In.
Qed.

Lemma tables_sound DATE : string_ok DATE → Forall2 table_ok (mSmbiosTables DATE) (board_strings DATE).
Proof.
  intros D. unfold mSmbiosTables, board_strings. apply Forall2_cons.
  - split_and!; [vm_compute; congruence..| | |reflexivity].
    + do 2 (apply Forall_cons; [by apply string_okb_spec|]). by apply Forall_cons.
    + cbn [Strings mType0]. unfold array, TYPE0_STRINGS, pack, lit. cbn [List.map concat].
      by rewrite ?app_nil_r, <- ?app_assoc.
  - repeat (apply Forall2_cons;
      [split_and!; [vm_compute; congruence..|by apply strings_okb_spec|reflexivity|reflexivity]|]).
    done.
Qed.

(** Handles: the tables that ask for one ask for different ones, and every handle
    in a field is that of a table of the type the field is for. *)
Definition own_handles (ts : list TABLE) : list Z :=
  List.filter (λ h, negb (h =? SMBIOS_HANDLE_PI_RESERVED)) (List.map Handle ts).

Lemma handles_distinct DATE : NoDup (own_handles (mSmbiosTables DATE)).
Proof. apply (bool_decide_unpack _). by vm_compute. Qed.

Definition handle_types (ts : list TABLE) (t : TABLE) : list (option Z) :=
  List.map (λ h, option_map Type_ (List.find (λ t', Handle t' =? h) ts)) (flat_map field_handles (Base t)).

(** The board is in the chassis, the processor has the three caches, and the
    memory device and the address range belong to the memory array. *)
Lemma handles_resolve DATE :
  List.map (λ t, (Type_ t, handle_types (mSmbiosTables DATE) t))
    (List.filter (λ t, negb (bool_decide (flat_map field_handles (Base t) = []))) (mSmbiosTables DATE)) =
  [(EFI_SMBIOS_TYPE_BASEBOARD_INFORMATION, [Some EFI_SMBIOS_TYPE_SYSTEM_ENCLOSURE]);
   (EFI_SMBIOS_TYPE_PROCESSOR_INFORMATION, repeat (Some EFI_SMBIOS_TYPE_CACHE_INFORMATION) 3);
   (EFI_SMBIOS_TYPE_MEMORY_DEVICE, [Some EFI_SMBIOS_TYPE_PHYSICAL_MEMORY_ARRAY]);
   (EFI_SMBIOS_TYPE_MEMORY_ARRAY_MAPPED_ADDRESS, [Some EFI_SMBIOS_TYPE_PHYSICAL_MEMORY_ARRAY])].
Proof. reflexivity. Qed.

Lemma raw_parse `{SmBiosLayout} t ss :
  table_ok t ss → parse_raw (raw t) = Some (Type_ t, image (Type_ t) (Base t), (ss, [])).
Proof.
  intros (_ & F & E & _). pose proof (sizeof_fits (Type_ t)) as R. pose proof (image_size (Type_ t) (Base t)) as S.
  unfold parse_raw, raw. set (n := sizeof_table (Type_ t)) in *.
  change (rd ([Type_ t; n] ++ ?x) 0) with (Some (Type_ t)). change (rd ([Type_ t; n] ++ ?x) 1) with (Some n).
  cbn [mbind option_bind].
  set (pre := [Type_ t; n] ++ le_bytes 2 (Handle t)). assert (length pre = 4%nat) as P by done.
  change ([Type_ t; n] ++ le_bytes 2 (Handle t) ++ ?x) with (pre ++ x).
  rewrite rdn_eq by (rewrite ?length_app; lia). cbn [mbind option_bind].
  rewrite drop_app_length' by (rewrite P; lia). rewrite take_app_length' by lia.
  rewrite app_assoc, drop_app_length' by (rewrite length_app; lia).
  rewrite E, <- (app_nil_r (pack ss)), pack_parse by done. done.
Qed.

(** ** The protocol's promises *)

Record SM_REC := mkRec { rec_handle : Z; rec_type : Z; rec_body : list Z; rec_strings : list (list Z) }.

(** Replacing string [n] of the record with a handle. *)
Definition set_string (h n : Z) (s : list Z) (l : list SM_REC) : list SM_REC :=
  List.map (λ r, if rec_handle r =? h
    then mkRec (rec_handle r) (rec_type r) (rec_body r) (<[Z.to_nat (n - 1) := s]> (rec_strings r)) else r) l.

(** The SMBIOS protocol of the PI specification. A record is added with its
    strings or not at all, with the handle asked for or, for the reserved one, an
    unused handle; an update replaces one string or nothing. While there is [room]
    operations with sound arguments succeed, and handles are given out from the
    bottom. *)
Class SmbiosLaws (T : Type) `{SmbiosProtocol T} := {
  records : T → list SM_REC;
  room : nat → T → Prop;
  Add_law h b ty body ss r t : parse_raw b = Some (ty, body, (ss, r)) →
    ∃ st h' t', Add h b t = (st, h', t') ∧
      ((st = EFI_SUCCESS ∧ h' ≠ SMBIOS_HANDLE_PI_RESERVED ∧ h' ∉ List.map rec_handle (records t) ∧
        (h ≠ SMBIOS_HANDLE_PI_RESERVED → h' = h) ∧ records t' = records t ++ [mkRec h' ty body ss]) ∨
       (EFI_ERROR st = true ∧ records t' = records t)) ∧
      ∀ n, room (S n) t →
        h = SMBIOS_HANDLE_PI_RESERVED ∨ 0x1000 <= h ∧ h ∉ List.map rec_handle (records t) →
        st = EFI_SUCCESS ∧ room n t' ∧ (h = SMBIOS_HANDLE_PI_RESERVED → 0 <= h' < 0x1000);
  Update_law h n s t : ∃ st t', UpdateString h n s t = (st, t') ∧
      ((st = EFI_SUCCESS ∧ records t' = set_string h n s (records t)) ∨
       (EFI_ERROR st = true ∧ records t' = records t)) ∧
      ∀ k r, room (S k) t → r ∈ records t → rec_handle r = h → 1 <= n <= Z.of_nat (length (rec_strings r)) →
        s ≠ [] → len s <= 64 → st = EFI_SUCCESS ∧ room k t'
}.

(** The record of a table. *)
Definition record_of `{SmBiosLayout} (h : Z) (ts : TABLE * list (list Z)) : SM_REC :=
  mkRec h (Type_ (fst ts)) (image (Type_ (fst ts)) (Base (fst ts))) (snd ts).

(** A board's name and serial number in the records of types 1 and 2. *)
Definition renamed (name serial : list Z) (r : SM_REC) : SM_REC :=
  mkRec (rec_handle r) (rec_type r) (rec_body r)
    (if rec_type r =? EFI_SMBIOS_TYPE_SYSTEM_INFORMATION
     then <[4%nat := name]> (<[3%nat := serial]> (<[1%nat := name]> (rec_strings r)))
     else if rec_type r =? EFI_SMBIOS_TYPE_BASEBOARD_INFORMATION
     then <[3%nat := serial]> (<[1%nat := name]> (rec_strings r))
     else rec_strings r).

Lemma set_string_notin h n s l : h ∉ List.map rec_handle l → set_string h n s l = l.
Proof.
  intros N. induction l as [|r l IH]; [done|]. cbn [set_string List.map] in *.
  apply not_elem_of_cons in N as [Hr Hl]. rewrite (proj2 (Z.eqb_neq _ _)) by congruence. f_equal. by apply IH.
Qed.

Lemma set_string_at h n s l1 r l2 :
  rec_handle r = h → NoDup (List.map rec_handle (l1 ++ r :: l2)) →
  set_string h n s (l1 ++ r :: l2) =
    l1 ++ mkRec h (rec_type r) (rec_body r) (<[Z.to_nat (n - 1) := s]> (rec_strings r)) :: l2.
Proof.
  intros E N. rewrite map_app in N. apply list.NoDup_app in N as (_ & D & [N _]%list.NoDup_cons). rewrite E in N.
  unfold set_string. rewrite map_app. fold (set_string h n s l1). cbn [List.map]. fold (set_string h n s l2).
  rewrite E, Z.eqb_refl, !set_string_notin; [done..|].
  intros K. apply (D _ K). cbn. rewrite E. left.
Qed.

Section Laws.
Context {T : Type} `{SmBiosLayout, SmbiosLaws T}.
Variable DATE : list Z.
Implicit Types t : T.

Abbreviation handles t := (List.map rec_handle (records t)).

(** The handles that the loop remembers. *)
Definition pick (p : Z * Z) (a : Z * TABLE) : Z * Z :=
  if Type_ (snd a) =? EFI_SMBIOS_TYPE_SYSTEM_INFORMATION then (fst a, snd p)
  else if Type_ (snd a) =? EFI_SMBIOS_TYPE_BASEBOARD_INFORMATION then (fst p, fst a) else p.

(** The tables still to be added fit: with room for them, what they ask for is
    free. *)
Definition fits (tables : list TABLE) k t : Prop :=
  NoDup (own_handles tables) ∧ Forall (λ h, 0x1000 <= h) (own_handles tables) ∧
  (∀ h, h ∈ own_handles tables → h ∉ handles t) ∧ room (length tables + k) t.

Lemma own_handles_cons tb l :
  own_handles (tb :: l) = if Handle tb =? SMBIOS_HANDLE_PI_RESERVED then own_handles l else Handle tb :: own_handles l.
Proof. unfold own_handles. cbn [List.map List.filter]. by destruct (_ =? _). Qed.

Lemma fits_head tb rest k t :
  fits (tb :: rest) k t →
  Handle tb = SMBIOS_HANDLE_PI_RESERVED ∨ 0x1000 <= Handle tb ∧ Handle tb ∉ handles t.
Proof.
  intros (_ & F & D & _). rewrite own_handles_cons in F, D.
  destruct (Z.eqb_spec (Handle tb) SMBIOS_HANDLE_PI_RESERVED) as [E|E]; [by left|right].
  apply list.Forall_cons in F as [F _]. split; [done|]. apply D. left.
Qed.

Lemma fits_step tb rest k t t' h' r :
  fits (tb :: rest) k t → rec_handle r = h' → records t' = records t ++ [r] → room (length rest + k) t' →
  (Handle tb ≠ SMBIOS_HANDLE_PI_RESERVED → h' = Handle tb) → (Handle tb = SMBIOS_HANDLE_PI_RESERVED → 0 <= h' < 0x1000) →
  fits rest k t'.
Proof.
  intros (N & F & D & _) Er Et R Own Low. unfold fits. rewrite Et, map_app. cbn [List.map]. rewrite Er.
  rewrite own_handles_cons in N, F, D.
  assert (∀ h, h ∈ own_handles rest → h ∉ handles t → h ≠ h' → h ∉ handles t ++ [h']) as K.
  { intros h _ K1 K2. rewrite elem_of_app, list_elem_of_singleton. tauto. }
  destruct (Z.eqb_spec (Handle tb) SMBIOS_HANDLE_PI_RESERVED) as [E|E].
  - split_and!; [done..| |done]. intros h Hh. apply K; [done|by apply D|].
    rewrite list.Forall_forall in F. specialize (F h Hh). specialize (Low E). lia.
  - apply list.NoDup_cons in N as [N1 N]. apply list.Forall_cons in F as [_ F]. split_and!; [done..| |done].
    intros h Hh. apply K; [done|apply D; by right|]. rewrite (Own E). by intros ->.
Qed.

(** The loop adds the first tables, in order and under different handles; all of
    them when they fit. *)
Lemma add_loop_run tables sss k t p :
  Forall2 table_ok tables sss → NoDup (handles t) →
  ∃ hs t', add_loop tables (fst p) (snd p) t = (foldl pick p (zip hs tables), t') ∧
    (length hs <= length tables)%nat ∧
    Forall2 (λ h tb, h ≠ SMBIOS_HANDLE_PI_RESERVED ∧ (Handle tb ≠ SMBIOS_HANDLE_PI_RESERVED → h = Handle tb))
      hs (take (length hs) tables) ∧
    records t' = records t ++ zip_with record_of hs (zip tables sss) ∧ NoDup (handles t') ∧
    (fits tables k t → length hs = length tables ∧ room k t').
Proof.
  intros F. revert p t. induction F as [|tb ss tables sss Hok F IH]; intros p t N.
  { exists [], t. cbn. rewrite app_nil_r. split_and!; [by destruct p|lia|constructor|done..|]. by intros (_ & _ & _ & R). }
  cbn [add_loop].
  destruct (Add_law (Handle tb) (raw tb) _ _ _ _ t (raw_parse tb ss Hok)) as (st & h' & t1 & -> & Hcase & Hroom).
  destruct Hcase as [(-> & Hres & Hnew & Hown & Ht1)|[Herr Ht1]].
  - cbn [EFI_ERROR].
    assert (add_loop tables (fst (pick p (h', tb))) (snd (pick p (h', tb))) t1 =
      (if Type_ tb =? EFI_SMBIOS_TYPE_SYSTEM_INFORMATION then add_loop tables h' (snd p) t1
       else if Type_ tb =? EFI_SMBIOS_TYPE_BASEBOARD_INFORMATION then add_loop tables (fst p) h' t1
       else add_loop tables (fst p) (snd p) t1)) as <-.
    { unfold pick. cbn [fst snd]. by repeat destruct (_ =? _). }
    assert (NoDup (handles t1)) as N1.
    { rewrite Ht1, map_app. apply list.NoDup_app. cbn [List.map rec_handle]. split_and!; [done| |by apply NoDup_singleton].
      intros x Hx ->%list_elem_of_singleton. done. }
    destruct (IH (pick p (h', tb)) t1 N1) as (hs & t' & E & Hl & Hh & Hr & N' & Hfit).
    exists (h' :: hs), t'. cbn [zip_with zip foldl take length]. split_and!; [exact E|lia|by constructor| |done|].
    + rewrite Hr, Ht1, <- app_assoc. reflexivity.
    + intros Fit. pose proof Fit as (_ & _ & _ & R). cbn [length Nat.add] in R.
      destruct (Hroom _ R) as (_ & R1 & Low).
      { by eapply fits_head. }
      destruct Hfit as [-> R']; [|by split].
      eapply fits_step; [exact Fit| |exact Ht1|done|done|done]. done.
  - rewrite Herr. exists [], t1. cbn. rewrite Ht1, app_nil_r.
    split_and!; [by destruct p|lia|constructor|done..|]. intros Fit. pose proof Fit as (_ & _ & _ & R).
    cbn [length Nat.add] in R. destruct (Hroom _ R) as (-> & _); [by eapply fits_head|done].
Qed.

(** *** Updates *)

Definition shape (r : SM_REC) : Z * Z * list Z := (rec_handle r, rec_type r, rec_body r).

Lemma shape_set_string h n s l : List.map shape (set_string h n s l) = List.map shape l.
Proof. unfold set_string. rewrite List.map_map. apply List.map_ext. intros r. by destruct (_ =? _). Qed.

(** Updates change strings only. *)
Lemma update_strings_shape h upds t : List.map shape (records (update_strings h upds t)) = List.map shape (records t).
Proof.
  unfold update_strings. destruct (negb _); [|done]. revert t. induction upds as [|[n s] upds IH]; intros t; [done|].
  cbn [foldl]. rewrite IH. destruct (Update_law h n s t) as (st & t' & -> & [[_ E]|[_ E]] & _); cbn [snd]; rewrite E;
    [apply shape_set_string|done].
Qed.

Lemma shape_handles l1 l2 : List.map shape l1 = List.map shape l2 → List.map rec_handle l1 = List.map rec_handle l2.
Proof.
  intros E. assert (∀ l, List.map rec_handle l = List.map (λ x, fst (fst x)) (List.map shape l)) as K
    by (intros l; by rewrite List.map_map).
  by rewrite !K, E.
Qed.

Definition set_strings (ss : list (list Z)) (upds : list (Z * list Z)) : list (list Z) :=
  foldl (λ ss '(n, s), <[Z.to_nat (n - 1) := s]> ss) ss upds.

(** With room, each of them happens. *)
Lemma update_strings_run h upds k t l1 r l2 :
  h ≠ SMBIOS_HANDLE_PI_RESERVED → records t = l1 ++ r :: l2 → rec_handle r = h → NoDup (handles t) →
  room (length upds + k) t →
  Forall (λ '(n, s), 1 <= n <= Z.of_nat (length (rec_strings r)) ∧ s ≠ [] ∧ len s <= 64) upds →
  records (update_strings h upds t) =
    l1 ++ mkRec h (rec_type r) (rec_body r) (set_strings (rec_strings r) upds) :: l2 ∧
  room k (update_strings h upds t).
Proof.
  intros Hh Er Eh N R F. unfold update_strings. rewrite (proj2 (Z.eqb_neq _ _)) by done. cbn [negb].
  revert t r Er Eh N R F. induction upds as [|[n s] upds IH]; intros t r Er Eh N R F.
  { cbn. split; [|done]. rewrite Er, <- Eh. by destruct r. }
  apply list.Forall_cons in F as [(Hn & Hs & Hl) F]. cbn [foldl].
  destruct (Update_law h n s t) as (st & t' & -> & Hcase & Hroom). cbn [snd].
  destruct (Hroom (length upds + k)%nat r R) as [-> R']; [rewrite Er; set_solver|done..|].
  destruct Hcase as [[_ E]|[? _]]; [|done].
  assert (N2 := N). rewrite Er in N2. rewrite Er, (set_string_at h n s l1 r l2 Eh N2) in E.
  assert (List.map rec_handle (records t') = List.map rec_handle (records t)) as EH.
  { rewrite E, Er, !map_app. cbn [List.map rec_handle]. by rewrite Eh. }
  apply (IH t' _ E); [done|by rewrite EH|done|].
  cbn [rec_strings]. rewrite length_insert. exact F.
Qed.

(** *** The entry point *)

(** Handles below 0x1008 from 0x1000 on are the driver's own. *)
Definition unused t : Prop := ∀ h, 0x1000 <= h <= 0x1007 → h ∉ handles t.

Definition new_records (hs : list Z) : list SM_REC :=
  zip_with record_of hs (zip (mSmbiosTables DATE) (board_strings DATE)).

Lemma cstr_length a : len (cstr a) <= len a.
Proof. induction a as [|c a IH]; cbn [cstr]; [done|]. destruct (c =? 0); cbn [length]; lia. Qed.

Lemma AsciiStrCpyS_fits Max a : 0 ∈ a → len a = Max → AsciiStrCpyS Max a = Some (cstr a).
Proof.
  intros Z0 L. unfold AsciiStrCpyS. rewrite AsciiStrLen_cstr by done. cbn [mbind option_bind].
  destruct (cstr_prefix_nul a Z0) as [tl E]. assert (len a = len (cstr a) + 1 + len tl) as EL.
  { rewrite E at 1. rewrite length_app. cbn [length]. lia. }
  rewrite (proj2 (Z.ltb_lt _ _)) by lia. rewrite rdn_eq by lia. f_equal. rewrite E at 2. rewrite drop_0, take_app_length'; [done|lia].
Qed.

(** The updates of the records of types 1 and 2. *)
Lemma update_two n s t pre r1 r2 post :
  records t = pre ++ r1 :: r2 :: post → NoDup (handles t) → room 5 t →
  n ≠ [] → s ≠ [] → len n <= 64 → len s <= 64 →
  rec_handle r1 ≠ SMBIOS_HANDLE_PI_RESERVED → rec_handle r2 ≠ SMBIOS_HANDLE_PI_RESERVED →
  rec_type r1 = EFI_SMBIOS_TYPE_SYSTEM_INFORMATION → rec_type r2 = EFI_SMBIOS_TYPE_BASEBOARD_INFORMATION →
  length (rec_strings r1) = 6%nat → length (rec_strings r2) = 6%nat →
  records (update_strings (rec_handle r2) [(2, n); (4, s)]
    (update_strings (rec_handle r1) [(2, n); (4, s); (5, n)] t)) = pre ++ renamed n s r1 :: renamed n s r2 :: post.
Proof.
  intros Er N R Hn Hs Ln Ls H1' H2' T1 T2 S1 S2.
  destruct (update_strings_run (rec_handle r1) [(2, n); (4, s); (5, n)] 2 t pre r1 (r2 :: post) H1' Er eq_refl N R)
    as [E1 R1]; [repeat constructor; rewrite ?S1; (done || lia)|].
  set (t1 := update_strings _ _ t) in *.
  assert (NoDup (handles t1)) as N1.
  { rewrite E1, map_app. rewrite Er, map_app in N. exact N. }
  rewrite cons_middle, app_assoc in E1.
  destruct (update_strings_run (rec_handle r2) [(2, n); (4, s)] 0 t1 _ r2 post H2' E1 eq_refl N1 R1)
    as [E2 _]; [repeat constructor; rewrite ?S2; (done || lia)|].
  rewrite E2, <- app_assoc. unfold renamed. rewrite T1, T2. reflexivity.
Qed.

Lemma Smbios_run Located Board t :
  string_ok DATE → info_ok (snd Board) → NoDup (handles t) →
  ∃ st t', SmbiosPlatformDxeEntry DATE Located Board t = Some (st, t') ∧
    (EFI_ERROR Located = true → st = Located ∧ t' = t) ∧
    (EFI_ERROR Located = false → st = EFI_SUCCESS ∧
      ∃ hs, (length hs <= 15)%nat ∧
        Forall2 (λ h tb, h ≠ SMBIOS_HANDLE_PI_RESERVED ∧ (Handle tb ≠ SMBIOS_HANDLE_PI_RESERVED → h = Handle tb))
          hs (take (length hs) (mSmbiosTables DATE)) ∧
        List.map shape (records t') = List.map shape (records t ++ new_records hs) ∧
        (unused t → room 20 t → cstr (BoardName (snd Board)) ≠ [] → cstr (Serial (snd Board)) ≠ [] →
          length hs = 15%nat ∧
          records t' = records t ++
            if EFI_ERROR (fst Board) then new_records hs
            else List.map (renamed (cstr (BoardName (snd Board))) (cstr (Serial (snd Board)))) (new_records hs))).
Proof.
  intros D Hi N. unfold SmbiosPlatformDxeEntry. destruct (EFI_ERROR Located) eqn:EL.
  { exists Located, t. by split_and!. }
  destruct (add_loop_run _ _ 5 t (SMBIOS_HANDLE_PI_RESERVED, SMBIOS_HANDLE_PI_RESERVED) (tables_sound DATE D) N)
    as (hs & t1 & E & Hl & Hh & Hr & N1 & Hfit).
  cbn [fst snd] in E. rewrite E. clear E. fold (new_records hs) in Hr.
  assert (unused t → room 20 t → fits (mSmbiosTables DATE) 5 t) as FIT.
  { intros U R. split_and!; [apply handles_distinct| | |exact R].
    - apply list.Forall_forall. intros h Hin. vm_compute in Hin. set_unfold. lia.
    - intros h Hin. apply U. vm_compute in Hin. set_unfold. lia. }
  destruct Board as [Bst Info]. cbn [fst snd] in *. destruct Hi as (L1 & Z1 & L2 & Z2 & _).
  destruct (foldl pick _ _) as [T1 T2] eqn:EP. destruct (EFI_ERROR Bst) eqn:EB; cbn [negb].
  { exists EFI_SUCCESS, t1. split_and!; [done..|]. intros _. split; [done|]. exists hs. split_and!; [done..|by rewrite Hr|].
    intros U R _ _. destruct (Hfit (FIT U R)) as [E _]. by split. }
  cbn [BoardInfoGetBoardName BoardInfoGetSerial negb snd mbind option_bind].
  rewrite (AsciiStrCpyS_fits 64 _ Z1 L1), (AsciiStrCpyS_fits 32 _ Z2 L2). cbn [mbind option_bind].
  eexists EFI_SUCCESS, _. split; [reflexivity|]. split; [done|]. intros _. split; [done|].
  exists hs. split_and!; [done..|by rewrite !update_strings_shape, Hr|].
  intros U R Hn Hs. destruct (Hfit (FIT U R)) as [E R1]. split; [done|].
  do 15 (destruct hs as [|? hs]; [discriminate E|]). destruct hs; [|discriminate E]. clear E.
  injection EP as <- <-. set (n := cstr (BoardName Info)) in *. set (s := cstr (Serial Info)) in *.
  set (hs := [_; _; _; _; _; _; _; _; _; _; _; _; _; _; _]) in *.
  assert (new_records hs = record_of z (mType0 DATE, List.nth 0 (board_strings DATE) []) ::
    record_of z0 (mType1, List.nth 1 (board_strings DATE) []) ::
    record_of z1 (mType2, List.nth 2 (board_strings DATE) []) :: drop 3 (new_records hs)) as ER by reflexivity.
  assert (List.map (renamed n s) (drop 3 (new_records hs)) = drop 3 (new_records hs)) as ED by reflexivity.
  do 3 (apply Forall2_cons_1 in Hh as [? Hh]).
  rewrite ER. cbn [List.map]. rewrite ED.
  rewrite (update_two n s t1 (records t ++ [record_of z (mType0 DATE, List.nth 0 (board_strings DATE) [])])
    (record_of z0 (mType1, List.nth 1 (board_strings DATE) [])) (record_of z1 (mType2, List.nth 2 (board_strings DATE) []))
    (drop 3 (new_records hs))); [by rewrite <- app_assoc|..]; try done; try tauto.
  - rewrite Hr, ER, <- app_assoc. reflexivity.
  - pose proof (cstr_length (BoardName Info)). unfold n, BOARD_NAME_MAX in *. lia.
  - pose proof (cstr_length (Serial Info)). unfold s, SERIAL_MAX in *. lia.
Qed.

(** The entry point never faults, whatever the protocol answers. Without the
    protocol nothing happens; otherwise it succeeds, and what it added are the
    first tables, in order and under different handles, those that they ask for
    where they ask, with nothing but strings changed. With room and its handles
    free it added all fifteen, and the records of types 1 and 2, and no others,
    carry the board's name and serial number. *)
Theorem SmbiosEntry_exact Located Board t
  (Hdate : string_ok DATE) (Hinfo : info_ok (snd Board)) (Hnodup : NoDup (handles t)) :
  ∃ st t', SmbiosPlatformDxeEntry DATE Located Board t = Some (st, t') ∧
    (EFI_ERROR Located = true → st = Located ∧ t' = t) ∧
    (EFI_ERROR Located = false → st = EFI_SUCCESS ∧
      ∃ hs, (length hs <= 15)%nat ∧
        Forall2 (λ h tb, h ≠ SMBIOS_HANDLE_PI_RESERVED ∧ (Handle tb ≠ SMBIOS_HANDLE_PI_RESERVED → h = Handle tb))
          hs (take (length hs) (mSmbiosTables DATE)) ∧
        List.map shape (records t') = List.map shape (records t ++ new_records hs) ∧
        (unused t → room 20 t → cstr (BoardName (snd Board)) ≠ [] → cstr (Serial (snd Board)) ≠ [] →
          length hs = 15%nat ∧
          records t' = records t ++
            if EFI_ERROR (fst Board) then new_records hs
            else List.map (renamed (cstr (BoardName (snd Board))) (cstr (Serial (snd Board)))) (new_records hs))).
Proof. by apply Smbios_run. Qed.
End Laws.

(** ** From the flash to the tables *)

(** The data of the last record with a tag. *)
Definition last_data (tag : Z) (ts : list tlv) : option (list Z) :=
  foldl (λ d t, if tlv_tag t =? tag then Some (tlv_data t) else d) None ts.

Lemma last_data_name ts Info name :
  last_data RB_TAG_BOARD_NAME ts = Some name → cstr (BoardName (foldl apply_tlv Info ts)) = cstr (take 63 name).
Proof.
  unfold last_data. revert name. induction ts as [|t ts IH] using rev_ind; intros name; [done|].
  rewrite !foldl_app. cbn [foldl]. unfold apply_tlv at 1.
  destruct (Z.eqb_spec (tlv_tag t) RB_TAG_BOARD_NAME) as [E|E].
  - intros [= <-]. apply field_string.
  - intros K. apply IH in K. by repeat case_match.
Qed.

Lemma last_data_serial ts Info serial :
  last_data RB_TAG_BOARD_SERIAL ts = Some serial → cstr (Serial (foldl apply_tlv Info ts)) = cstr (take 31 serial).
Proof.
  unfold last_data. revert serial. induction ts as [|t ts IH] using rev_ind; intros serial; [done|].
  rewrite !foldl_app. cbn [foldl]. unfold apply_tlv at 1.
  destruct (Z.eqb_spec (tlv_tag t) RB_TAG_BOARD_SERIAL) as [E|E].
  - intros [= <-]. rewrite E. cbn [Z.eqb]. apply field_string.
  - intros K. apply IH in K. by repeat case_match.
Qed.

(** C39: the board's identity, from the flash to the SMBIOS tables: the name and
    the serial number of the last such records in the boot flash are strings 2
    and 5, and 4, of the system's record and strings 2 and 4 of the board's. *)
Theorem identity_reaches_smbios {T C : Type} `{SmBiosLayout, SmbiosLaws T, NorLaws C} (DATE : list Z)
    (chip : C) q ts rest name serial t
  (Hdate : string_ok DATE) (Hready : nor_ready chip = true) (Hreliable : flawless (H := C)) (Hplenty : pool_plenty q)
  (Hflash : nor_bytes (nor_mem chip) BOARD_INFO_FLASH_OFFSET 4096 = encode_block ts rest)
  (Hts : Forall tlv_ok ts) (Hrest : block_end rest)
  (Hname : last_data RB_TAG_BOARD_NAME ts = Some name) (Hserial : last_data RB_TAG_BOARD_SERIAL ts = Some serial)
  (Hname0 : cstr (take 63 name) ≠ []) (Hserial0 : cstr (take 31 serial) ≠ [])
  (Hnodup : NoDup (List.map rec_handle (records t))) (Hunused : unused t) (Hroom : room 20 t) :
  ∃ Info chip' q' t' r0 r1 r2 others,
    BoardInfoDxeEntry EFI_SUCCESS EFI_SUCCESS chip q = Some (EFI_SUCCESS, Info, chip', q') ∧
    SmbiosPlatformDxeEntry DATE EFI_SUCCESS (EFI_SUCCESS, Info) t = Some (EFI_SUCCESS, t') ∧
    records t' = records t ++ r0 :: r1 :: r2 :: others ∧ length others = 12%nat ∧
    rec_type r1 = EFI_SMBIOS_TYPE_SYSTEM_INFORMATION ∧
    rec_strings r1 = [chars "MikroTik"; cstr (take 63 name); chars "1.0"; cstr (take 31 serial); cstr (take 63 name);
                      chars "Cloud Core Router"] ∧
    rec_type r2 = EFI_SMBIOS_TYPE_BASEBOARD_INFORMATION ∧ rec_handle r2 = SMBIOS_HANDLE_MOTHERBOARD ∧
    rec_strings r2 = [chars "MikroTik"; cstr (take 63 name); chars "1.0"; cstr (take 31 serial); chars "Not Set";
                      chars "PCIe Slot"].
Proof.
  destruct (BoardInfo.Entry_run EFI_SUCCESS EFI_SUCCESS chip q Hready) as (st & Info & chip' & q' & E & Hst & Hi & _ & _ & _ & HP).
  rewrite AllocatePool_plenty in HP by done. specialize (HP eq_refl eq_refl Hreliable).
  assert (HL : BOARD_INFO_READ_SIZE = len (encode_block ts rest)).
  { rewrite <- Hflash. unfold nor_bytes. by rewrite length_map, length_seqZ. }
  rewrite Hflash, HL, parse_encoded in HP by auto using default_info_ok. injection HP as HP.
  assert (st = EFI_SUCCESS) as ->.
  { unfold BoardInfoDxeEntry in E. match type of E with (?m ≫= _) = _ => destruct m as [[[i h1] p1]|] end; [|done].
    by injection E. }
  pose proof (last_data_name ts default_info name Hname) as HN. rewrite HP in HN.
  pose proof (last_data_serial ts default_info serial Hserial) as HS. rewrite HP in HS.
  destruct (Smbios_run DATE EFI_SUCCESS (EFI_SUCCESS, Info) t Hdate Hi Hnodup) as (st & t' & E' & _ & K).
  destruct (K eq_refl) as (-> & hs & _ & Hh & _ & Hrec). cbn [snd fst EFI_ERROR] in Hrec. rewrite HN, HS in Hrec.
  destruct (Hrec Hunused Hroom Hname0 Hserial0) as [Hl Hr]. clear K Hrec.
  do 15 (destruct hs as [|? hs]; [discriminate Hl|]). destruct hs; [|discriminate Hl]. clear Hl.
  do 2 (apply Forall2_cons_1 in Hh as [_ Hh]). apply Forall2_cons_1 in Hh as [[_ Hm] _].
  exists Info, chip', q', t'. set (n := cstr (take 63 name)) in *. set (s := cstr (take 31 serial)) in *.
  set (hs := [_; _; _; _; _; _; _; _; _; _; _; _; _; _; _]) in *.
  pose proof (Hm ltac:(discriminate)) as Hm'.
  exists (record_of z (mType0 DATE, List.nth 0 (board_strings DATE) [])),
    (renamed n s (record_of z0 (mType1, List.nth 1 (board_strings DATE) []))),
    (renamed n s (record_of z1 (mType2, List.nth 2 (board_strings DATE) []))), (drop 3 (new_records DATE hs)).
  split_and!; [done|done|by rewrite Hr|reflexivity..|done|reflexivity].
Qed.

(** ** A small protocol *)

Definition SimSmbios : Type := list SM_REC.

(** The highest handle below the driver's. *)
Definition top (t : SimSmbios) : Z :=
  foldr (λ r m, if rec_handle r <? 0x1000 then Z.max (rec_handle r) m else m) 0 t.

Definition sim_add (h : Z) (b : list Z) (t : SimSmbios) : EFI_STATUS * Z * SimSmbios :=
  match parse_raw b with
  | None => (EFI_INVALID_PARAMETER, h, t)
  | Some (ty, body, (ss, _)) =>
      if h =? SMBIOS_HANDLE_PI_RESERVED then
        if top t + 1 <? 0x1000 then (EFI_SUCCESS, top t + 1, t ++ [mkRec (top t + 1) ty body ss])
        else (EFI_OUT_OF_RESOURCES, h, t)
      else if bool_decide (h ∈ List.map rec_handle t) then (EFI_ALREADY_STARTED, h, t)
      else (EFI_SUCCESS, h, t ++ [mkRec h ty body ss])
  end.

Definition sim_update (h n : Z) (s : list Z) (t : SimSmbios) : EFI_STATUS * SimSmbios :=
  if existsb (λ r, (rec_handle r =? h) && (1 <=? n) && (n <=? Z.of_nat (length (rec_strings r)))) t &&
     bool_decide (s ≠ []) && (len s <=? 64)
  then (EFI_SUCCESS, set_string h n s t) else (EFI_NOT_FOUND, t).

#[export] Instance sim_smbios : SmbiosProtocol SimSmbios := {| Add := sim_add; UpdateString := sim_update |}.

Lemma top_pos t : 0 <= top t.
Proof. induction t as [|x t IH]; cbn [top foldr]; [done|]. fold (top t). case_match; lia. Qed.

Lemma top_app t r : top (t ++ [r]) = if rec_handle r <? 0x1000 then Z.max (top t) (rec_handle r) else top t.
Proof.
  induction t as [|x t IH]; cbn [app top foldr].
  - destruct (_ <? _); [lia|done].
  - fold (top (t ++ [r])). fold (top t). rewrite IH. repeat case_match; lia.
Qed.

Lemma top_bound t h : h ∈ List.map rec_handle t → h < 0x1000 → h <= top t.
Proof.
  induction t as [|x t IH]; cbn [List.map]; [by intros ?%elem_of_nil|].
  intros [->|Hh]%elem_of_cons Hlt; cbn [top foldr]; fold (top t).
  - rewrite (proj2 (Z.ltb_lt _ _)) by done. lia.
  - specialize (IH Hh Hlt). case_match; lia.
Qed.

Lemma top_set_string h n s t : top (set_string h n s t) = top t.
Proof.
  induction t as [|x t IH]; [done|]. cbn [set_string List.map top foldr]. fold (set_string h n s t).
  fold (top (set_string h n s t)). fold (top t). rewrite IH. by destruct (rec_handle x =? h).
Qed.

#[export] Program Instance sim_smbios_laws : SmbiosLaws SimSmbios := {|
  records t := t; room n t := top t + Z.of_nat n < 0x1000
|}.
Next Obligation.
  intros h b ty body ss r t E. cbn [Add sim_smbios]. unfold sim_add. rewrite E. pose proof (top_pos t) as P.
  destruct (Z.eqb_spec h SMBIOS_HANDLE_PI_RESERVED) as [->|Hh].
  - destruct (Z.ltb_spec (top t + 1) 0x1000) as [L|L]; eexists _, _, _; (split; [reflexivity|]); (split; [|intros n R _]).
    + left. split_and!; [done|unfold SMBIOS_HANDLE_PI_RESERVED; lia| |done|done].
      intros K%top_bound; lia.
    + rewrite top_app. cbn [rec_handle]. rewrite (proj2 (Z.ltb_lt _ _)) by done. split_and!; [done|lia..].
    + by right.
    + lia.
  - case_bool_decide as Hin; eexists _, _, _; (split; [reflexivity|]); (split; [|intros n R [?|[Hb Hn]]]); try done.
    + by right.
    + by left.
    + rewrite top_app. cbn [rec_handle]. rewrite (proj2 (Z.ltb_ge _ _)) by done. split_and!; [done|lia|done].
Qed.
Next Obligation.
  intros h n s t. cbn [UpdateString sim_smbios]. unfold sim_update.
  destruct (_ && _) eqn:C; eexists _, _; (split; [reflexivity|]); (split; [|intros k r R Hr <- Hn Hs Hl]).
  - by left.
  - rewrite top_set_string. split; [done|lia].
  - by right.
  - rewrite bool_decide_eq_true_2, (proj2 (Z.leb_le (len s) _)), !andb_true_r in C by done.
    apply not_true_iff_false in C. destruct C. apply existsb_exists. exists r. split; [by apply list_elem_of_In|].
    rewrite Z.eqb_refl, !(proj2 (Z.leb_le _ _)) by lia. done.
Qed.

(** ** A board *)

Fixpoint field_numbers (f : FIELD) : list Z :=
  match f with Num v => [v] | Str n => [n] | Hnd h => [h] | Sym _ => [1] | Sub fs => flat_map field_numbers fs end.

#[export] Program Instance sim_layout : SmBiosLayout := {|
  sizeof_table _ := 64; image ty fs := take 60 (flat_map field_numbers fs ++ repeat 0 60)
|}.
Next Obligation. done. Qed.
Next Obligation. intros ty fs. cbn [image]. rewrite length_take, length_app, repeat_length. lia. Qed.

Definition demo_date : list Z := chars "Nov 19 2025".
Definition demo_board : SimSmbios := [mkRec 3 127 [] []].
Definition demo_ids : list tlv :=
  [mkTlv RB_TAG_BOARD_NAME (chars "CCR2004"); mkTlv RB_TAG_BOARD_SERIAL (chars "HF90"); mkTlv RB_TAG_MAC [1; 2; 3; 4; 5; 6]].
Definition demo_id_rest : list Z := replicate 4063 0.
Definition demo_id_flash : Nor unit :=
  mkChip (λ x, default 0 (rd (encode_block demo_ids demo_id_rest) (x - BOARD_INFO_FLASH_OFFSET))) false false tt.

Lemma demo_date_ok : string_ok demo_date.
Proof. by apply string_okb_spec. Qed.

Lemma demo_nodup : NoDup (List.map rec_handle (records demo_board)).
Proof. apply (list.NoDup_singleton 3). Qed.

Lemma demo_unused : unused (demo_board : SimSmbios).
Proof. intros h R. cbn. rewrite list_elem_of_singleton. lia. Qed.

(** A protocol that already holds a record: the first table gets handle 4, the
    board's keeps its own. *)
Lemma SmbiosEntry_exact_witness :
  ∃ st t', SmbiosPlatformDxeEntry demo_date EFI_SUCCESS (EFI_SUCCESS, default_info) demo_board = Some (st, t') ∧
    st = EFI_SUCCESS ∧ length t' = 16%nat ∧
    ∃ hs, t' = demo_board ++ List.map (renamed (chars "RouterBoard") (chars "Unknown")) (new_records demo_date hs).
Proof.
  destruct (SmbiosEntry_exact (T := SimSmbios) demo_date EFI_SUCCESS (EFI_SUCCESS, default_info) demo_board
    demo_date_ok default_info_ok demo_nodup) as (st & t' & E & _ & K).
  destruct (K eq_refl) as (-> & hs & _ & _ & _ & R).
  destruct (R demo_unused ltac:(vm_compute; reflexivity) ltac:(discriminate) ltac:(discriminate)) as [Hl Ht].
  exists EFI_SUCCESS, t'. split; [exact E|]. split; [reflexivity|]. split; [|exists hs; exact Ht].
  cbn [records sim_smbios_laws] in Ht. rewrite Ht. cbn [fst EFI_ERROR]. rewrite length_app, length_map.
  unfold new_records. rewrite length_zip_with, length_zip_with, Hl. reflexivity.
Defined.

Lemma identity_reaches_smbios_witness :
  ∃ Info chip' q' t' r0 r1 r2 others,
    BoardInfoDxeEntry EFI_SUCCESS EFI_SUCCESS demo_id_flash (mkPool [] 0) = Some (EFI_SUCCESS, Info, chip', q') ∧
    SmbiosPlatformDxeEntry demo_date EFI_SUCCESS (EFI_SUCCESS, Info) demo_board = Some (EFI_SUCCESS, t') ∧
    t' = demo_board ++ r0 :: r1 :: r2 :: others ∧ length others = 12%nat ∧
    rec_type r1 = EFI_SMBIOS_TYPE_SYSTEM_INFORMATION ∧
    rec_strings r1 = List.map chars ["MikroTik"; "CCR2004"; "1.0"; "HF90"; "CCR2004"; "Cloud Core Router"]%string ∧
    rec_type r2 = EFI_SMBIOS_TYPE_BASEBOARD_INFORMATION ∧ rec_handle r2 = SMBIOS_HANDLE_MOTHERBOARD ∧
    rec_strings r2 = List.map chars ["MikroTik"; "CCR2004"; "1.0"; "HF90"; "Not Set"; "PCIe Slot"]%string.
Proof.
  assert (nor_bytes (nor_mem demo_id_flash) BOARD_INFO_FLASH_OFFSET 4096 = encode_block demo_ids demo_id_rest) as HF
    by (vm_compute; reflexivity).
  assert (Forall tlv_ok demo_ids) as HT by (repeat constructor; vm_compute; congruence).
  exact (identity_reaches_smbios (T := SimSmbios) (C := Nor unit) demo_date demo_id_flash (mkPool [] 0) demo_ids
    demo_id_rest (chars "CCR2004") (chars "HF90") demo_board demo_date_ok eq_refl sim_flawless eq_refl HF HT
    (or_intror eq_refl) eq_refl eq_refl ltac:(discriminate) ltac:(discriminate) demo_nodup demo_unused
    ltac:(vm_compute; reflexivity)).
Defined.
