(* ===== verification/Dump.v ===== *)
(** * The block dump application

    Application/DumpBlockApp: a range of a block device is copied to a file on the
    first volume that creates it. The device and the file are interfaces with
    their documented laws; the NAND driver is an instance of the first, so that a
    dump of the NAND flash is the images of its pages. *)

From S2P Require Import Prelude Efi Format AlNand.

Definition BLOCKS_PER_IO : Z := 64.

(** BlockIo's read of [size] bytes: the status and what it stored. *)
Class BlockRead (D : Type) := {
  src_media : D → Z * Z;                       (* BlockSize and LastBlock *)
  ReadBlocks : Z → Z → D → option (EFI_STATUS * list Z * D)
}.

(** An open file: [Write] gives the status and the size written. *)
Class OutputFile (F : Type) := {
  Write : list Z → F → EFI_STATUS * Z * F;
  Flush : F → F
}.

(** A handle with a file system: what HandleProtocol and OpenVolume answer, and
    Open for creating a path. *)
Record VOLUME (F : Type) := mkVolume {
  vol_protocol : EFI_STATUS;
  vol_root : EFI_STATUS;
  vol_create : list Z → EFI_STATUS * F
}.
Arguments mkVolume {F}.
Arguments vol_protocol {F}.
Arguments vol_root {F}.
Arguments vol_create {F}.

(** The pool, the device, the file protocols open, and the output file with the
    volume's index and its path. *)
Record DUMP (D F : Type) := mkDump { d_pool : Pool; d_dev : D; d_open : Z; d_out : option (Z * list Z * F) }.
Arguments mkDump {D F}.
Arguments d_pool {D F}.
Arguments d_dev {D F}.
Arguments d_open {D F}.
Arguments d_out {D F}.

(** What the boot services and the shell answer: for the device's path, its
    handle. *)
Record DUMP_ANSWERS (F : Type) := mkDumpAnswers {
  an_params : EFI_STATUS;
  an_shell : EFI_STATUS;
  an_mapped : list Z → bool;
  an_handle : EFI_STATUS * Z;
  an_blockio : Z → EFI_STATUS;
  an_filesystems : EFI_STATUS;
  an_volumes : list (VOLUME F)
}.
Arguments mkDumpAnswers {F}.
Arguments an_params {F}.
Arguments an_shell {F}.
Arguments an_mapped {F}.
Arguments an_handle {F}.
Arguments an_blockio {F}.
Arguments an_filesystems {F}.
Arguments an_volumes {F}.

(** ** The path *)

Definition is_separator (c : Z) : bool := (c =? 92) || (c =? 47).

Fixpoint find_colon (FilePath : list Z) (j : Z) : option Z :=
  match FilePath with
  | [] => None
  | c :: rest => if c =? 58 then Some j else if is_separator c then None else find_colon rest (j + 1)
  end.

(** The volume's name is cut off, and not looked at. *)
Definition strip_prefix (FilePath : list Z) : list Z :=
  match find_colon FilePath 0 with
  | Some PrefixLen =>
      if PrefixLen <? 16 then
        match drop (Z.to_nat (PrefixLen + 1)) FilePath with
        | c :: rest => if is_separator c then rest else c :: rest
        | [] => []
        end
      else FilePath
  | None => FilePath
  end.

Section Code.
Context {D F : Type} `{BlockRead D, OutputFile F, ShellStrings}.

Definition Dm (A : Type) : Type := DUMP D F → option (A * DUMP D F).
#[global] Instance Dm_ret : MRet Dm := λ A a e, Some (a, e).
#[global] Instance Dm_bind : MBind Dm := λ A B f m e, match m e with Some (a, e') => f a e' | None => None end.

Definition lift {A} (o : option A) : Dm A := λ e, a ← o; Some (a, e).
Definition set_pool (f : Pool → Pool) : Dm unit := λ e, Some (tt, mkDump (f (d_pool e)) (d_dev e) (d_open e) (d_out e)).
Definition alloc : Dm bool := λ e,
  let '(ok, p) := AllocatePool (d_pool e) in Some (ok, mkDump p (d_dev e) (d_open e) (d_out e)).
Definition add_open (n : Z) : Dm unit := λ e, Some (tt, mkDump (d_pool e) (d_dev e) (d_open e + n) (d_out e)).
Definition set_out (o : Z * list Z * F) : Dm unit := λ e, Some (tt, mkDump (d_pool e) (d_dev e) (d_open e) (Some o)).

Definition read_dev (Lba Size : Z) : Dm (EFI_STATUS * list Z) := λ e,
  '(st, data, d) ← ReadBlocks Lba Size (d_dev e);
  Some ((st, data), mkDump (d_pool e) d (d_open e) (d_out e)).
Definition write_out (data : list Z) : Dm (EFI_STATUS * Z) := λ e,
  '(i, p, f) ← d_out e;
  let '(st, n, f) := Write data f in
  Some ((st, n), mkDump (d_pool e) (d_dev e) (d_open e) (Some (i, p, f))).
Definition flush_out : Dm unit := λ e,
  '(i, p, f) ← d_out e; Some (tt, mkDump (d_pool e) (d_dev e) (d_open e) (Some (i, p, Flush f))).

(** The loop over the volumes from number [i] on. *)
Fixpoint try_volumes (vols : list (VOLUME F)) (i : Z) (FilePath : list Z) : Dm EFI_STATUS :=
  match vols with
  | [] => _ ← set_pool FreePool; mret EFI_NOT_FOUND
  | v :: rest =>
      if EFI_ERROR (vol_protocol v) then try_volumes rest (i + 1) FilePath
      else if EFI_ERROR (vol_root v) then try_volumes rest (i + 1) FilePath
      else
        _ ← add_open 1;
        let '(Status, f) := vol_create v FilePath in
        _ ← add_open (-1);
        if negb (EFI_ERROR Status)
        then _ ← add_open 1; _ ← set_out (i, FilePath, f); _ ← set_pool FreePool; mret EFI_SUCCESS
        else try_volumes rest (i + 1) FilePath
  end.

(** LocateHandleBuffer allocates the handles it returns. *)
Definition OpenOutputFile (Located : EFI_STATUS) (Handles : list (VOLUME F)) (FilePath : list Z) : Dm EFI_STATUS :=
  if EFI_ERROR Located then mret EFI_NOT_FOUND
  else
    _ ← set_pool (λ p, mkPool (pool_script p) (pool_live p + 1));
    if len Handles =? 0 then mret EFI_NOT_FOUND
    else try_volumes Handles 0 (strip_prefix FilePath).

(** The copy. *)
Fixpoint copy_loop (fuel : nat) (BufBlocks BlockSize Remaining CurLba : Z) : Dm EFI_STATUS :=
  if 0 <? Remaining then
    match fuel with
    | O => λ _, None
    | S fuel' =>
        let Chunk := if BufBlocks <? Remaining then BufBlocks else Remaining in
        let ReadSize := Chunk *u64 BlockSize in
        '(Status, Buf) ← read_dev CurLba ReadSize;
        if EFI_ERROR Status then mret Status
        else
          bytes ← lift (rdn Buf 0 ReadSize);
          '(Status, WriteSize) ← write_out bytes;
          if EFI_ERROR Status then mret Status
          else copy_loop fuel' BufBlocks BlockSize (Remaining -u64 Chunk) (CurLba +u64 Chunk)
    end
  else mret EFI_SUCCESS.

(** The source handle of an argument; 0 is NULL. *)
Definition source_handle (an : DUMP_ANSWERS F) (arg : list Z) : Dm Z :=
  if negb (EFI_ERROR (an_shell an)) && an_mapped an arg then
    ok ← alloc;
    if negb ok then mret 0
    else
      _ ← set_pool FreePool;
      let '(Status, SrcHandle) := an_handle an in
      mret (if EFI_ERROR Status then 0 else SrcHandle)
  else mret 0.

(** From the open device on. *)
Definition dump_range (an : DUMP_ANSWERS F) (StartLba BlockCount : Z) (FilePath : list Z) : Dm EFI_STATUS := λ e,
  let '(BlockSize, LastBlock) := src_media (d_dev e) in
  (if (LastBlock +u64 1) <? (StartLba +u64 BlockCount) then mret EFI_INVALID_PARAMETER
   else
     Status ← OpenOutputFile (an_filesystems an) (an_volumes an) FilePath;
     if EFI_ERROR Status then mret Status
     else
       let BufBlocks := if BlockCount <? BLOCKS_PER_IO then BlockCount else BLOCKS_PER_IO in
       ok ← alloc;
       if negb ok then _ ← add_open (-1); mret EFI_OUT_OF_RESOURCES
       else
         Status ← copy_loop (S (Z.to_nat (BlockCount / BLOCKS_PER_IO))) BufBlocks BlockSize BlockCount StartLba;
         _ ← flush_out;
         _ ← add_open (-1);
         _ ← set_pool FreePool;
         mret Status) e.

Definition DumpBlockAppEntry (an : DUMP_ANSWERS F) (Argv : list (list Z)) : Dm EFI_STATUS :=
  if EFI_ERROR (an_params an) then mret (an_params an)
  else if negb (len Argv =? 5) then mret EFI_INVALID_PARAMETER
  else
    arg1 ← lift (rd Argv 1);
    arg2 ← lift (rd Argv 2);
    arg3 ← lift (rd Argv 3);
    arg4 ← lift (rd Argv 4);
    SrcHandle ← source_handle an arg1;
    let '(Bad, SrcHandle) :=
      if SrcHandle =? 0
      then let '(Status, HandleValue) := StrHexToUintnS arg1 in (EFI_ERROR Status || (HandleValue =? 0), HandleValue)
      else (false, SrcHandle) in
    if Bad then mret EFI_INVALID_PARAMETER
    else
      let '(Status, StartLba) := StrDecimalToUintnS arg2 in
      if EFI_ERROR Status then mret EFI_INVALID_PARAMETER
      else
        let '(Status, BlockCount) := StrDecimalToUintnS arg3 in
        if EFI_ERROR Status || (BlockCount =? 0) then mret EFI_INVALID_PARAMETER
        else if EFI_ERROR (an_blockio an SrcHandle) then mret (an_blockio an SrcHandle)
        else dump_range an StartLba BlockCount arg4.
End Code.

(** ** Devices and files *)

(** A device that answers reads inside its bounds with its blocks, or an error. *)
Class SourceLaws (D : Type) `{BlockRead D} := {
  src_ok : D → Prop;
  block : D → Z → list Z;
  src_reliable : Prop;
  src_bounds d : src_ok d → 0 < (src_media d).1 < 2 ^ 32 ∧ 0 <= (src_media d).2 < 2 ^ 64 - 1;
  block_size d i : src_ok d → 0 <= i <= (src_media d).2 → len (block d i) = (src_media d).1;
  read_law d lba n : src_ok d → 0 <= lba → 0 < n → lba + n <= (src_media d).2 + 1 → n <= BLOCKS_PER_IO →
    ∃ st data d', ReadBlocks lba (n * (src_media d).1) d = Some (st, data, d') ∧
      src_ok d' ∧ src_media d' = src_media d ∧ (∀ i, block d' i = block d i) ∧
      (EFI_ERROR st = false → data = concat (List.map (block d) (seqZ lba n))) ∧
      (src_reliable → EFI_ERROR st = false)
}.

(** Bytes over what a file held. *)
Definition written (c : list Z) (p : Z) (data : list Z) : list Z :=
  take (Z.to_nat p) c ++ data ++ drop (Z.to_nat (p + len data)) c.

Class OutputLaws (F : Type) `{OutputFile F} := {
  contents : F → list Z;
  position : F → Z;
  out_reliable : Prop;
  write_law data f : 0 <= position f <= len (contents f) →
    ∃ st n f', Write data f = (st, n, f') ∧
      (EFI_ERROR st = false → contents f' = written (contents f) (position f) data ∧
                              position f' = position f + len data) ∧
      (out_reliable → EFI_ERROR st = false);
  flush_law f : contents (Flush f) = contents f
}.

Lemma written_written c p d1 d2 :
  0 <= p <= len c → written (written c p d1) (p + len d1) d2 = written c p (d1 ++ d2).
Proof.
  intros R. unfold written. set (q := Z.to_nat p). assert (Z.to_nat (p + len d1) = q + length d1)%nat as -> by lia.
  assert (Z.to_nat (p + len d1 + len d2) = q + length d1 + length d2)%nat as -> by lia.
  assert (length (take q c) = q) as L by (rewrite length_take; lia).
  rewrite length_app. assert (Z.to_nat (p + Z.of_nat (length d1 + length d2)) = q + length d1 + length d2)%nat as -> by lia.
  rewrite (app_assoc (take q c) d1), take_app_length' by (rewrite length_app; lia).
  rewrite drop_app_ge by (rewrite length_app; lia). rewrite drop_drop, <- !app_assoc. do 4 f_equal.
  rewrite length_app. lia.
Qed.

Lemma written_len c p d : 0 <= p <= len c → p + len d <= len (written c p d).
Proof. intros R. unfold written. rewrite !length_app, length_take. lia. Qed.

Lemma written_nil c p : written c p [] = c.
Proof. unfold written. cbn [length app Z.of_nat]. by rewrite Z.add_0_r, take_drop. Qed.

Section Theorems.
Context {D F : Type} `{SourceLaws D, OutputLaws F, ShellStrings}.
Implicit Types (e : DUMP D F) (d : D).

Definition blocks d (lba n : Z) : list Z := concat (List.map (block d) (seqZ lba n)).

Lemma blocks_0 d lba : blocks d lba 0 = [].
Proof. done. Qed.

Lemma blocks_app d lba n m : 0 <= n → 0 <= m → blocks d lba (n + m) = blocks d lba n ++ blocks d (lba + n) m.
Proof. intros Hn Hm. unfold blocks. by rewrite seqZ_app, List.map_app, concat_app by lia. Qed.

Lemma blocks_len d lba n :
  src_ok d → 0 <= lba → 0 <= n → lba + n <= (src_media d).2 + 1 → len (blocks d lba n) = n * (src_media d).1.
Proof.
  intros Hd Hl Hn Hle. unfold blocks. revert lba Hl Hle. pattern n. apply natlike_ind; [done| |done].
  clear n Hn. intros n Hn IH lba Hl Hle. rewrite seqZ_cons by lia. cbn [List.map concat].
  rewrite length_app, Nat2Z.inj_add, (block_size d lba Hd) by lia. rewrite Z.pred_succ, IH by lia. lia.
Qed.

(** The copy of what remains. *)
Lemma copy_loop_run fuel B rem cur e i p f :
  d_out e = Some (i, p, f) → src_ok (d_dev e) → 0 <= position f <= len (contents f) →
  0 < B <= BLOCKS_PER_IO → 0 <= cur → 0 <= rem <= Z.of_nat fuel * B → cur + rem <= (src_media (d_dev e)).2 + 1 →
  ∃ st e' f', copy_loop fuel B (src_media (d_dev e)).1 rem cur e = Some (st, e') ∧
    d_pool e' = d_pool e ∧ d_open e' = d_open e ∧ d_out e' = Some (i, p, f') ∧
    (EFI_ERROR st = false → st = EFI_SUCCESS ∧
       contents f' = written (contents f) (position f) (blocks (d_dev e) cur rem)) ∧
    (src_reliable (D := D) → out_reliable (F := F) → EFI_ERROR st = false).
Proof.
  intros Ho Hd Hp HB Hc. revert rem cur e f Ho Hd Hp Hc. induction fuel as [|fuel IH]; intros rem cur e f Ho Hd Hp Hc Hr Hle.
  all: destruct (src_bounds _ Hd) as [Hbs Hlast]; cbn [copy_loop]; destruct (Z.ltb_spec 0 rem) as [Hpos|Hz].
  - lia.
  - exists EFI_SUCCESS, e, f. split_and!; [done..| |done]. intros _. split; [done|].
    assert (rem = 0) as -> by lia. by rewrite blocks_0, written_nil.
  - set (bs := (src_media (d_dev e)).1) in *. set (n := if B <? rem then B else rem).
    assert (0 < n <= B ∧ n <= rem) as [Hn Hnr] by (unfold n; destruct (Z.ltb_spec B rem); lia).
    assert (n *u64 bs = n * bs) as ->.
    { apply Z.mod_small. unfold BLOCKS_PER_IO in HB. nia. }
    destruct (read_law (d_dev e) cur n Hd Hc ltac:(lia) ltac:(lia) ltac:(lia)) as (st & data & d' & E & Hd' & Hm & Hb & Hdata & Hrel).
    fold bs in E. unfold read_dev. unfold mbind at 1, Dm_bind at 1. rewrite E. cbn [mbind option_bind].
    destruct (EFI_ERROR st) eqn:Est.
    { eexists st, _, f. split; [reflexivity|]. cbn [d_pool d_open d_out]. split_and!; [done..|congruence|].
      intros R1 _. by rewrite <- (Hrel R1). }
    rewrite (Hdata eq_refl). fold (blocks (d_dev e) cur n).
    pose proof (blocks_len (d_dev e) cur n Hd Hc ltac:(lia) ltac:(lia)) as HL. fold bs in HL.
    unfold mbind at 1, Dm_bind at 1, lift at 1. rewrite rdn_eq by lia. cbn [mbind option_bind].
    rewrite drop_0, take_ge by lia.
    destruct (write_law (blocks (d_dev e) cur n) f Hp) as (st2 & w & f2 & E2 & Hw & Hrel2).
    unfold mbind at 1, Dm_bind at 1, write_out at 1. cbn [d_out d_pool d_dev d_open]. rewrite Ho. cbn [mbind option_bind].
    rewrite E2. destruct (EFI_ERROR st2) eqn:Est2.
    { eexists st2, _, f2. split; [reflexivity|]. cbn [d_pool d_open d_out]. split_and!; [done..|congruence|].
      intros _ R2. by rewrite <- (Hrel2 R2). }
    destruct (Hw eq_refl) as [Hcont Hpos2].
    assert (rem -u64 n = rem - n) as -> by (apply Z.mod_small; lia).
    assert (cur +u64 n = cur + n) as -> by (apply Z.mod_small; lia).
    set (e2 := mkDump (d_pool e) d' (d_open e) (Some (i, p, f2))).
    destruct (IH (rem - n) (cur + n) e2 f2) as (st3 & e3 & f3 & E3 & P3 & O3 & F3 & S3 & R3); cbn [d_dev d_out e2]; try done.
    + rewrite Hpos2, Hcont. split; [lia|]. apply written_len. lia.
    + lia.
    + unfold n. destruct (Z.ltb_spec B rem); lia.
    + rewrite Hm. lia.
    + cbn [d_dev e2] in E3, S3. rewrite Hm in E3. fold bs in E3. exists st3, e3, f3. split_and!; try done.
      intros K. destruct (S3 K) as [-> C3]. split; [done|]. rewrite C3, Hpos2, Hcont.
      assert (blocks d' (cur + n) (rem - n) = blocks (d_dev e) (cur + n) (rem - n)) as ->.
      { unfold blocks. f_equal. by apply List.map_ext. }
      rewrite written_written by done. f_equal. rewrite <- blocks_app by lia. f_equal. lia.
  - exists EFI_SUCCESS, e, f. split_and!; [done..| |done]. intros _. split; [done|].
    assert (rem = 0) as -> by lia. by rewrite blocks_0, written_nil.
Qed.

(** *** The output file *)

Definition refuses (v : VOLUME F) (FilePath : list Z) : bool :=
  EFI_ERROR (vol_protocol v) || EFI_ERROR (vol_root v) || EFI_ERROR (vol_create v FilePath).1.

(** The first volume that creates the file. *)
Fixpoint first_volume (vols : list (VOLUME F)) (i : Z) (FilePath : list Z) : option (Z * F) :=
  match vols with
  | [] => None
  | v :: rest => if refuses v FilePath then first_volume rest (i + 1) FilePath else Some (i, (vol_create v FilePath).2)
  end.

Lemma try_volumes_run vols i path e :
  try_volumes vols i path e =
    Some match first_volume vols i path with
         | Some (k, f) => (EFI_SUCCESS, mkDump (FreePool (d_pool e)) (d_dev e) (d_open e + 1) (Some (k, path, f)))
         | None => (EFI_NOT_FOUND, mkDump (FreePool (d_pool e)) (d_dev e) (d_open e) (d_out e))
         end.
Proof.
  revert i e. induction vols as [|v vols IH]; intros i e; [done|]. cbn [try_volumes first_volume]. unfold refuses.
  destruct (EFI_ERROR (vol_protocol v)); [apply IH|]. destruct (EFI_ERROR (vol_root v)); [apply IH|]. cbn [orb].
  unfold mbind, Dm_bind, add_open. cbn [d_pool d_dev d_open d_out]. destruct (vol_create v path) as [st f].
  cbn [fst snd]. destruct (EFI_ERROR st); cbn [negb].
  - rewrite IH. cbn [d_pool d_dev d_open d_out]. by replace (d_open e + 1 + -1) with (d_open e) by lia.
  - unfold set_out, mret, Dm_ret. cbn [d_pool d_dev d_open d_out].
    by replace (d_open e + 1 + -1 + 1) with (d_open e + 1) by lia.
Qed.

Lemma OpenOutputFile_run st vols path e :
  (EFI_ERROR st = false → vols ≠ []) →
  ∃ st' e', OpenOutputFile st vols path e = Some (st', e') ∧ pool_live (d_pool e') = pool_live (d_pool e) ∧
    pool_script (d_pool e') = pool_script (d_pool e) ∧ d_dev e' = d_dev e ∧
    match (if EFI_ERROR st then None else first_volume vols 0 (strip_prefix path)) with
    | Some (k, f) => st' = EFI_SUCCESS ∧ d_open e' = d_open e + 1 ∧ d_out e' = Some (k, strip_prefix path, f)
    | None => st' = EFI_NOT_FOUND ∧ d_open e' = d_open e
    end.
Proof.
  intros Hv. unfold OpenOutputFile. destruct (EFI_ERROR st) eqn:E.
  { by exists EFI_NOT_FOUND, e. }
  unfold mbind, Dm_bind, set_pool. cbn [d_pool d_dev d_open d_out].
  destruct (Z.eqb_spec (len vols) 0) as [K|K]; [by destruct vols; [destruct (Hv eq_refl)|]|].
  rewrite try_volumes_run. cbn [d_pool d_dev d_open d_out].
  destruct (first_volume _ _ _) as [[k f]|]; eexists _, _; (split; [reflexivity|]); cbn; split_and!; (done || lia).
Qed.

(** *** The application *)

(** What the arguments ask for: an error, or the first block, the number of blocks
    and the path. [ok] tells whether the copy of the device path is allocated. *)
Definition dump_request (an : DUMP_ANSWERS F) (ok : bool) (Argv : list (list Z)) : EFI_STATUS + Z * Z * list Z :=
  if EFI_ERROR (an_params an) then inl (an_params an)
  else
    match Argv with
    | [_; arg1; arg2; arg3; arg4] =>
        let mapped := negb (EFI_ERROR (an_shell an)) && an_mapped an arg1 && ok && negb (EFI_ERROR (an_handle an).1) &&
                      negb ((an_handle an).2 =? 0) in
        let hex := StrHexToUintnS arg1 in
        let handle := if mapped then (an_handle an).2 else hex.2 in
        let start := StrDecimalToUintnS arg2 in
        let count := StrDecimalToUintnS arg3 in
        if negb mapped && (EFI_ERROR hex.1 || (hex.2 =? 0)) then inl EFI_INVALID_PARAMETER
        else if EFI_ERROR start.1 || EFI_ERROR count.1 || (count.2 =? 0) then inl EFI_INVALID_PARAMETER
        else if EFI_ERROR (an_blockio an handle) then inl (an_blockio an handle)
        else inr (start.2, count.2, arg4)
    | _ => inl EFI_INVALID_PARAMETER
    end.

(** The outcome of a request for a range. *)
Definition dumped (an : DUMP_ANSWERS F) (StartLba BlockCount : Z) (path : list Z) (e : DUMP D F) (st : EFI_STATUS)
    (e' : DUMP D F) : Prop :=
  EFI_ERROR st = false → st = EFI_SUCCESS ∧ StartLba + BlockCount <= (src_media (d_dev e)).2 + 1 ∧
    ∃ k f0 f, first_volume (an_volumes an) 0 (strip_prefix path) = Some (k, f0) ∧
      d_out e' = Some (k, strip_prefix path, f) ∧
      contents f = blocks (d_dev e) StartLba BlockCount ++
                   drop (Z.to_nat (BlockCount * (src_media (d_dev e)).1)) (contents f0).

Lemma dump_range_run an StartLba BlockCount path e :
  src_ok (d_dev e) → 0 <= StartLba → 0 < BlockCount → StartLba + BlockCount < 2 ^ 64 →
  (EFI_ERROR (an_filesystems an) = false → an_volumes an ≠ []) →
  (∀ k f, first_volume (an_volumes an) 0 (strip_prefix path) = Some (k, f) → position f = 0) →
  ∃ st e', dump_range an StartLba BlockCount path e = Some (st, e') ∧
    pool_live (d_pool e') = pool_live (d_pool e) ∧ d_open e' = d_open e ∧ dumped an StartLba BlockCount path e st e' ∧
    (StartLba + BlockCount <= (src_media (d_dev e)).2 + 1 → pool_plenty (d_pool e) →
     EFI_ERROR (an_filesystems an) = false → is_Some (first_volume (an_volumes an) 0 (strip_prefix path)) →
     src_reliable (D := D) → out_reliable (F := F) → st = EFI_SUCCESS).
Proof.
  intros Hd Hs Hc Hw Hv Hp. destruct (src_bounds _ Hd) as [Hbs Hlast]. unfold dump_range.
  destruct (src_media (d_dev e)) as [bs last] eqn:EM. cbn [fst snd] in *.
  assert (last +u64 1 = last + 1) as -> by (apply Z.mod_small; lia).
  assert (StartLba +u64 BlockCount = StartLba + BlockCount) as -> by (apply Z.mod_small; lia).
  destruct (Z.ltb_spec (last + 1) (StartLba + BlockCount)) as [L|L].
  { exists EFI_INVALID_PARAMETER, e. split_and!; [done..|by intros ?|lia]. }
  destruct (OpenOutputFile_run (an_filesystems an) (an_volumes an) path e Hv) as (st & e1 & E1 & P1 & S1 & D1 & O1).
  unfold mbind at 1, Dm_bind at 1. rewrite E1.
  destruct (if EFI_ERROR (an_filesystems an) then None else _) as [[k f]|] eqn:EF.
  2: { destruct O1 as [-> O1]. exists EFI_NOT_FOUND, e1. split_and!; [done..|by intros ?|].
       intros _ _ Hfs [[k f] Hf]. rewrite Hfs, Hf in EF. done. }
  destruct (EFI_ERROR (an_filesystems an)) eqn:EL; [done|]. specialize (Hp k f EF).
  destruct O1 as (-> & O1 & Out1). cbn [EFI_ERROR].
  unfold mbind at 1, Dm_bind at 1, alloc. destruct (AllocatePool (d_pool e1)) as [ok p2] eqn:EA.
  pose proof (AllocatePool_live _ _ _ EA) as LA. destruct ok; cbn [negb].
  2: { eexists EFI_OUT_OF_RESOURCES, _. split; [reflexivity|]. cbn [d_pool d_open]. split_and!; [lia|lia|by intros ?|].
       intros _ PP _ _ _ _. unfold pool_plenty in PP. rewrite <- S1 in PP. unfold AllocatePool in EA. by rewrite PP in EA. }
  set (e2 := mkDump p2 (d_dev e1) (d_open e1) (d_out e1)).
  set (B := if BlockCount <? BLOCKS_PER_IO then BlockCount else BLOCKS_PER_IO).
  assert (0 < B <= BLOCKS_PER_IO) as HB.
  { unfold B, BLOCKS_PER_IO. destruct (Z.ltb_spec BlockCount 64); lia. }
  destruct (copy_loop_run (S (Z.to_nat (BlockCount / BLOCKS_PER_IO))) B BlockCount StartLba e2 k (strip_prefix path) f)
    as (st & e3 & f3 & E3 & P3 & O3 & Out3 & C3 & R3).
  { done. } { cbn. by rewrite D1. } { rewrite Hp. split; [lia|]. apply Zle_0_nat. } { done. } { done. }
  { split; [lia|]. unfold B, BLOCKS_PER_IO in *. pose proof (Z.div_mod BlockCount 64). pose proof (Z.mod_pos_bound BlockCount 64).
    pose proof (Z.div_pos BlockCount 64). destruct (Z.ltb_spec BlockCount 64); nia. }
  { cbn [d_dev e2]. rewrite D1, EM. cbn. lia. }
  cbn [d_dev e2] in E3, C3. rewrite D1, EM in E3. cbn [fst] in E3. rewrite D1 in C3.
  unfold mbind, Dm_bind. rewrite E3. unfold flush_out. rewrite Out3. cbn [mbind option_bind].
  eexists st, _. split; [reflexivity|]. cbn [d_pool d_dev d_open d_out]. rewrite P3, O3. cbn [d_pool d_open e2].
  split_and!; [cbn; lia|lia| |].
  - intros K. destruct (C3 K) as [-> HC]. split; [done|]. rewrite EM. cbn [fst snd]. split; [lia|].
    exists k, f, (Flush f3). split_and!; [done..|]. rewrite flush_law, HC, Hp. unfold written.
    pose proof (blocks_len (d_dev e) StartLba BlockCount Hd Hs ltac:(lia) ltac:(rewrite EM; cbn; lia)) as BL.
    rewrite EM in BL. cbn [fst] in BL. rewrite BL. done.
  - intros _ _ _ _ K1 K2. pose proof (R3 K1 K2) as K. by destruct (C3 K).
Qed.

Lemma lift_bind {A B} (x : A) (f : A → Dm B) e : (lift (Some x) ≫= f) e = f x e.
Proof. done. Qed.

Lemma source_handle_run an arg e :
  ∃ e', source_handle an arg e =
    Some (if negb (EFI_ERROR (an_shell an)) && an_mapped an arg && (AllocatePool (d_pool e)).1 &&
             negb (EFI_ERROR (an_handle an).1) then (an_handle an).2 else 0, e') ∧
    pool_live (d_pool e') = pool_live (d_pool e) ∧ d_dev e' = d_dev e ∧ d_open e' = d_open e ∧
    (pool_plenty (d_pool e) → pool_plenty (d_pool e')).
Proof.
  unfold source_handle. destruct (negb (EFI_ERROR (an_shell an)) && an_mapped an arg); [|by exists e].
  unfold mbind, Dm_bind, alloc. destruct (AllocatePool (d_pool e)) as [ok p] eqn:EA.
  pose proof (AllocatePool_live _ _ _ EA) as L. cbn [fst andb].
  assert (pool_plenty (d_pool e) → pool_plenty p) as PP.
  { intros K. rewrite (AllocatePool_plenty _ K) in EA. by injection EA as <- <-. }
  destruct ok; cbn [negb andb].
  - destruct (an_handle an) as [st h]; cbn [fst snd]. eexists. unfold set_pool, mret, Dm_ret. cbn [d_pool d_dev d_open d_out].
    split; [by destruct (EFI_ERROR st)|]. cbn. split_and!; (done || lia).
  - eexists. split; [reflexivity|]. cbn. split_and!; (done || lia).
Qed.

(** The application on every branch: it does not fault, frees its memory and
    closes its files; a request that is refused gives its status; one that
    succeeds leaves, in the file that the first willing volume created, the blocks
    asked for and then what the file held beyond them. On a reliable device and
    file a range inside the device succeeds. *)
Theorem DumpBlockApp_exact an Argv e
  (Hd : src_ok (d_dev e))
  (Hnum : ∀ a, 0 <= (StrDecimalToUintnS a).2 < 2 ^ 64)
  (Hvol : EFI_ERROR (an_filesystems an) = false → an_volumes an ≠ [])
  (Hpos : ∀ path k f, first_volume (an_volumes an) 0 path = Some (k, f) → position f = 0)
  (Hwrap : ∀ s c p, dump_request an (AllocatePool (d_pool e)).1 Argv = inr (s, c, p) → s + c < 2 ^ 64) :
  ∃ st e', DumpBlockAppEntry an Argv e = Some (st, e') ∧
    pool_live (d_pool e') = pool_live (d_pool e) ∧ d_open e' = d_open e ∧
    match dump_request an (AllocatePool (d_pool e)).1 Argv with
    | inl err => st = err ∧ EFI_ERROR st = true
    | inr (StartLba, BlockCount, path) =>
        dumped an StartLba BlockCount path e st e' ∧
        (StartLba + BlockCount <= (src_media (d_dev e)).2 + 1 → pool_plenty (d_pool e) →
         EFI_ERROR (an_filesystems an) = false → is_Some (first_volume (an_volumes an) 0 (strip_prefix path)) →
         src_reliable (D := D) → out_reliable (F := F) → st = EFI_SUCCESS)
    end.
Proof.
  unfold DumpBlockAppEntry, dump_request in *. destruct (EFI_ERROR (an_params an)) eqn:EP.
  { by exists (an_params an), e. }
  destruct (Z.eqb_spec (len Argv) 5) as [L|L]; cbn [negb].
  2: { destruct Argv as [|? [|? [|? [|? [|? [|? ?]]]]]]; [by exists EFI_INVALID_PARAMETER, e..|by destruct L|].
       by exists EFI_INVALID_PARAMETER, e. }
  do 5 (destruct Argv as [|? Argv]; [discriminate L|]). destruct Argv; [|cbn in L; lia]. clear L.
  set (arg1 := l0) in *. set (ok := (AllocatePool (d_pool e)).1) in *.
  destruct (source_handle_run an arg1 e) as (e1 & E1 & P1 & D1 & O1 & PP). fold ok in E1.
  set (m0 := negb (EFI_ERROR (an_shell an)) && an_mapped an arg1 && ok && negb (EFI_ERROR (an_handle an).1)) in *.
  change (rd [l; arg1; l1; l2; l3] 1) with (Some arg1). change (rd [l; arg1; l1; l2; l3] 2) with (Some l1).
  change (rd [l; arg1; l1; l2; l3] 3) with (Some l2). change (rd [l; arg1; l1; l2; l3] 4) with (Some l3).
  rewrite !lift_bind. unfold mbind, Dm_bind. rewrite E1. clear E1.
  set (hex := StrHexToUintnS arg1) in *. set (start := StrDecimalToUintnS l1) in *. set (count := StrDecimalToUintnS l2) in *.
  set (mapped := m0 && negb ((an_handle an).2 =? 0)) in *.
  set (handle := if mapped then (an_handle an).2 else hex.2) in *.
  assert ((if (if m0 then (an_handle an).2 else 0) =? 0
           then let '(Status, HandleValue) := hex in (EFI_ERROR Status || (HandleValue =? 0), HandleValue)
           else (false, if m0 then (an_handle an).2 else 0)) =
          (negb mapped && (EFI_ERROR hex.1 || (hex.2 =? 0)), handle)) as ->.
  { unfold handle, mapped. destruct hex as [hs hv]. destruct m0; cbn [andb negb fst snd]; [|done].
    by destruct ((an_handle an).2 =? 0). }
  destruct (negb mapped && _); [by eexists _, e1|].
  destruct start as [ss sv] eqn:Es, count as [cs cv] eqn:Ec. cbn [fst snd] in *.
  destruct (EFI_ERROR ss); cbn [orb] in *; [by eexists _, e1|].
  destruct (EFI_ERROR cs || (cv =? 0)) eqn:EC; [by eexists _, e1|].
  destruct (EFI_ERROR (an_blockio an handle)) eqn:EB; [by exists (an_blockio an handle), e1|].
  apply orb_false_iff in EC as [_ EC%Z.eqb_neq].
  pose proof (Hnum l1) as N1. fold start in N1. rewrite Es in N1. pose proof (Hnum l2) as N2. fold count in N2. rewrite Ec in N2.
  cbn [snd] in N1, N2.
  destruct (dump_range_run an sv cv l3 e1) as (st & e' & E' & P' & O' & Out & R).
  { by rewrite D1. } { lia. } { lia. } { by eapply Hwrap. } { done. } { by apply Hpos. }
  exists st, e'. split_and!; [exact E'|congruence|congruence|..].
  - unfold dumped in *. by rewrite D1 in Out.
  - rewrite D1 in R. intros. by apply R; auto.
Qed.
End Theorems.

(** The name of the volume in the path has no effect: it is cut off, and the first
    volume that creates the rest is used. *)
Lemma strip_prefix_ignores name rest :
  Forall (λ c, c ≠ 58 ∧ is_separator c = false) name → len name < 16 → strip_prefix (name ++ 58 :: 92 :: rest) = rest.
Proof.
  intros Hn Hl. unfold strip_prefix.
  assert (∀ j, find_colon (name ++ 58 :: 92 :: rest) j = Some (j + len name)) as E.
  { clear Hl. induction Hn as [|c name [Hc Hs] _ IH]; intros j; cbn [app find_colon].
    - cbn. f_equal. lia.
    - rewrite (proj2 (Z.eqb_neq c 58)), Hs by done. rewrite IH. f_equal. cbn [length]. lia. }
  rewrite E, Z.add_0_l. rewrite (proj2 (Z.ltb_lt _ _)) by done.
  rewrite drop_app_ge by lia. replace (Z.to_nat (len name + 1) - length name)%nat with 1%nat by lia. done.
Qed.

(** ** The NAND flash as a source *)

#[export] Instance nand_source {H} `{NandHal H} : BlockRead (AL_NAND_CONTEXT H) := {|
  src_media c := (AlNand.BlockSize (AlNand.Media c), AlNand.LastBlock (AlNand.Media c));
  ReadBlocks lba size c :=
    '(st, b, c') ← AlNandBlockIoReadBlocks c (MediaId (AlNand.Media c)) lba size (Some (replicate (Z.to_nat size) 0));
    Some (st, default [] b, c')
|}.

#[export] Program Instance nand_source_laws {H} `{NandHalLaws H} : SourceLaws (AL_NAND_CONTEXT H) := {|
  src_ok c := ctx_ok c ∧ AlNand.Media c = AlNand.mkMedia 0 true true BENAND_PAGE_SIZE (BENAND_NUM_PAGES - 1);
  block c i := ctx_image c i;
  src_reliable := hal_reliable (H := H)
|}.
Next Obligation. intros H H0 H1 c [_ E]. cbn. by rewrite E. Qed.
Next Obligation. intros H H0 H1 c i [Hc E] Hi. cbn. rewrite E. unfold ctx_image. by rewrite length_page_image. Qed.
Next Obligation.
  intros H H0 H1 c lba n [Hc E] Hl Hn Hle Hm. cbn [src_media ReadBlocks nand_source] in *. rewrite E in *. cbn [fst snd AlNand.BlockSize AlNand.LastBlock] in *.
  set (buf := replicate _ 0). assert (len buf = n * BENAND_PAGE_SIZE) as L.
  { unfold buf. rewrite length_replicate. unfold BENAND_PAGE_SIZE. lia. }
  pose proof (ReadBlocks_exact c lba (Z.to_nat n) buf Hc Hl ltac:(lia) ltac:(lia) ltac:(rewrite Z2Nat.id; lia)) as K.
  rewrite L, E in K. destruct K as (st & b & c' & -> & RL & _ & S & D & R). cbn [mbind option_bind default].
  exists st, b, c'. split_and!.
  - done.
  - by eapply read_leaves_ok.
  - destruct RL as (h & -> & _). exact E.
  - destruct RL as (h & -> & _). cbn [AlNand.Media set_obj]. by rewrite E.
  - intros i. by apply read_leaves_image.
  - intros K. assert (st = EFI_SUCCESS) as Es by (destruct S as [->| ->]; done). rewrite (D Es). unfold page_images. rewrite Z2Nat.id by lia.
    induction (seqZ lba n) as [|x l IH]; [done|]. cbn [List.map mjoin list_join concat]. by rewrite <- IH.
  - intros K. by rewrite (R K).
Qed.

(** ** An example: the NAND flash to a file *)

(** A file as its bytes and the position. *)
Definition SimFile : Type := list Z * Z.
#[export] Instance sim_file : OutputFile SimFile := {|
  Write data f := (EFI_SUCCESS, len data, (written f.1 f.2 data, f.2 + len data)); Flush f := f
|}.
#[export] Program Instance sim_file_laws : OutputLaws SimFile := {| contents f := f.1; position f := f.2; out_reliable := True |}.
Next Obligation. intros data f Hf. by eexists _, _, _. Qed.
Next Obligation. done. Qed.

(** Decimal numbers, for the example's arguments. *)
Definition decimal (s : list Z) : EFI_STATUS * Z :=
  if forallb (λ c, zbetween 48 c 57) s then (EFI_SUCCESS, foldl (λ v c, v * 10 + (c - 48)) 0 s mod 2 ^ 64) else (EFI_UNSUPPORTED, 0).
#[export] Instance sim_strings : ShellStrings := {| StrDecimalToUintnS := decimal; StrHexToUintnS s := (EFI_UNSUPPORTED, 0) |}.

Definition demo_volumes : list (VOLUME SimFile) :=
  [mkVolume EFI_SUCCESS EFI_SUCCESS (λ _, (EFI_WRITE_PROTECTED, ([], 0)));
   mkVolume EFI_SUCCESS EFI_SUCCESS (λ _, (EFI_SUCCESS, (replicate 8192 7, 0)))].
Definition demo_dump : DUMP_ANSWERS SimFile :=
  mkDumpAnswers EFI_SUCCESS EFI_SUCCESS (λ _, true) (EFI_SUCCESS, 5) (λ _, EFI_SUCCESS) EFI_SUCCESS demo_volumes.

(** Three pages of the NAND to fs0:\d: the file is made on the second volume, and
    keeps what it held beyond them. *)
Lemma DumpBlockApp_exact_witness :
  ∃ e', DumpBlockAppEntry demo_dump [[]; [110]; [54; 51]; [51]; [102; 115; 48; 58; 92; 100]]
          (mkDump (mkPool [] 2) demo_ctx 0 None) = Some (EFI_SUCCESS, e') ∧
    pool_live (d_pool e') = 2 ∧ d_open e' = 0 ∧
    ∃ f, d_out e' = Some (1, [100], f) ∧ f.1 = page_images demo_ctx 63 3 ++ replicate 2048 7.
Proof.
  assert (dump_request demo_dump true [[]; [110]; [54; 51]; [51]; [102; 115; 48; 58; 92; 100]] =
    inr (63, 3, [102; 115; 48; 58; 92; 100])) as R by reflexivity.
  destruct (DumpBlockApp_exact (D := AL_NAND_CONTEXT SimHal) (F := SimFile) demo_dump
    [[]; [110]; [54; 51]; [51]; [102; 115; 48; 58; 92; 100]] (mkDump (mkPool [] 2) demo_ctx 0 None))
    as (st & e' & E & P & O & K).
  - split; [apply demo_ctx_ok|reflexivity].
  - intros a. cbn. unfold decimal. destruct (forallb _ _); [apply Z.mod_pos_bound|]; done.
  - discriminate.
  - intros path k f. cbn. intros [= _ <-]. reflexivity.
  - intros s c p. change (AllocatePool (d_pool _)).1 with true. rewrite R. intros [= <- <- _]. reflexivity.
  - change (AllocatePool (d_pool _)).1 with true in K. rewrite R in K. destruct K as [K1 K2].
    assert (st = EFI_SUCCESS) as ->.
    { apply K2; [done|done|done|by eexists|apply sim_reliable_hal|exact I]. }
    exists e'. split_and!; [exact E|exact P|exact O|].
    destruct (K1 eq_refl) as (_ & _ & k & f0 & f & Hf & Ho & C). injection Hf as <- <-.
    exists f. split; [exact Ho|]. exact C.
Defined.
