(* ===== verification/BootMan.v ===== *)
(** * The platform's boot manager

    Library/PlatformBootManagerLib: consoles, hot keys and boot options. The UEFI
    boot manager library, the device path library and the firmware volumes are
    interfaces with their documented laws; device paths are bytes. *)

From Stdlib Require Import Strings.String.
From S2P Require Import Prelude Efi Spi SpiNor SpiLoader.

(** ** Device paths *)

(** A node is a type, a subtype and its data; its length is in its header. *)
Record NODE := mkNode { node_type : Z; node_subtype : Z; node_data : list Z }.
Definition node_bytes (n : NODE) : list Z :=
  [node_type n; node_subtype n] ++ le_bytes 2 (4 + len (node_data n)) ++ node_data n.
Definition END_NODE : list Z := [0x7F; 0xFF; 4; 0].
Definition path_bytes (ns : list NODE) : list Z := concat (List.map node_bytes ns) ++ END_NODE.
Definition node_ok (n : NODE) : Prop := node_type n ≠ 0x7F ∧ len (node_data n) < 2 ^ 16 - 4.
Definition path_ok (p : list Z) : Prop := ∃ ns, Forall node_ok ns ∧ p = path_bytes ns.

(** CompareMem of BaseMemoryLib: reads up to the first difference. *)
Fixpoint CompareMem (a b : list Z) (n : nat) : option Z :=
  match n with
  | O => Some 0
  | S n' =>
      match a, b with
      | x :: a', y :: b' => if x =? y then CompareMem a' b' n' else Some (x - y)
      | _, _ => None
      end
  end.

(** DevicePathLib. *)
Class DevicePathLib := {
  GetDevicePathSize : list Z → Z;
  AppendDevicePathNode : list Z → NODE → list Z;
  FwVolNode : EFI_GUID → NODE                 (* EfiInitializeFwVolDevicepathNode *)
}.

Definition guid_ok (g : EFI_GUID) : Prop :=
  0 <= Data1 g < 2 ^ 32 ∧ 0 <= Data2 g < 2 ^ 16 ∧ 0 <= Data3 g < 2 ^ 16 ∧ length (Data4 g) = 8%nat.

Class DevicePathLaws `{DevicePathLib} := {
  size_law ns : Forall node_ok ns → GetDevicePathSize (path_bytes ns) = len (path_bytes ns);
  append_law ns n : Forall node_ok ns → node_ok n → AppendDevicePathNode (path_bytes ns) n = path_bytes (ns ++ [n]);
  node_law g : guid_ok g → node_ok (FwVolNode g);
  node_inj g g' : guid_ok g → guid_ok g' → FwVolNode g = FwVolNode g' → g = g'
}.

(** ** The boot manager library *)

Inductive CONSOLE := ConIn | ConOut | ErrOut.

Record OPTION := mkOption {
  OptionNumber : Z;
  Attributes : Z;
  Description : option (list Z);
  FilePath : option (list Z)
}.

(** UefiBootManagerLib, over the state of variables and devices. Options are added
    at the end of the boot order. *)
Class BootManagerLib (S : Type) := {
  EfiEventGroupSignal : S → S;
  EfiBootManagerDispatchDeferredImages : S → S;
  EfiBootManagerConnectAll : S → S;
  EfiBootManagerRefreshAllBootOption : S → S;
  EfiBootManagerUpdateConsoleVariable : CONSOLE → list Z → S → S;
  EfiBootManagerGetLoadOptions : S → list OPTION;
  EfiBootManagerInitializeLoadOption : Z → list Z → option (list Z) → S → EFI_STATUS;
  EfiBootManagerAddLoadOptionVariable : Z → list Z → option (list Z) → S → S;
  EfiBootManagerDeleteLoadOptionVariable : Z → S → S;
  EfiBootManagerGetBootManagerMenu : S → EFI_STATUS * OPTION * S;
  EfiBootManagerAddKeyOptionVariable : Z → Z → S → S;
  EfiBootManagerRegisterBootDescriptionHandler : S → S;
  EfiBootManagerBoot : OPTION → S → S
}.

(** A firmware volume: what HandleProtocol answers, which files it has, and its
    device path. *)
Record FV := mkFv { fv_protocol : EFI_STATUS; fv_read : EFI_GUID → EFI_STATUS; fv_path : option (list Z) }.

(** What LocateHandleBuffer answers: the device paths of the text consoles, and the
    firmware volumes. *)
Record BOOT_ANSWERS := mkBootAnswers {
  an_text_out : EFI_STATUS * list (option (list Z));
  an_text_in : EFI_STATUS * list (option (list Z));
  an_fvs : EFI_STATUS * list FV
}.

Definition mUefiShellFileGuid : EFI_GUID :=
  mkGuid 0x7C04A583 0x9E3E 0x4f1c [0xAD; 0x65; 0xE0; 0x52; 0x68; 0xD0; 0xB4; 0xD1].
Definition mRouterOSLoaderFileGuid : EFI_GUID :=
  mkGuid 0x3a8f7c2e 0xd159 0x4b6a [0x91; 0xe0; 0x7f; 0x4c; 0x5b; 0x2a; 0x8d; 0x63].
Definition LOAD_OPTION_ACTIVE : Z := 0x1.
Definition LOAD_OPTION_CATEGORY_APP : Z := 0x100.
Definition SCAN_F2 : Z := 0x0C.
Definition SCAN_ESC : Z := 0x17.

(** [PlatformNandBootDescription]: a copy of the text for the NAND's handle. *)
Definition PlatformNandBootDescription (Handled : EFI_STATUS) (p : Pool) : option (list Z) * Pool :=
  if negb (EFI_ERROR Handled)
  then let '(ok, p) := AllocatePool p in (if ok then Some (chars "Built-in NAND") else None, p)
  else (None, p).

Section Code.
Context {S : Type} `{DevicePathLib, BootManagerLib S}.

(** The variables of one kind of handles; a handle without a path is passed over. *)
Definition register_paths (consoles : list CONSOLE) (paths : list (option (list Z))) (s : S) : S :=
  foldl (λ s p, match p with
    | Some path => foldl (λ s c, EfiBootManagerUpdateConsoleVariable c path s) s consoles
    | None => s end) s paths.

Definition PlatformRegisterConsoles (an : BOOT_ANSWERS) (s : S) : S :=
  let s := if negb (EFI_ERROR (an_text_out an).1) then register_paths [ConOut; ErrOut] (an_text_out an).2 s else s in
  if negb (EFI_ERROR (an_text_in an).1) then register_paths [ConIn] (an_text_in an).2 s else s.

Definition PlatformBootManagerBeforeConsole (an : BOOT_ANSWERS) (s : S) : S :=
  let s := EfiEventGroupSignal s in
  let s := EfiBootManagerDispatchDeferredImages s in
  let s := EfiBootManagerConnectAll s in
  PlatformRegisterConsoles an s.

(** The volume that has the file. *)
Definition find_fv (FileGuid : EFI_GUID) (fvs : list FV) : option FV :=
  List.find (λ v, negb (EFI_ERROR (fv_protocol v)) && negb (EFI_ERROR (fv_read v FileGuid))) fvs.

(** Is there an option with the path? The bytes compared are those of the path
    looked for; none when that is NULL. *)
Fixpoint find_option (options : list OPTION) (DevicePath : option (list Z)) : option bool :=
  match options with
  | [] => Some false
  | o :: rest =>
      match FilePath o with
      | None => find_option rest DevicePath
      | Some p =>
          r ← match DevicePath with
              | Some d => CompareMem p d (Z.to_nat (GetDevicePathSize d))
              | None => Some 0
              end;
          if r =? 0 then Some true else find_option rest DevicePath
      end
  end.

(** [None] for the failed ASSERTs: a volume without a device path, and freeing the
    NULL path that AppendDevicePathNode returns without memory. *)
Definition PlatformRegisterFvBootOption (an : BOOT_ANSWERS) (FileGuid : EFI_GUID) (Desc : list Z) (Attrs : Z)
    (s : S) (p : Pool) : option (S * Pool) :=
  if EFI_ERROR (an_fvs an).1 then Some (s, p)
  else
    let p := mkPool (pool_script p) (pool_live p + 1) in
    match find_fv FileGuid (an_fvs an).2 with
    | None => Some (s, FreePool p)
    | Some v =>
        path ← fv_path v;
        let '(ok, p) := AllocatePool p in
        let DevicePath := if ok then Some (AppendDevicePathNode path (FwVolNode FileGuid)) else None in
        let p := FreePool p in
        Found ← find_option (EfiBootManagerGetLoadOptions s) DevicePath;
        let s :=
          if negb Found then
            if negb (EFI_ERROR (EfiBootManagerInitializeLoadOption Attrs Desc DevicePath s))
            then EfiBootManagerAddLoadOptionVariable Attrs Desc DevicePath s else s
          else s in
        if ok then Some (s, FreePool p) else None
    end.

Definition PlatformBootManagerAfterConsole (an : BOOT_ANSWERS) (s : S) (p : Pool) : option (S * Pool) :=
  let '(Status, BootOption, s) := EfiBootManagerGetBootManagerMenu s in
  let s :=
    if negb (EFI_ERROR Status)
    then EfiBootManagerAddKeyOptionVariable (u16 (OptionNumber BootOption)) SCAN_ESC
           (EfiBootManagerAddKeyOptionVariable (u16 (OptionNumber BootOption)) SCAN_F2 s)
    else s in
  let s := EfiBootManagerRegisterBootDescriptionHandler s in
  '(s, p) ← PlatformRegisterFvBootOption an mRouterOSLoaderFileGuid (chars "RouterOS") LOAD_OPTION_ACTIVE s p;
  PlatformRegisterFvBootOption an mUefiShellFileGuid (chars "UEFI Shell")
    (Z.lor LOAD_OPTION_ACTIVE LOAD_OPTION_CATEGORY_APP) s p.

(** StrnCmp with the 26 characters of the text. *)
Definition non_block : list Z := chars "UEFI Non-Block Boot Device".
Definition is_non_block (o : OPTION) : bool :=
  match Description o with Some d => bool_decide (take 26 d = non_block) | None => false end.

Definition PlatformBootManagerUnableToBoot (s : S) : S :=
  let '(Status, BootManagerMenu, s) := EfiBootManagerGetBootManagerMenu s in
  if EFI_ERROR Status then s
  else
    let s := EfiBootManagerConnectAll s in
    let s := EfiBootManagerRefreshAllBootOption s in
    let s := foldl (λ s o, if is_non_block o then EfiBootManagerDeleteLoadOptionVariable (OptionNumber o) s else s) s
               (EfiBootManagerGetLoadOptions s) in
    EfiBootManagerBoot BootManagerMenu s.
End Code.

(** ** Comparing device paths *)

Lemma CompareMem_app x y a b n :
  length x = length y →
  ∃ r, CompareMem (x ++ a) (y ++ b) (length y + n) = (if bool_decide (x = y) then CompareMem a b n else Some r) ∧ r ≠ 0.
Proof.
  revert y. induction x as [|c x IH]; intros [|d y] L; try discriminate L; [by exists 1|].
  cbn [app length Nat.add CompareMem]. destruct (Z.eqb_spec c d) as [->|Hne].
  - destruct (IH y ltac:(cbn in L; lia)) as (r & -> & Hr). exists r. split; [|done].
    case_bool_decide as E1; case_bool_decide as E2; [done|by subst|by injection E2|done].
  - exists (c - d). split; [|lia]. rewrite bool_decide_eq_false_2 by congruence. done.
Qed.

Definition node_header (n : NODE) : list Z := [node_type n; node_subtype n] ++ le_bytes 2 (4 + len (node_data n)).

Lemma node_header_len n m :
  node_ok n → node_ok m → node_header n = node_header m → length (node_data n) = length (node_data m).
Proof.
  intros [_ Hn] [_ Hm] E. unfold node_header in E. cbn [le_bytes app] in E. injection E as _ _ E1 E2.
  change (2 ^ 16) with 65536 in *. change (2 ^ 8) with 256 in *. Z.div_mod_to_equations. lia.
Qed.

(** The comparison of a path with the bytes of another reads no further than the
    first, and finds whether they are the same. *)
Lemma CompareMem_paths ms ns :
  Forall node_ok ms → Forall node_ok ns →
  ∃ r, CompareMem (path_bytes ms) (path_bytes ns) (length (path_bytes ns)) = Some r ∧ (r = 0 ↔ ms = ns).
Proof.
  intros Hms. revert ns. induction Hms as [|m ms Hm _ IH]; intros ns Hns; destruct Hns as [|n ns Hn Hns].
  - by exists 0.
  - assert (node_type n ≠ 0x7F) as T by apply Hn. exists (0x7F - node_type n). split; [|split; [lia|done]].
    unfold path_bytes, node_bytes. cbn [List.map concat app END_NODE length CompareMem]. by rewrite (proj2 (Z.eqb_neq _ _)).
  - assert (node_type m ≠ 0x7F) as T by apply Hm. exists (node_type m - 0x7F). split; [|split; [lia|done]].
    unfold path_bytes, node_bytes. cbn [List.map concat app END_NODE length CompareMem]. by rewrite (proj2 (Z.eqb_neq _ _)).
  - assert (∀ n ns, path_bytes (n :: ns) = node_header n ++ node_data n ++ path_bytes ns) as PB.
    { intros k ks. unfold path_bytes, node_bytes, node_header. cbn [List.map concat]. by rewrite <- !app_assoc. }
    rewrite !PB, !length_app.
    destruct (CompareMem_app (node_header m) (node_header n) (node_data m ++ path_bytes ms) (node_data n ++ path_bytes ns)
      (length (node_data n) + length (path_bytes ns)) eq_refl) as (r & -> & Hr).
    case_bool_decide as EH.
    2: { exists r. split; [done|]. split; [done|]. by intros [= -> _]. }
    destruct (CompareMem_app (node_data m) (node_data n) (path_bytes ms) (path_bytes ns) (length (path_bytes ns))
      (node_header_len _ _ Hm Hn EH)) as (r2 & -> & Hr2).
    case_bool_decide as ED.
    2: { exists r2. split; [done|]. split; [done|]. by intros [= -> _]. }
    destruct (IH ns Hns) as (r3 & -> & K). exists r3. split; [done|]. rewrite K. split; [|by intros [= _ ->]].
    intros ->. f_equal. destruct m as [t1 s1 d1], n as [t2 s2 d2]. unfold node_header in EH. cbn in EH, ED.
    injection EH as -> -> _ _. by rewrite ED.
Qed.

Lemma guid_loader : guid_ok mRouterOSLoaderFileGuid.
Proof. by repeat split. Qed.
Lemma guid_shell : guid_ok mUefiShellFileGuid.
Proof. by repeat split. Qed.

Section Options.
Context {S : Type} `{DevicePathLaws, BootManagerLib S}.

Definition paths_ok (l : list OPTION) : Prop := ∀ o p, o ∈ l → FilePath o = Some p → path_ok p.
Definition has_path (l : list OPTION) (p : list Z) : bool :=
  existsb (λ o, bool_decide (FilePath o = Some p)) l.

Lemma path_ok_inj ms ns : Forall node_ok ms → Forall node_ok ns → path_bytes ms = path_bytes ns → ms = ns.
Proof.
  intros Hm Hn E. destruct (CompareMem_paths ms ns Hm Hn) as (r & C & K). apply K.
  rewrite E in C. clear -C. assert (∀ l, CompareMem l l (length l) = Some 0) as R.
  { intros l. induction l as [|x l IH]; [done|]. cbn. by rewrite Z.eqb_refl. }
  rewrite R in C. by injection C.
Qed.

Lemma find_option_run l p :
  paths_ok l → path_ok p → find_option l (Some p) = Some (has_path l p).
Proof.
  intros Hl (ns & Hns & ->). induction l as [|o l IH]; [done|]. cbn [find_option has_path existsb].
  assert (paths_ok l) as Hl' by (intros o' q Ho; apply Hl; by right). specialize (IH Hl'). fold (has_path l (path_bytes ns)).
  destruct (FilePath o) as [q|] eqn:Eq; [|rewrite bool_decide_eq_false_2 by done; exact IH].
  destruct (Hl o q ltac:(left) Eq) as (ms & Hms & ->). rewrite size_law, Nat2Z.id by done.
  destruct (CompareMem_paths ms ns Hms Hns) as (r & -> & K). cbn [mbind option_bind].
  destruct (Z.eqb_spec r 0) as [E|E].
  - by rewrite bool_decide_eq_true_2 by (apply K in E; by rewrite E).
  - rewrite bool_decide_eq_false_2, IH; [done|]. intros [= K2%path_ok_inj]; [by apply E, K|done..].
Qed.

(** The library's options: an addition is made at the end, or not at all; with
    room it is made. A deletion removes the options of a number. Consoles, keys,
    handlers and the menu's own option do not touch the others. *)
Class BootManagerLaws := {
  room : S → Prop;
  add_law a d p s : ∃ n,
    (EfiBootManagerGetLoadOptions (EfiBootManagerAddLoadOptionVariable a d (Some p) s) =
       EfiBootManagerGetLoadOptions s ++ [mkOption n a (Some d) (Some p)] ∨
     EfiBootManagerGetLoadOptions (EfiBootManagerAddLoadOptionVariable a d (Some p) s) = EfiBootManagerGetLoadOptions s) ∧
    (room s → room (EfiBootManagerAddLoadOptionVariable a d (Some p) s) ∧
      EfiBootManagerInitializeLoadOption a d (Some p) s = EFI_SUCCESS ∧
      EfiBootManagerGetLoadOptions (EfiBootManagerAddLoadOptionVariable a d (Some p) s) =
        EfiBootManagerGetLoadOptions s ++ [mkOption n a (Some d) (Some p)]);
  delete_law n s :
    EfiBootManagerGetLoadOptions (EfiBootManagerDeleteLoadOptionVariable n s) =
      List.filter (λ o, negb (OptionNumber o =? n)) (EfiBootManagerGetLoadOptions s);
  key_law n k s :
    EfiBootManagerGetLoadOptions (EfiBootManagerAddKeyOptionVariable n k s) = EfiBootManagerGetLoadOptions s ∧
    (room s → room (EfiBootManagerAddKeyOptionVariable n k s));
  handler_law s :
    EfiBootManagerGetLoadOptions (EfiBootManagerRegisterBootDescriptionHandler s) = EfiBootManagerGetLoadOptions s ∧
    (room s → room (EfiBootManagerRegisterBootDescriptionHandler s));
  boot_law o s : EfiBootManagerGetLoadOptions (EfiBootManagerBoot o s) = EfiBootManagerGetLoadOptions s;
  menu_law s : ∃ st o s', EfiBootManagerGetBootManagerMenu s = (st, o, s') ∧ (room s → room s') ∧
    (paths_ok (EfiBootManagerGetLoadOptions s) → paths_ok (EfiBootManagerGetLoadOptions s')) ∧
    (∃ menu, EfiBootManagerGetLoadOptions s' = EfiBootManagerGetLoadOptions s ++ menu)
}.
Context {BL : BootManagerLaws}.
Implicit Types s : S.

(** The path of a file in the volume that has it. *)
Definition fv_file (an : BOOT_ANSWERS) (g : EFI_GUID) : option (list Z) :=
  if EFI_ERROR (an_fvs an).1 then None
  else v ← find_fv g (an_fvs an).2; path ← fv_path v; Some (AppendDevicePathNode path (FwVolNode g)).

(** Every volume has a device path, as the firmware's volumes do. *)
Definition fvs_ok (an : BOOT_ANSWERS) : Prop :=
  ∀ v, v ∈ (an_fvs an).2 → ∃ p, fv_path v = Some p ∧ path_ok p.

Lemma fv_file_ok an g p : fvs_ok an → guid_ok g → fv_file an g = Some p → path_ok p.
Proof.
  intros Hf Hg. unfold fv_file. destruct (EFI_ERROR _); [done|]. destruct (find_fv g _) as [v|] eqn:E; [|done].
  cbn [mbind option_bind]. apply List.find_some in E as [Hin _]. apply list_elem_of_In in Hin.
  destruct (Hf v Hin) as (q & -> & ns & Hns & ->). cbn [mbind option_bind]. intros [= <-].
  rewrite append_law by (done || by apply node_law). exists (ns ++ [FwVolNode g]). split; [|done].
  apply list.Forall_app. split; [done|]. repeat constructor; by apply node_law.
Qed.

(** Registering a file: with memory the call returns, the pool is as before, and
    the options are the old ones, and the new one at the end if the file was
    found and no option had its path; with room it is there. *)
Lemma register_run an g d a s p :
  fvs_ok an → guid_ok g → pool_plenty p → paths_ok (EfiBootManagerGetLoadOptions s) →
  ∃ s' p' n, PlatformRegisterFvBootOption an g d a s p = Some (s', p') ∧
    pool_live p' = pool_live p ∧ pool_plenty p' ∧ (room s → room s') ∧
    let new := match fv_file an g with
      | Some q => if has_path (EfiBootManagerGetLoadOptions s) q then [] else [mkOption n a (Some d) (Some q)]
      | None => [] end in
    (EfiBootManagerGetLoadOptions s' = EfiBootManagerGetLoadOptions s ∨
     EfiBootManagerGetLoadOptions s' = EfiBootManagerGetLoadOptions s ++ new) ∧
    (room s → EfiBootManagerGetLoadOptions s' = EfiBootManagerGetLoadOptions s ++ new).
Proof.
  intros Hf Hg Hp Hl. pose proof (fv_file_ok an g) as FO. unfold PlatformRegisterFvBootOption, fv_file in *.
  destruct (EFI_ERROR (an_fvs an).1).
  { exists s, p, 0. rewrite app_nil_r. split_and!; auto. }
  destruct (find_fv g (an_fvs an).2) as [v|] eqn:E; cbn [mbind option_bind] in FO |- *.
  2: { eexists s, _, 0. rewrite app_nil_r. split_and!; [done|cbn; lia|done|auto..]. }
  apply List.find_some in E as [Hin _]. apply list_elem_of_In in Hin. destruct (Hf v Hin) as (path & Ep & Hpath).
  rewrite Ep in *. cbn [mbind option_bind] in FO |- *. specialize (FO _ Hf Hg eq_refl).
  set (q := AppendDevicePathNode path (FwVolNode g)) in *.
  rewrite AllocatePool_plenty by done. rewrite find_option_run by done. cbn [mbind option_bind].
  destruct (has_path _ q); cbn [negb].
  { eexists s, _, 0. rewrite app_nil_r. split_and!; [done|cbn; lia|done|auto..]. }
  destruct (add_law a d q s) as (n & Hadd & Hroom).
  destruct (EFI_ERROR (EfiBootManagerInitializeLoadOption a d (Some q) s)) eqn:EI; cbn [negb].
  - eexists s, _, n. split_and!; [done|cbn; lia|done|auto..|].
    intros R. destruct (Hroom R) as (_ & K & _). by rewrite K in EI.
  - eexists _, _, n. split_and!; [done|cbn; lia|done| | |].
    + intros R. by apply Hroom.
    + destruct Hadd; auto.
    + intros R. by apply Hroom.
Qed.

Lemma has_path_app l1 l2 p : has_path (l1 ++ l2) p = has_path l1 p || has_path l2 p.
Proof. apply existsb_app. Qed.

(** Registering twice is registering once. *)
Lemma register_twice an g d a d2 a2 s p s1 p1 s2 p2 :
  fvs_ok an → guid_ok g → pool_plenty p → paths_ok (EfiBootManagerGetLoadOptions s) → room s →
  PlatformRegisterFvBootOption an g d a s p = Some (s1, p1) → PlatformRegisterFvBootOption an g d2 a2 s1 p1 = Some (s2, p2) →
  EfiBootManagerGetLoadOptions s2 = EfiBootManagerGetLoadOptions s1.
Proof.
  intros Hf Hg Hp Hl Hr E1 E2. destruct (register_run an g d a s p Hf Hg Hp Hl) as (s1' & p1' & n & E & _ & Hp1 & Hr1 & _ & N).
  rewrite E1 in E. injection E as <- <-. specialize (N Hr).
  assert (paths_ok (EfiBootManagerGetLoadOptions s1)) as Hl1.
  { rewrite N. intros o q [Ho|Ho]%elem_of_app; [by apply Hl|]. pose proof (fv_file_ok an g) as FO.
    destruct (fv_file an g) as [q'|]; [|by apply elem_of_nil in Ho]. destruct (has_path _ q'); [by apply elem_of_nil in Ho|].
    apply list_elem_of_singleton in Ho as ->. intros [= <-]. by apply FO. }
  destruct (register_run an g d2 a2 s1 p1 Hf Hg Hp1 Hl1) as (s2' & p2' & n2 & E & _ & _ & _ & _ & N2).
  rewrite E2 in E. injection E as <- <-. rewrite (N2 (Hr1 Hr)). destruct (fv_file an g) as [q|]; [|by rewrite app_nil_r].
  destruct (has_path (EfiBootManagerGetLoadOptions s) q) eqn:HP; rewrite N, has_path_app, ?HP; [by rewrite app_nil_r|].
  cbn [has_path existsb FilePath orb]. by rewrite bool_decide_eq_true_2, app_nil_r.
Qed.

(** What a registration adds to the options. *)
Definition added (an : BOOT_ANSWERS) (g : EFI_GUID) (d : list Z) (a n : Z) (l : list OPTION) : list OPTION :=
  match fv_file an g with
  | Some q => if has_path l q then [] else [mkOption n a (Some d) (Some q)]
  | None => []
  end.

Lemma added_ok an g d a n l : fvs_ok an → guid_ok g → paths_ok (added an g d a n l).
Proof.
  intros Hf Hg o q. unfold added. pose proof (fv_file_ok an g) as FO. destruct (fv_file an g) as [q'|]; [|by intros ?%elem_of_nil].
  destruct (has_path _ q'); [by intros ?%elem_of_nil|]. intros ->%list_elem_of_singleton [= <-]. by apply FO.
Qed.

Lemma files_differ an g g' p : fvs_ok an → guid_ok g → guid_ok g' → fv_file an g = Some p → fv_file an g' = Some p → g = g'.
Proof.
  intros Hf Hg Hg'. unfold fv_file. destruct (EFI_ERROR _); [done|].
  assert (∀ g v, find_fv g (an_fvs an).2 = Some v → ∃ ns, Forall node_ok ns ∧ fv_path v = Some (path_bytes ns)) as K.
  { intros k v E. apply List.find_some in E as [Hin _]. apply list_elem_of_In in Hin.
    destruct (Hf v Hin) as (q & E & ns & Hns & ->). by exists ns. }
  destruct (find_fv g _) as [v|] eqn:E1; [|done]. destruct (find_fv g' _) as [v'|] eqn:E2; [|done].
  destruct (K _ _ E1) as (ns & Hns & F1). destruct (K _ _ E2) as (ns' & Hns' & F2).
  cbn [mbind option_bind]. rewrite F1, F2. cbn [mbind option_bind].
  rewrite !append_law by (done || by apply node_law). intros [= <-] [= E].
  apply path_ok_inj in E; [|apply list.Forall_app; split; [done|]; repeat constructor; by apply node_law..].
  apply app_inj_tail in E as [_ E]. symmetry. by apply node_inj.
Qed.

(** After the consoles are up, with memory and room: the boot options are those
    that were there, the menu's, and then RouterOS and the shell, each if its file
    is in a volume and no option has its path; a second start adds neither. *)
Theorem AfterConsole_options an s p
  (Hf : fvs_ok an) (Hp : pool_plenty p) (Hl : paths_ok (EfiBootManagerGetLoadOptions s)) (Hr : room s) :
  ∃ s' p' menu n1 n2, PlatformBootManagerAfterConsole an s p = Some (s', p') ∧ pool_live p' = pool_live p ∧ room s' ∧
    let old := EfiBootManagerGetLoadOptions s ++ menu in
    EfiBootManagerGetLoadOptions s' =
      old ++ added an mRouterOSLoaderFileGuid (chars "RouterOS") LOAD_OPTION_ACTIVE n1 old ++
      added an mUefiShellFileGuid (chars "UEFI Shell") (Z.lor LOAD_OPTION_ACTIVE LOAD_OPTION_CATEGORY_APP) n2 old ∧
    ∀ g q, g = mRouterOSLoaderFileGuid ∨ g = mUefiShellFileGuid → fv_file an g = Some q →
      has_path (EfiBootManagerGetLoadOptions s') q = true.
Proof.
  unfold PlatformBootManagerAfterConsole.
  destruct (menu_law s) as (st & o & s1 & -> & R1 & L1 & menu & M1). specialize (R1 Hr). specialize (L1 Hl).
  set (s2 := if negb (EFI_ERROR st) then _ else s1).
  assert (EfiBootManagerGetLoadOptions s2 = EfiBootManagerGetLoadOptions s1 ∧ room s2) as [G2 R2].
  { unfold s2. destruct (negb _); [|done].
    destruct (key_law (u16 (OptionNumber o)) SCAN_F2 s1) as [K1 K2].
    destruct (key_law (u16 (OptionNumber o)) SCAN_ESC (EfiBootManagerAddKeyOptionVariable (u16 (OptionNumber o)) SCAN_F2 s1)) as [K3 K4].
    rewrite K3, K1. auto. }
  destruct (handler_law s2) as [G3 R3]. set (s3 := EfiBootManagerRegisterBootDescriptionHandler s2) in *.
  specialize (R3 R2). rewrite G2, M1 in G3. set (old := EfiBootManagerGetLoadOptions s ++ menu) in *.
  assert (paths_ok old) as Hold by (by rewrite <- M1).
  destruct (register_run an mRouterOSLoaderFileGuid (chars "RouterOS") LOAD_OPTION_ACTIVE s3 p Hf guid_loader Hp) as
    (s4 & p4 & n1 & E4 & P4 & Hp4 & R4 & _ & G4); [by rewrite G3|].
  rewrite E4. cbn [mbind option_bind]. specialize (R4 R3). specialize (G4 R3). rewrite G3 in G4.
  fold (added an mRouterOSLoaderFileGuid (chars "RouterOS") LOAD_OPTION_ACTIVE n1 old) in G4.
  set (A1 := added an mRouterOSLoaderFileGuid _ _ n1 old) in *.
  destruct (register_run an mUefiShellFileGuid (chars "UEFI Shell") (Z.lor LOAD_OPTION_ACTIVE LOAD_OPTION_CATEGORY_APP) s4 p4
    Hf guid_shell Hp4) as (s5 & p5 & n2 & E5 & P5 & _ & R5 & _ & G5).
  { rewrite G4. intros x q [Hx|Hx]%elem_of_app; [by apply Hold|by apply (added_ok an mRouterOSLoaderFileGuid (chars "RouterOS") LOAD_OPTION_ACTIVE n1 old Hf guid_loader x q)]. }
  specialize (G5 R4). rewrite G4 in G5.
  assert (∀ q, fv_file an mUefiShellFileGuid = Some q → has_path (old ++ A1) q = has_path old q) as SK.
  { intros q Hq. rewrite has_path_app. destruct (has_path A1 q) eqn:HA; [exfalso|by rewrite orb_false_r].
    unfold A1, added in HA. destruct (fv_file an mRouterOSLoaderFileGuid) as [q1|] eqn:EQ; [|done].
    destruct (has_path old q1); [done|]. cbn in HA. rewrite orb_false_r in HA. apply bool_decide_eq_true in HA.
    injection HA as ->. by pose proof (files_differ an _ _ q Hf guid_loader guid_shell EQ Hq). }
  exists s5, p5, menu, n1, n2. split_and!; [done|lia|auto| |].
  - rewrite G5, <- app_assoc. do 2 f_equal. unfold added. destruct (fv_file an mUefiShellFileGuid) as [q|] eqn:EQ; [|done].
    by rewrite SK.
  - intros g q Hg Hq. rewrite G5, !has_path_app. destruct Hg as [->| ->].
    + destruct (has_path old q) eqn:HO; [done|]. unfold A1, added. rewrite Hq, HO. cbn.
      by rewrite bool_decide_eq_true_2.
    + rewrite Hq. destruct (has_path (old ++ A1) q) eqn:HO.
      * rewrite has_path_app in HO. by rewrite HO.
      * cbn. rewrite bool_decide_eq_true_2 by done. by rewrite !orb_true_r.
Qed.

Lemma filter_twice (f g : OPTION → bool) l : List.filter f (List.filter g l) = List.filter (λ o, f o && g o) l.
Proof.
  induction l as [|x l IH]; [done|]. cbn [List.filter]. destruct (g x); cbn [List.filter]; [rewrite andb_true_r|rewrite andb_false_r];
    by rewrite <- IH.
Qed.

(** When nothing boots, the menu is entered with exactly the entries for non-block
    devices gone from the refreshed options. *)
Theorem UnableToBoot_options s st o s1
  (Hm : EfiBootManagerGetBootManagerMenu s = (st, o, s1)) (Hst : EFI_ERROR st = false)
  (Hn : NoDup (List.map OptionNumber
     (EfiBootManagerGetLoadOptions (EfiBootManagerRefreshAllBootOption (EfiBootManagerConnectAll s1))))) :
  EfiBootManagerGetLoadOptions (PlatformBootManagerUnableToBoot s) =
    List.filter (λ o, negb (is_non_block o))
      (EfiBootManagerGetLoadOptions (EfiBootManagerRefreshAllBootOption (EfiBootManagerConnectAll s1))).
Proof.
  unfold PlatformBootManagerUnableToBoot. rewrite Hm, Hst, boot_law.
  set (s2 := EfiBootManagerRefreshAllBootOption _) in *.
  assert (∀ l s, EfiBootManagerGetLoadOptions
      (foldl (λ s o, if is_non_block o then EfiBootManagerDeleteLoadOptionVariable (OptionNumber o) s else s) s l) =
    List.filter (λ o, negb (existsb (λ o', is_non_block o' && (OptionNumber o =? OptionNumber o')) l))
      (EfiBootManagerGetLoadOptions s)) as K.
  { clear -BL. intros l. induction l as [|x l IH]; intros s; cbn [foldl existsb].
    - symmetry. apply List.forallb_filter_id. by induction (EfiBootManagerGetLoadOptions s).
    - rewrite IH. destruct (is_non_block x); cbn [andb orb]; [|done]. rewrite delete_law, filter_twice.
      apply List.filter_ext. intros y. by destruct (OptionNumber y =? OptionNumber x), (existsb _ l). }
  rewrite K. apply List.filter_ext_in. intros x Hx. f_equal.
  destruct (is_non_block x) eqn:Ex.
  - apply existsb_exists. exists x. by rewrite Ex, Z.eqb_refl.
  - apply not_true_iff_false. intros (y & Hy & [Ey En]%andb_prop)%existsb_exists. apply Z.eqb_eq in En.
    assert (x = y) as ->; [|congruence]. clear -Hn Hx Hy En.
    induction (EfiBootManagerGetLoadOptions s2) as [|z l IH]; [done|]. cbn [List.map] in Hn. apply list.NoDup_cons in Hn as [N Hn].
    destruct Hx as [->|Hx], Hy as [->|Hy]; [done|..|by apply IH].
    + destruct N. rewrite En. by apply list_elem_of_In, List.in_map.
    + destruct N. rewrite <- En. by apply list_elem_of_In, List.in_map.
Qed.
End Options.

(** ** A small library *)

(** EFI_GUID in memory, and the node of a file in a firmware volume. *)
Definition guid_bytes (g : EFI_GUID) : list Z :=
  le_bytes 4 (Data1 g) ++ le_bytes 2 (Data2 g) ++ le_bytes 2 (Data3 g) ++ Data4 g.

#[export] Instance sim_paths : DevicePathLib := {|
  GetDevicePathSize p := len p;
  AppendDevicePathNode p n := take (length p - 4) p ++ node_bytes n ++ END_NODE;
  FwVolNode g := mkNode 4 6 (guid_bytes g)
|}.

Lemma le_bytes_inj n a b :
  0 <= a < 2 ^ (8 * Z.of_nat n) → 0 <= b < 2 ^ (8 * Z.of_nat n) → le_bytes n a = le_bytes n b → a = b.
Proof.
  revert a b. induction n as [|n IH]; intros a b Ha Hb; [cbn in *; lia|].
  replace (8 * Z.of_nat (Datatypes.S n)) with (8 * Z.of_nat n + 8) in * by lia. rewrite Z.pow_add_r in * by lia.
  cbn [le_bytes]. intros [= E1 E2]. apply IH in E2; [|split; [apply Z.div_pos; lia|apply Z.div_lt_upper_bound; lia]..].
  rewrite (Z.div_mod a (2 ^ 8)), (Z.div_mod b (2 ^ 8)), E1, E2 by lia. done.
Qed.

#[export] Program Instance sim_path_laws : DevicePathLaws.
Next Obligation. done. Qed.
Next Obligation.
  intros ns n _ _. cbn [AppendDevicePathNode sim_paths]. unfold path_bytes. rewrite List.map_app, concat_app, length_app.
  cbn [List.map concat]. change (length END_NODE) with 4%nat. rewrite take_app_le, take_ge by lia.
  by rewrite app_nil_r, <- app_assoc.
Qed.
Next Obligation.
  intros g (_ & _ & _ & L). split; [done|]. cbn [node_data FwVolNode sim_paths]. unfold guid_bytes.
  rewrite !length_app, !length_le_bytes, L. lia.
Qed.
Next Obligation.
  intros [a1 a2 a3 a4] [b1 b2 b3 b4] (A1 & A2 & A3 & _) (B1 & B2 & B3 & _). cbn [FwVolNode sim_paths].
  intros E%(f_equal node_data). unfold guid_bytes in E. cbn [node_data Data1 Data2 Data3 Data4] in *.
  apply app_inj_1 in E as [E1 E]; [|by rewrite !length_le_bytes]. apply app_inj_1 in E as [E2 E]; [|by rewrite !length_le_bytes].
  apply app_inj_1 in E as [E3 ->]; [|by rewrite !length_le_bytes].
  apply le_bytes_inj in E1, E2, E3; [by subst|done..].
Qed.

(** Options, and the console variables. *)
Definition SimBoot : Type := list OPTION * list (CONSOLE * list Z).
Definition sim_add_option (a : Z) (d : list Z) (p : option (list Z)) (s : SimBoot) : SimBoot :=
  (s.1 ++ [mkOption (len s.1) a (Some d) p], s.2).
#[export] Instance sim_boot : BootManagerLib SimBoot := {|
  EfiEventGroupSignal s := s;
  EfiBootManagerDispatchDeferredImages s := s;
  EfiBootManagerConnectAll s := s;
  EfiBootManagerRefreshAllBootOption s :=
    sim_add_option 1 (chars "UEFI Non-Block Boot Device 2") None (sim_add_option 1 (chars "UEFI PXE") None s);
  EfiBootManagerUpdateConsoleVariable c p s := (s.1, s.2 ++ [(c, p)]);
  EfiBootManagerGetLoadOptions s := s.1;
  EfiBootManagerInitializeLoadOption _ _ _ _ := EFI_SUCCESS;
  EfiBootManagerAddLoadOptionVariable := sim_add_option;
  EfiBootManagerDeleteLoadOptionVariable n s := (List.filter (λ o, negb (OptionNumber o =? n)) s.1, s.2);
  EfiBootManagerGetBootManagerMenu s := (EFI_SUCCESS, mkOption 9 0 None None, s);
  EfiBootManagerAddKeyOptionVariable _ _ s := s;
  EfiBootManagerRegisterBootDescriptionHandler s := s;
  EfiBootManagerBoot _ s := s
|}.

#[export] Program Instance sim_boot_laws : BootManagerLaws (S := SimBoot) := {| room _ := True |}.
Next Obligation. intros a d p s. eexists. split; [left; reflexivity|]. intros _. split_and!; reflexivity. Qed.
Next Obligation. done. Qed.
Next Obligation. done. Qed.
Next Obligation. done. Qed.
Next Obligation. done. Qed.
Next Obligation.
  intros s. eexists _, _, _. split; [reflexivity|]. split_and!; [done|done|]. exists []. by rewrite app_nil_r.
Qed.

Definition demo_fv (g : EFI_GUID) (id : Z) : FV :=
  mkFv EFI_SUCCESS (λ g', if decide (g = g') then EFI_SUCCESS else EFI_NOT_FOUND) (Some (path_bytes [mkNode 4 7 [id]])).
Definition demo_boot : BOOT_ANSWERS :=
  mkBootAnswers (EFI_SUCCESS, [None; Some (path_bytes [mkNode 3 14 [1]])]) (EFI_SUCCESS, [Some (path_bytes [mkNode 3 14 [1]])])
    (EFI_SUCCESS, [demo_fv mUefiShellFileGuid 1; demo_fv mRouterOSLoaderFileGuid 2]).

(** RouterOS comes first whatever the order of the volumes. *)
Lemma AfterConsole_options_witness :
  ∃ s' p', PlatformBootManagerAfterConsole demo_boot (([], []) : SimBoot) (mkPool [] 3) = Some (s', p') ∧ pool_live p' = 3 ∧
    List.map Description s'.1 = [Some (chars "RouterOS"); Some (chars "UEFI Shell")].
Proof.
  destruct (AfterConsole_options (S := SimBoot) (BL := sim_boot_laws) demo_boot ([], []) (mkPool [] 3))
    as (s' & p' & menu & n1 & n2 & E & P & _ & G & _).
  - intros v Hv. cbn in Hv. rewrite !elem_of_cons, elem_of_nil in Hv.
    destruct Hv as [->|[->|[]]]; eexists; (split; [reflexivity|]); eexists; (split; [|reflexivity]); by repeat constructor.
  - done.
  - intros o q Ho. by apply elem_of_nil in Ho.
  - exact I.
  - exists s', p'. split; [exact E|]. split; [exact P|].
    vm_compute in E. injection E as <- _. reflexivity.
Defined.

Lemma UnableToBoot_options_witness :
  List.map Description (EfiBootManagerGetLoadOptions (PlatformBootManagerUnableToBoot (([], []) : SimBoot))) = [Some (chars "UEFI PXE")].
Proof.
  rewrite (UnableToBoot_options (S := SimBoot) (BL := sim_boot_laws) ([], []) EFI_SUCCESS (mkOption 9 0 None None) ([], []) eq_refl eq_refl).
  - vm_compute. reflexivity.
  - cbn. apply (bool_decide_unpack _). vm_compute. exact I.
Defined.

(** Both output variables get the path of the console that has one. *)
Example BeforeConsole_registers :
  (PlatformBootManagerBeforeConsole demo_boot (([], []) : SimBoot)).2 =
    let p := path_bytes [mkNode 3 14 [1]] in [(ConOut, p); (ErrOut, p); (ConIn, p)].
Proof. reflexivity. Qed.
