(* ===== verification/RouterBoot.v ===== *)
(** * The RouterBOOT chain loader

    Application/RouterBootApp: MikroTik's boot loader is read from a firmware
    volume, copied with the device tree to pages that survive the boot services,
    the boot services are left, and the trampoline jumps. The firmware's memory map
    and its exit are an interface with the UEFI specification's rules as laws. *)

From S2P Require Import Prelude Efi.

Definition mRouterBootBinGuid : EFI_GUID :=
  mkGuid 0x7d3a1b2e 0xc5f8 0x4a69 [0xb0; 0x12; 0x4e; 0x8c; 0x6d; 0x1f; 0x3a; 0x95].
Definition EFI_PAGE_SIZE : Z := 4096.
Definition EFI_SIZE_TO_PAGES (n : Z) : Z := n / EFI_PAGE_SIZE + (if Z.land n (EFI_PAGE_SIZE - 1) =? 0 then 0 else 1).

(** A handle of the firmware volume protocol: what HandleProtocol answers, what
    ReadFile returns for the file, in a buffer that it allocates, and the raw
    section that ReadSection puts into that buffer. *)
Record VOLUME := mkVolume {
  rv_protocol : EFI_STATUS;
  rv_file : EFI_STATUS * option (list Z);
  rv_section : EFI_STATUS * list Z
}.

(** The pool and the pages that are allocated. *)
Record MEM := mkMem { m_pool : Pool; m_pages : Z }.
Definition free_pool (m : MEM) : MEM := mkMem (FreePool (m_pool m)) (m_pages m).
Definition pool_taken (m : MEM) : MEM := mkMem (mkPool (pool_script (m_pool m)) (pool_live (m_pool m) + 1)) (m_pages m).
Definition pages_taken (n : Z) (m : MEM) : MEM := mkMem (m_pool m) (m_pages m + n).

(** ** Finding the image and the tree *)

(** The loop over the volumes; a file without a raw section stays allocated. *)
Fixpoint volume_loop (vols : list VOLUME) (m : MEM) : option (list Z) * MEM :=
  match vols with
  | [] => (None, m)
  | v :: rest =>
      if EFI_ERROR (rv_protocol v) then volume_loop rest m
      else
        match rv_file v with
        | (Status, Some Buffer) =>
            if EFI_ERROR Status then volume_loop rest m
            else
              let m := pool_taken m in
              if 0 <? len Buffer then
                let '(Status, Section) := rv_section v in
                if negb (EFI_ERROR Status) then (Some Section, m) else volume_loop rest m
              else volume_loop rest m
        | (_, None) => volume_loop rest m
        end
  end.

Definition LoadRouterBootFromFv (Located : EFI_STATUS) (Handles : list VOLUME) (m : MEM)
    : EFI_STATUS * option (list Z) * MEM :=
  if EFI_ERROR Located then (Located, None, m)
  else
    let '(Image, m) := volume_loop Handles (pool_taken m) in
    match Image with
    | Some Image => (EFI_SUCCESS, Some Image, free_pool m)
    | None => (EFI_NOT_FOUND, None, free_pool m)
    end.

(** The first table of the configuration table with the identifier. *)
Definition FindDtb (gFdtTableGuid : EFI_GUID) (ConfigurationTable : list (EFI_GUID * list Z)) : option (list Z) :=
  option_map snd (List.find (λ t, bool_decide (fst t = gFdtTableGuid)) ConfigurationTable).

(** The size in the header, big endian. *)
Definition dtb_size (Dtb : list Z) : option Z :=
  b4 ← rd Dtb 4; b5 ← rd Dtb 5; b6 ← rd Dtb 6; b7 ← rd Dtb 7;
  Some (Z.lor (Z.lor (Z.lor (Z.shiftl b4 24) (Z.shiftl b5 16)) (Z.shiftl b6 8)) b7).

(** ** Leaving the boot services *)

(** GetMemoryMap with a buffer of a size: the status, the size of the map, the
    key if it is stored, and the size of a descriptor; ExitBootServices with a key;
    AllocatePool at this stage. *)
Class BootServices (B : Type) := {
  GetMemoryMap : Z → B → EFI_STATUS * Z * option Z * Z;
  ExitBootServices : Z → B → EFI_STATUS * B;
  AllocateMap : Z → B → bool * B
}.

(** The application returns, or jumps to the trampoline with the two copies and
    the status of the last ExitBootServices. *)
Inductive OUTCOME := Returned (Status : EFI_STATUS) | Jumped (Dtb Image : list Z) (Exit : EFI_STATUS).

Section Code.
Context {B : Type} `{BootServices B}.

(** The second attempt, whose results are not looked at. Without memory the
    buffer is NULL and GetMemoryMap stores no key. *)
Definition retry_exit (MapKey : Z) (b : B) : EFI_STATUS * B :=
  let '(_, Size, Key, DescriptorSize) := GetMemoryMap 0 b in
  let MapKey := default MapKey Key in
  let Size := Size +u64 2 *u64 DescriptorSize in
  let '(ok, b) := AllocateMap Size b in
  let MapKey := if ok then let '(_, _, Key, _) := GetMemoryMap Size b in default MapKey Key else MapKey in
  ExitBootServices MapKey b.

Definition exit_services (b : B) : (EFI_STATUS + EFI_STATUS) * B :=
  let '(Status, Size, Key, DescriptorSize) := GetMemoryMap 0 b in
  let first :=
    if bool_decide (Status = EFI_BUFFER_TOO_SMALL) then
      let Size := Size +u64 2 *u64 DescriptorSize in
      let '(ok, b) := AllocateMap Size b in
      if negb ok then (inl EFI_OUT_OF_RESOURCES, b)
      else
        let '(Status, _, Key2, _) := GetMemoryMap Size b in
        (if EFI_ERROR Status then inl Status else inr (match Key2 with Some k => Some k | None => Key end), b)
    else (if EFI_ERROR Status then inl Status else inr Key, b) in
  match first with
  | (inl Status, b) => (inl Status, b)
  | (inr Key, b) =>
      let MapKey := default 0 Key in
      let '(Status, b) := ExitBootServices MapKey b in
      if EFI_ERROR Status then let '(Status, b) := retry_exit MapKey b in (inr Status, b) else (inr Status, b)
  end.

(** What AllocatePages answers for the tree and for the image. *)
Definition RouterBootAppEntry (gFdtTableGuid : EFI_GUID) (Located : EFI_STATUS) (Handles : list VOLUME)
    (ConfigurationTable : list (EFI_GUID * list Z)) (DtbPages RbPages : EFI_STATUS) (m : MEM) (b : B)
    : option (OUTCOME * MEM * B) :=
  let '(Status, Image, m) := LoadRouterBootFromFv Located Handles m in
  match Image with
  | None => Some (Returned Status, m, b)
  | Some RouterBootBin =>
      match FindDtb gFdtTableGuid ConfigurationTable with
      | None => Some (Returned EFI_NOT_FOUND, free_pool m, b)
      | Some Dtb =>
          DtbSize ← dtb_size Dtb;
          if EFI_ERROR DtbPages then Some (Returned DtbPages, free_pool m, b)
          else
            let m := pages_taken (EFI_SIZE_TO_PAGES DtbSize) m in
            DtbCopy ← rdn Dtb 0 DtbSize;
            if EFI_ERROR RbPages then Some (Returned RbPages, free_pool m, b)
            else
              let m := free_pool (pages_taken (EFI_SIZE_TO_PAGES (len RouterBootBin)) m) in
              let '(r, b) := exit_services b in
              match r with
              | inl Status => Some (Returned Status, m, b)
              | inr Status => Some (Jumped DtbCopy RouterBootBin Status, m, b)
              end
      end
  end.
End Code.

(** ** The firmware's rules *)

(** The map's size and its key. A failed exit leaves the services; allocating the
    buffer adds at most two descriptors to the map; once an attempt with the
    current key has failed, because a handler changed the map, the next succeeds. *)
Class BootServicesLaws (B : Type) `{BootServices B} := {
  exited : B → bool;
  map_size : B → Z;
  map_key : B → Z;
  desc_size : Z;
  map_bounds b : 0 < map_size b ∧ 0 <= desc_size ∧ map_size b + 2 * desc_size < 2 ^ 64;
  get_law n b : exited b = false → GetMemoryMap n b =
    if n <? map_size b then (EFI_BUFFER_TOO_SMALL, map_size b, None, desc_size)
    else (EFI_SUCCESS, map_size b, Some (map_key b), desc_size);
  allocate_law n b ok b' : exited b = false → AllocateMap n b = (ok, b') →
    exited b' = false ∧ map_size b' <= map_size b + 2 * desc_size;
  exit_law k b st b' : exited b = false → ExitBootServices k b = (st, b') →
    (st = EFI_SUCCESS ∧ k = map_key b ∧ exited b' = true) ∨ (EFI_ERROR st = true ∧ exited b' = false);
  retry_law b st b' n b'' : exited b = false → ExitBootServices (map_key b) b = (st, b') → EFI_ERROR st = true →
    AllocateMap n b' = (true, b'') → (ExitBootServices (map_key b'') b'').1 = EFI_SUCCESS
}.

Section Theorems.
Context {B : Type} `{BootServicesLaws B}.
Implicit Types b : B.

(** With memory for the two buffers. *)
Definition map_memory : Prop := ∀ n b, (AllocateMap n b).1 = true.

Lemma get_twice b : exited b = false →
  GetMemoryMap 0 b = (EFI_BUFFER_TOO_SMALL, map_size b, None, desc_size) ∧
  map_size b +u64 2 *u64 desc_size = map_size b + 2 * desc_size ∧
  ∀ ok b', AllocateMap (map_size b + 2 * desc_size) b = (ok, b') → exited b' = false ∧
    GetMemoryMap (map_size b + 2 * desc_size) b' = (EFI_SUCCESS, map_size b', Some (map_key b'), desc_size).
Proof.
  intros Hb. destruct (map_bounds b) as (B1 & B2 & B3). split_and!.
  - rewrite get_law by done. by rewrite (proj2 (Z.ltb_lt _ _)).
  - unfold u64. rewrite (Z.mod_small (2 * desc_size)) by lia. apply Z.mod_small. lia.
  - intros ok b' E. destruct (allocate_law _ _ _ _ Hb E) as [E1 E2]. split; [done|]. rewrite get_law by done.
    by rewrite (proj2 (Z.ltb_ge _ _)) by lia.
Qed.

(** Leaving the services: with memory it succeeds, at the first or the second
    attempt; without it, the application returns with the services running, or the
    second attempt uses the old key. *)
Lemma exit_services_run b : exited b = false →
  ∃ r b', exit_services b = (r, b') ∧
    (r = inl EFI_OUT_OF_RESOURCES ∧ exited b' = false ∨ ∃ st, r = inr st ∧ (exited b' = true ↔ st = EFI_SUCCESS)) ∧
    (map_memory → r = inr EFI_SUCCESS ∧ exited b' = true).
Proof.
  intros Hb. unfold exit_services. destruct (get_twice b Hb) as (-> & -> & K). rewrite bool_decide_eq_true_2 by done.
  destruct (AllocateMap (map_size b + 2 * desc_size) b) as [ok b1] eqn:EA.
  destruct (K ok b1 eq_refl) as [Hb1 EG]. destruct ok; cbn [negb].
  2: { eexists _, b1. split; [reflexivity|]. split; [by left|]. intros M. specialize (M (map_size b + 2 * desc_size) b).
       by rewrite EA in M. }
  rewrite EG. cbn [EFI_ERROR]. change (default 0 (Some (map_key b1))) with (map_key b1).
  destruct (ExitBootServices (map_key b1) b1) as [st b2] eqn:EX.
  destruct (exit_law _ _ _ _ Hb1 EX) as [(-> & _ & Hx)|[He Hx]].
  { cbn [EFI_ERROR]. eexists _, b2. split; [reflexivity|]. split; [right; by exists EFI_SUCCESS|done]. }
  rewrite He. unfold retry_exit. destruct (get_twice b2 Hx) as (-> & -> & K2). change (default (map_key b1) None) with (map_key b1).
  destruct (AllocateMap (map_size b2 + 2 * desc_size) b2) as [ok b3] eqn:EA2.
  destruct (K2 ok b3 eq_refl) as [Hb3 EG2].
  set (k := if ok then _ else _). destruct (ExitBootServices k b3) as [st2 b4] eqn:EX2.
  eexists _, b4. split; [reflexivity|]. split.
  - right. exists st2. split; [done|]. destruct (exit_law _ _ _ _ Hb3 EX2) as [(-> & _ & ->)|[He2 ->]]; [done|].
    split; [done|]. intros ->. done.
  - intros M. specialize (M (map_size b2 + 2 * desc_size) b2). rewrite EA2 in M. cbn in M. subst ok.
    unfold k in EX2. rewrite EG2 in EX2. change (default (map_key b1) (Some (map_key b3))) with (map_key b3) in EX2.
    pose proof (retry_law _ _ _ _ _ Hb1 EX He EA2) as R. rewrite EX2 in R. cbn in R. subst st2.
    destruct (exit_law _ _ _ _ Hb3 EX2) as [(_ & _ & Hx4)|[? _]]; done.
Qed.

(** The volume the image comes from, and the files left allocated on the way. *)
Definition has_image (v : VOLUME) : bool :=
  negb (EFI_ERROR (rv_protocol v)) && negb (EFI_ERROR (rv_file v).1) &&
  match (rv_file v).2 with Some Buffer => 0 <? len Buffer | None => false end && negb (EFI_ERROR (rv_section v).1).
Definition left_over (v : VOLUME) : bool :=
  negb (EFI_ERROR (rv_protocol v)) && negb (EFI_ERROR (rv_file v).1) &&
  match (rv_file v).2 with Some _ => true | None => false end && negb (has_image v).

Lemma volume_loop_run vols m :
  ∃ m', volume_loop vols m = (option_map (λ v, (rv_section v).2) (List.find has_image vols), m') ∧
    m_pages m' = m_pages m ∧ pool_script (m_pool m') = pool_script (m_pool m) ∧
    pool_live (m_pool m) <= pool_live (m_pool m') ∧
    (Forall (λ v, left_over v = false) vols →
       pool_live (m_pool m') = pool_live (m_pool m) + (if List.find has_image vols then 1 else 0)).
Proof.
  revert m. induction vols as [|v vols IH]; intros m; [exists m; split_and!; [done..|lia|intros _; cbn; lia]|].
  cbn [volume_loop List.find]. unfold has_image at 1 3.
  destruct (EFI_ERROR (rv_protocol v)) eqn:E1; cbn [negb andb].
  { destruct (IH m) as (m' & E & P & Sc & L & F). exists m'. split_and!; try done. intros K. apply F. by inversion K. }
  destruct (rv_file v) as [st [Buffer|]] eqn:E2; cbn [fst snd].
  2: { rewrite andb_false_r. cbn [andb]. destruct (IH m) as (m' & E & P & Sc & L & F). exists m'. split_and!; try done.
       intros K. apply F. by inversion K. }
  destruct (EFI_ERROR st) eqn:E3; cbn [negb andb].
  { destruct (IH m) as (m' & E & P & Sc & L & F). exists m'. split_and!; try done. intros K. apply F. by inversion K. }
  destruct (IH (pool_taken m)) as (m' & E & P & Sc & L & F). cbn [pool_taken m_pool m_pages pool_live pool_script] in *.
  assert (left_over v = negb (has_image v)) as LO.
  { unfold left_over. rewrite E1, E2. cbn [fst snd]. by rewrite E3. }
  destruct (0 <? len Buffer) eqn:E4; cbn [andb].
  - destruct (rv_section v) as [st2 Sec] eqn:E5. cbn [fst snd]. destruct (EFI_ERROR st2) eqn:E6; cbn [negb].
    + exists m'. split_and!; try (done || lia). intros K. inversion K as [|? ? K1 K2]; subst. rewrite LO in K1.
      unfold has_image in K1. rewrite E1, E2, E5 in K1. cbn [fst snd] in K1. by rewrite E3, E4, E6 in K1.
    + exists (pool_taken m). cbn. rewrite E5. split_and!; (done || lia).
  - exists m'. split_and!; try (done || lia). intros K. inversion K as [|? ? K1 K2]; subst. rewrite LO in K1.
    unfold has_image in K1. rewrite E1, E2 in K1. cbn [fst snd] in K1. by rewrite E3, E4 in K1.
Qed.

(** A tree as long as its header says. *)
Definition dtb_ok (Dtb : list Z) : Prop := ∃ n, dtb_size Dtb = Some n ∧ 0 <= n <= len Dtb.

(** The application on every branch, over a tree that is as long as its header
    says. It jumps with the raw section of the first volume that has the file and
    with a copy of the whole tree, or returns an error with the services running.
    The image's buffer is freed, and the pool is as before if every file found has
    a section. With memory for the map the jump is made with the services left;
    the status it carries, which the code does not look at, tells when they are. *)
Theorem RouterBootApp_exact g Located Handles tables DtbPages RbPages m b
  (Hb : exited b = false) (Htree : ∀ Dtb, FindDtb g tables = Some Dtb → dtb_ok Dtb) :
  ∃ out m' b', RouterBootAppEntry g Located Handles tables DtbPages RbPages m b = Some (out, m', b') ∧
    match out with
    | Returned Status => EFI_ERROR Status = true ∧ exited b' = false
    | Jumped dtb image st =>
        (∃ v, List.find has_image Handles = Some v ∧ image = (rv_section v).2) ∧
        (∃ Dtb n, FindDtb g tables = Some Dtb ∧ dtb_size Dtb = Some n ∧ dtb = take (Z.to_nat n) Dtb) ∧
        (exited b' = true ↔ st = EFI_SUCCESS)
    end ∧
    (Forall (λ v, left_over v = false) Handles → pool_live (m_pool m') = pool_live (m_pool m)) ∧
    (map_memory → EFI_ERROR Located = false → is_Some (List.find has_image Handles) → is_Some (FindDtb g tables) →
     EFI_ERROR DtbPages = false → EFI_ERROR RbPages = false → ∃ dtb image, out = Jumped dtb image EFI_SUCCESS).
Proof.
  unfold RouterBootAppEntry, LoadRouterBootFromFv. destruct (EFI_ERROR Located) eqn:EL.
  { eexists (Returned Located), m, b. by split_and!. }
  destruct (volume_loop_run Handles (pool_taken m)) as (m1 & E & _ & _ & _ & F). rewrite E. clear E.
  cbn [pool_taken m_pool pool_live] in F.
  destruct (List.find has_image Handles) as [v|] eqn:EV; cbn [option_map].
  2: { eexists (Returned EFI_NOT_FOUND), _, b. split; [reflexivity|]. cbn. split_and!; [done|done|intros K; specialize (F K); lia|].
       intros _ _ [? [=]]. }
  destruct (FindDtb g tables) as [Dtb|] eqn:ED.
  2: { eexists (Returned EFI_NOT_FOUND), _, b. split; [reflexivity|]. cbn. split_and!; [done|done|intros K; specialize (F K); lia|].
       intros _ _ _ [? [=]]. }
  destruct (Htree Dtb eq_refl) as (n & En & Hn). rewrite En. cbn [mbind option_bind].
  destruct (EFI_ERROR DtbPages) eqn:E1.
  { eexists (Returned DtbPages), _, b. split; [reflexivity|]. cbn. split_and!; [done|done|intros K; specialize (F K); lia|done]. }
  rewrite rdn_eq by lia. cbn [mbind option_bind]. rewrite drop_0.
  destruct (EFI_ERROR RbPages) eqn:E2.
  { eexists (Returned RbPages), _, b. split; [reflexivity|]. cbn. split_and!; [done|done|intros K; specialize (F K); lia|done]. }
  destruct (exit_services_run b Hb) as (r & b' & -> & Hr & HM).
  destruct r as [st|st]; eexists _, _, b'; (split; [reflexivity|]).
  - destruct Hr as [[[= ->] Hx]|(? & [=] & _)]. split_and!; [done|done|cbn; intros K; specialize (F K); lia|].
    intros M _ _ _ _ _. by destruct (HM M) as [[=] _].
  - destruct Hr as [[[=] _]|(st' & [= <-] & Hx)]. split_and!; [by exists v|by exists Dtb, n|exact Hx|cbn; intros K; specialize (F K); lia|].
    intros M _ _ _ _ _. destruct (HM M) as [[= ->] _]. by eexists _, _.
Qed.
End Theorems.

(** ** A firmware *)

(** The map's size and key, whether a handler will spoil the next attempt, whether
    the services are left, and how many allocations will succeed. *)
Record SimBs := mkSimBs { bs_size : Z; bs_key : Z; bs_spoil : bool; bs_exited : bool; bs_alloc : nat }.

(** The map may grow by a descriptor while there is room for the size of a word. *)
#[export] Instance sim_services : BootServices SimBs := {|
  GetMemoryMap n b :=
    let size := Z.max 48 (Z.min (bs_size b) (2 ^ 63)) in
    if n <? size then (EFI_BUFFER_TOO_SMALL, size, None, 48) else (EFI_SUCCESS, size, Some (bs_key b), 48);
  ExitBootServices k b :=
    if negb (k =? bs_key b) then (EFI_INVALID_PARAMETER, b)
    else if bs_spoil b then (EFI_INVALID_PARAMETER, mkSimBs (bs_size b) (bs_key b + 1) false (bs_exited b) (bs_alloc b))
    else (EFI_SUCCESS, mkSimBs (bs_size b) (bs_key b) false true (bs_alloc b));
  AllocateMap n b :=
    match bs_alloc b with
    | O => (false, b)
    | S k => (true, mkSimBs (bs_size b + 48) (bs_key b + 1) (bs_spoil b) (bs_exited b) k)
    end
|}.

#[export] Program Instance sim_services_laws : BootServicesLaws SimBs := {|
  exited := bs_exited; map_size b := Z.max 48 (Z.min (bs_size b) (2 ^ 63)); map_key := bs_key; desc_size := 48
|}.
Next Obligation. intros b. cbn. split_and!; lia. Qed.
Next Obligation. done. Qed.
Next Obligation. intros n b ok b' Hb. cbn. destruct (bs_alloc b); intros [= <- <-]; cbn; split; (done || lia). Qed.
Next Obligation.
  intros k b st b' Hb. cbn. destruct (Z.eqb_spec k (bs_key b)) as [->|Hk]; cbn [negb].
  - destruct (bs_spoil b); intros [= <- <-]; [by right|by left].
  - intros [= <- <-]. by right.
Qed.
Next Obligation.
  intros b st b' n b'' Hb. cbn. rewrite Z.eqb_refl. cbn [negb]. destruct (bs_spoil b); intros [= <- <-] He; [|done].
  cbn [bs_alloc]. destruct (bs_alloc b); intros [= <-]. cbn. by rewrite Z.eqb_refl.
Qed.

Definition demo_fdt : EFI_GUID := mkGuid 1 2 3 [].
Definition demo_dtb : list Z := [0xD0; 0x0D; 0xFE; 0xED; 0; 0; 0; 10; 7; 7; 9; 9; 9].
Definition demo_handles : list VOLUME :=
  [mkVolume EFI_SUCCESS (EFI_NOT_FOUND, None) (EFI_NOT_FOUND, []); mkVolume EFI_SUCCESS (EFI_SUCCESS, Some [4; 5; 6]) (EFI_SUCCESS, [5; 6])].
Definition demo_services : SimBs := mkSimBs 480 7 true false 2.

(** A timer changes the map during the first attempt; the second succeeds. *)
Lemma RouterBootApp_exact_witness :
  ∃ dtb image m' b', RouterBootAppEntry demo_fdt EFI_SUCCESS demo_handles [(demo_fdt, demo_dtb)] EFI_SUCCESS EFI_SUCCESS
      (mkMem (mkPool [] 4) 0) demo_services = Some (Jumped dtb image EFI_SUCCESS, m', b') ∧
    dtb = take 10 demo_dtb ∧ image = [5; 6] ∧ bs_exited b' = true ∧ pool_live (m_pool m') = 4 ∧ m_pages m' = 2.
Proof.
  destruct (RouterBootApp_exact (B := SimBs) (H0 := sim_services_laws) demo_fdt EFI_SUCCESS demo_handles [(demo_fdt, demo_dtb)] EFI_SUCCESS EFI_SUCCESS
    (mkMem (mkPool [] 4) 0) demo_services eq_refl) as (out & m' & b' & E & K & _ & _).
  - intros Dtb. cbn. intros [= <-]. exists 10. split; [reflexivity|]. cbn. lia.
  - vm_compute in E. injection E as <- <- <-. eexists _, _, _, _. split; [vm_compute; reflexivity|]. by split_and!.
Defined.

(** Without memory for the second map the trampoline is entered with the services
    running. *)
Example jump_with_services :
  option_map (λ '(out, _, b'), (match out with Jumped _ _ st => Some st | Returned _ => None end, bs_exited b'))
    (RouterBootAppEntry demo_fdt EFI_SUCCESS demo_handles [(demo_fdt, demo_dtb)] EFI_SUCCESS EFI_SUCCESS
      (mkMem (mkPool [] 4) 0) (mkSimBs 480 7 true false 1)) = Some (Some EFI_INVALID_PARAMETER, false).
Proof. reflexivity. Qed.
